(* ===== verification/_CoqProject ===== *)
-Q . S2P
Prelude.v
Bitfield.v
Chain.v
Table.v
Sizing.v
TableFacts.v
TableDma.v
TableInsert.v
TableDelete.v
TableHandle.v
TableHold.v
NatRule.v
NatRuleFacts.v
Ipv6Rule.v
Ipv6Facts.v
Env.v
TableMem.v
Ipv6ct.v
Ipv6Ops.v
Ipv6State.v
RecordUpdate.v
KernelEnv.v
Hal.v
HalCmd.v
KNat.v
KNatOps.v
KIoctl.v
KernelLaws.v
KSend.v
KUser.v
KInv.v
KAlloc.v
KInit.v
KHandlers.v
KRelease.v
KReach.v
KRace.v
KCreate.v
NatTable.v
NatOps.v
NatWalk.v
NatMap.v
Statemach.v
NatDrv.v
NatWf.v
NatAdd.v
NatDel.v
KCompose.v
KDemo.v
NatSpec.v
NatState.v
MachRun.v
NatStats.v
MachView.v
MachCopy.v
MachSwitch.v
MachHybrid.v
Demo.v
Ipv6Calls.v
TableTheorems.v
NatTheorems.v
NatErrors.v
NatLaws.v
Ipv6Theorems.v
MachTheorems.v
KernelTheorems.v
Interleave.v
PmData.v
PmOps.v
PmMach.v
PmInv.v
PmScale.v
PmKeeps.v
PmCalls.v
PmReach.v
PmSafe.v
PmReady.v
PmLive.v
PmDemo.v
PmTheorems.v
