(* ===== verification/Prelude.v ===== *)
(** * IPA: NAT offload from the library to the kernel, and the power manager:
    a verification development

    The repository collects the out-of-tree kernel modules of a Qualcomm
    platform.  Nearly all of it drives hardware; this development verifies two
    parts that are an algorithm and a contract: the IPA NAT offload library of
    [src/qcom/opensource/dataipa/ipanat], which keeps the network address
    translation tables that the IPA hardware reads, with the kernel driver that
    gives it the memory and carries out its commands
    ([src/qcom/opensource/dataipa/drivers/platform/msm/ipa/ipa_v3]); and the
    power manager of that driver, which decides when the IPA clocks run and how
    fast.  Paths below are relative to the first directory, for files named
    [ipa_nat.c], [ipa_pm.c], [ipa_pm.h], [ipa.c] and [ipahal*] to the second.

    * The program

    A client (the connection manager) creates a NAT table, adds a rule per
    connection and deletes it when the connection ends.  A table is two hash
    tables in memory the hardware reads: the NAT table, whose buckets packets
    of one direction hash to, and the index table for the other direction.
    Records are linked into chains by index; the library writes a new record
    itself but lets the hardware's DMA make it visible (the enable bit, the
    previous record's next index), so that no packet sees half a rule.  Tables
    can be in DDR or in SRAM; a state machine above them chooses, and may move
    all rules from one to the other while the client's handles stay valid.

    The library asks the kernel driver for the memory of a table, maps it,
    tells the driver where in it the tables lie, and sends the DMA entries.
    The driver checks these numbers, which come from user space, and builds
    immediate commands for the hardware.

    Drivers that use the IPA are clients of the power manager.  An active client
    holds a vote; the clocks run while the counter of votes is positive.
    Activation may have to wait for the clocks and is then left to a work queue;
    deactivation may be deferred by a timer, and an activation may come before
    it.  From the throughputs of the active clients the manager computes a clock
    plan.  Client state is guarded by a lock per client, the list of clients by
    a mutex, the counter is atomic, the clocks have a mutex; the manager is as
    much an interleaving of these as it is a function.

    * The model

    - [Prelude], [Bitfield], [Chain]: widths of machine integers, lists with
      integer indices, records of bit fields as integers, and the abstract
      shape of chained tables.
    - [Table] ([src/ipa_table.c], [inc/ipa_table.h]): the generic table.  Its
      records are integers, addresses are integers, a load or store outside
      the records is [None].  The type-specific callbacks are the record
      [ipa_table_entry_interface], as in the code.  [Sizing] has the sizing
      functions with the floating point arithmetic of the source.
    - [NatRule], [NatTable], [NatOps], [NatWalk] ([src/ipa_nat_drvi.c]): the
      two record layouts, checksums and hashes; creation of tables and PDNs;
      the [ipa_NATI_*] functions; walks, copies and statistics.  The static
      variables are the record [nat_state].
    - [Env] ([src/ipa_nat_utils.c], [src/ipa_mem_descriptor.c]): descriptors
      and table memory.  The ioctls, [mmap] and the mutex are not in the
      library: they are the class [IpaEnv], functions on a state [K] of the
      world.  [IpaEnvLaws] and [IpaMemLaws] say what proofs may rely on: a DMA
      ioctl that reports success wrote the half words of its command in order
      and one that fails wrote nothing; [mmap] never maps the null address, an
      allocation ioctl keeps the offset it is given, the SRAM that is offered
      lies in the mapping.  [Demo] has an instance.
    - [NatMap] ([src/ipa_nat_map.cpp]), [Statemach]
      ([src/ipa_nat_statemach.c], [inc/ipa_nat_statemach.h]), [NatDrv]
      ([src/ipa_nat_drv.c]): handle maps, the state machine with its table of
      callbacks, and the public functions.  The library's static variables are
      the record [nat_mgr].
    - [Ipv6Rule], [Ipv6ct] ([src/ipa_ipv6ct.c], [inc/ipa_ipv6cti.h],
      [inc/ipa_ipv6ct.h]): IPv6 connection tracking, the second client of the
      generic table and of the table memory: its record layout, its hash, and
      the [ipa_ipv6ct_*] functions on the record [ipa_ipv6ct].  Its two ioctls
      for micro-controller entries are the class [Ipv6Env].
    - [KernelEnv], [Hal], [HalCmd], [KNat], [KNatOps], [KIoctl]
      ([ipa_nat.c], the NAT cases of [ipa3_ioctl] in [ipa.c],
      [ipahal/ipahal_nat.c], [ipahal/ipahal.c] and their headers): the kernel
      driver.  [Hal] and [HalCmd] are the layouts of records and command
      payloads and the tables that choose them by hardware version; [KNat] the
      two devices and their state (the record [ipa3_context], updated with the
      notation of [RecordUpdate]); [KNatOps] the operations; [KIoctl] the
      requests.  Linux and the hardware are the class [KernelEnv], the fixed
      numbers of a platform the class [ipa3_config].  A request is one step,
      except in [KRace], where the two halves of [ipa3_nat_init_cmd]
      ([nat_init_check], [nat_init_commit]) are interleaved with other
      requests, as that function takes no lock.

    - [Interleave], [PmData], [PmOps], [PmMach] ([ipa_pm.c], [ipa_pm.h], the
      clock votes and clock plans of [ipa.c]): the power manager.  A function
      that interleaves is a program [prog], a tree of atomic actions on the
      shared state [pm]: the critical sections of a client's state lock and of
      [client_mutex], which do not wait inside, are single actions; the clock
      mutex is taken and released, since its holder waits for hardware; atomic
      operations and unlocked accesses are actions each, in the order of the
      source.  [calculate_throughput] reads the states of all clients in one
      action.  Clients are in a heap from which a freed client is gone, delayed
      work is an armed timer, the single threaded work queue is a list that
      an item joins unless it is in it, as in Linux.  The
      parameters of a platform are the class [pm_config].  The machine of
      [PmMach] interleaves calls in any number of threads, the work queue, the
      timers and other drivers' votes.  A client's callback is recorded
      and does nothing else.

    A function of the source is the definition of the same name.  It returns
    its status, the values it writes through pointers, and the new state, in
    an [option]: [None] is undefined behaviour of the C code (an access out of
    bounds, a null pointer) and, for the recursive definitions with fuel, too
    little fuel.  Debug output is left out.

    * Fuel

    - Following a chain: the number of records plus one ([chain_end_found],
      [statistics_are_right] prove it enough for well-formed tables).
    - [statemach]: three nested triggers ([three_levels_are_enough]).
    - [Get2PowerTightUpperBound]: seventeen halvings of a sixteen bit number.
    - [ipa_calc_num_sram_table_entries]: 65536 rounds, after which the source
      would loop for ever ([sram_capacity] for sizes below a million bytes).
    - [calculate_throughput]: one round per demand, plus one; the array gets
      shorter with every round ([calculate_throughput_spec]).

    * What is proved

    - [TableFacts], [TableDma], [TableInsert], [TableDelete], [TableHandle],
      [TableHold], [TableMem], [Sizing]: the generic table
      against the class [TableEntryLaws] of record layouts:
      the invariant [wf_table], searches end and find, insertions and
      deletions change the chains as [Chain] says, handles round trip, walks
      visit what is in use, a refused call changes nothing.  [TableHold]
      is what a client needs: which handles it holds and the map
      from them to its rules; [TableMem] is the effect of a DMA command on the
      memory of the tables.  The properties are in [TableTheorems].
    - [NatRuleFacts], [NatWf], [NatAdd], [NatDel], [NatSpec],
      [NatState]: both NAT layouts are instances of the class; the
      invariant [wf_nat] between the two tables; a table is a finite map from
      handles to translations, and adding, deleting, creating and destroying
      act on it as insertion, deletion, making empty and forgetting; every run
      of [permitted] calls (existing handles, PDN indices below 16) in which the
      driver refuses no deletion is a run of that contract.  [NatStats]:
      clearing, statistics, queries.  The
      properties are in [NatTheorems], [NatLaws] and [NatErrors].
    - [MachRun], [MachView], [MachCopy], [MachSwitch],
      [MachHybrid]: the state machine ends; what surrounds a callback leaves
      the tables alone; the client's view through the handle maps survives a
      move between the memory types and grows and shrinks with its calls.  The
      properties are in [MachTheorems].
    - [Ipv6Facts], [Ipv6Ops], [Ipv6State], [Ipv6Calls]: the connection tracking layout is an instance
      of the same class, its hash always ends in the base table, every call is
      a step of the contract [ct_step] on a finite map from handles to flows.
      The properties are in [Ipv6Theorems].
    - [KernelLaws], [KSend], [KUser]: every supported version of the hardware
      has the layouts and constructors the driver calls; a list of commands
      fits its array; an accepted DMA command has the effect of its entries.
      [KernelLaws] is what is assumed of Linux and the hardware: allocated
      memory is fresh, commands reported done were carried out in order and
      others not at all.  [KUser]: the driver as an instance of
      the library's environment [IpaEnv], and that it keeps the library's laws.
    - [KInv], [KAlloc], [KInit], [KHandlers], [KRelease], [KReach]: the
      invariant [driver_ok] - the driver owns what it points to, and the
      hardware's tables lie in memory it owns - is kept by every request
      whatever its numbers and whatever fails, when the temporary memory lies
      below 4 GB (its address is truncated otherwise), but not when requests are
      interleaved with an initialisation ([KRace]).  [KCreate]: what is left
      behind when memory runs out, and the sizes DMA entries are checked by.
    - [KCreate], [KCompose]: library and driver together, from the
      call that creates a table to the addresses the hardware gets.  That
      nothing fails is the hypothesis [Cooperative] and [CooperativeUser], that
      the numbers of the platform fit the command fields [ConfigFits]; [KDemo]
      has a kernel and hardware that satisfy them.  The properties of the
      driver are in [KernelTheorems].
    - [NatErrors] and part of [MachTheorems] and [KernelTheorems] prove where the code does not
      keep the promise: statuses that are overwritten, handles that collide, a
      table that is lost, out of bounds accesses, a flag that is cleared,
      checks against the wrong size, a race with a deletion.

    - [PmInv], [PmKeeps], [PmCalls], [PmReach], [PmSafe]: the power manager's
      invariant.  Ghost state records for every thread the votes it carries
      between the counter and a client, and the phase of its call.  [keeps] of
      [Interleave] is the proof rule: every action of a program, whatever other
      threads did before it, re-establishes the invariant.  Calls are made as
      [permitted] says: those of one client do not overlap, a client does not
      activate while its last activation is in progress or being executed, and
      a client is not deregistered, nor all clients deactivated, while others
      run (these run alone, in [PmReady]).  Then no reachable state crashes, and
      the counter is the sum of the votes.  [PmLive]: no deadlock, and only
      finitely many steps.  [PmReady]: initialisation, registration and
      deregistration lead to a state in which the invariant holds.  [PmScale]:
      the throughput algorithm and the outcome of clock scaling that runs
      alone.  The properties are in [PmTheorems]; that no interrupt of the GSI
      is pending is their hypothesis.  [PmDemo] has a platform and schedules,
      which show what goes wrong when a client activates too early ([serialised]
      calls only), and when clock scaling is overtaken.

    [Demo] runs the library in a concrete environment, [KDemo] the driver,
    [PmDemo] the power manager; the witnesses of the theorems are instances
    there.  Theorems of the [*Theorems] files without a number are of the same kind as the numbered
    ones and less important.

    * Not modelled

    - Printing and debugging ([ipa_nat_dump_ipv4_table], [print_nat_rule],
      [ipa_nat_map_dump], [ipa_read_debug_info], time measurements): output
      only.
    - Concurrency within the library: every call holds the mutex while it touches the state, so a
      call is one step.  Reads before the mutex is taken (the PDN, the
      protocol) are modelled at the same point of the sequence.
    - Of the power manager: its printed statistics ([ipa_pm_stat],
      [ipa_pm_exceptions_stat], [ipa_get_pm_client_stats_filled]), the log of
      votes, the commands that close open aggregation frames before the clocks
      stop, and callbacks that call the manager.
    - Of the kernel driver: messages, page protection and faults of a mapping,
      the file operation [open], and the constructors and register layouts that
      other parts of the IPA driver use.  Addresses of registers are numbers of
      [ipa3_config].
    - The hash token is an [int] that grows with every rule that is [src_only]
      or [dst_only]; it is unbounded here, in C it would overflow after 2^31 additions.
    - The other module trees (audio, Bluetooth, camera, RmNet, display, DSP,
      graphics, video, wireless, touch, NFC) and the rest of the IPA drivers:
      they sequence hardware registers, firmware messages and kernel objects
      whose behaviour is not in the repository. *)
From stdpp Require Export base tactics option list numbers strings gmap.
From Stdlib Require Export ZArith Lia.
Export ListNotations.

#[global] Open Scope Z_scope.

(** ** Error codes and machine widths *)

(** The negative errno values the library returns. *)
Definition EPERM : Z := 1.
Definition EIO : Z := 5.
Definition ENOMEM : Z := 12.
Definition EINVAL : Z := 22.

(** Conversion to an unsigned type of the given width: C keeps the low bits. *)
Definition u8 (x : Z) : Z := x mod 2 ^ 8.
Definition u16 (x : Z) : Z := x mod 2 ^ 16.
Definition u32 (x : Z) : Z := x mod 2 ^ 32.
Definition u64 (x : Z) : Z := x mod 2 ^ 64.

Lemma u8_small x : 0 <= x < 256 -> u8 x = x.
Proof. apply Z.mod_small. Qed.

Lemma u16_small x : 0 <= x < 65536 -> u16 x = x.
Proof. apply Z.mod_small. Qed.

Lemma u32_small x : 0 <= x < 4294967296 -> u32 x = x.
Proof. apply Z.mod_small. Qed.

Lemma u8_range x : 0 <= u8 x < 256.
Proof. apply Z.mod_pos_bound. lia. Qed.

Lemma u16_range x : 0 <= u16 x < 65536.
Proof. apply Z.mod_pos_bound. lia. Qed.

Lemma u32_range x : 0 <= u32 x < 4294967296.
Proof. apply Z.mod_pos_bound. lia. Qed.

(** ** Arrays

    A C array is a list; an index is a [Z]. A read or a write outside the
    array is undefined behaviour and gives [None]. *)

Definition lookupZ {A} (l : list A) (i : Z) : option A :=
  if decide (0 <= i) then l !! Z.to_nat i else None.

Definition updateZ {A} (l : list A) (i : Z) (x : A) : list A :=
  if decide (0 <= i) then <[Z.to_nat i := x]> l else l.

Definition storeZ {A} (l : list A) (i : Z) (x : A) : option (list A) :=
  match lookupZ l i with
  | Some _ => Some (updateZ l i x)
  | None => None
  end.

Definition lengthZ {A} (l : list A) : Z := Z.of_nat (length l).

Declare Scope carray_scope.
Delimit Scope carray_scope with carray.
Notation "l .[ i ]" := (lookupZ l i) (at level 1, i at level 200, left associativity, format "l .[ i ]") : carray_scope.
Notation "l .[ i <- x ]" := (updateZ l i x) (at level 1, i at level 200, left associativity, format "l .[ i  <-  x ]") : carray_scope.
#[global] Open Scope carray_scope.

Section Arrays.
Context {A : Type}.
Implicit Types (l : list A) (i j : Z) (x y : A).

Lemma lookupZ_is_Some l i : is_Some l.[i] <-> 0 <= i < lengthZ l.
Proof.
  unfold lookupZ, lengthZ. case_decide.
  - rewrite lookup_lt_is_Some. lia.
  - split; [intros [? [=]]|lia].
Qed.

Lemma lookupZ_Some_range l i x : l.[i] = Some x -> 0 <= i < lengthZ l.
Proof. intros H. apply lookupZ_is_Some. eauto. Qed.

Lemma lookupZ_in_range l i : 0 <= i < lengthZ l -> exists x, l.[i] = Some x.
Proof. intros H. by apply lookupZ_is_Some in H as [x Hx]; eauto. Qed.

Lemma lookupZ_None l i : l.[i] = None <-> ~ 0 <= i < lengthZ l.
Proof. rewrite <- lookupZ_is_Some, eq_None_not_Some. done. Qed.

Lemma lengthZ_updateZ l i x : lengthZ l.[i <- x] = lengthZ l.
Proof. unfold lengthZ, updateZ. case_decide; [by rewrite length_insert|done]. Qed.

Lemma lengthZ_nonneg l : 0 <= lengthZ l.
Proof. unfold lengthZ. lia. Qed.

Lemma lookupZ_updateZ_eq l i x : 0 <= i < lengthZ l -> l.[i <- x].[i] = Some x.
Proof.
  unfold lookupZ, updateZ, lengthZ. intros H. rewrite !decide_True by lia.
  apply list_lookup_insert_eq. lia.
Qed.

Lemma lookupZ_updateZ_ne l i j x : i <> j -> l.[i <- x].[j] = l.[j].
Proof.
  unfold lookupZ, updateZ. intros H. repeat case_decide; try done.
  apply list_lookup_insert_ne. lia.
Qed.

Lemma lookupZ_updateZ l i j x :
  0 <= i < lengthZ l -> l.[i <- x].[j] = if decide (i = j) then Some x else l.[j].
Proof.
  intros H. case_decide; subst;
    [by apply lookupZ_updateZ_eq|by apply lookupZ_updateZ_ne].
Qed.

Lemma storeZ_Some l i x : 0 <= i < lengthZ l -> storeZ l i x = Some l.[i <- x].
Proof. intros [y Hy]%lookupZ_in_range. unfold storeZ. by rewrite Hy. Qed.

Lemma storeZ_inv l i x l' :
  storeZ l i x = Some l' -> l' = l.[i <- x] /\ 0 <= i < lengthZ l.
Proof.
  unfold storeZ. destruct (l.[i]) eqn:E; [|done]. intros [= <-].
  split; [done|]. by eapply lookupZ_Some_range.
Qed.

Lemma updateZ_id l i x : l.[i] = Some x -> l.[i <- x] = l.
Proof.
  unfold lookupZ, updateZ. case_decide; [|done]. apply list_insert_id.
Qed.

Lemma updateZ_updateZ_eq l i x y : l.[i <- x].[i <- y] = l.[i <- y].
Proof. unfold updateZ. case_decide; [|done]. apply list_insert_insert_eq. Qed.

Lemma updateZ_comm l i j x y : i <> j -> l.[i <- x].[j <- y] = l.[j <- y].[i <- x].
Proof.
  unfold updateZ. intros H. repeat case_decide; try done.
  apply list_insert_insert_ne. lia.
Qed.

Lemma lookupZ_ext l l' :
  lengthZ l = lengthZ l' -> (forall i, 0 <= i < lengthZ l -> l.[i] = l'.[i]) -> l = l'.
Proof.
  intros Hlen H. apply list_eq. intros i. unfold lengthZ in *.
  destruct (decide (i < length l)%nat) as [Hi|Hi].
  - specialize (H (Z.of_nat i)). unfold lookupZ in H.
    rewrite !decide_True, !Nat2Z.id in H by lia. apply H. lia.
  - rewrite !lookup_ge_None_2; [done|lia|lia].
Qed.
End Arrays.

(** ** Counting the positions of an array segment that satisfy a test *)

Fixpoint count_from {A} (p : A -> bool) (l : list A) (i : Z) (n : nat) : Z :=
  match n with
  | O => 0
  | S n' => (match l.[i] with Some x => Z.b2z (p x) | None => 0 end)
            + count_from p l (i + 1) n'
  end.

(** [countZ p l lo hi] counts the [i] with [lo <= i < hi] and [p l[i]]. *)
Definition countZ {A} (p : A -> bool) (l : list A) (lo hi : Z) : Z :=
  count_from p l lo (Z.to_nat (hi - lo)).

Section Counting.
Context {A : Type} (p : A -> bool).
Implicit Types (l : list A).

Lemma count_from_update_out l i n j x :
  ~ (i <= j < i + Z.of_nat n) -> count_from p l.[j <- x] i n = count_from p l i n.
Proof.
  revert i. induction n as [|n IH]; intros i H; [done|]. cbn [count_from].
  rewrite IH by lia. rewrite lookupZ_updateZ_ne by lia. done.
Qed.

Lemma count_from_update_in l i n j x y :
  i <= j < i + Z.of_nat n -> l.[j] = Some y ->
  count_from p l.[j <- x] i n = count_from p l i n + Z.b2z (p x) - Z.b2z (p y).
Proof.
  revert i. induction n as [|n IH]; intros i H Hy; [lia|]. cbn [count_from].
  destruct (decide (i = j)) as [->|Hne].
  - rewrite count_from_update_out by lia.
    rewrite lookupZ_updateZ_eq by (by eapply lookupZ_Some_range). rewrite Hy. lia.
  - rewrite IH by (done || lia). rewrite lookupZ_updateZ_ne by done. lia.
Qed.

Lemma countZ_update_out l lo hi j x :
  ~ (lo <= j < hi) -> countZ p l.[j <- x] lo hi = countZ p l lo hi.
Proof. intros. apply count_from_update_out. lia. Qed.

Lemma countZ_update_in l lo hi j x y :
  lo <= j < hi -> l.[j] = Some y ->
  countZ p l.[j <- x] lo hi = countZ p l lo hi + Z.b2z (p x) - Z.b2z (p y).
Proof. intros. apply count_from_update_in; [lia|done]. Qed.

Lemma countZ_update_same l lo hi j x y :
  l.[j] = Some y -> p x = p y -> countZ p l.[j <- x] lo hi = countZ p l lo hi.
Proof.
  intros Hj Hp. destruct (decide (lo <= j < hi)) as [Hr|Hr].
  - rewrite (countZ_update_in _ _ _ _ x y) by done. rewrite Hp. lia.
  - by apply countZ_update_out.
Qed.

Lemma count_from_snoc l i n :
  count_from p l i (S n) = count_from p l i n
    + match l.[i + Z.of_nat n] with Some x => Z.b2z (p x) | None => 0 end.
Proof.
  revert i. induction n as [|n IH]; intros i.
  - cbn [count_from]. replace (i + Z.of_nat 0) with i by lia. lia.
  - change (count_from p l i (S (S n))) with
      (match l.[i] with Some x => Z.b2z (p x) | None => 0 end + count_from p l (i + 1) (S n)).
    rewrite IH. cbn [count_from]. replace (i + 1 + Z.of_nat n) with (i + Z.of_nat (S n)) by lia. lia.
Qed.

Lemma countZ_snoc l lo hi x :
  lo <= hi -> l.[hi] = Some x -> countZ p l lo (hi + 1) = countZ p l lo hi + Z.b2z (p x).
Proof.
  intros H Hx. unfold countZ. replace (Z.to_nat (hi + 1 - lo)) with (S (Z.to_nat (hi - lo))) by lia.
  rewrite count_from_snoc. replace (lo + Z.of_nat (Z.to_nat (hi - lo))) with hi by lia. by rewrite Hx.
Qed.

Lemma count_from_bound l i n : 0 <= count_from p l i n <= Z.of_nat n.
Proof.
  revert i. induction n as [|n IH]; intros i; [cbn; lia|]. cbn [count_from].
  specialize (IH (i + 1)). destruct (l.[i]) as [y|]; [destruct (p y)|]; cbn; lia.
Qed.

Lemma countZ_bound l lo hi : 0 <= countZ p l lo hi <= Z.max 0 (hi - lo).
Proof. pose proof (count_from_bound l lo (Z.to_nat (hi - lo))). unfold countZ. lia. Qed.

Lemma count_from_pos l i n j x :
  i <= j < i + Z.of_nat n -> l.[j] = Some x -> p x = true -> 1 <= count_from p l i n.
Proof.
  revert i. induction n as [|n IH]; intros i H Hj Hp; [lia|]. cbn [count_from].
  pose proof (count_from_bound l (i + 1) n).
  destruct (decide (i = j)) as [->|Hne]; [rewrite Hj, Hp; cbn; lia|].
  assert (1 <= count_from p l (i + 1) n) by (apply IH; (done || lia)).
  destruct (l.[i]) as [y|]; [destruct (p y)|]; cbn; lia.
Qed.

Lemma countZ_pos l lo hi j x :
  lo <= j < hi -> l.[j] = Some x -> p x = true -> 1 <= countZ p l lo hi.
Proof. intros. eapply count_from_pos; [|done|done]. lia. Qed.
End Counting.

(** ** Checking every number of a range *)

Fixpoint forall_below (P : Z -> bool) (n : nat) (z : Z) : bool :=
  match n with O => true | S n' => P z && forall_below P n' (z + 1) end.

Lemma forall_below_spec P n lo :
  forall_below P n lo = true -> forall z, lo <= z < lo + Z.of_nat n -> P z = true.
Proof.
  revert lo. induction n as [|n IH]; intros lo H z Hz; [lia|]. cbn [forall_below] in H.
  apply andb_true_iff in H as [H1 H2]. destruct (decide (z = lo)) as [->|]; [done|].
  apply (IH (lo + 1)); [done|lia].
Qed.

(** ** Automation *)

Create HintDb carray.
Create Rewrite HintDb carray.
#[export] Hint Rewrite @lengthZ_updateZ : carray.
#[export] Hint Resolve lookupZ_Some_range : carray.

(** Linear arithmetic with division and modulo by constants. *)
Ltac dlia := Z.to_euclidean_division_equations; lia.

(** Invert a successful computation in the [option] monad step by step. *)
Ltac inv_option :=
  repeat match goal with
    | H : Some _ = Some _ |- _ => injection H as H; subst
    | H : None = Some _ |- _ => discriminate H
    | H : mbind ?f ?m = Some _ |- _ =>
        let E := fresh "E" in destruct m eqn:E; cbn [mbind option_bind] in H; [|discriminate H]
    | H : (let '(_, _) := ?p in _) = Some _ |- _ => destruct p
    end.
