(* ===== verification/Bitfield.v ===== *)
(** * Bit fields of little-endian records

    A C structure made of bit-fields of [uint64_t] units (the NAT rule, the
    IPv6CT entry, the flag halfwords) is modelled by the integer its bytes
    spell in little-endian order: the field that starts at bit [lo] and has
    width [fw] is bits [lo .. lo+fw-1].  A sixteen-bit DMA write at byte
    offset [o] replaces bits [8*o .. 8*o+15]. *)
From S2P Require Import Prelude.

Record field := Field { lo : Z; fw : Z }.

Definition wf_field (f : field) : Prop := 0 <= lo f /\ 0 < fw f.

(** Read a bit-field. *)
Definition getf (f : field) (e : Z) : Z := Z.land (Z.shiftr e (lo f)) (Z.ones (fw f)).

(** Assign to a bit-field: C truncates the value to the field's width. *)
Definition setf (f : field) (e v : Z) : Z :=
  Z.lor (Z.ldiff e (Z.shiftl (Z.ones (fw f)) (lo f)))
        (Z.shiftl (Z.land v (Z.ones (fw f))) (lo f)).

(** The sixteen bits at byte offset [off] of a record. *)
Definition half_at (off : Z) : field := Field (8 * off) 16.

Definition disjoint_fields (f g : field) : bool :=
  (lo f + fw f <=? lo g) || (lo g + fw g <=? lo f).

Lemma ones_testbit w n : 0 <= w -> 0 <= n -> Z.testbit (Z.ones w) n = (n <? w).
Proof.
  intros Hw Hn. destruct (n <? w) eqn:E.
  - apply Z.ltb_lt in E. apply Z.ones_spec_low. lia.
  - apply Z.ltb_ge in E. apply Z.ones_spec_high. lia.
Qed.

Lemma getf_testbit f e n :
  wf_field f -> 0 <= n -> Z.testbit (getf f e) n = (n <? fw f) && Z.testbit e (n + lo f).
Proof.
  intros [Hlo Hw] Hn. unfold getf.
  rewrite Z.land_spec, Z.shiftr_spec, ones_testbit by lia. apply andb_comm.
Qed.

Lemma setf_testbit f e v n :
  wf_field f -> 0 <= n ->
  Z.testbit (setf f e v) n =
    if (lo f <=? n) && (n <? lo f + fw f) then Z.testbit v (n - lo f) else Z.testbit e n.
Proof.
  intros [Hlo Hw] Hn. unfold setf.
  rewrite Z.lor_spec, Z.ldiff_spec, !Z.shiftl_spec by lia.
  destruct (lo f <=? n) eqn:E1; cbn [andb].
  - apply Z.leb_le in E1. rewrite Z.land_spec, !ones_testbit by lia.
    replace (n - lo f <? fw f) with (n <? lo f + fw f)
      by (apply eq_true_iff_eq; rewrite !Z.ltb_lt; lia).
    destruct (n <? lo f + fw f); cbn; rewrite ?andb_true_r, ?andb_false_r, ?orb_false_r; done.
  - apply Z.leb_gt in E1. rewrite !(Z.testbit_neg_r _ (n - lo f)) by lia.
    cbn. by rewrite andb_true_r, orb_false_r.
Qed.

Lemma getf_range f e : wf_field f -> 0 <= getf f e < 2 ^ fw f.
Proof.
  intros [Hlo Hw]. unfold getf. rewrite Z.land_ones by lia.
  apply Z.mod_pos_bound, Z.pow_pos_nonneg; lia.
Qed.

(** Reading back a field just written gives the value truncated to it. *)
Lemma getf_setf_eq f e v : wf_field f -> getf f (setf f e v) = v mod 2 ^ fw f.
Proof.
  intros Hf. rewrite <- Z.land_ones by (destruct Hf; lia).
  apply Z.bits_inj'. intros n Hn.
  rewrite getf_testbit, setf_testbit, Z.land_spec, ones_testbit by (destruct Hf; done || lia).
  replace (lo f <=? n + lo f) with true by (symmetry; apply Z.leb_le; lia).
  replace (n + lo f <? lo f + fw f) with (n <? fw f)
    by (apply eq_true_iff_eq; rewrite !Z.ltb_lt; lia).
  replace (n + lo f - lo f) with n by lia.
  destruct (n <? fw f); cbn; rewrite ?andb_true_r, ?andb_false_r; done.
Qed.

(** Writing a field leaves every disjoint field as it was. *)
Lemma getf_setf_ne f g e v :
  wf_field f -> wf_field g -> disjoint_fields f g = true -> getf g (setf f e v) = getf g e.
Proof.
  intros Hf Hg Hd. apply Z.bits_inj'. intros n Hn.
  rewrite !getf_testbit, setf_testbit by (destruct Hg; done || lia).
  destruct (n <? fw g) eqn:E; [|done]. cbn.
  apply Z.ltb_lt in E. unfold disjoint_fields in Hd.
  apply orb_true_iff in Hd. rewrite !Z.leb_le in Hd. destruct Hf, Hg.
  replace ((lo f <=? n + lo g) && (n + lo g <? lo f + fw f)) with false; [done|].
  symmetry. apply andb_false_iff. rewrite Z.leb_gt, Z.ltb_ge. lia.
Qed.

(** Writing a wider field that contains [g] puts the corresponding bits there. *)
Lemma getf_setf_sub f g e v :
  wf_field f -> wf_field g -> lo f <= lo g -> lo g + fw g <= lo f + fw f ->
  getf g (setf f e v) = getf (Field (lo g - lo f) (fw g)) v.
Proof.
  intros Hf Hg H1 H2. apply Z.bits_inj'. intros n Hn. destruct Hf, Hg.
  rewrite !getf_testbit, setf_testbit by first [done | split; cbn; lia | lia].
  cbn [lo fw]. destruct (n <? fw g) eqn:E; [|done]. apply Z.ltb_lt in E. cbn [andb].
  replace ((lo f <=? n + lo g) && (n + lo g <? lo f + fw f)) with true.
  - f_equal. lia.
  - symmetry. apply andb_true_iff. rewrite Z.leb_le, Z.ltb_lt. lia.
Qed.

(** A record of [bits] bits stays one. *)
Lemma setf_range f e v bits :
  wf_field f -> lo f + fw f <= bits -> 0 <= e < 2 ^ bits -> 0 <= setf f e v < 2 ^ bits.
Proof.
  intros Hf Hb He. destruct Hf as [Hlo Hw].
  assert (0 <= setf f e v) as Hpos.
  { unfold setf. apply Z.lor_nonneg. split.
    - apply Z.ldiff_nonneg. lia.
    - apply Z.shiftl_nonneg, Z.land_nonneg. right. rewrite Z.ones_equiv.
      pose proof (Z.pow_pos_nonneg 2 (fw f)). lia. }
  split; [done|].
  replace (setf f e v) with (setf f e v mod 2 ^ bits).
  - apply Z.mod_pos_bound, Z.pow_pos_nonneg; lia.
  - apply Z.bits_inj'. intros n Hn. rewrite <- Z.land_ones, Z.land_spec, ones_testbit by lia.
    destruct (n <? bits) eqn:E; [by rewrite andb_true_r|]. rewrite andb_false_r.
    apply Z.ltb_ge in E. rewrite setf_testbit by first [done | split; lia | lia].
    replace (n <? lo f + fw f) with false by (symmetry; apply Z.ltb_ge; lia).
    rewrite andb_false_r. symmetry. destruct (decide (e = 0)) as [->|].
    + apply Z.testbit_0_l.
    + apply Z.bits_above_log2; [lia|]. apply Z.log2_lt_pow2; [lia|].
      eapply Z.lt_le_trans; [apply He|]. apply Z.pow_le_mono_r; lia.
Qed.

Lemma getf_zero f : getf f 0 = 0.
Proof. unfold getf. rewrite Z.shiftr_0_l. apply Z.land_0_l. Qed.

(** Solve the side conditions of the lemmas above for concrete fields. *)
Ltac field_side :=
  solve [ split; [vm_compute; discriminate | vm_compute; reflexivity]
        | vm_compute; reflexivity | vm_compute; discriminate ].

Lemma getf_setf_same f g e v :
  wf_field g -> f = g -> getf g (setf f e v) = v mod 2 ^ fw g.
Proof. intros Hg ->. by apply getf_setf_eq. Qed.

(** Normalise reads of concrete fields over chains of field writes. *)
Ltac simp_fields :=
  rewrite ?getf_zero;
  repeat match goal with
    | |- context [getf ?g (setf ?f ?e ?v)] =>
        first [ rewrite (getf_setf_ne f g e v) by field_side
              | rewrite (getf_setf_same f g e v) by field_side ];
        rewrite ?getf_zero
    end.

(** ** Fields a later write leaves alone *)

Definition same_fields (fs : list field) (e e' : Z) : Prop :=
  Forall (fun f => getf f e' = getf f e) fs.

Lemma same_fields_setf fs f e v :
  forallb (fun g => (0 <=? lo g) && (0 <? fw g) && disjoint_fields f g) fs = true ->
  wf_field f -> same_fields fs e (setf f e v).
Proof.
  intros H Hf. apply Forall_forall. intros g Hg.
  assert (Hb : (0 <=? lo g) && (0 <? fw g) && disjoint_fields f g = true).
  { rewrite forallb_forall in H. apply H. by apply list_elem_of_In. }
  apply andb_true_iff in Hb as [Hb Hd]. apply andb_true_iff in Hb as [H1 H2].
  apply getf_setf_ne; [done| |done]. split; lia.
Qed.

Lemma same_fields_trans fs e1 e2 e3 :
  same_fields fs e1 e2 -> same_fields fs e2 e3 -> same_fields fs e1 e3.
Proof.
  unfold same_fields. rewrite !Forall_forall. intros H1 H2 f Hf.
  by rewrite (H2 f Hf), (H1 f Hf).
Qed.

Lemma same_fields_refl fs e : same_fields fs e e.
Proof. by apply Forall_forall. Qed.

Lemma same_fields_in fs f e e' : f ∈ fs -> same_fields fs e e' -> getf f e' = getf f e.
Proof. intros Hf H. unfold same_fields in H. rewrite Forall_forall in H. by apply H. Qed.

(** The same for a concrete field and a concrete list. *)
Lemma same_fields_read fs e e' f :
  same_fields fs e e' -> existsb (fun g => (lo f =? lo g) && (fw f =? fw g)) fs = true ->
  getf f e' = getf f e.
Proof.
  intros H Hf. apply (same_fields_in fs); [|done].
  apply existsb_exists in Hf as ([l w] & Hg & [H1%Z.eqb_eq H2%Z.eqb_eq]%andb_true_iff).
  apply list_elem_of_In. destruct f. cbn in *. by subst.
Qed.

Lemma same_fields_app_l fs fs' x x' : same_fields (fs ++ fs') x x' -> same_fields fs x x'.
Proof. unfold same_fields. rewrite Forall_app. by intros []. Qed.

(** ** Masks *)

Lemma b2z_mod_2 b : Z.b2z b mod 2 ^ 1 = Z.b2z b.
Proof. by destruct b. Qed.

Lemma land_range_size h size : 0 <= size -> 0 <= Z.land h size <= size.
Proof.
  intros Hs. split; [apply Z.land_nonneg; by right|].
  rewrite Z.land_comm.
  apply Z.ldiff_le; [done|]. rewrite Z.ldiff_land.
  apply Z.bits_inj'. intros n Hn. rewrite !Z.land_spec, Z.lnot_spec, Z.bits_0 by done.
  by destruct (Z.testbit size n), (Z.testbit h n).
Qed.

Lemma hash_fold_range h size :
  0 < size -> 1 <= (let hash := Z.land h size in if hash =? 0 then size else hash) <= size.
Proof.
  intros Hs. pose proof (land_range_size h size). cbn.
  destruct (Z.eqb_spec (Z.land h size) 0); lia.
Qed.
