(* ===== verification/Chain.v ===== *)
(** * Doubly linked bucket chains

    The abstract shape of an IPA table: which records are in use and how
    their next and previous indices link them.  A node below [base] heads
    the chain of its bucket; a node from [base] on is a member of the chain
    of exactly one head.  The operations of [Table] are proved to perform
    the abstract operations of this file. *)
From S2P Require Import Prelude.

Record link := Link { l_next : Z; l_prev : Z }.

Definition links : Type := Z -> option link.

Definition fupd (f : links) (i : Z) (v : option link) : links :=
  fun j => if decide (i = j) then v else f j.

Lemma fupd_eq f i v : fupd f i v i = v.
Proof. unfold fupd. by rewrite decide_True. Qed.

Lemma fupd_ne f i j v : i <> j -> fupd f i v j = f j.
Proof. intros. unfold fupd. by rewrite decide_False. Qed.

(** [reach f h i]: following next indices from [h] leads to [i]. *)
Inductive reach (f : links) (h : Z) : Z -> Prop :=
  | reach_refl l : f h = Some l -> reach f h h
  | reach_step i l n :
      reach f h i -> f i = Some l -> l_next l = n -> n <> 0 -> is_Some (f n) ->
      reach f h n.

Record wf_chains (base tot : Z) (f : links) : Prop := {
  wfc_range i l : f i = Some l -> 0 < i < tot;
  wfc_next i l : f i = Some l -> l_next l <> 0 ->
    base <= l_next l /\ exists l', f (l_next l) = Some l' /\ l_prev l' = i;
  wfc_base i l : f i = Some l -> i < base -> l_prev l = 0;
  wfc_prev i l : f i = Some l -> base <= i ->
    l_prev l <> 0 /\ exists l', f (l_prev l) = Some l' /\ l_next l' = i;
  wfc_head i l : f i = Some l -> exists h, h < base /\ reach f h i
}.

#[export] Instance links_equiv : Equiv links := fun f g => forall i, f i = g i.

#[export] Instance links_equivalence : Equivalence (≡@{links}).
Proof.
  split.
  - intros f i. done.
  - intros f g H i. by rewrite H.
  - intros f g k H1 H2 i. by rewrite H1, H2.
Qed.

#[export] Instance reach_proper : Proper ((≡) ==> eq ==> eq ==> iff) reach.
Proof.
  assert (forall f g h i, f ≡ g -> reach f h i -> reach g h i) as Himp.
  { intros f g h i H. induction 1 as [l Hl|i l n _ IH Hi Hn Hn0 Hs].
    - apply (reach_refl g h l). by rewrite <- (H h).
    - apply (reach_step g h i l n IH); [by rewrite <- (H i)|done|done|by rewrite <- (H n)]. }
  intros f g H h ? <- i ? <-. split; apply Himp; [done|by symmetry].
Qed.

#[export] Instance wf_chains_proper base tot : Proper ((≡) ==> iff) (wf_chains base tot).
Proof.
  assert (forall f g, f ≡ g -> wf_chains base tot f -> wf_chains base tot g) as Himp.
  { intros f g H [H1 H2 H3 H4 H5]. split.
    - intros i l. rewrite <- (H i). apply H1.
    - intros i l. rewrite <- (H i). intros Hi Hn. rewrite <- (H (l_next l)). by apply H2.
    - intros i l. rewrite <- (H i). apply H3.
    - intros i l. rewrite <- (H i). intros Hi Hn. rewrite <- (H (l_prev l)). by apply H4.
    - intros i l. rewrite <- (H i). intros Hi. destruct (H5 i l Hi) as (h & Hh & Hr).
      exists h. split; [done|]. by rewrite <- H. }
  intros f g H. split; apply Himp; [done|by symmetry].
Qed.

(** ** The abstract operations *)

(** A free bucket gets its head. *)
Definition chain_add_head (f : links) (h : Z) : links := fupd f h (Some (Link 0 0)).

(** Node [n] is appended after the tail [p]. *)
Definition chain_append (f : links) (p : Z) (pl : link) (n : Z) : links :=
  fupd (fupd f n (Some (Link 0 p))) p (Some (Link n (l_prev pl))).

(** Member [i] is taken out: its neighbours are linked to each other. *)
Definition chain_unlink (f : links) (i : Z) (il : link) : links :=
  let f1 := match f (l_prev il) with
            | Some pl => fupd f (l_prev il) (Some (Link (l_next il) (l_prev pl)))
            | None => f
            end in
  let f2 := match f (l_next il) with
            | Some nl => fupd f1 (l_next il) (Some (Link (l_next nl) (l_prev il)))
            | None => f1
            end in
  fupd f2 i None.

(** A head without members is removed. *)
Definition chain_remove (f : links) (h : Z) : links := fupd f h None.

Section Facts.
Context (base tot : Z).
Implicit Types (f : links) (i j h p n : Z).

Lemma reach_is_Some f h i : reach f h i -> is_Some (f i).
Proof. induction 1; [by eauto|done]. Qed.

Lemma wfc_zero f : wf_chains base tot f -> f 0 = None.
Proof.
  intros H. destruct (f 0) as [l|] eqn:E; [|done].
  pose proof (wfc_range _ _ _ H _ _ E). lia.
Qed.

(** No member is reached but from its predecessor; no head is reached at all. *)
Lemma reach_inv f h j :
  wf_chains base tot f -> reach f h j -> j <> h ->
  exists l i, f j = Some l /\ l_prev l = i /\ reach f h i /\ base <= j.
Proof.
  intros Hwf Hr Hne. inversion Hr as [l Hl|i l n Hi Hl Hn Hn0 Hs]; subst; [done|].
  destruct (wfc_next _ _ _ Hwf _ _ Hl Hn0) as (Hb & l' & Hl' & Hp). eauto 10.
Qed.

Lemma wf_chain_add_head f h :
  wf_chains base tot f -> f h = None -> 0 < h < base -> base <= tot ->
  wf_chains base tot (chain_add_head f h).
Proof.
  intros Hwf Hf Hh Hbt. unfold chain_add_head.
  assert (forall j, is_Some (f j) -> h <> j) as Hne
    by (intros j [l Hl] ->; by rewrite Hf in Hl).
  assert (forall k i, reach f k i -> reach (fupd f h (Some (Link 0 0))) k i) as Hmono.
  { intros k i. induction 1 as [l Hl|i l n Hr IH Hl Hn Hn0 Hs].
    - apply (reach_refl _ _ l). rewrite fupd_ne by (apply Hne; eauto). done.
    - apply (reach_step _ _ i l); [done| |done|done|].
      + rewrite fupd_ne by (apply Hne; eauto). done.
      + rewrite fupd_ne by (apply Hne; done). done. }
  split.
  - intros i l. unfold fupd. case_decide; [intros _; subst; lia|]. apply (wfc_range _ _ _ Hwf).
  - intros i l. unfold fupd at 1. case_decide as E; [intros [= <-]; done|]. intros Hi Hn.
    destruct (wfc_next _ _ _ Hwf _ _ Hi Hn) as (Hb & l' & Hl' & Hp). split; [done|].
    exists l'. rewrite fupd_ne by (apply Hne; eauto). done.
  - intros i l. unfold fupd. case_decide; [intros [= <-]; done|]. apply (wfc_base _ _ _ Hwf).
  - intros i l. unfold fupd at 1. case_decide as E; [intros [= <-]; subst; lia|]. intros Hi Hb.
    destruct (wfc_prev _ _ _ Hwf _ _ Hi Hb) as (Hp & l' & Hl' & Hn). split; [done|].
    exists l'. rewrite fupd_ne by (apply Hne; eauto). done.
  - intros i l. unfold fupd at 1. case_decide as E.
    + intros _. subst. exists i. split; [lia|]. eapply reach_refl. apply fupd_eq.
    + intros Hi. destruct (wfc_head _ _ _ Hwf _ _ Hi) as (k & Hk & Hr). eauto.
Qed.

(** ** Appending a member *)

Section Append.
Context (f : links) (p n : Z) (pl : link).
Hypothesis (Hwf : wf_chains base tot f) (Hp : f p = Some pl) (Hpn : l_next pl = 0)
  (Hn : f n = None) (Hrange : base <= n < tot) (Hbase : 0 < base).
Let f' := chain_append f p pl n.

Lemma append_ne : p <> n.
Proof. intros ->. by rewrite Hn in Hp. Qed.

Lemma append_at_p : f' p = Some (Link n (l_prev pl)).
Proof. unfold f', chain_append. apply fupd_eq. Qed.

Lemma append_at_n : f' n = Some (Link 0 p).
Proof.
  unfold f', chain_append. rewrite fupd_ne by (apply append_ne). apply fupd_eq.
Qed.

Lemma append_other j : j <> p -> j <> n -> f' j = f j.
Proof. intros. unfold f', chain_append. by rewrite !fupd_ne. Qed.

Lemma append_prev j l : f j = Some l -> exists l', f' j = Some l' /\ l_prev l' = l_prev l
  /\ (j <> p -> l_next l' = l_next l).
Proof.
  intros Hj. destruct (decide (j = p)) as [->|Hjp].
  - rewrite append_at_p. rewrite Hp in Hj. injection Hj as <-.
    eexists. split_and!; [done|done|by intros []].
  - destruct (decide (j = n)) as [->|Hjn]; [by rewrite Hn in Hj|].
    rewrite append_other by done. by eexists.
Qed.

Lemma append_reach h j : reach f h j -> reach f' h j.
Proof.
  induction 1 as [l Hl|i l k Hr IH Hl Hk Hk0 [lk Hs]].
  - destruct (append_prev _ _ Hl) as (l' & Hl' & _). by eapply reach_refl.
  - destruct (append_prev _ _ Hl) as (l' & Hl' & _ & Hnx).
    destruct (append_prev _ _ Hs) as (lk' & Hlk' & _).
    eapply reach_step; [done|done| |done|by eauto].
    rewrite Hnx; [done|]. intros ->. rewrite Hp in Hl. injection Hl as <-. congruence.
Qed.

Lemma append_reach_new h : reach f h p -> reach f' h n.
Proof.
  intros Hr%append_reach.
  eapply reach_step; [done|apply append_at_p|done|lia|]. rewrite append_at_n. eauto.
Qed.

Lemma append_cases j l : f' j = Some l ->
  (j = p /\ l = Link n (l_prev pl)) \/ (j = n /\ l = Link 0 p)
  \/ (j <> p /\ j <> n /\ f j = Some l).
Proof.
  intros Hj. destruct (decide (j = p)) as [->|Hjp].
  - rewrite append_at_p in Hj. injection Hj as <-. eauto.
  - destruct (decide (j = n)) as [->|Hjn].
    + rewrite append_at_n in Hj. injection Hj as <-. eauto.
    + rewrite append_other in Hj by done. eauto.
Qed.

Lemma wf_chain_append : wf_chains base tot f'.
Proof.
  split.
  - intros i l [(-> & _)|[(-> & _)|(_ & _ & Hi)]]%append_cases; [|lia|].
    + apply (wfc_range _ _ _ Hwf _ _ Hp).
    + apply (wfc_range _ _ _ Hwf _ _ Hi).
  - intros i l [(-> & ->)|[(-> & ->)|(Hip & _ & Hi)]]%append_cases; cbn [l_next]; intros Hnx.
    + split; [lia|]. exists (Link 0 p). by rewrite append_at_n.
    + done.
    + destruct (wfc_next _ _ _ Hwf _ _ Hi Hnx) as (Hb & l' & Hl' & Hpr). split; [done|].
      destruct (append_prev _ _ Hl') as (l2 & Hl2 & Hpr2 & _). exists l2. by rewrite Hpr2.
  - intros i l [(-> & ->)|[(-> & ->)|(_ & _ & Hi)]]%append_cases; cbn [l_prev]; intros Hb.
    + by apply (wfc_base _ _ _ Hwf _ _ Hp).
    + lia.
    + by apply (wfc_base _ _ _ Hwf _ _ Hi).
  - intros i l [(-> & ->)|[(-> & ->)|(Hip & _ & Hi)]]%append_cases; cbn [l_prev]; intros Hb.
    + destruct (wfc_prev _ _ _ Hwf _ _ Hp Hb) as (Hp0 & l' & Hl' & Hnx). split; [done|].
      destruct (append_prev _ _ Hl') as (l2 & Hl2 & _ & Hnx2). exists l2. split; [done|].
      rewrite Hnx2; [done|]. intros E. rewrite E in Hl'. rewrite Hp in Hl'.
      injection Hl' as <-. rewrite Hpn in Hnx. pose proof (wfc_range _ _ _ Hwf _ _ Hp). lia.
    + split; [pose proof (wfc_range _ _ _ Hwf _ _ Hp); lia|].
      exists (Link n (l_prev pl)). by rewrite append_at_p.
    + destruct (wfc_prev _ _ _ Hwf _ _ Hi Hb) as (Hp0 & l' & Hl' & Hnx). split; [done|].
      destruct (append_prev _ _ Hl') as (l2 & Hl2 & _ & Hnx2). exists l2. split; [done|].
      rewrite Hnx2; [done|]. intros E. rewrite E, Hp in Hl'. injection Hl' as <-.
      pose proof (wfc_range _ _ _ Hwf _ _ Hi). lia.
  - intros i l [(-> & _)|[(-> & _)|(_ & _ & Hi)]]%append_cases.
    + destruct (wfc_head _ _ _ Hwf _ _ Hp) as (h & Hh & Hr).
      exists h. split; [done|]. by apply append_reach.
    + destruct (wfc_head _ _ _ Hwf _ _ Hp) as (h & Hh & Hr).
      exists h. split; [done|]. by apply append_reach_new.
    + destruct (wfc_head _ _ _ Hwf _ _ Hi) as (h & Hh & Hr).
      exists h. split; [done|]. by apply append_reach.
Qed.
End Append.

(** ** Taking a member out *)

Section Unlink.
Context (f : links) (i : Z) (il : link).
Hypothesis (Hwf : wf_chains base tot f) (Hi : f i = Some il) (Hb : base <= i).
Let f' := chain_unlink f i il.

(** The neighbours of [i] differ from it and from each other. *)
Lemma unlink_neighbours :
  l_prev il <> i /\ l_next il <> i /\ l_prev il <> l_next il.
Proof.
  destruct (wfc_prev _ _ _ Hwf _ _ Hi Hb) as (Hp0 & pl & Hpl & Hpn).
  assert (Hnn : l_next il <> i).
  { intros E. destruct (wfc_head _ _ _ Hwf _ _ Hi) as (h & Hh & Hr).
    assert (Hall : forall j, reach f h j -> j = i -> False); [|by eapply Hall].
    intros j Hj. induction Hj as [l Hl|k l n Hk IH Hl Hn Hn0 Hs].
    - intros ->. lia.
    - intros ->. apply IH.
      destruct (wfc_next _ _ _ Hwf _ _ Hl) as (_ & l' & Hl' & Hp'); [congruence|].
      rewrite Hn, Hi in Hl'. injection Hl' as <-.
      destruct (wfc_next _ _ _ Hwf _ _ Hi) as (_ & l'' & Hl'' & Hp''); [congruence|].
      rewrite E, Hi in Hl''. injection Hl'' as <-. congruence. }
  split; [|split; [done|]].
  - intros E. rewrite E, Hi in Hpl. injection Hpl as <-. done.
  - intros E. assert (Hn0 : l_next il <> 0) by congruence.
    destruct (wfc_next _ _ _ Hwf _ _ Hi Hn0) as (Hnb & nl & Hnl & Hnp).
    (* the cycle [i -> n -> i] is not reachable from a head *)
    destruct (wfc_head _ _ _ Hwf _ _ Hi) as (h & Hh & Hr).
    assert (Hall : forall j, reach f h j -> j = i \/ j = l_next il -> False);
      [|by eapply (Hall i); eauto].
    intros j Hj. induction Hj as [l Hl|k l n Hk IH Hl Hn Hn0' Hs].
    + intros [->| ->]; lia.
    + intros Hor. apply IH.
      destruct (wfc_next _ _ _ Hwf _ _ Hl) as (_ & l' & Hl' & Hp'); [congruence|].
      rewrite Hn in Hl'. destruct Hor as [->| ->].
      * right. rewrite Hi in Hl'. injection Hl' as <-. congruence.
      * left. rewrite Hnl in Hl'. injection Hl' as <-. congruence.
Qed.

Lemma unlink_at : f' i = None.
Proof. unfold f', chain_unlink. apply fupd_eq. Qed.

Lemma unlink_spec j l : j <> i -> f j = Some l ->
  f' j = Some (Link (if decide (j = l_prev il) then l_next il else l_next l)
                    (if decide (j = l_next il) then l_prev il else l_prev l)).
Proof.
  intros Hne Hj. destruct unlink_neighbours as (Hpi & Hni & Hpn).
  unfold f', chain_unlink. rewrite fupd_ne by done.
  destruct (decide (j = l_next il)) as [->|Hjn].
  - rewrite Hj, fupd_eq. rewrite decide_False by congruence. done.
  - assert (E : (match f (l_next il) with
                 | Some nl => fupd (match f (l_prev il) with
                     | Some pl => fupd f (l_prev il) (Some (Link (l_next il) (l_prev pl)))
                     | None => f end) (l_next il) (Some (Link (l_next nl) (l_prev il)))
                 | None => match f (l_prev il) with
                     | Some pl => fupd f (l_prev il) (Some (Link (l_next il) (l_prev pl)))
                     | None => f end
                 end) j = (match f (l_prev il) with
                     | Some pl => fupd f (l_prev il) (Some (Link (l_next il) (l_prev pl)))
                     | None => f end) j)
      by (destruct (f (l_next il)); [by rewrite fupd_ne|done]).
    rewrite E. case_decide as Hd.
    + subst. by rewrite Hj, fupd_eq.
    + destruct (f (l_prev il)); [rewrite fupd_ne by done|]; rewrite Hj; by destruct l.
Qed.

Lemma unlink_inv j l' : f' j = Some l' -> j <> i /\ exists l, f j = Some l.
Proof.
  intros Hj. destruct (decide (j = i)) as [->|Hne]; [by rewrite unlink_at in Hj|].
  split; [done|]. destruct (f j) as [l|] eqn:E; [eauto|]. exfalso. revert Hj.
  unfold f', chain_unlink. rewrite fupd_ne by done.
  destruct (f (l_next il)) as [nl|] eqn:En; destruct (f (l_prev il)) as [pl|] eqn:Ep;
    repeat (rewrite fupd_ne by congruence); congruence.
Qed.

Lemma unlink_reach h j : reach f h j -> h <> i ->
  (j <> i -> reach f' h j) /\ (j = i -> reach f' h (l_prev il)).
Proof.
  intros Hr Hhi. destruct unlink_neighbours as (Hpi & Hni & Hpn).
  induction Hr as [l Hl|k l n Hk IH Hl Hn Hn0 [ln Hs]].
  - split; [|done]. intros _. eapply reach_refl. by apply unlink_spec.
  - destruct (wfc_next _ _ _ Hwf _ _ Hl) as (_ & l2 & Hl2 & Hp2); [congruence|].
    rewrite Hn, Hs in Hl2. injection Hl2 as <-. split.
    + intros Hni'. pose proof (unlink_spec _ _ Hni' Hs) as Hs'.
      destruct (decide (k = i)) as [->|Hki].
      * destruct IH as [_ IH]. specialize (IH eq_refl).
        rewrite Hi in Hl. injection Hl as <-.
        destruct (wfc_prev _ _ _ Hwf _ _ Hi Hb) as (Hp0 & pl & Hpl & Hpnx).
        eapply reach_step; [exact IH|by apply unlink_spec| |done|by eauto].
        cbn [l_next]. by rewrite decide_True.
      * destruct IH as [IH _]. specialize (IH Hki).
        eapply reach_step; [exact IH|by apply unlink_spec| |done|by eauto].
        cbn [l_next]. rewrite decide_False; [done|]. intros ->.
        destruct (wfc_prev _ _ _ Hwf _ _ Hi Hb) as (Hp0 & pl & Hpl & Hpnx). congruence.
    + intros ->. rewrite Hi in Hs. injection Hs as <-. rewrite Hp2.
      destruct IH as [IH _]. apply IH. congruence.
Qed.

Lemma wf_chain_unlink : wf_chains base tot f'.
Proof.
  destruct unlink_neighbours as (Hpi & Hni & Hpn).
  destruct (wfc_prev _ _ _ Hwf _ _ Hi Hb) as (Hp0 & pl & Hpl & Hpnx).
  split; intros j l' Hj; pose proof (unlink_inv _ _ Hj) as (Hji & l & Hl);
    rewrite (unlink_spec _ _ Hji Hl) in Hj; injection Hj as <-; cbn [l_next l_prev].
  - apply (wfc_range _ _ _ Hwf _ _ Hl).
  - case_decide as Ej.
    + subst j. intros Hn0. destruct (wfc_next _ _ _ Hwf _ _ Hi Hn0) as (Hnb & nl & Hnl & Hnp).
      split; [done|]. eexists. split; [by apply unlink_spec|]. cbn. by rewrite decide_True.
    + intros Hn0. destruct (wfc_next _ _ _ Hwf _ _ Hl Hn0) as (Hnb & nl & Hnl & Hnp).
      assert (l_next l <> i) as Hne.
      { intros E. rewrite E, Hi in Hnl. injection Hnl as <-. done. }
      split; [done|]. eexists. split; [by apply unlink_spec|]. cbn.
      case_decide as En; [|done]. exfalso. apply Hji.
      destruct (wfc_next _ _ _ Hwf _ _ Hi) as (_ & nl' & Hnl' & Hnp'); [congruence|].
      rewrite <- En, Hnl in Hnl'. injection Hnl' as <-. congruence.
  - intros Hjb. case_decide as En; [|by apply (wfc_base _ _ _ Hwf _ _ Hl)].
    destruct (wfc_next _ _ _ Hwf _ _ Hi) as (Hnb & _); [|lia].
    rewrite <- En. pose proof (wfc_range _ _ _ Hwf _ _ Hl). lia.
  - intros Hjb. destruct (wfc_prev _ _ _ Hwf _ _ Hl Hjb) as (Hq0 & ql & Hql & Hqn).
    case_decide as En.
    + split; [done|]. eexists. split; [by apply unlink_spec|]. cbn. by rewrite decide_True.
    + assert (l_prev l <> i) as Hne.
      { intros E. rewrite E, Hi in Hql. injection Hql as <-. congruence. }
      split; [done|]. eexists. split; [by apply unlink_spec|]. cbn.
      case_decide as Ep; [|done]. exfalso. rewrite Ep, Hpl in Hql. injection Hql as <-.
      congruence.
  - destruct (wfc_head _ _ _ Hwf _ _ Hl) as (h & Hh & Hr). exists h. split; [done|].
    apply (unlink_reach _ _ Hr); [lia|done].
Qed.
End Unlink.

(** ** Removing a lone head *)

Section Remove.
Context (f : links) (h : Z) (hl : link).
Hypothesis (Hwf : wf_chains base tot f) (Hh : f h = Some hl) (Hn : l_next hl = 0)
  (Hb : h < base).
Let f' := chain_remove f h.

Lemma remove_reach k j : reach f k j -> k <> h -> reach f' k j.
Proof.
  intros Hr Hk. induction Hr as [l Hl|i l n Hi IH Hl Hnx Hn0 Hs].
  - eapply reach_refl. unfold f', chain_remove. by rewrite fupd_ne.
  - unfold f', chain_remove in *. eapply reach_step; [done| |done|done|].
    + rewrite fupd_ne; [done|]. intros <-. congruence.
    + rewrite fupd_ne; [done|]. intros <-.
      destruct (wfc_next _ _ _ Hwf _ _ Hl) as (? & _); [congruence|]. lia.
Qed.

Lemma wf_chain_remove : wf_chains base tot f'.
Proof.
  unfold f', chain_remove. split; intros i l; unfold fupd at 1; case_decide as E; try done;
    intros Hi.
  - apply (wfc_range _ _ _ Hwf _ _ Hi).
  - intros Hn0. destruct (wfc_next _ _ _ Hwf _ _ Hi Hn0) as (Hnb & l' & Hl' & Hp).
    split; [done|]. exists l'. rewrite fupd_ne by lia. done.
  - apply (wfc_base _ _ _ Hwf _ _ Hi).
  - intros Hib. destruct (wfc_prev _ _ _ Hwf _ _ Hi Hib) as (Hp0 & l' & Hl' & Hnx).
    split; [done|]. exists l'. rewrite fupd_ne; [done|]. intros ->.
    rewrite Hh in Hl'. injection Hl' as <-. pose proof (wfc_range _ _ _ Hwf _ _ Hi). lia.
  - destruct (wfc_head _ _ _ Hwf _ _ Hi) as (k & Hk & Hr).
    destruct (decide (k = h)) as [->|Hne].
    + exfalso. assert (forall j, reach f h j -> j = h) as Hall; [|by apply E, eq_sym, Hall].
      intros j Hj. induction Hj as [l' Hl'|q l' n Hq -> Hl' Hnx Hn0 Hs]; [done|]. congruence.
    + exists k. split; [done|]. by apply remove_reach.
Qed.
End Remove.

(** ** A walk along a chain ends *)

(** [path f h vis]: the nodes of a walk from [h], the last one first. *)
Inductive path (f : links) (h : Z) : list Z -> Prop :=
  | path_start l : f h = Some l -> path f h [h]
  | path_step i l n rest :
      path f h (i :: rest) -> f i = Some l -> l_next l = n -> n <> 0 ->
      path f h (n :: i :: rest).

Lemma path_live f h vis :
  wf_chains base tot f -> path f h vis ->
  Forall (fun i => is_Some (f i)) vis.
Proof.
  intros Hwf. induction 1 as [l Hl|i l n rest Hp IH Hl Hn Hn0].
  - constructor; [eauto|constructor].
  - constructor; [|done]. destruct (wfc_next _ _ _ Hwf _ _ Hl) as (_ & l' & Hl' & _);
      [congruence|]. rewrite <- Hn. eauto.
Qed.

(** Each node of the walk but the first is linked back to the one before. *)
Lemma path_fresh f h i rest l n :
  wf_chains base tot f -> h < base -> path f h (i :: rest) -> NoDup (i :: rest) ->
  f i = Some l -> l_next l = n -> n <> 0 -> n ∉ i :: rest.
Proof.
  intros Hwf Hh Hp Hnd Hl Hn Hn0 Hin.
  destruct (wfc_next _ _ _ Hwf _ _ Hl) as (Hnb & nl & Hnl & Hnp); [congruence|].
  rewrite Hn in Hnb, Hnl.
  assert (forall vis, path f h vis -> NoDup vis -> n ∈ vis ->
            exists q tl, tl `suffix_of` vis /\ tl = n :: q :: tail (tail tl)
              /\ l_prev nl = q) as Hpred.
  { intros vis. induction 1 as [l0 Hl0|k l0 m rest0 Hp0 IH Hl0 Hm Hm0]; intros Hnd0 Hin0.
    - apply list_elem_of_singleton in Hin0. lia.
    - apply NoDup_cons in Hnd0 as [Hk Hnd0].
      apply elem_of_cons in Hin0 as [->|Hin0].
      + exists k, (m :: k :: rest0). split; [done|]. split; [done|].
        destruct (wfc_next _ _ _ Hwf _ _ Hl0) as (_ & l1 & Hl1 & Hp1); [congruence|].
        rewrite Hm, Hnl in Hl1. injection Hl1 as <-. done.
      + destruct (IH Hnd0 Hin0) as (q & tl & Hs & Htl & Hq). exists q, tl.
        split; [by apply suffix_cons_r|done]. }
  destruct (Hpred _ Hp Hnd Hin) as (q & tl & [pre Hs] & Htl & Hq).
  rewrite Hnp in Hq. rewrite Htl in Hs.
  rewrite Hs in Hnd. apply NoDup_app in Hnd as (_ & Hdisj & Hnd2).
  destruct pre as [|a pre]; cbn in Hs.
  - injection Hs as E1 E2. apply NoDup_cons in Hnd2 as [Hni _]. apply Hni.
    rewrite <- E1, Hq. apply elem_of_cons. by left.
  - injection Hs as E1 _. apply (Hdisj a); [apply elem_of_cons; by left|].
    rewrite <- E1, Hq. apply elem_of_cons. right. apply elem_of_cons. by left.
Qed.

Lemma NoDup_range_length (l : list Z) (m : Z) :
  NoDup l -> Forall (fun i => 0 <= i < m) l -> Z.of_nat (length l) <= Z.max 0 m.
Proof.
  intros Hnd Hf.
  assert (incl l (map Z.of_nat (seq 0 (Z.to_nat m)))) as Hincl.
  { intros x Hx. apply in_map_iff. exists (Z.to_nat x).
    rewrite Forall_forall in Hf. specialize (Hf x). rewrite list_elem_of_In in Hf.
    specialize (Hf Hx). split; [lia|]. apply in_seq. lia. }
  apply NoDup_ListNoDup in Hnd. pose proof (NoDup_incl_length Hnd Hincl) as Hlen.
  rewrite length_map, length_seq in Hlen. lia.
Qed.

Lemma path_length f h vis :
  wf_chains base tot f -> path f h vis -> NoDup vis -> Z.of_nat (length vis) < Z.max 1 tot.
Proof.
  intros Hwf Hp Hnd.
  assert (Forall (fun i => 0 <= i < tot) (0 :: vis)) as Hf.
  { pose proof (path_live _ _ _ Hwf Hp) as Hl. constructor.
    - destruct vis as [|v vis']; [by inversion Hp|]. apply Forall_cons in Hl as [[lx Hx] _].
      pose proof (wfc_range _ _ _ Hwf _ _ Hx). lia.
    - eapply Forall_impl; [exact Hl|]. intros x [lx Hx].
      pose proof (wfc_range _ _ _ Hwf _ _ Hx). lia. }
  apply NoDup_range_length in Hf; [cbn in Hf; lia|].
  constructor; [|done]. intros Hin. pose proof (path_live _ _ _ Hwf Hp) as Hl.
  rewrite Forall_forall in Hl. destruct (Hl _ Hin) as [l0 Hl0].
  pose proof (wfc_range _ _ _ Hwf _ _ Hl0). lia.
Qed.
End Facts.
