(* ===== verification/Table.v ===== *)
(** * The generic IPA table: [ipanat/src/ipa_table.c], [ipanat/inc/ipa_table.h]

    A table is a hash table whose records live in memory shared with the IPA
    hardware: [table_entries] base records, directly followed by
    [expn_table_entries] expansion records.  Every record carries the index
    of the next record of its collision chain; the base record the hash
    selects is the head of a chain and all other members of the chain are
    expansion records.

    The memory the C structure points to is the field [slots]: record [i] of
    the table is the little-endian integer its bytes spell.  Pointers to
    records are byte addresses, so the pointer arithmetic of [GOTO_REC] and
    of the DMA offsets is the source's.  An access outside the table's memory
    or through a null interface gives [None]. *)
From S2P Require Import Prelude Bitfield.

(** ** Constants and handle macros *)

Definition IPA_TABLE_MAX_ENTRIES : Z := 5120.
Definition IPA_TABLE_INVALID_ENTRY : Z := 0.
Definition VALID_INDEX (idx : Z) : bool := negb (idx =? IPA_TABLE_INVALID_ENTRY).
Definition VALID_RULE_HDL (hdl : Z) : bool := negb (hdl =? IPA_TABLE_INVALID_ENTRY).

Definition IPA_TABLE_TYPE_BITS : Z := 1.
Definition IPA_TABLE_TYPE_MASK : Z := 1.
Definition IPA_TABLE_INDX_MASK : Z := 0xFFF.
Definition IPA_TABLE_TYPE_MEM_SHIFT : Z := 15.

Definition IPA_NAT_MEM_IN_DDR : Z := 0.
Definition IPA_NAT_MEM_IN_SRAM : Z := 1.
Definition IPA_NAT_MEM_IN_MAX : Z := 2.
Definition IPA_VALID_NAT_MEM_IN (t : Z) : bool :=
  (IPA_NAT_MEM_IN_DDR <=? t) && (t <? IPA_NAT_MEM_IN_MAX).

(** The null pointer. *)
Definition NULL : Z := 0.

Inductive ipa_table_dma_type :=
  | IPA_NAT_BASE_TBL
  | IPA_NAT_EXPN_TBL
  | IPA_NAT_INDX_TBL
  | IPA_NAT_INDEX_EXPN_TBL
  | IPA_IPV6CT_BASE_TBL
  | IPA_IPV6CT_EXPN_TBL.

#[export] Instance ipa_table_dma_type_eq_dec : EqDecision ipa_table_dma_type.
Proof. solve_decision. Defined.

(** ** DMA commands (the structures of [linux/msm_ipa.h]) *)

Record ipa_ioc_nat_dma_one := mk_dma_one {
  one_table_index : Z;
  one_base_addr : ipa_table_dma_type;
  one_offset : Z;
  one_data : Z
}.

(** The flexible array [dma] has as many elements as its buffer was given. *)
Record ipa_ioc_nat_dma_cmd := mk_dma_cmd {
  entries : Z;
  mem_type : Z;
  dma : list ipa_ioc_nat_dma_one
}.

Definition dma_one_zero : ipa_ioc_nat_dma_one := mk_dma_one 0 IPA_NAT_BASE_TBL 0 0.

(** A zeroed command buffer with room for [n] DMA entries. *)
Definition dma_cmd_zero (n : nat) : ipa_ioc_nat_dma_cmd :=
  mk_dma_cmd 0 0 (replicate n dma_one_zero).

(** ** The entry interface: the table's function pointers

    A record is a [Z]; [U] is the type of the user data an insertion copies.
    The meta data of the index table (the previous-index array) is
    [option (list Z)], [None] for the null pointer.  The inserters return
    the status, the record after the copy and the DMA data. *)
Record ipa_table_entry_interface (U : Type) := mk_entry_interface {
  entry_is_valid : Z -> bool;
  entry_get_next_index : Z -> Z;
  entry_get_prev_index : Z -> Z -> option (list Z) -> Z -> option Z;
  entry_set_prev_index :
    Z -> Z -> Z -> option (list Z) -> Z -> option (Z * option (list Z));
  entry_head_insert : Z -> U -> option (Z * Z * Z);
  entry_tail_insert : Z -> U -> option (Z * Z);
  entry_get_delete_head_dma_command_data : Z -> Z -> Z
}.
Arguments mk_entry_interface {U}.
Arguments entry_is_valid {U}.
Arguments entry_get_next_index {U}.
Arguments entry_get_prev_index {U}.
Arguments entry_set_prev_index {U}.
Arguments entry_head_insert {U}.
Arguments entry_tail_insert {U}.
Arguments entry_get_delete_head_dma_command_data {U}.

Inductive dma_help_type :=
  | HELP_UPDATE_HEAD
  | HELP_UPDATE_ENTRY
  | HELP_DELETE_HEAD
  | HELP_UPDATE_MAX.

#[export] Instance dma_help_type_eq_dec : EqDecision dma_help_type.
Proof. solve_decision. Defined.

Definition VALID_DMA_HELP_TYPE (t : dma_help_type) : bool :=
  match t with HELP_UPDATE_MAX => false | _ => true end.

Record ipa_table_dma_cmd_helper := mk_helper {
  offset : Z;
  table_type : ipa_table_dma_type;
  expn_table_type : ipa_table_dma_type;
  table_indx : Z
}.

(** ** The table *)

Record ipa_table (U : Type) := mk_ipa_table {
  name : string;
  nmi : Z;
  entry_size : Z;
  table_entries : Z;
  expn_table_entries : Z;
  tot_tbl_ents : Z;
  table_addr : Z;
  expn_table_addr : Z;
  cur_tbl_cnt : Z;
  cur_expn_tbl_cnt : Z;
  entry_interface : option (ipa_table_entry_interface U);
  dma_help : dma_help_type -> option ipa_table_dma_cmd_helper;
  meta : option (list Z);
  meta_entry_size : Z;
  slots : list Z
}.
Arguments mk_ipa_table {U}.
Arguments name {U}.
Arguments nmi {U}.
Arguments entry_size {U}.
Arguments table_entries {U}.
Arguments expn_table_entries {U}.
Arguments tot_tbl_ents {U}.
Arguments table_addr {U}.
Arguments expn_table_addr {U}.
Arguments cur_tbl_cnt {U}.
Arguments cur_expn_tbl_cnt {U}.
Arguments entry_interface {U}.
Arguments dma_help {U}.
Arguments meta {U}.
Arguments meta_entry_size {U}.
Arguments slots {U}.

Section Setters.
Context {U : Type}.
Implicit Types (t : ipa_table U).

Definition with_sizes t base expn tot : ipa_table U :=
  mk_ipa_table (name t) (nmi t) (entry_size t) base expn tot
    (table_addr t) (expn_table_addr t) (cur_tbl_cnt t) (cur_expn_tbl_cnt t)
    (entry_interface t) (dma_help t) (meta t) (meta_entry_size t) (slots t).

Definition with_memory t addr expn_addr mem : ipa_table U :=
  mk_ipa_table (name t) (nmi t) (entry_size t) (table_entries t)
    (expn_table_entries t) (tot_tbl_ents t) addr expn_addr (cur_tbl_cnt t)
    (cur_expn_tbl_cnt t) (entry_interface t) (dma_help t) (meta t)
    (meta_entry_size t) mem.

Definition with_counts t base expn : ipa_table U :=
  mk_ipa_table (name t) (nmi t) (entry_size t) (table_entries t)
    (expn_table_entries t) (tot_tbl_ents t) (table_addr t) (expn_table_addr t)
    base expn (entry_interface t) (dma_help t) (meta t) (meta_entry_size t)
    (slots t).

Definition with_dma_help t h : ipa_table U :=
  mk_ipa_table (name t) (nmi t) (entry_size t) (table_entries t)
    (expn_table_entries t) (tot_tbl_ents t) (table_addr t) (expn_table_addr t)
    (cur_tbl_cnt t) (cur_expn_tbl_cnt t) (entry_interface t) h (meta t)
    (meta_entry_size t) (slots t).

Definition with_meta t m : ipa_table U :=
  mk_ipa_table (name t) (nmi t) (entry_size t) (table_entries t)
    (expn_table_entries t) (tot_tbl_ents t) (table_addr t) (expn_table_addr t)
    (cur_tbl_cnt t) (cur_expn_tbl_cnt t) (entry_interface t) (dma_help t) m
    (meta_entry_size t) (slots t).

Definition with_slots t l : ipa_table U :=
  with_memory t (table_addr t) (expn_table_addr t) l.
Definition with_tbl_cnt t n : ipa_table U := with_counts t n (cur_expn_tbl_cnt t).
Definition with_expn_cnt t n : ipa_table U := with_counts t (cur_tbl_cnt t) n.
End Setters.

Record ipa_table_iterator := mk_iterator {
  prev_index : Z;
  prev_entry : Z;
  curr_index : Z;
  curr_entry : Z;
  next_index : Z;
  next_entry : Z
}.

Definition iterator_zero : ipa_table_iterator := mk_iterator 0 NULL 0 NULL 0 NULL.

Inductive When2Callback := WHEN_SLOT_EMPTY | WHEN_SLOT_FILLED | WHEN_SLOT_MAX.

Definition VALID_WHEN2CALLBACK (w : When2Callback) : bool :=
  match w with WHEN_SLOT_MAX => false | _ => true end.

Section Operations.
Context {U : Type}.
Implicit Types (t : ipa_table U) (it : ipa_table_iterator)
  (cmd : ipa_ioc_nat_dma_cmd).

(** ** Record access *)

(** The address of record [rec_idx]. *)
Definition GOTO_REC t (rec_idx : Z) : Z := table_addr t + rec_idx * entry_size t.

(** The record an address points to. *)
Definition rec_slot t (p : Z) : option Z :=
  if decide (0 < entry_size t /\ (p - table_addr t) mod entry_size t = 0)
  then Some ((p - table_addr t) / entry_size t) else None.

Definition rec_load t (p : Z) : option Z := k ← rec_slot t p; (slots t).[k].

Definition rec_store t (p e : Z) : option (ipa_table U) :=
  k ← rec_slot t p; l ← storeZ (slots t) k e; Some (with_slots t l).

(** ** Creation *)

Definition ipa_table_zero : ipa_table U :=
  mk_ipa_table "" 0 0 0 0 0 NULL NULL 0 0 None (fun _ => None) None 0 [].

Definition ipa_table_init (table_name : string) (nmi entry_size : Z)
    (meta : option (list Z)) (meta_entry_size : Z)
    (iface : option (ipa_table_entry_interface U)) : ipa_table U :=
  mk_ipa_table table_name nmi entry_size 0 0 0 NULL NULL 0 0 iface
    (fun _ => None) meta meta_entry_size [].

Definition ipa_table_calculate_size t : Z :=
  entry_size t * (table_entries t + expn_table_entries t).

(** [mem] is what the memory at [base_addr] holds. *)
Definition ipa_table_calculate_addresses t (base_addr : Z) (mem : list Z)
    : ipa_table U * Z :=
  let table_addr := base_addr in
  let expn_table_addr := table_addr + entry_size t * table_entries t in
  (with_memory t table_addr expn_table_addr mem,
   expn_table_addr + entry_size t * expn_table_entries t).

(** Clear [n] consecutive records from address [p] on. *)
Fixpoint zero_records (n : nat) (p : Z) t : option (ipa_table U) :=
  match n with
  | O => Some t
  | S n' => t1 ← rec_store t p 0; zero_records n' (p + entry_size t) t1
  end.

Definition ipa_table_reset t : option (ipa_table U) :=
  t1 ← zero_records (Z.to_nat (table_entries t)) (table_addr t) t;
  zero_records (Z.to_nat (expn_table_entries t)) (expn_table_addr t) t1.

(** ** DMA commands *)

Definition ipa_table_dma_cmd_helper_init (table_indx : Z)
    (table_type expn_table_type : ipa_table_dma_type) (offset : Z)
    : ipa_table_dma_cmd_helper :=
  mk_helper (u32 offset) table_type expn_table_type (u8 table_indx).

Definition ipa_table_dma_cmd_generate (h : ipa_table_dma_cmd_helper)
    (is_expn : bool) (entry_offset data : Z) cmd : option ipa_ioc_nat_dma_cmd :=
  let one := mk_dma_one (table_indx h)
    (if is_expn then expn_table_type h else table_type h)
    (u32 (offset h + entry_offset)) (u16 data) in
  d ← storeZ (dma cmd) (entries cmd) one;
  Some (mk_dma_cmd (u8 (entries cmd + 1)) (mem_type cmd) d).

Definition ipa_table_add_dma_cmd t (help_type : dma_help_type)
    (rec_ptr rec_index data_for_entry : Z) cmd
    : option (Z * ipa_ioc_nat_dma_cmd) :=
  if negb (VALID_DMA_HELP_TYPE help_type) || (rec_ptr =? NULL) then
    Some (- EINVAL, cmd)
  else
  let tab_sz := table_entries t + expn_table_entries t in
  if tab_sz <=? rec_index then Some (- EINVAL, cmd)
  else
  let is_expn := table_entries t <=? rec_index in
  let entry_offset :=
    u32 (rec_ptr - (if is_expn then expn_table_addr t else table_addr t)) in
  h ← dma_help t help_type;
  cmd' ← ipa_table_dma_cmd_generate h is_expn entry_offset data_for_entry cmd;
  Some (0, cmd').

(** ** Handles *)

Definition MakeEntryHdl t (tbl_entry : Z) : Z :=
  let entry_hdl :=
    if table_entries t <=? tbl_entry then
      Z.lor (u16 (Z.shiftl (u16 (tbl_entry - table_entries t)) IPA_TABLE_TYPE_BITS))
            IPA_TABLE_TYPE_MASK
    else u16 (Z.shiftl tbl_entry IPA_TABLE_TYPE_BITS) in
  u16 (Z.lor entry_hdl (Z.shiftl (nmi t) IPA_TABLE_TYPE_MEM_SHIFT)).

(** Memory type, expansion bit and record index of a rule handle. *)
Definition BREAK_RULE_HDL t (hdl : Z) : Z * Z * Z :=
  let mt := Z.land (Z.shiftr hdl IPA_TABLE_TYPE_MEM_SHIFT) IPA_TABLE_TYPE_MASK in
  let iet := Z.land hdl IPA_TABLE_TYPE_MASK in
  let indx := Z.land (Z.shiftr hdl IPA_TABLE_TYPE_BITS) IPA_TABLE_INDX_MASK in
  (mt, iet, u16 (indx + (if iet =? 0 then 0 else table_entries t))).

(** Status, record pointer and record index; the last two are only
    written on success. *)
Definition ipa_table_get_entry t (entry_handle : Z) : Z * option (Z * Z) :=
  let '(_, _, rec_index) := BREAK_RULE_HDL t entry_handle in
  if tot_tbl_ents t <=? rec_index then (- EINVAL, None)
  else (0, Some (GOTO_REC t rec_index, rec_index)).

Definition ipa_table_get_entry_by_index t (rec_index : Z) : Z :=
  if (rec_index =? 0) || (tot_tbl_ents t <=? rec_index) then NULL
  else GOTO_REC t rec_index.

(** ** Iterators *)

Definition ipa_table_iterator_init t (curr_entry curr_index : Z)
    : option (Z * ipa_table_iterator) :=
  I ← entry_interface t;
  e ← rec_load t curr_entry;
  if negb (entry_is_valid I e) then Some (- EINVAL, iterator_zero)
  else
  prev_index ← entry_get_prev_index I e curr_index (meta t) (table_entries t);
  let next_index := entry_get_next_index I e in
  let prev_entry :=
    if VALID_INDEX prev_index then ipa_table_get_entry_by_index t prev_index else NULL in
  if VALID_INDEX prev_index && (prev_entry =? NULL) then
    Some (- EPERM, mk_iterator prev_index NULL curr_index curr_entry next_index NULL)
  else
  let next_entry :=
    if VALID_INDEX next_index then ipa_table_get_entry_by_index t next_index else NULL in
  let it := mk_iterator prev_index prev_entry curr_index curr_entry next_index next_entry in
  if VALID_INDEX next_index && (next_entry =? NULL) then Some (- EPERM, it)
  else Some (0, it).

Definition ipa_table_iterator_next it t : option (Z * ipa_table_iterator) :=
  I ← entry_interface t;
  e ← rec_load t (next_entry it);
  let next := entry_get_next_index I e in
  if negb (VALID_INDEX next) then
    Some (0, mk_iterator (curr_index it) (curr_entry it)
                         (next_index it) (next_entry it) next NULL)
  else
  let np := ipa_table_get_entry_by_index t next in
  let it' := mk_iterator (curr_index it) (curr_entry it)
                         (next_index it) (next_entry it) next np in
  if np =? NULL then Some (- EPERM, it') else Some (0, it').

(** The search for the end of a chain; the flag tells whether it was found. *)
Fixpoint iterator_end_loop (fuel : nat) t (I : ipa_table_entry_interface U)
    (prev_index prev_entry : Z) : option (bool * Z * Z) :=
  match fuel with
  | O => None
  | S fuel' =>
      e ← rec_load t prev_entry;
      let next_index := entry_get_next_index I e in
      if negb (VALID_INDEX next_index) then Some (true, prev_index, prev_entry)
      else if next_index =? prev_index then Some (false, prev_index, prev_entry)
      else iterator_end_loop fuel' t I next_index (GOTO_REC t next_index)
  end.

(** The fuel is one more than the number of records: a chain that visits
    no record twice is exhausted before. *)
Definition ipa_table_iterator_end t (rec_index rec_ptr : Z)
    : option (Z * ipa_table_iterator) :=
  if rec_ptr =? NULL then Some (-1, iterator_zero)
  else
  I ← entry_interface t;
  '(found_end, pi, pe) ← iterator_end_loop (S (length (slots t))) t I rec_index rec_ptr;
  let it := mk_iterator pi pe 0 NULL 0 NULL in
  Some ((if found_end : bool then 0 else -1), it).

Definition ipa_table_iterator_is_head_with_tail it : bool :=
  VALID_INDEX (next_index it) && negb (VALID_INDEX (prev_index it)).
End Operations.

(** ** Walking a table *)

Section Walk.
Context {U St : Type}.

(** The callback's arguments: the table, the rule handle, the record's
    address and index, and the meta record (its index in the meta array,
    [None] for the null pointer) with its index. *)
Definition ipa_table_walk_cb : Type :=
  ipa_table U -> Z -> Z -> Z -> option Z -> Z -> St -> option (Z * St).

(** [get] finds the walked table in the state the callback may change. *)
Fixpoint walk_loop (get : St -> ipa_table U) (tot : Z) (when2cb : When2Callback)
    (walk_cb : ipa_table_walk_cb) (fuel : nat) (i rec_ptr : Z) (s : St)
    : option (Z * St) :=
  match fuel with
  | O => None
  | S fuel' =>
      if tot <=? i then Some (0, s) else
      let t := get s in
      I ← entry_interface t;
      e ← rec_load t rec_ptr;
      let call_back :=
        if entry_is_valid I e
        then match when2cb with WHEN_SLOT_FILLED => true | _ => false end
        else match when2cb with WHEN_SLOT_EMPTY => true | _ => false end in
      let continue s' :=
        walk_loop get tot when2cb walk_cb fuel' (u16 (i + 1))
          (rec_ptr + entry_size (get s')) s' in
      if call_back then
        let rule_hdl := MakeEntryHdl t i in
        let meta_index := u16 (i - table_entries t) in
        let '(meta_record_ptr, meta_record_index) :=
          match meta t with
          | Some _ => if table_entries t <=? i then (Some meta_index, meta_index)
                      else (None, 0)
          | None => (None, 0)
          end in
        '(ret, s') ← walk_cb t rule_hdl rec_ptr i meta_record_ptr meta_record_index s;
        if negb (ret =? 0) then Some (ret, s') else continue s'
      else continue s
  end.

(** The fuel is the number of records left plus one. *)
Definition ipa_table_walk (get : St -> ipa_table U) (start_index : Z)
    (when2cb : When2Callback) (walk_cb : ipa_table_walk_cb) (s : St)
    : option (Z * St) :=
  if negb (VALID_WHEN2CALLBACK when2cb) then Some (- EINVAL, s) else
  let t := get s in
  let tot := table_entries t + expn_table_entries t in
  if tot <=? start_index then Some (- EINVAL, s) else
  walk_loop get tot when2cb walk_cb (S (Z.to_nat (tot - start_index)))
    start_index (GOTO_REC t start_index) s.
End Walk.
Arguments ipa_table_walk_cb : clear implicits.

(** ** Insertion and deletion *)

Section Updates.
Context {U : Type}.
Implicit Types (t : ipa_table U) (it : ipa_table_iterator)
  (cmd : ipa_ioc_nat_dma_cmd).

Definition mt_slot : ipa_table_walk_cb U (ipa_table U) :=
  fun _ _ _ record_index _ _ s => Some (record_index, s).

(** Status, address and index of a free expansion record. *)
Definition FindExpnTblFreeEntry t : option (Z * Z * Z) :=
  '(ret, _) ← ipa_table_walk id (table_entries t) WHEN_SLOT_EMPTY mt_slot t;
  if 0 <? ret then
    let entry_index := u16 ret in
    Some (0, GOTO_REC t entry_index, entry_index)
  else Some (-1, NULL, 0).

Definition InsertHead t (rec_ptr rec_index : Z) (user_data : U) cmd
    : option (Z * ipa_table U * ipa_ioc_nat_dma_cmd) :=
  I ← entry_interface t;
  e ← rec_load t rec_ptr;
  '(ret, e', enable_data) ← entry_head_insert I e user_data;
  t1 ← rec_store t rec_ptr e';
  if negb (ret =? 0) then Some (ret, t1, cmd) else
  '(_, cmd1) ← ipa_table_add_dma_cmd t1 HELP_UPDATE_HEAD rec_ptr rec_index enable_data cmd;
  Some (ret, with_tbl_cnt t1 (u16 (cur_tbl_cnt t1 + 1)), cmd1).

(** Status, table, index of the new record (the argument on failure) and
    command. *)
Definition InsertTail t (rec_ptr rec_index : Z) (user_data : U) cmd
    : option (Z * ipa_table U * Z * ipa_ioc_nat_dma_cmd) :=
  I ← entry_interface t;
  let is_index_tbl := match meta t with Some _ => true | None => false end in
  '(ret, it) ← ipa_table_iterator_end t rec_index rec_ptr;
  if negb (ret =? 0) then Some (ret, t, rec_index, cmd) else
  '(ret, free_entry, entry_index) ← FindExpnTblFreeEntry t;
  if negb (ret =? 0) then Some (ret, t, rec_index, cmd) else
  e ← rec_load t free_entry;
  '(ret, e1, enable_data) ←
    (if is_index_tbl
     then '(r, e1) ← entry_tail_insert I e user_data; Some (r, e1, 0)
     else entry_head_insert I e user_data);
  t1 ← rec_store t free_entry e1;
  if negb (ret =? 0) then Some (ret, t1, rec_index, cmd) else
  '(e2, m2) ← entry_set_prev_index I e1 entry_index (prev_index it) (meta t1)
                (table_entries t1);
  t2 ← rec_store (with_meta t1 m2) free_entry e2;
  '(_, cmd1) ←
    (if is_index_tbl then Some (0, cmd)
     else ipa_table_add_dma_cmd t2 HELP_UPDATE_HEAD free_entry entry_index enable_data cmd);
  '(_, cmd2) ← ipa_table_add_dma_cmd t2 HELP_UPDATE_ENTRY (prev_entry it)
                 (prev_index it) entry_index cmd1;
  Some (ret, with_expn_cnt t2 (u16 (cur_expn_tbl_cnt t2 + 1)), entry_index, cmd2).

(** Status, table, record index, rule handle (for a non-null handle
    pointer) and command. *)
Definition ipa_table_add_entry t (user_data : U) (rec_index : Z)
    (rule_hdl : option Z) cmd
    : option (Z * ipa_table U * Z * option Z * ipa_ioc_nat_dma_cmd) :=
  let rec_ptr := GOTO_REC t rec_index in
  I ← entry_interface t;
  e ← rec_load t rec_ptr;
  let occupied := entry_is_valid I e in
  '(ret, t1, rec_index1, cmd1) ←
    (if negb occupied then
       '(ret, t1, cmd1) ← InsertHead t rec_ptr rec_index user_data cmd;
       Some (ret, t1, rec_index, cmd1)
     else InsertTail t rec_ptr rec_index user_data cmd);
  if negb (ret =? 0) then Some (ret, t1, rec_index1, rule_hdl, cmd1) else
  let rule_hdl1 :=
    match rule_hdl with
    | Some _ => Some (MakeEntryHdl t1 rec_index1)
    | None => None
    end in
  Some (ret, t1, rec_index1, rule_hdl1, cmd1).

Definition ipa_table_create_delete_command t cmd it
    : option ipa_ioc_nat_dma_cmd :=
  if negb (VALID_INDEX (prev_index it)) then
    '(data, ht) ←
      (if VALID_INDEX (next_index it) then
         I ← entry_interface t;
         c ← rec_load t (curr_entry it);
         n ← rec_load t (next_entry it);
         Some (entry_get_delete_head_dma_command_data I c n, HELP_DELETE_HEAD)
       else Some (0, HELP_UPDATE_HEAD));
    '(_, cmd') ← ipa_table_add_dma_cmd t ht (curr_entry it) (curr_index it) data cmd;
    Some cmd'
  else
    '(_, cmd') ← ipa_table_add_dma_cmd t HELP_UPDATE_ENTRY (prev_entry it)
                   (prev_index it) (next_index it) cmd;
    Some cmd'.

Definition ipa_table_erase_entry t (index : Z) : option (ipa_table U) :=
  t1 ← rec_store t (GOTO_REC t index) 0;
  Some (if index <? table_entries t
        then with_tbl_cnt t1 (u16 (cur_tbl_cnt t1 - 1))
        else with_expn_cnt t1 (u16 (cur_expn_tbl_cnt t1 - 1))).

Definition ipa_table_delete_entry t it (is_prev_empty : bool)
    : option (ipa_table U) :=
  t1 ←
    (if VALID_INDEX (next_index it) then
       I ← entry_interface t;
       n ← rec_load t (next_entry it);
       '(n', m') ← entry_set_prev_index I n (next_index it) (prev_index it)
                     (meta t) (table_entries t);
       rec_store (with_meta t m') (next_entry it) n'
     else if is_prev_empty then
       if prev_entry it =? NULL then Some t
       else
         t1 ← rec_store t (prev_entry it) 0;
         Some (with_tbl_cnt t1 (u16 (cur_tbl_cnt t1 - 1)))
     else Some t);
  ipa_table_erase_entry t1 (curr_index it).
End Updates.

(** ** The effect of a DMA command on a table's memory

    The hardware is not part of the source; this is the documented effect
    (the comments of [ipa_nat_drvi.h] and [ipa_table.c]) a [TABLE_DMA]
    command has: the sixteen bits [data] are stored at byte [offset] of the
    base or of the expansion table.  Theorems about the memory after a
    successful post assume it of the driver (see [IpaDriver]). *)
Definition record_put16 (e off data : Z) : Z := setf (half_at off) e data.

Definition table_dma_write {U} (t : ipa_table U) (is_expn : bool) (offset data : Z)
    : option (ipa_table U) :=
  let k := offset / entry_size t + (if is_expn then table_entries t else 0) in
  e ← (slots t).[k];
  Some (with_slots t (slots t).[k <- record_put16 e (offset mod entry_size t) data]).
