(* ===== verification/Sizing.v ===== *)
(** * Table sizing: the number of records of a table

    [ipa_table_calculate_entries_num], [ipa_calc_num_sram_table_entries] and
    their rounding helpers of [ipanat/src/ipa_table.c].  The source multiplies
    by fractional constants in IEEE binary32 or binary64; the products are
    computed here exactly as the standard prescribes, with the formats of
    [SpecFloat], so every rounding the machine makes is in the model.

    The requested numbers are bounded (5120 records), so the statements about
    the floating-point products are checked for every one of them. *)
From S2P Require Import Prelude Bitfield Table.
From Stdlib Require Import SpecFloat.

(** ** Floating point *)

(** A non-negative integer converted to the format. *)
Definition float_of_Z (prec emax : Z) (n : Z) : spec_float :=
  binary_normalize prec emax n 0 false.

(** A decimal literal [num/den] of type [double]. *)
Definition double_lit (num den : Z) : spec_float :=
  SFdiv 53 1024 (float_of_Z 53 1024 num) (float_of_Z 53 1024 den).

(** The conversion of a [double] assigned to a [float]. *)
Definition float_of_double (x : spec_float) : spec_float :=
  match x with
  | S754_finite s m e => binary_round 24 128 s m e
  | _ => x
  end.

(** The conversion of a floating value to an integer type: the fraction is
    dropped. *)
Definition float_trunc (x : spec_float) : Z :=
  match x with
  | S754_finite s m e => if s then - Z.shiftl (Zpos m) e else Z.shiftl (Zpos m) e
  | _ => 0
  end.

(** [n * f] for an integer [n] and a [float] (resp. [double]) [f]. *)
Definition mul_float (n : Z) (f : spec_float) : Z :=
  float_trunc (SFmul 24 128 (float_of_Z 24 128 n) f).
Definition mul_double (n : Z) (f : spec_float) : Z :=
  float_trunc (SFmul 53 1024 (float_of_Z 53 1024 n) f).

Definition IPA_BASE_TABLE_PERCENTAGE : spec_float := double_lit 8 10.
Definition IPA_EXPANSION_TABLE_PERCENTAGE : spec_float := double_lit 2 10.
Definition IPA_BASE_TABLE_PCNT_4SRAM : spec_float := double_lit 100 100.
Definition IPA_EXPANSION_TABLE_PCNT_4SRAM : spec_float := double_lit 43 100.

(** ** Rounding helpers *)

(** The loop [while (tmp != 1)] of the source; at most fifteen rounds. *)
Fixpoint g2p_loop (fuel : nat) (tmp prev curr : Z) : option (Z * Z) :=
  match fuel with
  | O => None
  | S fuel' =>
      if tmp =? 1 then Some (prev, curr)
      else g2p_loop fuel' (Z.shiftr tmp 1) curr (u16 (Z.shiftl curr 1))
  end.

Definition Get2PowerTightUpperBound (num : Z) : option Z :=
  if num =? 0 then Some 2 else
  '(prev, curr) ← g2p_loop 17 num 0 2;
  Some (if num =? prev then prev else curr).

Definition GetEvenTightUpperBound (num : Z) : Z :=
  if num =? 0 then 2 else if negb (num mod 2 =? 0) then num + 1 else num.

(** ** The sizing functions *)

Section Sizing.
Context {U : Type}.
Implicit Types (t : ipa_table U).

(** Status and table. *)
Definition ipa_table_calculate_entries_num t (number_of_entries nmi : Z)
    : option (Z * ipa_table U) :=
  if IPA_TABLE_MAX_ENTRIES <? number_of_entries then Some (- EINVAL, t) else
  let '(btp, etp) :=
    if nmi =? IPA_NAT_MEM_IN_SRAM
    then (float_of_double IPA_BASE_TABLE_PCNT_4SRAM,
          float_of_double IPA_EXPANSION_TABLE_PCNT_4SRAM)
    else (float_of_double IPA_BASE_TABLE_PERCENTAGE,
          float_of_double IPA_EXPANSION_TABLE_PERCENTAGE) in
  base ← Get2PowerTightUpperBound (mul_float number_of_entries btp);
  let tbl_entries := u16 base in
  let expn_entries := u16 (GetEvenTightUpperBound (mul_float number_of_entries etp)) in
  let tot := tbl_entries + expn_entries in
  if IPA_TABLE_MAX_ENTRIES <? tot
  then Some (- EINVAL, with_sizes t (table_entries t) (expn_table_entries t) tot)
  else Some (0, with_sizes t tbl_entries expn_entries tot).
End Sizing.

(** The number of bytes both tables of [tot] entries take. *)
Definition sram_tables_size (table1_ent_size table2_ent_size tot : Z) : option Z :=
  let nat_table : ipa_table unit :=
    ipa_table_init "tmp_sram_table1" IPA_NAT_MEM_IN_DDR table1_ent_size None 0 None in
  let index_table : ipa_table unit :=
    ipa_table_init "tmp_sram_table1" IPA_NAT_MEM_IN_DDR table2_ent_size None 0 None in
  base ← Get2PowerTightUpperBound (mul_double tot IPA_BASE_TABLE_PCNT_4SRAM);
  let expn := GetEvenTightUpperBound (mul_double tot IPA_EXPANSION_TABLE_PCNT_4SRAM) in
  let nat_table := with_sizes nat_table (u16 base) (u16 expn) 0 in
  let index_table := with_sizes index_table (u16 base) (u16 expn) 0 in
  Some (ipa_table_calculate_size nat_table + ipa_table_calculate_size index_table).

(** The [while (1)] loop of [ipa_calc_num_sram_table_entries]. *)
Fixpoint sram_entries_loop (fuel : nat) (sram_size s1 s2 tot num_entries : Z)
    : option Z :=
  match fuel with
  | O => None
  | S fuel' =>
      size ← sram_tables_size s1 s2 tot;
      if sram_size <? u32 size then Some num_entries
      else sram_entries_loop fuel' sram_size s1 s2 (u16 (tot + 1)) tot
  end.

(** Status and number of entries.  The counter is a [uint16_t]: after 65536
    rounds without a break the loop would repeat itself for ever. *)
Definition ipa_calc_num_sram_table_entries (sram_size table1_ent_size table2_ent_size : Z)
    : option (Z * Z) :=
  num ← sram_entries_loop (Z.to_nat 65536) sram_size table1_ent_size table2_ent_size 1 0;
  Some (if num =? 0 then -1 else 0, num).

(** ** Rounding *)

(** [r] is the least power of two not below [n]. *)
Definition tight_pow2 (n r : Z) : bool :=
  (2 ^ Z.log2 r =? r) && (n <=? r) && ((r <? 2 * n) || (r =? 2)).

Definition g2p_check (n : Z) : bool :=
  match Get2PowerTightUpperBound n with Some r => tight_pow2 n r | None => false end.

Lemma g2p_check_all : forall_below g2p_check (Z.to_nat 32769) 0 = true.
Proof. vm_compute. reflexivity. Qed.

Lemma g2p_spec n :
  0 <= n <= 32768 ->
  exists r, Get2PowerTightUpperBound n = Some r /\ 2 ^ Z.log2 r = r /\ n <= r
    /\ (r < 2 * n \/ r = 2).
Proof.
  intros Hn. pose proof (forall_below_spec _ _ _ g2p_check_all n ltac:(lia)) as H.
  unfold g2p_check in H. destruct (Get2PowerTightUpperBound n) as [r|]; [|done].
  exists r. unfold tight_pow2 in H.
  rewrite !andb_true_iff, orb_true_iff, !Z.eqb_eq, Z.leb_le, Z.ltb_lt in H. tauto.
Qed.

Lemma even_bound_spec n :
  0 <= n -> n <= GetEvenTightUpperBound n <= n + 2 /\ 2 <= GetEvenTightUpperBound n
    /\ GetEvenTightUpperBound n mod 2 = 0.
Proof.
  intros Hn. unfold GetEvenTightUpperBound.
  destruct (Z.eqb_spec n 0); [subst; dlia|]. destruct (Z.eqb_spec (n mod 2) 0); cbn; dlia.
Qed.

(** ** Number of records *)

(** Base and expansion records for a request of [n] in memory [nmi]. *)
Definition sizes (nmi n : Z) : option (Z * Z) :=
  let '(btp, etp) :=
    if nmi =? IPA_NAT_MEM_IN_SRAM
    then (float_of_double IPA_BASE_TABLE_PCNT_4SRAM,
          float_of_double IPA_EXPANSION_TABLE_PCNT_4SRAM)
    else (float_of_double IPA_BASE_TABLE_PERCENTAGE,
          float_of_double IPA_EXPANSION_TABLE_PERCENTAGE) in
  base ← Get2PowerTightUpperBound (mul_float n btp);
  Some (u16 base, u16 (GetEvenTightUpperBound (mul_float n etp))).

Lemma calculate_entries_num_sizes {U} (t : ipa_table U) n nmi :
  n <= IPA_TABLE_MAX_ENTRIES ->
  ipa_table_calculate_entries_num t n nmi
  = '(b, e) ← sizes nmi n;
    if IPA_TABLE_MAX_ENTRIES <? b + e
    then Some (- EINVAL, with_sizes t (table_entries t) (expn_table_entries t) (b + e))
    else Some (0, with_sizes t b e (b + e)).
Proof.
  intros Hn. unfold ipa_table_calculate_entries_num, sizes. rewrite (proj2 (Z.ltb_ge _ _)) by done.
  destruct (nmi =? IPA_NAT_MEM_IN_SRAM);
    destruct (Get2PowerTightUpperBound _) as [b|]; done.
Qed.

Definition sizes_check (nmi n : Z) : bool :=
  match sizes nmi n with
  | Some (b, e) =>
      (2 <=? b) && (2 ^ Z.log2 b =? b) && (2 <=? e) && (e mod 2 =? 0)
      && (n - 1 <=? b + e) && ((IPA_TABLE_MAX_ENTRIES <? b + e) || ((b <=? 4096) && (e <=? 4096)))
      && ((nmi =? IPA_NAT_MEM_IN_SRAM) || (b + e <=? IPA_TABLE_MAX_ENTRIES))
  | None => false
  end.

Lemma sizes_check_all :
  forall_below (fun n => sizes_check IPA_NAT_MEM_IN_DDR n && sizes_check IPA_NAT_MEM_IN_SRAM n)
    (Z.to_nat 5121) 0 = true.
Proof. vm_compute. reflexivity. Qed.

Lemma sizes_spec nmi n :
  0 <= n <= IPA_TABLE_MAX_ENTRIES -> nmi = 0 \/ nmi = 1 ->
  exists b e, sizes nmi n = Some (b, e) /\ 2 <= b /\ 2 ^ Z.log2 b = b /\ 2 <= e
    /\ e mod 2 = 0 /\ n - 1 <= b + e
    /\ (b + e <= IPA_TABLE_MAX_ENTRIES -> b <= 4096 /\ e <= 4096)
    /\ (nmi = 0 -> b + e <= IPA_TABLE_MAX_ENTRIES).
Proof.
  intros Hn Hnmi. unfold IPA_TABLE_MAX_ENTRIES in Hn.
  pose proof (forall_below_spec _ _ _ sizes_check_all n ltac:(lia)) as H. cbn beta in H.
  apply andb_true_iff in H as [H1 H2].
  assert (H : sizes_check nmi n = true) by (by destruct Hnmi as [->| ->]).
  unfold sizes_check in H. destruct (sizes nmi n) as [[b e]|]; [|done]. exists b, e.
  rewrite !andb_true_iff, !orb_true_iff, !andb_true_iff in H.
  rewrite !Z.eqb_eq, !Z.leb_le, !Z.ltb_lt in H.
  unfold IPA_NAT_MEM_IN_SRAM, IPA_TABLE_MAX_ENTRIES in *. split; [done|]. lia.
Qed.

(** ** The number of records that fit in SRAM *)

Section Sram.
Context (sram_size s1 s2 : Z).

(** Tables of [tot] records fit. *)
Definition sram_fits (tot : Z) : Prop :=
  exists sz, sram_tables_size s1 s2 tot = Some sz /\ u32 sz <= sram_size.

Definition sram_exceeds (tot : Z) : Prop :=
  exists sz, sram_tables_size s1 s2 tot = Some sz /\ sram_size < u32 sz.

(** The loop stops at the first number that does not fit. *)
Lemma sram_loop_result fuel tot num r :
  sram_entries_loop fuel sram_size s1 s2 tot num = Some r ->
  (r = num /\ sram_exceeds tot) \/ (sram_fits r /\ sram_exceeds (u16 (r + 1))).
Proof.
  revert tot num. induction fuel as [|fuel IH]; intros tot num; [done|]. cbn [sram_entries_loop].
  destruct (sram_tables_size s1 s2 tot) as [sz|] eqn:Es; [|done]. cbn [mbind option_bind].
  destruct (Z.ltb_spec sram_size (u32 sz)).
  - intros [= <-]. left. split; [done|]. by exists sz.
  - intros [[-> H1]|H1]%IH; [|by right]. right. split; [|done]. by exists sz.
Qed.

(** The loop ends when a number it reaches does not fit. *)
Lemma sram_loop_ends fuel tot num last :
  0 <= tot <= last -> last < 65535 -> last - tot < Z.of_nat fuel ->
  (forall k, tot <= k <= last -> is_Some (sram_tables_size s1 s2 k)) -> sram_exceeds last ->
  exists r, sram_entries_loop fuel sram_size s1 s2 tot num = Some r /\ (r = num \/ tot <= r < last).
Proof.
  revert tot num. induction fuel as [|fuel IH]; intros tot num Ht Hl Hf Hs Hx; [lia|].
  cbn [sram_entries_loop]. destruct (Hs tot) as [sz Es]; [lia|]. rewrite Es. cbn [mbind option_bind].
  destruct (Z.ltb_spec sram_size (u32 sz)); [by eauto|].
  destruct (decide (tot = last)) as [->|Hne].
  { destruct Hx as (sz' & Es' & Hx). rewrite Es in Es'. injection Es' as <-. lia. }
  rewrite u16_small by lia. destruct (IH (tot + 1) tot) as (r & Er & Hr); [lia..| |done|].
  - intros k Hk. apply Hs. lia.
  - exists r. split; [done|]. lia.
Qed.
End Sram.

Definition sram_size_check (tot : Z) : bool :=
  match sram_tables_size 32 4 tot with Some sz => (0 <=? sz) && (sz <? 2 ^ 32) | None => false end.

Lemma sram_size_check_all : forall_below sram_size_check (Z.to_nat 20001) 0 = true.
Proof. vm_compute. reflexivity. Qed.

Lemma sram_tables_size_small tot :
  0 <= tot <= 20000 -> exists sz, sram_tables_size 32 4 tot = Some sz /\ 0 <= sz < 2 ^ 32.
Proof.
  intros H. pose proof (forall_below_spec _ _ _ sram_size_check_all tot ltac:(lia)) as Hc.
  unfold sram_size_check in Hc. destruct (sram_tables_size 32 4 tot) as [sz|]; [|done].
  exists sz. split; [done|]. lia.
Qed.

Lemma sram_large : sram_tables_size 32 4 20000 = Some 1489248.
Proof. vm_compute. reflexivity. Qed.
