(* ===== verification/TableFacts.v ===== *)
(** * Correctness of the generic IPA table

    [TableEntryLaws] is the interface an entry layout promises to the table:
    where its next index and head word live, and that copying user data,
    setting the previous index and the sixteen-bit DMA writes each change
    only what they should.  Against it, this file proves that the table's
    operations maintain the chain invariant [wf_table], that searches
    terminate and find what is there, and what every insertion and deletion
    does to the records. *)
From S2P Require Import Prelude Bitfield Chain Table.

(** Byte offsets of the words the DMA helpers write, and the record size. *)
Record entry_layout := mk_layout {
  el_size : Z;
  el_head_off : Z;
  el_next_off : Z;
  el_del_off : Z
}.

Class TableEntryLaws {U : Type} (I : ipa_table_entry_interface U) (L : entry_layout)
    (free_ok : Z -> Prop) (meta_ok : option (list Z) -> Z -> Prop) : Prop := {
  tel_offsets : 0 <= el_head_off L < el_size L /\ 0 <= el_next_off L < el_size L
    /\ 0 <= el_del_off L < el_size L;
  tel_next_range e : 0 <= entry_get_next_index I e < 65536;
  tel_valid_zero : entry_is_valid I 0 = false;
  tel_free_zero : free_ok 0;
  tel_free_next e : free_ok e -> entry_get_next_index I e = 0;
  tel_free_prev e i m base :
    free_ok e -> 0 <= i < base -> entry_get_prev_index I e i m base = Some 0;
  (** the word written when a record is linked to its successor *)
  tel_put_next_next e d :
    entry_get_next_index I (record_put16 e (el_next_off L) d) = u16 d;
  tel_put_next_valid e d :
    entry_is_valid I (record_put16 e (el_next_off L) d) = entry_is_valid I e;
  tel_put_next_prev e d i m base :
    entry_get_prev_index I (record_put16 e (el_next_off L) d) i m base
    = entry_get_prev_index I e i m base;
  (** the word written when a head is enabled or disabled *)
  tel_put_head_next e d :
    entry_get_next_index I (record_put16 e (el_head_off L) d) = entry_get_next_index I e;
  tel_put_head_prev e d i m base :
    entry_get_prev_index I (record_put16 e (el_head_off L) d) i m base
    = entry_get_prev_index I e i m base;
  (** the previous index *)
  tel_prev_total e i m base expn :
    meta_ok m expn -> 0 <= i < base + expn ->
    is_Some (entry_get_prev_index I e i m base);
  tel_set_prev e i p m base expn :
    meta_ok m expn -> base <= i < base + expn -> 0 <= p < 65536 ->
    exists e' m', entry_set_prev_index I e i p m base = Some (e', m')
      /\ meta_ok m' expn
      /\ entry_is_valid I e' = entry_is_valid I e
      /\ entry_get_next_index I e' = entry_get_next_index I e
      /\ entry_get_prev_index I e' i m' base = Some p
      /\ forall e2 j, 0 <= j -> j <> i ->
           entry_get_prev_index I e2 j m' base = entry_get_prev_index I e2 j m base
}.

Section TableFacts.
Context {U : Type} (I : ipa_table_entry_interface U) (L : entry_layout)
  (free_ok : Z -> Prop) (meta_ok : option (list Z) -> Z -> Prop)
  {laws : TableEntryLaws I L free_ok meta_ok}.
Implicit Types (t : ipa_table U) (e : Z) (i h p n : Z) (m : option (list Z)).

Abbreviation valid := (entry_is_valid I).
Abbreviation next := (entry_get_next_index I).
Abbreviation prev := (entry_get_prev_index I).

(** ** Well-formed tables *)

(** The links of the records in use. *)
Definition view t : links := fun i =>
  match (slots t).[i] with
  | Some e =>
      if valid e then
        match prev e i (meta t) (table_entries t) with
        | Some p => Some (Link (next e) p)
        | None => None
        end
      else None
  | None => None
  end.

Record wf_layout t : Prop := {
  wl_entry_size : entry_size t = el_size L;
  wl_esz : 0 < entry_size t;
  wl_base : 0 < table_entries t;
  wl_expn : 0 <= expn_table_entries t;
  wl_tot : tot_tbl_ents t = table_entries t + expn_table_entries t;
  wl_max : tot_tbl_ents t <= IPA_TABLE_MAX_ENTRIES;
  wl_bytes : tot_tbl_ents t * entry_size t < 2 ^ 31;
  wl_addr : 0 < table_addr t;
  wl_expn_addr : expn_table_addr t = table_addr t + entry_size t * table_entries t;
  wl_slots : lengthZ (slots t) = tot_tbl_ents t;
  wl_iface : entry_interface t = Some I;
  wl_meta : meta_ok (meta t) (expn_table_entries t)
}.

Record wf_table t : Prop := {
  wt_layout : wf_layout t;
  wt_free i e : (slots t).[i] = Some e -> valid e = false -> free_ok e;
  wt_chains : wf_chains (table_entries t) (tot_tbl_ents t) (view t);
  wt_cnt : cur_tbl_cnt t = countZ valid (slots t) 0 (table_entries t);
  wt_expn_cnt :
    cur_expn_tbl_cnt t = countZ valid (slots t) (table_entries t) (tot_tbl_ents t)
}.

(** Two tables that differ in records, meta data and counters only. *)
Definition same_shape t t' : Prop :=
  entry_size t' = entry_size t /\ table_entries t' = table_entries t
  /\ expn_table_entries t' = expn_table_entries t /\ tot_tbl_ents t' = tot_tbl_ents t
  /\ table_addr t' = table_addr t /\ expn_table_addr t' = expn_table_addr t
  /\ entry_interface t' = entry_interface t /\ dma_help t' = dma_help t
  /\ nmi t' = nmi t /\ lengthZ (slots t') = lengthZ (slots t).

Lemma same_shape_refl t : same_shape t t.
Proof. done. Qed.

Lemma wf_layout_same_shape t t' :
  wf_layout t -> same_shape t t' -> meta_ok (meta t') (expn_table_entries t') ->
  wf_layout t'.
Proof.
  intros [] (E1 & E2 & E3 & E4 & E5 & E6 & E7 & _ & _ & E8) Hm.
  split; rewrite ?E1, ?E2, ?E3, ?E4, ?E5, ?E6, ?E7, ?E8; try done. by rewrite <- E3.
Qed.

(** ** Addressing *)

Lemma rec_slot_GOTO_REC t i : wf_layout t -> rec_slot t (GOTO_REC t i) = Some i.
Proof.
  intros Hl. pose proof (wl_esz _ Hl). unfold rec_slot, GOTO_REC.
  replace (table_addr t + i * entry_size t - table_addr t) with (i * entry_size t) by lia.
  rewrite decide_True by (split; [done|]; apply Z_mod_mult). by rewrite Z.div_mul by lia.
Qed.

Lemma rec_load_GOTO_REC t i : wf_layout t -> rec_load t (GOTO_REC t i) = (slots t).[i].
Proof. intros Hl. unfold rec_load. by rewrite rec_slot_GOTO_REC. Qed.

Lemma rec_store_GOTO_REC t i e :
  wf_layout t -> 0 <= i < tot_tbl_ents t ->
  rec_store t (GOTO_REC t i) e = Some (with_slots t (slots t).[i <- e]).
Proof.
  intros Hl Hi. unfold rec_store. rewrite rec_slot_GOTO_REC by done. cbn.
  rewrite storeZ_Some by (rewrite (wl_slots _ Hl); lia). done.
Qed.

Lemma GOTO_REC_not_NULL t i : wf_layout t -> 0 <= i -> (GOTO_REC t i =? NULL) = false.
Proof.
  intros [] Hi. apply Z.eqb_neq. unfold GOTO_REC, NULL. nia.
Qed.

Lemma get_entry_by_index_live t i :
  wf_layout t -> 0 < i < tot_tbl_ents t -> ipa_table_get_entry_by_index t i = GOTO_REC t i.
Proof.
  intros Hl Hi. unfold ipa_table_get_entry_by_index.
  rewrite (proj2 (Z.eqb_neq i 0)), (proj2 (Z.leb_gt _ _)) by lia. done.
Qed.

(** ** Views *)

Lemma view_Some t i l :
  view t i = Some l <->
  exists e, (slots t).[i] = Some e /\ valid e = true /\ l_next l = next e
    /\ prev e i (meta t) (table_entries t) = Some (l_prev l).
Proof.
  unfold view. split.
  - destruct ((slots t).[i]) as [e|]; [|done]. destruct (valid e) eqn:Ev; [|done].
    destruct (prev _ _ _ _) as [p|] eqn:Ep; [|done]. intros [= <-]. eauto 10.
  - intros (e & -> & -> & Hn & ->). rewrite <- Hn. by destruct l.
Qed.

Lemma view_live t i e :
  wf_layout t -> (slots t).[i] = Some e -> valid e = true -> is_Some (view t i).
Proof.
  intros Hl He Hv. pose proof (lookupZ_Some_range _ _ _ He) as Hr.
  rewrite (wl_slots _ Hl), (wl_tot _ Hl) in Hr.
  destruct (tel_prev_total e i _ (table_entries t) _ (wl_meta _ Hl) Hr) as [p Hp].
  unfold view. rewrite He, Hv, Hp. eauto.
Qed.

Lemma view_None t i e :
  (slots t).[i] = Some e -> valid e = false -> view t i = None.
Proof. intros He Hv. unfold view. by rewrite He, Hv. Qed.

Lemma view_None_inv t i e :
  wf_layout t -> (slots t).[i] = Some e -> view t i = None -> valid e = false.
Proof.
  intros Hl He Hv. destruct (valid e) eqn:E; [|done].
  destruct (view_live _ _ _ Hl He E). congruence.
Qed.

(** Recompute a view at a record that was rewritten. *)
Lemma view_update t t' i e l :
  slots t' = (slots t).[i <- e] -> 0 <= i < lengthZ (slots t) ->
  table_entries t' = table_entries t ->
  valid e = true -> l_next l = next e ->
  prev e i (meta t') (table_entries t') = Some (l_prev l) ->
  view t' i = Some l.
Proof.
  intros Hs Hi Hb Hv Hn Hp. apply view_Some. exists e. rewrite Hs.
  by rewrite lookupZ_updateZ_eq.
Qed.

Lemma view_frame t t' j :
  (slots t').[j] = (slots t).[j] -> table_entries t' = table_entries t ->
  (forall e, (slots t).[j] = Some e ->
    prev e j (meta t') (table_entries t) = prev e j (meta t) (table_entries t)) ->
  view t' j = view t j.
Proof.
  intros Hs Hb Hp. unfold view. rewrite Hs, Hb.
  destruct ((slots t).[j]) as [e|] eqn:E; [|done]. by rewrite (Hp e).
Qed.
End TableFacts.

(** ** Searching a table: chain ends, free records, handles

    The loops of [ipa_table.c] terminate on every well-formed table and find
    what they look for. *)

Section TableSearch.
Context {U : Type} (I : ipa_table_entry_interface U) (L : entry_layout)
  (free_ok : Z -> Prop) (meta_ok : option (list Z) -> Z -> Prop)
  {laws : TableEntryLaws I L free_ok meta_ok}.
Implicit Types (t : ipa_table U) (e : Z) (i h p n : Z).

Abbreviation valid := (entry_is_valid I).
Abbreviation view := (view I).
Abbreviation wf_table := (wf_table I L free_ok meta_ok).
Abbreviation wf_layout := (wf_layout I L meta_ok).

Lemma record_in_range t i :
  wf_layout t -> 0 <= i < tot_tbl_ents t -> exists e, (slots t).[i] = Some e.
Proof. intros Hl Hi. apply lookupZ_in_range. by rewrite (wl_slots _ _ _ _ Hl). Qed.

(** ** The end of a chain *)

Lemma iterator_end_loop_spec t h fuel i vis :
  wf_table t -> h < table_entries t ->
  path (view t) h (i :: vis) -> NoDup (i :: vis) -> reach (view t) h i ->
  tot_tbl_ents t <= Z.of_nat (fuel + length vis) ->
  exists p pl, iterator_end_loop fuel t I i (GOTO_REC t i) = Some (true, p, GOTO_REC t p)
    /\ reach (view t) h p /\ view t p = Some pl /\ l_next pl = 0.
Proof.
  intros Hwf Hh. pose proof (wt_layout _ _ _ _ _ Hwf) as Hl.
  pose proof (wt_chains _ _ _ _ _ Hwf) as Hc.
  revert i vis. induction fuel as [|fuel IH]; intros i vis Hp Hnd Hr Hf.
  - pose proof (path_length _ _ _ _ _ Hc Hp Hnd) as Hlen. cbn [length] in Hlen.
    pose proof (wl_base _ _ _ _ Hl). pose proof (wl_expn _ _ _ _ Hl).
    pose proof (wl_tot _ _ _ _ Hl). lia.
  - destruct (reach_is_Some _ _ _ Hr) as [l Hv].
    pose proof Hv as Hv'. apply view_Some in Hv' as (e & He & _ & Hn & _).
    cbn [iterator_end_loop]. rewrite (rec_load_GOTO_REC I L meta_ok) by done. rewrite He.
    cbn [mbind option_bind]. rewrite <- Hn. unfold VALID_INDEX, IPA_TABLE_INVALID_ENTRY.
    destruct (decide (l_next l = 0)) as [E0|Hn0].
    + rewrite E0. cbn. eauto 10.
    + rewrite (proj2 (Z.eqb_neq _ _)) by done. cbn [negb].
      pose proof (path_fresh _ _ _ _ _ _ _ _ Hc Hh Hp Hnd Hv eq_refl Hn0) as Hfresh.
      rewrite (proj2 (Z.eqb_neq _ _))
        by (intros E; apply Hfresh; rewrite E; apply elem_of_cons; by left).
      apply (IH _ (i :: vis)).
      * by eapply path_step.
      * by apply NoDup_cons.
      * destruct (wfc_next _ _ _ Hc _ _ Hv Hn0) as (_ & l' & Hl' & _).
        eapply reach_step; eauto.
      * cbn [length]. lia.
Qed.

Lemma iterator_end_spec t h :
  wf_table t -> h < table_entries t -> is_Some (view t h) ->
  exists p pl,
    ipa_table_iterator_end t h (GOTO_REC t h)
      = Some (0, mk_iterator p (GOTO_REC t p) 0 NULL 0 NULL)
    /\ reach (view t) h p /\ view t p = Some pl /\ l_next pl = 0.
Proof.
  intros Hwf Hh [hl Hv]. pose proof (wt_layout _ _ _ _ _ Hwf) as Hl.
  destruct (iterator_end_loop_spec t h (S (length (slots t))) h []) as (p & pl & E & Hr & Hp & Hn);
    try done.
  - by eapply path_start.
  - apply NoDup_singleton.
  - by eapply reach_refl.
  - pose proof (wl_slots _ _ _ _ Hl) as Hs. unfold lengthZ in Hs. cbn [length]. lia.
  - exists p, pl. unfold ipa_table_iterator_end.
    pose proof (wfc_range _ _ _ (wt_chains _ _ _ _ _ Hwf) _ _ Hv).
    rewrite (GOTO_REC_not_NULL I L meta_ok) by (done || lia).
    rewrite (wl_iface _ _ _ _ Hl). cbn [mbind option_bind]. rewrite E. done.
Qed.

(** ** A free expansion record *)

Lemma walk_mt_slot_spec t fuel i :
  wf_layout t -> table_entries t <= i <= tot_tbl_ents t ->
  tot_tbl_ents t - i < Z.of_nat fuel ->
  (exists n en, i <= n < tot_tbl_ents t /\ (slots t).[n] = Some en /\ valid en = false
     /\ walk_loop id (tot_tbl_ents t) WHEN_SLOT_EMPTY mt_slot fuel i (GOTO_REC t i) t
        = Some (n, t))
  \/ ((forall j e, i <= j < tot_tbl_ents t -> (slots t).[j] = Some e -> valid e = true)
      /\ walk_loop id (tot_tbl_ents t) WHEN_SLOT_EMPTY mt_slot fuel i (GOTO_REC t i) t
         = Some (0, t)).
Proof.
  intros Hl. pose proof (wl_base _ _ _ _ Hl). pose proof (wl_max _ _ _ _ Hl) as Hmax.
  unfold IPA_TABLE_MAX_ENTRIES in Hmax.
  revert i. induction fuel as [|fuel IH]; intros i Hi Hf; [lia|].
  cbn [walk_loop id]. destruct (decide (tot_tbl_ents t <= i)) as [Hge|Hlt].
  - rewrite (proj2 (Z.leb_le _ _)) by done. right. split; [intros; lia|done].
  - rewrite (proj2 (Z.leb_gt _ _)) by lia. rewrite (wl_iface _ _ _ _ Hl).
    cbn [mbind option_bind]. rewrite (rec_load_GOTO_REC I L meta_ok) by done.
    destruct (record_in_range t i Hl) as [e He]; [lia|]. rewrite He. cbn [mbind option_bind].
    destruct (valid e) eqn:Ev.
    + rewrite u16_small by lia.
      replace (GOTO_REC t i + entry_size t) with (GOTO_REC t (i + 1))
        by (unfold GOTO_REC; lia).
      destruct (IH (i + 1)) as [(n & en & Hn & Hen & Hvn & E)|[Hall E]]; [lia|lia| |].
      * left. exists n, en. split; [lia|]. done.
      * right. split; [|done]. intros j e' Hj He'.
        destruct (decide (j = i)) as [->|]; [congruence|]. apply (Hall j e'); [lia|done].
    + left. exists i, e. split_and!; [lia|lia|done|done|].
      destruct (meta t); rewrite ?(proj2 (Z.leb_le (table_entries t) i)) by lia; cbn;
        rewrite (proj2 (Z.eqb_neq i 0)) by lia; done.
Qed.

Lemma FindExpnTblFreeEntry_spec t :
  wf_layout t ->
  (exists n en, table_entries t <= n < tot_tbl_ents t /\ (slots t).[n] = Some en
     /\ valid en = false /\ FindExpnTblFreeEntry t = Some (0, GOTO_REC t n, n))
  \/ ((forall j e, table_entries t <= j < tot_tbl_ents t -> (slots t).[j] = Some e ->
         valid e = true)
      /\ FindExpnTblFreeEntry t = Some (-1, NULL, 0)).
Proof.
  intros Hl. pose proof (wl_base _ _ _ _ Hl). pose proof (wl_expn _ _ _ _ Hl).
  pose proof (wl_tot _ _ _ _ Hl) as Ht. pose proof (wl_max _ _ _ _ Hl) as Hmax.
  unfold IPA_TABLE_MAX_ENTRIES in Hmax.
  unfold FindExpnTblFreeEntry, ipa_table_walk. cbn [VALID_WHEN2CALLBACK negb id].
  rewrite <- Ht. destruct (decide (tot_tbl_ents t <= table_entries t)) as [Hge|Hlt].
  - right. rewrite (proj2 (Z.leb_le _ _)) by done. split; [intros; lia|done].
  - rewrite (proj2 (Z.leb_gt _ _)) by lia.
    destruct (walk_mt_slot_spec t (S (Z.to_nat (tot_tbl_ents t - table_entries t)))
                (table_entries t) Hl) as [(n & en & Hn & Hen & Hvn & E)|[Hall E]];
      [lia|lia| |]; rewrite E; cbn [mbind option_bind].
    + left. exists n, en. rewrite (proj2 (Z.ltb_lt 0 n)) by lia.
      rewrite u16_small by lia. done.
    + right. done.
Qed.

(** ** Iterators on live records *)

Definition ptr_of t (i : Z) : Z := if decide (i = 0) then NULL else GOTO_REC t i.

Lemma iterator_init_spec t i l :
  wf_table t -> view t i = Some l ->
  ipa_table_iterator_init t (GOTO_REC t i) i
  = Some (0, mk_iterator (l_prev l) (ptr_of t (l_prev l)) i (GOTO_REC t i)
               (l_next l) (ptr_of t (l_next l))).
Proof.
  intros Hwf Hv. pose proof (wt_layout _ _ _ _ _ Hwf) as Hl.
  pose proof (wt_chains _ _ _ _ _ Hwf) as Hc.
  pose proof Hv as Hv'. apply view_Some in Hv' as (e & He & Hev & Hn & Hp).
  unfold ipa_table_iterator_init. rewrite (wl_iface _ _ _ _ Hl). cbn [mbind option_bind].
  rewrite (rec_load_GOTO_REC I L meta_ok), He by done. cbn [mbind option_bind].
  rewrite Hev. cbn [negb]. rewrite Hp. cbn [mbind option_bind]. rewrite <- Hn.
  assert (Hptr : forall k, k <> 0 -> is_Some (view t k) ->
    ipa_table_get_entry_by_index t k = GOTO_REC t k /\ (GOTO_REC t k =? NULL) = false).
  { intros k Hk [lk Hlk]. pose proof (wfc_range _ _ _ Hc _ _ Hlk).
    split; [by apply (get_entry_by_index_live I L meta_ok)|].
    apply (GOTO_REC_not_NULL I L meta_ok); [done|lia]. }
  unfold VALID_INDEX, IPA_TABLE_INVALID_ENTRY, ptr_of.
  assert (Hprev : l_prev l <> 0 -> is_Some (view t (l_prev l))).
  { intros Hp0. destruct (decide (i < table_entries t)) as [Hlt|Hge].
    - by rewrite (wfc_base _ _ _ Hc _ _ Hv Hlt) in Hp0.
    - destruct (wfc_prev _ _ _ Hc _ _ Hv) as (_ & l' & Hl' & _); [lia|eauto]. }
  assert (Hnext : l_next l <> 0 -> is_Some (view t (l_next l))).
  { intros Hn0. destruct (wfc_next _ _ _ Hc _ _ Hv Hn0) as (_ & l' & Hl' & _). eauto. }
  destruct (decide (l_prev l = 0)) as [Ep|Np].
  - rewrite Ep. cbn [Z.eqb negb andb].
    destruct (decide (l_next l = 0)) as [En|Nn]; [by rewrite En|].
    rewrite (proj2 (Z.eqb_neq (l_next l) 0)) by done. cbn [negb andb].
    destruct (Hptr _ Nn (Hnext Nn)) as [-> ->]. done.
  - rewrite (proj2 (Z.eqb_neq (l_prev l) 0)) by done. cbn [negb andb].
    destruct (Hptr _ Np (Hprev Np)) as [-> ->].
    destruct (decide (l_next l = 0)) as [En|Nn]; [by rewrite En|].
    rewrite (proj2 (Z.eqb_neq (l_next l) 0)) by done. cbn [negb andb].
    destruct (Hptr _ Nn (Hnext Nn)) as [-> ->]. done.
Qed.

Lemma iterator_next_spec t it n nl :
  wf_table t -> next_index it = n -> next_entry it = GOTO_REC t n -> view t n = Some nl ->
  ipa_table_iterator_next it t
  = Some (0, mk_iterator (curr_index it) (curr_entry it) n (GOTO_REC t n)
               (l_next nl) (ptr_of t (l_next nl))).
Proof.
  intros Hwf Hni Hne Hv. pose proof (wt_layout _ _ _ _ _ Hwf) as Hl.
  pose proof (wt_chains _ _ _ _ _ Hwf) as Hc.
  pose proof Hv as Hv'. apply view_Some in Hv' as (e & He & Hev & Hn & Hp).
  unfold ipa_table_iterator_next. rewrite (wl_iface _ _ _ _ Hl), Hne. cbn [mbind option_bind].
  rewrite (rec_load_GOTO_REC I L meta_ok), He by done. cbn [mbind option_bind].
  rewrite <- Hn, Hni. unfold VALID_INDEX, IPA_TABLE_INVALID_ENTRY, ptr_of.
  destruct (decide (l_next nl = 0)) as [En|Nn]; [by rewrite En|].
  rewrite (proj2 (Z.eqb_neq (l_next nl) 0)) by done. cbn [negb].
  destruct (wfc_next _ _ _ Hc _ _ Hv Nn) as (_ & l' & Hl' & _).
  pose proof (wfc_range _ _ _ Hc _ _ Hl').
  rewrite (get_entry_by_index_live I L meta_ok) by done.
  by rewrite (GOTO_REC_not_NULL I L meta_ok) by (done || lia).
Qed.
End TableSearch.
