(* ===== verification/TableDma.v ===== *)
(** * DMA commands of a table and their effect on its memory

    The commands [ipa_table_add_dma_cmd] generates address exactly the record
    and the word they are meant for: applied to the table's memory they
    rewrite that word and nothing else. *)
From S2P Require Import Prelude Bitfield Chain Table TableFacts.

(** ** Command buffers *)

(** There is room for [k] more DMA entries in the buffer. *)
Definition cmd_room (cmd : ipa_ioc_nat_dma_cmd) (k : Z) : Prop :=
  0 <= entries cmd /\ entries cmd + k <= lengthZ (dma cmd) /\ lengthZ (dma cmd) < 256.

Definition push_dma (cmd : ipa_ioc_nat_dma_cmd) (one : ipa_ioc_nat_dma_one)
    : ipa_ioc_nat_dma_cmd :=
  mk_dma_cmd (entries cmd + 1) (mem_type cmd) (dma cmd).[entries cmd <- one].

(** The DMA entries in use. *)
Definition cmd_ones (cmd : ipa_ioc_nat_dma_cmd) : list ipa_ioc_nat_dma_one :=
  take (Z.to_nat (entries cmd)) (dma cmd).

Lemma cmd_room_push cmd k one :
  cmd_room cmd k -> 1 <= k -> cmd_room (push_dma cmd one) (k - 1).
Proof.
  intros (H1 & H2 & H3) Hk. unfold cmd_room, push_dma. cbn [entries dma].
  rewrite lengthZ_updateZ. lia.
Qed.

Lemma cmd_room_weaken cmd k k' : cmd_room cmd k -> k' <= k -> cmd_room cmd k'.
Proof. intros (H1 & H2 & H3) Hk. unfold cmd_room. lia. Qed.

Lemma cmd_ones_push cmd k one :
  cmd_room cmd k -> 1 <= k -> cmd_ones (push_dma cmd one) = cmd_ones cmd ++ [one].
Proof.
  intros (H1 & H2 & H3) Hk. unfold cmd_ones, push_dma, updateZ, lengthZ in *.
  cbn [entries dma]. rewrite decide_True by lia.
  replace (Z.to_nat (entries cmd + 1)) with (S (Z.to_nat (entries cmd))) by lia.
  rewrite (take_S_r _ _ one) by (apply list_lookup_insert_eq; lia).
  f_equal. apply take_insert_ge. lia.
Qed.

Lemma cmd_ones_zero n : cmd_ones (dma_cmd_zero n) = [].
Proof. done. Qed.

Lemma cmd_room_zero n k : k <= Z.of_nat n -> (n < 256)%nat -> cmd_room (dma_cmd_zero n) k.
Proof.
  intros Hk Hn. unfold cmd_room, dma_cmd_zero, lengthZ. cbn [entries dma].
  rewrite length_replicate. lia.
Qed.

(** ** Applying commands *)

(** The effect on a table whose base and expansion parts have the given
    table types; commands for other tables leave it alone. *)
Definition table_apply_one {U} (bt et : ipa_table_dma_type)
    (one : ipa_ioc_nat_dma_one) (t : ipa_table U) : option (ipa_table U) :=
  if decide (one_base_addr one = bt) then table_dma_write t false (one_offset one) (one_data one)
  else if decide (one_base_addr one = et) then table_dma_write t true (one_offset one) (one_data one)
  else Some t.

Fixpoint table_apply {U} (bt et : ipa_table_dma_type) (ones : list ipa_ioc_nat_dma_one)
    (t : ipa_table U) : option (ipa_table U) :=
  match ones with
  | [] => Some t
  | one :: ones' => t1 ← table_apply_one bt et one t; table_apply bt et ones' t1
  end.

Lemma table_apply_app {U} bt et l1 l2 (t : ipa_table U) :
  table_apply bt et (l1 ++ l2) t = t1 ← table_apply bt et l1 t; table_apply bt et l2 t1.
Proof.
  revert t. induction l1 as [|one l1 IH]; intros t; [done|]. cbn [table_apply app].
  destruct (table_apply_one bt et one t) as [t1|]; [|done]. cbn. apply IH.
Qed.

Lemma record_put16_u16 e off d : record_put16 e off (u16 d) = record_put16 e off d.
Proof.
  unfold record_put16, setf, half_at. cbn [lo fw]. do 2 f_equal.
  unfold u16. rewrite <- (Z.land_ones d 16), <- Z.land_assoc, Z.land_diag by lia. done.
Qed.

Section TableDma.
Context {U : Type} (I : ipa_table_entry_interface U) (L : entry_layout)
  (meta_ok : option (list Z) -> Z -> Prop).
Implicit Types (t : ipa_table U) (e : Z) (i h p n : Z).
Abbreviation wf_layout := (wf_layout I L meta_ok).

(** The three helpers of a table are those of its layout. *)
Record wf_helpers (bt et : ipa_table_dma_type) t : Prop := {
  wh_head : dma_help t HELP_UPDATE_HEAD = Some (mk_helper (el_head_off L) bt et 0);
  wh_next : dma_help t HELP_UPDATE_ENTRY = Some (mk_helper (el_next_off L) bt et 0);
  wh_del : dma_help t HELP_DELETE_HEAD = Some (mk_helper (el_del_off L) bt et 0);
  wh_types : bt <> et
}.

Lemma wf_helpers_same_shape bt et t t' :
  wf_helpers bt et t -> same_shape t t' -> wf_helpers bt et t'.
Proof.
  intros [] (_ & _ & _ & _ & _ & _ & _ & E & _). by split; rewrite ?E.
Qed.

(** The DMA entry for word [off] of record [i]. *)
Definition the_one (bt et : ipa_table_dma_type) t (off i d : Z) : ipa_ioc_nat_dma_one :=
  if table_entries t <=? i
  then mk_dma_one 0 et (off + (i - table_entries t) * entry_size t) (u16 d)
  else mk_dma_one 0 bt (off + i * entry_size t) (u16 d).

Lemma the_one_same_shape bt et t t' off i d :
  same_shape t t' -> the_one bt et t' off i d = the_one bt et t off i d.
Proof. intros (E1 & E2 & _). unfold the_one. by rewrite E1, E2. Qed.

Lemma add_dma_cmd_spec bt et t ht off i d cmd k :
  wf_layout t -> dma_help t ht = Some (mk_helper off bt et 0) ->
  ht <> HELP_UPDATE_MAX ->
  0 <= off < entry_size t -> 0 <= i < tot_tbl_ents t -> cmd_room cmd k -> 1 <= k ->
  ipa_table_add_dma_cmd t ht (GOTO_REC t i) i d cmd
  = Some (0, push_dma cmd (the_one bt et t off i d)).
Proof.
  intros Hl Hh Hm Hoff Hi (R1 & R2 & R3) Hk. unfold ipa_table_add_dma_cmd.
  replace (VALID_DMA_HELP_TYPE ht) with true by (by destruct ht).
  rewrite (GOTO_REC_not_NULL I L meta_ok) by (done || lia). cbn [negb orb].
  pose proof (wl_tot _ _ _ _ Hl) as Ht. pose proof (wl_bytes _ _ _ _ Hl) as Hb.
  pose proof (wl_expn_addr _ _ _ _ Hl) as Ha. pose proof (wl_base _ _ _ _ Hl) as Hbase.
  rewrite <- Ht, (proj2 (Z.leb_gt _ _)) by lia. rewrite Hh. cbn [mbind option_bind].
  unfold ipa_table_dma_cmd_generate, push_dma, the_one, GOTO_REC. rewrite Ha.
  cbn [offset table_type expn_table_type table_indx].
  rewrite storeZ_Some by lia. cbn [mbind option_bind].
  rewrite (u8_small (entries cmd + 1)) by lia.
  destruct (table_entries t <=? i) eqn:E;
    [apply Z.leb_le in E|apply Z.leb_gt in E]; do 5 f_equal.
  - replace (table_addr t + i * entry_size t
             - (table_addr t + entry_size t * table_entries t))
      with ((i - table_entries t) * entry_size t) by lia.
    rewrite (u32_small ((i - _) * _)) by nia. apply u32_small. nia.
  - replace (table_addr t + i * entry_size t - table_addr t)
      with (i * entry_size t) by lia.
    rewrite (u32_small (i * _)) by nia. apply u32_small. nia.
Qed.

(** Applied to the memory, the entry rewrites that word of that record. *)
Lemma apply_the_one bt et t off i d e :
  wf_layout t -> bt <> et -> 0 <= off < entry_size t -> (slots t).[i] = Some e ->
  table_apply_one bt et (the_one bt et t off i d) t
  = Some (with_slots t (slots t).[i <- record_put16 e off d]).
Proof.
  intros Hl Hne Hoff He. pose proof (lookupZ_Some_range _ _ _ He) as Hi.
  unfold table_apply_one, the_one, table_dma_write.
  assert (Hdiv : forall k, (off + k * entry_size t) / entry_size t = k).
  { intros k. rewrite Z.div_add by lia. rewrite Z.div_small by lia. lia. }
  assert (Hmod : forall k, (off + k * entry_size t) mod entry_size t = off).
  { intros k. rewrite Z.mod_add by lia. by rewrite Z.mod_small. }
  destruct (table_entries t <=? i) eqn:E; cbn [one_base_addr one_offset one_data].
  - rewrite decide_False, decide_True by done. rewrite Hdiv, Hmod.
    replace (i - table_entries t + table_entries t) with i by lia.
    rewrite He. cbn. by rewrite record_put16_u16.
  - rewrite decide_True by done. rewrite Hdiv, Hmod, Z.add_0_r, He. cbn.
    by rewrite record_put16_u16.
Qed.
End TableDma.

(** Commands for another table do not touch this one. *)
Lemma apply_the_one_other {U U'} bt et bt' et' (t : ipa_table U) (t' : ipa_table U') off i d :
  bt' <> bt -> bt' <> et -> et' <> bt -> et' <> et ->
  table_apply_one bt et (the_one bt' et' t' off i d) t = Some t.
Proof.
  intros. unfold table_apply_one, the_one.
  destruct (table_entries t' <=? i); cbn [one_base_addr]; by rewrite !decide_False.
Qed.
