(* ===== verification/TableInsert.v ===== *)
(** * Insertion into a table

    What [ipa_table_add_entry] does on each branch, and that the chain
    invariant holds again once the generated DMA commands took effect. *)
From S2P Require Import Prelude Bitfield Chain Table TableFacts TableDma.

(** The copy [InsertTail] makes: an index table enables the record at once. *)
Definition tail_copy {U} (I : ipa_table_entry_interface U) (is_index_tbl : bool)
    (e : Z) (u : U) : option (Z * Z * Z) :=
  if is_index_tbl
  then '(r, e1) ← entry_tail_insert I e u; Some (r, e1, 0)
  else entry_head_insert I e u.

Definition is_index {U} (t : ipa_table U) : bool :=
  match meta t with Some _ => true | None => false end.

(** The value a handle pointer receives. *)
Definition hdl_out {U} (t : ipa_table U) (hdl : option Z) (i : Z) : option Z :=
  match hdl with Some _ => Some (MakeEntryHdl t i) | None => None end.

(** Several entries at once. *)
Definition push_all (cmd : ipa_ioc_nat_dma_cmd) (ones : list ipa_ioc_nat_dma_one) :=
  fold_left push_dma ones cmd.

Lemma push_all_spec ones cmd k :
  cmd_room cmd k -> lengthZ ones <= k ->
  cmd_room (push_all cmd ones) (k - lengthZ ones)
  /\ cmd_ones (push_all cmd ones) = cmd_ones cmd ++ ones.
Proof.
  unfold lengthZ. revert cmd k. induction ones as [|one ones IH]; intros cmd k Hr Hk.
  - cbn. rewrite app_nil_r. split; [|done]. eapply cmd_room_weaken; [done|lia].
  - cbn [length] in *. destruct (IH (push_dma cmd one) (k - 1)) as [H1 H2].
    + apply cmd_room_push; [done|lia].
    + lia.
    + cbn [push_all fold_left]. split; [eapply cmd_room_weaken; [exact H1|lia]|].
      unfold push_all in H2. rewrite H2, (cmd_ones_push _ k) by (done || lia).
      by rewrite <- app_assoc.
Qed.

Section TableInsert.
Context {U : Type} (I : ipa_table_entry_interface U) (L : entry_layout)
  (free_ok : Z -> Prop) (meta_ok : option (list Z) -> Z -> Prop)
  {laws : TableEntryLaws I L free_ok meta_ok}.
Context (bt et : ipa_table_dma_type).
Implicit Types (t : ipa_table U) (e : Z) (i h p n : Z).

Abbreviation valid := (entry_is_valid I).
Abbreviation prev := (entry_get_prev_index I).
Abbreviation view := (view I).
Abbreviation wf_table := (wf_table I L free_ok meta_ok).
Abbreviation wf_layout := (wf_layout I L meta_ok).
Abbreviation wf_helpers := (wf_helpers L bt et).

Lemma MakeEntryHdl_same_shape t t' i :
  same_shape t t' -> MakeEntryHdl t' i = MakeEntryHdl t i.
Proof.
  intros (_ & E2 & _ & _ & _ & _ & _ & _ & E9 & _). unfold MakeEntryHdl. by rewrite E2, E9.
Qed.

Lemma free_update l i e :
  (forall j x, l.[j] = Some x -> valid x = false -> free_ok x) ->
  (valid e = true \/ free_ok e) ->
  forall j x, l.[i <- e].[j] = Some x -> valid x = false -> free_ok x.
Proof.
  intros H He j x Hj Hv. destruct (decide (i = j)) as [->|Hne].
  - pose proof (lookupZ_Some_range _ _ _ Hj) as Hr. rewrite lengthZ_updateZ in Hr.
    rewrite lookupZ_updateZ_eq in Hj by done. injection Hj as <-.
    destruct He; [congruence|done].
  - rewrite lookupZ_updateZ_ne in Hj by done. by eapply H.
Qed.

(** ** A free bucket *)

Lemma add_entry_head_spec t u h hdl cmd k e e' d :
  wf_table t -> wf_helpers t -> 0 <= h < table_entries t ->
  (slots t).[h] = Some e -> valid e = false ->
  entry_head_insert I e u = Some (0, e', d) -> cmd_room cmd k -> 1 <= k ->
  ipa_table_add_entry t u h hdl cmd
  = Some (0, with_tbl_cnt (with_slots t (slots t).[h <- e']) (u16 (cur_tbl_cnt t + 1)),
          h, hdl_out t hdl h, push_dma cmd (the_one bt et t (el_head_off L) h d)).
Proof.
  intros Hwf Hh Hr He Hv Hu Hroom Hk. pose proof (wt_layout _ _ _ _ _ Hwf) as Hl.
  pose proof (wl_tot _ _ _ _ Hl). pose proof (wl_expn _ _ _ _ Hl).
  unfold ipa_table_add_entry, InsertHead.
  rewrite (wl_iface _ _ _ _ Hl). cbn [mbind option_bind].
  rewrite (rec_load_GOTO_REC I L meta_ok), He by done. cbn [mbind option_bind].
  rewrite Hv, Hu. cbn [negb mbind option_bind].
  rewrite (rec_store_GOTO_REC I L meta_ok) by (done || lia). cbn [mbind option_bind].
  set (t1 := with_slots t _).
  assert (Hs : same_shape t t1)
    by (unfold t1; repeat split; cbn; by rewrite lengthZ_updateZ).
  pose proof (wf_layout_same_shape _ _ _ _ _ Hl Hs (wl_meta _ _ _ _ Hl)) as Hl1.
  change (GOTO_REC t h) with (GOTO_REC t1 h).
  rewrite (add_dma_cmd_spec I L meta_ok bt et t1 _ (el_head_off L) h d cmd k)
    by (done || apply Hh || (destruct (tel_offsets (L := L)) as (? & _ & _);
                             rewrite (wl_entry_size _ _ _ _ Hl1); done) || (cbn; lia)).
  cbn [mbind option_bind Z.eqb negb].
  rewrite (the_one_same_shape _ _ _ _ _ _ _ Hs). done.
Qed.

Lemma wf_table_add_head t h e eh :
  wf_table t -> 0 < h < table_entries t -> (slots t).[h] = Some e -> valid e = false ->
  valid eh = true -> entry_get_next_index I eh = 0 ->
  prev eh h (meta t) (table_entries t) = Some 0 ->
  let t' := with_tbl_cnt (with_slots t (slots t).[h <- eh]) (u16 (cur_tbl_cnt t + 1)) in
  wf_table t' /\ view t' ≡ chain_add_head (view t) h.
Proof.
  intros Hwf Hh He Hv Hve Hne Hpe t'. pose proof (wt_layout _ _ _ _ _ Hwf) as Hl.
  pose proof (wl_tot _ _ _ _ Hl) as Ht. pose proof (wl_expn _ _ _ _ Hl).
  pose proof (lookupZ_Some_range _ _ _ He) as Hr.
  assert (Hview : view t' ≡ chain_add_head (view t) h).
  { intros j. unfold chain_add_head. destruct (decide (h = j)) as [<-|Hj].
    - rewrite fupd_eq. by apply (view_update I t t' h eh).
    - rewrite fupd_ne by done. apply view_frame; [|done|done]. cbn.
      by rewrite lookupZ_updateZ_ne. }
  split; [|done]. split.
  - apply (wf_layout_same_shape _ _ _ t); [done| |by apply (wl_meta _ _ _ _ Hl)].
    repeat split; cbn; by rewrite lengthZ_updateZ.
  - cbn. apply free_update; [apply (wt_free _ _ _ _ _ Hwf)|by left].
  - rewrite Hview. apply wf_chain_add_head; [|by eapply view_None|done|cbn; lia].
    apply (wt_chains _ _ _ _ _ Hwf).
  - cbn. rewrite (countZ_update_in _ _ _ _ _ _ e) by (done || lia).
    rewrite Hve, Hv, (wt_cnt _ _ _ _ _ Hwf). cbn.
    pose proof (countZ_bound valid (slots t) 0 (table_entries t)).
    pose proof (wl_max _ _ _ _ Hl). unfold IPA_TABLE_MAX_ENTRIES in *.
    rewrite u16_small; lia.
  - cbn. rewrite countZ_update_out by lia. apply (wt_expn_cnt _ _ _ _ _ Hwf).
Qed.

(** ** An occupied bucket *)

Definition tail_ones t (is_idx : bool) (p n d : Z) : list ipa_ioc_nat_dma_one :=
  (if is_idx then [] else [the_one bt et t (el_head_off L) n d])
  ++ [the_one bt et t (el_next_off L) p n].

Lemma add_entry_tail_spec t u h hdl cmd k e :
  wf_table t -> wf_helpers t -> 0 <= h < table_entries t ->
  (slots t).[h] = Some e -> valid e = true -> cmd_room cmd k -> 2 <= k ->
  (forall en, free_ok en -> exists e' d, tail_copy I (is_index t) en u = Some (0, e', d)) ->
  (exists p pl n en e' d e2 m2,
     reach (view t) h p /\ view t p = Some pl /\ l_next pl = 0
     /\ table_entries t <= n < tot_tbl_ents t
     /\ (slots t).[n] = Some en /\ valid en = false
     /\ tail_copy I (is_index t) en u = Some (0, e', d)
     /\ entry_set_prev_index I e' n p (meta t) (table_entries t) = Some (e2, m2)
     /\ ipa_table_add_entry t u h hdl cmd
        = Some (0, with_expn_cnt (with_meta (with_slots t (slots t).[n <- e2]) m2)
                     (u16 (cur_expn_tbl_cnt t + 1)),
                n, hdl_out t hdl n, push_all cmd (tail_ones t (is_index t) p n d)))
  \/ ((forall j x, table_entries t <= j < tot_tbl_ents t -> (slots t).[j] = Some x ->
         valid x = true)
      /\ ipa_table_add_entry t u h hdl cmd = Some (-1, t, h, hdl, cmd)).
Proof.
  intros Hwf Hh Hr He Hv Hroom Hk Hcopy. pose proof (wt_layout _ _ _ _ _ Hwf) as Hl.
  pose proof (wl_base _ _ _ _ Hl) as Hbase.
  destruct (iterator_end_spec _ _ _ _ t h Hwf) as (p & pl & Eit & Hreach & Hp & Hpn);
    [lia|by eapply view_live|].
  pose proof (wfc_range _ _ _ (wt_chains _ _ _ _ _ Hwf) _ _ Hp) as Hpr.
  assert (Hadd : ipa_table_add_entry t u h hdl cmd
    = '(ret, t1, idx1, cmd1) ← InsertTail t (GOTO_REC t h) h u cmd;
      if negb (ret =? 0) then Some (ret, t1, idx1, hdl, cmd1)
      else Some (ret, t1, idx1, hdl_out t1 hdl idx1, cmd1)).
  { unfold ipa_table_add_entry. rewrite (wl_iface _ _ _ _ Hl). cbn [mbind option_bind].
    rewrite (rec_load_GOTO_REC I L meta_ok), He by done. cbn [mbind option_bind].
    rewrite Hv. done. }
  rewrite Hadd. clear Hadd. unfold InsertTail. fold (is_index t).
  rewrite (wl_iface _ _ _ _ Hl), Eit. cbn [mbind option_bind Z.eqb negb].
  destruct (FindExpnTblFreeEntry_spec I L meta_ok t Hl)
    as [(n & en & Hn & Hen & Hvn & EF)|[Hall EF]]; rewrite EF; cbn [mbind option_bind Z.eqb negb];
    [left|right; done].
  pose proof (wt_free _ _ _ _ _ Hwf _ _ Hen Hvn) as Hfree.
  destruct (Hcopy en Hfree) as (e' & d & Ec).
  pose proof (wl_tot _ _ _ _ Hl) as Ht. pose proof (wl_max _ _ _ _ Hl) as Hmax.
  unfold IPA_TABLE_MAX_ENTRIES in Hmax.
  destruct (tel_set_prev e' n p (meta t) (table_entries t) (expn_table_entries t))
    as (e2 & m2 & Es & Hm2 & Hv2 & Hn2 & Hp2 & Hfr2);
    [apply (wl_meta _ _ _ _ Hl)|lia|lia|].
  exists p, pl, n, en, e', d, e2, m2.
  split_and!; [done|done|done|lia|lia|done|done|done|done|].
  rewrite (rec_load_GOTO_REC I L meta_ok), Hen by done. cbn [mbind option_bind].
  unfold tail_copy in Ec. rewrite Ec. cbn [mbind option_bind].
  rewrite (rec_store_GOTO_REC I L meta_ok) by (done || lia). cbn [mbind option_bind Z.eqb negb].
  cbn [meta table_entries with_slots with_memory prev_index prev_entry]. rewrite Es. cbn [mbind option_bind].
  set (t1 := with_meta _ _).
  assert (Hs1 : same_shape t t1)
    by (unfold t1; repeat split; cbn; by rewrite lengthZ_updateZ).
  pose proof (wf_layout_same_shape _ _ _ _ _ Hl Hs1 Hm2) as Hl1.
  change (GOTO_REC t n) with (GOTO_REC t1 n).
  rewrite (rec_store_GOTO_REC I L meta_ok) by (done || (cbn; lia)). cbn [mbind option_bind].
  set (t2 := with_slots t1 _).
  assert (Hs2 : same_shape t t2).
  { unfold t2, t1. repeat split; cbn; by rewrite !lengthZ_updateZ. }
  pose proof (wf_layout_same_shape _ _ _ _ _ Hl Hs2 Hm2) as Hl2.
  assert (E2 : t2 = with_meta (with_slots t (slots t).[n <- e2]) m2).
  { unfold t2, t1. cbn. by rewrite updateZ_updateZ_eq. }
  pose proof (tel_offsets (L := L)) as (Ho1 & Ho2 & _).
  rewrite <- (wl_entry_size _ _ _ _ Hl2) in Ho1, Ho2.
  assert (Hdma : exists r cmd1,
    (if is_index t then Some (0, cmd)
     else ipa_table_add_dma_cmd t2 HELP_UPDATE_HEAD (GOTO_REC t1 n) n d cmd) = Some (r, cmd1)
    /\ cmd1 = push_all cmd (if is_index t then [] else [the_one bt et t (el_head_off L) n d])
    /\ cmd_room cmd1 1).
  { destruct (is_index t).
    - exists 0, cmd. split_and!; [done|done|]. eapply cmd_room_weaken; [done|lia].
    - eexists 0, _. split_and!; [|done|].
      + change (GOTO_REC t1 n) with (GOTO_REC t2 n).
        rewrite (add_dma_cmd_spec I L meta_ok bt et t2 _ (el_head_off L) n d cmd k);
          [by rewrite (the_one_same_shape _ _ _ _ _ _ _ Hs2)|done|apply Hh|done|done
          |cbn; lia|done|lia].
      + cbn. eapply cmd_room_weaken; [apply (cmd_room_push cmd k); [done|lia]|lia]. }
  destruct Hdma as (r & cmd1 & -> & Ecmd1 & Hroom1). cbn [mbind option_bind].
  change (GOTO_REC t p) with (GOTO_REC t2 p).
  rewrite (add_dma_cmd_spec I L meta_ok bt et t2 _ (el_next_off L) p n cmd1 1);
    [|done|apply Hh|done|done|cbn; lia|done|lia].
  cbn [mbind option_bind Z.eqb negb].
  assert (E3 : with_expn_cnt t2 (u16 (cur_expn_tbl_cnt t2 + 1))
    = with_expn_cnt (with_meta (with_slots t (slots t).[n <- e2]) m2)
        (u16 (cur_expn_tbl_cnt t + 1))) by (by rewrite E2).
  rewrite E3. set (t3 := with_expn_cnt _ _).
  assert (Hs3 : same_shape t t3) by (unfold t3; repeat split; cbn; by rewrite lengthZ_updateZ).
  unfold hdl_out. rewrite (MakeEntryHdl_same_shape _ _ _ Hs3).
  rewrite Ecmd1, (the_one_same_shape _ _ _ _ _ _ _ Hs2). unfold push_all, tail_ones.
  rewrite fold_left_app. cbn [fold_left]. done.
Qed.

(** The table after the new record [ef] was written, enabled and linked. *)
Definition appended t p ep n ef m2 : ipa_table U :=
  with_expn_cnt (with_meta (with_slots t
    (slots t).[n <- ef].[p <- record_put16 ep (el_next_off L) n]) m2)
    (u16 (cur_expn_tbl_cnt t + 1)).

Lemma appended_shape t p ep n ef m2 : same_shape t (appended t p ep n ef m2).
Proof. unfold appended. repeat split; cbn; by rewrite !lengthZ_updateZ. Qed.

Lemma view_appended t p pl ep n ef m2 :
  wf_table t -> view t p = Some pl -> (slots t).[p] = Some ep ->
  table_entries t <= n < tot_tbl_ents t -> n <> p ->
  valid ef = true -> entry_get_next_index I ef = 0 ->
  prev ef n m2 (table_entries t) = Some p ->
  (forall e j, 0 <= j -> j <> n -> prev e j m2 (table_entries t)
     = prev e j (meta t) (table_entries t)) ->
  view (appended t p ep n ef m2) ≡ chain_append (view t) p pl n.
Proof.
  intros Hwf Hp Hep Hn Hnp Hv Hnx Hpv Hfr j. pose proof (wt_layout _ _ _ _ _ Hwf) as Hl.
  pose proof (wl_base _ _ _ _ Hl). pose proof (wl_max _ _ _ _ Hl) as Hmax.
  unfold IPA_TABLE_MAX_ENTRIES in Hmax.
  pose proof (wl_slots _ _ _ _ Hl) as Hs.
  pose proof (wfc_range _ _ _ (wt_chains _ _ _ _ _ Hwf) _ _ Hp) as Hpr.
  pose proof Hp as Hp'. apply view_Some in Hp' as (ep' & Hep' & Hvp & _ & Hpp).
  rewrite Hep in Hep'. injection Hep' as <-.
  unfold chain_append. destruct (decide (p = j)) as [<-|Hpj]; [|destruct (decide (n = j)) as [<-|Hnj]].
  - rewrite fupd_eq.
    apply (view_update I (with_slots t (slots t).[n <- ef]) _ p (record_put16 ep (el_next_off L) n));
      [done|cbn; rewrite lengthZ_updateZ; lia|done| | |]; cbn.
    + by rewrite tel_put_next_valid.
    + rewrite tel_put_next_next, u16_small; lia.
    + rewrite tel_put_next_prev, Hfr by lia. done.
  - rewrite fupd_ne, fupd_eq by done. apply view_Some. exists ef. cbn.
    rewrite lookupZ_updateZ_ne, lookupZ_updateZ_eq by (done || lia). done.
  - rewrite !fupd_ne by done. apply view_frame; [cbn; by rewrite !lookupZ_updateZ_ne|done|].
    intros e He. apply Hfr; [|done]. by apply lookupZ_Some_range in He as [? _].
Qed.

Lemma wf_table_append t p pl ep n en ef m2 :
  wf_table t -> view t p = Some pl -> l_next pl = 0 -> (slots t).[p] = Some ep ->
  table_entries t <= n < tot_tbl_ents t -> (slots t).[n] = Some en -> valid en = false ->
  valid ef = true -> entry_get_next_index I ef = 0 ->
  prev ef n m2 (table_entries t) = Some p -> meta_ok m2 (expn_table_entries t) ->
  (forall e j, 0 <= j -> j <> n -> prev e j m2 (table_entries t)
     = prev e j (meta t) (table_entries t)) ->
  wf_table (appended t p ep n ef m2)
  /\ view (appended t p ep n ef m2) ≡ chain_append (view t) p pl n.
Proof.
  intros Hwf Hp Hpn Hep Hn Hen Hvn Hv Hnx Hpv Hm2 Hfr.
  pose proof (wt_layout _ _ _ _ _ Hwf) as Hl.
  pose proof (wl_base _ _ _ _ Hl). pose proof (wl_expn _ _ _ _ Hl).
  pose proof (wl_tot _ _ _ _ Hl). pose proof (wl_max _ _ _ _ Hl) as Hmax.
  unfold IPA_TABLE_MAX_ENTRIES in Hmax.
  pose proof Hp as Hp'. apply view_Some in Hp' as (ep' & Hep' & Hvp & _ & Hpp).
  rewrite Hep in Hep'. injection Hep' as <-.
  assert (Hnp : n <> p) by (intros ->; congruence).
  assert (Hview := view_appended t p pl ep n ef m2 Hwf Hp Hep Hn Hnp Hv Hnx Hpv Hfr).
  assert (Hp1 : (slots t).[n <- ef].[p] = Some ep) by (by rewrite lookupZ_updateZ_ne).
  assert (Hvp1 : valid (record_put16 ep (el_next_off L) n) = true)
    by (by rewrite tel_put_next_valid).
  assert (Hcnt : forall a b, countZ valid (slots t).[n <- ef].[p <- record_put16 ep (el_next_off L) n] a b
    = countZ valid (slots t).[n <- ef] a b).
  { intros a b. destruct (decide (a <= p < b)).
    - rewrite (countZ_update_in _ _ _ _ _ _ ep) by done. rewrite Hvp, Hvp1. lia.
    - by rewrite countZ_update_out. }
  split; [|done]. split.
  - apply (wf_layout_same_shape _ _ _ t); [done|apply appended_shape|done].
  - cbn. apply free_update; [apply free_update|by left]; [apply (wt_free _ _ _ _ _ Hwf)|by left].
  - rewrite Hview. cbn. apply wf_chain_append; [apply (wt_chains _ _ _ _ _ Hwf)|done|done| |lia|lia].
    by eapply view_None.
  - cbn. rewrite Hcnt, countZ_update_out by lia. apply (wt_cnt _ _ _ _ _ Hwf).
  - cbn. rewrite Hcnt, (countZ_update_in _ _ _ _ _ _ en) by (done || lia).
    rewrite Hv, Hvn, (wt_expn_cnt _ _ _ _ _ Hwf).
    pose proof (countZ_bound valid (slots t) (table_entries t) (tot_tbl_ents t)).
    cbn. rewrite u16_small; lia.
Qed.
End TableInsert.

(** ** Insertions, both branches at once

    An insertion picks a record [n]: the free bucket itself ([link = None])
    or a free expansion record that is linked after the tail [p] of the
    bucket's chain ([link = Some (p, ep)]).  The table stays well formed
    whatever the caller still writes into the new record, as long as it is
    valid and unlinked when the DMA entries are done; erasing the record
    instead takes the insertion back. *)

Definition link_prev (link : option (Z * Z)) : Z :=
  match link with Some (p, _) => p | None => 0 end.

Section TableAdd.
Context {U : Type} (I : ipa_table_entry_interface U) (L : entry_layout)
  (free_ok : Z -> Prop) (meta_ok : option (list Z) -> Z -> Prop)
  {laws : TableEntryLaws I L free_ok meta_ok}.
Context (bt et : ipa_table_dma_type).
Implicit Types (t : ipa_table U) (e : Z) (i h p n : Z) (link : option (Z * Z))
  (m : option (list Z)).

Abbreviation valid := (entry_is_valid I).
Abbreviation prev := (entry_get_prev_index I).
Abbreviation view := (view I).
Abbreviation wf_table := (wf_table I L free_ok meta_ok).
Abbreviation wf_layout := (wf_layout I L meta_ok).
Abbreviation wf_helpers := (wf_helpers L bt et).

(** The table with the record in place but not yet linked. *)
Definition ins_table t n e link m : ipa_table U :=
  let t1 := with_meta (with_slots t (slots t).[n <- e]) m in
  match link with
  | None => with_tbl_cnt t1 (u16 (cur_tbl_cnt t + 1))
  | Some _ => with_expn_cnt t1 (u16 (cur_expn_tbl_cnt t + 1))
  end.

(** The table with the record linked. *)
Definition ins_linked t n e link m : ipa_table U :=
  match link with
  | None => ins_table t n e link m
  | Some (p, ep) =>
      with_slots (ins_table t n e link m)
        (slots t).[n <- e].[p <- record_put16 ep (el_next_off L) n]
  end.

Definition insertion t h n link m : Prop :=
  0 < n < tot_tbl_ents t
  /\ (exists en, (slots t).[n] = Some en /\ valid en = false)
  /\ meta_ok m (expn_table_entries t)
  /\ (forall e j, 0 <= j -> j <> n -> prev e j m (table_entries t)
        = prev e j (meta t) (table_entries t))
  /\ match link with
     | None => n = h /\ 0 < h < table_entries t /\ m = meta t
     | Some (p, ep) =>
         table_entries t <= n /\ reach (view t) h p
         /\ (slots t).[p] = Some ep /\ exists pl, view t p = Some pl /\ l_next pl = 0
     end.

Definition ins_ones t (is_idx : bool) n link d : list ipa_ioc_nat_dma_one :=
  match link with
  | None => [the_one bt et t (el_head_off L) n d]
  | Some (p, _) => tail_ones L bt et t is_idx p n d
  end.

(** The new record once the DMA entries are done. *)
Definition ins_final (is_idx : bool) link e d : Z :=
  match link, is_idx with
  | Some _, true => e
  | _, _ => record_put16 e (el_head_off L) d
  end.

Lemma ins_table_shape t n e link m : same_shape t (ins_table t n e link m).
Proof. destruct link; repeat split; cbn; by rewrite lengthZ_updateZ. Qed.

Lemma ins_linked_shape t n e link m : same_shape t (ins_linked t n e link m).
Proof.
  destruct link as [[p ep]|]; [|apply ins_table_shape].
  repeat split; cbn; by rewrite !lengthZ_updateZ.
Qed.

(** Writing into the new record before the command is posted. *)
Lemma ins_table_rewrite t n e e' link m :
  with_slots (ins_table t n e link m) (slots (ins_table t n e link m)).[n <- e']
  = ins_table t n e' link m.
Proof.
  destruct link; unfold ins_table, with_slots, with_meta, with_tbl_cnt, with_expn_cnt; cbn;
    by rewrite updateZ_updateZ_eq.
Qed.

Lemma ins_table_lookup t n e link m :
  0 <= n < lengthZ (slots t) -> (slots (ins_table t n e link m)).[n] = Some e.
Proof. intros. destruct link; cbn; by apply lookupZ_updateZ_eq. Qed.

Lemma insertion_ne t h n p ep m : insertion t h n (Some (p, ep)) m -> n <> p.
Proof.
  intros (_ & (en & Hen & Hv) & _ & _ & _ & _ & Hep & pl & Hpl & _) ->.
  apply view_Some in Hpl as (e & He & Hve & _). congruence.
Qed.

(** The DMA entries link the record. *)
Lemma apply_ins_ones t h n e link m d is_idx :
  wf_table t -> bt <> et -> insertion t h n link m ->
  table_apply bt et (ins_ones t is_idx n link d) (ins_table t n e link m)
  = Some (ins_linked t n (ins_final is_idx link e d) link m).
Proof.
  intros Hwf Hbe Hins. pose proof (wt_layout _ _ _ _ _ Hwf) as Hl.
  pose proof Hins as (Hn & _ & Hm & _ & Hlk).
  pose proof (wl_slots _ _ _ _ Hl) as Hs.
  pose proof (tel_offsets (L := L)) as (Ho1 & Ho2 & _).
  rewrite <- (wl_entry_size _ _ _ _ Hl) in Ho1, Ho2.
  assert (Hhead : forall e0, table_apply_one bt et (the_one bt et t (el_head_off L) n d)
      (ins_table t n e0 link m)
    = Some (ins_table t n (record_put16 e0 (el_head_off L) d) link m)).
  { intros e0. pose proof (ins_table_shape t n e0 link m) as Hsh.
    assert (Hl1 : wf_layout (ins_table t n e0 link m)).
    { apply (wf_layout_same_shape _ _ _ t); [done|done|]. destruct link; done. }
    rewrite <- (the_one_same_shape _ _ _ _ _ _ _ Hsh).
    rewrite (apply_the_one I L meta_ok _ _ _ _ _ _ e0);
      [by rewrite ins_table_rewrite|done|done|destruct Hsh as [-> _]; done|].
    apply ins_table_lookup. lia. }
  destruct link as [[p ep]|]; cbn [ins_ones]; [|cbn [table_apply]; by rewrite Hhead].
  pose proof (insertion_ne _ _ _ _ _ _ Hins) as Hne.
  destruct Hlk as (Hb & _ & Hep & _).
  assert (Hnext : forall e0, table_apply_one bt et (the_one bt et t (el_next_off L) p n)
      (ins_table t n e0 (Some (p, ep)) m) = Some (ins_linked t n e0 (Some (p, ep)) m)).
  { intros e0. set (link := Some (p, ep)).
    pose proof (ins_table_shape t n e0 link m) as Hsh.
    assert (Hl1 : wf_layout (ins_table t n e0 link m))
      by (apply (wf_layout_same_shape _ _ _ t); done).
    rewrite <- (the_one_same_shape _ _ _ _ _ _ _ Hsh).
    rewrite (apply_the_one I L meta_ok _ _ _ _ _ _ ep);
      [done|done|done|destruct Hsh as [-> _]; done|]. cbn. by rewrite lookupZ_updateZ_ne. }
  unfold tail_ones. destruct is_idx; cbn [app table_apply ins_final].
  - by rewrite Hnext.
  - rewrite Hhead. cbn [mbind option_bind table_apply]. by rewrite Hnext.
Qed.

(** A linked record leaves the table well formed and is reached from its
    bucket. *)
Lemma wf_ins_linked t h n link m ef :
  wf_table t -> insertion t h n link m -> valid ef = true ->
  entry_get_next_index I ef = 0 -> prev ef n m (table_entries t) = Some (link_prev link) ->
  wf_table (ins_linked t n ef link m) /\ reach (view (ins_linked t n ef link m)) h n.
Proof.
  intros Hwf Hins Hv Hn Hp. pose proof (wt_layout _ _ _ _ _ Hwf) as Hl.
  pose proof (wl_base _ _ _ _ Hl) as Hb0.
  pose proof Hins as (Hnr & (en & Hen & Hven) & Hm & Hfr & Hlk).
  destruct link as [[p ep]|].
  - destruct Hlk as (Hb & Hr & Hep & pl & Hpl & Hpn).
    destruct (wf_table_append I L free_ok meta_ok t p pl ep n en ef m) as [H1 H2];
      try done; [lia|].
    assert (E : ins_linked t n ef (Some (p, ep)) m = appended L t p ep n ef m) by done.
    rewrite E. split; [done|]. rewrite H2.
    eapply (append_reach_new (table_entries t) (tot_tbl_ents t));
      first [done | lia | by eapply view_None | by apply (wt_chains _ _ _ _ _ Hwf)].
  - destruct Hlk as (-> & Hh & ->). cbn [ins_linked ins_table link_prev] in *.
    destruct (wf_table_add_head I L free_ok meta_ok t h en ef) as [H1 H2]; try done.
    assert (E : with_tbl_cnt (with_meta (with_slots t (slots t).[h <- ef]) (meta t))
      (u16 (cur_tbl_cnt t + 1)) = with_tbl_cnt (with_slots t (slots t).[h <- ef])
      (u16 (cur_tbl_cnt t + 1))) by done.
    rewrite E. split; [done|]. rewrite H2. eapply reach_refl. apply fupd_eq.
Qed.

(** Erasing the record takes the insertion back. *)
Lemma erase_ins_table t h n e link m :
  wf_table t -> insertion t h n link m -> (slots t).[n] = Some 0 ->
  ipa_table_erase_entry (ins_table t n e link m) n = Some (with_meta t m).
Proof.
  intros Hwf (Hnr & _ & Hm & _ & Hlk) H0. pose proof (wt_layout _ _ _ _ _ Hwf) as Hl.
  pose proof (wl_max _ _ _ _ Hl) as Hmax. unfold IPA_TABLE_MAX_ENTRIES in Hmax.
  pose proof (wl_tot _ _ _ _ Hl). pose proof (wl_base _ _ _ _ Hl). pose proof (wl_expn _ _ _ _ Hl).
  pose proof (ins_table_shape t n e link m) as Hsh.
  assert (Hl1 : wf_layout (ins_table t n e link m))
    by (apply (wf_layout_same_shape _ _ _ t); [done|done|destruct link; done]).
  unfold ipa_table_erase_entry.
  rewrite (rec_store_GOTO_REC I L meta_ok) by (done || (destruct link; cbn; lia)).
  cbn [mbind option_bind]. rewrite ins_table_rewrite.
  destruct Hsh as (_ & -> & _).
  pose proof (countZ_bound valid (slots t) 0 (table_entries t)).
  pose proof (countZ_bound valid (slots t) (table_entries t) (tot_tbl_ents t)).
  assert (Hback : forall x, 0 <= x < 6000 -> u16 (u16 (x + 1) - 1) = x)
    by (intros; rewrite (u16_small (x + 1)), u16_small by lia; lia).
  destruct link as [[p ep]|].
  - destruct Hlk as (Hb & _). rewrite (proj2 (Z.ltb_ge _ _)) by lia. f_equal.
    unfold ins_table, with_expn_cnt, with_meta, with_slots. cbn.
    rewrite Hback by (rewrite (wt_expn_cnt _ _ _ _ _ Hwf); lia).
    rewrite updateZ_id by done. by destruct t.
  - destruct Hlk as (-> & Hh & ->). rewrite (proj2 (Z.ltb_lt _ _)) by lia. f_equal.
    unfold ins_table, with_tbl_cnt, with_meta, with_slots. cbn.
    rewrite Hback by (rewrite (wt_cnt _ _ _ _ _ Hwf); lia).
    rewrite updateZ_id by done. by destruct t.
Qed.

(** The records after the insertion. *)
Lemma ins_linked_new t h n e link m :
  wf_table t -> insertion t h n link m -> (slots (ins_linked t n e link m)).[n] = Some e.
Proof.
  intros Hwf Hins. pose proof (wl_slots _ _ _ _ (wt_layout _ _ _ _ _ Hwf)) as Hs.
  pose proof Hins as (Hn & _). destruct link as [[p ep]|]; cbn.
  - pose proof (insertion_ne _ _ _ _ _ _ Hins).
    rewrite lookupZ_updateZ_ne by done. apply lookupZ_updateZ_eq. lia.
  - apply lookupZ_updateZ_eq. lia.
Qed.

(** [x'] is [x], or [x] linked to the new record. *)
Definition relinked n (x x' : Z) : Prop :=
  x' = x \/ x' = record_put16 x (el_next_off L) n.

Lemma ins_linked_other t h n e link m j :
  insertion t h n link m -> j <> n ->
  match (slots t).[j], (slots (ins_linked t n e link m)).[j] with
  | Some x, Some x' => relinked n x x'
  | None, None => True
  | _, _ => False
  end.
Proof.
  intros Hins Hj. unfold relinked. destruct link as [[p ep]|]; cbn.
  - pose proof Hins as (_ & _ & _ & _ & _ & _ & Hep & _).
    pose proof (insertion_ne _ _ _ _ _ _ Hins).
    destruct (decide (p = j)) as [<-|Hp].
    + rewrite lookupZ_updateZ_eq, Hep; [by right|]. rewrite lengthZ_updateZ.
      by eapply lookupZ_Some_range.
    + rewrite !lookupZ_updateZ_ne by done. destruct ((slots t).[j]); [by left|done].
  - rewrite lookupZ_updateZ_ne by done. destruct ((slots t).[j]); [by left|done].
Qed.

(** The previous index of a free record does not matter. *)
Lemma wf_table_meta_free t n en m :
  wf_table t -> (slots t).[n] = Some en -> valid en = false ->
  meta_ok m (expn_table_entries t) ->
  (forall e j, 0 <= j -> j <> n -> prev e j m (table_entries t)
     = prev e j (meta t) (table_entries t)) ->
  wf_table (with_meta t m).
Proof.
  intros [Hl Hf Hc H1 H2] Hen Hv Hm Hfr.
  assert (Hview : view (with_meta t m) ≡ view t).
  { intros j. destruct (decide (j = n)) as [->|Hj].
    - by rewrite !(view_None I _ n en).
    - apply view_frame; [done|done|]. intros e He. apply Hfr; [|done].
      by apply lookupZ_Some_range in He as [? _]. }
  split; try done; [|by rewrite Hview].
  by apply (wf_layout_same_shape _ _ _ t).
Qed.

Lemma wf_table_with_meta t h n link m :
  wf_table t -> insertion t h n link m -> wf_table (with_meta t m).
Proof.
  intros Hwf (_ & (en & Hen & Hv) & Hm & Hfr & _). by apply (wf_table_meta_free t n en).
Qed.

Lemma ins_ones_length t is_idx n link d : lengthZ (ins_ones t is_idx n link d) <= 2.
Proof. destruct link as [[p ep]|]; [destruct is_idx|]; unfold lengthZ; cbn; lia. Qed.

(** Where the new record comes from. *)
Definition new_record t u n link m en e1 d : Prop :=
  match link with
  | None => entry_head_insert I en u = Some (0, e1, d)
  | Some (p, _) =>
      exists e0, tail_copy I (is_index t) en u = Some (0, e0, d)
        /\ entry_set_prev_index I e0 n p (meta t) (table_entries t) = Some (e1, m)
        /\ valid e1 = valid e0 /\ entry_get_next_index I e1 = entry_get_next_index I e0
        /\ prev e1 n m (table_entries t) = Some p
  end.

(** Every expansion record is in use. *)
Definition expn_full t : Prop :=
  forall j x, table_entries t <= j < tot_tbl_ents t -> (slots t).[j] = Some x -> valid x = true.

Lemma add_entry_spec t u h hdl cmd k :
  wf_table t -> wf_helpers t -> 0 < h < table_entries t -> cmd_room cmd k -> 2 <= k ->
  (forall en, free_ok en -> exists e' d, entry_head_insert I en u = Some (0, e', d)) ->
  (forall en, free_ok en -> exists e' d, tail_copy I (is_index t) en u = Some (0, e', d)) ->
  (exists n link m en e1 d,
     insertion t h n link m /\ (slots t).[n] = Some en /\ free_ok en
     /\ new_record t u n link m en e1 d
     /\ ipa_table_add_entry t u h hdl cmd
        = Some (0, ins_table t n e1 link m, n, hdl_out t hdl n,
                push_all cmd (ins_ones t (is_index t) n link d)))
  \/ (is_Some (view t h) /\ expn_full t
      /\ ipa_table_add_entry t u h hdl cmd = Some (-1, t, h, hdl, cmd)).
Proof.
  intros Hwf Hh Hr Hroom Hk Hcopy1 Hcopy2. pose proof (wt_layout _ _ _ _ _ Hwf) as Hl.
  pose proof (wl_tot _ _ _ _ Hl) as Htot. pose proof (wl_expn _ _ _ _ Hl).
  destruct (record_in_range _ _ _ t h Hl) as [e He]; [lia|].
  destruct (valid e) eqn:Hv.
  - destruct (add_entry_tail_spec I L free_ok meta_ok bt et t u h hdl cmd k e)
      as [(p & pl & n & en & e' & d & e2 & m2 & Hreach & Hp & Hpn & Hn & Hen & Hvn & Ec & Es & Ea)
         |(Hall & Ea)]; try done; [lia|left|right].
    + destruct (proj1 (view_Some _ _ _ _) Hp) as (ep & Hep & _).
      pose proof (wfc_range _ _ _ (wt_chains _ _ _ _ _ Hwf) _ _ Hp) as Hpr.
      pose proof (wl_max _ _ _ _ Hl) as Hmax. unfold IPA_TABLE_MAX_ENTRIES in Hmax.
      destruct (tel_set_prev e' n p (meta t) (table_entries t) (expn_table_entries t))
        as (e2' & m2' & Es2 & Hm2 & Hv2 & Hn2 & Hp2 & Hfr2);
        [apply (wl_meta _ _ _ _ Hl)|lia|lia|].
      rewrite Es in Es2. injection Es2 as <- <-.
      exists n, (Some (p, ep)), m2, en, e2, d. split_and!; try done; [| |].
      * split_and!; try done; [lia|lia|by eauto|lia|by eauto].
      * by apply (wt_free _ _ _ _ _ Hwf n).
      * exists e'. done.
    + split; [by eapply view_live|]. done.
  - destruct (Hcopy1 e (wt_free _ _ _ _ _ Hwf _ _ He Hv)) as (e' & d & Ec). left.
    exists h, None, (meta t), e, e', d. split_and!; try done.
    + split_and!; try done; [lia|lia|by eauto|apply (wl_meta _ _ _ _ Hl)|lia|lia].
    + by apply (wt_free _ _ _ _ _ Hwf h).
    + rewrite (add_entry_head_spec I L free_ok meta_ok bt et t u h hdl cmd k e e' d)
        by (done || lia). done.
Qed.
End TableAdd.

(** ** Refused insertions and handles of no record

    What the table's operations do when the user data are refused, when the
    handle names no record of the table and when its record is free. *)

(** The record a handle names, if the table has one. *)
Definition hdl_index {U} (t : ipa_table U) (h : Z) : Z := (BREAK_RULE_HDL t h).2.

Lemma get_entry_hdl_index {U} (t : ipa_table U) h :
  ipa_table_get_entry t h
  = if tot_tbl_ents t <=? hdl_index t h then (- EINVAL, None)
    else (0, Some (GOTO_REC t (hdl_index t h), hdl_index t h)).
Proof. done. Qed.

Lemma hdl_index_range {U} (t : ipa_table U) h : 0 <= hdl_index t h < 65536.
Proof. apply u16_range. Qed.

Section TableErrors.
Context {U : Type} (I : ipa_table_entry_interface U) (L : entry_layout)
  (free_ok : Z -> Prop) (meta_ok : option (list Z) -> Z -> Prop)
  {laws : TableEntryLaws I L free_ok meta_ok}.
Implicit Types (t : ipa_table U).

Abbreviation valid := (entry_is_valid I).
Abbreviation view := (view I).
Abbreviation wf_table := (wf_table I L free_ok meta_ok).

(** User data the interface refuses: a free record may have been written, but
    it stays free. *)
Lemma add_entry_refused t u h hdl cmd st (good : Z -> Prop) :
  wf_table t -> 0 < h < table_entries t -> st <> 0 ->
  (forall en, free_ok en -> exists e' d, entry_head_insert I en u = Some (st, e', d) /\ good e') ->
  (forall en, free_ok en -> exists e' d, tail_copy I (is_index t) en u = Some (st, e', d) /\ good e') ->
  (exists n en e',
     (slots t).[n] = Some en /\ valid en = false /\ good e'
     /\ ipa_table_add_entry t u h hdl cmd
        = Some (st, with_slots t (slots t).[n <- e'], h, hdl, cmd))
  \/ (expn_full I t /\ ipa_table_add_entry t u h hdl cmd = Some (-1, t, h, hdl, cmd)).
Proof.
  intros Hwf Hr Hst Hc1 Hc2. pose proof (wt_layout _ _ _ _ _ Hwf) as Hl.
  pose proof (wl_tot _ _ _ _ Hl). pose proof (wl_expn _ _ _ _ Hl).
  destruct (record_in_range _ _ _ t h Hl) as [e He]; [lia|].
  unfold ipa_table_add_entry. rewrite (wl_iface _ _ _ _ Hl). cbn [mbind option_bind].
  rewrite (rec_load_GOTO_REC I L meta_ok), He by done. cbn [mbind option_bind].
  destruct (valid e) eqn:Hv; cbn [negb].
  - unfold InsertTail. fold (is_index t).
    destruct (iterator_end_spec _ _ _ _ t h Hwf) as (p & pl & Eit & _);
      [lia|by eapply view_live|].
    rewrite (wl_iface _ _ _ _ Hl), Eit. cbn [mbind option_bind Z.eqb negb].
    destruct (FindExpnTblFreeEntry_spec I L meta_ok t Hl)
      as [(n & en & Hn & Hen & Hvn & EF)|[Hall EF]]; rewrite EF; cbn [mbind option_bind Z.eqb negb];
      [left|right; done].
    destruct (Hc2 en (wt_free _ _ _ _ _ Hwf _ _ Hen Hvn)) as (e' & d & Ec & Hg).
    exists n, en, e'. split_and!; try done.
    rewrite (rec_load_GOTO_REC I L meta_ok), Hen by done. cbn [mbind option_bind].
    unfold tail_copy in Ec. rewrite Ec. cbn [mbind option_bind].
    rewrite (rec_store_GOTO_REC I L meta_ok) by (done || lia). cbn [mbind option_bind].
    rewrite (proj2 (Z.eqb_neq st 0)) by done. cbn [negb mbind option_bind].
    by rewrite (proj2 (Z.eqb_neq st 0)) by done.
  - left. destruct (Hc1 e (wt_free _ _ _ _ _ Hwf _ _ He Hv)) as (e' & d & Ec & Hg).
    exists h, e, e'. split_and!; try done. unfold InsertHead.
    rewrite (wl_iface _ _ _ _ Hl). cbn [mbind option_bind].
    rewrite (rec_load_GOTO_REC I L meta_ok), He by done. cbn [mbind option_bind].
    rewrite Ec. cbn [mbind option_bind].
    rewrite (rec_store_GOTO_REC I L meta_ok) by (done || lia). cbn [mbind option_bind].
    rewrite (proj2 (Z.eqb_neq st 0)) by done. cbn [negb mbind option_bind Z.eqb].
    by rewrite ?(proj2 (Z.eqb_neq st 0)) by done.
Qed.

(** An iterator cannot start at a free record. *)
Lemma iterator_init_free t i e :
  wf_table t -> (slots t).[i] = Some e -> valid e = false ->
  ipa_table_iterator_init t (GOTO_REC t i) i = Some (- EINVAL, iterator_zero).
Proof.
  intros Hwf He Hv. pose proof (wt_layout _ _ _ _ _ Hwf) as Hl.
  unfold ipa_table_iterator_init. rewrite (wl_iface _ _ _ _ Hl). cbn [mbind option_bind].
  rewrite (rec_load_GOTO_REC I L meta_ok), He by done. cbn [mbind option_bind]. by rewrite Hv.
Qed.
End TableErrors.
