(* ===== verification/TableDelete.v ===== *)
(** * Deletion from a table

    The three kinds of delete commands, and that the chain invariant holds
    again once the command took effect and the record was erased: a member
    is taken out of its chain, a lone head frees its bucket, and the last
    member of a chain whose head was deleted before takes the head with it. *)
From S2P Require Import Prelude Bitfield Chain Table TableFacts TableDma.
From S2P Require Import TableInsert.

Section TableDelete.
Context {U : Type} (I : ipa_table_entry_interface U) (L : entry_layout)
  (free_ok : Z -> Prop) (meta_ok : option (list Z) -> Z -> Prop)
  {laws : TableEntryLaws I L free_ok meta_ok}.
Context (bt et : ipa_table_dma_type).
Implicit Types (t : ipa_table U) (e : Z) (i h p n : Z).

Abbreviation valid := (entry_is_valid I).
Abbreviation prev := (entry_get_prev_index I).
Abbreviation view := (view I).
Abbreviation wf_table := (wf_table I L free_ok meta_ok).
Abbreviation wf_layout := (wf_layout I L meta_ok).
Abbreviation wf_helpers := (wf_helpers L bt et).

(** The iterator on a live record. *)
Definition iter_at t i (l : link) : ipa_table_iterator :=
  mk_iterator (l_prev l) (ptr_of t (l_prev l)) i (GOTO_REC t i)
    (l_next l) (ptr_of t (l_next l)).

Lemma GOTO_REC_with_slots t l i : GOTO_REC (with_slots t l) i = GOTO_REC t i.
Proof. done. Qed.

Lemma same_shape_with_slots t l :
  lengthZ l = lengthZ (slots t) -> same_shape t (with_slots t l).
Proof. intros. by repeat split. Qed.

(** ** Rewriting a record in place *)

Lemma wf_table_rewrite t i e e' :
  wf_table t -> (slots t).[i] = Some e -> valid e = true -> valid e' = true ->
  entry_get_next_index I e' = entry_get_next_index I e ->
  prev e' i (meta t) (table_entries t) = prev e i (meta t) (table_entries t) ->
  let t' := with_slots t (slots t).[i <- e'] in
  wf_table t' /\ view t' ≡ view t.
Proof.
  intros Hwf He Hv Hv' Hn Hp t'. pose proof (wt_layout _ _ _ _ _ Hwf) as Hl.
  pose proof (lookupZ_Some_range _ _ _ He) as Hr.
  assert (Hview : view t' ≡ view t).
  { intros j. destruct (decide (i = j)) as [<-|Hj].
    - unfold TableFacts.view, t'. cbn. rewrite lookupZ_updateZ_eq, He, Hv, Hv', Hn, Hp by done.
      done.
    - apply view_frame; [|done|done]. cbn. by rewrite lookupZ_updateZ_ne. }
  assert (Hcnt : forall a b, countZ valid (slots t).[i <- e'] a b = countZ valid (slots t) a b)
    by (intros; apply (countZ_update_same _ _ _ _ _ _ e); congruence).
  split; [|done]. split.
  - apply (wf_layout_same_shape _ _ _ t); [done| |apply (wl_meta _ _ _ _ Hl)].
    apply same_shape_with_slots. by rewrite lengthZ_updateZ.
  - cbn. apply free_update; [apply (wt_free _ _ _ _ _ Hwf)|by left].
  - rewrite Hview. apply (wt_chains _ _ _ _ _ Hwf).
  - cbn. rewrite Hcnt. apply (wt_cnt _ _ _ _ _ Hwf).
  - cbn. rewrite Hcnt. apply (wt_expn_cnt _ _ _ _ _ Hwf).
Qed.

(** ** The delete command *)

Definition delete_one t i (l : link) : ipa_ioc_nat_dma_one :=
  if decide (l_prev l = 0) then
    if decide (l_next l = 0) then the_one bt et t (el_head_off L) i 0
    else match (slots t).[i], (slots t).[l_next l] with
         | Some c, Some n =>
             the_one bt et t (el_del_off L) i (entry_get_delete_head_dma_command_data I c n)
         | _, _ => dma_one_zero
         end
  else the_one bt et t (el_next_off L) (l_prev l) (l_next l).

Lemma create_delete_command_spec t i l cmd k :
  wf_table t -> wf_helpers t -> view t i = Some l -> cmd_room cmd k -> 1 <= k ->
  ipa_table_create_delete_command t cmd (iter_at t i l)
  = Some (push_dma cmd (delete_one t i l)).
Proof.
  intros Hwf Hh Hv Hroom Hk. pose proof (wt_layout _ _ _ _ _ Hwf) as Hl.
  pose proof (wt_chains _ _ _ _ _ Hwf) as Hc.
  pose proof (wfc_range _ _ _ Hc _ _ Hv) as Hr.
  pose proof (tel_offsets (L := L)) as (Ho1 & Ho2 & Ho3).
  rewrite <- (wl_entry_size _ _ _ _ Hl) in Ho1, Ho2, Ho3.
  unfold ipa_table_create_delete_command, iter_at, delete_one, VALID_INDEX,
    IPA_TABLE_INVALID_ENTRY, ptr_of.
  cbn [prev_index prev_entry curr_index curr_entry next_index next_entry].
  destruct (decide (l_prev l = 0)) as [Ep|Np].
  - rewrite Ep. cbn [Z.eqb negb]. destruct (decide (l_next l = 0)) as [En|Nn].
    + rewrite En. cbn [Z.eqb negb mbind option_bind].
      rewrite (add_dma_cmd_spec I L meta_ok bt et t _ (el_head_off L) i 0 cmd k);
        [done|done|apply Hh|done|done|lia|done|lia].
    + rewrite (proj2 (Z.eqb_neq (l_next l) 0)) by done. cbn [negb].
      rewrite (wl_iface _ _ _ _ Hl). cbn [mbind option_bind].
      pose proof Hv as Hv'. apply view_Some in Hv' as (e & He & _).
      destruct (wfc_next _ _ _ Hc _ _ Hv Nn) as (_ & nl & Hnl & _).
      apply view_Some in Hnl as (en & Hen & _).
      rewrite !(rec_load_GOTO_REC I L meta_ok) by done. rewrite He, Hen.
      cbn [mbind option_bind].
      rewrite (add_dma_cmd_spec I L meta_ok bt et t _ (el_del_off L) i _ cmd k);
        [done|done|apply Hh|done|done|lia|done|lia].
  - rewrite (proj2 (Z.eqb_neq (l_prev l) 0)) by done. cbn [negb].
    assert (Hge : table_entries t <= i).
    { destruct (decide (i < table_entries t)) as [Hlt|]; [|lia].
      by rewrite (wfc_base _ _ _ Hc _ _ Hv Hlt) in Np. }
    destruct (wfc_prev _ _ _ Hc _ _ Hv Hge) as (_ & pl & Hpl & _).
    pose proof (wfc_range _ _ _ Hc _ _ Hpl).
    rewrite (add_dma_cmd_spec I L meta_ok bt et t _ (el_next_off L) (l_prev l) _ cmd k);
      [done|done|apply Hh|done|done|lia|done|lia].
Qed.

(** The entry of a delete command addresses this table. *)
Lemma delete_one_in_table t i l :
  wf_table t -> view t i = Some l ->
  exists off k d, delete_one t i l = the_one bt et t off k d
    /\ 0 <= off < el_size L /\ 0 <= k < tot_tbl_ents t.
Proof.
  intros Hwf Hv. pose proof (wt_chains _ _ _ _ _ Hwf) as Hc.
  pose proof (wfc_range _ _ _ Hc _ _ Hv) as Hr.
  pose proof (tel_offsets (L := L)) as (O1 & O2 & O3). unfold delete_one.
  pose proof Hv as Hv'. apply view_Some in Hv' as (e & He & _).
  destruct (decide (l_prev l = 0)) as [Hp|Hp].
  - destruct (decide (l_next l = 0)) as [Hn|Hn].
    + eexists _, _, _. split; [reflexivity|]. split; [done|lia].
    + destruct (wfc_next _ _ _ Hc _ _ Hv Hn) as (_ & nl & Hnl & _).
      apply view_Some in Hnl as (en & Hen & _). rewrite He, Hen.
      eexists _, _, _. split; [reflexivity|]. split; [done|lia].
  - assert (Hge : table_entries t <= i).
    { destruct (decide (i < table_entries t)) as [Hlt|]; [|lia].
      by rewrite (wfc_base _ _ _ Hc _ _ Hv Hlt) in Hp. }
    destruct (wfc_prev _ _ _ Hc _ _ Hv Hge) as (_ & pl & Hpl & _).
    pose proof (wfc_range _ _ _ Hc _ _ Hpl).
    eexists _, _, _. split; [reflexivity|]. split; [done|lia].
Qed.

(** ** Taking a member out *)

Lemma view_unlinked t t' i il pe :
  wf_table t -> view t i = Some il -> table_entries t <= i ->
  table_entries t' = table_entries t -> (slots t').[i] = Some 0 ->
  (slots t).[l_prev il] = Some pe ->
  (slots t').[l_prev il] = Some (record_put16 pe (el_next_off L) (l_next il)) ->
  (l_next il <> 0 -> exists ne ne', (slots t).[l_next il] = Some ne
     /\ (slots t').[l_next il] = Some ne' /\ valid ne' = valid ne
     /\ entry_get_next_index I ne' = entry_get_next_index I ne
     /\ prev ne' (l_next il) (meta t') (table_entries t) = Some (l_prev il)) ->
  (forall j, j <> i -> j <> l_prev il -> j <> l_next il \/ l_next il = 0 ->
     (slots t').[j] = (slots t).[j]) ->
  (forall e j, 0 <= j -> j <> l_next il \/ l_next il = 0 ->
     prev e j (meta t') (table_entries t) = prev e j (meta t) (table_entries t)) ->
  view t' ≡ chain_unlink (view t) i il.
Proof.
  intros Hwf Hv Hb Hbt Hi Hpe Hpe' Hne Hfr Hpr j.
  pose proof (wt_layout _ _ _ _ _ Hwf) as Hl. pose proof (wl_max _ _ _ _ Hl) as Hmax.
  unfold IPA_TABLE_MAX_ENTRIES in Hmax. pose proof (wt_chains _ _ _ _ _ Hwf) as Hc.
  destruct (unlink_neighbours _ _ _ _ _ Hc Hv Hb) as (Hpi & Hni & Hpn).
  destruct (decide (j = i)) as [->|Hji].
  { rewrite (unlink_at (view t)). apply (view_None I _ _ 0); [done|apply tel_valid_zero]. }
  destruct (wfc_prev _ _ _ Hc _ _ Hv Hb) as (Hp0 & pl & Hpl & Hpnx).
  assert (Hin : 0 <= l_next il < 65536).
  { apply view_Some in Hv as (e & _ & _ & -> & _). apply tel_next_range. }
  destruct (view t j) as [l|] eqn:Hj.
  - rewrite (unlink_spec _ _ _ _ _ Hc Hv Hb j l Hji Hj).
    pose proof (wfc_range _ _ _ Hc _ _ Hj) as Hjr.
    pose proof Hj as Hj'. apply view_Some in Hj' as (e & He & Hve & Hne' & Hpre).
    apply view_Some. rewrite Hbt. destruct (decide (j = l_prev il)) as [->|Hjp].
    + rewrite Hpe in He. injection He as <-. exists (record_put16 pe (el_next_off L) (l_next il)).
      rewrite tel_put_next_valid, tel_put_next_next, tel_put_next_prev.
      rewrite decide_False by done. rewrite u16_small by done. cbn [l_next l_prev].
      rewrite Hpr by (lia || (by left)). done.
    + destruct (decide (j = l_next il)) as [->|Hjn]; cbn [l_next l_prev].
      * destruct Hne as (ne & ne' & Hs & Hs' & Hva & Hnx & Hpv); [lia|].
        rewrite Hs in He. injection He as <-. exists ne'.
        rewrite Hva, Hnx. done.
      * exists e. rewrite Hfr, Hpr by (done || lia || (by left)). done.
  - destruct (chain_unlink (view t) i il j) as [l'|] eqn:E.
    + destruct (unlink_inv _ _ _ _ l' E) as (_ & l & Hl2). congruence.
    + destruct (decide (j = l_next il /\ l_next il <> 0)) as [[-> Hn0]|Hjn].
      { destruct (wfc_next _ _ _ Hc _ _ Hv Hn0) as (_ & nl & Hnl & _). congruence. }
      rewrite <- Hj. apply view_frame; [apply Hfr; [done|intros ->; congruence|lia]|done|].
      intros e He. apply Hpr; [by apply lookupZ_Some_range in He as [? _]|lia].
Qed.

(** What the deletion of member [i] leaves: the records and the meta data. *)
Definition unlinked t i (il : link) pe (l' : list Z) (m' : option (list Z)) : Prop :=
  if decide (l_next il = 0) then
    l' = (slots t).[l_prev il <- record_put16 pe (el_next_off L) (l_next il)].[i <- 0]
    /\ m' = meta t
  else exists ne ne', (slots t).[l_next il] = Some ne
    /\ entry_set_prev_index I ne (l_next il) (l_prev il) (meta t) (table_entries t)
       = Some (ne', m')
    /\ l' = (slots t).[l_prev il <- record_put16 pe (el_next_off L) (l_next il)]
            .[l_next il <- ne'].[i <- 0].

Lemma delete_entry_member t i il pe b :
  wf_table t -> view t i = Some il -> table_entries t <= i ->
  (slots t).[l_prev il] = Some pe -> b = false \/ l_next il <> 0 ->
  exists l' m',
    ipa_table_delete_entry
      (with_slots t (slots t).[l_prev il <- record_put16 pe (el_next_off L) (l_next il)])
      (iter_at t i il) b
    = Some (with_expn_cnt (with_meta (with_slots t l') m') (u16 (cur_expn_tbl_cnt t - 1)))
    /\ unlinked t i il pe l' m'.
Proof.
  intros Hwf Hv Hb Hpe Hor. pose proof (wt_layout _ _ _ _ _ Hwf) as Hl.
  pose proof (wl_max _ _ _ _ Hl) as Hmax. unfold IPA_TABLE_MAX_ENTRIES in Hmax.
  pose proof (wt_chains _ _ _ _ _ Hwf) as Hc. pose proof (wfc_range _ _ _ Hc _ _ Hv) as Hr.
  destruct (unlink_neighbours _ _ _ _ _ Hc Hv Hb) as (Hpi & Hni & Hpn).
  set (t1 := with_slots t _).
  assert (Hs1 : same_shape t t1) by (apply same_shape_with_slots; by rewrite lengthZ_updateZ).
  pose proof (wf_layout_same_shape _ _ _ _ _ Hl Hs1 (wl_meta _ _ _ _ Hl)) as Hl1.
  assert (Herase : forall l' m', lengthZ l' = lengthZ (slots t) -> meta_ok m' (expn_table_entries t) ->
    ipa_table_erase_entry (with_meta (with_slots t l') m') i
    = Some (with_expn_cnt (with_meta (with_slots t l'.[i <- 0]) m')
              (u16 (cur_expn_tbl_cnt t - 1)))).
  { intros l' m' Hlen Hm. set (t2 := with_meta _ _).
    assert (Hs2 : same_shape t t2) by done.
    pose proof (wf_layout_same_shape _ _ _ _ _ Hl Hs2 Hm) as Hl2.
    unfold ipa_table_erase_entry. rewrite (rec_store_GOTO_REC I L meta_ok) by (done || (cbn; lia)).
    cbn [mbind option_bind]. unfold t2. cbn [table_entries with_meta with_slots with_memory].
    by rewrite (proj2 (Z.ltb_ge _ _)). }
  unfold ipa_table_delete_entry, iter_at, VALID_INDEX, IPA_TABLE_INVALID_ENTRY, ptr_of, unlinked.
  cbn [prev_index prev_entry curr_index curr_entry next_index next_entry].
  destruct (decide (l_next il = 0)) as [En|Nn].
  - eexists _, _. split; [|done]. rewrite En at 1. destruct Hor as [->|]; [|done].
    cbn [Z.eqb negb mbind option_bind].
    apply (Herase (slots t1) (meta t)); [cbn; by rewrite lengthZ_updateZ|apply (wl_meta _ _ _ _ Hl)].
  - rewrite (proj2 (Z.eqb_neq (l_next il) 0)) by done. cbn [negb].
    destruct (wfc_next _ _ _ Hc _ _ Hv Nn) as (Hnb & nl & Hnl & _).
    pose proof (wfc_range _ _ _ Hc _ _ Hnl) as Hnr.
    destruct (wfc_prev _ _ _ Hc _ _ Hv Hb) as (Hp0 & pl & Hpl & _).
    pose proof (wfc_range _ _ _ Hc _ _ Hpl) as Hpr.
    apply view_Some in Hnl as (ne & Hne & _).
    destruct (tel_set_prev ne (l_next il) (l_prev il) (meta t) (table_entries t)
                (expn_table_entries t)) as (ne' & m' & Es & Hm' & _);
      [apply (wl_meta _ _ _ _ Hl)|rewrite <- (wl_tot _ _ _ _ Hl); lia|lia|].
    eexists _, m'. split; [|exists ne, ne'; split_and!; [done|done|reflexivity]].
    rewrite (wl_iface _ _ _ _ Hl1). cbn [mbind option_bind].
    change (GOTO_REC t (l_next il)) with (GOTO_REC t1 (l_next il)).
    rewrite (rec_load_GOTO_REC I L meta_ok) by done.
    cbn [slots with_slots with_memory t1]. rewrite lookupZ_updateZ_ne, Hne by done.
    cbn [mbind option_bind meta table_entries with_slots with_memory t1]. rewrite Es.
    cbn [mbind option_bind].
    change (GOTO_REC t1 (l_next il)) with (GOTO_REC (with_meta t1 m') (l_next il)).
    assert (Hl2 : wf_layout (with_meta t1 m'))
      by (apply (wf_layout_same_shape I L meta_ok t); [done|done|done]).
    rewrite (rec_store_GOTO_REC I L meta_ok) by (done || (cbn; lia)).
    cbn [mbind option_bind].
    apply (Herase (slots t1).[l_next il <- ne'] m'); [cbn; by rewrite !lengthZ_updateZ|done].
Qed.

Lemma unlinked_length t i il pe l' m' :
  unlinked t i il pe l' m' -> lengthZ l' = lengthZ (slots t).
Proof.
  unfold unlinked. case_decide; [intros [-> _]|intros (? & ? & _ & _ & ->)];
    by rewrite !lengthZ_updateZ.
Qed.

(** The facts about [unlinked] the invariants need, both cases at once. *)
Lemma unlinked_facts t i il pe l' m' :
  wf_table t -> view t i = Some il -> table_entries t <= i ->
  (slots t).[l_prev il] = Some pe -> unlinked t i il pe l' m' ->
  meta_ok m' (expn_table_entries t)
  /\ l'.[i] = Some 0
  /\ l'.[l_prev il] = Some (record_put16 pe (el_next_off L) (l_next il))
  /\ (l_next il <> 0 -> exists ne ne', (slots t).[l_next il] = Some ne
       /\ l'.[l_next il] = Some ne' /\ valid ne' = valid ne
       /\ entry_get_next_index I ne' = entry_get_next_index I ne
       /\ prev ne' (l_next il) m' (table_entries t) = Some (l_prev il)
       /\ entry_set_prev_index I ne (l_next il) (l_prev il) (meta t) (table_entries t)
          = Some (ne', m'))
  /\ (forall j, j <> i -> j <> l_prev il -> j <> l_next il \/ l_next il = 0 ->
       l'.[j] = (slots t).[j])
  /\ (forall e j, 0 <= j -> j <> l_next il \/ l_next il = 0 ->
       prev e j m' (table_entries t) = prev e j (meta t) (table_entries t)).
Proof.
  intros Hwf Hv Hb Hpe Hun. pose proof (wt_layout _ _ _ _ _ Hwf) as Hl.
  pose proof (wl_max _ _ _ _ Hl) as Hmax. unfold IPA_TABLE_MAX_ENTRIES in Hmax.
  pose proof (wl_base _ _ _ _ Hl). pose proof (wl_slots _ _ _ _ Hl) as Hsl.
  pose proof (wt_chains _ _ _ _ _ Hwf) as Hc. pose proof (wfc_range _ _ _ Hc _ _ Hv) as Hr.
  destruct (unlink_neighbours _ _ _ _ _ Hc Hv Hb) as (Hpi & Hni & Hpn).
  destruct (wfc_prev _ _ _ Hc _ _ Hv Hb) as (Hp0 & pl & Hpl & _).
  pose proof (wfc_range _ _ _ Hc _ _ Hpl) as Hpr.
  unfold unlinked in Hun. destruct (decide (l_next il = 0)) as [En|Nn].
  - destruct Hun as [-> ->]. split_and!.
    + apply (wl_meta _ _ _ _ Hl).
    + apply lookupZ_updateZ_eq. rewrite lengthZ_updateZ. lia.
    + rewrite lookupZ_updateZ_ne by done. apply lookupZ_updateZ_eq. lia.
    + done.
    + intros j H1 H2 _. by rewrite !lookupZ_updateZ_ne.
    + done.
  - destruct Hun as (ne & ne' & Hne & Es & ->).
    destruct (wfc_next _ _ _ Hc _ _ Hv Nn) as (Hnb & nl & Hnl & _).
    pose proof (wfc_range _ _ _ Hc _ _ Hnl) as Hnr.
    destruct (tel_set_prev ne (l_next il) (l_prev il) (meta t) (table_entries t)
                (expn_table_entries t)) as (e2 & m2 & Es2 & Hm2 & Hv2 & Hn2 & Hp2 & Hf2);
      [apply (wl_meta _ _ _ _ Hl)|rewrite <- (wl_tot _ _ _ _ Hl); lia|lia|].
    rewrite Es in Es2. injection Es2 as <- <-. split_and!.
    + done.
    + apply lookupZ_updateZ_eq. rewrite !lengthZ_updateZ. lia.
    + rewrite !lookupZ_updateZ_ne by done. apply lookupZ_updateZ_eq. lia.
    + intros _. exists ne, ne'. split_and!; try done. rewrite lookupZ_updateZ_ne by done.
      apply lookupZ_updateZ_eq. rewrite lengthZ_updateZ. lia.
    + intros j H1 H2 [H3|]; [|done]. by rewrite !lookupZ_updateZ_ne.
    + intros e j Hj [H3|]; [|done]. by apply Hf2.
Qed.

Lemma countZ_unlinked t i il pe l' m' a b :
  wf_table t -> view t i = Some il -> table_entries t <= i ->
  (slots t).[l_prev il] = Some pe -> unlinked t i il pe l' m' ->
  countZ valid l' a b
  = countZ valid (slots t) a b - (if decide (a <= i < b) then 1 else 0).
Proof.
  intros Hwf Hv Hb Hpe Hun.
  destruct (unlinked_facts t i il pe l' m' Hwf Hv Hb Hpe Hun) as (_ & _ & _ & Hne & _ & _).
  pose proof (wt_chains _ _ _ _ _ Hwf) as Hc.
  destruct (unlink_neighbours _ _ _ _ _ Hc Hv Hb) as (Hpi & Hni & Hpn).
  pose proof Hv as Hv'. apply view_Some in Hv' as (ei & Hei & Hvi & _).
  set (l1 := (slots t).[l_prev il <- record_put16 pe (el_next_off L) (l_next il)]).
  assert (H1 : countZ valid l1 a b = countZ valid (slots t) a b)
    by (apply (countZ_update_same _ _ _ _ _ _ pe); [done|apply tel_put_next_valid]).
  assert (Hi1 : l1.[i] = Some ei) by (unfold l1; by rewrite lookupZ_updateZ_ne).
  assert (Hfin : forall l2, l2.[i] = Some ei ->
    countZ valid l2.[i <- 0] a b = countZ valid l2 a b - (if decide (a <= i < b) then 1 else 0)).
  { intros l2 Hl2. case_decide.
    - rewrite (countZ_update_in _ _ _ _ _ _ ei) by done. rewrite tel_valid_zero, Hvi. cbn. lia.
    - rewrite countZ_update_out by done. lia. }
  unfold unlinked in Hun. destruct (decide (l_next il = 0)) as [En|Nn].
  - destruct Hun as [-> _]. fold l1. by rewrite Hfin, H1.
  - destruct Hun as (ne & ne' & Hne0 & Es & ->). fold l1.
    destruct (Hne Nn) as (ne2 & ne2' & E1 & _ & Hva & _ & _ & Es2).
    rewrite Hne0 in E1. injection E1 as <-. rewrite Es in Es2. injection Es2 as <-.
    rewrite Hfin by (by rewrite lookupZ_updateZ_ne).
    rewrite (countZ_update_same _ _ _ _ _ _ ne); [by rewrite H1| |done].
    unfold l1. by rewrite lookupZ_updateZ_ne.
Qed.

Lemma wf_table_unlinked t i il pe l' m' :
  wf_table t -> view t i = Some il -> table_entries t <= i ->
  (slots t).[l_prev il] = Some pe -> unlinked t i il pe l' m' ->
  let t' := with_expn_cnt (with_meta (with_slots t l') m') (u16 (cur_expn_tbl_cnt t - 1)) in
  wf_table t' /\ view t' ≡ chain_unlink (view t) i il.
Proof.
  intros Hwf Hv Hb Hpe Hun t'. pose proof (wt_layout _ _ _ _ _ Hwf) as Hl.
  pose proof (wl_tot _ _ _ _ Hl). pose proof (wl_max _ _ _ _ Hl) as Hmax.
  unfold IPA_TABLE_MAX_ENTRIES in Hmax. pose proof (wl_base _ _ _ _ Hl).
  pose proof (wt_chains _ _ _ _ _ Hwf) as Hc. pose proof (wfc_range _ _ _ Hc _ _ Hv) as Hr.
  pose proof (unlinked_length _ _ _ _ _ _ Hun) as Hlen.
  destruct (unlinked_facts t i il pe l' m' Hwf Hv Hb Hpe Hun)
    as (Hm & Hi0 & Hp' & Hn' & Hfr & Hpr).
  assert (Hview : view t' ≡ chain_unlink (view t) i il).
  { apply (view_unlinked t t' i il pe); try done. intros Hn0.
    destruct (Hn' Hn0) as (ne & ne' & H1 & H2 & H3 & H4 & H5 & _). by exists ne, ne'. }
  pose proof Hv as Hv'. apply view_Some in Hv' as (ei & Hei & Hvi & _).
  split; [|done]. split.
  - by apply (wf_layout_same_shape _ _ _ t).
  - cbn. intros j x Hj Hvx. destruct (decide (j = i)) as [->|Hji].
    { rewrite Hi0 in Hj. injection Hj as <-. apply tel_free_zero. }
    destruct (decide (j = l_prev il)) as [->|Hjp].
    { rewrite Hp' in Hj. injection Hj as <-. rewrite tel_put_next_valid in Hvx.
      destruct (wfc_prev _ _ _ Hc _ _ Hv Hb) as (_ & pl & Hpl & _).
      apply view_Some in Hpl as (e & He & Hve & _). congruence. }
    destruct (decide (j = l_next il /\ l_next il <> 0)) as [[-> Hn0]|Hjn].
    + destruct (Hn' Hn0) as (ne & ne' & H1 & H2 & H3 & _).
      destruct (wfc_next _ _ _ Hc _ _ Hv Hn0) as (_ & nl & Hnl & _).
      apply view_Some in Hnl as (e & He & Hve & _). congruence.
    + rewrite Hfr in Hj by (done || lia). by apply (wt_free _ _ _ _ _ Hwf j).
  - rewrite Hview. by apply wf_chain_unlink.
  - cbn. rewrite (countZ_unlinked t i il pe l' m') by done. rewrite decide_False by lia.
    rewrite (wt_cnt _ _ _ _ _ Hwf). lia.
  - cbn. rewrite (countZ_unlinked t i il pe l' m') by done. rewrite decide_True by lia.
    rewrite (wt_expn_cnt _ _ _ _ _ Hwf).
    pose proof (countZ_bound valid (slots t) (table_entries t) (tot_tbl_ents t)).
    assert (1 <= countZ valid (slots t) (table_entries t) (tot_tbl_ents t))
      by (apply (countZ_pos _ _ _ _ i ei); (done || lia)).
    rewrite u16_small; lia.
Qed.

(** ** Freeing a bucket *)

Definition removed t h : ipa_table U :=
  with_tbl_cnt (with_slots t (slots t).[h <- 0]) (u16 (cur_tbl_cnt t - 1)).

Lemma wf_table_removed t h l :
  wf_table t -> view t h = Some l -> h < table_entries t -> l_next l = 0 ->
  wf_table (removed t h) /\ view (removed t h) ≡ chain_remove (view t) h.
Proof.
  intros Hwf Hv Hh Hn. pose proof (wt_layout _ _ _ _ _ Hwf) as Hl.
  pose proof (wl_tot _ _ _ _ Hl). pose proof (wl_max _ _ _ _ Hl) as Hmax.
  unfold IPA_TABLE_MAX_ENTRIES in Hmax. pose proof (wl_expn _ _ _ _ Hl).
  pose proof (wt_chains _ _ _ _ _ Hwf) as Hc. pose proof (wfc_range _ _ _ Hc _ _ Hv) as Hr.
  pose proof (wl_slots _ _ _ _ Hl) as Hsl.
  pose proof Hv as Hv'. apply view_Some in Hv' as (e & He & Hve & _).
  assert (Hview : view (removed t h) ≡ chain_remove (view t) h).
  { intros j. unfold chain_remove. destruct (decide (h = j)) as [<-|Hj].
    - rewrite fupd_eq. apply (view_None I _ _ 0); [|apply tel_valid_zero].
      cbn. apply lookupZ_updateZ_eq. lia.
    - rewrite fupd_ne by done. apply view_frame; [|done|done]. cbn. by rewrite lookupZ_updateZ_ne. }
  split; [|done]. split.
  - apply (wf_layout_same_shape _ _ _ t); [done| |apply (wl_meta _ _ _ _ Hl)].
    repeat split; cbn; by rewrite lengthZ_updateZ.
  - cbn. apply free_update; [apply (wt_free _ _ _ _ _ Hwf)|right; apply tel_free_zero].
  - rewrite Hview. by apply (wf_chain_remove _ _ _ _ l).
  - cbn. rewrite (countZ_update_in _ _ _ _ _ _ e) by (done || lia).
    rewrite tel_valid_zero, Hve, (wt_cnt _ _ _ _ _ Hwf).
    pose proof (countZ_bound valid (slots t) 0 (table_entries t)).
    assert (1 <= countZ valid (slots t) 0 (table_entries t))
      by (apply (countZ_pos _ _ _ _ h e); (done || lia)).
    cbn. rewrite u16_small; lia.
  - cbn. rewrite countZ_update_out by lia. apply (wt_expn_cnt _ _ _ _ _ Hwf).
Qed.

Lemma delete_entry_lone t h l x :
  wf_table t -> view t h = Some l -> h < table_entries t -> l_next l = 0 ->
  ipa_table_delete_entry (with_slots t (slots t).[h <- x]) (iter_at t h l) false
  = Some (removed t h).
Proof.
  intros Hwf Hv Hh Hn. pose proof (wt_layout _ _ _ _ _ Hwf) as Hl.
  pose proof (wt_chains _ _ _ _ _ Hwf) as Hc. pose proof (wfc_range _ _ _ Hc _ _ Hv) as Hr.
  unfold ipa_table_delete_entry, iter_at. cbn [curr_index next_index]. rewrite Hn.
  cbn [VALID_INDEX negb Z.eqb IPA_TABLE_INVALID_ENTRY mbind option_bind].
  set (t1 := with_slots t _).
  assert (Hl1 : wf_layout t1).
  { apply (wf_layout_same_shape I L meta_ok t); [done| |apply (wl_meta _ _ _ _ Hl)].
    apply same_shape_with_slots. by rewrite lengthZ_updateZ. }
  unfold ipa_table_erase_entry. rewrite (rec_store_GOTO_REC I L meta_ok) by (done || (cbn; lia)).
  cbn [mbind option_bind]. unfold t1, removed. cbn.
  by rewrite (proj2 (Z.ltb_lt _ _)), updateZ_updateZ_eq by done.
Qed.

(** ** The last member takes its deleted head with it *)

Lemma delete_entry_pair t i il p x :
  wf_table t -> view t i = Some il -> table_entries t <= i -> l_next il = 0 ->
  l_prev il = p -> 0 < p < table_entries t ->
  ipa_table_delete_entry (with_slots t (slots t).[p <- x]) (iter_at t i il) true
  = Some (with_counts (with_slots t (slots t).[p <- 0].[i <- 0])
            (u16 (cur_tbl_cnt t - 1)) (u16 (cur_expn_tbl_cnt t - 1))).
Proof.
  intros Hwf Hv Hi Hn Hp Hpr. pose proof (wt_layout _ _ _ _ _ Hwf) as Hl.
  pose proof (wl_tot _ _ _ _ Hl). pose proof (wl_expn _ _ _ _ Hl).
  pose proof (wt_chains _ _ _ _ _ Hwf) as Hc. pose proof (wfc_range _ _ _ Hc _ _ Hv) as Hr.
  unfold ipa_table_delete_entry, iter_at. cbn [curr_index next_index prev_entry]. rewrite Hn, Hp.
  cbn [VALID_INDEX negb Z.eqb IPA_TABLE_INVALID_ENTRY]. unfold ptr_of.
  rewrite decide_False by lia. rewrite (GOTO_REC_not_NULL I L meta_ok) by (done || lia).
  set (t1 := with_slots t _).
  assert (Hl1 : wf_layout t1).
  { apply (wf_layout_same_shape I L meta_ok t); [done| |apply (wl_meta _ _ _ _ Hl)].
    apply same_shape_with_slots. by rewrite lengthZ_updateZ. }
  change (GOTO_REC t p) with (GOTO_REC t1 p).
  rewrite (rec_store_GOTO_REC I L meta_ok) by (done || (cbn; lia)).
  cbn [mbind option_bind]. set (t2 := with_tbl_cnt _ _).
  assert (Hl2 : wf_layout t2).
  { apply (wf_layout_same_shape I L meta_ok t1); [done| |apply (wl_meta _ _ _ _ Hl)].
    repeat split; cbn; by rewrite lengthZ_updateZ. }
  unfold ipa_table_erase_entry. rewrite (rec_store_GOTO_REC I L meta_ok) by (done || (cbn; lia)).
  cbn [mbind option_bind]. unfold t2, t1. cbn.
  by rewrite (proj2 (Z.ltb_ge _ _)), updateZ_updateZ_eq by done.
Qed.

Lemma wf_table_pair_removed t i il p :
  wf_table t -> view t i = Some il -> table_entries t <= i -> l_next il = 0 ->
  l_prev il = p -> 0 < p < table_entries t ->
  let t' := with_counts (with_slots t (slots t).[p <- 0].[i <- 0])
              (u16 (cur_tbl_cnt t - 1)) (u16 (cur_expn_tbl_cnt t - 1)) in
  wf_table t' /\ view t' ≡ chain_remove (chain_unlink (view t) i il) p.
Proof.
  intros Hwf Hv Hi Hn Hp Hpr t'. pose proof (wt_chains _ _ _ _ _ Hwf) as Hc.
  destruct (wfc_prev _ _ _ Hc _ _ Hv Hi) as (Hp0 & pl & Hpl & Hpn). rewrite Hp in *.
  destruct (proj1 (view_Some _ _ _ _) Hpl) as (pe & Hpe & _).
  set (l' := (slots t).[p <- record_put16 pe (el_next_off L) 0].[i <- 0]).
  assert (Hun : unlinked t i il pe l' (meta t)).
  { unfold unlinked. rewrite decide_True by done. by rewrite Hn, Hp. }
  rewrite <- Hp in Hpe.
  destruct (wf_table_unlinked t i il pe l' (meta t) Hwf Hv Hi Hpe Hun) as [Hwf1 Hv1].
  set (t1 := with_expn_cnt _ _) in *.
  assert (Hne : p <> i) by lia.
  assert (Hvp : view t1 p = Some (Link 0 (l_prev pl))).
  { rewrite (Hv1 p), (unlink_spec _ _ _ _ _ Hc Hv Hi p pl Hne Hpl).
    rewrite decide_True by done. rewrite Hn. by rewrite decide_False by lia. }
  destruct (wf_table_removed t1 p _ Hwf1 Hvp) as [Hwf2 Hv2]; [apply Hpr|done|].
  assert (E : removed t1 p = t').
  { unfold removed, t', t1, l'. unfold with_tbl_cnt, with_expn_cnt, with_slots. cbn.
    by rewrite (updateZ_comm _ i p), updateZ_updateZ_eq by done. }
  rewrite E in *. split; [done|]. intros j. rewrite (Hv2 j). unfold chain_remove, fupd.
  case_decide; [done|]. apply Hv1.
Qed.
End TableDelete.
