(* ===== verification/TableHandle.v ===== *)
(** * Rule handles, cleared tables, walks

    A handle encodes the memory type, whether the record is an expansion
    record, and its index in its part of the table; breaking a handle gives
    the record it was made for.

    [ipa_table_walk] over the records in use: a proof rule for callbacks that
    leave the walked table alone, whatever else they do. *)
From S2P Require Import Prelude Table Bitfield Chain TableFacts.

Definition hdl_of (nmi : Z) (is_expn : bool) (k : Z) : Z :=
  u16 (Z.lor (if is_expn then Z.lor (u16 (Z.shiftl (u16 k) IPA_TABLE_TYPE_BITS)) IPA_TABLE_TYPE_MASK
              else u16 (Z.shiftl k IPA_TABLE_TYPE_BITS))
             (Z.shiftl nmi IPA_TABLE_TYPE_MEM_SHIFT)).

Definition hdl_ok (nmi : Z) (is_expn : bool) (k : Z) : bool :=
  let h := hdl_of nmi is_expn k in
  (Z.land (Z.shiftr h IPA_TABLE_TYPE_MEM_SHIFT) IPA_TABLE_TYPE_MASK =? nmi)
  && (Z.land h IPA_TABLE_TYPE_MASK =? Z.b2z is_expn)
  && (Z.land (Z.shiftr h IPA_TABLE_TYPE_BITS) IPA_TABLE_INDX_MASK =? k).

(** All handles there are: two memory types, two parts, 4096 indices. *)
Lemma hdl_ok_all :
  forall_below (fun k => hdl_ok 0 false k && hdl_ok 0 true k && hdl_ok 1 false k && hdl_ok 1 true k)
    (Z.to_nat 4096) 0 = true.
Proof. vm_compute. reflexivity. Qed.

Lemma hdl_of_spec nmi is_expn k :
  nmi = 0 \/ nmi = 1 -> 0 <= k < 4096 -> hdl_ok nmi is_expn k = true.
Proof.
  intros Hn Hk. pose proof (forall_below_spec _ _ _ hdl_ok_all k ltac:(lia)) as H.
  cbn beta in H. rewrite !andb_true_iff in H. destruct H as (((H1 & H2) & H3) & H4).
  by destruct Hn as [->| ->], is_expn.
Qed.

Section Handles.
Context {U : Type}.
Implicit Types (t : ipa_table U).

Lemma MakeEntryHdl_hdl_of t i :
  MakeEntryHdl t i
  = if table_entries t <=? i then hdl_of (nmi t) true (i - table_entries t)
    else hdl_of (nmi t) false i.
Proof.
  unfold MakeEntryHdl, hdl_of. by destruct (table_entries t <=? i).
Qed.

Lemma break_make_hdl t i :
  nmi t = 0 \/ nmi t = 1 -> 0 < table_entries t <= 4096 ->
  0 <= expn_table_entries t <= 4096 ->
  0 <= i < table_entries t + expn_table_entries t ->
  BREAK_RULE_HDL t (MakeEntryHdl t i)
  = (nmi t, if table_entries t <=? i then 1 else 0, i).
Proof.
  intros Hn Hb He Hi. rewrite MakeEntryHdl_hdl_of. unfold BREAK_RULE_HDL.
  destruct (table_entries t <=? i) eqn:E; [apply Z.leb_le in E|apply Z.leb_gt in E].
  - pose proof (hdl_of_spec (nmi t) true (i - table_entries t) Hn ltac:(lia)) as H.
    unfold hdl_ok in H. rewrite !andb_true_iff, !Z.eqb_eq in H. destruct H as ((-> & ->) & ->).
    cbn. rewrite u16_small by lia. f_equal. lia.
  - pose proof (hdl_of_spec (nmi t) false i Hn ltac:(lia)) as H.
    unfold hdl_ok in H. rewrite !andb_true_iff, !Z.eqb_eq in H. destruct H as ((-> & ->) & ->).
    cbn. rewrite u16_small by lia. f_equal. lia.
Qed.

Lemma get_entry_make_hdl t i :
  nmi t = 0 \/ nmi t = 1 -> 0 < table_entries t <= 4096 ->
  0 <= expn_table_entries t <= 4096 ->
  tot_tbl_ents t = table_entries t + expn_table_entries t ->
  0 <= i < tot_tbl_ents t ->
  ipa_table_get_entry t (MakeEntryHdl t i) = (0, Some (GOTO_REC t i, i)).
Proof.
  intros Hn Hb He Ht Hi. unfold ipa_table_get_entry.
  rewrite break_make_hdl by (done || lia). by rewrite (proj2 (Z.leb_gt _ _)) by lia.
Qed.

(** A handle is never the invalid handle but for record 0 in DDR. *)
Lemma MakeEntryHdl_valid t i :
  nmi t = 0 \/ nmi t = 1 -> 0 < table_entries t <= 4096 ->
  0 <= expn_table_entries t <= 4096 ->
  0 < i < table_entries t + expn_table_entries t ->
  VALID_RULE_HDL (MakeEntryHdl t i) = true.
Proof.
  intros Hn Hb He Hi. unfold VALID_RULE_HDL, IPA_TABLE_INVALID_ENTRY.
  destruct (Z.eqb_spec (MakeEntryHdl t i) 0) as [E|E]; [|done].
  pose proof (break_make_hdl t i Hn Hb He ltac:(lia)) as H. rewrite E in H.
  unfold BREAK_RULE_HDL in H. cbn in H. injection H as _ H1 H2.
  destruct (table_entries t <=? i); [done|]. vm_compute in H2. lia.
Qed.
End Handles.

(** ** Clearing a table, and the empty table

    [ipa_table_reset] clears every record of the table; a cleared table with
    counters zero is well formed. *)

Section TableReset.
Context {U : Type} (I : ipa_table_entry_interface U) (L : entry_layout)
  (free_ok : Z -> Prop) (meta_ok : option (list Z) -> Z -> Prop)
  {laws : TableEntryLaws I L free_ok meta_ok}.
Implicit Types (t : ipa_table U).

(** What the addressing of a table's records needs. *)
Record wf_memory t : Prop := {
  wm_esz : 0 < entry_size t;
  wm_base : 0 <= table_entries t;
  wm_expn : 0 <= expn_table_entries t;
  wm_slots : lengthZ (slots t) = table_entries t + expn_table_entries t;
  wm_expn_addr : expn_table_addr t = table_addr t + entry_size t * table_entries t
}.

Lemma zero_records_spec n t j :
  0 < entry_size t -> 0 <= j -> j + Z.of_nat n <= lengthZ (slots t) ->
  exists l, zero_records n (GOTO_REC t j) t = Some (with_slots t l)
    /\ lengthZ l = lengthZ (slots t)
    /\ (forall k, l.[k] = if decide (j <= k < j + Z.of_nat n) then Some 0 else (slots t).[k]).
Proof.
  revert t j. induction n as [|n IH]; intros t j Hs Hj Hn.
  - exists (slots t). cbn [zero_records]. split_and!; [by destruct t|done|].
    intros k. by rewrite decide_False by lia.
  - cbn [zero_records].
    assert (E : rec_store t (GOTO_REC t j) 0 = Some (with_slots t (slots t).[j <- 0])).
    { unfold rec_store, rec_slot, GOTO_REC.
      replace (table_addr t + j * entry_size t - table_addr t) with (j * entry_size t) by lia.
      rewrite decide_True by (split; [done|apply Z_mod_mult]). rewrite Z.div_mul by lia. cbn.
      rewrite storeZ_Some by lia. done. }
    rewrite E. cbn [mbind option_bind].
    replace (GOTO_REC t j + entry_size t) with (GOTO_REC (with_slots t (slots t).[j <- 0]) (j + 1))
      by (unfold GOTO_REC; cbn; lia).
    destruct (IH (with_slots t (slots t).[j <- 0]) (j + 1)) as (l & El & Hlen & Hk);
      [done|lia|cbn; rewrite lengthZ_updateZ; lia|].
    exists l. split_and!.
    + rewrite El. done.
    + rewrite Hlen. cbn. by rewrite lengthZ_updateZ.
    + intros k. rewrite Hk. cbn. destruct (decide (k = j)) as [->|Hne].
      * rewrite decide_False, decide_True by lia. apply lookupZ_updateZ_eq. lia.
      * rewrite lookupZ_updateZ_ne by done. repeat case_decide; (done || lia).
Qed.

(** Every record is cleared, nothing else changes. *)
Lemma reset_spec t :
  wf_memory t ->
  ipa_table_reset t
  = Some (with_slots t (replicate (Z.to_nat (table_entries t + expn_table_entries t)) 0)).
Proof.
  intros [H1 H2 H3 H4 H5]. unfold ipa_table_reset.
  replace (table_addr t) with (GOTO_REC t 0) by (unfold GOTO_REC; lia).
  destruct (zero_records_spec (Z.to_nat (table_entries t)) t 0) as (l & El & Hlen & Hk); [lia..|].
  rewrite El. cbn [mbind option_bind].
  replace (expn_table_addr t) with (GOTO_REC (with_slots t l) (table_entries t))
    by (rewrite H5; unfold GOTO_REC; cbn; ring).
  destruct (zero_records_spec (Z.to_nat (expn_table_entries t)) (with_slots t l) (table_entries t))
    as (l' & El' & Hlen' & Hk'); [done|lia|cbn; lia|].
  rewrite El'. f_equal. unfold with_slots. cbn. f_equal.
  apply lookupZ_ext.
  - rewrite Hlen'. cbn. rewrite Hlen, H4. unfold lengthZ. rewrite length_replicate. lia.
  - intros k Hr. rewrite Hlen' in Hr. cbn in Hr. rewrite Hlen, H4 in Hr.
    assert (E : (replicate (Z.to_nat (table_entries t + expn_table_entries t)) 0).[k] = Some 0)
      by (unfold lookupZ; rewrite decide_True by lia; apply lookup_replicate_2; lia).
    rewrite E, Hk'. cbn. rewrite Hk. repeat case_decide; (done || lia).
Qed.

Lemma countZ_replicate_zero n a b : countZ (entry_is_valid I) (replicate n 0) a b = 0.
Proof.
  unfold countZ. generalize (Z.to_nat (b - a)) as m. intros m. revert a.
  induction m as [|m IH]; intros a; [done|]. cbn [count_from]. rewrite IH.
  unfold lookupZ. case_decide; [|done].
  destruct (replicate n 0 !! Z.to_nat a) as [y|] eqn:E; [|done].
  apply lookup_replicate in E as [-> _]. by rewrite tel_valid_zero.
Qed.

(** A cleared table is well formed and has no record in use. *)
Lemma wf_table_empty t :
  wf_layout I L meta_ok t -> slots t = replicate (Z.to_nat (tot_tbl_ents t)) 0 ->
  cur_tbl_cnt t = 0 -> cur_expn_tbl_cnt t = 0 ->
  wf_table I L free_ok meta_ok t /\ (forall i, view I t i = None).
Proof.
  intros Hl Hs H1 H2.
  assert (Hz : forall i e, (slots t).[i] = Some e -> e = 0).
  { intros i e. rewrite Hs. unfold lookupZ. case_decide; [|done].
    intros [-> _]%lookup_replicate. done. }
  assert (Hv : forall i, view I t i = None).
  { intros i. unfold view. destruct ((slots t).[i]) as [e|] eqn:E; [|done].
    by rewrite (Hz i e E), tel_valid_zero. }
  split; [|done]. split.
  - done.
  - intros i e He _. rewrite (Hz i e He). apply tel_free_zero.
  - split; intros i l; by rewrite Hv.
  - by rewrite Hs, countZ_replicate_zero.
  - by rewrite Hs, countZ_replicate_zero.
Qed.
End TableReset.

Section TableWalk.
Context {U St : Type} (I : ipa_table_entry_interface U) (L : entry_layout)
  (meta_ok : option (list Z) -> Z -> Prop).
Context (get : St -> ipa_table U) (cb : ipa_table_walk_cb U St) (t : ipa_table U)
  (P : Z -> St -> Prop) (Q : Z -> St -> Prop).
Hypothesis (Hl : wf_layout I L meta_ok t)
  (Hget : forall i s, P i s -> get s = t)
  (Hskip : forall i e s, 0 <= i < tot_tbl_ents t -> (slots t).[i] = Some e ->
     entry_is_valid I e = false -> P i s -> P (i + 1) s)
  (Hcb : forall i e mp mi s, 0 <= i < tot_tbl_ents t -> (slots t).[i] = Some e ->
     entry_is_valid I e = true -> P i s ->
     exists ret s', cb t (MakeEntryHdl t i) (GOTO_REC t i) i mp mi s = Some (ret, s')
       /\ (ret = 0 -> P (i + 1) s') /\ (ret <> 0 -> Q ret s')).

Lemma walk_loop_filled fuel i s :
  0 <= i <= tot_tbl_ents t -> tot_tbl_ents t - i < Z.of_nat fuel -> P i s ->
  exists ret s',
    walk_loop get (tot_tbl_ents t) WHEN_SLOT_FILLED cb fuel i (GOTO_REC t i) s = Some (ret, s')
    /\ ((ret = 0 /\ P (tot_tbl_ents t) s') \/ (ret <> 0 /\ Q ret s')).
Proof.
  pose proof (wl_max _ _ _ _ Hl) as Hmax. unfold IPA_TABLE_MAX_ENTRIES in Hmax.
  revert i s. induction fuel as [|fuel IH]; intros i s Hi Hf Hp; [lia|].
  cbn [walk_loop]. destruct (decide (tot_tbl_ents t <= i)) as [Hge|Hlt].
  { rewrite (proj2 (Z.leb_le _ _)) by done. replace i with (tot_tbl_ents t) in Hp by lia.
    exists 0, s. split; [done|]. by left. }
  rewrite (proj2 (Z.leb_gt _ _)) by lia. rewrite (Hget i s Hp), (wl_iface _ _ _ _ Hl).
  cbn [mbind option_bind]. rewrite (rec_load_GOTO_REC I L meta_ok) by done.
  destruct (record_in_range I L meta_ok t i Hl) as [e He]; [lia|].
  rewrite He. cbn [mbind option_bind].
  assert (Hnext : forall s', P (i + 1) s' ->
    exists ret s'', walk_loop get (tot_tbl_ents t) WHEN_SLOT_FILLED cb fuel (u16 (i + 1))
        (GOTO_REC t i + entry_size (get s')) s' = Some (ret, s'')
      /\ ((ret = 0 /\ P (tot_tbl_ents t) s'') \/ (ret <> 0 /\ Q ret s''))).
  { intros s' Hp'. rewrite (Hget _ _ Hp'), u16_small by lia.
    replace (GOTO_REC t i + entry_size t) with (GOTO_REC t (i + 1)) by (unfold GOTO_REC; lia).
    apply IH; (done || lia). }
  destruct (entry_is_valid I e) eqn:Ev.
  - destruct (match meta t with Some _ => _ | None => _ end) as [mp mi].
    destruct (Hcb i e mp mi s) as (ret & s' & Ec & H0 & H1); [lia|done|done|done|].
    rewrite Ec. cbn [mbind option_bind]. destruct (Z.eqb_spec ret 0) as [->|Hne]; cbn [negb].
    + apply Hnext. by apply H0.
    + exists ret, s'. split; [done|]. right. auto.
  - pose proof (Hnext s (Hskip i e s ltac:(lia) He Ev Hp)) as H.
    by rewrite (Hget i s Hp) in H.
Qed.

Lemma walk_filled s :
  P 0 s ->
  exists ret s', ipa_table_walk get 0 WHEN_SLOT_FILLED cb s = Some (ret, s')
    /\ ((ret = 0 /\ P (tot_tbl_ents t) s') \/ (ret <> 0 /\ Q ret s')).
Proof.
  intros Hp. unfold ipa_table_walk. cbn [VALID_WHEN2CALLBACK negb]. rewrite (Hget 0 s Hp).
  pose proof (wl_tot _ _ _ _ Hl) as Ht. pose proof (wl_base _ _ _ _ Hl).
  pose proof (wl_expn _ _ _ _ Hl). rewrite <- Ht, (proj2 (Z.leb_gt _ _)) by lia.
  apply walk_loop_filled; [lia|lia|done].
Qed.
End TableWalk.
