(* ===== verification/TableHold.v ===== *)
(** * Tables with place holders

    A deleted rule that heads a chain with members cannot be erased: the
    hardware reaches the members through it.  It stays as a place holder that
    matches no packet, until the last member takes it away.  The NAT table and
    the IPv6 connection tracking table delete their rules this way; what both
    rely on is the class [HolderLaws]. *)
From S2P Require Import Prelude Bitfield Chain Table TableFacts TableDma TableInsert TableDelete.
From S2P Require Import TableHandle.

(** [dead] recognises place holders; [same] says what a change of its
    neighbours leaves of a record. *)
Class HolderLaws {U : Type} (I : ipa_table_entry_interface U) (L : entry_layout)
    (dead : Z -> bool) (same : Z -> Z -> Prop) : Prop := {
  hl_refl x : same x x;
  hl_live x x' :
    same x x' -> entry_is_valid I x' = entry_is_valid I x /\ dead x' = dead x;
  hl_put_next x n : same x (record_put16 x (el_next_off L) n);
  hl_set_prev x i p m base x' m' :
    entry_set_prev_index I x i p m base = Some (x', m') -> same x x';
  (** the word that turns a head into a place holder *)
  hl_put_del_dead x c n :
    dead (record_put16 x (el_del_off L) (entry_get_delete_head_dma_command_data I c n)) = true;
  hl_put_del_valid x d :
    entry_is_valid I (record_put16 x (el_del_off L) d) = entry_is_valid I x;
  hl_put_del_next x d :
    entry_get_next_index I (record_put16 x (el_del_off L) d) = entry_get_next_index I x;
  hl_put_del_prev x d i m base :
    entry_get_prev_index I (record_put16 x (el_del_off L) d) i m base
    = entry_get_prev_index I x i m base
}.

(** The erasure at the end of a deletion, as its two callers write it. *)
Definition hold_delete_step {U} (dead : Z -> bool) (t : ipa_table U) (it : ipa_table_iterator)
    : option (ipa_table U) :=
  if negb (ipa_table_iterator_is_head_with_tail it) then
    is_prev_empty ←
      (if prev_entry it =? NULL then Some false
       else prev ← rec_load t (prev_entry it); Some (dead prev));
    ipa_table_delete_entry t it is_prev_empty
  else Some t.

Section Holder.
Context {U : Type} (I : ipa_table_entry_interface U) (L : entry_layout)
  (free_ok : Z -> Prop) (meta_ok : option (list Z) -> Z -> Prop)
  (dead : Z -> bool) (same : Z -> Z -> Prop)
  {laws : TableEntryLaws I L free_ok meta_ok} {hlaws : HolderLaws I L dead same}.
Context (bt et : ipa_table_dma_type) (Hbe : bt <> et).
Implicit Types (t : ipa_table U) (e i : Z).

Abbreviation valid := (entry_is_valid I).
Abbreviation next := (entry_get_next_index I).
Abbreviation view := (view I).
Abbreviation wf_table := (wf_table I L free_ok meta_ok).
Abbreviation wf_layout := (wf_layout I L meta_ok).
Abbreviation delete_one := (delete_one I L bt et).

(** Place holders head a chain with members. *)
Definition dead_ok t : Prop :=
  forall i e, (slots t).[i] = Some e -> valid e = true -> dead e = true ->
    i < table_entries t /\ next e <> 0.

(** Record [i] of the table holds the rule [e]. *)
Definition live_in t i e : Prop :=
  (slots t).[i] = Some e /\ valid e = true /\ dead e = false.

(** [t'] is [t] without the rule [i]. *)
Definition deleted t t' i : Prop :=
  wf_table t' /\ same_shape t t' /\ dead_ok t'
  /\ (forall x, ~ live_in t' i x)
  /\ (forall k x, k <> i -> live_in t k x -> exists x', live_in t' k x' /\ same x x')
  /\ (forall k x', k <> i -> live_in t' k x' -> exists x, live_in t k x /\ same x x').

(** The records after a deletion: each other record is as before up to its
    links. *)
Definition nearly_same i (l l' : list Z) : Prop :=
  forall k, k <> i ->
    match l.[k], l'.[k] with
    | Some x, Some x' => same x x' \/ (x' = 0 /\ dead x = true)
    | None, None => True
    | _, _ => False
    end.

Lemma nearly_same_deleted t t' i :
  wf_table t' -> same_shape t t' -> dead_ok t' ->
  (forall x, ~ live_in t' i x) -> nearly_same i (slots t) (slots t') ->
  deleted t t' i.
Proof.
  intros Hwf Hs Hd Hi Hn. split_and!; try done.
  - intros k x Hk (Hx & Hv & Hdx). specialize (Hn k Hk). rewrite Hx in Hn.
    destruct ((slots t').[k]) as [x'|] eqn:E; [|done]. destruct Hn as [Hs'|[_ ?]]; [|congruence].
    exists x'. destruct (hl_live _ _ Hs') as (E1 & E2).
    split; [|done]. split; [done|]. by rewrite E1, E2.
  - intros k x' Hk (Hx & Hv & Hdx). specialize (Hn k Hk). rewrite Hx in Hn.
    destruct ((slots t).[k]) as [x|] eqn:E; [|done]. destruct Hn as [Hs'|[-> ?]].
    + exists x. destruct (hl_live _ _ Hs') as (E1 & E2).
      split; [|done]. split; [done|]. by rewrite <- E1, <- E2.
    + by rewrite tel_valid_zero in Hv.
Qed.

(** A record the deletion erased. *)
Lemma not_live_zero t i x : (slots t).[i] = Some 0 -> ~ live_in t i x.
Proof. intros H0 (Hx & Hv & _). rewrite H0 in Hx. injection Hx as <-. by rewrite tel_valid_zero in Hv. Qed.

Section Delete.
Context (t : ipa_table U) (i e : Z) (il : link).
Hypothesis (Hwf : wf_table t) (Hv : view t i = Some il)
  (He : (slots t).[i] = Some e) (Hdead : dead_ok t).

Let Hl : wf_layout t := wt_layout _ _ _ _ _ Hwf.
Let Hc := wt_chains _ _ _ _ _ Hwf.

(** What a deletion does: the entry takes effect, then the step. *)
Definition deletes : Prop :=
  exists t1 t', table_apply_one bt et (delete_one t i il) t = Some t1
    /\ hold_delete_step dead t1 (iter_at t i il) = Some t' /\ deleted t t' i.

Lemma head_is_base : l_prev il = 0 -> i < table_entries t.
Proof.
  intros Hp. destruct (decide (i < table_entries t)); [done|].
  by destruct (wfc_prev _ _ _ Hc _ _ Hv) as (? & _); [lia|].
Qed.

Lemma del_offsets :
  0 <= el_head_off L < entry_size t /\ 0 <= el_next_off L < entry_size t
  /\ 0 <= el_del_off L < entry_size t.
Proof. rewrite (wl_entry_size _ _ _ _ Hl). apply tel_offsets. Qed.

(** A lone head. *)
Lemma delete_lone : l_prev il = 0 -> l_next il = 0 -> deletes.
Proof.
  intros Hp Hn. pose proof (head_is_base Hp) as Hb. pose proof del_offsets as (Ho & _).
  eexists _, (removed t i). split.
  { unfold TableDelete.delete_one. rewrite decide_True, decide_True by done.
    by apply (apply_the_one I L meta_ok). }
  split.
  { unfold hold_delete_step, ipa_table_iterator_is_head_with_tail, iter_at.
    cbn [next_index prev_index prev_entry]. unfold ptr_of. rewrite Hn, Hp.
    cbn [VALID_INDEX Z.eqb negb IPA_TABLE_INVALID_ENTRY andb].
    rewrite decide_True by done. cbn [Z.eqb NULL mbind option_bind].
    pose proof (delete_entry_lone I L free_ok meta_ok t i il
      (record_put16 e (el_head_off L) 0) Hwf Hv Hb Hn) as E.
    unfold iter_at, ptr_of in E. rewrite Hn, Hp in E. exact E. }
  destruct (wf_table_removed I L free_ok meta_ok t i il Hwf Hv Hb Hn) as [Hwf' _].
  assert (H0 : (slots (removed t i)).[i] = Some 0)
    by (cbn; apply lookupZ_updateZ_eq; by eapply lookupZ_Some_range).
  apply nearly_same_deleted; [done| | |by intros x; apply not_live_zero|].
  - repeat split; cbn; by rewrite lengthZ_updateZ.
  - intros k x Hx Hvx Hdx. destruct (decide (i = k)) as [<-|Hk].
    { rewrite H0 in Hx. injection Hx as <-. by rewrite tel_valid_zero in Hvx. }
    cbn in Hx. rewrite lookupZ_updateZ_ne in Hx by done. by apply (Hdead k x).
  - intros k Hk. cbn. rewrite lookupZ_updateZ_ne by done.
    destruct ((slots t).[k]); [|done]. left. apply hl_refl.
Qed.

(** A head with members becomes a place holder. *)
Lemma delete_head : l_prev il = 0 -> l_next il <> 0 -> deletes.
Proof.
  intros Hp Hn. pose proof (head_is_base Hp) as Hb. pose proof del_offsets as (_ & _ & Ho).
  destruct (wfc_next _ _ _ Hc _ _ Hv Hn) as (_ & nl & Hnl & _).
  apply view_Some in Hnl as (en & Hen & _).
  destruct (proj1 (view_Some _ _ _ _) Hv) as (e0 & He0 & Hve & Hnx & _).
  rewrite He in He0. injection He0 as <-.
  set (e' := record_put16 e (el_del_off L) (entry_get_delete_head_dma_command_data I e en)).
  set (t1 := with_slots t (slots t).[i <- e']). exists t1, t1. split.
  { unfold TableDelete.delete_one. rewrite decide_True, decide_False, He, Hen by done.
    by apply (apply_the_one I L meta_ok). }
  split.
  { unfold hold_delete_step, ipa_table_iterator_is_head_with_tail, iter_at, VALID_INDEX.
    cbn [next_index prev_index]. rewrite Hp. rewrite (proj2 (Z.eqb_neq _ _)) by done. done. }
  destruct (wf_table_rewrite I L free_ok meta_ok t i e e') as [Hwf' _]; try done.
  { unfold e'. by rewrite hl_put_del_valid. }
  { apply hl_put_del_next. }
  { apply hl_put_del_prev. }
  assert (Hi1 : (slots t1).[i] = Some e')
    by (cbn; apply lookupZ_updateZ_eq; by eapply lookupZ_Some_range).
  apply nearly_same_deleted; [done| | | |].
  - apply same_shape_with_slots. by rewrite lengthZ_updateZ.
  - intros k x Hx Hvx Hdx. destruct (decide (i = k)) as [<-|Hk].
    { rewrite Hi1 in Hx. injection Hx as <-. split; [done|]. unfold e'.
      rewrite hl_put_del_next, <- Hnx. done. }
    cbn in Hx. rewrite lookupZ_updateZ_ne in Hx by done. by apply (Hdead k x).
  - intros x (Hx & Hvx & Hdx). rewrite Hi1 in Hx. injection Hx as <-.
    unfold e' in Hdx. by rewrite hl_put_del_dead in Hdx.
  - intros k Hk. cbn. rewrite lookupZ_updateZ_ne by done.
    destruct ((slots t).[k]); [|done]. left. apply hl_refl.
Qed.

Section Member.
Context (pe : Z).
Hypothesis (Hb : table_entries t <= i) (Hpe : (slots t).[l_prev il] = Some pe).

Lemma delete_member_step :
  exists t1, table_apply_one bt et (delete_one t i il) t = Some t1
  /\ t1 = with_slots t (slots t).[l_prev il <- record_put16 pe (el_next_off L) (l_next il)]
  /\ hold_delete_step dead t1 (iter_at t i il) = ipa_table_delete_entry t1 (iter_at t i il) (dead pe).
Proof.
  destruct (wfc_prev _ _ _ Hc _ _ Hv Hb) as (Hp0 & pl & Hpl & _).
  pose proof (wfc_range _ _ _ Hc _ _ Hpl) as Hpr. pose proof del_offsets as (_ & Ho & _).
  eexists. split; [|split; [reflexivity|]].
  { unfold TableDelete.delete_one. rewrite decide_False by done. by apply (apply_the_one I L meta_ok). }
  unfold hold_delete_step, ipa_table_iterator_is_head_with_tail, iter_at, VALID_INDEX,
    IPA_TABLE_INVALID_ENTRY.
  cbn [next_index prev_index prev_entry]. rewrite (proj2 (Z.eqb_neq (l_prev il) 0)) by done.
  cbn [negb]. rewrite andb_false_r. cbn [negb].
  assert (Eptr : ptr_of t (l_prev il) = GOTO_REC t (l_prev il))
    by (unfold ptr_of; by rewrite decide_False).
  rewrite Eptr. rewrite (GOTO_REC_not_NULL I L meta_ok) by (done || lia).
  set (t1 := with_slots t _). change (GOTO_REC t (l_prev il)) with (GOTO_REC t1 (l_prev il)).
  assert (Hl1 : wf_layout t1).
  { apply (wf_layout_same_shape _ _ _ t); [done| |apply (wl_meta _ _ _ _ Hl)].
    apply same_shape_with_slots. by rewrite lengthZ_updateZ. }
  rewrite (rec_load_GOTO_REC I L meta_ok) by done. cbn [slots t1 with_slots with_memory].
  rewrite lookupZ_updateZ_eq by (by eapply lookupZ_Some_range). cbn [mbind option_bind].
  f_equal. apply (hl_live _ _ (hl_put_next pe (l_next il))).
Qed.

(** A member whose predecessor stays. *)
Lemma delete_member : dead pe = false \/ l_next il <> 0 -> deletes.
Proof.
  intros Hor. destruct delete_member_step as (t1 & E1 & -> & E2).
  destruct (delete_entry_member I L free_ok meta_ok t i il pe (dead pe)
    Hwf Hv Hb Hpe Hor) as (l' & m' & E3 & Hun).
  eexists _, _. split; [exact E1|]. rewrite E2. split; [exact E3|].
  destruct (wf_table_unlinked I L free_ok meta_ok t i il pe l' m' Hwf Hv Hb Hpe Hun) as [Hwf' _].
  destruct (unlinked_facts I L free_ok meta_ok t i il pe l' m' Hwf Hv Hb Hpe Hun)
    as (_ & Hi0 & Hp' & Hn' & Hfr & _).
  pose proof (unlinked_length _ _ _ _ _ _ _ _ Hun) as Hlen.
  assert (Hnear : forall k, k <> i ->
    match (slots t).[k], l'.[k] with
    | Some x, Some x' => same x x' /\ (k <> l_prev il -> next x' = next x)
    | None, None => True | _, _ => False end).
  { intros k Hk. destruct (decide (k = l_prev il)) as [->|Hkp].
    { rewrite Hpe, Hp'. split; [apply hl_put_next|done]. }
    destruct (decide (k = l_next il /\ l_next il <> 0)) as [[-> Hn0]|Hkn].
    { destruct (Hn' Hn0) as (ne & ne' & -> & -> & _ & Hnx & _ & Es).
      split; [by eapply hl_set_prev|]. intros _. exact Hnx. }
    rewrite Hfr by (done || lia). destruct ((slots t).[k]); [|done].
    split; [apply hl_refl|done]. }
  apply nearly_same_deleted; [done|by repeat split| |by intros x; apply not_live_zero|].
  - intros k x Hx Hvx Hdx. cbn in Hx. destruct (decide (k = i)) as [->|Hk].
    { rewrite Hi0 in Hx. injection Hx as <-. by rewrite tel_valid_zero in Hvx. }
    specialize (Hnear k Hk). rewrite Hx in Hnear.
    destruct ((slots t).[k]) as [y|] eqn:Ey; [|done]. destruct Hnear as [Hs Hnx].
    destruct (hl_live _ _ Hs) as (E4 & E5).
    destruct (Hdead k y Ey) as [H1 H2]; [congruence|congruence|]. split; [done|].
    destruct (decide (k = l_prev il)) as [->|Hkp]; [|by rewrite Hnx].
    rewrite Hpe in Ey. injection Ey as <-. rewrite Hp' in Hx. injection Hx as <-.
    destruct Hor as [Hdp|Hn0]; [congruence|]. rewrite tel_put_next_next.
    apply view_Some in Hv as (ei & _ & _ & Hni & _). cbn in Hni.
    pose proof (tel_next_range ei). rewrite u16_small; lia.
  - intros k Hk. specialize (Hnear k Hk). cbn.
    destruct ((slots t).[k]), (l'.[k]); try done. left. apply Hnear.
Qed.

(** The last member of a place holder takes it along. *)
Lemma delete_pair : dead pe = true -> l_next il = 0 -> deletes.
Proof.
  intros Hdp Hn. destruct delete_member_step as (t1 & E1 & -> & E2).
  destruct (wfc_prev _ _ _ Hc _ _ Hv Hb) as (Hp0 & pl & Hpl & _).
  pose proof (wfc_range _ _ _ Hc _ _ Hpl) as Hpr.
  apply view_Some in Hpl as (pe' & Hpe' & Hvp & _). rewrite Hpe in Hpe'. injection Hpe' as <-.
  destruct (Hdead _ _ Hpe Hvp Hdp) as [Hpb _].
  eexists _, _. split; [exact E1|]. rewrite E2, Hdp.
  split; [rewrite (delete_entry_pair I L free_ok meta_ok t i il (l_prev il));
          [reflexivity|done|done|done|done|done|lia]|].
  destruct (wf_table_pair_removed I L free_ok meta_ok t i il (l_prev il)) as [Hwf' _];
    try done; [lia|].
  assert (Hir : 0 <= i < lengthZ (slots t)) by (by eapply lookupZ_Some_range).
  assert (Hi0 : (slots t).[l_prev il <- 0].[i <- 0].[i] = Some 0)
    by (apply lookupZ_updateZ_eq; by rewrite lengthZ_updateZ).
  assert (Hpp : (slots t).[l_prev il <- 0].[i <- 0].[l_prev il] = Some 0).
  { rewrite lookupZ_updateZ_ne by lia. apply lookupZ_updateZ_eq.
    by eapply lookupZ_Some_range. }
  apply nearly_same_deleted; [done| | |by intros x; apply not_live_zero|].
  - repeat split; cbn; by rewrite !lengthZ_updateZ.
  - intros k x Hx Hvx Hdx. cbn in Hx. destruct (decide (k = i)) as [->|Hk];
      [rewrite Hi0 in Hx; injection Hx as <-; by rewrite tel_valid_zero in Hvx|].
    destruct (decide (k = l_prev il)) as [->|Hkp];
      [rewrite Hpp in Hx; injection Hx as <-; by rewrite tel_valid_zero in Hvx|].
    rewrite !lookupZ_updateZ_ne in Hx by done. by apply (Hdead k x).
  - intros k Hk. cbn. destruct (decide (k = l_prev il)) as [->|Hkp].
    { rewrite Hpe, Hpp. by right. }
    rewrite !lookupZ_updateZ_ne by done. destruct ((slots t).[k]); [|done].
    left. apply hl_refl.
Qed.
End Member.

(** Every case. *)
Lemma delete_all : deletes.
Proof.
  destruct (decide (i < table_entries t)) as [Hlt|Hge].
  - pose proof (wfc_base _ _ _ Hc _ _ Hv Hlt) as Hp.
    destruct (decide (l_next il = 0)); [by apply delete_lone|by apply delete_head].
  - assert (Hb : table_entries t <= i) by lia.
    destruct (wfc_prev _ _ _ Hc _ _ Hv Hb) as (_ & pl & Hpl & _).
    apply view_Some in Hpl as (pe & Hpe & _).
    destruct (dead pe) eqn:Ed; [destruct (decide (l_next il = 0)) as [En|En]|].
    + by apply (delete_pair pe).
    + apply (delete_member pe); auto.
    + apply (delete_member pe); auto.
Qed.
End Delete.
End Holder.

(** ** The map of a table: from rule handles to rules

    [table_rules] forgets chains, place holders and free records: a table with
    place holders is a finite map from handles to what its records say.
    Inserting a record inserts into the map, deleting a record deletes from
    it, and rewriting a free record changes nothing. *)

Section TableRules.
Context {U F : Type} (I : ipa_table_entry_interface U) (L : entry_layout)
  (free_ok : Z -> Prop) (meta_ok : option (list Z) -> Z -> Prop)
  (dead : Z -> bool) (same : Z -> Z -> Prop) (decode : Z -> F)
  {laws : TableEntryLaws I L free_ok meta_ok} {hlaws : HolderLaws I L dead same}.
Implicit Types (t : ipa_table U) (i e n : Z) (h : Z) (link : option (Z * Z)).

Abbreviation valid := (entry_is_valid I).
Abbreviation view := (view I).
Abbreviation wf_table := (wf_table I L free_ok meta_ok).
Abbreviation wf_layout := (wf_layout I L meta_ok).
Abbreviation live_in := (live_in I dead).
Abbreviation dead_ok := (dead_ok I dead).

(** Record indices fit the handles. *)
Definition hdl_fits t : Prop :=
  table_entries t <= 4096 /\ expn_table_entries t <= 4096 /\ (nmi t = 0 \/ nmi t = 1).

Lemma hdl_fits_shape t t' : same_shape t t' -> hdl_fits t -> hdl_fits t'.
Proof. unfold hdl_fits. by intros (_ & -> & -> & _ & _ & _ & _ & _ & -> & _). Qed.

Definition table_rule_at t i : option (Z * F) :=
  e ← (slots t).[i];
  if valid e && negb (dead e) then Some (MakeEntryHdl t i, decode e) else None.

Definition table_rules t : gmap Z F :=
  list_to_map (omap (table_rule_at t) (seqZ 0 (lengthZ (slots t)))).

Lemma table_rule_at_live t i p :
  table_rule_at t i = Some p <-> exists e, live_in t i e /\ p = (MakeEntryHdl t i, decode e).
Proof.
  unfold table_rule_at, TableHold.live_in. destruct ((slots t).[i]) as [e|]; cbn [mbind option_bind].
  - destruct (valid e) eqn:Ev, (dead e) eqn:Ed; cbn [andb negb].
    all: split; [intros [= <-]; by exists e|intros (e' & ([= <-] & ? & ?) & ->); congruence].
  - split; [done|]. by intros (e & (? & _) & _).
Qed.

Lemma record_range t i e :
  wf_layout t -> (slots t).[i] = Some e -> 0 <= i < table_entries t + expn_table_entries t.
Proof.
  intros Hl He. apply lookupZ_Some_range in He. rewrite (wl_slots _ _ _ _ Hl) in He.
  by rewrite <- (wl_tot _ _ _ _ Hl).
Qed.

Lemma table_hdl_inj t i j ei ej :
  wf_layout t -> hdl_fits t -> (slots t).[i] = Some ei -> (slots t).[j] = Some ej ->
  MakeEntryHdl t i = MakeEntryHdl t j -> i = j.
Proof.
  intros Hl (B1 & B2 & B3) Hi Hj E. pose proof (wl_base _ _ _ _ Hl). pose proof (wl_expn _ _ _ _ Hl).
  pose proof (record_range _ _ _ Hl Hi). pose proof (record_range _ _ _ Hl Hj).
  pose proof (break_make_hdl t i B3 ltac:(lia) ltac:(lia) ltac:(lia)) as Ei.
  rewrite E, break_make_hdl in Ei by (done || lia). congruence.
Qed.

Lemma live_in_unique t i e e' : live_in t i e -> live_in t i e' -> e = e'.
Proof. intros (H & _) (H' & _). congruence. Qed.

Lemma lookup_table_rules t h v :
  wf_layout t -> hdl_fits t ->
  table_rules t !! h = Some v
  <-> exists i e, live_in t i e /\ h = MakeEntryHdl t i /\ v = decode e.
Proof.
  intros Hl Hf. unfold table_rules. split.
  - intros H. apply elem_of_list_to_map_2 in H. apply list_elem_of_omap in H as (i & _ & Hi).
    apply table_rule_at_live in Hi as (e & He & [= -> ->]). by exists i, e.
  - intros (i & e & He & -> & ->). apply elem_of_list_to_map_1'.
    + intros w Hw. apply list_elem_of_omap in Hw as (j & _ & Hj).
      apply table_rule_at_live in Hj as (ej & Hej & [= E ->]).
      assert (i = j) as <- by (eapply table_hdl_inj; [done|done|apply He|apply Hej|done]).
      by rewrite (live_in_unique _ _ _ _ He Hej).
    + apply list_elem_of_omap. exists i. split.
      * apply elem_of_seqZ. destruct He as (He & _). apply lookupZ_Some_range in He. lia.
      * apply table_rule_at_live. by exists e.
Qed.

Lemma table_rules_eq t' (m : gmap Z F) :
  wf_layout t' -> hdl_fits t' ->
  (forall h v, m !! h = Some v
     <-> exists i e, live_in t' i e /\ h = MakeEntryHdl t' i /\ v = decode e) ->
  table_rules t' = m.
Proof.
  intros Hl Hf H. apply map_eq. intros h. apply option_eq. intros v.
  by rewrite lookup_table_rules, H.
Qed.

Lemma table_rules_none t :
  wf_layout t -> hdl_fits t -> (forall i x, ~ live_in t i x) -> table_rules t = ∅.
Proof.
  intros Hl Hf Hno. apply map_empty. intros h. destruct (table_rules t !! h) as [v|] eqn:E; [|done].
  apply lookup_table_rules in E as (i & e & He & _); [|done|done]. by destruct (Hno i e).
Qed.

(** ** Changes *)

Section Change.
Context (keeps : Z -> Z -> Prop) (Hdec : forall x x', keeps x x' -> decode x' = decode x).
Context (t t' : ipa_table U).
Hypothesis (Hl : wf_layout t) (Hl' : wf_layout t') (Hf : hdl_fits t) (Hsh : same_shape t t').

(** Record [i] is new, the others are kept. *)
Definition inserted i e : Prop :=
  live_in t' i e /\ (forall x, ~ live_in t i x)
  /\ (forall k x, live_in t k x -> exists x', live_in t' k x' /\ keeps x x')
  /\ (forall k x', k <> i -> live_in t' k x' -> exists x, live_in t k x).

Lemma same_shape_hdl i : MakeEntryHdl t' i = MakeEntryHdl t i.
Proof. by apply MakeEntryHdl_same_shape. Qed.

Lemma table_rules_inserted i e :
  inserted i e ->
  table_rules t !! MakeEntryHdl t i = None
  /\ table_rules t' = <[MakeEntryHdl t i := decode e]> (table_rules t).
Proof.
  intros (Hi & Hno & Hk & Hb). pose proof (hdl_fits_shape _ _ Hsh Hf) as Hf'. split.
  - destruct (table_rules t !! _) as [w|] eqn:E; [|done]. exfalso.
    apply lookup_table_rules in E as (j & x & Hx & Ej & _); [|done|done].
    assert (i = j) as <-; [|by apply (Hno x)].
    destruct (Hk j x Hx) as (x' & Hx' & _).
    eapply (table_hdl_inj t'); [done|done|apply Hi|apply Hx'|]. by rewrite !same_shape_hdl.
  - apply table_rules_eq; [done|done|]. intros h w.
    rewrite lookup_insert_Some, lookup_table_rules by done. setoid_rewrite same_shape_hdl. split.
    + intros [[<- <-]|[Hne (j & x & Hx & -> & ->)]]; [by exists i, e|].
      destruct (Hk j x Hx) as (x' & Hx' & Hs). exists j, x'. by rewrite (Hdec _ _ Hs).
    + intros (j & x' & Hx' & -> & ->). destruct (decide (j = i)) as [->|Hji].
      * left. by rewrite (live_in_unique _ _ _ _ Hx' Hi).
      * right. destruct (Hb j x' Hji Hx') as (x & Hx). split.
        -- intros E. apply Hji. symmetry.
           eapply (table_hdl_inj t'); [done|done|apply Hi|apply Hx'|]. by rewrite !same_shape_hdl.
        -- exists j, x. destruct (Hk j x Hx) as (x'' & Hx'' & Hs).
           rewrite <- (live_in_unique _ _ _ _ Hx'' Hx'). by rewrite (Hdec _ _ Hs).
Qed.

(** Record [i] is gone, the others are kept. *)
Definition removed_rule i : Prop :=
  (forall x, ~ live_in t' i x)
  /\ (forall k x, k <> i -> live_in t k x -> exists x', live_in t' k x' /\ keeps x x')
  /\ (forall k x', live_in t' k x' -> exists x, live_in t k x).

Lemma table_rules_deleted i e :
  (slots t).[i] = Some e -> removed_rule i ->
  table_rules t' = delete (MakeEntryHdl t i) (table_rules t).
Proof.
  intros Hi (Hno & Hk & Hb). pose proof (hdl_fits_shape _ _ Hsh Hf) as Hf'.
  apply table_rules_eq; [done|done|]. intros h w.
  rewrite lookup_delete_Some, lookup_table_rules by done. setoid_rewrite same_shape_hdl. split.
  - intros (Hne & j & x & Hx & -> & ->). destruct (Hk j x) as (x' & Hx' & Hs); [congruence|done|].
    exists j, x'. by rewrite (Hdec _ _ Hs).
  - intros (j & x' & Hx' & -> & ->). destruct (Hb j x' Hx') as (x & Hx).
    assert (Hji : j <> i) by (intros ->; by apply (Hno x')). split.
    + intros E. apply Hji. symmetry. eapply (table_hdl_inj t); [done|done|exact Hi|apply Hx|done].
    + exists j, x. destruct (Hk j x Hji Hx) as (x'' & Hx'' & Hs).
      rewrite <- (live_in_unique _ _ _ _ Hx'' Hx'). by rewrite (Hdec _ _ Hs).
Qed.

(** The records in use are the same. *)
Lemma table_rules_same :
  (forall i e, live_in t' i e <-> live_in t i e) -> table_rules t' = table_rules t.
Proof.
  intros H. pose proof (hdl_fits_shape _ _ Hsh Hf) as Hf'.
  apply table_rules_eq; [done|done|]. intros h w.
  rewrite lookup_table_rules by done. setoid_rewrite same_shape_hdl.
  by setoid_rewrite H.
Qed.
End Change.

(** ** Insertions *)

Section Insertion.
Context (t : ipa_table U) (h n : Z) (link : option (Z * Z)) (m : option (list Z)).
Hypothesis (Hwf : wf_table t) (Hd : dead_ok t) (Hins : insertion I meta_ok t h n link m).

Abbreviation linked := (ins_linked L t n).

(** The records other than the new one. *)
Lemma linked_record k x' ef :
  k <> n -> (slots (linked ef link m)).[k] = Some x' ->
  exists x, (slots t).[k] = Some x /\ relinked L n x x'.
Proof.
  intros Hk Hx. pose proof (ins_linked_other I L meta_ok t h n ef link m k Hins Hk) as H.
  rewrite Hx in H. destruct ((slots t).[k]) as [x|]; [|done]. by exists x.
Qed.

Lemma relinked_same x x' : relinked L n x x' -> same x x'.
Proof. intros [->| ->]; [apply hl_refl|apply hl_put_next]. Qed.

Lemma ins_linked_inserted ef :
  valid ef = true -> dead ef = false ->
  inserted same t (linked ef link m) n ef /\ dead_ok (linked ef link m).
Proof.
  intros Hv Hnd. pose proof (ins_linked_new I L free_ok meta_ok t h n ef link m Hwf Hins) as Hn.
  pose proof Hins as (Hr & (en & Hen & Hven) & _). split; [split_and!|].
  - done.
  - intros x (Hx & Hvx & _). congruence.
  - intros k x (Hx & Hvx & Hdx). assert (Hk : k <> n) by (intros ->; congruence).
    pose proof (ins_linked_other I L meta_ok t h n ef link m k Hins Hk) as H. rewrite Hx in H.
    destruct ((slots (linked ef link m)).[k]) as [x'|] eqn:E; [|done].
    apply relinked_same in H. destruct (hl_live _ _ H) as [E1 E2].
    exists x'. split; [|done]. split; [done|]. by rewrite E1, E2.
  - intros k x' Hk (Hx & Hvx & Hdx). destruct (linked_record k x' ef Hk Hx) as (x & Hx0 & H).
    apply relinked_same in H. destruct (hl_live _ _ H) as [E1 E2].
    exists x. split; [done|]. by rewrite <- E1, <- E2.
  - intros k x' Hx Hvx Hdx. destruct (ins_linked_shape L t n ef link m) as (_ & -> & _).
    destruct (decide (k = n)) as [->|Hk]; [congruence|].
    destruct (linked_record k x' ef Hk Hx) as (x & Hx0 & H).
    destruct (hl_live _ _ (relinked_same _ _ H)) as [E1 E2].
    destruct (Hd k x Hx0) as [H1 H2]; [congruence|congruence|]. split; [done|].
    destruct H as [->| ->]; [done|]. rewrite tel_put_next_next.
    pose proof (wl_max _ _ _ _ (wt_layout _ _ _ _ _ Hwf)) as Hmax.
    unfold IPA_TABLE_MAX_ENTRIES in Hmax. rewrite u16_small by lia. lia.
Qed.
End Insertion.

(** ** Rewriting a free record *)

Section Free.
Context (t : ipa_table U) (n en e : Z).
Hypothesis (Hwf : wf_table t) (Hen : (slots t).[n] = Some en) (Hv : valid en = false)
  (He : valid e = false) (Hfree : free_ok e).

Let t' : ipa_table U := with_slots t (slots t).[n <- e].

Lemma free_rewrite_record k : (slots t').[k] = if decide (n = k) then Some e else (slots t).[k].
Proof.
  unfold t'. cbn. case_decide as Hk; [subst k|by apply lookupZ_updateZ_ne].
  apply lookupZ_updateZ_eq. by eapply lookupZ_Some_range.
Qed.

Lemma free_rewrite_live i x : live_in t' i x <-> live_in t i x.
Proof.
  unfold TableHold.live_in. rewrite free_rewrite_record.
  case_decide as Hk; [subst i|done]. split; intros (Hx & Hvx & _); congruence.
Qed.

Lemma free_rewrite_wf : wf_table t' /\ same_shape t t'.
Proof.
  assert (Hsh : same_shape t t') by (apply same_shape_with_slots; by rewrite lengthZ_updateZ).
  pose proof (wt_layout _ _ _ _ _ Hwf) as Hl. split; [|done].
  assert (Hview : view t' ≡ view t).
  { intros j. destruct (decide (n = j)) as [<-|Hj].
    - rewrite (view_None I t n en), (view_None I t' n e); try done.
      rewrite free_rewrite_record. by rewrite decide_True.
    - apply view_frame; [|done|done]. rewrite free_rewrite_record. by rewrite decide_False. }
  assert (Hcnt : forall a b, countZ valid (slots t') a b = countZ valid (slots t) a b)
    by (intros; apply (countZ_update_same _ _ _ _ _ _ en); [done|congruence]).
  split.
  - apply (wf_layout_same_shape _ _ _ t); [done|done|apply (wl_meta _ _ _ _ Hl)].
  - apply free_update; [apply (wt_free _ _ _ _ _ Hwf)|by right].
  - rewrite Hview. apply (wt_chains _ _ _ _ _ Hwf).
  - cbn. rewrite Hcnt. apply (wt_cnt _ _ _ _ _ Hwf).
  - cbn. rewrite Hcnt. apply (wt_expn_cnt _ _ _ _ _ Hwf).
Qed.

Lemma free_rewrite_dead : dead_ok t -> dead_ok t'.
Proof.
  intros Hd k x Hx Hvx Hdx. rewrite free_rewrite_record in Hx. case_decide as Hk.
  - congruence.
  - by apply (Hd k x).
Qed.
End Free.

(** Erasing an inserted record that was not linked frees it again. *)
Lemma erase_placed t h n e link m :
  wf_table t -> insertion I meta_ok t h n link m ->
  ipa_table_erase_entry (ins_table t n e link m) n
  = Some (with_meta (with_slots t (slots t).[n <- 0]) m).
Proof.
  intros Hwf Hins. pose proof Hins as (Hr & (en & Hen & Hven) & Hm & Hfr & Hlk).
  destruct (free_rewrite_wf t n en 0 Hwf Hen Hven tel_valid_zero tel_free_zero) as [Hwf0 _].
  assert (E : ins_table t n e link m = ins_table (with_slots t (slots t).[n <- 0]) n e link m).
  { destruct link; unfold ins_table, with_slots, with_meta, with_tbl_cnt, with_expn_cnt; cbn;
      by rewrite updateZ_updateZ_eq. }
  rewrite E. apply (erase_ins_table I L free_ok meta_ok _ h); [done| |].
  - pose proof (free_rewrite_record t n en 0 Hen) as Hrec. split_and!; try done; [lia|cbn; lia| |].
    + exists 0. rewrite Hrec, decide_True by done. split; [done|apply tel_valid_zero].
    + destruct link as [[p ep]|]; [|done]. destruct Hlk as (H1 & H2 & H3 & pl & Hpl & Hpn).
      pose proof (insertion_ne I meta_ok t h n p ep m Hins) as Hne.
      assert (Hview : view (with_slots t (slots t).[n <- 0]) ≡ view t).
      { intros j. destruct (decide (n = j)) as [<-|Hj].
        - rewrite (view_None I t n en), (view_None I _ n 0); try done; [|apply tel_valid_zero].
          rewrite Hrec. by rewrite decide_True.
        - apply view_frame; [|done|done]. rewrite Hrec. by rewrite decide_False. }
      split_and!; [done|by rewrite Hview| |].
      * rewrite Hrec, decide_False by done. done.
      * exists pl. by rewrite (Hview p).
  - rewrite (free_rewrite_record t n en 0 Hen), decide_True by done. done.
Qed.
End TableRules.
