(* ===== verification/NatRule.v ===== *)
(** * NAT rules: [ipanat/inc/ipa_nat_drvi.h] and the first half of
    [ipanat/src/ipa_nat_drvi.c]

    The layout of the records of the NAT table and of the NAT index table,
    the functions both tables are given to handle their records, the
    one's-complement checksum differences and the two hashes. *)
From S2P Require Import Prelude Bitfield Table.

(** ** Constants *)

Definition IPA_NAT_RULE_FLAG_FIELD_OFFSET : Z := 18.
Definition IPA_NAT_RULE_NEXT_FIELD_OFFSET : Z := 8.
Definition IPA_NAT_RULE_PROTO_FIELD_OFFSET : Z := 22.
Definition IPA_NAT_INDEX_RULE_NEXT_FIELD_OFFSET : Z := 2.
Definition IPA_NAT_INDEX_RULE_NAT_INDEX_FIELD_OFFSET : Z := 0.
Definition IPA_NAT_FLAG_ENABLE_BIT : Z := 1.
Definition IPA_NAT_INVALID_PROTO_FIELD_VALUE : Z := 0xFF00.
Definition IPAHAL_NAT_INVALID_PROTOCOL : Z := 0xFF.
Definition IPPROTO_TCP : Z := 6.
Definition IPPROTO_UDP : Z := 17.
Definition IPA_MAX_PDN_NUM : Z := 16.
Definition IPA_HW_v4_0 : Z := 14.

(** ** User data *)

Record ipa_nat_pdn_entry := mk_pdn {
  public_ip : Z;
  src_metadata : Z;
  dst_metadata : Z
}.

Definition pdn_zero : ipa_nat_pdn_entry := mk_pdn 0 0 0.

#[export] Instance ipa_nat_pdn_entry_eq_dec : EqDecision ipa_nat_pdn_entry.
Proof. solve_decision. Defined.

Record ipa_nat_ipv4_rule := mk_ipv4_rule {
  u_target_ip : Z;
  u_private_ip : Z;
  u_target_port : Z;
  u_private_port : Z;
  u_public_port : Z;
  u_protocol : Z;
  u_pdn_index : Z;
  u_redirect : Z;
  u_enable : Z;
  u_time_stamp : Z;
  u_uc_activation_index : Z;
  u_s : bool;
  u_ucp : bool;
  u_dst_only : bool;
  u_src_only : bool
}.

#[export] Instance ipa_nat_ipv4_rule_eq_dec : EqDecision ipa_nat_ipv4_rule.
Proof. solve_decision. Defined.

(** ** [struct ipa_nat_rule], 32 bytes *)

Definition sizeof_ipa_nat_rule : Z := 32.

Definition private_ip : field := Field 0 32.
Definition target_ip : field := Field 32 32.
Definition nr_next_index : field := Field 64 16.
Definition public_port : field := Field 80 16.
Definition private_port : field := Field 96 16.
Definition target_port : field := Field 112 16.
Definition ip_chksum : field := Field 128 16.
Definition uc_activation_index : field := Field 144 13.
Definition s_bit : field := Field 157 1.
Definition redirect : field := Field 158 1.
Definition enable : field := Field 159 1.
Definition time_stamp : field := Field 160 24.
Definition protocol : field := Field 184 8.
Definition nr_prev_index : field := Field 192 16.
Definition indx_tbl_entry : field := Field 208 16.
Definition rsvd2 : field := Field 224 8.
Definition rsvd3 : field := Field 232 1.
Definition dst_only : field := Field 233 1.
Definition src_only : field := Field 234 1.
Definition ucp : field := Field 235 1.
Definition pdn_index : field := Field 236 4.
Definition tcp_udp_chksum : field := Field 240 16.

(** The halfword the head-insertion DMA command carries. *)
Definition flag_uc_activation_index : field := Field 0 13.
Definition flag_s : field := Field 13 1.
Definition flag_redirect : field := Field 14 1.
Definition flag_enable : field := Field 15 1.

(** ** [struct ipa_nat_indx_tbl_rule], 4 bytes *)

Definition sizeof_ipa_nat_indx_tbl_rule : Z := 4.
Definition sizeof_ipa_nat_indx_tbl_meta_info : Z := 2.

Definition tbl_entry : field := Field 0 16.
Definition ir_next_index : field := Field 16 16.

(** ** Records of the NAT table *)

(** The current PDN table and the client's rule. *)
Definition nat_user : Type := list ipa_nat_pdn_entry * ipa_nat_ipv4_rule.

Definition table_entry_is_valid (rule : Z) : bool := negb (getf enable rule =? 0).

Definition table_entry_get_next_index (rule : Z) : Z := getf nr_next_index rule.

Definition table_entry_get_prev_index (rule entry_index : Z) (meta : option (list Z))
    (base_table_size : Z) : option Z :=
  Some (getf nr_prev_index rule).

Definition table_entry_set_prev_index (rule entry_index prev_index : Z)
    (meta : option (list Z)) (base_table_size : Z) : option (Z * option (list Z)) :=
  Some (setf nr_prev_index rule prev_index, meta).

(** [cksum += x], then the carry is folded back. *)
Definition cksum_add (cksum x : Z) : Z :=
  let c := u32 (cksum + x) in
  if Z.shiftr c 16 =? 0 then c else u32 (Z.land c 0x0000FFFF + 1).

(** [~ x] at 32 and at 16 bits. *)
Definition not32 (x : Z) : Z := u32 (Z.lnot x).
Definition not16 (x : Z) : Z := u16 (Z.lnot x).

Definition ipa_nati_calc_ip_cksum (pub_ip_addr priv_ip_addr : Z) : Z :=
  let cksum := u32 (0 + Z.land pub_ip_addr 0xFFFF) in
  let cksum := cksum_add cksum (Z.shiftr pub_ip_addr 16) in
  let priv_ip_addr := not32 priv_ip_addr in
  let cksum := cksum_add cksum (Z.land priv_ip_addr 0xFFFF) in
  let cksum := cksum_add cksum (Z.shiftr priv_ip_addr 16) in
  u16 cksum.

Definition ipa_nati_calc_tcp_udp_cksum (pub_ip_addr pub_port priv_ip_addr priv_port : Z)
    : Z :=
  let cksum := u32 (0 + Z.land pub_ip_addr 0xFFFF) in
  let cksum := cksum_add cksum (Z.shiftr pub_ip_addr 16) in
  let cksum := cksum_add cksum pub_port in
  let priv_ip_addr := not32 priv_ip_addr in
  let cksum := cksum_add cksum (Z.land priv_ip_addr 0xFFFF) in
  let cksum := cksum_add cksum (Z.shiftr priv_ip_addr 16) in
  let priv_port := not16 priv_port in
  let cksum := cksum_add cksum priv_port in
  u16 cksum.

(** Status and record; [None] when the PDN index is outside the PDN table. *)
Definition table_entry_copy_from_user (nat_entry : Z) (u : nat_user) : option (Z * Z) :=
  let '(pdns, user_rule) := u in
  pdn ← pdns.[u_pdn_index user_rule];
  let pub_ip_addr := public_ip pdn in
  let e := setf private_ip nat_entry (u_private_ip user_rule) in
  let e := setf private_port e (u_private_port user_rule) in
  let e := setf protocol e (u_protocol user_rule) in
  let e := setf public_port e (u_public_port user_rule) in
  let e := setf target_ip e (u_target_ip user_rule) in
  let e := setf target_port e (u_target_port user_rule) in
  let e := setf pdn_index e (u_pdn_index user_rule) in
  let e := setf uc_activation_index e (u_uc_activation_index user_rule) in
  let e := setf s_bit e (Z.b2z (u_s user_rule)) in
  let e := setf ucp e (Z.b2z (u_ucp user_rule)) in
  let e := setf dst_only e (Z.b2z (u_dst_only user_rule)) in
  let e := setf src_only e (Z.b2z (u_src_only user_rule)) in
  let e := setf ip_chksum e (ipa_nati_calc_ip_cksum pub_ip_addr (u_private_ip user_rule)) in
  let e :=
    if (IPPROTO_TCP =? getf protocol e) || (IPPROTO_UDP =? getf protocol e) then
      setf tcp_udp_chksum e
        (ipa_nati_calc_tcp_udp_cksum pub_ip_addr (u_public_port user_rule)
           (u_private_ip user_rule) (u_private_port user_rule))
    else e in
  Some (0, e).

(** Status, record and DMA data. *)
Definition table_entry_head_insert (entry : Z) (u : nat_user) : option (Z * Z * Z) :=
  '(ret, nat_entry) ← table_entry_copy_from_user entry u;
  if negb (ret =? 0) then Some (ret, nat_entry, 0) else
  let d := setf flag_enable 0 IPA_NAT_FLAG_ENABLE_BIT in
  let d := setf flag_uc_activation_index d (getf uc_activation_index nat_entry) in
  let d := setf flag_s d (getf s_bit nat_entry) in
  Some (ret, nat_entry, d).

Definition table_entry_tail_insert (entry : Z) (u : nat_user) : option (Z * Z) :=
  '(ret, nat_entry) ← table_entry_copy_from_user entry u;
  if negb (ret =? 0) then Some (ret, nat_entry)
  else Some (ret, setf enable nat_entry IPA_NAT_FLAG_ENABLE_BIT).

Definition table_entry_get_delete_head_dma_command_data (head next_entry : Z) : Z :=
  IPA_NAT_INVALID_PROTO_FIELD_VALUE.

(** ** Records of the index table; the user data is the NAT table index *)

Definition index_table_entry_is_valid (rule : Z) : bool :=
  if getf tbl_entry rule =? 0 then false else true.

Definition index_table_entry_get_next_index (rule : Z) : Z := getf ir_next_index rule.

Definition index_table_entry_get_prev_index (rule entry_index : Z)
    (meta : option (list Z)) (base_table_size : Z) : option Z :=
  if base_table_size <=? entry_index
  then m ← meta; m.[entry_index - base_table_size]
  else Some 0.

Definition index_table_entry_set_prev_index (rule entry_index prev_index : Z)
    (meta : option (list Z)) (base_table_size : Z) : option (Z * option (list Z)) :=
  if base_table_size <=? entry_index
  then m ← meta; m' ← storeZ m (entry_index - base_table_size) prev_index;
       Some (rule, Some m')
  else Some (rule, meta).

Definition index_table_entry_head_insert (entry user_data : Z) : option (Z * Z * Z) :=
  Some (0, entry, user_data).

Definition index_table_entry_tail_insert (rule user_data : Z) : option (Z * Z) :=
  Some (0, setf tbl_entry rule user_data).

Definition index_table_entry_get_delete_head_dma_command_data (head next_entry : Z) : Z :=
  getf tbl_entry next_entry.

(** ** The two interfaces *)

Definition nat_entry_interface : ipa_table_entry_interface nat_user :=
  mk_entry_interface table_entry_is_valid table_entry_get_next_index
    table_entry_get_prev_index table_entry_set_prev_index table_entry_head_insert
    table_entry_tail_insert table_entry_get_delete_head_dma_command_data.

Definition index_entry_interface : ipa_table_entry_interface Z :=
  mk_entry_interface index_table_entry_is_valid index_table_entry_get_next_index
    index_table_entry_get_prev_index index_table_entry_set_prev_index
    index_table_entry_head_insert index_table_entry_tail_insert
    index_table_entry_get_delete_head_dma_command_data.

(** ** Hashes *)

(** [hw_ver] is the IPA version of the cache's descriptor; [size] is the
    number of base records minus one. *)
Definition dst_hash (hw_ver public_ip trgt_ip trgt_port public_port proto size : Z) : Z :=
  let hash :=
    Z.lxor (Z.lxor (Z.lxor (Z.lxor (u16 trgt_ip) (u16 (Z.shiftr trgt_ip 16)))
      trgt_port) public_port) proto in
  let hash :=
    if IPA_HW_v4_0 <=? hw_ver
    then Z.lxor hash (Z.lxor (u16 public_ip) (u16 (Z.shiftr public_ip 16)))
    else hash in
  let hash := Z.land (u16 hash) size in
  if hash =? 0 then size else hash.

Definition src_hash (priv_ip priv_port trgt_ip trgt_port proto size : Z) : Z :=
  let hash :=
    Z.lxor (Z.lxor (Z.lxor (Z.lxor (Z.lxor (Z.lxor
      (u16 priv_ip) (u16 (Z.shiftr priv_ip 16))) priv_port)
      (u16 trgt_ip)) (u16 (Z.shiftr trgt_ip 16))) trgt_port) proto in
  let hash := Z.land (u16 hash) size in
  if hash =? 0 then size else hash.
