(* ===== verification/NatRuleFacts.v ===== *)
(** * Correctness of the NAT record layer

    Both record layouts satisfy the interface the table's theorems are
    proved against, a copied rule reads back as the client gave it, the
    checksum differences are one's-complement differences, and the hashes
    select a base record that is never the reserved record 0. *)
From S2P Require Import Prelude Bitfield Table TableFacts NatRule.

(** ** Layouts *)

Definition nat_layout : entry_layout :=
  mk_layout sizeof_ipa_nat_rule IPA_NAT_RULE_FLAG_FIELD_OFFSET
    IPA_NAT_RULE_NEXT_FIELD_OFFSET IPA_NAT_RULE_PROTO_FIELD_OFFSET.

Definition index_layout : entry_layout :=
  mk_layout sizeof_ipa_nat_indx_tbl_rule IPA_NAT_INDEX_RULE_NAT_INDEX_FIELD_OFFSET
    IPA_NAT_INDEX_RULE_NEXT_FIELD_OFFSET IPA_NAT_INDEX_RULE_NAT_INDEX_FIELD_OFFSET.

(** A free record is a cleared one. *)
Definition cleared (e : Z) : Prop := e = 0.

(** The NAT table has no meta data, the index table one previous index per
    expansion record. *)
Definition nat_meta_ok (m : option (list Z)) (expn : Z) : Prop := m = None.
Definition index_meta_ok (m : option (list Z)) (expn : Z) : Prop :=
  exists l, m = Some l /\ lengthZ l = expn.

#[export] Instance nat_entry_laws :
  TableEntryLaws nat_entry_interface nat_layout cleared nat_meta_ok.
Proof.
  split; cbn; unfold record_put16, cleared, table_entry_is_valid, table_entry_get_next_index,
    table_entry_get_prev_index; try done.
  - intros e. apply (getf_range nr_next_index e). field_side.
  - intros e ->. done.
  - intros e i m base -> _. by rewrite getf_zero.
  - intros e d. apply (getf_setf_eq nr_next_index). field_side.
  - intros e d. by simp_fields.
  - intros e d i m base. by simp_fields.
  - intros e d. by simp_fields.
  - intros e d i m base. by simp_fields.
  - intros e i p m base expn -> Hi Hp. eexists _, _. split; [done|].
    split_and!; try (by simp_fields). rewrite getf_setf_eq by field_side.
    f_equal. by apply (u16_small p).
Qed.

#[export] Instance index_entry_laws :
  TableEntryLaws index_entry_interface index_layout cleared index_meta_ok.
Proof.
  split; cbn; unfold record_put16, cleared, index_table_entry_is_valid,
    index_table_entry_get_next_index, index_table_entry_get_prev_index; try done.
  - intros e. apply (getf_range ir_next_index e). field_side.
  - intros e ->. done.
  - intros e i m base -> Hi. by rewrite (proj2 (Z.leb_gt _ _)) by lia.
  - intros e d. apply (getf_setf_eq ir_next_index). field_side.
  - intros e d. by simp_fields.
  - intros e d. by simp_fields.
  - intros e i m base expn (l & -> & Hlen) Hi. destruct (base <=? i) eqn:E; [|done].
    apply Z.leb_le in E. cbn. apply lookupZ_is_Some. lia.
  - intros e i p m base expn (l & -> & Hlen) Hi Hp. unfold index_table_entry_set_prev_index.
    rewrite (proj2 (Z.leb_le base i)) by lia. cbn [mbind option_bind].
    rewrite storeZ_Some by lia. cbn [mbind option_bind]. eexists _, _. split; [done|].
    split_and!; [|done|done| |].
    + eexists. split; [done|]. by rewrite lengthZ_updateZ.
    + cbn. apply lookupZ_updateZ_eq. lia.
    + intros e2 j Hj Hne. destruct (base <=? j) eqn:E; [|done]. cbn.
      apply lookupZ_updateZ_ne. lia.
Qed.

(** ** A copied rule reads back *)

(** The widths of the client's fields. *)
Record wf_user_rule (u : ipa_nat_ipv4_rule) : Prop := {
  wu_target_ip : 0 <= u_target_ip u < 2 ^ 32;
  wu_private_ip : 0 <= u_private_ip u < 2 ^ 32;
  wu_target_port : 0 <= u_target_port u < 2 ^ 16;
  wu_private_port : 0 <= u_private_port u < 2 ^ 16;
  wu_public_port : 0 <= u_public_port u < 2 ^ 16;
  wu_protocol : 0 <= u_protocol u < 2 ^ 8;
  wu_pdn_index : 0 <= u_pdn_index u < 2 ^ 8;
  wu_redirect : 0 <= u_redirect u < 2 ^ 8;
  wu_enable : 0 <= u_enable u < 2 ^ 8;
  wu_time_stamp : 0 <= u_time_stamp u < 2 ^ 32;
  wu_uc : 0 <= u_uc_activation_index u < 2 ^ 16
}.

(** What a record in use says of the connection it translates. *)
Definition rule_matches (pdns : list ipa_nat_pdn_entry) (u : ipa_nat_ipv4_rule) (e : Z) : Prop :=
  getf private_ip e = u_private_ip u /\ getf private_port e = u_private_port u
  /\ getf protocol e = u_protocol u /\ getf public_port e = u_public_port u
  /\ getf target_ip e = u_target_ip u /\ getf target_port e = u_target_port u
  /\ getf pdn_index e = u_pdn_index u
  /\ getf uc_activation_index e = u_uc_activation_index u mod 2 ^ 13
  /\ getf s_bit e = Z.b2z (u_s u) /\ getf ucp e = Z.b2z (u_ucp u)
  /\ getf dst_only e = Z.b2z (u_dst_only u) /\ getf src_only e = Z.b2z (u_src_only u)
  /\ exists pdn, pdns.[u_pdn_index u] = Some pdn
     /\ getf ip_chksum e = u16 (ipa_nati_calc_ip_cksum (public_ip pdn) (u_private_ip u))
     /\ getf tcp_udp_chksum e
        = if (IPPROTO_TCP =? u_protocol u) || (IPPROTO_UDP =? u_protocol u)
          then u16 (ipa_nati_calc_tcp_udp_cksum (public_ip pdn) (u_public_port u)
                      (u_private_ip u) (u_private_port u))
          else 0.

(** The fields a copy does not touch. *)
Definition same_links (e e' : Z) : Prop :=
  getf nr_next_index e' = getf nr_next_index e /\ getf nr_prev_index e' = getf nr_prev_index e
  /\ getf indx_tbl_entry e' = getf indx_tbl_entry e /\ getf enable e' = getf enable e
  /\ getf redirect e' = getf redirect e /\ getf time_stamp e' = getf time_stamp e.

#[local] Opaque getf setf.

Lemma copy_from_user_spec pdns u pdn e :
  pdns.[u_pdn_index u] = Some pdn -> u_pdn_index u < IPA_MAX_PDN_NUM -> wf_user_rule u ->
  getf tcp_udp_chksum e = 0 ->
  exists e', table_entry_copy_from_user e (pdns, u) = Some (0, e')
    /\ rule_matches pdns u e' /\ same_links e e'.
Proof.
  intros Hp Hlt [] Hck. unfold IPA_MAX_PDN_NUM in Hlt. unfold table_entry_copy_from_user.
  rewrite Hp. cbn [mbind option_bind]. eexists. split; [done|].
  match goal with |- context [if ?b then _ else _] => set (tcp := b) end.
  unfold rule_matches, same_links. split.
  - do 12 (split; [destruct tcp; simp_fields;
                   first [apply Z.mod_small; cbn; lia|apply b2z_mod_2|reflexivity]|]).
    exists pdn. split; [done|]. split; [destruct tcp; simp_fields; unfold u16; reflexivity|].
    assert (Etcp : tcp = (IPPROTO_TCP =? u_protocol u) || (IPPROTO_UDP =? u_protocol u)).
    { unfold tcp. simp_fields. cbn [fw]. by rewrite (Z.mod_small (u_protocol u)). }
    rewrite <- Etcp. destruct tcp; [|simp_fields; exact Hck].
    rewrite (getf_setf_eq tcp_udp_chksum) by field_side. unfold u16.
    cbn [fw tcp_udp_chksum]. reflexivity.
  - do 5 (split; [destruct tcp; simp_fields; reflexivity|]). destruct tcp; simp_fields; reflexivity.
Qed.

(** ** The fields that carry a rule's translation *)
Definition rule_fields : list field :=
  [private_ip; private_port; protocol; public_port; target_ip; target_port; pdn_index;
   uc_activation_index; s_bit; ucp; dst_only; src_only; ip_chksum; tcp_udp_chksum].

Lemma rule_matches_ext pdns u e e' :
  same_fields rule_fields e e' -> rule_matches pdns u e -> rule_matches pdns u e'.
Proof.
  intros Hs. unfold same_fields, rule_fields in Hs. rewrite !Forall_cons in Hs.
  destruct Hs as (E1 & E2 & E3 & E4 & E5 & E6 & E7 & E8 & E9 & E10 & E11 & E12 & E13 & E14 & _).
  unfold rule_matches.
  rewrite E1, E2, E3, E4, E5, E6, E7, E8, E9, E10, E11, E12, E13, E14. done.
Qed.

(** ** The flags word a head insertion sends *)

Definition flags_for (d e : Z) : Prop :=
  getf flag_enable d = 1 /\ getf flag_redirect d = 0
  /\ getf flag_uc_activation_index d = getf uc_activation_index e
  /\ getf flag_s d = getf s_bit e.

Lemma head_insert_spec pdns u pdn e :
  pdns.[u_pdn_index u] = Some pdn -> u_pdn_index u < IPA_MAX_PDN_NUM -> wf_user_rule u ->
  getf tcp_udp_chksum e = 0 ->
  exists e' d, table_entry_head_insert e (pdns, u) = Some (0, e', d)
    /\ rule_matches pdns u e' /\ same_links e e' /\ flags_for d e'.
Proof.
  intros Hp Hlt Hu Hck. destruct (copy_from_user_spec _ _ _ e Hp Hlt Hu Hck) as (e' & E & Hm & Hs).
  unfold table_entry_head_insert. rewrite E. cbn [mbind option_bind Z.eqb negb].
  eexists _, _. split; [reflexivity|]. split; [done|]. split; [done|].
  pose proof (getf_range uc_activation_index e') as Hr1.
  pose proof (getf_range s_bit e') as Hr2.
  unfold flags_for. split; [|split; [|split]]; simp_fields.
  - reflexivity.
  - reflexivity.
  - apply Z.mod_small, Hr1. field_side.
  - apply Z.mod_small, Hr2. field_side.
Qed.

(** Written by the hardware, the flags word enables the record. *)
Lemma put_flags pdns u e d :
  rule_matches pdns u e -> flags_for d e ->
  let e' := record_put16 e IPA_NAT_RULE_FLAG_FIELD_OFFSET d in
  rule_matches pdns u e' /\ getf enable e' = 1 /\ getf redirect e' = 0
  /\ getf nr_next_index e' = getf nr_next_index e
  /\ getf nr_prev_index e' = getf nr_prev_index e
  /\ getf indx_tbl_entry e' = getf indx_tbl_entry e
  /\ getf time_stamp e' = getf time_stamp e.
Proof.
  intros Hm (F1 & F2 & F3 & F4) e'. unfold e', record_put16.
  assert (Hsub : forall g, wf_field g -> 144 <= lo g -> lo g + fw g <= 160 ->
    getf g (setf (half_at IPA_NAT_RULE_FLAG_FIELD_OFFSET) e d) = getf (Field (lo g - 144) (fw g)) d).
  { intros g Hg H1 H2. apply (getf_setf_sub (Field 144 16)); [field_side|done|done|done]. }
  split; [|split; [|split]].
  - apply (rule_matches_ext _ _ e); [|done].
    repeat (apply Forall_cons; split;
      [first [apply getf_setf_ne; field_side
             |rewrite Hsub by field_side; symmetry; first [exact (eq_sym F3)|exact (eq_sym F4)]]|]).
    by apply Forall_nil.
  - rewrite Hsub by field_side. exact F1.
  - rewrite Hsub by field_side. exact F2.
  - simp_fields. done.
Qed.

(** ** Checksum differences *)

Lemma cksum_add_spec c x :
  0 <= c < 65536 -> 0 <= x < 65536 ->
  0 <= cksum_add c x < 65536 /\ (cksum_add c x - (c + x)) mod 65535 = 0.
Proof.
  intros Hc Hx. unfold cksum_add. rewrite u32_small by lia.
  rewrite Z.shiftr_div_pow2 by lia. change 0x0000FFFF with (Z.ones 16).
  rewrite Z.land_ones by lia. change (2 ^ 16) with 65536.
  destruct (Z.eqb_spec ((c + x) / 65536) 0) as [E|E].
  - pose proof (Z.mod_eq (c + x) 65536). pose proof (Z.mod_pos_bound (c + x) 65536).
    split; [lia|]. by rewrite Z.sub_diag.
  - assert (c + x = (c + x) mod 65536 + 65536 * 1).
    { pose proof (Z.div_mod (c + x) 65536). assert ((c + x) / 65536 = 1) by dlia. lia. }
    pose proof (Z.mod_pos_bound (c + x) 65536).
    rewrite u32_small by lia. split; [lia|].
    replace ((c + x) mod 65536 + 1 - (c + x)) with (-1 * 65535) by lia. apply Z_mod_mult.
Qed.

(** The two halves of an address. *)
Definition lo16 (x : Z) : Z := Z.land x 0xFFFF.
Definition hi16 (x : Z) : Z := Z.shiftr x 16.

Lemma lo16_mod x : lo16 x = x mod 65536.
Proof. unfold lo16. change 0xFFFF with (Z.ones 16). by rewrite Z.land_ones by lia. Qed.

Lemma hi16_div x : hi16 x = x / 65536.
Proof. unfold hi16. by rewrite Z.shiftr_div_pow2 by lia. Qed.

Lemma halves_range x : 0 <= x < 2 ^ 32 -> 0 <= lo16 x < 65536 /\ 0 <= hi16 x < 65536.
Proof. intros H. rewrite lo16_mod, hi16_div. dlia. Qed.

Lemma not32_halves x :
  0 <= x < 2 ^ 32 ->
  lo16 (not32 x) = 65535 - lo16 x /\ hi16 (not32 x) = 65535 - hi16 x.
Proof.
  intros H. rewrite !lo16_mod, !hi16_div. unfold not32, u32, Z.lnot.
  dlia.
Qed.

Lemma not16_spec x : 0 <= x < 2 ^ 16 -> not16 x = 65535 - x.
Proof. intros H. unfold not16, u16, Z.lnot. dlia. Qed.

Lemma ip_cksum_spec pub priv :
  0 <= pub < 2 ^ 32 -> 0 <= priv < 2 ^ 32 ->
  0 <= ipa_nati_calc_ip_cksum pub priv < 65536
  /\ (ipa_nati_calc_ip_cksum pub priv
      - (lo16 pub + hi16 pub - (lo16 priv + hi16 priv))) mod 65535 = 0.
Proof.
  intros Hpub Hpriv. unfold ipa_nati_calc_ip_cksum. fold (lo16 pub) (hi16 pub).
  fold (lo16 (not32 priv)) (hi16 (not32 priv)).
  destruct (halves_range _ Hpub), (halves_range _ Hpriv).
  destruct (not32_halves _ Hpriv) as [-> ->]. rewrite u32_small by lia.
  destruct (cksum_add_spec (0 + lo16 pub) (hi16 pub)) as [R1 C1]; [lia|lia|].
  destruct (cksum_add_spec _ (65535 - lo16 priv) R1) as [R2 C2]; [lia|].
  destruct (cksum_add_spec _ (65535 - hi16 priv) R2) as [R3 C3]; [lia|].
  rewrite u16_small by done. split; [done|].
  apply Z.mod_divide in C1 as [k1 C1], C2 as [k2 C2], C3 as [k3 C3]; [|done..].
  apply Z.mod_divide; [done|]. exists (k1 + k2 + k3 + 2). lia.
Qed.

Lemma tcp_udp_cksum_spec pub pport priv port :
  0 <= pub < 2 ^ 32 -> 0 <= priv < 2 ^ 32 -> 0 <= pport < 2 ^ 16 -> 0 <= port < 2 ^ 16 ->
  0 <= ipa_nati_calc_tcp_udp_cksum pub pport priv port < 65536
  /\ (ipa_nati_calc_tcp_udp_cksum pub pport priv port
      - (lo16 pub + hi16 pub + pport - (lo16 priv + hi16 priv + port))) mod 65535 = 0.
Proof.
  intros Hpub Hpriv Hpp Hp. unfold ipa_nati_calc_tcp_udp_cksum. fold (lo16 pub) (hi16 pub).
  fold (lo16 (not32 priv)) (hi16 (not32 priv)).
  destruct (halves_range _ Hpub), (halves_range _ Hpriv).
  destruct (not32_halves _ Hpriv) as [-> ->]. rewrite u32_small by lia.
  rewrite (not16_spec port) by done.
  destruct (cksum_add_spec (0 + lo16 pub) (hi16 pub)) as [R1 C1]; [lia|lia|].
  destruct (cksum_add_spec _ pport R1) as [R1' C1']; [lia|].
  destruct (cksum_add_spec _ (65535 - lo16 priv) R1') as [R2 C2]; [lia|].
  destruct (cksum_add_spec _ (65535 - hi16 priv) R2) as [R3 C3]; [lia|].
  destruct (cksum_add_spec _ (65535 - port) R3) as [R4 C4]; [lia|].
  rewrite u16_small by done. split; [done|].
  apply Z.mod_divide in C1 as [k1 C1], C1' as [k1' C1'], C2 as [k2 C2], C3 as [k3 C3],
    C4 as [k4 C4]; [|done..].
  apply Z.mod_divide; [done|]. exists (k1 + k1' + k2 + k3 + k4 + 3). lia.
Qed.

(** ** Hashes *)

Lemma dst_hash_range ver ip tip tport pport proto size :
  0 < size -> 1 <= dst_hash ver ip tip tport pport proto size <= size.
Proof. intros. unfold dst_hash. by apply hash_fold_range. Qed.

Lemma src_hash_range pip pport tip tport proto size :
  0 < size -> 1 <= src_hash pip pport tip tport proto size <= size.
Proof. intros. unfold src_hash. by apply hash_fold_range. Qed.
