(* ===== verification/Ipv6Rule.v ===== *)
(** * IPv6 connection tracking rules: [ipanat/inc/ipa_ipv6cti.h] and the
    record functions of [ipanat/src/ipa_ipv6ct.c]

    The layout of a record, the functions the table is given to handle its
    records, and the hash. *)
From S2P Require Import Prelude Bitfield Table.

(** ** Constants *)

Definition IPA_IPV6CT_RULE_FLAG_FIELD_OFFSET : Z := 34.
Definition IPA_IPV6CT_RULE_NEXT_FIELD_OFFSET : Z := 40.
Definition IPA_IPV6CT_RULE_PROTO_FIELD_OFFSET : Z := 38.
Definition IPA_IPV6CT_FLAG_ENABLE_BIT : Z := 1.
Definition IPA_IPV6CT_DIRECTION_ALLOW_BIT : Z := 1.
Definition IPA_IPV6CT_INVALID_PROTO_FIELD_VALUE : Z := 0xFF00.
Definition IPA_IPV6CT_INVALID_PROTO_FIELD_CMP : Z := 0xFF.

(** [ipa_ipv6_ct_direction_settings_type]; a client may pass any integer. *)
Definition IPA_IPV6CT_DIRECTION_DENY_ALL : Z := 0.
Definition IPA_IPV6CT_DIRECTION_ALLOW_OUT : Z := 1.
Definition IPA_IPV6CT_DIRECTION_ALLOW_IN : Z := 2.
Definition IPA_IPV6CT_DIRECTION_ALLOW_ALL : Z := 3.

(** ** The client's rule *)

Record ipa_ipv6ct_rule := mk_ct_rule {
  cu_src_ipv6_lsb : Z;
  cu_src_ipv6_msb : Z;
  cu_dest_ipv6_lsb : Z;
  cu_dest_ipv6_msb : Z;
  cu_direction_settings : Z;
  cu_ucp : bool;
  cu_s : bool;
  cu_uc_activation_index : Z;
  cu_src_port : Z;
  cu_dest_port : Z;
  cu_protocol : Z
}.

(** ** The record, [ipa_ipv6ct_hw_entry] *)

Definition sizeof_ipa_ipv6ct_hw_entry : Z := 64.

Definition ct_src_ipv6_lsb : field := Field 0 64.
Definition ct_src_ipv6_msb : field := Field 64 64.
Definition ct_dest_ipv6_lsb : field := Field 128 64.
Definition ct_dest_ipv6_msb : field := Field 192 64.
Definition ct_uc_activation_index : field := Field 256 13.
Definition ct_s : field := Field 269 1.
Definition ct_rsvd1 : field := Field 270 16.
Definition ct_redirect : field := Field 286 1.
Definition ct_enable : field := Field 287 1.
Definition ct_time_stamp : field := Field 288 24.
Definition ct_protocol : field := Field 312 8.
Definition ct_next_index : field := Field 320 16.
Definition ct_dest_port : field := Field 336 16.
Definition ct_src_port : field := Field 352 16.
Definition ct_ucp : field := Field 368 1.
Definition ct_out_allowed : field := Field 374 1.
Definition ct_in_allowed : field := Field 375 1.
Definition ct_prev_index : field := Field 432 16.

(** [ipa_ipv6ct_flags] *)
Definition ct_flag_enable : field := Field 15 1.

(** ** The entry interface *)

Definition table_entry_is_valid (entry : Z) : bool := negb (getf ct_enable entry =? 0).

Definition table_entry_get_next_index (entry : Z) : Z := getf ct_next_index entry.

Definition table_entry_get_prev_index (entry entry_index : Z) (meta : option (list Z))
    (base_table_size : Z) : option Z :=
  Some (getf ct_prev_index entry).

Definition table_entry_set_prev_index (entry entry_index prev_index : Z)
    (meta : option (list Z)) (base_table_size : Z) : option (Z * option (list Z)) :=
  Some (setf ct_prev_index entry prev_index, meta).

(** Status and record.  An unknown direction is refused after the other
    fields are written. *)
Definition table_entry_copy_from_user (entry : Z) (user_rule : ipa_ipv6ct_rule) : Z * Z :=
  let e := setf ct_src_ipv6_lsb entry (cu_src_ipv6_lsb user_rule) in
  let e := setf ct_src_ipv6_msb e (cu_src_ipv6_msb user_rule) in
  let e := setf ct_dest_ipv6_lsb e (cu_dest_ipv6_lsb user_rule) in
  let e := setf ct_dest_ipv6_msb e (cu_dest_ipv6_msb user_rule) in
  let e := setf ct_protocol e (cu_protocol user_rule) in
  let e := setf ct_src_port e (cu_src_port user_rule) in
  let e := setf ct_dest_port e (cu_dest_port user_rule) in
  let e := setf ct_ucp e (Z.b2z (cu_ucp user_rule)) in
  let e := setf ct_uc_activation_index e (cu_uc_activation_index user_rule) in
  let e := setf ct_s e (Z.b2z (cu_s user_rule)) in
  let d := cu_direction_settings user_rule in
  if d =? IPA_IPV6CT_DIRECTION_DENY_ALL then (0, e)
  else if d =? IPA_IPV6CT_DIRECTION_ALLOW_OUT
  then (0, setf ct_out_allowed e IPA_IPV6CT_DIRECTION_ALLOW_BIT)
  else if d =? IPA_IPV6CT_DIRECTION_ALLOW_IN
  then (0, setf ct_in_allowed e IPA_IPV6CT_DIRECTION_ALLOW_BIT)
  else if d =? IPA_IPV6CT_DIRECTION_ALLOW_ALL
  then (0, setf ct_in_allowed (setf ct_out_allowed e IPA_IPV6CT_DIRECTION_ALLOW_BIT)
             IPA_IPV6CT_DIRECTION_ALLOW_BIT)
  else (- EINVAL, e).

(** Status, record and DMA data. *)
Definition table_entry_head_insert (entry : Z) (user_data : ipa_ipv6ct_rule)
    : option (Z * Z * Z) :=
  let '(ret, e) := table_entry_copy_from_user entry user_data in
  if negb (ret =? 0) then Some (ret, e, 0)
  else Some (0, e, setf ct_flag_enable 0 IPA_IPV6CT_FLAG_ENABLE_BIT).

Definition table_entry_tail_insert (entry : Z) (user_data : ipa_ipv6ct_rule)
    : option (Z * Z) :=
  let '(ret, e) := table_entry_copy_from_user entry user_data in
  if negb (ret =? 0) then Some (ret, e)
  else Some (0, setf ct_enable e IPA_IPV6CT_FLAG_ENABLE_BIT).

Definition table_entry_get_delete_head_dma_command_data (head next_entry : Z) : Z :=
  IPA_IPV6CT_INVALID_PROTO_FIELD_VALUE.

Definition ct_entry_interface : ipa_table_entry_interface ipa_ipv6ct_rule :=
  mk_entry_interface table_entry_is_valid table_entry_get_next_index
    table_entry_get_prev_index table_entry_set_prev_index table_entry_head_insert
    table_entry_tail_insert table_entry_get_delete_head_dma_command_data.

(** ** The hash *)

(** The [while] loop: a 64-bit number has four segments. *)
Fixpoint xor_segments_loop (fuel : nat) (num ret : Z) : option Z :=
  match fuel with
  | O => None
  | S fuel' =>
      if num =? 0 then Some ret
      else xor_segments_loop fuel' (Z.shiftr num 16) (Z.lxor ret (u16 (Z.land num 0xffff)))
  end.

Definition ipa_ipv6ct_xor_segments (num : Z) : option Z := xor_segments_loop 5 num 0.

(** [size] is the number of base records minus one. *)
Definition ipa_ipv6ct_hash (rule : ipa_ipv6ct_rule) (size : Z) : option Z :=
  a ← ipa_ipv6ct_xor_segments (cu_src_ipv6_lsb rule);
  b ← ipa_ipv6ct_xor_segments (cu_src_ipv6_msb rule);
  c ← ipa_ipv6ct_xor_segments (cu_dest_ipv6_lsb rule);
  d ← ipa_ipv6ct_xor_segments (cu_dest_ipv6_msb rule);
  let hash := Z.lxor (Z.lxor (Z.lxor (Z.lxor 0 a) b) c) d in
  let hash := Z.lxor (Z.lxor (Z.lxor hash (cu_src_port rule)) (cu_dest_port rule)) (cu_protocol rule) in
  let hash := Z.land hash size in
  Some (if hash =? 0 then size else hash).
