(* ===== verification/Ipv6Facts.v ===== *)
(** * Correctness of the IPv6 connection tracking record layer

    The records satisfy the interfaces the table's theorems are proved
    against, a copied rule reads back as the client gave it, the hash is
    defined and selects a base record that is never the reserved record 0. *)
From S2P Require Import Prelude Bitfield Chain Table TableFacts TableInsert TableHold Ipv6Rule.

Definition ct_layout : entry_layout :=
  mk_layout sizeof_ipa_ipv6ct_hw_entry IPA_IPV6CT_RULE_FLAG_FIELD_OFFSET
    IPA_IPV6CT_RULE_NEXT_FIELD_OFFSET IPA_IPV6CT_RULE_PROTO_FIELD_OFFSET.

(** What every record not in use satisfies.  It need not be cleared: a refused
    rule leaves its addresses behind. *)
Definition ct_free (e : Z) : Prop :=
  getf ct_next_index e = 0 /\ getf ct_prev_index e = 0 /\ getf ct_out_allowed e = 0
  /\ getf ct_in_allowed e = 0 /\ getf ct_time_stamp e = 0 /\ getf ct_enable e = 0.

(** No meta data. *)
Definition ct_meta_ok (m : option (list Z)) (expn : Z) : Prop := m = None.

(** A rule deleted at the head of a chain with members. *)
Definition ct_dead (e : Z) : bool := getf ct_protocol e =? IPA_IPV6CT_INVALID_PROTO_FIELD_CMP.

(** The fields of a rule a change of its neighbours leaves alone. *)
Definition ct_fields : list field :=
  [ct_src_ipv6_lsb; ct_src_ipv6_msb; ct_dest_ipv6_lsb; ct_dest_ipv6_msb; ct_protocol;
   ct_src_port; ct_dest_port; ct_ucp; ct_uc_activation_index; ct_s; ct_out_allowed;
   ct_in_allowed; ct_time_stamp; ct_enable].

#[local] Opaque getf setf.

#[export] Instance ct_entry_laws :
  TableEntryLaws ct_entry_interface ct_layout ct_free ct_meta_ok.
Proof.
  split; cbn; unfold record_put16, table_entry_is_valid, table_entry_get_next_index,
    table_entry_get_prev_index; try done.
  - intros e. apply (getf_range ct_next_index e). field_side.
  - intros e (H & _). exact H.
  - intros e i m base (_ & -> & _) _. done.
  - intros e d. apply (getf_setf_eq ct_next_index). field_side.
  - intros e d. by simp_fields.
  - intros e d i m base. by simp_fields.
  - intros e d. by simp_fields.
  - intros e d i m base. by simp_fields.
  - intros e i p m base expn -> Hi Hp. eexists _, _. split; [done|].
    split_and!; try (by simp_fields). rewrite getf_setf_eq by field_side.
    f_equal. by apply (u16_small p).
Qed.

#[export] Instance ct_holder_laws :
  HolderLaws ct_entry_interface ct_layout ct_dead (same_fields ct_fields).
Proof.
  split; cbn; unfold record_put16, ct_dead, table_entry_is_valid, table_entry_get_next_index,
    table_entry_get_prev_index.
  - apply same_fields_refl.
  - intros x x' H. by rewrite !(same_fields_read ct_fields x x') by done.
  - intros x n. apply same_fields_setf; [done|field_side].
  - intros x i p m base x' m' [= <- _]. apply same_fields_setf; [done|field_side].
  - intros x c n. rewrite getf_setf_sub by field_side. reflexivity.
  - intros x d. by simp_fields.
  - intros x d. by simp_fields.
  - intros x d i m base. by simp_fields.
Qed.

(** ** Rules *)

Record ct_flow := mk_ct_flow {
  cf_src_ipv6_lsb : Z; cf_src_ipv6_msb : Z; cf_dest_ipv6_lsb : Z; cf_dest_ipv6_msb : Z;
  cf_protocol : Z; cf_src_port : Z; cf_dest_port : Z; cf_ucp : Z; cf_uc_activation_index : Z;
  cf_s : Z; cf_out_allowed : Z; cf_in_allowed : Z; cf_time_stamp : Z
}.

#[export] Instance ct_flow_eq_dec : EqDecision ct_flow.
Proof. solve_decision. Defined.

(** What a record says. *)
Definition ct_decode (e : Z) : ct_flow :=
  mk_ct_flow (getf ct_src_ipv6_lsb e) (getf ct_src_ipv6_msb e) (getf ct_dest_ipv6_lsb e)
    (getf ct_dest_ipv6_msb e) (getf ct_protocol e) (getf ct_src_port e) (getf ct_dest_port e)
    (getf ct_ucp e) (getf ct_uc_activation_index e) (getf ct_s e) (getf ct_out_allowed e)
    (getf ct_in_allowed e) (getf ct_time_stamp e).

(** What a client's rule asks for: the two low bits of the direction allow
    outbound and inbound traffic. *)
Definition ct_flow_of (r : ipa_ipv6ct_rule) : ct_flow :=
  mk_ct_flow (cu_src_ipv6_lsb r) (cu_src_ipv6_msb r) (cu_dest_ipv6_lsb r) (cu_dest_ipv6_msb r)
    (cu_protocol r) (cu_src_port r) (cu_dest_port r) (Z.b2z (cu_ucp r))
    (cu_uc_activation_index r mod 2 ^ 13) (Z.b2z (cu_s r))
    (cu_direction_settings r mod 2) (cu_direction_settings r / 2) 0.

(** The client's fields fit their types. *)
Definition ct_rule_fits (r : ipa_ipv6ct_rule) : bool :=
  let fits (x w : Z) := (0 <=? x) && (x <? 2 ^ w) in
  fits (cu_src_ipv6_lsb r) 64 && fits (cu_src_ipv6_msb r) 64 && fits (cu_dest_ipv6_lsb r) 64
  && fits (cu_dest_ipv6_msb r) 64 && fits (cu_src_port r) 16 && fits (cu_dest_port r) 16
  && fits (cu_protocol r) 8 && fits (cu_uc_activation_index r) 16
  && fits (cu_direction_settings r) 32.

Definition direction_valid (r : ipa_ipv6ct_rule) : bool := cu_direction_settings r <=? 3.

Record wf_ct_rule (r : ipa_ipv6ct_rule) : Prop := {
  wc_src_lsb : 0 <= cu_src_ipv6_lsb r < 2 ^ 64;
  wc_src_msb : 0 <= cu_src_ipv6_msb r < 2 ^ 64;
  wc_dest_lsb : 0 <= cu_dest_ipv6_lsb r < 2 ^ 64;
  wc_dest_msb : 0 <= cu_dest_ipv6_msb r < 2 ^ 64;
  wc_src_port : 0 <= cu_src_port r < 2 ^ 16;
  wc_dest_port : 0 <= cu_dest_port r < 2 ^ 16;
  wc_protocol : 0 <= cu_protocol r < 2 ^ 8;
  wc_uc : 0 <= cu_uc_activation_index r < 2 ^ 16;
  wc_direction : 0 <= cu_direction_settings r < 2 ^ 32
}.

Lemma ct_rule_fits_wf r : ct_rule_fits r = true -> wf_ct_rule r.
Proof.
  unfold ct_rule_fits. rewrite !andb_true_iff, !Z.leb_le, !Z.ltb_lt. intros H. split; lia.
Qed.

(** The links and the flags word of a record. *)
Definition ct_links : list field := [ct_next_index; ct_prev_index; ct_enable; ct_time_stamp].

Lemma ct_decode_same x x' : same_fields ct_fields x x' -> ct_decode x' = ct_decode x.
Proof.
  intros H. unfold ct_decode. by rewrite !(same_fields_read ct_fields x x') by done.
Qed.

(** An unknown direction is refused, and leaves a free record free. *)
Lemma copy_refused e r :
  direction_valid r = false -> ct_free e ->
  exists e', table_entry_copy_from_user e r = (- EINVAL, e')
    /\ same_fields ct_links e e' /\ ct_free e'.
Proof.
  unfold direction_valid. intros Hd%Z.leb_gt (F1 & F2 & F3 & F4 & F5 & F6).
  unfold table_entry_copy_from_user, IPA_IPV6CT_DIRECTION_DENY_ALL, IPA_IPV6CT_DIRECTION_ALLOW_OUT,
    IPA_IPV6CT_DIRECTION_ALLOW_IN, IPA_IPV6CT_DIRECTION_ALLOW_ALL.
  rewrite !(proj2 (Z.eqb_neq (cu_direction_settings r) _)) by lia.
  eexists. split; [reflexivity|]. unfold same_fields, ct_links, ct_free. split_and!.
  - repeat (apply Forall_cons; split; [by simp_fields|]). by apply Forall_nil.
  - by simp_fields.
  - by simp_fields.
  - by simp_fields.
  - by simp_fields.
  - by simp_fields.
  - by simp_fields.
Qed.

Lemma direction_cases r :
  direction_valid r = true -> 0 <= cu_direction_settings r ->
  cu_direction_settings r = 0 \/ cu_direction_settings r = 1 \/ cu_direction_settings r = 2
  \/ cu_direction_settings r = 3.
Proof. unfold direction_valid. intros H%Z.leb_le. lia. Qed.

(** A copied rule reads back. *)
Lemma ct_copy_spec e r :
  direction_valid r = true -> wf_ct_rule r -> ct_free e ->
  exists e', table_entry_copy_from_user e r = (0, e')
    /\ same_fields ct_links e e' /\ ct_decode e' = ct_flow_of r.
Proof.
  intros Hd [] (_ & _ & F3 & F4 & F5 & _). pose proof (direction_cases r Hd ltac:(lia)) as Hc.
  unfold table_entry_copy_from_user, ct_flow_of.
  assert (Ht : getf ct_time_stamp e = 0) by done.
  destruct Hc as [->|[->|[->| ->]]]; (eexists; split; [reflexivity|]; split;
    [unfold same_fields, ct_links;
     repeat (apply Forall_cons; split; [by simp_fields|]); by apply Forall_nil|]).
  all: unfold ct_decode; f_equal; simp_fields;
    first [done|by apply Z.mod_small|by apply b2z_mod_2].
Qed.

(** ** The hash of IPv6 connection tracking rules

    [ipa_ipv6ct_xor_segments] terminates on every 64-bit number and folds its
    four segments; the hash selects a record of the base table. *)

(** The exclusive or of the [n] lowest sixteen-bit segments. *)
Fixpoint fold_segments (n : nat) (x : Z) : Z :=
  match n with
  | O => 0
  | S n' => Z.lxor (x mod 2 ^ 16) (fold_segments n' (x / 2 ^ 16))
  end.

Lemma fold_segments_zero n : fold_segments n 0 = 0.
Proof. induction n as [|n IH]; [done|]. cbn [fold_segments]. by rewrite Z.mod_0_l, Z.div_0_l, IH. Qed.

Lemma segment_mod num : u16 (Z.land num 0xffff) = num mod 2 ^ 16.
Proof.
  change 0xffff with (Z.ones 16). rewrite Z.land_ones by lia. unfold u16. by apply Z.mod_mod.
Qed.

Lemma xor_segments_loop_spec n fuel num ret :
  (n < fuel)%nat -> 0 <= num < 2 ^ (16 * Z.of_nat n) ->
  xor_segments_loop fuel num ret = Some (Z.lxor ret (fold_segments n num)).
Proof.
  revert fuel num ret. induction n as [|n IH]; intros [|fuel] num ret Hf Hn; try lia;
    cbn [xor_segments_loop].
  - assert (num = 0) as -> by (cbn in Hn; lia). cbn. by rewrite Z.lxor_0_r.
  - destruct (Z.eqb_spec num 0) as [->|Hne]; [by rewrite fold_segments_zero, Z.lxor_0_r|].
    rewrite segment_mod, Z.shiftr_div_pow2 by lia. rewrite IH; [|lia|].
    + cbn [fold_segments]. by rewrite Z.lxor_assoc.
    + split; [apply Z.div_pos; lia|]. apply Z.div_lt_upper_bound; [lia|].
      rewrite <- Z.pow_add_r by lia. replace (16 + 16 * Z.of_nat n) with (16 * Z.of_nat (S n)) by lia. lia.
Qed.

Lemma xor_segments_spec num :
  0 <= num < 2 ^ 64 -> ipa_ipv6ct_xor_segments num = Some (fold_segments 4 num).
Proof.
  intros H. unfold ipa_ipv6ct_xor_segments. rewrite (xor_segments_loop_spec 4) by (lia || done).
  by rewrite Z.lxor_0_l.
Qed.

(** What the hash mixes of a rule. *)
Definition ct_mix (r : ipa_ipv6ct_rule) : Z :=
  Z.lxor (Z.lxor (Z.lxor (Z.lxor (Z.lxor (Z.lxor (fold_segments 4 (cu_src_ipv6_lsb r))
    (fold_segments 4 (cu_src_ipv6_msb r))) (fold_segments 4 (cu_dest_ipv6_lsb r)))
    (fold_segments 4 (cu_dest_ipv6_msb r))) (cu_src_port r)) (cu_dest_port r)) (cu_protocol r).

Lemma ct_hash_spec r size :
  wf_ct_rule r ->
  ipa_ipv6ct_hash r size
  = Some (let hash := Z.land (ct_mix r) size in if hash =? 0 then size else hash).
Proof.
  intros []. unfold ipa_ipv6ct_hash. rewrite !xor_segments_spec by done.
  cbn [mbind option_bind]. by rewrite Z.lxor_0_l.
Qed.

(** Never record 0. *)
Lemma ct_hash_range r size :
  wf_ct_rule r -> 0 < size -> exists b, ipa_ipv6ct_hash r size = Some b /\ 1 <= b <= size.
Proof.
  intros Hr Hs. rewrite ct_hash_spec by done. eexists. split; [reflexivity|]. by apply hash_fold_range.
Qed.
