(* ===== verification/Env.v ===== *)
(** * The environment of the library and its descriptors:
    [ipanat/src/ipa_nat_utils.c], [ipanat/src/ipa_mem_descriptor.c]

    [IpaEnv] is the interface to everything the library calls but does not
    define: the ioctls of the IPA device, the system calls that map the
    tables' memory, allocation, and the mutex.  Its operations are functions
    on a state [K] of the world.  [IpaEnvLaws] states what the theorems about
    table memory rely on: a [TABLE_DMA] ioctl that succeeds wrote the sixteen
    bits of each of its entries at their offsets, one that fails wrote
    nothing. *)
From S2P Require Import Prelude Bitfield Table TableDma.

(** ** Payloads of the ioctls ([linux/msm_ipa.h]) *)

Record ipa_nat_in_sram_info := mk_sram_info {
  sram_mem_available_for_nat : Z;
  nat_table_offset_into_mmap : Z;
  best_nat_in_sram_size_rqst : Z
}.

Record ipa_ioc_v4_nat_init := mk_v4_init {
  v4_tbl_index : Z;
  v4_ipv4_rules_offset : Z;
  v4_expn_rules_offset : Z;
  v4_index_offset : Z;
  v4_index_expn_offset : Z;
  v4_table_entries : Z;
  v4_expn_table_entries : Z;
  v4_ip_addr : Z;
  v4_mem_type : Z;
  v4_focus_change : bool
}.

Record ipa_ioc_ipv6ct_init := mk_v6_init {
  v6_base_table_offset : Z;
  v6_expn_table_offset : Z;
  v6_table_entries : Z;
  v6_expn_table_entries : Z;
  v6_tbl_index : Z
}.

Record ipa_ioc_nat_ipv6ct_table_del := mk_table_del {
  del_table_index : Z;
  del_mem_type : Z
}.

Record ipa_ioc_nat_pdn_entry := mk_ioc_pdn {
  ioc_pdn_index : Z;
  ioc_public_ip : Z;
  ioc_src_metadata : Z;
  ioc_dst_metadata : Z
}.

(** The ioctl numbers the memory descriptors are given. *)
Inductive table_ioctl :=
  | IPA_IOC_ALLOC_NAT_TABLE
  | IPA_IOC_DEL_NAT_TABLE
  | IPA_IOC_ALLOC_IPV6CT_TABLE
  | IPA_IOC_DEL_IPV6CT_TABLE.

(** The contents of the tables in the memory the hardware works on, as lists
    of records. *)
Definition tbl_mem : Type := ipa_table_dma_type -> list Z.

Definition hw_record_size (ty : ipa_table_dma_type) : Z :=
  match ty with
  | IPA_NAT_BASE_TBL | IPA_NAT_EXPN_TBL => 32
  | IPA_NAT_INDX_TBL | IPA_NAT_INDEX_EXPN_TBL => 4
  | IPA_IPV6CT_BASE_TBL | IPA_IPV6CT_EXPN_TBL => 64
  end.

(** ** The interface *)

Class IpaEnv (K : Type) := {
  env_lock : K -> Z * K;
  env_unlock : K -> Z * K;
  env_mutexattr_init : K -> Z * K;
  env_mutexattr_settype : K -> Z * K;
  env_mutex_init : K -> Z * K;
  env_calloc : Z -> K -> bool * K;
  env_open : string -> K -> Z * K;
  env_close : Z -> K -> Z * K;
  (** address ([-1] is [MAP_FAILED]) *)
  env_mmap : Z -> Z -> K -> Z * K;
  env_munmap : Z -> Z -> K -> K;
  (** what the mapped memory holds when it is mapped: the record of the
      given size at the given address *)
  env_initial : K -> Z -> Z -> Z;
  env_get_hw_version : Z -> K -> Z * Z * K;
  env_get_sram_info : Z -> K -> Z * ipa_nat_in_sram_info * K;
  env_alloc_table : Z -> table_ioctl -> Z -> K -> Z * Z * K;
  env_del_table : Z -> table_ioctl -> ipa_ioc_nat_ipv6ct_table_del -> K -> Z * K;
  env_v4_init : Z -> ipa_ioc_v4_nat_init -> K -> Z * K;
  env_ipv6ct_init : Z -> ipa_ioc_ipv6ct_init -> K -> Z * K;
  env_modify_pdn : Z -> ipa_ioc_nat_pdn_entry -> K -> Z * K;
  env_vote_clock : Z -> Z -> K -> Z * K;
  env_table_dma : Z -> ipa_ioc_nat_dma_cmd -> tbl_mem -> K -> Z * tbl_mem * K
}.

(** The documented effect of one DMA entry. *)
Definition dma_effect_one (one : ipa_ioc_nat_dma_one) (m : tbl_mem) : option tbl_mem :=
  let ty := one_base_addr one in
  let k := one_offset one / hw_record_size ty in
  e ← (m ty).[k];
  Some (fun ty' => if decide (ty = ty')
                   then (m ty).[k <- record_put16 e (one_offset one mod hw_record_size ty)
                                       (one_data one)]
                   else m ty').

Fixpoint dma_effect (ones : list ipa_ioc_nat_dma_one) (m : tbl_mem) : option tbl_mem :=
  match ones with
  | [] => Some m
  | one :: ones' => m1 ← dma_effect_one one m; dma_effect ones' m1
  end.

Class IpaEnvLaws (K : Type) {E : IpaEnv K} : Prop := {
  dma_success fd cmd m k m' k' m1 :
    env_table_dma fd cmd m k = (0, m', k') -> dma_effect (cmd_ones cmd) m = Some m1 ->
    forall ty, m' ty = m1 ty;
  dma_failure fd cmd m k ret m' k' :
    env_table_dma fd cmd m k = (ret, m', k') -> ret <> 0 -> forall ty, m' ty = m ty
}.

(** What the library relies on when it maps a table: [mmap] never maps the
    null page; the allocation ioctls leave the offset of their (zeroed)
    argument alone; the SRAM the driver offers lies in the mapping it asks
    for ([ipa3_nat_get_sram_info] rounds the sum up to a page). *)
Class IpaMemLaws (K : Type) {E : IpaEnv K} : Prop := {
  mmap_not_null size fd k a k' : env_mmap size fd k = (a, k') -> a = -1 \/ 0 < a;
  alloc_offset_zero fd ioc size k off k' :
    env_alloc_table fd ioc size k = (0, off, k') -> off = 0;
  sram_info_fits fd k info k' :
    env_get_sram_info fd k = (0, info, k') ->
    0 <= nat_table_offset_into_mmap info
    /\ nat_table_offset_into_mmap info + sram_mem_available_for_nat info
       <= best_nat_in_sram_size_rqst info
}.

(** ** Strings *)

(** Copy at most [n] characters: the copy, their number and what is left. *)
Fixpoint strlcpy_loop (n : nat) (src : string) : string * nat * string :=
  match n, src with
  | S n', String c src' =>
      let '(d, i, rest) := strlcpy_loop n' src' in (String c d, S i, rest)
  | _, _ => (EmptyString, O, src)
  end.

(** The string the destination holds (none for an empty buffer) and the
    returned length. *)
Definition strlcpy (src : string) (size : nat) : option string * nat :=
  match size with
  | O => (None, String.length src)
  | S n =>
      let '(d, i, rest) := strlcpy_loop n src in (Some d, (i + String.length rest)%nat)
  end.

(** ** IPA descriptors *)

Definition IPA_DEV_NAME : string := "/dev/ipa".
Definition IPA_DEV_DIR : string := "/dev/".
Definition IPA_RESOURCE_NAME_MAX : nat := 32.
Definition IPA_HW_None : Z := 0.
Definition sizeof_ipa_descriptor : Z := 8.
Definition MAP_FAILED : Z := -1.

Record ipa_descriptor := mk_ipa_descriptor { fd : Z; ver : Z }.

Section Descriptors.
Context {K : Type} {E : IpaEnv K}.
Implicit Types (k : K).

Definition ipa_descriptor_open k : option ipa_descriptor * K :=
  let '(ok, k) := env_calloc sizeof_ipa_descriptor k in
  if negb ok then (None, k) else
  let '(fd, k) := env_open IPA_DEV_NAME k in
  if fd <? 0 then (None, k) else
  let '(res, v, k) := env_get_hw_version fd k in
  (Some (mk_ipa_descriptor fd (if res =? 0 then v else IPA_HW_None)), k).

Definition ipa_descriptor_close (desc : option ipa_descriptor) k : K :=
  match desc with
  | Some d => if 0 <=? fd d then (env_close (fd d) k).2 else k
  | None => k
  end.
End Descriptors.

(** ** Memory descriptors *)

Record ipa_mem_descriptor := mk_mem_desc {
  orig_rqst_size : Z;
  mmap_size : Z;
  base_addr : Z;
  mmap_addr : Z;
  addr_offset : Z;
  allocate_ioctl_num : table_ioctl;
  delete_ioctl_num : table_ioctl;
  md_name : string;
  md_table_index : Z;
  md_valid : bool;
  consider_using_sram : bool;
  sram_available : bool;
  sram_to_be_used : bool;
  nat_sram_info : ipa_nat_in_sram_info
}.

Definition sram_info_zero : ipa_nat_in_sram_info := mk_sram_info 0 0 0.

Definition mem_desc_zero : ipa_mem_descriptor :=
  mk_mem_desc 0 0 NULL NULL 0 IPA_IOC_ALLOC_NAT_TABLE IPA_IOC_ALLOC_NAT_TABLE "" 0
    false false false false sram_info_zero.

Section MemDescriptors.
Context {K : Type} {E : IpaEnv K}.
Implicit Types (k : K) (desc : ipa_mem_descriptor).

Definition AllocateMemory desc (ipa_fd : Z) k : Z * ipa_mem_descriptor * K :=
  let '(ret, info, k) := env_get_sram_info ipa_fd k in
  let available := ret =? 0 in
  let to_be_used :=
    available && consider_using_sram desc
    && (u32 (orig_rqst_size desc) <=? sram_mem_available_for_nat info) in
  let desc := mk_mem_desc (orig_rqst_size desc) (mmap_size desc) (base_addr desc)
    (mmap_addr desc) (addr_offset desc) (allocate_ioctl_num desc)
    (delete_ioctl_num desc) (md_name desc) (md_table_index desc) (md_valid desc)
    (consider_using_sram desc) available to_be_used info in
  let '(ret, offset, k) :=
    env_alloc_table ipa_fd (allocate_ioctl_num desc) (orig_rqst_size desc) k in
  if negb (ret =? 0) then (ret, desc, k) else
  (ret,
   mk_mem_desc (orig_rqst_size desc) (mmap_size desc) (base_addr desc)
     (mmap_addr desc) offset (allocate_ioctl_num desc) (delete_ioctl_num desc)
     (md_name desc) (md_table_index desc) (md_valid desc) (consider_using_sram desc)
     (sram_available desc) (sram_to_be_used desc) (nat_sram_info desc), k).

Definition with_map desc msize maddr baddr : ipa_mem_descriptor :=
  mk_mem_desc (orig_rqst_size desc) msize baddr maddr (addr_offset desc)
    (allocate_ioctl_num desc) (delete_ioctl_num desc) (md_name desc)
    (md_table_index desc) (md_valid desc) (consider_using_sram desc)
    (sram_available desc) (sram_to_be_used desc) (nat_sram_info desc).

Definition with_valid desc v : ipa_mem_descriptor :=
  mk_mem_desc (orig_rqst_size desc) (mmap_size desc) (base_addr desc) (mmap_addr desc)
    (addr_offset desc) (allocate_ioctl_num desc) (delete_ioctl_num desc) (md_name desc)
    (md_table_index desc) v (consider_using_sram desc) (sram_available desc)
    (sram_to_be_used desc) (nat_sram_info desc).

Definition MapMemory desc (ipa_fd : Z) k : Z * ipa_mem_descriptor * K :=
  let '(dir, len) := strlcpy IPA_DEV_DIR IPA_RESOURCE_NAME_MAX in
  if (IPA_RESOURCE_NAME_MAX <=? len)%nat then (- EINVAL, desc, k) else
  let '(nm, _) := strlcpy (md_name desc) (IPA_RESOURCE_NAME_MAX - len) in
  let path := String.append (default EmptyString dir) (default EmptyString nm) in
  let '(device_fd, k) := env_open path k in
  if device_fd <? 0 then (- EIO, desc, k) else
  let msize :=
    if sram_to_be_used desc then best_nat_in_sram_size_rqst (nat_sram_info desc)
    else orig_rqst_size desc in
  let '(addr, k) := env_mmap msize device_fd k in
  let desc := with_map desc msize addr addr in
  let '(ret, desc) :=
    if addr =? MAP_FAILED then (- EINVAL, desc)
    else
      (0, if sram_to_be_used desc
          then with_map desc msize addr
                 (addr + nat_table_offset_into_mmap (nat_sram_info desc))
          else desc) in
  let '(cl, k) := env_close device_fd k in
  ((if cl =? 0 then ret else - EINVAL), desc, k).

Definition DeallocateMemory desc (ipa_fd : Z) k : Z * K :=
  env_del_table ipa_fd (delete_ioctl_num desc)
    (mk_table_del (md_table_index desc)
       (if sram_to_be_used desc then IPA_NAT_MEM_IN_SRAM else IPA_NAT_MEM_IN_DDR)) k.

Definition ipa_mem_descriptor_init desc (device_name : string) (size table_index : Z)
    (allocate_ioctl delete_ioctl : table_ioctl) (consider_sram : bool)
    : ipa_mem_descriptor :=
  mk_mem_desc size size (base_addr desc) (mmap_addr desc) (addr_offset desc)
    allocate_ioctl delete_ioctl
    (default EmptyString (strlcpy device_name IPA_RESOURCE_NAME_MAX).1) table_index
    (md_valid desc) consider_sram (sram_available desc) (sram_to_be_used desc)
    (nat_sram_info desc).

Definition ipa_mem_descriptor_allocate_memory desc (ipa_fd : Z) k
    : Z * ipa_mem_descriptor * K :=
  let '(ret, desc, k) := AllocateMemory desc ipa_fd k in
  if negb (ret =? 0) then (ret, desc, k) else
  let '(ret, desc, k) := MapMemory desc ipa_fd k in
  if negb (ret =? 0) then
    let '(_, k) := DeallocateMemory desc ipa_fd k in (ret, desc, k)
  else (ret, with_valid desc true, k).

Definition ipa_mem_descriptor_delete desc (ipa_fd : Z) k : Z * ipa_mem_descriptor * K :=
  if negb (md_valid desc) then (- EINVAL, desc, k) else
  let desc := with_valid desc false in
  let k := env_munmap (mmap_addr desc) (mmap_size desc) k in
  let '(ret, k) := DeallocateMemory desc ipa_fd k in
  (ret, desc, k).
End MemDescriptors.

(** The records of a table of [n] records of [size] bytes that lie in the
    mapped memory [lo, hi), from address [addr] on. *)
Definition mapped_records {K} {E : IpaEnv K} (k : K) (hi addr size n : Z) : list Z :=
  map (fun j => env_initial k (addr + Z.of_nat j * size) size)
    (seq 0 (Z.to_nat (Z.min n ((hi - addr) / size)))).

(** ** Facts *)

Lemma strlcpy_loop_spec n src :
  let '(d, i, rest) := strlcpy_loop n src in
  d = String.substring 0 n src /\ (i + String.length rest)%nat = String.length src.
Proof.
  revert src. induction n as [|n IH]; intros [|ch src]; cbn; try done.
  specialize (IH src). destruct (strlcpy_loop n src) as [[d i] rest].
  destruct IH as [-> IH]. split; [done|]. lia.
Qed.

Lemma strlcpy_spec src size :
  strlcpy src (S size) = (Some (String.substring 0 size src), String.length src).
Proof.
  unfold strlcpy. pose proof (strlcpy_loop_spec size src) as H.
  destruct (strlcpy_loop size src) as [[d i] rest]. by destruct H as [-> ->].
Qed.

Lemma mapped_records_length {K} {E : IpaEnv K} (k : K) hi addr size n :
  0 < size -> 0 <= n -> addr + n * size <= hi ->
  lengthZ (mapped_records k hi addr size n) = n.
Proof.
  intros Hs Hn Hhi. unfold mapped_records, lengthZ. rewrite length_map, length_seq.
  assert (n <= (hi - addr) / size) by (apply Z.div_le_lower_bound; lia). lia.
Qed.

Section MemFacts.
Context {K : Type} {E : IpaEnv K} {laws : IpaMemLaws K}.

(** The table's bytes lie in the mapping. *)
Definition mapping_ok (md : ipa_mem_descriptor) : Prop :=
  0 < base_addr md /\ addr_offset md = 0
  /\ base_addr md + orig_rqst_size md <= mmap_addr md + mmap_size md.

Lemma AllocateMemory_spec md fd k md' k' :
  AllocateMemory md fd k = (0, md', k') ->
  addr_offset md' = 0 /\ orig_rqst_size md' = orig_rqst_size md
  /\ (sram_to_be_used md' = true ->
      0 <= nat_table_offset_into_mmap (nat_sram_info md')
      /\ nat_table_offset_into_mmap (nat_sram_info md') + u32 (orig_rqst_size md)
         <= best_nat_in_sram_size_rqst (nat_sram_info md')).
Proof.
  unfold AllocateMemory. destruct (env_get_sram_info fd k) as [[r info] k1] eqn:E1.
  destruct (env_alloc_table _ _ _ k1) as [[r2 off] k2] eqn:E2.
  destruct (Z.eqb_spec r2 0) as [->|Hr]; cbn; [|by intros [= ? ? ?]]. intros [= <- <-].
  cbn. split; [by eapply alloc_offset_zero|]. split; [done|].
  intros H. rewrite !andb_true_iff, Z.eqb_eq, Z.leb_le in H. destruct H as ((-> & _) & Hle).
  destruct (sram_info_fits _ _ _ _ E1). lia.
Qed.

Lemma MapMemory_spec md fd k md' k' :
  addr_offset md = 0 -> 0 <= orig_rqst_size md < 2 ^ 32 ->
  (sram_to_be_used md = true ->
      0 <= nat_table_offset_into_mmap (nat_sram_info md)
      /\ nat_table_offset_into_mmap (nat_sram_info md) + u32 (orig_rqst_size md)
         <= best_nat_in_sram_size_rqst (nat_sram_info md)) ->
  MapMemory md fd k = (0, md', k') ->
  mapping_ok md' /\ orig_rqst_size md' = orig_rqst_size md.
Proof.
  intros H0 Hsz Hsram. unfold MapMemory.
  destruct (strlcpy IPA_DEV_DIR _) as [dir len]. destruct (_ <=? len)%nat; [by intros [= ? ? ?]|].
  destruct (strlcpy (md_name md) _) as [nm ?]. destruct (env_open _ k) as [dfd k1].
  destruct (dfd <? 0); [by intros [= ? ? ?]|].
  destruct (env_mmap _ dfd k1) as [a k2] eqn:E2.
  destruct (env_close dfd k2) as [cl k3] eqn:E3. rewrite u32_small in Hsram by lia.
  destruct (mmap_not_null _ _ _ _ _ E2) as [->|Ha].
  - cbn. destruct (cl =? 0); by intros [= ? ? ?].
  - unfold MAP_FAILED. rewrite (proj2 (Z.eqb_neq a (-1))) by lia.
    destruct (cl =? 0); [|by intros [= ? ? ?]]. intros [= <- _]. unfold mapping_ok.
    cbn. destruct (sram_to_be_used md); cbn; [|lia].
    destruct (Hsram eq_refl). lia.
Qed.

Lemma allocate_memory_spec md fd k md' k' :
  0 <= orig_rqst_size md < 2 ^ 32 ->
  ipa_mem_descriptor_allocate_memory md fd k = (0, md', k') ->
  mapping_ok md' /\ orig_rqst_size md' = orig_rqst_size md /\ md_valid md' = true.
Proof.
  intros Hsz. unfold ipa_mem_descriptor_allocate_memory.
  destruct (AllocateMemory md fd k) as [[r1 md1] k1] eqn:E1.
  destruct (Z.eqb_spec r1 0) as [->|Hr]; cbn [negb]; [|by intros [= ? ? ?]].
  destruct (AllocateMemory_spec _ _ _ _ _ E1) as (A1 & A2 & A3).
  destruct (MapMemory md1 fd k1) as [[r2 md2] k2] eqn:E2.
  destruct (Z.eqb_spec r2 0) as [->|Hr]; cbn [negb].
  - intros [= <- _]. destruct (MapMemory_spec md1 fd k1 md2 k2) as [B1 B2]; [done|lia| |done|].
    + by rewrite A2.
    + split; [exact B1|]. split; [cbn; congruence|done].
  - destruct (DeallocateMemory md2 fd k2). by intros [= ? ? ?].
Qed.
End MemFacts.
