(* ===== verification/TableMem.v ===== *)
(** * A table's records in the memory the hardware works on

    The DMA entries a table generates, carried out by the hardware on its two
    lists of records, change the table as [table_apply] says. *)
From S2P Require Import Prelude Bitfield Chain Table TableFacts TableDma.
From S2P Require Import TableInsert TableDelete Env.

(** ** The memory the hardware sees *)

Definition mem_eq (m m' : tbl_mem) : Prop := forall ty, m ty = m' ty.

Lemma dma_effect_one_ext one m m' m1 :
  mem_eq m m' -> dma_effect_one one m = Some m1 ->
  exists m1', dma_effect_one one m' = Some m1' /\ mem_eq m1 m1'.
Proof.
  intros H. unfold dma_effect_one. rewrite <- H.
  destruct ((m (one_base_addr one)).[_]) as [e|]; [|done]. cbn. intros [= <-].
  eexists. split; [done|]. intros ty. case_decide; [done|apply H].
Qed.

Lemma dma_effect_ext ones m m' m1 :
  mem_eq m m' -> dma_effect ones m = Some m1 ->
  exists m1', dma_effect ones m' = Some m1' /\ mem_eq m1 m1'.
Proof.
  revert m m'. induction ones as [|one ones IH]; intros m m' H; cbn.
  - intros [= <-]. eauto.
  - destruct (dma_effect_one one m) as [m2|] eqn:E; [|done]. cbn. intros H1.
    destruct (dma_effect_one_ext _ _ _ _ H E) as (m2' & -> & H2). cbn. by apply (IH m2).
Qed.

Lemma take_updateZ {A} (l : list A) n i x :
  0 <= i -> (Z.to_nat i < n)%nat -> take n l.[i <- x] = (take n l).[i <- x].
Proof.
  intros Hi Hn. unfold updateZ. rewrite !decide_True by done. symmetry.
  apply list_eq. intros j. destruct (decide (j < n)%nat) as [Hj|Hj].
  - rewrite lookup_take_lt by done. destruct (decide (Z.to_nat i = j)) as [<-|Hne].
    + destruct (decide (Z.to_nat i < length l)%nat) as [Hl|Hl].
      * rewrite !list_lookup_insert_eq; [done|done|rewrite length_take; lia].
      * rewrite !lookup_ge_None_2; [done| |]; rewrite length_insert, ?length_take; lia.
    + rewrite !list_lookup_insert_ne by done. by rewrite lookup_take_lt.
  - rewrite !lookup_ge_None_2; [done| |]; rewrite ?length_take, ?length_insert, ?length_take; lia.
Qed.

Lemma take_updateZ_ge {A} (l : list A) n i x :
  (n <= Z.to_nat i)%nat -> take n l.[i <- x] = take n l.
Proof.
  intros Hn. unfold updateZ. case_decide; [|done]. by apply take_insert_ge.
Qed.

Lemma drop_updateZ_lt {A} (l : list A) n i x :
  (Z.to_nat i < n)%nat -> drop n l.[i <- x] = drop n l.
Proof. intros Hn. unfold updateZ. case_decide; [|done]. by apply drop_insert_lt. Qed.

Lemma drop_updateZ {A} (l : list A) (n : Z) i x :
  0 <= n <= i -> drop (Z.to_nat n) l.[i <- x] = (drop (Z.to_nat n) l).[i - n <- x].
Proof.
  intros Hn. unfold updateZ. rewrite !decide_True by lia.
  rewrite drop_insert_ge by lia. f_equal. lia.
Qed.

Lemma lookupZ_take {A} (l : list A) (n i : Z) :
  0 <= i < n -> (take (Z.to_nat n) l).[i] = l.[i].
Proof. intros H. unfold lookupZ. rewrite !decide_True by lia. apply lookup_take_lt. lia. Qed.

Lemma lookupZ_drop {A} (l : list A) (n i : Z) :
  0 <= n <= i -> (drop (Z.to_nat n) l).[i - n] = l.[i].
Proof.
  intros H. unfold lookupZ. rewrite !decide_True by lia. rewrite lookup_drop. f_equal. lia.
Qed.

(** ** One entry of a command *)

Section Effect.
Context {U : Type} (bt et : ipa_table_dma_type) (t : ipa_table U) (m : tbl_mem).
Hypothesis (Hne : bt <> et) (Hsz : 0 < entry_size t) (Hbase : 0 <= table_entries t)
  (Hbs : hw_record_size bt = entry_size t) (Hes : hw_record_size et = entry_size t)
  (Hmb : m bt = take (Z.to_nat (table_entries t)) (slots t))
  (Hme : m et = drop (Z.to_nat (table_entries t)) (slots t)).

Lemma effect_the_one off i d e :
  0 <= off < entry_size t -> (slots t).[i] = Some e ->
  exists m', dma_effect_one (the_one bt et t off i d) m = Some m'
    /\ m' bt = take (Z.to_nat (table_entries t)) (slots t).[i <- record_put16 e off d]
    /\ m' et = drop (Z.to_nat (table_entries t)) (slots t).[i <- record_put16 e off d]
    /\ forall ty, ty <> bt -> ty <> et -> m' ty = m ty.
Proof.
  intros Hoff He. pose proof (lookupZ_Some_range _ _ _ He) as Hi.
  assert (Hdiv : forall k, (off + k * entry_size t) / entry_size t = k)
    by (intros; rewrite Z.div_add, Z.div_small by lia; lia).
  assert (Hmod : forall k, (off + k * entry_size t) mod entry_size t = off)
    by (intros; rewrite Z.mod_add, Z.mod_small by lia; done).
  unfold dma_effect_one, the_one. destruct (table_entries t <=? i) eqn:E;
    [apply Z.leb_le in E|apply Z.leb_gt in E]; cbn [one_base_addr one_offset one_data].
  - rewrite Hes, Hdiv, Hmod, Hme, lookupZ_drop, He by lia. cbn.
    eexists. split; [done|]. cbn. rewrite decide_False, decide_True by done.
    rewrite record_put16_u16, drop_updateZ, take_updateZ_ge, Hmb by lia. split_and!; try done.
    intros ty H1 H2. by rewrite decide_False.
  - rewrite Hbs, Hdiv, Hmod, Hmb, lookupZ_take, He by lia. cbn.
    eexists. split; [done|]. cbn. rewrite decide_True, decide_False by done.
    rewrite record_put16_u16, take_updateZ, drop_updateZ_lt, Hme by lia. split_and!; try done.
    intros ty H1 H2. by rewrite decide_False.
Qed.
End Effect.

(** ** The entries of a command for one table *)

Section Command.
Context {U : Type} (I : ipa_table_entry_interface U) (L : entry_layout)
  (free_ok : Z -> Prop) (meta_ok : option (list Z) -> Z -> Prop)
  {laws : TableEntryLaws I L free_ok meta_ok}.
Context (bt et : ipa_table_dma_type) (Hne : bt <> et).
Implicit Types (t : ipa_table U) (m : tbl_mem).

(** An entry for a record of the table. *)
Definition own_dma t (one : ipa_ioc_nat_dma_one) : Prop :=
  exists off i d, one = the_one bt et t off i d
    /\ 0 <= off < el_size L /\ 0 <= i < tot_tbl_ents t.

Definition in_memory t m : Prop :=
  m bt = take (Z.to_nat (table_entries t)) (slots t)
  /\ m et = drop (Z.to_nat (table_entries t)) (slots t).

Lemma own_dma_shape t t' one : same_shape t t' -> own_dma t one -> own_dma t' one.
Proof.
  intros Hs (off & i & d & -> & Ho & Hi). exists off, i, d.
  rewrite (the_one_same_shape _ _ _ _ _ _ _ Hs). destruct Hs as (_ & _ & _ & -> & _). done.
Qed.

Lemma effect_apply ones t m t' :
  wf_layout I L meta_ok t -> hw_record_size bt = el_size L -> hw_record_size et = el_size L ->
  in_memory t m -> Forall (own_dma t) ones -> table_apply bt et ones t = Some t' ->
  exists m', dma_effect ones m = Some m' /\ in_memory t' m'
    /\ t' = with_slots t (slots t') /\ same_shape t t'
    /\ forall ty, ty <> bt -> ty <> et -> m' ty = m ty.
Proof.
  intros Hl Hbs Hes. revert t m Hl. induction ones as [|one ones IH]; intros t m Hl Hm Hf Ha.
  { injection Ha as <-. exists m. split_and!; try done; by destruct t. }
  apply Forall_cons in Hf as [(off & i & d & -> & Hoff & Hi) Hf].
  pose proof (wl_entry_size _ _ _ _ Hl) as Esz. rewrite <- Esz in Hoff.
  destruct (record_in_range _ _ _ _ i Hl Hi) as [e He]. cbn [table_apply] in Ha.
  rewrite (apply_the_one I L meta_ok _ _ _ _ _ _ e) in Ha by done. cbn [mbind option_bind] in Ha.
  set (t1 := with_slots t _) in *.
  assert (Hsh : same_shape t t1) by (unfold t1; repeat split; cbn; by rewrite lengthZ_updateZ).
  destruct Hm as [Hm1 Hm2]. pose proof (wl_base _ _ _ _ Hl).
  destruct (effect_the_one bt et t m Hne (wl_esz _ _ _ _ Hl) ltac:(lia)
    ltac:(by rewrite Esz) ltac:(by rewrite Esz) Hm1 Hm2 off i d e Hoff He)
    as (m1 & E1 & Hb & He1 & Hot).
  assert (Hl1 : wf_layout I L meta_ok t1)
    by (apply (wf_layout_same_shape _ _ _ t); [done|done|apply (wl_meta _ _ _ _ Hl)]).
  assert (Hf1 : Forall (own_dma t1) ones)
    by (eapply Forall_impl; [exact Hf|intros x; by apply own_dma_shape]).
  destruct (IH t1 m1 Hl1 (conj Hb He1) Hf1 Ha) as (m2 & E2 & Hm & Et & Hs2 & Hot2).
  exists m2. cbn [dma_effect]. rewrite E1. cbn [mbind option_bind]. split_and!; try done.
  - unfold same_shape in *. intuition congruence.
  - intros ty H1 H2. by rewrite Hot2, Hot.
Qed.
(** The entries of insertions and deletions are the table's own. *)
Lemma ins_ones_own t h n link (mt : option (list Z)) d is_idx :
  wf_layout I L meta_ok t -> insertion I meta_ok t h n link mt ->
  Forall (own_dma t) (ins_ones L bt et t is_idx n link d).
Proof.
  intros Hl (Hn & _ & _ & _ & Hlk). pose proof (tel_offsets (L := L)) as (O1 & O2 & _).
  pose proof (wl_slots _ _ _ _ Hl) as Hs. unfold ins_ones, tail_ones.
  assert (Hh : own_dma t (the_one bt et t (el_head_off L) n d)) by (exists (el_head_off L), n, d; split_and!; (done || lia)).
  destruct link as [[p ep]|]; [|by apply Forall_singleton].
  destruct Hlk as (_ & _ & Hep & _). apply lookupZ_Some_range in Hep.
  assert (Hp : own_dma t (the_one bt et t (el_next_off L) p n)) by (exists (el_next_off L), p, n; split_and!; (done || lia)).
  destruct is_idx; cbn [app]; repeat (apply Forall_cons; split); try done; by apply Forall_nil.
Qed.

Lemma delete_one_own t i l :
  wf_table I L free_ok meta_ok t -> view I t i = Some l -> own_dma t (delete_one I L bt et t i l).
Proof.
  intros Hwf Hv. destruct (delete_one_in_table I L free_ok meta_ok bt et t i l Hwf Hv)
    as (off & k & d & -> & Ho & Hk). by exists off, k, d.
Qed.
End Command.
