(* ===== verification/Ipv6ct.v ===== *)
(** * IPv6 connection tracking ([ipanat/src/ipa_ipv6ct.c])

    The third client of the generic table: one table of rules in DDR, without
    index table.  The static variable [ipv6ct] is the record of that name,
    [ct_state] adds the state of the environment.  [None] is undefined
    behaviour; most calls dereference the descriptor, which is null until a
    table was created. *)
From S2P Require Import Prelude Bitfield Table Sizing NatRule Env Ipv6Rule.

Definition IPA_IPV6CT_MAX_TBLS : Z := 1.
Definition IPA_MAX_DMA_ENTRIES_FOR_ADD : nat := 2.
Definition IPA_MAX_DMA_ENTRIES_FOR_DEL : nat := 2.
Definition IPA_IPV6CT_DEV_NAME : string := "ipaIpv6CTTable".

(** What this file calls besides [IpaEnv]: its own mutex, and the ioctls for
    uC activation entries (the bytes of the union before and after). *)
Class Ipv6Env (K : Type) := {
  env_v6_lock : K -> Z * K;
  env_v6_unlock : K -> Z * K;
  env_add_uc_act : Z -> Z -> K -> Z * Z * K;
  env_del_uc_act : Z -> Z -> K -> Z * K
}.

(** The DMA helpers are held by the table. *)
Record ipa_ipv6ct_table := mk_ct_table {
  ct_mem_desc : ipa_mem_descriptor;
  ct_table : ipa_table ipa_ipv6ct_rule
}.

Record ipa_ipv6ct := mk_ipv6ct {
  ct_ipa_desc : option ipa_descriptor;
  ct_tables : list ipa_ipv6ct_table;
  ct_table_cnt : Z
}.

Definition ct_table_zero : ipa_ipv6ct_table := mk_ct_table mem_desc_zero ipa_table_zero.

Definition ipv6ct_init : ipa_ipv6ct := mk_ipv6ct None [ct_table_zero] 0.

Definition with_ct_table (ct : ipa_ipv6ct_table) (t : ipa_table ipa_ipv6ct_rule) :=
  mk_ct_table (ct_mem_desc ct) t.
Definition with_ct (v : ipa_ipv6ct) (i : Z) (ct : ipa_ipv6ct_table) :=
  mk_ipv6ct (ct_ipa_desc v) (ct_tables v).[i <- ct] (ct_table_cnt v).
Definition with_ct_desc (v : ipa_ipv6ct) (d : option ipa_descriptor) :=
  mk_ipv6ct d (ct_tables v) (ct_table_cnt v).
Definition with_ct_cnt (v : ipa_ipv6ct) (n : Z) :=
  mk_ipv6ct (ct_ipa_desc v) (ct_tables v) n.

Record ct_state (K : Type) := mk_ct_state { ipv6ct : ipa_ipv6ct; ct_env : K }.
Arguments mk_ct_state {K}.
Arguments ipv6ct {K}.
Arguments ct_env {K}.

(** The table's records in the memory the hardware works on, and back. *)
Definition ct_mem (ct : ipa_ipv6ct_table) : tbl_mem := fun ty =>
  match ty with
  | IPA_IPV6CT_BASE_TBL => take (Z.to_nat (table_entries (ct_table ct))) (slots (ct_table ct))
  | IPA_IPV6CT_EXPN_TBL => drop (Z.to_nat (table_entries (ct_table ct))) (slots (ct_table ct))
  | _ => []
  end.

Definition with_ct_mem (ct : ipa_ipv6ct_table) (m : tbl_mem) : ipa_ipv6ct_table :=
  with_ct_table ct (with_slots (ct_table ct) (m IPA_IPV6CT_BASE_TBL ++ m IPA_IPV6CT_EXPN_TBL)).

(** ** Creation and destruction *)

Definition ipa_ipv6ct_create_table_dma_cmd_helpers (ct : ipa_ipv6ct_table) (table_indx : Z)
    : ipa_ipv6ct_table :=
  let helper off := ipa_table_dma_cmd_helper_init table_indx IPA_IPV6CT_BASE_TBL
    IPA_IPV6CT_EXPN_TBL (addr_offset (ct_mem_desc ct) + off) in
  with_ct_table ct (with_dma_help (ct_table ct) (fun ht =>
    match ht with
    | HELP_UPDATE_HEAD => Some (helper IPA_IPV6CT_RULE_FLAG_FIELD_OFFSET)
    | HELP_UPDATE_ENTRY => Some (helper IPA_IPV6CT_RULE_NEXT_FIELD_OFFSET)
    | HELP_DELETE_HEAD => Some (helper IPA_IPV6CT_RULE_PROTO_FIELD_OFFSET)
    | HELP_UPDATE_MAX => None
    end)).

Section Operations.
Context {K : Type} {E : IpaEnv K} {E6 : Ipv6Env K}.
Implicit Types (k : K) (s : ct_state K) (v : ipa_ipv6ct) (ct : ipa_ipv6ct_table).

Definition ipa_ipv6ct_create_table v ct (number_of_entries table_index : Z) k
    : option (Z * ipa_ipv6ct_table * K) :=
  let t : ipa_table ipa_ipv6ct_rule :=
    ipa_table_init "IPA IPv6CT table" IPA_NAT_MEM_IN_DDR sizeof_ipa_ipv6ct_hw_entry None 0
      (Some ct_entry_interface) in
  '(ret, t) ← ipa_table_calculate_entries_num t number_of_entries IPA_NAT_MEM_IN_DDR;
  let ct := with_ct_table ct t in
  if negb (ret =? 0) then Some (ret, ct, k) else
  let md := ipa_mem_descriptor_init (ct_mem_desc ct) IPA_IPV6CT_DEV_NAME
    (ipa_table_calculate_size t) table_index IPA_IOC_ALLOC_IPV6CT_TABLE
    IPA_IOC_DEL_IPV6CT_TABLE false in
  d ← ct_ipa_desc v;
  let '(ret, md, k) := ipa_mem_descriptor_allocate_memory md (fd d) k in
  if negb (ret =? 0) then Some (ret, ct_table_zero, k) else
  let base := base_addr md in
  let '(t, _) := ipa_table_calculate_addresses t base
    (mapped_records k (mmap_addr md + mmap_size md) base (entry_size t) (tot_tbl_ents t)) in
  t ← ipa_table_reset t;
  Some (0, ipa_ipv6ct_create_table_dma_cmd_helpers (mk_ct_table md t) table_index, k).

Definition ipa_ipv6ct_destroy_table v ct k : option (Z * ipa_ipv6ct_table * K) :=
  d ← ct_ipa_desc v;
  let '(ret, _, k) := ipa_mem_descriptor_delete (ct_mem_desc ct) (fd d) k in
  Some (ret, ct_table_zero, k).

Definition ipa_ipv6ct_post_init_cmd v ct (tbl_index : Z) k : option (Z * K) :=
  let base := addr_offset (ct_mem_desc ct) in
  let expn := u32 (base + table_entries (ct_table ct) * sizeof_ipa_ipv6ct_hw_entry) in
  d ← ct_ipa_desc v;
  Some (env_ipv6ct_init (fd d)
    (mk_v6_init base expn (u16 (table_entries (ct_table ct) - 1))
       (expn_table_entries (ct_table ct)) tbl_index) k).

Definition ipa_ipv6ct_post_dma_cmd v ct (cmd : ipa_ioc_nat_dma_cmd) k
    : option (Z * ipa_ipv6ct_table * K) :=
  let cmd := mk_dma_cmd (entries cmd) IPA_NAT_MEM_IN_DDR (dma cmd) in
  d ← ct_ipa_desc v;
  let '(ret, m, k) := env_table_dma (fd d) cmd (ct_mem ct) k in
  Some (if ret =? 0 then 0 else - EIO, with_ct_mem ct m, k).

(** The label [bail_ipa_desc] of [ipa_ipv6ct_add_tbl]; the handle is 0. *)
Definition bail_ipa_desc (ret : Z) v k : Z * option Z * ct_state K :=
  if ct_table_cnt v =? 0
  then (ret, Some 0, mk_ct_state (with_ct_desc v None) (ipa_descriptor_close (ct_ipa_desc v) k))
  else (ret, Some 0, mk_ct_state v k).

(** Status, what the handle pointer (null if [None]) points to, and state.
    The mutex is not taken. *)
Definition ipa_ipv6ct_add_tbl s (number_of_entries : Z) (table_handle : option Z)
    : option (Z * option Z * ct_state K) :=
  let v := ipv6ct s in
  match table_handle with
  | None => Some (- EINVAL, None, s)
  | Some _ =>
      if number_of_entries =? 0 then Some (- EINVAL, table_handle, s) else
      if IPA_IPV6CT_MAX_TBLS <=? ct_table_cnt v then Some (- EINVAL, Some 0, s) else
      let '(desc, k) :=
        match ct_ipa_desc v with
        | Some d => (Some d, ct_env s)
        | None => ipa_descriptor_open (ct_env s)
        end in
      let v := with_ct_desc v desc in
      match desc with
      | None => Some (- EIO, Some 0, mk_ct_state v k)
      | Some d =>
          if ver d <? IPA_HW_v4_0 then Some (bail_ipa_desc (- EPERM) v k) else
          let i := ct_table_cnt v in
          ct ← (ct_tables v).[i];
          '(ret, ct, k) ← ipa_ipv6ct_create_table v ct number_of_entries i k;
          let v := with_ct v i ct in
          if negb (ret =? 0) then Some (bail_ipa_desc ret v k) else
          '(ret, k) ← ipa_ipv6ct_post_init_cmd v ct i k;
          if negb (ret =? 0) then
            '(_, ct, k) ← ipa_ipv6ct_destroy_table v ct k;
            Some (bail_ipa_desc ret (with_ct v i ct) k)
          else
          let v := with_ct_cnt v (u8 (ct_table_cnt v + 1)) in
          Some (0, Some (ct_table_cnt v), mk_ct_state v k)
      end
  end.

(** Release the mutex; a failure overrides a status of zero. *)
Definition unlock_ct (ret : Z) v k : Z * ct_state K :=
  let '(u, k) := env_v6_unlock k in
  ((if u =? 0 then ret else if ret =? 0 then - EPERM else ret), mk_ct_state v k).

Definition invalid_ct_handle (table_handle : Z) : bool :=
  (table_handle =? IPA_TABLE_INVALID_ENTRY) || (IPA_IPV6CT_MAX_TBLS <? table_handle).

Definition ipa_ipv6ct_del_tbl s (table_handle : Z) : option (Z * ct_state K) :=
  let v := ipv6ct s in
  d ← ct_ipa_desc v;
  if ver d <? IPA_HW_v4_0 then Some (- EINVAL, s) else
  if invalid_ct_handle table_handle then Some (- EINVAL, s) else
  let '(l, k) := env_v6_lock (ct_env s) in
  if negb (l =? 0) then Some (- EINVAL, mk_ct_state v k) else
  ct ← (ct_tables v).[table_handle - 1];
  if negb (md_valid (ct_mem_desc ct)) then Some (unlock_ct (- EINVAL) v k) else
  '(ret, ct, k) ← ipa_ipv6ct_destroy_table v ct k;
  let v := with_ct v (table_handle - 1) ct in
  if negb (ret =? 0) then Some (unlock_ct ret v k) else
  let v := with_ct_cnt v (u8 (ct_table_cnt v - 1)) in
  if ct_table_cnt v =? 0
  then Some (unlock_ct ret (with_ct_desc v None) (ipa_descriptor_close (ct_ipa_desc v) k))
  else Some (unlock_ct ret v k).

(** ** Rules *)

(** The body of [ipa_ipv6ct_add_rule] with the mutex held and the table found
    valid: status, rule handle, table and environment. *)
Definition add_ct_rule_locked v ct (r : ipa_ipv6ct_rule) k
    : option (Z * Z * ipa_ipv6ct_table * K) :=
  let cmd := dma_cmd_zero IPA_MAX_DMA_ENTRIES_FOR_ADD in
  bucket ← ipa_ipv6ct_hash r (u16 (table_entries (ct_table ct) - 1));
  '(ret, t, new_entry_index, hdl, cmd) ←
    ipa_table_add_entry (ct_table ct) r bucket (Some 0) cmd;
  let ct := with_ct_table ct t in
  if negb (ret =? 0) then Some (ret, 0, ct, k) else
  '(ret, ct, k) ← ipa_ipv6ct_post_dma_cmd v ct cmd k;
  if negb (ret =? 0) then
    t ← ipa_table_erase_entry (ct_table ct) new_entry_index;
    Some (ret, 0, with_ct_table ct t, k)
  else Some (0, default 0 hdl, ct, k).

(** Status, what the handle pointer points to, and state. *)
Definition ipa_ipv6ct_add_rule s (table_handle : Z) (user_rule : option ipa_ipv6ct_rule)
    (rule_handle : option Z) : option (Z * option Z * ct_state K) :=
  let v := ipv6ct s in
  d ← ct_ipa_desc v;
  if ver d <? IPA_HW_v4_0 then Some (- EINVAL, rule_handle, s) else
  if invalid_ct_handle table_handle then Some (- EINVAL, rule_handle, s) else
  match user_rule, rule_handle with
  | Some r, Some _ =>
      if cu_protocol r =? IPA_IPV6CT_INVALID_PROTO_FIELD_CMP
      then Some (- EINVAL, rule_handle, s) else
      let '(l, k) := env_v6_lock (ct_env s) in
      if negb (l =? 0) then Some (- EINVAL, rule_handle, mk_ct_state v k) else
      ct ← (ct_tables v).[table_handle - 1];
      if negb (md_valid (ct_mem_desc ct)) then
        Some (- EINVAL, rule_handle, mk_ct_state v (env_v6_unlock k).2)
      else
      '(ret, hdl, ct, k) ← add_ct_rule_locked v ct r k;
      let v := with_ct v (table_handle - 1) ct in
      let '(u, k) := env_v6_unlock k in
      if negb (ret =? 0) then Some (ret, rule_handle, mk_ct_state v k)
      else if u =? 0 then Some (0, Some hdl, mk_ct_state v k)
      else Some (- EPERM, rule_handle, mk_ct_state v k)
  | _, _ => Some (- EINVAL, rule_handle, s)
  end.

(** The record is erased, unless it heads a chain with members. *)
Definition ct_delete_step (t : ipa_table ipa_ipv6ct_rule) (it : ipa_table_iterator)
    : option (ipa_table ipa_ipv6ct_rule) :=
  if negb (ipa_table_iterator_is_head_with_tail it) then
    is_prev_empty ←
      (if prev_entry it =? NULL then Some false
       else prev ← rec_load t (prev_entry it);
            Some (getf ct_protocol prev =? IPA_IPV6CT_INVALID_PROTO_FIELD_CMP));
    ipa_table_delete_entry t it is_prev_empty
  else Some t.

(** The body of [ipa_ipv6ct_del_rule] with the mutex held and the table found
    valid. *)
Definition del_ct_rule_locked v ct (rule_handle : Z) k
    : option (Z * ipa_ipv6ct_table * K) :=
  match ipa_table_get_entry (ct_table ct) rule_handle with
  | (ret, None) => Some (ret, ct, k)
  | (_, Some (entry, index)) =>
      '(ret, it) ← ipa_table_iterator_init (ct_table ct) entry index;
      if negb (ret =? 0) then Some (ret, ct, k) else
      let cmd := dma_cmd_zero IPA_MAX_DMA_ENTRIES_FOR_DEL in
      cmd ← ipa_table_create_delete_command (ct_table ct) cmd it;
      '(ret, ct, k) ← ipa_ipv6ct_post_dma_cmd v ct cmd k;
      if negb (ret =? 0) then Some (ret, ct, k) else
      t ← ct_delete_step (ct_table ct) it;
      Some (ret, with_ct_table ct t, k)
  end.

Definition ipa_ipv6ct_del_rule s (table_handle rule_handle : Z) : option (Z * ct_state K) :=
  let v := ipv6ct s in
  d ← ct_ipa_desc v;
  if ver d <? IPA_HW_v4_0 then Some (- EINVAL, s) else
  if invalid_ct_handle table_handle || (rule_handle =? IPA_TABLE_INVALID_ENTRY)
  then Some (- EINVAL, s) else
  let '(l, k) := env_v6_lock (ct_env s) in
  if negb (l =? 0) then Some (- EINVAL, mk_ct_state v k) else
  ct ← (ct_tables v).[table_handle - 1];
  if negb (md_valid (ct_mem_desc ct)) then Some (unlock_ct (- EINVAL) v k) else
  '(ret, ct, k) ← del_ct_rule_locked v ct rule_handle k;
  Some (unlock_ct ret (with_ct v (table_handle - 1) ct) k).

(** Status, what the time stamp pointer points to, and state. *)
Definition ipa_ipv6ct_query_timestamp s (table_handle rule_handle : Z) (time_stamp : option Z)
    : option (Z * option Z * ct_state K) :=
  let v := ipv6ct s in
  d ← ct_ipa_desc v;
  if ver d <? IPA_HW_v4_0 then Some (- EINVAL, time_stamp, s) else
  if invalid_ct_handle table_handle || (rule_handle =? IPA_TABLE_INVALID_ENTRY)
     || match time_stamp with None => true | Some _ => false end
  then Some (- EINVAL, time_stamp, s) else
  let '(l, k) := env_v6_lock (ct_env s) in
  if negb (l =? 0) then Some (- EINVAL, time_stamp, mk_ct_state v k) else
  ct ← (ct_tables v).[table_handle - 1];
  if negb (md_valid (ct_mem_desc ct)) then
    let '(ret, s) := unlock_ct (- EINVAL) v k in Some (ret, time_stamp, s)
  else
  match ipa_table_get_entry (ct_table ct) rule_handle with
  | (ret, Some (entry, _)) =>
      e ← rec_load (ct_table ct) entry;
      let '(ret, s) := unlock_ct ret v k in Some (ret, Some (getf ct_time_stamp e), s)
  | (ret, None) => let '(ret, s) := unlock_ct ret v k in Some (ret, time_stamp, s)
  end.

(** ** uC activation entries *)

(** Status, the entry after the ioctl, and state. *)
Definition ipa_ipv6ct_add_uc_act_entry s (u : Z) : option (Z * Z * ct_state K) :=
  d ← ct_ipa_desc (ipv6ct s);
  let '(ret, u, k) := env_add_uc_act (fd d) u (ct_env s) in
  Some (if ret =? 0 then 0 else - EIO, u, mk_ct_state (ipv6ct s) k).

Definition ipa_ipv6ct_del_uc_act_entry s (index : Z) : option (Z * ct_state K) :=
  d ← ct_ipa_desc (ipv6ct s);
  let '(ret, k) := env_del_uc_act (fd d) index (ct_env s) in
  Some (if ret =? 0 then 0 else - EIO, mk_ct_state (ipv6ct s) k).
End Operations.
