(* ===== verification/Ipv6Ops.v ===== *)
(** * The IPv6 connection tracking table: invariant, insertion and deletion

    [wf_ct] is the invariant of the table, [ct_rules] the map from handles to
    rules it stands for.  A posted command has its effect or none; an
    insertion adds the rule asked for to the chain of its bucket or leaves the
    map as it was. *)
From S2P Require Import Prelude Bitfield Chain Table TableFacts TableDma TableInsert TableDelete.
From S2P Require Import TableHandle TableHold Ipv6Rule Ipv6Facts Env TableMem Ipv6ct.

Abbreviation ct_view := (view ct_entry_interface).
Abbreviation wf_ct_layout := (wf_layout ct_entry_interface ct_layout ct_meta_ok).
Abbreviation wf_cttab := (wf_table ct_entry_interface ct_layout ct_free ct_meta_ok).
Abbreviation ct_helpers := (wf_helpers ct_layout IPA_IPV6CT_BASE_TBL IPA_IPV6CT_EXPN_TBL).
Abbreviation ct_insertion := (insertion ct_entry_interface ct_meta_ok).
Abbreviation ct_live := (live_in ct_entry_interface ct_dead).
Abbreviation ct_dead_ok := (dead_ok ct_entry_interface ct_dead).
Abbreviation ct_ones := (ins_ones ct_layout IPA_IPV6CT_BASE_TBL IPA_IPV6CT_EXPN_TBL).
Abbreviation ct_final := (ins_final ct_layout false).

Record wf_ct (t : ipa_table ipa_ipv6ct_rule) : Prop := {
  cw_table : wf_cttab t;
  cw_helpers : ct_helpers t;
  cw_dead : ct_dead_ok t;
  cw_hdl : hdl_fits t;
  cw_size : 2 <= table_entries t;
  cw_nmi : nmi t = 0
}.

(** The rules in the table, by their handles. *)
Definition ct_rules (t : ipa_table ipa_ipv6ct_rule) : gmap Z ct_flow :=
  table_rules ct_entry_interface ct_dead ct_decode t.

Lemma wf_ct_change t t' :
  wf_ct t -> wf_cttab t' -> same_shape t t' -> ct_dead_ok t' -> wf_ct t'.
Proof.
  intros [H1 H2 H3 H4 H5 H6] Hwf Hs Hd. split; try done.
  - by eapply wf_helpers_same_shape.
  - by eapply hdl_fits_shape.
  - by destruct Hs as (_ & -> & _).
  - by destruct Hs as (_ & _ & _ & _ & _ & _ & _ & _ & -> & _).
Qed.

Lemma wf_ct_layout_of t : wf_ct t -> wf_ct_layout t.
Proof. intros H. apply (wt_layout _ _ _ _ _ (cw_table _ H)). Qed.

Lemma ct_rules_same t t' :
  wf_ct t -> wf_ct t' -> same_shape t t' -> (forall i e, ct_live t' i e <-> ct_live t i e) ->
  ct_rules t' = ct_rules t.
Proof.
  intros H H' Hs Hsame.
  exact (table_rules_same ct_entry_interface ct_layout ct_meta_ok ct_dead ct_decode t t'
    (wf_ct_layout_of _ H) (wf_ct_layout_of _ H') (cw_hdl _ H) Hs Hsame).
Qed.

(** ** Posting *)

Lemma with_ct_table_id ct : with_ct_table ct (ct_table ct) = ct.
Proof. by destruct ct. Qed.

Lemma with_ct_mem_in_memory ct t' m :
  table_entries t' = table_entries (ct_table ct) -> t' = with_slots (ct_table ct) (slots t') ->
  in_memory IPA_IPV6CT_BASE_TBL IPA_IPV6CT_EXPN_TBL t' m ->
  with_ct_mem ct m = with_ct_table ct t'.
Proof.
  intros Hb Et [H1 H2]. unfold with_ct_mem. rewrite H1, H2, take_drop. by rewrite <- Et.
Qed.

Lemma ct_mem_in_memory ct :
  in_memory IPA_IPV6CT_BASE_TBL IPA_IPV6CT_EXPN_TBL (ct_table ct) (ct_mem ct).
Proof. done. Qed.

Lemma in_memory_ext bt et {U} (t : ipa_table U) m m' :
  (forall ty, m' ty = m ty) -> in_memory bt et t m -> in_memory bt et t m'.
Proof. intros E [H1 H2]. by split; rewrite E. Qed.

Lemma ct_post_spec {K} {E : IpaEnv K} {laws : IpaEnvLaws K} v d ct cmd (k : K) t' :
  ct_ipa_desc v = Some d -> wf_ct_layout (ct_table ct) ->
  Forall (own_dma ct_layout IPA_IPV6CT_BASE_TBL IPA_IPV6CT_EXPN_TBL (ct_table ct)) (cmd_ones cmd) ->
  table_apply IPA_IPV6CT_BASE_TBL IPA_IPV6CT_EXPN_TBL (cmd_ones cmd) (ct_table ct) = Some t' ->
  exists k', ipa_ipv6ct_post_dma_cmd v ct cmd k = Some (0, with_ct_table ct t', k')
    \/ ipa_ipv6ct_post_dma_cmd v ct cmd k = Some (- EIO, ct, k').
Proof.
  intros Hd Hl Hf Ha.
  destruct (effect_apply ct_entry_interface ct_layout ct_meta_ok IPA_IPV6CT_BASE_TBL
    IPA_IPV6CT_EXPN_TBL ltac:(done) _ _ _ t' Hl eq_refl eq_refl (ct_mem_in_memory ct) Hf Ha)
    as (m' & Em & Hm & Et & Hs & _).
  unfold ipa_ipv6ct_post_dma_cmd. rewrite Hd. cbn [mbind option_bind].
  destruct (env_table_dma _ _ _ k) as [[ret m1] k'] eqn:Ed. exists k'.
  destruct (Z.eqb_spec ret 0) as [->|Hr].
  - left. do 3 f_equal. apply with_ct_mem_in_memory; [apply Hs|done|].
    eapply in_memory_ext; [|exact Hm]. intros ty. eapply dma_success; [exact Ed|done].
  - right. do 3 f_equal. rewrite (with_ct_mem_in_memory ct (ct_table ct)).
    + apply with_ct_table_id.
    + done.
    + by destruct (ct_table ct).
    + eapply in_memory_ext; [|apply ct_mem_in_memory]. intros ty. eapply dma_failure; [exact Ed|done].
Qed.

(** ** The new record *)

Definition ct_enable_data : Z := setf ct_flag_enable 0 IPA_IPV6CT_FLAG_ENABLE_BIT.

#[local] Opaque getf setf MakeEntryHdl.

Lemma ct_head_insert_spec e r :
  direction_valid r = true -> wf_ct_rule r -> ct_free e ->
  exists e', table_entry_head_insert e r = Some (0, e', ct_enable_data)
    /\ same_fields ct_links e e' /\ ct_decode e' = ct_flow_of r.
Proof.
  intros Hd Hr Hf. destruct (ct_copy_spec e r Hd Hr Hf) as (e' & Ec & H).
  exists e'. unfold table_entry_head_insert. by rewrite Ec.
Qed.

Lemma ct_new_record_spec t r n link m en e1 d :
  direction_valid r = true -> wf_ct_rule r -> ct_free en -> meta t = None ->
  0 <= link_prev link < 65536 ->
  new_record ct_entry_interface t r n link m en e1 d ->
  d = ct_enable_data /\ getf ct_next_index e1 = 0
  /\ getf ct_prev_index e1 = link_prev link /\ ct_decode e1 = ct_flow_of r.
Proof.
  intros Hd Hr Hf Hm Hp Hn. destruct (ct_head_insert_spec en r Hd Hr Hf) as (e' & Eh & Hs & Hdec).
  pose proof Hf as (F1 & F2 & _).
  assert (N1 : getf ct_next_index e' = 0)
    by (rewrite <- F1; by apply (same_fields_read ct_links)).
  assert (N2 : getf ct_prev_index e' = 0)
    by (rewrite <- F2; by apply (same_fields_read ct_links)).
  destruct link as [[p ep]|]; cbn [new_record link_prev] in *.
  - destruct Hn as (e0 & Et & Es & _). unfold tail_copy, is_index in Et. rewrite Hm in Et.
    cbn in Et. rewrite Eh in Et. injection Et as <- <-. injection Es as <- _. split; [done|].
    split; [by simp_fields|]. split.
    + rewrite getf_setf_eq by field_side. by apply (u16_small p).
    + rewrite <- Hdec. apply ct_decode_same. apply same_fields_setf; [done|field_side].
  - cbn in Hn. rewrite Eh in Hn. by injection Hn as <- <-.
Qed.

(** After the command. *)
Lemma ct_final_record link e1 :
  let ef := ct_final link e1 ct_enable_data in
  table_entry_is_valid ef = true /\ getf ct_next_index ef = getf ct_next_index e1
  /\ getf ct_prev_index ef = getf ct_prev_index e1 /\ ct_decode ef = ct_decode e1.
Proof.
  assert (E : ct_final link e1 ct_enable_data
              = record_put16 e1 IPA_IPV6CT_RULE_FLAG_FIELD_OFFSET ct_enable_data)
    by (by destruct link).
  rewrite E. unfold record_put16, table_entry_is_valid. split_and!.
  - rewrite getf_setf_sub by field_side. reflexivity.
  - by simp_fields.
  - by simp_fields.
  - unfold ct_decode. by simp_fields.
Qed.

Lemma ct_decode_dead e r :
  ct_decode e = ct_flow_of r -> ct_dead e = (cu_protocol r =? IPA_IPV6CT_INVALID_PROTO_FIELD_CMP).
Proof. unfold ct_dead. intros H. injection H as _ _ _ _ -> _. done. Qed.

(** ** Adding and deleting IPv6 connection tracking rules

    The bodies of [ipa_ipv6ct_add_rule] and [ipa_ipv6ct_del_rule] on a
    well-formed table: they are defined for every rule and every handle, keep
    the table well formed and act on the map of rules. *)

#[local] Opaque getf setf MakeEntryHdl.

(** The table after rule [i] was added. *)
Definition ct_added (r : ipa_ipv6ct_rule) (t t' : ipa_table ipa_ipv6ct_rule) (i e : Z) : Prop :=
  0 < i /\ same_shape t t'
  /\ inserted ct_entry_interface ct_dead (same_fields ct_fields) t t' i e
  /\ ct_decode e = ct_flow_of r
  /\ exists b, ipa_ipv6ct_hash r (table_entries t - 1) = Some b /\ reach (ct_view t') b i.

(** The table after a refused rule. *)
Definition ct_unchanged (t t' : ipa_table ipa_ipv6ct_rule) : Prop :=
  same_shape t t' /\ forall i e, ct_live t' i e <-> ct_live t i e.

Lemma ct_added_rules r t t' i e :
  wf_ct t -> wf_ct t' -> ct_added r t t' i e ->
  ct_rules t !! MakeEntryHdl t i = None
  /\ ct_rules t' = <[MakeEntryHdl t i := ct_flow_of r]> (ct_rules t).
Proof.
  intros H H' (_ & Hs & Hi & Hd & _). rewrite <- Hd.
  exact (table_rules_inserted ct_entry_interface ct_layout ct_meta_ok ct_dead ct_decode
    (same_fields ct_fields) ct_decode_same t t' (wf_ct_layout_of _ H) (wf_ct_layout_of _ H')
    (cw_hdl _ H) Hs i e Hi).
Qed.

Lemma ct_sizes t :
  wf_ct t -> 2 <= table_entries t <= 4096 /\ 0 <= expn_table_entries t <= 4096
    /\ tot_tbl_ents t = table_entries t + expn_table_entries t /\ tot_tbl_ents t <= 5120.
Proof.
  intros H. pose proof (wf_ct_layout_of _ H) as Hl. pose proof (cw_hdl _ H) as (H1 & H2 & _).
  pose proof (wl_expn _ _ _ _ Hl). pose proof (wl_tot _ _ _ _ Hl). pose proof (wl_max _ _ _ _ Hl).
  pose proof (cw_size _ H). unfold IPA_TABLE_MAX_ENTRIES in *. lia.
Qed.

(** A free record written by a refused rule, or found cleared. *)
Lemma free_rewrite_unchanged t n en e :
  wf_ct t -> (slots t).[n] = Some en -> table_entry_is_valid en = false -> ct_free e ->
  let t' := with_slots t (slots t).[n <- e] in wf_ct t' /\ ct_unchanged t t'.
Proof.
  intros Hwf Hen Hv Hf t'.
  assert (He : entry_is_valid ct_entry_interface e = false).
  { destruct Hf as (_ & _ & _ & _ & _ & H). cbn. unfold table_entry_is_valid. by rewrite H. }
  destruct (free_rewrite_wf ct_entry_interface ct_layout ct_free ct_meta_ok t n en e
    (cw_table _ Hwf) Hen Hv He Hf) as [W Hs]. split.
  - apply (wf_ct_change t); [done|done|done|].
    apply (free_rewrite_dead ct_entry_interface ct_dead t n en e Hen Hv He (cw_dead _ Hwf)).
  - split; [done|]. intros i x.
    apply (free_rewrite_live ct_entry_interface ct_dead t n en e Hen Hv He).
Qed.

Lemma ct_unchanged_refl t : ct_unchanged t t.
Proof. by split. Qed.

(** ** Insertion *)

Section Placed.
Context (t : ipa_table ipa_ipv6ct_rule) (r : ipa_ipv6ct_rule) (b n : Z)
  (link : option (Z * Z)) (m : option (list Z)) (en e1 d : Z).
Hypothesis (Hwf : wf_ct t) (Hr : wf_ct_rule r) (Hd : direction_valid r = true)
  (Hp : cu_protocol r <> IPA_IPV6CT_INVALID_PROTO_FIELD_CMP)
  (Hb : ipa_ipv6ct_hash r (table_entries t - 1) = Some b)
  (Hins : ct_insertion t b n link m) (Hen : (slots t).[n] = Some en) (Hf : ct_free en)
  (Hnew : new_record ct_entry_interface t r n link m en e1 d).

Let Hl : wf_ct_layout t := wf_ct_layout_of t Hwf.
Let ef : Z := ct_final link e1 d.

Lemma placed_link_range : 0 <= link_prev link < 65536.
Proof.
  pose proof (ct_sizes _ Hwf) as (S1 & S2 & S3 & S4). destruct link as [[p ep]|]; cbn; [|lia].
  destruct Hins as (_ & _ & _ & _ & _ & _ & Hep & _). apply lookupZ_Some_range in Hep.
  rewrite (wl_slots _ _ _ _ Hl) in Hep. lia.
Qed.

Lemma placed_final :
  d = ct_enable_data /\ table_entry_is_valid ef = true /\ getf ct_next_index ef = 0
  /\ getf ct_prev_index ef = link_prev link /\ ct_decode ef = ct_flow_of r /\ ct_dead ef = false.
Proof.
  destruct (ct_new_record_spec t r n link m en e1 d Hd Hr Hf (wl_meta _ _ _ _ Hl) placed_link_range Hnew)
    as (E1 & E2 & E3 & E4).
  unfold ef. rewrite E1. destruct (ct_final_record link e1) as (-> & -> & -> & E5).
  rewrite E5. split_and!; try done. rewrite (ct_decode_dead _ r) by congruence. by apply Z.eqb_neq.
Qed.

Lemma placed_linked :
  wf_ct (ins_linked ct_layout t n ef link m)
  /\ ct_added r t (ins_linked ct_layout t n ef link m) n ef.
Proof.
  destruct placed_final as (_ & Hv & Hnx & Hpv & Hdec & Hnd). pose proof Hins as (Hn & _).
  destruct (wf_ins_linked ct_entry_interface ct_layout ct_free ct_meta_ok t b n link m ef
    (cw_table _ Hwf) Hins Hv Hnx) as [W1 W2]; [cbn; unfold table_entry_get_prev_index; by rewrite Hpv|].
  destruct (ins_linked_inserted ct_entry_interface ct_layout ct_free ct_meta_ok ct_dead
    (same_fields ct_fields) t b n link m (cw_table _ Hwf) (cw_dead _ Hwf) Hins ef Hv Hnd) as [W3 W4].
  pose proof (ins_linked_shape ct_layout t n ef link m) as Hs.
  split; [by apply (wf_ct_change t)|]. split_and!; try done; [lia|]. by exists b.
Qed.

End Placed.

(** Taking the record back after a refused command. *)
Lemma placed_erased t b n link m en e1 :
  wf_ct t -> ct_insertion t b n link m -> (slots t).[n] = Some en ->
  exists t', ipa_table_erase_entry (ins_table t n e1 link m) n = Some t'
    /\ wf_ct t' /\ ct_unchanged t t'.
Proof.
  intros Hwf Hins Hen. pose proof (wf_ct_layout_of _ Hwf) as Hl. pose proof Hins as (_ & (en' & Hen' & Hv) & Hm & _). rewrite Hen in Hen'. injection Hen' as <-.
  rewrite (erase_placed ct_entry_interface ct_layout ct_free ct_meta_ok t b n e1 link m
    (cw_table _ Hwf) Hins).
  assert (E : with_meta (with_slots t (slots t).[n <- 0]) m = with_slots t (slots t).[n <- 0]).
  { pose proof (wl_meta _ _ _ _ Hl) as Hm'. unfold ct_meta_ok in Hm, Hm'. rewrite Hm, <- Hm'. by destruct t. }
  rewrite E. eexists. split; [reflexivity|].
  by apply (free_rewrite_unchanged t n en 0 Hwf Hen Hv tel_free_zero).
Qed.

Lemma head_insert_refused e r :
  direction_valid r = false -> ct_free e ->
  exists e' d, table_entry_head_insert e r = Some (- EINVAL, e', d) /\ ct_free e'.
Proof.
  intros Hd Hf. destruct (copy_refused e r Hd Hf) as (e' & Ec & _ & Hf').
  exists e', 0. unfold table_entry_head_insert. by rewrite Ec.
Qed.

Lemma ct_cmd_room : cmd_room (dma_cmd_zero 2) 2.
Proof. apply cmd_room_zero; lia. Qed.

Section Add.
Context {K : Type} {E : IpaEnv K} {laws : IpaEnvLaws K}.
Context (v : ipa_ipv6ct) (d : ipa_descriptor) (ct : ipa_ipv6ct_table).
Hypothesis (Hd : ct_ipa_desc v = Some d) (Hwf : wf_ct (ct_table ct)).

Abbreviation t := (ct_table ct).

Lemma ct_not_index : is_index t = false.
Proof.
  unfold is_index. pose proof (wl_meta _ _ _ _ (wf_ct_layout_of _ Hwf)) as H.
  unfold ct_meta_ok in H. by rewrite H.
Qed.

(** Status, and the rule in the table or not. *)
Definition add_outcome (r : ipa_ipv6ct_rule) (ret hdl : Z) (ct' : ipa_ipv6ct_table) : Prop :=
  wf_ct (ct_table ct') /\ ct_mem_desc ct' = ct_mem_desc ct
  /\ ((ret = 0 /\ direction_valid r = true
       /\ exists i e, hdl = MakeEntryHdl t i /\ ct_added r t (ct_table ct') i e)
      \/ (ret < 0 /\ hdl = 0 /\ ct_unchanged t (ct_table ct'))).

Lemma add_posted r n link m en e1 fd b (k : K) :
  wf_ct_rule r -> direction_valid r = true ->
  cu_protocol r <> IPA_IPV6CT_INVALID_PROTO_FIELD_CMP ->
  ipa_ipv6ct_hash r (table_entries t - 1) = Some b -> ct_insertion t b n link m ->
  (slots t).[n] = Some en -> ct_free en ->
  new_record ct_entry_interface t r n link m en e1 fd ->
  exists ret ct1 k',
    ipa_ipv6ct_post_dma_cmd v (with_ct_table ct (ins_table t n e1 link m))
      (push_all (dma_cmd_zero IPA_MAX_DMA_ENTRIES_FOR_ADD) (ct_ones t false n link fd)) k
    = Some (ret, ct1, k')
    /\ ((ret = 0 /\ ct1 = with_ct_table ct (ins_linked ct_layout t n (ct_final link e1 fd) link m))
        \/ (ret = - EIO /\ ct1 = with_ct_table ct (ins_table t n e1 link m))).
Proof.
  intros Hr Hdv Hp Hb Hins Hen Hf Hnew. pose proof (wf_ct_layout_of _ Hwf) as Hl.
  pose proof (ins_table_shape t n e1 link m) as Hs.
  destruct (push_all_spec (ct_ones t false n link fd) (dma_cmd_zero IPA_MAX_DMA_ENTRIES_FOR_ADD) 2)
    as [_ Eo]; [apply ct_cmd_room|apply ins_ones_length|].
  rewrite cmd_ones_zero in Eo. cbn [app] in Eo.
  destruct (ct_post_spec v d (with_ct_table ct (ins_table t n e1 link m))
    (push_all (dma_cmd_zero IPA_MAX_DMA_ENTRIES_FOR_ADD) (ct_ones t false n link fd)) k
    (ins_linked ct_layout t n (ct_final link e1 fd) link m) Hd) as (k' & [Ep|Ep]).
  - apply (wf_layout_same_shape _ _ _ t); [done|done|]. destruct Hins as (_ & _ & Hm & _).
    destruct link; exact Hm.
  - rewrite Eo. eapply Forall_impl.
    + apply (ins_ones_own ct_entry_interface ct_layout ct_free ct_meta_ok IPA_IPV6CT_BASE_TBL
        IPA_IPV6CT_EXPN_TBL t b n link m fd false Hl Hins).
    + intros one. by apply own_dma_shape.
  - rewrite Eo. apply (apply_ins_ones ct_entry_interface ct_layout ct_free ct_meta_ok _ _ _ b);
      [apply (cw_table _ Hwf)|done|done].
  - eexists 0, _, k'. split; [exact Ep|]. by left.
  - eexists _, _, k'. split; [exact Ep|]. by right.
Qed.

Lemma add_ct_rule_spec r (k : K) :
  wf_ct_rule r -> cu_protocol r <> IPA_IPV6CT_INVALID_PROTO_FIELD_CMP ->
  exists ret hdl ct' k', add_ct_rule_locked v ct r k = Some (ret, hdl, ct', k')
    /\ add_outcome r ret hdl ct'.
Proof.
  intros Hr Hp. pose proof (ct_sizes _ Hwf) as (S1 & S2 & S3 & S4).
  unfold add_ct_rule_locked. rewrite u16_small by lia.
  destruct (ct_hash_range r (table_entries t - 1) Hr) as (b & Hb & Hbr); [lia|].
  rewrite Hb. cbn [mbind option_bind].
  assert (Hbr' : 0 < b < table_entries t) by lia.
  assert (Hroom : cmd_room (dma_cmd_zero IPA_MAX_DMA_ENTRIES_FOR_ADD) 2) by (apply ct_cmd_room).
  destruct (direction_valid r) eqn:Hdv.
  - destruct (add_entry_spec ct_entry_interface ct_layout ct_free ct_meta_ok IPA_IPV6CT_BASE_TBL
      IPA_IPV6CT_EXPN_TBL t r b (Some 0) _ 2 (cw_table _ Hwf) (cw_helpers _ Hwf) Hbr' Hroom ltac:(lia))
      as [(n & link & m & en & e1 & fd & Hins & Hen & Hf & Hnew & Ea)|(_ & _ & Ea)].
    + intros en Hf. destruct (ct_head_insert_spec en r Hdv Hr Hf) as (e' & H & _). eauto.
    + intros en Hf. rewrite ct_not_index. destruct (ct_head_insert_spec en r Hdv Hr Hf) as (e' & H & _). eauto.
    + rewrite Ea, ct_not_index. cbn [mbind option_bind Z.eqb negb].
      destruct (add_posted r n link m en e1 fd b k Hr Hdv Hp Hb Hins Hen Hf Hnew)
        as (ret & ct1 & k' & Ep & [(-> & ->)|(-> & ->)]); rewrite Ep; cbn [mbind option_bind].
      * eexists _, _, _, _. split; [reflexivity|].
        destruct (placed_linked t r b n link m en e1 fd Hwf Hr Hdv Hp Hb Hins Hf Hnew) as [W A].
        split; [done|]. split; [done|]. left. split_and!; try done. by exists n, (ct_final link e1 fd).
      * destruct (placed_erased t b n link m en e1 Hwf Hins Hen) as (t' & Ee & W & Hu).
        cbn [Z.eqb negb EIO Z.opp with_ct_table ct_table]. rewrite Ee. cbn [mbind option_bind].
        eexists _, _, _, _. split; [reflexivity|]. split; [done|]. split; [done|]. by right.
    + rewrite Ea. cbn [mbind option_bind Z.eqb negb]. eexists _, _, _, _. split; [reflexivity|].
      split; [done|]. split; [done|]. right. split_and!; (done || apply ct_unchanged_refl).
  - destruct (add_entry_refused ct_entry_interface ct_layout ct_free ct_meta_ok t r b (Some 0)
      (dma_cmd_zero IPA_MAX_DMA_ENTRIES_FOR_ADD) (- EINVAL) ct_free (cw_table _ Hwf) Hbr' ltac:(done))
      as [(n & en & e' & Hen & Hv & Hf & Ea)|(_ & Ea)].
    + intros en Hf. by apply head_insert_refused.
    + intros en Hf. rewrite ct_not_index. by apply head_insert_refused.
    + rewrite Ea. cbn [mbind option_bind Z.eqb negb EINVAL Z.opp]. eexists _, _, _, _. split; [reflexivity|].
      destruct (free_rewrite_unchanged t n en e' Hwf Hen Hv Hf) as [W Hu].
      split; [done|]. split; [done|]. by right.
    + rewrite Ea. cbn [mbind option_bind Z.eqb negb]. eexists _, _, _, _. split; [reflexivity|].
      split; [done|]. split; [done|]. right. split_and!; (done || apply ct_unchanged_refl).
Qed.
End Add.

(** ** Deletion *)

(** The two ways of writing the end of a deletion. *)
Lemma ct_delete_step_hold t it : ct_delete_step t it = hold_delete_step ct_dead t it.
Proof. done. Qed.

Lemma ct_deleted_rules t t' i e :
  wf_ct t -> (slots t).[i] = Some e ->
  deleted ct_entry_interface ct_layout ct_free ct_meta_ok ct_dead (same_fields ct_fields) t t' i ->
  wf_ct t' /\ same_shape t t' /\ ct_rules t' = delete (MakeEntryHdl t i) (ct_rules t).
Proof.
  intros Hwf He (W & Hs & Hdd & Hno & Hk & Hb).
  assert (Hwf' : wf_ct t') by (by apply (wf_ct_change t)). split; [done|]. split; [done|].
  apply (table_rules_deleted ct_entry_interface ct_layout ct_meta_ok ct_dead ct_decode
    (same_fields ct_fields) ct_decode_same t t' (wf_ct_layout_of _ Hwf) (wf_ct_layout_of _ Hwf')
    (cw_hdl _ Hwf) Hs i e He).
  split; [done|]. split; [done|]. intros j x' Hx.
  assert (j <> i) by (intros ->; by apply (Hno x')).
  destruct (Hb j x') as (x & Hx0 & _); [done|done|]. by exists x.
Qed.

Section Del.
Context {K : Type} {E : IpaEnv K} {laws : IpaEnvLaws K}.
Context (v : ipa_ipv6ct) (d : ipa_descriptor) (ct : ipa_ipv6ct_table).
Hypothesis (Hd : ct_ipa_desc v = Some d) (Hwf : wf_ct (ct_table ct)).

Abbreviation t := (ct_table ct).

(** A record in use, be it a rule or a place holder. *)
Lemma del_used i e il (k : K) :
  (slots t).[i] = Some e -> ct_view t i = Some il ->
  exists cmd, ipa_table_create_delete_command t (dma_cmd_zero IPA_MAX_DMA_ENTRIES_FOR_DEL)
      (iter_at t i il) = Some cmd
    /\ exists k', ipa_ipv6ct_post_dma_cmd v ct cmd k = Some (- EIO, ct, k')
       \/ exists t1 t', ipa_ipv6ct_post_dma_cmd v ct cmd k = Some (0, with_ct_table ct t1, k')
          /\ ct_delete_step t1 (iter_at t i il) = Some t'
          /\ wf_ct t' /\ same_shape t t'
          /\ ct_rules t' = delete (MakeEntryHdl t i) (ct_rules t).
Proof.
  intros He Hil.
  assert (Hroom : cmd_room (dma_cmd_zero IPA_MAX_DMA_ENTRIES_FOR_DEL) 2) by apply ct_cmd_room.
  rewrite (create_delete_command_spec ct_entry_interface ct_layout ct_free ct_meta_ok
    IPA_IPV6CT_BASE_TBL IPA_IPV6CT_EXPN_TBL t i il _ 2 (cw_table _ Hwf) (cw_helpers _ Hwf) Hil Hroom)
    by lia.
  eexists. split; [reflexivity|].
  destruct (delete_all ct_entry_interface ct_layout ct_free ct_meta_ok ct_dead (same_fields ct_fields)
    IPA_IPV6CT_BASE_TBL IPA_IPV6CT_EXPN_TBL ltac:(done) t i e il (cw_table _ Hwf) Hil He (cw_dead _ Hwf))
    as (t1 & t' & A1 & A2 & A3).
  destruct (ct_post_spec v d ct (push_dma (dma_cmd_zero IPA_MAX_DMA_ENTRIES_FOR_DEL)
    (delete_one ct_entry_interface ct_layout IPA_IPV6CT_BASE_TBL IPA_IPV6CT_EXPN_TBL t i il)) k t1 Hd
    (wf_ct_layout_of _ Hwf)) as (k' & [Ep|Ep]).
  - rewrite (cmd_ones_push _ 2), cmd_ones_zero by (done || lia). apply Forall_singleton.
    by apply (delete_one_own ct_entry_interface ct_layout ct_free ct_meta_ok); [apply (cw_table _ Hwf)|].
  - rewrite (cmd_ones_push _ 2), cmd_ones_zero by (done || lia). cbn [app table_apply].
    by rewrite A1.
  - exists k'. right. exists t1, t'. split; [exact Ep|]. split; [exact A2|].
    by apply (ct_deleted_rules t t' i e).
  - exists k'. left. exact Ep.
Qed.

(** What a deletion does, for any handle. *)
Definition del_outcome (h ret : Z) (ct' : ipa_ipv6ct_table) : Prop :=
  wf_ct (ct_table ct') /\ ct_mem_desc ct' = ct_mem_desc ct
  /\ table_entries (ct_table ct') = table_entries t
  /\ ((ret = 0 /\ ct_rules (ct_table ct') = delete (MakeEntryHdl t (hdl_index t h)) (ct_rules t))
      \/ (ret = - EIO /\ ct' = ct)
      \/ (ret = - EINVAL /\ ct' = ct /\ forall e, ~ ct_live t (hdl_index t h) e)).

Lemma del_ct_rule_spec h (k : K) :
  exists ret ct' k', del_ct_rule_locked v ct h k = Some (ret, ct', k') /\ del_outcome h ret ct'.
Proof.
  pose proof (wf_ct_layout_of _ Hwf) as Hl. unfold del_ct_rule_locked, del_outcome.
  rewrite get_entry_hdl_index. set (i := hdl_index t h).
  destruct (Z.leb_spec (tot_tbl_ents t) i) as [Hge|Hlt].
  { eexists _, _, _. split; [reflexivity|]. split_and!; try done. right. right. split_and!; try done.
    intros e (He & _). apply lookupZ_Some_range in He. rewrite (wl_slots _ _ _ _ Hl) in He. lia. }
  destruct (record_in_range _ _ _ t i Hl) as [e He]; [pose proof (hdl_index_range t h); unfold i in *; lia|].
  destruct (table_entry_is_valid e) eqn:Hv.
  2: { rewrite (iterator_init_free ct_entry_interface ct_layout ct_free ct_meta_ok t i e
         (cw_table _ Hwf) He Hv).
       cbn [mbind option_bind Z.eqb negb EINVAL Z.opp]. eexists _, _, _. split; [reflexivity|].
       split_and!; try done. right. right. split_and!; try done.
       intros x (Hx & Hvx & _). cbn in Hvx. congruence. }
  destruct (view_live ct_entry_interface ct_layout ct_free ct_meta_ok t i e Hl He Hv) as [il Hil].
  rewrite (iterator_init_spec ct_entry_interface ct_layout ct_free ct_meta_ok t i il
    (cw_table _ Hwf) Hil).
  cbn [mbind option_bind Z.eqb negb]. fold (iter_at t i il).
  destruct (del_used i e il k He Hil) as (cmd & Ec & k' & [Ep|(t1 & t' & Ep & Es & W & Hs & Hr)]);
    rewrite Ec; cbn [mbind option_bind]; rewrite Ep; cbn [mbind option_bind].
  - eexists _, _, _. split; [reflexivity|]. split_and!; try done. right. by left.
  - cbn [Z.eqb negb ct_table with_ct_table]. rewrite Es. cbn [mbind option_bind].
    eexists _, _, _. split; [reflexivity|]. split_and!; try done; [apply Hs|by left].
Qed.
End Del.
