(* ===== verification/Ipv6State.v ===== *)
(** * IPv6 connection tracking: creation, state and contract

    A table [ipa_ipv6ct_create_table] returns is empty and well formed; the
    invariant of the state between calls, and the contract of the calls. *)
From S2P Require Import Prelude Bitfield Chain Table Sizing TableFacts TableDma TableHandle.
From S2P Require Import TableHold NatRule Ipv6Rule Ipv6Facts Env TableMem Ipv6ct Ipv6Ops.
From S2P Require Import TableInsert.

Lemma wf_ct_cleared t :
  wf_ct_layout t -> ct_helpers t -> hdl_fits t -> 2 <= table_entries t -> nmi t = 0 ->
  slots t = replicate (Z.to_nat (tot_tbl_ents t)) 0 ->
  cur_tbl_cnt t = 0 -> cur_expn_tbl_cnt t = 0 ->
  wf_ct t /\ forall i x, ~ ct_live t i x.
Proof.
  intros Hl Hh Hf Hs Hn E C1 C2.
  destruct (wf_table_empty ct_entry_interface ct_layout ct_free ct_meta_ok t Hl E C1 C2) as [Hwt _].
  assert (Hz : forall i x, (slots t).[i] = Some x -> x = 0).
  { intros i x. rewrite E. unfold lookupZ. case_decide; [|done].
    by intros [-> _]%lookup_replicate. }
  split.
  - split; try done. intros i x Hx Hv. by rewrite (Hz i x Hx) in Hv.
  - intros i x (Hx & Hv & _). by rewrite (Hz i x Hx) in Hv.
Qed.

Lemma ct_create_table_spec {K} {E : IpaEnv K} {laws : IpaMemLaws K} v ct0 d n (k : K) :
  ct_ipa_desc v = Some d -> 0 <= n ->
  exists ret ct k',
    ipa_ipv6ct_create_table v ct0 n 0 k = Some (ret, ct, k')
    /\ (ret = 0 -> wf_ct (ct_table ct) /\ (forall i x, ~ ct_live (ct_table ct) i x)
          /\ md_valid (ct_mem_desc ct) = true
          /\ exists e, sizes 0 n = Some (table_entries (ct_table ct), e))
    /\ (ret <> 0 -> md_valid (ct_mem_desc ct0) = false -> md_valid (ct_mem_desc ct) = false).
Proof.
  intros Hd Hn. unfold ipa_ipv6ct_create_table.
  destruct (decide (n <= IPA_TABLE_MAX_ENTRIES)) as [Hle|Hgt].
  2: { unfold ipa_table_calculate_entries_num. rewrite (proj2 (Z.ltb_lt _ _)) by lia.
       eexists _, _, _. split; [reflexivity|]. split; [done|]. by intros _. }
  rewrite calculate_entries_num_sizes by done.
  destruct (sizes_spec IPA_NAT_MEM_IN_DDR n) as (b & e & Es & S1 & S2 & S3 & S4 & S5 & S6 & S7);
    [done|by left|].
  rewrite Es. cbn [mbind option_bind].
  destruct (IPA_TABLE_MAX_ENTRIES <? b + e) eqn:Et; [|apply Z.ltb_ge in Et].
  { cbn [mbind option_bind Z.eqb negb Z.opp EINVAL]. eexists _, _, _. split; [reflexivity|].
    split; [done|]. by intros _. }
  destruct (S6 Et) as [S8 S9]. unfold IPA_TABLE_MAX_ENTRIES in Et.
  cbn [mbind option_bind Z.eqb negb]. rewrite Hd. cbn [mbind option_bind].
  destruct (ipa_mem_descriptor_allocate_memory _ (fd d) k) as [[ret md] k2] eqn:Em.
  destruct (Z.eqb_spec ret 0) as [->|Hr]; cbn [negb].
  2: { eexists _, _, _. split; [reflexivity|]. split; [done|]. by intros _ _. }
  apply allocate_memory_spec in Em as (Hmap & Horig & Hval);
    [|cbn; unfold ipa_table_calculate_size, sizeof_ipa_ipv6ct_hw_entry; cbn; lia].
  assert (Horig' : orig_rqst_size md = 64 * (b + e)).
  { rewrite Horig. cbn. unfold ipa_table_calculate_size, sizeof_ipa_ipv6ct_hw_entry. cbn. lia. }
  destruct Hmap as (M1 & M2 & M3). unfold ipa_table_calculate_addresses.
  set (t0 := with_sizes (ipa_table_init "IPA IPv6CT table" _ _ _ _ _) b e (b + e)).
  rewrite (reset_spec (with_memory t0 _ _ _)).
  2: { split; cbn; try lia; unfold sizeof_ipa_ipv6ct_hw_entry; try lia.
       apply mapped_records_length; lia. }
  cbn [mbind option_bind]. eexists _, _, _. split; [reflexivity|]. split; [|done]. intros _.
  set (ct := ipa_ipv6ct_create_table_dma_cmd_helpers _ 0).
  assert (Hrep : forall m : Z, 0 <= m -> lengthZ (replicate (Z.to_nat m) 0) = m)
    by (intros; unfold lengthZ; rewrite length_replicate; lia).
  destruct (wf_ct_cleared (ct_table ct)) as [W1 W2]; try done.
  - split; cbn; unfold IPA_TABLE_MAX_ENTRIES, sizeof_ipa_ipv6ct_hw_entry; (done || lia || by apply Hrep; lia).
  - split; cbn; by rewrite ?M2.
  - unfold hdl_fits. cbn. split_and!; [lia|lia|by left].
  - split_and!; try done. by exists e.
Qed.

(** ** IPv6 connection tracking: state, invariant and contract

    [ct_inv] is the invariant of the static variable [ipv6ct] between calls,
    [ct_abs_of] the abstract state: no table, a table that is a map from
    handles to rules, or a table whose deletion the driver refused.  [ct_step]
    is what each call may do to it. *)

(** ** Invariant and abstraction *)

Definition ct_inv {K} (s : ct_state K) : Prop :=
  exists ct, ct_tables (ipv6ct s) = [ct]
    /\ match ct_ipa_desc (ipv6ct s) with
       | None => ct_table_cnt (ipv6ct s) = 0 /\ md_valid (ct_mem_desc ct) = false
       | Some d => ct_table_cnt (ipv6ct s) = 1 /\ IPA_HW_v4_0 <= ver d
                   /\ (md_valid (ct_mem_desc ct) = true -> wf_ct (ct_table ct))
       end.

Inductive ct_abs :=
  | ct_no_table
  | ct_open (base : Z) (m : gmap Z ct_flow)
  | ct_stuck.

Definition ct_abs_of {K} (s : ct_state K) : ct_abs :=
  match ct_ipa_desc (ipv6ct s), ct_tables (ipv6ct s) with
  | Some _, ct :: _ =>
      if md_valid (ct_mem_desc ct)
      then ct_open (table_entries (ct_table ct)) (ct_rules (ct_table ct)) else ct_stuck
  | _, _ => ct_no_table
  end.

Definition ct_state_init {K} (k : K) : ct_state K := mk_ct_state ipv6ct_init k.

Lemma ct_inv_init {K} (k : K) : ct_inv (ct_state_init k) /\ ct_abs_of (ct_state_init k) = ct_no_table.
Proof. split; [by exists ct_table_zero|done]. Qed.

(** ** Calls *)

(** Pointers are what they point to, [None] is the null pointer. *)
Inductive ct_call :=
  | ct_add_tbl (n : Z) (table_handle : option Z)
  | ct_del_tbl (h : Z)
  | ct_add_rule (h : Z) (r : option ipa_ipv6ct_rule) (rule_handle : option Z)
  | ct_del_rule (h rh : Z)
  | ct_query_timestamp (h rh : Z) (time_stamp : option Z)
  | ct_add_uc_act (u : Z)
  | ct_del_uc_act (i : Z).

(** Status, what the pointer points to afterwards, and state. *)
Definition ct_exec {K} {E : IpaEnv K} {E6 : Ipv6Env K} (s : ct_state K) (call : ct_call)
    : option (Z * option Z * ct_state K) :=
  match call with
  | ct_add_tbl n p => ipa_ipv6ct_add_tbl s n p
  | ct_del_tbl h => '(ret, s') ← ipa_ipv6ct_del_tbl s h; Some (ret, None, s')
  | ct_add_rule h r p => ipa_ipv6ct_add_rule s h r p
  | ct_del_rule h rh => '(ret, s') ← ipa_ipv6ct_del_rule s h rh; Some (ret, None, s')
  | ct_query_timestamp h rh p => ipa_ipv6ct_query_timestamp s h rh p
  | ct_add_uc_act u =>
      '(ret, u', s') ← ipa_ipv6ct_add_uc_act_entry s u; Some (ret, Some u', s')
  | ct_del_uc_act i => '(ret, s') ← ipa_ipv6ct_del_uc_act_entry s i; Some (ret, None, s')
  end.

(** The arguments fit their C types. *)
Definition ct_call_fits (call : ct_call) : bool :=
  match call with
  | ct_add_tbl n _ => (0 <=? n) && (n <? 2 ^ 16)
  | ct_add_rule h (Some r) _ => (0 <=? h) && ct_rule_fits r
  | ct_del_tbl h | ct_del_rule h _ | ct_query_timestamp h _ _ | ct_add_rule h None _ => 0 <=? h
  | ct_add_uc_act _ | ct_del_uc_act _ => true
  end.

(** ** The contract *)

(** The handle the library gives the record a handle names. *)
Definition ct_key (base h : Z) : Z :=
  let i := u16 (Z.land (Z.shiftr h IPA_TABLE_TYPE_BITS) IPA_TABLE_INDX_MASK
                + (if Z.land h IPA_TABLE_TYPE_MASK =? 0 then 0 else base)) in
  if base <=? i then hdl_of 0 true (i - base) else hdl_of 0 false i.

(** What the pointer of a failing call points to. *)
Definition ct_failed_out (call : ct_call) : option Z :=
  match call with
  | ct_add_tbl n (Some h) => Some (if n =? 0 then h else 0)
  | ct_add_rule _ _ p | ct_query_timestamp _ _ p => p
  | _ => None
  end.

Inductive ct_step : ct_abs -> ct_call -> Z -> option Z -> ct_abs -> Prop :=
  | ct_st_refused a call ret :
      ret <> 0 -> ct_step a call ret (ct_failed_out call) a
  | ct_st_add_tbl n h base e :
      sizes IPA_NAT_MEM_IN_DDR n = Some (base, e) ->
      ct_step ct_no_table (ct_add_tbl n (Some h)) 0 (Some 1) (ct_open base ∅)
  (** [-EPERM]: the mutex could not be released *)
  | ct_st_del_tbl base m ret :
      ret = 0 \/ ret = - EPERM ->
      ct_step (ct_open base m) (ct_del_tbl 1) ret None ct_no_table
  | ct_st_del_tbl_refused base m ret :
      ret <> 0 -> ct_step (ct_open base m) (ct_del_tbl 1) ret None ct_stuck
  | ct_st_add_rule base m r h hdl :
      m !! hdl = None -> VALID_RULE_HDL hdl = true -> ct_key base hdl = hdl ->
      direction_valid r = true -> cu_protocol r <> IPA_IPV6CT_INVALID_PROTO_FIELD_CMP ->
      ct_step (ct_open base m) (ct_add_rule 1 (Some r) (Some h)) 0 (Some hdl)
        (ct_open base (<[hdl := ct_flow_of r]> m))
  | ct_st_add_rule_lost base m r h hdl :
      m !! hdl = None ->
      ct_step (ct_open base m) (ct_add_rule 1 (Some r) (Some h)) (- EPERM) (Some h)
        (ct_open base (<[hdl := ct_flow_of r]> m))
  | ct_st_del_rule base m rh ret :
      ret = 0 \/ ret = - EPERM ->
      ct_step (ct_open base m) (ct_del_rule 1 rh) ret None (ct_open base (delete (ct_key base rh) m))
  | ct_st_query base m rh h ts ret :
      ret = 0 \/ ret = - EPERM ->
      (forall f, m !! ct_key base rh = Some f -> ts = cf_time_stamp f) ->
      ct_step (ct_open base m) (ct_query_timestamp 1 rh (Some h)) ret (Some ts) (ct_open base m)
  | ct_st_add_uc_act a u u' ret :
      ct_step a (ct_add_uc_act u) ret (Some u') a
  | ct_st_del_uc_act a i :
      ct_step a (ct_del_uc_act i) 0 None a.

Lemma ct_key_index t h :
  nmi t = 0 -> MakeEntryHdl (U := ipa_ipv6ct_rule) t (hdl_index t h) = ct_key (table_entries t) h.
Proof. intros Hn. rewrite MakeEntryHdl_hdl_of, Hn. done. Qed.

Lemma ct_key_made t i :
  wf_ct t -> 0 <= i < tot_tbl_ents t -> ct_key (table_entries t) (MakeEntryHdl t i) = MakeEntryHdl t i.
Proof.
  intros Hwf Hi. pose proof (ct_sizes _ Hwf) as (S1 & S2 & S3 & S4).
  rewrite <- ct_key_index by apply (cw_nmi _ Hwf). unfold hdl_index.
  rewrite break_make_hdl by (lia || (left; apply (cw_nmi _ Hwf))). done.
Qed.
