(* ===== verification/RecordUpdate.v ===== *)
(** * Updating one field of a record

    The state of the kernel driver is a tree of C structures of which a
    function changes a few members.  [r <| f := v |>] is [r] with [v] in the
    field [f].  A record type that is updated this way declares how it is put
    together from its fields ([eta_fields]); the update function of a field is
    found from that. *)
From S2P Require Import Prelude.

Class EtaFields (R : Type) := eta_fields : R -> R.
Class Update {R T : Type} (f : R -> T) := update : (T -> T) -> R -> R.

Ltac solve_update :=
  match goal with
  | |- @Update ?R ?T ?f =>
      let e := eval cbv [eta_fields] in (@eta_fields R _) in
      let e := (match goal with _ => let e' := eval red in e in e' | _ => e end) in
      match (eval pattern f in e) with
      | ?g _ => let u := eval cbv beta in (fun (h : T -> T) => g (fun r => h (f r))) in exact u
      end
  end.
#[export] Hint Extern 1 (Update _) => solve_update : typeclass_instances.

Declare Scope record_scope.
Delimit Scope record_scope with record.
#[warnings="-postfix-notation-not-level-1"]
Notation "r <| f := v |>" := (update (f := f) (fun _ => v) r)
  (at level 12, left associativity, f at next level, format "r  <| f  :=  v |>") : record_scope.
#[global] Open Scope record_scope.
