(* ===== verification/KernelEnv.v ===== *)
(** * What the kernel driver calls: Linux and the IPA hardware

    The NAT part of the IPA driver ([ipa_v3/ipa_nat.c]) allocates DMA memory,
    maps it to user space, creates devices and sends immediate commands to the
    hardware.  None of these is in the repository: they are the class
    [KernelEnv], functions on a state [K] of the world.  A pointer is an
    address, [NULL] is 0.  [tbl_mem] is what the tables hold that the hardware
    works on.

    What the driver reads but never changes (the version of the hardware, the
    layout of the SRAM, the coalescing end point, register addresses) is the
    class [ipa3_config]. *)
From S2P Require Import Prelude Table Env.

(** Error codes the driver adds to those of the library. *)
Definition EFAULT : Z := 14.
Definition ENODEV : Z := 19.
Definition ENOBUFS : Z := 105.

(** An immediate command for the hardware: its opcode, the length of its
    payload in bytes and the payload, as an integer of bit fields
    ([struct ipahal_imm_cmd_pyld]). *)
Record ipahal_imm_cmd_pyld := mk_pyld { pyld_opcode : Z; pyld_len : Z; pyld_data : Z }.

Class KernelEnv (K : Type) := {
  k_kzalloc : Z -> K -> bool * K;
  k_kfree : K -> K;
  (** the virtual address and the DMA handle of zeroed memory *)
  k_dma_alloc_coherent : Z -> K -> option (Z * Z) * K;
  (** size, virtual address, handle *)
  k_dma_free_coherent : Z -> Z -> Z -> K -> K;
  k_ioremap : Z -> Z -> K -> Z * K;
  k_iounmap : Z -> K -> K;
  (** virtual address, handle, size of the memory; size of the mapping *)
  k_dma_mmap_coherent : Z -> Z -> Z -> Z -> K -> Z * K;
  k_vm_iomap_memory : Z -> Z -> Z -> K -> Z * K;
  k_class_create : string -> K -> bool * K;
  k_class_destroy : string -> K -> K;
  k_alloc_chrdev_region : string -> K -> Z * K;
  k_unregister_chrdev_region : string -> K -> K;
  k_device_create : string -> K -> bool * K;
  k_device_destroy : string -> K -> K;
  k_cdev_add : string -> K -> Z * K;
  (** whether the copy fails *)
  k_copy_from_user : K -> bool * K;
  k_copy_to_user : K -> bool * K;
  k_send_cmd : list ipahal_imm_cmd_pyld -> tbl_mem -> K -> Z * tbl_mem * K
}.

Class ipa3_config := mk_config {
  ipa_hw_type : Z;
  (** physical address of the directly accessible SRAM *)
  ipa_wrapper_base : Z;
  ipa_reg_base_ofst : Z;
  sram_direct_access_ofst : Z;
  (** the memory partition *)
  nat_tbl_ofst : Z;
  nat_tbl_size : Z;
  pdn_config_ofst : Z;
  pdn_config_size : Z;
  smem_restricted_bytes : Z;
  (** end point of [IPA_CLIENT_APPS_WAN_COAL_CONS], -1 when there is none *)
  wan_coal_ep : Z;
  ulso_wa : bool;
  aggr_force_close_ofst : Z;
  aggr_force_close_n_ofst : Z -> Z;
  aggr_force_close_val : Z -> Z;
  aggr_force_close_mask : Z -> Z;
  PAGE_SIZE : Z
}.
