(* ===== verification/Hal.v ===== *)
(** * The hardware abstraction layer of the kernel driver
    ([ipa_v3/ipahal/ipahal_nat.c], [ipahal.c], [ipahal_i.h], [ipahal_nat_i.h])

    The layouts of table entries and of the payloads of the immediate commands
    the NAT driver sends, as bit fields of an integer; the tables that say
    which layout a version of the hardware has, and the functions that fill
    them in. *)
From S2P Require Import Prelude Bitfield Table Env KernelEnv.

Definition IPA_HW_v3_0 : Z := 10.
Definition IPA_HW_v4_0 : Z := 14.
Definition IPA_HW_v4_1 : Z := 15.
Definition IPA_HW_v4_5 : Z := 17.
Definition IPA_HW_v5_0 : Z := 21.
Definition IPA_HW_v6_0 : Z := 25.
Definition IPA_HW_MAX : Z := IPA_HW_v6_0 + 1.

(** ** Entries of the tables *)

Inductive ipahal_nat_type :=
  | IPAHAL_NAT_IPV4
  | IPAHAL_NAT_IPV4_INDEX
  | IPAHAL_NAT_IPV4_PDN
  | IPAHAL_NAT_IPV6CT.

#[export] Instance ipahal_nat_type_eq_dec : EqDecision ipahal_nat_type.
Proof. solve_decision. Defined.

Definition IPAHAL_NAT_INVALID_PROTOCOL : Z := 0xFF.

(** [struct ipa_nat_hw_ipv4_entry] *)
Definition sizeof_ipa_nat_hw_ipv4_entry : Z := 32.
Definition hw4_private_ip : field := Field 0 32.
Definition hw4_target_ip : field := Field 32 32.
Definition hw4_next_index : field := Field 64 16.
Definition hw4_public_port : field := Field 80 16.
Definition hw4_private_port : field := Field 96 16.
Definition hw4_target_port : field := Field 112 16.
Definition hw4_ip_chksum : field := Field 128 16.
Definition hw4_uc_activation_index : field := Field 144 13.
Definition hw4_s : field := Field 157 1.
Definition hw4_redirect : field := Field 158 1.
Definition hw4_enable : field := Field 159 1.
Definition hw4_time_stamp : field := Field 160 24.
Definition hw4_protocol : field := Field 184 8.
Definition hw4_prev_index : field := Field 192 16.
Definition hw4_indx_tbl_entry : field := Field 208 16.
Definition hw4_ucp : field := Field 235 1.
Definition hw4_pdn_index : field := Field 236 4.
Definition hw4_tcp_udp_chksum : field := Field 240 16.

(** [struct ipa_nat_hw_indx_entry] *)
Definition sizeof_ipa_nat_hw_indx_entry : Z := 4.
Definition hwi_tbl_entry : field := Field 0 16.
Definition hwi_next_index : field := Field 16 16.

(** [struct ipa_nat_hw_pdn_entry] *)
Definition sizeof_ipa_nat_hw_pdn_entry : Z := 16.
Definition hwp_public_ip : field := Field 0 32.
Definition hwp_src_metadata : field := Field 32 32.
Definition hwp_dst_metadata : field := Field 64 32.

(** [struct ipa_nat_hw_ipv6ct_entry] *)
Definition sizeof_ipa_nat_hw_ipv6ct_entry : Z := 64.
Definition hw6_enable : field := Field 287 1.
Definition hw6_protocol : field := Field 312 8.
Definition hw6_next_index : field := Field 320 16.
Definition hw6_prev_index : field := Field 432 16.

Record ipahal_nat_pdn_entry := mk_pdn_fields {
  pdn_public_ip : Z;
  pdn_src_metadata : Z;
  pdn_dst_metadata : Z
}.

Definition ipa_nat_ipv4_entry_size_v_3_0 : Z := sizeof_ipa_nat_hw_ipv4_entry.
Definition ipa_nat_ipv4_index_entry_size_v_3_0 : Z := sizeof_ipa_nat_hw_indx_entry.
Definition ipa_nat_ipv4_pdn_entry_size_v_4_0 : Z := sizeof_ipa_nat_hw_pdn_entry.
Definition ipa_nat_ipv6ct_entry_size_v_4_0 : Z := sizeof_ipa_nat_hw_ipv6ct_entry.

Definition ipa_nat_ipv4_is_entry_zeroed_v_3_0 (entry : Z) : bool := entry =? 0.
Definition ipa_nat_ipv4_is_index_entry_zeroed_v_3_0 (entry : Z) : bool := entry =? 0.
Definition ipa_nat_ipv4_is_pdn_entry_zeroed_v_4_0 (entry : Z) : bool := entry =? 0.
Definition ipa_nat_ipv6ct_is_entry_zeroed_v_4_0 (entry : Z) : bool := entry =? 0.

Definition ipa_nat_ipv4_is_entry_valid_v_3_0 (entry : Z) : bool :=
  negb (getf hw4_enable entry =? 0)
  && negb (getf hw4_protocol entry =? IPAHAL_NAT_INVALID_PROTOCOL).
Definition ipa_nat_ipv4_is_index_entry_valid_v_3_0 (entry : Z) : bool :=
  negb (getf hwi_tbl_entry entry =? 0).
Definition ipa_nat_ipv4_is_pdn_entry_valid_v_4_0 (entry : Z) : bool :=
  negb (getf hwp_public_ip entry =? 0).
Definition ipa_nat_ipv6ct_is_entry_valid_v_4_0 (entry : Z) : bool :=
  negb (getf hw6_enable entry =? 0)
  && negb (getf hw6_protocol entry =? IPAHAL_NAT_INVALID_PROTOCOL).

Definition ipa_nat_ipv4_pdn_construct_entry_v_4_0 (f : ipahal_nat_pdn_entry) : Z :=
  setf hwp_dst_metadata
    (setf hwp_src_metadata (setf hwp_public_ip 0 (pdn_public_ip f)) (pdn_src_metadata f))
    (pdn_dst_metadata f).
Definition ipa_nat_ipv4_pdn_parse_entry_v_4_0 (e : Z) : ipahal_nat_pdn_entry :=
  mk_pdn_fields (getf hwp_public_ip e) (getf hwp_src_metadata e) (getf hwp_dst_metadata e).

(** The callbacks of a type of entry; [None] is a null pointer.  The callback
    that prints an entry is left out. *)
Record ipahal_nat_obj := mk_nat_obj {
  obj_entry_size : option Z;
  obj_is_entry_zeroed : option (Z -> bool);
  obj_is_entry_valid : option (Z -> bool);
  obj_construct_entry : option (ipahal_nat_pdn_entry -> Z);
  obj_parse_entry : option (Z -> ipahal_nat_pdn_entry)
}.

Definition zero_nat_obj : ipahal_nat_obj := mk_nat_obj None None None None None.

Definition nat_obj_is_zero (o : ipahal_nat_obj) : bool :=
  match o with mk_nat_obj None None None None None => true | _ => false end.

Definition nat_obj_table : Type := Z -> ipahal_nat_type -> ipahal_nat_obj.

Definition ipahal_nat_objs : nat_obj_table := fun ver ty =>
  let v4 := mk_nat_obj (Some ipa_nat_ipv4_entry_size_v_3_0)
    (Some ipa_nat_ipv4_is_entry_zeroed_v_3_0) (Some ipa_nat_ipv4_is_entry_valid_v_3_0)
    None None in
  let v6 := mk_nat_obj (Some ipa_nat_ipv6ct_entry_size_v_4_0)
    (Some ipa_nat_ipv6ct_is_entry_zeroed_v_4_0) (Some ipa_nat_ipv6ct_is_entry_valid_v_4_0)
    None None in
  if ver =? IPA_HW_v3_0 then
    match ty with
    | IPAHAL_NAT_IPV4 => v4
    | IPAHAL_NAT_IPV4_INDEX =>
        mk_nat_obj (Some ipa_nat_ipv4_index_entry_size_v_3_0)
          (Some ipa_nat_ipv4_is_index_entry_zeroed_v_3_0)
          (Some ipa_nat_ipv4_is_index_entry_valid_v_3_0) None None
    | _ => zero_nat_obj
    end
  else if ver =? IPA_HW_v4_0 then
    match ty with
    | IPAHAL_NAT_IPV4 => v4
    | IPAHAL_NAT_IPV4_PDN =>
        mk_nat_obj (Some ipa_nat_ipv4_pdn_entry_size_v_4_0)
          (Some ipa_nat_ipv4_is_pdn_entry_zeroed_v_4_0)
          (Some ipa_nat_ipv4_is_pdn_entry_valid_v_4_0)
          (Some ipa_nat_ipv4_pdn_construct_entry_v_4_0)
          (Some ipa_nat_ipv4_pdn_parse_entry_v_4_0)
    | IPAHAL_NAT_IPV6CT => v6
    | _ => zero_nat_obj
    end
  else if ver =? IPA_HW_v4_5 then
    match ty with
    | IPAHAL_NAT_IPV4 => v4
    | IPAHAL_NAT_IPV6CT => v6
    | _ => zero_nat_obj
    end
  else zero_nat_obj.

(** The loop of [ipahal_nat_init], for the versions [i + 1], ..., [i + n]. *)
Fixpoint nat_init_loop (n : nat) (i : Z) (objs : nat_obj_table) : nat_obj_table :=
  match n with
  | O => objs
  | S n' =>
      nat_init_loop n' (i + 1) (fun ver ty =>
        if (ver =? i + 1) && nat_obj_is_zero (objs (i + 1) ty) then objs i ty
        else objs ver ty)
  end.

Definition ipahal_nat_init (hw_type : Z) (objs : nat_obj_table) : Z * nat_obj_table :=
  if (hw_type <? 0) || (IPA_HW_MAX <=? hw_type) then (- EINVAL, objs)
  else (0, nat_init_loop (Z.to_nat (hw_type - IPA_HW_v3_0)) IPA_HW_v3_0 objs).

(** The table [ipahal_init] leaves behind. *)
Definition nat_objs (hw_type : Z) : nat_obj_table := (ipahal_nat_init hw_type ipahal_nat_objs).2.

(** A null callback is called: undefined. *)
Definition ipahal_nat_entry_size (hw_type : Z) (ty : ipahal_nat_type) : option (Z * Z) :=
  size ← obj_entry_size (nat_objs hw_type hw_type ty); Some (0, size).

Definition ipahal_nat_is_entry_zeroed (hw_type : Z) (ty : ipahal_nat_type) (entry : Z)
    : option (Z * bool) :=
  cb ← obj_is_entry_zeroed (nat_objs hw_type hw_type ty); Some (0, cb entry).

Definition ipahal_nat_is_entry_valid (hw_type : Z) (ty : ipahal_nat_type) (entry : Z)
    : option (Z * bool) :=
  cb ← obj_is_entry_valid (nat_objs hw_type hw_type ty); Some (0, cb entry).

Definition ipahal_nat_construct_entry (hw_type : Z) (ty : ipahal_nat_type)
    (fields : ipahal_nat_pdn_entry) : option (Z * Z) :=
  cb ← obj_construct_entry (nat_objs hw_type hw_type ty); Some (0, cb fields).

Definition ipahal_nat_parse_entry (hw_type : Z) (ty : ipahal_nat_type) (entry : Z)
    : option (Z * ipahal_nat_pdn_entry) :=
  cb ← obj_parse_entry (nat_objs hw_type hw_type ty); Some (0, cb entry).
