(* ===== verification/HalCmd.v ===== *)
(** * Immediate commands ([ipa_v3/ipahal/ipahal.c], [ipahal.h], [ipahal_i.h])

    The commands the NAT driver sends: register writes, copies into shared
    memory, initialisation of the NAT and IPv6CT blocks, and table DMA.  The
    [void *] parameters of a constructor are the tagged union [imm_params]; a
    constructor that is given the parameters of another command, or a null
    constructor, is undefined ([None]). *)
From S2P Require Import Prelude Bitfield Table Env KernelEnv Hal.

Inductive ipahal_imm_cmd_name :=
  | IPA_IMM_CMD_IP_V4_NAT_INIT
  | IPA_IMM_CMD_REGISTER_WRITE
  | IPA_IMM_CMD_NAT_DMA
  | IPA_IMM_CMD_DMA_SHARED_MEM
  | IPA_IMM_CMD_TABLE_DMA
  | IPA_IMM_CMD_IP_V6_CT_INIT.

#[export] Instance ipahal_imm_cmd_name_eq_dec : EqDecision ipahal_imm_cmd_name.
Proof. solve_decision. Defined.

Inductive ipahal_pipeline_clear_option :=
  | IPAHAL_HPS_CLEAR
  | IPAHAL_SRC_GRP_CLEAR
  | IPAHAL_FULL_PIPELINE_CLEAR.

(** ** Parameters *)

Record ipahal_imm_cmd_nat_ipv6ct_init_common := mk_init_common {
  base_table_addr : Z;
  expansion_table_addr : Z;
  base_table_addr_shared : bool;
  expansion_table_addr_shared : bool;
  size_base_table : Z;
  size_expansion_table : Z;
  init_table_index : Z
}.

Record ipahal_imm_cmd_ip_v4_nat_init := mk_nat_init {
  nat4_table_init : ipahal_imm_cmd_nat_ipv6ct_init_common;
  index_table_addr : Z;
  index_table_expansion_addr : Z;
  index_table_addr_shared : bool;
  index_table_expansion_addr_shared : bool;
  public_addr_info : Z
}.

Record ipahal_imm_cmd_register_write := mk_register_write {
  rw_offset : Z;
  rw_value : Z;
  rw_value_mask : Z;
  rw_skip_pipeline_clear : bool;
  rw_pipeline_clear_options : ipahal_pipeline_clear_option
}.

Record ipahal_imm_cmd_dma_shared_mem := mk_dma_shared_mem {
  sm_system_addr : Z;
  sm_size : Z;
  sm_local_addr : Z;
  sm_clear_after_read : bool;
  sm_is_read : bool;
  sm_skip_pipeline_clear : bool;
  sm_pipeline_clear_options : ipahal_pipeline_clear_option
}.

Record ipahal_imm_cmd_table_dma := mk_table_dma {
  td_offset : Z;
  td_data : Z;
  td_table_index : Z;
  td_base_addr : Z
}.

Inductive imm_params :=
  | params_nat_init (p : ipahal_imm_cmd_ip_v4_nat_init)
  | params_ct_init (p : ipahal_imm_cmd_nat_ipv6ct_init_common)
  | params_register_write (p : ipahal_imm_cmd_register_write)
  | params_dma_shared_mem (p : ipahal_imm_cmd_dma_shared_mem)
  | params_table_dma (p : ipahal_imm_cmd_table_dma).

(** ** Payloads *)

(** [struct ipa_imm_cmd_hw_ip_v4_nat_init] *)
Definition ni_ipv4_rules_addr : field := Field 0 64.
Definition ni_ipv4_expansion_rules_addr : field := Field 64 64.
Definition ni_index_table_addr : field := Field 128 64.
Definition ni_index_table_expansion_addr : field := Field 192 64.
Definition ni_table_index : field := Field 256 3.
Definition ni_ipv4_rules_addr_type : field := Field 260 1.
Definition ni_ipv4_expansion_rules_addr_type : field := Field 261 1.
Definition ni_index_table_addr_type : field := Field 262 1.
Definition ni_index_table_expansion_addr_type : field := Field 263 1.
Definition ni_size_base_tables : field := Field 264 12.
Definition ni_size_expansion_tables : field := Field 276 10.
Definition ni_public_addr_info : field := Field 288 32.

(** [struct ipa_imm_cmd_hw_ip_v6_ct_init] *)
Definition ci_table_addr : field := Field 0 64.
Definition ci_expansion_table_addr : field := Field 64 64.
Definition ci_table_index : field := Field 128 3.
Definition ci_table_addr_type : field := Field 132 1.
Definition ci_expansion_table_addr_type : field := Field 133 1.
Definition ci_size_base_table : field := Field 136 12.
Definition ci_size_expansion_table : field := Field 148 10.

(** [struct ipa_imm_cmd_hw_nat_dma] *)
Definition nd_table_index : field := Field 0 3.
Definition nd_base_addr : field := Field 4 2.
Definition nd_offset : field := Field 8 32.
Definition nd_data : field := Field 40 16.

(** [struct ipa_imm_cmd_hw_table_dma_ipav4] *)
Definition tdw_table_index : field := Field 0 3.
Definition tdw_base_addr : field := Field 4 3.
Definition tdw_offset : field := Field 8 32.
Definition tdw_data : field := Field 40 16.

(** [struct ipa_imm_cmd_hw_register_write] and [..._v_4_0] *)
Definition rww_skip_pipeline_clear : field := Field 15 1.
Definition rww_offset : field := Field 16 16.
Definition rww_value : field := Field 32 32.
Definition rww_value_mask : field := Field 64 32.
Definition rww_pipeline_clear_options : field := Field 96 2.
Definition rw4_offset_high : field := Field 11 4.
Definition rw4_offset : field := Field 16 16.
Definition rw4_value : field := Field 32 32.
Definition rw4_value_mask : field := Field 64 32.

(** [struct ipa_imm_cmd_hw_dma_shared_mem] and [..._v_4_0] *)
Definition smw_size : field := Field 16 16.
Definition smw_local_addr : field := Field 32 16.
Definition smw_direction : field := Field 48 1.
Definition smw_skip_pipeline_clear : field := Field 49 1.
Definition smw_pipeline_clear_options : field := Field 50 2.
Definition smw_system_addr : field := Field 64 64.
Definition sm4_clear_after_read : field := Field 15 1.
Definition sm4_size : field := Field 16 16.
Definition sm4_local_addr : field := Field 32 16.
Definition sm4_direction : field := Field 48 1.
Definition sm4_system_addr : field := Field 64 64.

(** Assign a list of bit-fields of a zeroed payload in order. *)
Definition payload (l : list (field * Z)) : Z :=
  fold_left (fun d fv => setf fv.1 d fv.2) l 0.

Definition pipeline_clear_value (o : ipahal_pipeline_clear_option) : Z :=
  match o with
  | IPAHAL_HPS_CLEAR => 0
  | IPAHAL_SRC_GRP_CLEAR => 1
  | IPAHAL_FULL_PIPELINE_CLEAR => 2
  end.

(** The bits IPA 4.0 keeps in the opcode instead. *)
Definition opcode_with_clear (opcode : Z) (skip : bool) (o : ipahal_pipeline_clear_option) : Z :=
  Z.lor (Z.lor opcode (Z.shiftl (Z.b2z skip) 8)) (Z.shiftl (pipeline_clear_value o) 9).

Definition nat_init_payload (p : ipahal_imm_cmd_ip_v4_nat_init) : Z :=
  let t := nat4_table_init p in
  payload [(ni_ipv4_rules_addr, base_table_addr t);
           (ni_ipv4_expansion_rules_addr, expansion_table_addr t);
           (ni_index_table_addr, index_table_addr p);
           (ni_index_table_expansion_addr, index_table_expansion_addr p);
           (ni_table_index, init_table_index t);
           (ni_ipv4_rules_addr_type, Z.b2z (base_table_addr_shared t));
           (ni_ipv4_expansion_rules_addr_type, Z.b2z (expansion_table_addr_shared t));
           (ni_index_table_addr_type, Z.b2z (index_table_addr_shared p));
           (ni_index_table_expansion_addr_type, Z.b2z (index_table_expansion_addr_shared p));
           (ni_size_base_tables, size_base_table t);
           (ni_size_expansion_tables, size_expansion_table t);
           (ni_public_addr_info, public_addr_info p)].

Definition ct_init_payload (t : ipahal_imm_cmd_nat_ipv6ct_init_common) : Z :=
  payload [(ci_table_addr, base_table_addr t);
           (ci_expansion_table_addr, expansion_table_addr t);
           (ci_table_index, init_table_index t);
           (ci_table_addr_type, Z.b2z (base_table_addr_shared t));
           (ci_expansion_table_addr_type, Z.b2z (expansion_table_addr_shared t));
           (ci_size_base_table, size_base_table t);
           (ci_size_expansion_table, size_expansion_table t)].

Definition nat_dma_payload (p : ipahal_imm_cmd_table_dma) : Z :=
  payload [(nd_table_index, td_table_index p); (nd_base_addr, td_base_addr p);
           (nd_offset, td_offset p); (nd_data, td_data p)].

Definition table_dma_payload (p : ipahal_imm_cmd_table_dma) : Z :=
  payload [(tdw_table_index, td_table_index p); (tdw_base_addr, td_base_addr p);
           (tdw_offset, td_offset p); (tdw_data, td_data p)].

Definition register_write_payload (p : ipahal_imm_cmd_register_write) : Z :=
  payload [(rww_offset, rw_offset p); (rww_value, rw_value p);
           (rww_value_mask, rw_value_mask p);
           (rww_skip_pipeline_clear, Z.b2z (rw_skip_pipeline_clear p));
           (rww_pipeline_clear_options, pipeline_clear_value (rw_pipeline_clear_options p))].

Definition register_write_payload_v_4_0 (p : ipahal_imm_cmd_register_write) : Z :=
  payload [(rw4_offset, rw_offset p); (rw4_offset_high, Z.shiftr (rw_offset p) 16);
           (rw4_value, rw_value p); (rw4_value_mask, rw_value_mask p)].

Definition dma_shared_mem_payload (p : ipahal_imm_cmd_dma_shared_mem) : Z :=
  payload [(smw_direction, Z.b2z (sm_is_read p)); (smw_size, sm_size p);
           (smw_local_addr, sm_local_addr p); (smw_system_addr, sm_system_addr p);
           (smw_skip_pipeline_clear, Z.b2z (sm_skip_pipeline_clear p));
           (smw_pipeline_clear_options, pipeline_clear_value (sm_pipeline_clear_options p))].

Definition dma_shared_mem_payload_v_4_0 (p : ipahal_imm_cmd_dma_shared_mem) : Z :=
  payload [(sm4_direction, Z.b2z (sm_is_read p));
           (sm4_clear_after_read, Z.b2z (sm_clear_after_read p)); (sm4_size, sm_size p);
           (sm4_local_addr, sm_local_addr p); (sm4_system_addr, sm_system_addr p)].

(** ** Constructors *)

Section Construct.
Context {K : Type} {E : KernelEnv K}.
Implicit Types (k : K) (params : imm_params).

(** The payload with [opcode], when the allocation of [len] bytes and the
    header succeeds. *)
Definition alloc_pyld (len opcode data : Z) k : option (option ipahal_imm_cmd_pyld * K) :=
  let '(ok, k) := k_kzalloc (len + 4) k in
  Some (if ok then Some (mk_pyld (u16 opcode) len data) else None, k).

Definition ipa_imm_cmd_construct_nat_dma (opcode : Z) params k :=
  match params with
  | params_table_dma p => alloc_pyld 8 opcode (nat_dma_payload p) k
  | _ => None
  end.

Definition ipa_imm_cmd_construct_table_dma_ipav4 (opcode : Z) params k :=
  match params with
  | params_table_dma p => alloc_pyld 8 opcode (table_dma_payload p) k
  | _ => None
  end.

Definition ipa_imm_cmd_construct_ip_v4_nat_init (opcode : Z) params k :=
  match params with
  | params_nat_init p => alloc_pyld 40 opcode (nat_init_payload p) k
  | _ => None
  end.

Definition ipa_imm_cmd_construct_ip_v6_ct_init (opcode : Z) params k :=
  match params with
  | params_ct_init p => alloc_pyld 24 opcode (ct_init_payload p) k
  | _ => None
  end.

Definition ipa_imm_cmd_construct_register_write (opcode : Z) params k :=
  match params with
  | params_register_write p => alloc_pyld 16 opcode (register_write_payload p) k
  | _ => None
  end.

Definition ipa_imm_cmd_construct_register_write_v_4_0 (opcode : Z) params k :=
  match params with
  | params_register_write p =>
      if 0xFFFF <? rw_offset p then Some (None, k) else
      alloc_pyld 16
        (opcode_with_clear opcode (rw_skip_pipeline_clear p) (rw_pipeline_clear_options p))
        (register_write_payload_v_4_0 p) k
  | _ => None
  end.

Definition ipa_imm_cmd_construct_dma_shared_mem (opcode : Z) params k :=
  match params with
  | params_dma_shared_mem p => alloc_pyld 16 opcode (dma_shared_mem_payload p) k
  | _ => None
  end.

Definition ipa_imm_cmd_construct_dma_shared_mem_v_4_0 (opcode : Z) params k :=
  match params with
  | params_dma_shared_mem p =>
      if 0xFFFF <? sm_size p then Some (None, k) else
      if 0xFFFF <? sm_local_addr p then Some (None, k) else
      alloc_pyld 16
        (opcode_with_clear opcode (sm_skip_pipeline_clear p) (sm_pipeline_clear_options p))
        (dma_shared_mem_payload_v_4_0 p) k
  | _ => None
  end.

Definition ipa_imm_cmd_construct_dummy (opcode : Z) params k
    : option (option ipahal_imm_cmd_pyld * K) := Some (None, k).

(** ** The table of commands *)

Definition imm_construct : Type :=
  Z -> imm_params -> K -> option (option ipahal_imm_cmd_pyld * K).

(** The constructor and the opcode; a zeroed object is [None]. *)
Definition ipahal_imm_cmd_obj : Type := option (imm_construct * Z).
Definition imm_cmd_obj_table : Type := Z -> ipahal_imm_cmd_name -> ipahal_imm_cmd_obj.

Definition ipahal_imm_cmd_objs : imm_cmd_obj_table := fun ver cmd =>
  if ver =? IPA_HW_v3_0 then
    match cmd with
    | IPA_IMM_CMD_IP_V4_NAT_INIT => Some (ipa_imm_cmd_construct_ip_v4_nat_init, 5)
    | IPA_IMM_CMD_REGISTER_WRITE => Some (ipa_imm_cmd_construct_register_write, 12)
    | IPA_IMM_CMD_NAT_DMA => Some (ipa_imm_cmd_construct_nat_dma, 14)
    | IPA_IMM_CMD_DMA_SHARED_MEM => Some (ipa_imm_cmd_construct_dma_shared_mem, 19)
    | _ => None
    end
  else if ver =? IPA_HW_v4_0 then
    match cmd with
    | IPA_IMM_CMD_REGISTER_WRITE => Some (ipa_imm_cmd_construct_register_write_v_4_0, 12)
    | IPA_IMM_CMD_NAT_DMA => Some (ipa_imm_cmd_construct_dummy, -1)
    | IPA_IMM_CMD_TABLE_DMA => Some (ipa_imm_cmd_construct_table_dma_ipav4, 14)
    | IPA_IMM_CMD_DMA_SHARED_MEM => Some (ipa_imm_cmd_construct_dma_shared_mem_v_4_0, 19)
    | IPA_IMM_CMD_IP_V6_CT_INIT => Some (ipa_imm_cmd_construct_ip_v6_ct_init, 23)
    | _ => None
    end
  else None.

(** The loop of [ipahal_imm_cmd_init], for the versions [i + 1], ..., [i + n]. *)
Fixpoint imm_cmd_init_loop (n : nat) (i : Z) (objs : imm_cmd_obj_table) : imm_cmd_obj_table :=
  match n with
  | O => objs
  | S n' =>
      imm_cmd_init_loop n' (i + 1) (fun ver cmd =>
        match objs (i + 1) cmd with
        | None => if ver =? i + 1 then objs i cmd else objs ver cmd
        | Some _ => objs ver cmd
        end)
  end.

Definition ipahal_imm_cmd_init (hw_type : Z) (objs : imm_cmd_obj_table)
    : Z * imm_cmd_obj_table :=
  if (hw_type <? 0) || (IPA_HW_MAX <=? hw_type) then (- EINVAL, objs)
  else (0, imm_cmd_init_loop (Z.to_nat (hw_type - IPA_HW_v3_0)) IPA_HW_v3_0 objs).

(** The table [ipahal_init] leaves behind. *)
Definition imm_cmd_objs (hw_type : Z) : imm_cmd_obj_table :=
  (ipahal_imm_cmd_init hw_type ipahal_imm_cmd_objs).2.

Definition ipahal_construct_imm_cmd (hw_type : Z) (cmd : ipahal_imm_cmd_name) params k
    : option (option ipahal_imm_cmd_pyld * K) :=
  '(construct, opcode) ← imm_cmd_objs hw_type hw_type cmd;
  construct opcode params k.

Definition ipahal_construct_nop_imm_cmd (hw_type : Z) (skip_pipline_clear : bool)
    (pipline_clr_opt : ipahal_pipeline_clear_option) k :=
  ipahal_construct_imm_cmd hw_type IPA_IMM_CMD_REGISTER_WRITE
    (params_register_write (mk_register_write 0 0 0 skip_pipline_clear pipline_clr_opt)) k.
End Construct.
