(* ===== verification/KNat.v ===== *)
(** * The state of the kernel's NAT driver ([ipa_v3/ipa_nat.c], [ipa_i.h]) and
    its devices

    Two devices serve the tables: the NAT device, which has memory in DDR, in
    SRAM or both, and the IPv6 connection tracking device, which has memory in
    DDR.  [ipa3_context] is the part of [ipa3_ctx] the driver uses; [kst] adds
    the contents of the tables and the state of the world.  A function returns
    its status and the new state; [None] is undefined behaviour (a null
    callback of the abstraction layer, an access outside an array). *)
From S2P Require Import Prelude Bitfield Table Env RecordUpdate KernelEnv Hal HalCmd.

Definition IPA_NAT_IPV6CT_TEMP_MEM_SIZE : Z := 128.
Definition IPA_NAT_MAX_NUM_OF_INIT_CMD_DESC : nat := 4.
Definition IPA_IPV6CT_MAX_NUM_OF_INIT_CMD_DESC : nat := 3.
Definition IPA_MAX_NUM_OF_TABLE_DMA_CMD_DESC : nat := 5.
Definition IPA_TABLE_MAX_ENTRIES : Z := 8192.
Definition MAX_ALLOC_NAT_SIZE (size : Z) : Z := IPA_TABLE_MAX_ENTRIES * size.
Definition IPA_VALID_TBL_INDEX (ti : Z) : bool := ti =? 0.
Definition IPA_DEV_NAME_MAX_LEN : nat := 15.
Definition IPA_QMAP_TETH_BIT : Z := Z.shiftl 1 30.
Definition IPA_NAT_DEV_NAME : string := "ipaNatTable".
Definition IPA_IPV6CT_DEV_NAME : string := "ipaIpv6CTTable".
Definition UINT_MAX : Z := 2 ^ 32 - 1.
Definition U16_MAX : Z := 2 ^ 16 - 1.

(** ** State *)

Record ipa3_nat_ipv6ct_tmp_mem := mk_tmp_mem { tmp_vaddr : Z; tmp_dma_handle : Z }.

Record ipa3_nat_ipv6ct_common_mem := mk_common_mem {
  cm_name : string;
  cm_is_nat_mem : bool;
  cm_is_ipv6ct_mem : bool;
  cm_is_dev_init : bool;
  cm_is_hw_init : bool;
  cm_is_mapped : bool;
  cm_phys_mem_size : Z;
  cm_phys_mem_ofst : Z;
  cm_table_alloc_size : Z;
  cm_vaddr : Z;
  cm_dma_handle : Z;
  cm_base_address : Z;
  cm_base_table_addr : Z;
  cm_expansion_table_addr : Z;
  cm_table_entries : Z;
  cm_expn_table_entries : Z;
  cm_tmp_mem : option ipa3_nat_ipv6ct_tmp_mem
}.
#[export] Instance eta_common_mem : EtaFields ipa3_nat_ipv6ct_common_mem := fun d =>
  mk_common_mem (cm_name d) (cm_is_nat_mem d) (cm_is_ipv6ct_mem d) (cm_is_dev_init d)
    (cm_is_hw_init d) (cm_is_mapped d) (cm_phys_mem_size d) (cm_phys_mem_ofst d)
    (cm_table_alloc_size d) (cm_vaddr d) (cm_dma_handle d) (cm_base_address d)
    (cm_base_table_addr d) (cm_expansion_table_addr d) (cm_table_entries d)
    (cm_expn_table_entries d) (cm_tmp_mem d).

Record ipa3_nat_mem_loc_data := mk_mem_loc {
  ml_is_mapped : bool;
  ml_io_vaddr : Z;
  ml_vaddr : Z;
  ml_dma_handle : Z;
  ml_phys_addr : Z;
  ml_table_alloc_size : Z;
  ml_table_entries : Z;
  ml_expn_table_entries : Z;
  ml_base_address : Z;
  ml_base_table_addr : Z;
  ml_expansion_table_addr : Z;
  ml_index_table_addr : Z;
  ml_index_table_expansion_addr : Z
}.
#[export] Instance eta_mem_loc : EtaFields ipa3_nat_mem_loc_data := fun m =>
  mk_mem_loc (ml_is_mapped m) (ml_io_vaddr m) (ml_vaddr m) (ml_dma_handle m)
    (ml_phys_addr m) (ml_table_alloc_size m) (ml_table_entries m)
    (ml_expn_table_entries m) (ml_base_address m) (ml_base_table_addr m)
    (ml_expansion_table_addr m) (ml_index_table_addr m) (ml_index_table_expansion_addr m).

Definition mem_loc_zero : ipa3_nat_mem_loc_data :=
  mk_mem_loc false NULL NULL 0 0 0 0 0 NULL NULL NULL NULL NULL.

(** The buffer of the PDN entries and what it holds. *)
Record ipa_mem_buffer := mk_mem_buffer {
  mb_base : Z;
  mb_phys_base : Z;
  mb_size : Z;
  mb_entries : list Z
}.
#[export] Instance eta_mem_buffer : EtaFields ipa_mem_buffer := fun b =>
  mk_mem_buffer (mb_base b) (mb_phys_base b) (mb_size b) (mb_entries b).

Record ipa3_nat_mem := mk_nat_mem {
  nm_dev : ipa3_nat_ipv6ct_common_mem;
  nm_public_ip_addr : Z;
  nm_pdn_mem : ipa_mem_buffer;
  nm_is_tmp_mem_allocated : bool;
  nm_last_alloc_loc : Z;
  nm_active_table : Z;
  nm_switch2ddr_cnt : Z;
  nm_switch2sram_cnt : Z;
  nm_ddr_in_use : bool;
  nm_sram_in_use : bool;
  nm_mem_loc : list ipa3_nat_mem_loc_data
}.
#[export] Instance eta_nat_mem : EtaFields ipa3_nat_mem := fun m =>
  mk_nat_mem (nm_dev m) (nm_public_ip_addr m) (nm_pdn_mem m) (nm_is_tmp_mem_allocated m)
    (nm_last_alloc_loc m) (nm_active_table m) (nm_switch2ddr_cnt m) (nm_switch2sram_cnt m)
    (nm_ddr_in_use m) (nm_sram_in_use m) (nm_mem_loc m).

Record ipa3_context := mk_context {
  nat_mem : ipa3_nat_mem;
  ipv6ct_mem : ipa3_nat_ipv6ct_common_mem;
  sram_compatible : bool
}.
#[export] Instance eta_context : EtaFields ipa3_context := fun c =>
  mk_context (nat_mem c) (ipv6ct_mem c) (sram_compatible c).

Definition common_mem_zero : ipa3_nat_ipv6ct_common_mem :=
  mk_common_mem "" false false false false false 0 0 0 NULL 0 NULL NULL NULL 0 0 None.
Definition nat_mem_zero : ipa3_nat_mem :=
  mk_nat_mem common_mem_zero 0 (mk_mem_buffer NULL 0 0 []) false 0 0 0 0 false false
    [mem_loc_zero; mem_loc_zero].

(** [kzalloc]ed, static. *)
Definition context_init : ipa3_context :=
  mk_context nat_mem_zero common_mem_zero false.

Record kst (K : Type) := mk_kst { ctx : ipa3_context; tables : tbl_mem; world : K }.
Arguments mk_kst {K}.
Arguments ctx {K}.
Arguments tables {K}.
Arguments world {K}.
#[export] Instance eta_kst {K} : EtaFields (kst K) := fun s =>
  mk_kst (ctx s) (tables s) (world s).

(** The pointers [struct ipa3_nat_ipv6ct_common_mem *] the driver has. *)
Inductive nat_device := DEV_NAT | DEV_IPV6CT.

Section State.
Context {K : Type}.
Implicit Types (s : kst K).

Definition nm s : ipa3_nat_mem := nat_mem (ctx s).
Definition with_nm s m : kst K := s <| ctx := ctx s <| nat_mem := m |> |>.
Definition device s (d : nat_device) : ipa3_nat_ipv6ct_common_mem :=
  match d with DEV_NAT => nm_dev (nm s) | DEV_IPV6CT => ipv6ct_mem (ctx s) end.
Definition with_device s (d : nat_device) x : kst K :=
  match d with
  | DEV_NAT => with_nm s (nm s <| nm_dev := x |>)
  | DEV_IPV6CT => s <| ctx := ctx s <| ipv6ct_mem := x |> |>
  end.
Definition with_loc s (nmi : Z) m : kst K :=
  with_nm s (nm s <| nm_mem_loc := (nm_mem_loc (nm s)).[nmi <- m] |>).
End State.

Definition IPA_NAT_PHYS_MEM_OFFSET {c : ipa3_config} : Z := nat_tbl_ofst.
Definition IPA_NAT_PHYS_MEM_SIZE {c : ipa3_config} : Z := nat_tbl_size.
Definition IPA_IPV6CT_PHYS_MEM_OFFSET : Z := 0.
Definition IPA_IPV6CT_PHYS_MEM_SIZE : Z := 0.

(** ** Devices *)

Section Devices.
Context {c : ipa3_config} {K : Type} {E : KernelEnv K}.
Implicit Types (s : kst K) (k : K).

Definition ipa3_nat_ipv6ct_allocate_tmp_memory k : option ipa3_nat_ipv6ct_tmp_mem * K :=
  let '(ok, k) := k_kzalloc 16 k in
  if negb ok then (None, k) else
  let '(r, k) := k_dma_alloc_coherent IPA_NAT_IPV6CT_TEMP_MEM_SIZE k in
  match r with
  | Some (v, h) => (Some (mk_tmp_mem v h), k)
  | None => (None, k_kfree k)
  end.

(** The labels of the error exits undo what was done before. *)
Definition ipa3_nat_ipv6ct_init_device s (d : nat_device) (name : string)
    (phys_mem_size phys_mem_ofst : Z) (tmp_mem : ipa3_nat_ipv6ct_tmp_mem) : Z * kst K :=
  let s := with_device s d (device s d
    <| cm_is_nat_mem := (match d with DEV_NAT => true | DEV_IPV6CT => false end) |>
    <| cm_is_ipv6ct_mem := (match d with DEV_NAT => false | DEV_IPV6CT => true end) |>) in
  if (IPA_DEV_NAME_MAX_LEN <=? String.length name)%nat then (- ENODEV, s) else
  let s := with_device s d (device s d <| cm_name := name |>) in
  let '(ok, k) := k_class_create name (world s) in
  if negb ok then (- ENODEV, s <| world := k |>) else
  let '(r, k) := k_alloc_chrdev_region name k in
  if negb (r =? 0) then (- ENODEV, s <| world := k_class_destroy name k |>) else
  let '(ok, k) := k_device_create name k in
  if negb ok then
    (- ENODEV, s <| world := k_class_destroy name (k_unregister_chrdev_region name k) |>) else
  let '(r, k) := k_cdev_add name k in
  if negb (r =? 0) then
    (r, s <| world := k_class_destroy name
                        (k_unregister_chrdev_region name (k_device_destroy name k)) |>) else
  (0, with_device (s <| world := k |>) d (device s d
        <| cm_tmp_mem := Some tmp_mem |>
        <| cm_phys_mem_size := phys_mem_size |>
        <| cm_phys_mem_ofst := phys_mem_ofst |>
        <| cm_is_dev_init := true |>)).

Definition free_tmp_mem (t : ipa3_nat_ipv6ct_tmp_mem) k : K :=
  k_kfree (k_dma_free_coherent IPA_NAT_IPV6CT_TEMP_MEM_SIZE (tmp_vaddr t) (tmp_dma_handle t) k).

Definition ipa3_nat_ipv6ct_destroy_device s (d : nat_device) : kst K :=
  let s :=
    match cm_tmp_mem (device s d) with
    | None => s
    | Some t =>
        let s :=
          if nm_is_tmp_mem_allocated (nm s) then
            with_nm (s <| world := free_tmp_mem t (world s) |>)
              (nm s <| nm_is_tmp_mem_allocated := false |>)
          else s in
        with_device s d (device s d <| cm_tmp_mem := None |>)
    end in
  let name := cm_name (device s d) in
  let k := k_class_destroy name
             (k_unregister_chrdev_region name (k_device_destroy name (world s))) in
  with_device (s <| world := k |>) d (device s d <| cm_is_dev_init := false |>).

(** The label [fail_init_nat_dev] of [ipa3_nat_ipv6ct_init_devices]. *)
Definition fail_init_nat_dev s (t : ipa3_nat_ipv6ct_tmp_mem) (result : Z) : Z * kst K :=
  if nm_is_tmp_mem_allocated (nm s) then
    (result, with_nm (s <| world := free_tmp_mem t (world s) |>)
               (nm s <| nm_is_tmp_mem_allocated := false |>))
  else (result, s).

Definition ipa3_nat_ipv6ct_init_devices s : Z * kst K :=
  let '(t, k) := ipa3_nat_ipv6ct_allocate_tmp_memory (world s) in
  let s := s <| world := k |> in
  match t with
  | None => (- ENOMEM, s)
  | Some t =>
      let s := with_nm s (nm s <| nm_is_tmp_mem_allocated := true |>) in
      let '(r, s) := ipa3_nat_ipv6ct_init_device s DEV_NAT IPA_NAT_DEV_NAME
        IPA_NAT_PHYS_MEM_SIZE IPA_NAT_PHYS_MEM_OFFSET t in
      if negb (r =? 0) then fail_init_nat_dev s t (- ENODEV) else
      if ipa_hw_type <? IPA_HW_v4_0 then (0, s) else
      let '(r, s) := ipa3_nat_ipv6ct_init_device s DEV_IPV6CT IPA_IPV6CT_DEV_NAME
        IPA_IPV6CT_PHYS_MEM_SIZE IPA_IPV6CT_PHYS_MEM_OFFSET t in
      if negb (r =? 0) then
        fail_init_nat_dev (ipa3_nat_ipv6ct_destroy_device s DEV_NAT) t (- ENODEV)
      else (0, s)
  end.

Definition ipa3_nat_ipv6ct_destroy_devices s : kst K :=
  let s := ipa3_nat_ipv6ct_destroy_device s DEV_NAT in
  if IPA_HW_v4_0 <=? ipa_hw_type then ipa3_nat_ipv6ct_destroy_device s DEV_IPV6CT else s.
End Devices.
