(* ===== verification/KNatOps.v ===== *)
(** * The operations of the kernel's NAT driver ([ipa_v3/ipa_nat.c])

    Allocation, mapping and release of the memory of the tables, the checks of
    what user space asks for, and the immediate commands that are sent to the
    hardware. *)
From S2P Require Import Prelude Bitfield Table Env RecordUpdate KernelEnv Hal HalCmd KNat.

(** The numbers user space may put into a DMA command
    ([struct ipa_ioc_nat_dma_one], [struct ipa_ioc_nat_dma_cmd]). *)
Record dma_one_raw := mk_dma_one_raw {
  raw_table_index : Z;
  raw_base_addr : Z;
  raw_offset : Z;
  raw_data : Z
}.

Record dma_cmd_raw := mk_dma_cmd_raw {
  raw_entries : Z;
  raw_mem_type : Z;
  raw_dma : list dma_one_raw
}.

(** [enum ipa_nat_ipv6ct_table_type] *)
Definition tbl_number (ty : ipa_table_dma_type) : Z :=
  match ty with
  | IPA_NAT_BASE_TBL => 0
  | IPA_NAT_EXPN_TBL => 1
  | IPA_NAT_INDX_TBL => 2
  | IPA_NAT_INDEX_EXPN_TBL => 3
  | IPA_IPV6CT_BASE_TBL => 4
  | IPA_IPV6CT_EXPN_TBL => 5
  end.

Definition tbl_of_number (n : Z) : option ipa_table_dma_type :=
  if n =? 0 then Some IPA_NAT_BASE_TBL else if n =? 1 then Some IPA_NAT_EXPN_TBL
  else if n =? 2 then Some IPA_NAT_INDX_TBL else if n =? 3 then Some IPA_NAT_INDEX_EXPN_TBL
  else if n =? 4 then Some IPA_IPV6CT_BASE_TBL else if n =? 5 then Some IPA_IPV6CT_EXPN_TBL
  else None.

Section Operations.
Context {c : ipa3_config} {K : Type} {E : KernelEnv K}.
Implicit Types (s : kst K) (k : K) (d : nat_device).

(** ** Memory *)

Definition ipa3_get_max_pdn : option Z :=
  '(_, pdn_entry_size) ← ipahal_nat_entry_size (ipa_hw_type) IPAHAL_NAT_IPV4_PDN;
  Some (pdn_config_size / pdn_entry_size).

Definition sram_phys_addr : Z :=
  u64 (ipa_wrapper_base + ipa_reg_base_ofst + sram_direct_access_ofst
       + IPA_NAT_PHYS_MEM_OFFSET).

Definition alloc_nat_in_sram s (size : Z) : option (Z * kst K) :=
  if nm_sram_in_use (nm s) then Some (- EPERM, s) else
  m ← (nm_mem_loc (nm s)).[IPA_NAT_MEM_IN_SRAM];
  let phys := sram_phys_addr in
  let '(va, k) := k_ioremap phys IPA_NAT_PHYS_MEM_SIZE (world s) in
  let m := m <| ml_table_alloc_size := size |> <| ml_phys_addr := phys |>
             <| ml_io_vaddr := va |> in
  let s := s <| world := k |> in
  if va =? NULL then Some (- ENOMEM, with_loc s IPA_NAT_MEM_IN_SRAM m) else
  let s := with_loc s IPA_NAT_MEM_IN_SRAM (m <| ml_vaddr := va |>) in
  Some (0, with_nm s (nm s <| nm_sram_in_use := true |>
                           <| nm_last_alloc_loc := IPA_NAT_MEM_IN_SRAM |>)).

Definition alloc_nat_in_ddr s (size : Z) : option (Z * kst K) :=
  if nm_ddr_in_use (nm s) then Some (- EPERM, s) else
  m ← (nm_mem_loc (nm s)).[IPA_NAT_MEM_IN_DDR];
  let m := m <| ml_table_alloc_size := size |> in
  let '(r, k) := k_dma_alloc_coherent size (world s) in
  let s := s <| world := k |> in
  match r with
  | None => Some (- ENOMEM, with_loc s IPA_NAT_MEM_IN_DDR (m <| ml_vaddr := NULL |>))
  | Some (va, h) =>
      let s := with_loc s IPA_NAT_MEM_IN_DDR
                 (m <| ml_vaddr := va |> <| ml_dma_handle := h |>) in
      Some (0, with_nm s (nm s <| nm_ddr_in_use := true |>
                               <| nm_last_alloc_loc := IPA_NAT_MEM_IN_DDR |>))
  end.

Definition alloc_ipv6ct_in_ddr s d (size : Z) : Z * kst K :=
  let s := with_device s d (device s d <| cm_table_alloc_size := size |>) in
  let '(r, k) := k_dma_alloc_coherent size (world s) in
  let s := s <| world := k |> in
  match r with
  | None => (- ENOMEM, with_device s d (device s d <| cm_vaddr := NULL |>))
  | Some (va, h) =>
      (0, with_device s d (device s d <| cm_vaddr := va |> <| cm_dma_handle := h |>))
  end.

Definition ipa3_nat_ipv6ct_allocate_mem s d (size : Z) (nat_type : ipahal_nat_type)
    : option (Z * kst K) :=
  let dev := device s d in
  if size =? 0 then Some (- EPERM, s) else
  if negb (cm_is_dev_init dev) then Some (- EPERM, s) else
  if (cm_is_nat_mem dev && negb (bool_decide (nat_type = IPAHAL_NAT_IPV4)))
     || (cm_is_ipv6ct_mem dev && negb (bool_decide (nat_type = IPAHAL_NAT_IPV6CT)))
  then Some (- EPERM, s) else
  '(_, nat_entry_size) ← ipahal_nat_entry_size (ipa_hw_type) nat_type;
  if MAX_ALLOC_NAT_SIZE nat_entry_size <? size then Some (- EPERM, s) else
  match nat_type with
  | IPAHAL_NAT_IPV4 =>
      if sram_compatible (ctx s) && (size <=? IPA_NAT_PHYS_MEM_SIZE)
      then alloc_nat_in_sram s size else alloc_nat_in_ddr s size
  | IPAHAL_NAT_IPV6CT => Some (alloc_ipv6ct_in_ddr s d size)
  | _ => Some (0, s)
  end.

(** The label [fail_alloc_pdn] of [ipa3_allocate_nat_table]. *)
Definition fail_alloc_pdn s : option (kst K) :=
  let loc := nm_last_alloc_loc (nm s) in
  m ← (nm_mem_loc (nm s)).[loc];
  if loc =? IPA_NAT_MEM_IN_DDR then
    if ml_vaddr m =? NULL then Some s else
    Some (with_loc (s <| world := k_dma_free_coherent (ml_table_alloc_size m) (ml_vaddr m)
                                    (ml_dma_handle m) (world s) |>)
            loc (m <| ml_vaddr := NULL |>))
  else if loc =? IPA_NAT_MEM_IN_SRAM then
    if ml_io_vaddr m =? NULL then Some s else
    Some (with_loc (s <| world := k_iounmap (ml_io_vaddr m) (world s) |>)
            loc (m <| ml_io_vaddr := NULL |> <| ml_vaddr := NULL |>))
  else Some s.

(** The allocation of the PDN buffer by [ipa3_allocate_nat_table]. *)
Definition alloc_pdn_mem s : option (Z * kst K) :=
  '(_, pdn_entry_size) ← ipahal_nat_entry_size (ipa_hw_type) IPAHAL_NAT_IPV4_PDN;
  max_pdn ← ipa3_get_max_pdn;
  let size := pdn_entry_size * max_pdn in
  let s := with_nm s (nm s <| nm_pdn_mem := nm_pdn_mem (nm s) <| mb_size := size |> |>) in
  if pdn_config_size <? size then Some (- ENOMEM, s) else
  let '(r, k) := k_dma_alloc_coherent size (world s) in
  let s := s <| world := k |> in
  match r with
  | None => Some (- ENOMEM, s)
  | Some (va, h) =>
      Some (0, with_nm s (nm s <| nm_pdn_mem :=
                 mk_mem_buffer va h size (replicate (Z.to_nat max_pdn) 0) |>))
  end.

(** The offset of the request is not touched. *)
Definition ipa3_allocate_nat_table s (size : Z) : option (Z * kst K) :=
  '(result, s) ← ipa3_nat_ipv6ct_allocate_mem s DEV_NAT size IPAHAL_NAT_IPV4;
  if negb (result =? 0) then Some (result, s) else
  if (IPA_HW_v4_0 <=? ipa_hw_type) && (mb_base (nm_pdn_mem (nm s)) =? NULL) then
    '(result, s) ← alloc_pdn_mem s;
    if result =? 0 then Some (0, s) else
    s ← fail_alloc_pdn s;
    Some (result, s)
  else Some (0, s).

(** [mem->offset = tmp.offset], which is 0. *)
Definition ipa3_allocate_nat_device s (size offset : Z) : option (Z * Z * kst K) :=
  '(result, s) ← ipa3_allocate_nat_table s size;
  Some (result, if result =? 0 then 0 else offset, s).

Definition ipa3_allocate_ipv6ct_table s (size : Z) : option (Z * kst K) :=
  if ipa_hw_type <? IPA_HW_v4_0 then Some (- EPERM, s) else
  ipa3_nat_ipv6ct_allocate_mem s DEV_IPV6CT size IPAHAL_NAT_IPV6CT.

Definition mmap_nat s (vsize : Z) : option (Z * kst K) :=
  let dev := device s DEV_NAT in
  let nmi := nm_last_alloc_loc (nm s) in
  if negb (IPA_VALID_NAT_MEM_IN nmi) then Some (- EPERM, s) else
  m ← (nm_mem_loc (nm s)).[nmi];
  if ml_vaddr m =? NULL then Some (- EPERM, s) else
  if ml_is_mapped m then Some (- EINVAL, s) else
  if (nmi =? IPA_NAT_MEM_IN_SRAM)
     && ((cm_phys_mem_size dev =? 0) || (vsize <? cm_phys_mem_size dev))
  then Some (- EINVAL, s) else
  let m := m <| ml_base_address := NULL |> in
  let '(result, k) :=
    if nmi =? IPA_NAT_MEM_IN_DDR then
      k_dma_mmap_coherent (ml_vaddr m) (ml_dma_handle m) (ml_table_alloc_size m) vsize (world s)
    else k_vm_iomap_memory (ml_phys_addr m) (cm_phys_mem_size dev) vsize (world s) in
  let s := s <| world := k |> in
  if negb (result =? 0) then Some (result, with_loc s nmi m) else
  Some (0, with_loc s nmi (m <| ml_base_address := ml_vaddr m |> <| ml_is_mapped := true |>)).

Definition mmap_ipv6ct s (vsize : Z) : Z * kst K :=
  let dev := device s DEV_IPV6CT in
  if cm_vaddr dev =? NULL then (- EPERM, s) else
  if cm_is_mapped dev then (- EINVAL, s) else
  let dev := dev <| cm_base_address := NULL |> in
  let '(result, k) := k_dma_mmap_coherent (cm_vaddr dev) (cm_dma_handle dev)
    (cm_table_alloc_size dev) vsize (world s) in
  let s := s <| world := k |> in
  if negb (result =? 0) then (result, with_device s DEV_IPV6CT dev) else
  (0, with_device s DEV_IPV6CT (dev <| cm_base_address := cm_vaddr dev |>
                                    <| cm_is_mapped := true |>)).

(** [vsize] is the size of the mapping asked for. *)
Definition ipa3_nat_ipv6ct_mmap s d (vsize : Z) : option (Z * kst K) :=
  if negb (cm_is_dev_init (device s d)) then Some (- EPERM, s) else
  if cm_is_nat_mem (device s d) then mmap_nat s vsize else Some (mmap_ipv6ct s vsize).

(** ** Checks of a table's place *)

Definition ipa3_nat_ipv6ct_check_table_params s d (nmi offset entries_num : Z)
    (nat_type : ipahal_nat_type) : option Z :=
  let dev := device s d in
  '(overflow, orig_alloc_size) ←
    (if cm_is_ipv6ct_mem dev
     then Some (u64 (UINT_MAX - cm_dma_handle dev) <? offset, cm_table_alloc_size dev)
     else
       m ← (nm_mem_loc (nm s)).[nmi];
       Some ((nmi =? IPA_NAT_MEM_IN_DDR) && (u64 (UINT_MAX - ml_dma_handle m) <? offset),
             ml_table_alloc_size m));
  if (overflow : bool) then Some (- EPERM) else
  '(ret, entry_size) ← ipahal_nat_entry_size (ipa_hw_type) nat_type;
  if negb (ret =? 0) then Some ret else
  let table_size := u64 (entry_size * u16 entries_num) in
  if u64 (UINT_MAX - table_size) <? offset then Some (- EPERM) else
  if orig_alloc_size <? u64 (offset + table_size) then Some (- EPERM) else
  Some 0.

(** ** Commands that initialise the blocks of the hardware *)

Definition ipa3_nat_ipv6ct_create_init_cmd (is_shared : bool) (base_addr tbl_index
    base_table_offset expn_table_offset table_entries expn_table_entries : Z) :=
  mk_init_common (u64 (base_addr + base_table_offset)) (u64 (base_addr + expn_table_offset))
    is_shared is_shared table_entries expn_table_entries tbl_index.

Definition ipa3_nat_create_init_cmd (init : ipa_ioc_v4_nat_init) (is_shared : bool)
    (base_addr : Z) : ipahal_imm_cmd_ip_v4_nat_init :=
  mk_nat_init
    (ipa3_nat_ipv6ct_create_init_cmd is_shared base_addr (v4_tbl_index init)
       (v4_ipv4_rules_offset init) (v4_expn_rules_offset init) (v4_table_entries init)
       (v4_expn_table_entries init))
    (u64 (base_addr + v4_index_offset init)) (u64 (base_addr + v4_index_expn_offset init))
    is_shared is_shared
    (if IPA_HW_v4_0 <=? ipa_hw_type then pdn_config_ofst else v4_ip_addr init).

Definition chk_sram_offset_alignment (addr mask : Z) : bool := Z.land addr mask =? 0.

Definition ipa3_nat_ipv6ct_init_device_structure s d (nmi base_table_offset expn_table_offset
    table_entries expn_table_entries index_offset index_expn_offset : Z)
    (focus_change : bool) : option (Z * kst K) :=
  let dev := device s d in
  if cm_is_ipv6ct_mem dev then
    Some (0, with_device s d (dev
      <| cm_base_table_addr := cm_base_address dev + base_table_offset |>
      <| cm_expansion_table_addr := cm_base_address dev + expn_table_offset |>
      <| cm_table_entries := table_entries |>
      <| cm_expn_table_entries := expn_table_entries |>))
  else if cm_is_nat_mem dev then
    m ← (nm_mem_loc (nm s)).[nmi];
    let base := ml_base_address m in
    let m := m
      <| ml_base_table_addr := base + base_table_offset |>
      <| ml_expansion_table_addr := base + expn_table_offset |>
      <| ml_table_entries := table_entries |>
      <| ml_expn_table_entries := expn_table_entries |>
      <| ml_index_table_addr := base + index_offset |>
      <| ml_index_table_expansion_addr := base + index_expn_offset |> in
    let s := with_loc (with_nm s (nm s <| nm_active_table := nmi |>)) nmi m in
    if nmi =? IPA_NAT_MEM_IN_DDR then
      Some (0, if focus_change
               then with_nm s (nm s <| nm_switch2ddr_cnt :=
                      u32 (nm_switch2ddr_cnt (nm s) + 1) |>)
               else s)
    else if negb (chk_sram_offset_alignment (ml_base_table_addr m) 31
                  && chk_sram_offset_alignment (ml_expansion_table_addr m) 31
                  && chk_sram_offset_alignment (ml_index_table_addr m) 3
                  && chk_sram_offset_alignment (ml_index_table_expansion_addr m) 3)
    then Some (- ENODEV, s)
    else
      Some (0, if focus_change
               then with_nm s (nm s <| nm_switch2sram_cnt :=
                      u32 (nm_switch2sram_cnt (nm s) + 1) |>)
               else s)
  else Some (0, s).

(** The register write that closes the coalescing frame, when it is needed. *)
Definition coal_close_cmd : list (ipahal_imm_cmd_name * imm_params * Z) :=
  if negb (wan_coal_ep =? -1) && negb ulso_wa then
    let i := wan_coal_ep in
    let offset := if ipa_hw_type <? IPA_HW_v5_0 then aggr_force_close_ofst
                  else aggr_force_close_n_ofst i in
    [(IPA_IMM_CMD_REGISTER_WRITE,
      params_register_write (mk_register_write offset (aggr_force_close_val i)
        (aggr_force_close_mask i) false IPAHAL_HPS_CLEAR), - ENOMEM)]
  else [].

Definition nop_cmd : ipahal_imm_cmd_name * imm_params * Z :=
  (IPA_IMM_CMD_REGISTER_WRITE,
   params_register_write (mk_register_write 0 0 0 false IPAHAL_HPS_CLEAR), - ENOMEM).

(** Construct commands one after the other into the arrays [cmd_pyld] and
    [desc] of [bound] elements, which hold [l] already; the third component of
    a command is the status when its construction fails.  A command that does
    not fit would be written out of bounds. *)
Fixpoint build_cmds (bound : nat) (cmds : list (ipahal_imm_cmd_name * imm_params * Z))
    (l : list ipahal_imm_cmd_pyld) s : option (Z * list ipahal_imm_cmd_pyld * kst K) :=
  match cmds with
  | [] => Some (0, l, s)
  | (name, params, err) :: cmds' =>
      if (bound <=? length l)%nat then None else
      '(p, k) ← ipahal_construct_imm_cmd (ipa_hw_type) name params (world s);
      let s := s <| world := k |> in
      match p with
      | None => Some (err, l, s)
      | Some p => build_cmds bound cmds' (l ++ [p]) s
      end
  end.

(** The label [destroy_imm_cmd]. *)
Definition destroy_imm_cmd (l : list ipahal_imm_cmd_pyld) s : kst K :=
  s <| world := fold_left (fun k _ => k_kfree k) l (world s) |>.

Definition ipa3_send_cmd s (l : list ipahal_imm_cmd_pyld) : Z * kst K :=
  let '(r, t, k) := k_send_cmd l (tables s) (world s) in
  (r, s <| tables := t |> <| world := k |>).

Definition ipa3_nat_create_modify_pdn_cmd s (zero_mem : bool)
    : option (Z * imm_params * kst K) :=
  '(_, pdn_entry_size) ← ipahal_nat_entry_size (ipa_hw_type) IPAHAL_NAT_IPV4_PDN;
  max_pdn ← ipa3_get_max_pdn;
  let mem_size := pdn_entry_size * max_pdn in
  let pdn := nm_pdn_mem (nm s) in
  if mb_base pdn =? NULL then
    Some (- EFAULT, params_dma_shared_mem
            (mk_dma_shared_mem 0 0 0 false false false IPAHAL_HPS_CLEAR), s)
  else
    let s :=
      if zero_mem
      then with_nm s (nm s <| nm_pdn_mem :=
             pdn <| mb_entries := map (fun _ => 0) (mb_entries pdn) |> |>)
      else s in
    Some (0, params_dma_shared_mem
               (mk_dma_shared_mem (mb_phys_base pdn) mem_size
                  (u32 (smem_restricted_bytes + pdn_config_ofst))
                  false false false IPAHAL_HPS_CLEAR), s).

(** The copy of the PDN table, from IPA 4.0 on. *)
Definition build_pdn_cmd (bound : nat) (zero_pdn_table : bool) (l : list ipahal_imm_cmd_pyld) s
    : option (Z * list ipahal_imm_cmd_pyld * kst K) :=
  if ipa_hw_type <? IPA_HW_v4_0 then Some (0, l, s) else
  if (bound <=? length l)%nat then Some (- ENOBUFS, l, s) else
  '(r, params, s) ← ipa3_nat_create_modify_pdn_cmd s zero_pdn_table;
  if negb (r =? 0) then Some (r, l, s) else
  build_cmds bound [(IPA_IMM_CMD_DMA_SHARED_MEM, params, - ENOMEM)] l s.

Definition ipa3_nat_send_init_cmd s (cmd : ipahal_imm_cmd_ip_v4_nat_init)
    (zero_pdn_table : bool) : option (Z * kst K) :=
  let bound := IPA_NAT_MAX_NUM_OF_INIT_CMD_DESC in
  '(r, l, s) ← build_cmds bound (coal_close_cmd ++
    [nop_cmd; (IPA_IMM_CMD_IP_V4_NAT_INIT, params_nat_init cmd, - EPERM)]) [] s;
  if negb (r =? 0) then Some (r, destroy_imm_cmd l s) else
  '(r, l, s) ← build_pdn_cmd bound zero_pdn_table l s;
  if negb (r =? 0) then Some (r, destroy_imm_cmd l s) else
  let '(r, s) := ipa3_send_cmd s l in
  Some (r, destroy_imm_cmd l s).

Definition ipa3_ipv6ct_send_init_cmd s (cmd : ipahal_imm_cmd_nat_ipv6ct_init_common)
    : option (Z * kst K) :=
  let bound := IPA_IPV6CT_MAX_NUM_OF_INIT_CMD_DESC in
  '(r, l, s) ← build_cmds bound (coal_close_cmd ++ [nop_cmd]) [] s;
  if negb (r =? 0) then Some (r, destroy_imm_cmd l s) else
  if (bound <=? length l)%nat then Some (- ENOBUFS, destroy_imm_cmd l s) else
  '(r, l, s) ← build_cmds bound [(IPA_IMM_CMD_IP_V6_CT_INIT, params_ct_init cmd, - EPERM)] l s;
  if negb (r =? 0) then Some (r, destroy_imm_cmd l s) else
  let '(r, s) := ipa3_send_cmd s l in
  Some (r, destroy_imm_cmd l s).

(** ** The handlers of the ioctls *)

(** The four tables of a NAT initialisation, with the sizes checked. *)
Definition check_nat_tables s (nmi : Z) (init : ipa_ioc_v4_nat_init) : option Z :=
  let check offset entries ty :=
    ipa3_nat_ipv6ct_check_table_params s DEV_NAT nmi offset entries ty in
  r ← check (v4_ipv4_rules_offset init) (v4_table_entries init + 1) IPAHAL_NAT_IPV4;
  if negb (r =? 0) then Some r else
  r ← check (v4_expn_rules_offset init) (v4_expn_table_entries init) IPAHAL_NAT_IPV4;
  if negb (r =? 0) then Some r else
  r ← check (v4_index_offset init) (v4_table_entries init + 1) IPAHAL_NAT_IPV4_INDEX;
  if negb (r =? 0) then Some r else
  check (v4_index_expn_offset init) (v4_expn_table_entries init) IPAHAL_NAT_IPV4_INDEX.

Definition store_pdn s (i : Z) (fields : ipahal_nat_pdn_entry) : option (Z * kst K) :=
  '(r, e) ← ipahal_nat_construct_entry (ipa_hw_type) IPAHAL_NAT_IPV4_PDN fields;
  let pdn := nm_pdn_mem (nm s) in
  l ← storeZ (mb_entries pdn) i e;
  Some (r, with_nm s (nm s <| nm_pdn_mem := pdn <| mb_entries := l |> |>)).

(** [init] after [ipa3_nat_init_cmd] has forced DDR on a client that never
    asked for SRAM. *)
Definition nat_init_request s (init : ipa_ioc_v4_nat_init) : ipa_ioc_v4_nat_init :=
  if sram_compatible (ctx s) then init else
  mk_v4_init (v4_tbl_index init) (v4_ipv4_rules_offset init) (v4_expn_rules_offset init)
    (v4_index_offset init) (v4_index_expn_offset init) (v4_table_entries init)
    (v4_expn_table_entries init) (v4_ip_addr init) 0 false.

Definition ipa3_nat_init_cmd s (init : ipa_ioc_v4_nat_init) : option (Z * kst K) :=
  let init := nat_init_request s init in
  let nmi := v4_mem_type init in
  if negb (IPA_VALID_TBL_INDEX (v4_tbl_index init)) then Some (- EPERM, s) else
  if (v4_table_entries init =? 0) || (v4_table_entries init =? U16_MAX)
  then Some (- EPERM, s) else
  if negb (IPA_VALID_NAT_MEM_IN nmi) then Some (- EPERM, s) else
  m ← (nm_mem_loc (nm s)).[nmi];
  if negb (ml_is_mapped m) then Some (- EPERM, s) else
  result ← check_nat_tables s nmi init;
  if negb (result =? 0) then Some (result, s) else
  let cmd :=
    if nmi =? IPA_NAT_MEM_IN_DDR
    then ipa3_nat_create_init_cmd init false (ml_dma_handle m)
    else ipa3_nat_create_init_cmd init true nat_tbl_ofst in
  '(result, s) ←
    (if (IPA_HW_v4_0 <=? ipa_hw_type) && negb (mb_base (nm_pdn_mem (nm s)) =? NULL)
        && negb (v4_focus_change init)
     then store_pdn s 0 (mk_pdn_fields (v4_ip_addr init) 0 0) else Some (0, s));
  if negb (result =? 0) then Some (result, s) else
  '(result, s) ← ipa3_nat_send_init_cmd s cmd false;
  if negb (result =? 0) then Some (result, s) else
  '(result, s) ← ipa3_nat_ipv6ct_init_device_structure s DEV_NAT nmi
    (v4_ipv4_rules_offset init) (v4_expn_rules_offset init) (v4_table_entries init)
    (v4_expn_table_entries init) (v4_index_offset init) (v4_index_expn_offset init)
    (v4_focus_change init);
  if negb (result =? 0) then Some (result, s) else
  let s := with_nm s (nm s <| nm_public_ip_addr := v4_ip_addr init |>) in
  Some (0, with_device s DEV_NAT (device s DEV_NAT <| cm_is_hw_init := true |>)).

Definition ipa3_ipv6ct_init_cmd s (init : ipa_ioc_ipv6ct_init) : option (Z * kst K) :=
  let dev := device s DEV_IPV6CT in
  if ipa_hw_type <? IPA_HW_v4_0 then Some (- EPERM, s) else
  if negb (IPA_VALID_TBL_INDEX (v6_tbl_index init)) then Some (- EPERM, s) else
  if (v6_table_entries init =? 0) || (v6_table_entries init =? U16_MAX)
  then Some (- EPERM, s) else
  if negb (cm_is_mapped dev) then Some (- EPERM, s) else
  r ← ipa3_nat_ipv6ct_check_table_params s DEV_IPV6CT IPA_NAT_MEM_IN_DDR
    (v6_base_table_offset init) (v6_table_entries init + 1) IPAHAL_NAT_IPV6CT;
  if negb (r =? 0) then Some (r, s) else
  r ← ipa3_nat_ipv6ct_check_table_params s DEV_IPV6CT IPA_NAT_MEM_IN_DDR
    (v6_expn_table_offset init) (v6_expn_table_entries init) IPAHAL_NAT_IPV6CT;
  if negb (r =? 0) then Some (r, s) else
  '(r, s) ← ipa3_ipv6ct_send_init_cmd s
    (ipa3_nat_ipv6ct_create_init_cmd false (cm_dma_handle dev) (v6_tbl_index init)
       (v6_base_table_offset init) (v6_expn_table_offset init) (v6_table_entries init)
       (v6_expn_table_entries init));
  if negb (r =? 0) then Some (r, s) else
  '(_, s) ← ipa3_nat_ipv6ct_init_device_structure s DEV_IPV6CT IPA_NAT_MEM_IN_DDR
    (v6_base_table_offset init) (v6_expn_table_offset init) (v6_table_entries init)
    (v6_expn_table_entries init) 0 0 false;
  Some (0, with_device s DEV_IPV6CT (device s DEV_IPV6CT <| cm_is_hw_init := true |>)).

Definition ipa3_nat_mdfy_pdn s (mdfy_pdn : ipa_ioc_nat_pdn_entry) : option (Z * kst K) :=
  if ipa_hw_type <? IPA_HW_v4_0 then Some (- EPERM, s) else
  if mb_base (nm_pdn_mem (nm s)) =? NULL then Some (- EPERM, s) else
  max_pdn ← ipa3_get_max_pdn;
  if max_pdn - 1 <? ioc_pdn_index mdfy_pdn then Some (- EPERM, s) else
  let src := ioc_src_metadata mdfy_pdn in
  let src := if ipa_hw_type =? IPA_HW_v4_1 then Z.lor src IPA_QMAP_TETH_BIT else src in
  '(r, s) ← store_pdn s (ioc_pdn_index mdfy_pdn)
    (mk_pdn_fields (ioc_public_ip mdfy_pdn) src (ioc_dst_metadata mdfy_pdn));
  if negb (r =? 0) then Some (r, s) else
  '(r, params, s) ← ipa3_nat_create_modify_pdn_cmd s false;
  if negb (r =? 0) then Some (r, s) else
  '(r, l, s) ← build_cmds 1 [(IPA_IMM_CMD_DMA_SHARED_MEM, params, - ENOMEM)] [] s;
  if negb (r =? 0) then Some (r, s) else
  let '(r, s) := ipa3_send_cmd s l in
  Some (r, destroy_imm_cmd l s).

Definition ipa3_nat_ipv6ct_calculate_table_size s (nmi base_addr : Z) : option Z :=
  m ← (nm_mem_loc (nm s)).[nmi];
  let v6 := device s DEV_IPV6CT in
  match tbl_of_number base_addr with
  | None => Some 0
  | Some ty =>
      let '(num_entries, nat_type) :=
        match ty with
        | IPA_NAT_BASE_TBL => (ml_table_entries m + 1, IPAHAL_NAT_IPV4)
        | IPA_NAT_EXPN_TBL => (ml_expn_table_entries m, IPAHAL_NAT_IPV4)
        | IPA_NAT_INDX_TBL => (ml_table_entries m + 1, IPAHAL_NAT_IPV4_INDEX)
        | IPA_NAT_INDEX_EXPN_TBL => (ml_expn_table_entries m, IPAHAL_NAT_IPV4_INDEX)
        | IPA_IPV6CT_BASE_TBL => (cm_table_entries v6 + 1, IPAHAL_NAT_IPV6CT)
        | IPA_IPV6CT_EXPN_TBL => (cm_expn_table_entries v6, IPAHAL_NAT_IPV6CT)
        end in
      '(_, entry_size) ← ipahal_nat_entry_size (ipa_hw_type) nat_type;
      Some (u32 (entry_size * u32 num_entries))
  end.

Definition ipa3_table_validate_table_dma_one s (nmi : Z) (param : dma_one_raw) : option Z :=
  if 1 <=? raw_table_index param then Some (- EPERM) else
  let refused :=
    match tbl_of_number (raw_base_addr param) with
    | None => true
    | Some (IPA_IPV6CT_BASE_TBL | IPA_IPV6CT_EXPN_TBL) =>
        (ipa_hw_type <? IPA_HW_v4_0) || negb (cm_is_hw_init (device s DEV_IPV6CT))
    | Some _ => negb (cm_is_hw_init (device s DEV_NAT))
    end in
  if refused then Some (- EPERM) else
  table_size ← ipa3_nat_ipv6ct_calculate_table_size s nmi (raw_base_addr param);
  if table_size =? 0 then Some (- EPERM) else
  if table_size <=? raw_offset param then Some (- EPERM) else
  Some 0.

(** The first status that is not 0. *)
Fixpoint validate_dma_ones s (nmi : Z) (l : list dma_one_raw) : option Z :=
  match l with
  | [] => Some 0
  | p :: l' =>
      r ← ipa3_table_validate_table_dma_one s nmi p;
      if negb (r =? 0) then Some r else validate_dma_ones s nmi l'
  end.

Definition table_dma_name : ipahal_imm_cmd_name :=
  if IPA_HW_v4_0 <=? ipa_hw_type then IPA_IMM_CMD_TABLE_DMA else IPA_IMM_CMD_NAT_DMA.

Definition table_dma_cmds (l : list dma_one_raw) :=
  map (fun p => (table_dma_name,
         params_table_dma (mk_table_dma (raw_offset p) (raw_data p) (raw_table_index p)
                             (raw_base_addr p)), - ENOMEM)) l.

(** An array that is shorter than [entries] is read out of bounds. *)
Definition ipa3_table_dma_cmd s (dma : dma_cmd_raw) : option (Z * kst K) :=
  let mem_type := if sram_compatible (ctx s) then raw_mem_type dma else 0 in
  if negb (cm_is_dev_init (device s DEV_NAT)) then Some (- EPERM, s) else
  if negb (IPA_VALID_NAT_MEM_IN mem_type) then Some (- EPERM, s) else
  let max_dma_table_cmds :=
    Z.of_nat IPA_MAX_NUM_OF_TABLE_DMA_CMD_DESC
    - (if wan_coal_ep =? -1 then 0 else 1) in
  if (raw_entries dma =? 0) || (max_dma_table_cmds - 1 <? raw_entries dma)
  then Some (- EPERM, s) else
  if lengthZ (raw_dma dma) <? raw_entries dma then None else
  let ones := take (Z.to_nat (raw_entries dma)) (raw_dma dma) in
  result ← validate_dma_ones s mem_type ones;
  if negb (result =? 0) then Some (result, s) else
  '(result, l, s) ← build_cmds IPA_MAX_NUM_OF_TABLE_DMA_CMD_DESC
    (coal_close_cmd ++ nop_cmd :: table_dma_cmds ones) [] s;
  if negb (result =? 0) then Some (result, destroy_imm_cmd l s) else
  let '(result, s) := ipa3_send_cmd s l in
  Some (result, destroy_imm_cmd l s).

(** ** Release *)

Definition free_nat_ddr s : option (kst K) :=
  if nm_ddr_in_use (nm s) then
    m ← (nm_mem_loc (nm s)).[IPA_NAT_MEM_IN_DDR];
    let s := with_nm s (nm s <| nm_ddr_in_use := false |>) in
    if ml_vaddr m =? NULL then Some s else
    Some (s <| world := k_dma_free_coherent (ml_table_alloc_size m) (ml_vaddr m)
                          (ml_dma_handle m) (world s) |>)
  else Some s.

Definition free_nat_sram s : option (kst K) :=
  if nm_sram_in_use (nm s) then
    m ← (nm_mem_loc (nm s)).[IPA_NAT_MEM_IN_SRAM];
    let s := with_nm s (nm s <| nm_sram_in_use := false |>) in
    if ml_io_vaddr m =? NULL then Some s else
    Some (s <| world := k_iounmap (ml_io_vaddr m) (world s) |>)
  else Some s.

(** The fields of both locations are reset one by one and then by a
    [memset]. *)
Definition ipa3_nat_ipv6ct_free_mem s d : option (kst K) :=
  let dev := device s d in
  if cm_is_ipv6ct_mem dev then
    let s :=
      if cm_vaddr dev =? NULL then s else
      s <| world := k_dma_free_coherent (cm_table_alloc_size dev) (cm_vaddr dev)
                      (cm_dma_handle dev) (world s) |> in
    Some (with_device s d (dev
      <| cm_vaddr := NULL |> <| cm_dma_handle := 0 |> <| cm_table_alloc_size := 0 |>
      <| cm_base_table_addr := NULL |> <| cm_expansion_table_addr := NULL |>
      <| cm_table_entries := 0 |> <| cm_expn_table_entries := 0 |>
      <| cm_is_hw_init := false |> <| cm_is_mapped := false |>))
  else if cm_is_nat_mem dev then
    s ← free_nat_ddr s;
    s ← free_nat_sram s;
    let s := with_device s d (device s d <| cm_is_hw_init := false |>
                                         <| cm_is_mapped := false |>) in
    Some (with_nm s (nm s <| nm_mem_loc := [mem_loc_zero; mem_loc_zero] |>))
  else Some s.

Definition ipa3_nat_ipv6ct_create_del_table_cmd s d (tbl_index base_addr : Z)
    : Z * ipahal_imm_cmd_nat_ipv6ct_init_common :=
  if negb (IPA_VALID_TBL_INDEX tbl_index)
  then (- EPERM, mk_init_common 0 0 false false 0 0 0) else
  let '(shared, base_addr) :=
    match cm_tmp_mem (device s d) with
    | Some t => (false, u32 (tmp_dma_handle t))
    | None => (true, base_addr)
    end in
  (0, mk_init_common base_addr base_addr shared shared 0 0 tbl_index).

Definition ipa3_nat_send_del_table_cmd s (tbl_index : Z) : option (Z * kst K) :=
  let '(result, t) := ipa3_nat_ipv6ct_create_del_table_cmd s DEV_NAT tbl_index
                        IPA_NAT_PHYS_MEM_OFFSET in
  if negb (result =? 0) then Some (result, s) else
  ipa3_nat_send_init_cmd s
    (mk_nat_init t (base_table_addr t) (base_table_addr t) (base_table_addr_shared t)
       (base_table_addr_shared t) 0) true.

Definition ipa3_ipv6ct_send_del_table_cmd s (tbl_index : Z) : option (Z * kst K) :=
  let '(result, t) := ipa3_nat_ipv6ct_create_del_table_cmd s DEV_IPV6CT tbl_index
                        IPA_IPV6CT_PHYS_MEM_OFFSET in
  if negb (result =? 0) then Some (result, s) else ipa3_ipv6ct_send_init_cmd s t.

(** The release of the PDN buffer by [ipa3_del_nat_table]. *)
Definition free_pdn_mem s : kst K :=
  let pdn := nm_pdn_mem (nm s) in
  if (IPA_HW_v4_0 <=? ipa_hw_type) && negb (mb_base pdn =? NULL) then
    with_nm (s <| world := k_dma_free_coherent (mb_size pdn) (mb_base pdn) (mb_phys_base pdn)
                             (world s) |>)
      (nm s <| nm_pdn_mem := pdn <| mb_base := NULL |> |>)
  else s.

Definition ipa3_del_nat_table s (del : ipa_ioc_nat_ipv6ct_table_del) : option (Z * kst K) :=
  let nmi := if sram_compatible (ctx s) then del_mem_type del else 0 in
  let dev := device s DEV_NAT in
  if negb (cm_is_dev_init dev) then Some (- EPERM, s) else
  if negb (IPA_VALID_TBL_INDEX (del_table_index del)) then Some (- EPERM, s) else
  if negb (IPA_VALID_NAT_MEM_IN nmi) then Some (- EPERM, s) else
  '(result, s) ←
    (if cm_is_hw_init dev then ipa3_nat_send_del_table_cmd s (del_table_index del)
     else Some (0, s));
  if negb (result =? 0) then Some (result, s) else
  m ← (nm_mem_loc (nm s)).[nmi];
  let s := with_nm s (nm s <| nm_public_ip_addr := 0 |>) in
  let s := with_loc s nmi (m <| ml_index_table_addr := NULL |>
                             <| ml_index_table_expansion_addr := NULL |>) in
  s ← ipa3_nat_ipv6ct_free_mem (free_pdn_mem s) DEV_NAT;
  Some (0, s).

(** [tmp.mem_type] is not initialised: it is [garbage]. *)
Definition ipa3_nat_del_cmd s (table_index garbage : Z) : option (Z * kst K) :=
  ipa3_del_nat_table s (mk_table_del table_index garbage).

Definition ipa3_del_ipv6ct_table s (del : ipa_ioc_nat_ipv6ct_table_del) : option (Z * kst K) :=
  let dev := device s DEV_IPV6CT in
  if negb (cm_is_dev_init dev) then Some (- EPERM, s) else
  if ipa_hw_type <? IPA_HW_v4_0 then Some (- EPERM, s) else
  '(result, s) ←
    (if cm_is_hw_init dev then ipa3_ipv6ct_send_del_table_cmd s (del_table_index del)
     else Some (0, s));
  if negb (result =? 0) then Some (result, s) else
  s ← ipa3_nat_ipv6ct_free_mem s DEV_IPV6CT;
  Some (0, s).

(** ** SRAM *)

Definition roundup (x y : Z) : Z := (x + (y - 1)) / y * y.

Definition ipa3_nat_get_sram_info s : Z * ipa_nat_in_sram_info * kst K :=
  if negb (cm_is_dev_init (device s DEV_NAT)) then (- EPERM, sram_info_zero, s) else
  let s := s <| ctx := ctx s <| sram_compatible := true |> |> in
  let offset := u32 (Z.land (u64 (ipa_wrapper_base + ipa_reg_base_ofst
                                  + sram_direct_access_ofst + nat_tbl_ofst))
                       (PAGE_SIZE - 1)) in
  (0, mk_sram_info nat_tbl_size offset
        (u32 (roundup (u32 (offset + nat_tbl_size)) PAGE_SIZE)), s).
End Operations.
