(* ===== verification/KIoctl.v ===== *)
(** * The ioctls of the NAT driver ([ipa3_ioctl] of [ipa_v3/ipa.c])

    The cases of the switch that concern the tables: copy the argument from
    user space, call the handler, copy the result back.  Whatever the handler
    reports, user space sees [-EFAULT]. *)
From S2P Require Import Prelude Bitfield Table Env RecordUpdate KernelEnv Hal HalCmd KNat KNatOps.

(** The command and its argument as it is read from user space.  The argument
    of [IPA_IOC_TABLE_DMA_CMD] is read twice: [hdr_entries] first, to know how
    much to copy, and then the whole; [IPA_IOC_V4_DEL_NAT] carries the byte
    the handler leaves uninitialised. *)
Inductive nat_ioctl :=
  | IPA_IOC_ALLOC_NAT_MEM (size offset : Z)
  | IOC_ALLOC_NAT_TABLE (size offset : Z)
  | IOC_ALLOC_IPV6CT_TABLE (size offset : Z)
  | IPA_IOC_V4_INIT_NAT (init : ipa_ioc_v4_nat_init)
  | IPA_IOC_INIT_IPV6CT_TABLE (init : ipa_ioc_ipv6ct_init)
  | IPA_IOC_TABLE_DMA_CMD (hdr_entries : Z) (cmd : dma_cmd_raw)
  | IPA_IOC_V4_DEL_NAT (table_index garbage : Z)
  | IOC_DEL_NAT_TABLE (del : ipa_ioc_nat_ipv6ct_table_del)
  | IOC_DEL_IPV6CT_TABLE (del : ipa_ioc_nat_ipv6ct_table_del)
  | IPA_IOC_NAT_MODIFY_PDN (entry : ipa_ioc_nat_pdn_entry)
  | IPA_IOC_GET_NAT_IN_SRAM_INFO.

(** What is written back to user space. *)
Inductive nat_ioctl_out :=
  | out_none
  | out_offset (offset : Z)
  | out_sram_info (info : ipa_nat_in_sram_info).

Section Ioctl.
Context {c : ipa3_config} {K : Type} {E : KernelEnv K}.
Implicit Types (s : kst K).

Definition efault s : option (Z * nat_ioctl_out * kst K) := Some (- EFAULT, out_none, s).

(** The result of a handler that writes nothing back. *)
Definition finish_ioctl (r : option (Z * kst K)) : option (Z * nat_ioctl_out * kst K) :=
  '(result, s) ← r;
  if result =? 0 then Some (0, out_none, s) else efault s.

(** The offset is copied back unless it is zero. *)
Definition finish_alloc (offset : Z) (r : option (Z * kst K))
    : option (Z * nat_ioctl_out * kst K) :=
  '(result, s) ← r;
  if negb (result =? 0) then efault s else
  if offset =? 0 then Some (0, out_none, s) else
  let '(fails, k) := k_copy_to_user (world s) in
  let s := s <| world := k |> in
  if fails then efault s else Some (0, out_offset offset, s).

Definition proc_sram_info_rqst s : option (Z * nat_ioctl_out * kst K) :=
  let '(result, info, s) := ipa3_nat_get_sram_info s in
  if negb (result =? 0) then efault s else
  let '(fails, k) := k_copy_to_user (world s) in
  let s := s <| world := k |> in
  if fails then efault s else Some (0, out_sram_info info, s).

(** After the header was copied: duplicate the whole command, which must not
    have changed its number of entries meanwhile.  The array that is copied has
    as many elements as the header said. *)
Definition table_dma_ioctl s (hdr_entries : Z) (cmd : dma_cmd_raw)
    : option (Z * nat_ioctl_out * kst K) :=
  let '(ok, k) := k_kzalloc (4 + hdr_entries * 12) (world s) in
  let s := s <| world := k |> in
  if negb ok then Some (- ENOMEM, out_none, s) else
  let '(fails, k) := k_copy_from_user (world s) in
  if fails then efault (s <| world := k_kfree k |>) else
  let s := s <| world := k |> in
  if negb (raw_entries cmd =? hdr_entries) then efault (s <| world := k_kfree (world s) |>) else
  '(r, out, s) ← finish_ioctl (ipa3_table_dma_cmd s
    (mk_dma_cmd_raw (raw_entries cmd) (raw_mem_type cmd)
       (take (Z.to_nat hdr_entries) (raw_dma cmd))));
  Some (r, out, s <| world := k_kfree (world s) |>).

Definition ipa3_ioctl s (req : nat_ioctl) : option (Z * nat_ioctl_out * kst K) :=
  match req with
  | IPA_IOC_GET_NAT_IN_SRAM_INFO => proc_sram_info_rqst s
  | _ =>
      let '(fails, k) := k_copy_from_user (world s) in
      let s := s <| world := k |> in
      if fails then efault s else
      match req with
      | IPA_IOC_ALLOC_NAT_MEM size offset =>
          '(result, offset, s) ← ipa3_allocate_nat_device s size offset;
          if negb (result =? 0) then efault s else
          let '(fails, k) := k_copy_to_user (world s) in
          let s := s <| world := k |> in
          if fails then efault s else Some (0, out_offset offset, s)
      | IOC_ALLOC_NAT_TABLE size offset => finish_alloc offset (ipa3_allocate_nat_table s size)
      | IOC_ALLOC_IPV6CT_TABLE size offset =>
          finish_alloc offset (ipa3_allocate_ipv6ct_table s size)
      | IPA_IOC_V4_INIT_NAT init => finish_ioctl (ipa3_nat_init_cmd s init)
      | IPA_IOC_INIT_IPV6CT_TABLE init => finish_ioctl (ipa3_ipv6ct_init_cmd s init)
      | IPA_IOC_TABLE_DMA_CMD hdr_entries cmd => table_dma_ioctl s hdr_entries cmd
      | IPA_IOC_V4_DEL_NAT i garbage => finish_ioctl (ipa3_nat_del_cmd s i garbage)
      | IOC_DEL_NAT_TABLE del => finish_ioctl (ipa3_del_nat_table s del)
      | IOC_DEL_IPV6CT_TABLE del => finish_ioctl (ipa3_del_ipv6ct_table s del)
      | IPA_IOC_NAT_MODIFY_PDN entry => finish_ioctl (ipa3_nat_mdfy_pdn s entry)
      | IPA_IOC_GET_NAT_IN_SRAM_INFO => efault s
      end
  end.
End Ioctl.
