(* ===== verification/KernelLaws.v ===== *)
(** * The abstraction layer, Linux and the hardware: facts and assumptions

    What the tables hold for every version of the hardware the driver
    supports, and that a field of a payload can be read back.

    [KernelGhost] names what the state of the world knows: the DMA buffers
    that are allocated (size by handle) and the last payloads with which the
    NAT and the IPv6CT block of the hardware were initialised.  [KernelLaws]
    says how the calls of the driver change them: memory is fresh when it is
    allocated and gone when it is freed, the commands of a list the hardware
    reports as done were carried out in order, and those of a list it does not
    were not. *)
From S2P Require Import Prelude Bitfield Table Env KernelEnv Hal HalCmd TableDma TableMem KNatOps.

Definition supported (hw : Z) : Prop := IPA_HW_v3_0 <= hw < IPA_HW_MAX.

(** ** The tables *)

Lemma supported_cases (P : Z -> Prop) :
  Forall P [10; 11; 12; 13; 14; 15; 16; 17; 18; 19; 20; 21; 22; 23; 24; 25] ->
  forall hw, supported hw -> P hw.
Proof.
  intros H hw Hhw. unfold supported, IPA_HW_v3_0, IPA_HW_MAX, IPA_HW_v6_0 in Hhw.
  rewrite Forall_forall in H. apply H. rewrite !list_elem_of_In. cbn. lia.
Qed.

(** Check a statement about a supported version for all of them. *)
Ltac by_version hw :=
  revert hw; refine (supported_cases _ _); repeat apply Forall_cons_2;
  unfold IPA_HW_v4_0; try lia; try done.

Lemma entry_size_v3 hw : supported hw ->
  ipahal_nat_entry_size hw IPAHAL_NAT_IPV4 = Some (0, 32)
  /\ ipahal_nat_entry_size hw IPAHAL_NAT_IPV4_INDEX = Some (0, 4).
Proof. by_version hw. Qed.

Lemma entry_size_v4 hw : supported hw -> IPA_HW_v4_0 <= hw ->
  ipahal_nat_entry_size hw IPAHAL_NAT_IPV4_PDN = Some (0, 16)
  /\ ipahal_nat_entry_size hw IPAHAL_NAT_IPV6CT = Some (0, 64).
Proof. by_version hw. Qed.

Lemma construct_entry_v4 hw f : supported hw -> IPA_HW_v4_0 <= hw ->
  ipahal_nat_construct_entry hw IPAHAL_NAT_IPV4_PDN f
  = Some (0, ipa_nat_ipv4_pdn_construct_entry_v_4_0 f).
Proof. by_version hw. Qed.

Lemma parse_entry_v4 hw e : supported hw -> IPA_HW_v4_0 <= hw ->
  ipahal_nat_parse_entry hw IPAHAL_NAT_IPV4_PDN e
  = Some (0, ipa_nat_ipv4_pdn_parse_entry_v_4_0 e).
Proof. by_version hw. Qed.

Section Commands.
Context {K : Type} {E : KernelEnv K}.

Lemma imm_cmd_objs_v3 hw : supported hw -> hw < IPA_HW_v4_0 ->
  imm_cmd_objs hw hw IPA_IMM_CMD_REGISTER_WRITE
    = Some (ipa_imm_cmd_construct_register_write, 12)
  /\ imm_cmd_objs hw hw IPA_IMM_CMD_NAT_DMA = Some (ipa_imm_cmd_construct_nat_dma, 14).
Proof. by_version hw. Qed.

Lemma imm_cmd_objs_v4 hw : supported hw -> IPA_HW_v4_0 <= hw ->
  imm_cmd_objs hw hw IPA_IMM_CMD_REGISTER_WRITE
    = Some (ipa_imm_cmd_construct_register_write_v_4_0, 12)
  /\ imm_cmd_objs hw hw IPA_IMM_CMD_TABLE_DMA
     = Some (ipa_imm_cmd_construct_table_dma_ipav4, 14)
  /\ imm_cmd_objs hw hw IPA_IMM_CMD_DMA_SHARED_MEM
     = Some (ipa_imm_cmd_construct_dma_shared_mem_v_4_0, 19)
  /\ imm_cmd_objs hw hw IPA_IMM_CMD_IP_V6_CT_INIT
     = Some (ipa_imm_cmd_construct_ip_v6_ct_init, 23).
Proof. by_version hw. Qed.

Lemma imm_cmd_objs_nat_init hw : supported hw ->
  imm_cmd_objs hw hw IPA_IMM_CMD_IP_V4_NAT_INIT
  = Some (ipa_imm_cmd_construct_ip_v4_nat_init, 5).
Proof. by_version hw. Qed.

(** Outside the supported versions the table is empty. *)
Lemma imm_cmd_objs_unsupported hw name : ~ supported hw -> imm_cmd_objs hw hw name = None.
Proof.
  intros Hhw. unfold imm_cmd_objs, ipahal_imm_cmd_init.
  assert (H0 : ipahal_imm_cmd_objs hw name = None).
  { unfold supported, IPA_HW_v3_0, IPA_HW_MAX, IPA_HW_v6_0 in Hhw.
    unfold ipahal_imm_cmd_objs, IPA_HW_v3_0, IPA_HW_v4_0.
    destruct (Z.eqb_spec hw 10), (Z.eqb_spec hw 14); try lia; done. }
  destruct ((hw <? 0) || _) eqn:Eb; [done|].
  rewrite orb_false_iff, Z.ltb_ge, Z.leb_gt in Eb. unfold supported in Hhw.
  replace (Z.to_nat (hw - IPA_HW_v3_0)) with O by lia. exact H0.
Qed.
End Commands.

(** ** Reading a payload *)

Definition wf_fieldb (f : field) : bool := (0 <=? lo f) && (0 <? fw f).
Definition same_fieldb (f g : field) : bool := (lo f =? lo g) && (fw f =? fw g).

(** What a list of assignments leaves in the field [f], if no assignment
    overlaps it. *)
Definition assigned (f : field) (l : list (field * Z)) (init : option Z) : option Z :=
  fold_left (fun acc gv =>
    if same_fieldb f gv.1 then Some gv.2
    else if wf_fieldb gv.1 && disjoint_fields gv.1 f then acc else None) l init.

Lemma wf_fieldb_spec f : wf_fieldb f = true -> wf_field f.
Proof. unfold wf_fieldb, wf_field. rewrite andb_true_iff. lia. Qed.

Lemma same_fieldb_spec f g : same_fieldb f g = true -> f = g.
Proof.
  unfold same_fieldb. rewrite andb_true_iff, !Z.eqb_eq. destruct f, g. cbn. by intros [-> ->].
Qed.


Lemma payload_read_from f l d i v :
  wf_field f -> (forall w, i = Some w -> getf f d = w mod 2 ^ fw f) ->
  assigned f l i = Some v ->
  getf f (fold_left (fun d fv => setf fv.1 d fv.2) l d) = v mod 2 ^ fw f.
Proof.
  intros Hf. revert d i. induction l as [|[g w] l IH]; intros d i Hd Ha; [by apply Hd|].
  cbn [fold_left fst snd] in *. unfold assigned in Ha. cbn [fold_left fst snd] in Ha.
  destruct (same_fieldb f g) eqn:Es.
  - apply same_fieldb_spec in Es as <-. apply (IH _ (Some w)); [|exact Ha].
    intros w' [= <-]. by apply getf_setf_eq.
  - destruct (wf_fieldb g && disjoint_fields g f) eqn:Eg.
    + apply andb_true_iff in Eg as [Hg Hdis]. apply wf_fieldb_spec in Hg.
      apply (IH _ i); [|exact Ha]. intros w' Hi. rewrite getf_setf_ne by done. by apply Hd.
    + by apply (IH _ None).
Qed.

Lemma payload_read f l v :
  wf_fieldb f = true -> assigned f l None = Some v -> getf f (payload l) = v mod 2 ^ fw f.
Proof. intros Hf. apply payload_read_from; [by apply wf_fieldb_spec|done]. Qed.

(** A field no assignment touches is 0. *)
Lemma payload_read_zero f l :
  wf_fieldb f = true -> assigned f l (Some 0) = Some 0 -> getf f (payload l) = 0.
Proof.
  intros Hf Ha. unfold payload. rewrite (payload_read_from f l 0 (Some 0) 0).
  - apply Z.mod_0_l. apply wf_fieldb_spec in Hf. destruct Hf. nia.
  - by apply wf_fieldb_spec.
  - intros w [= <-]. unfold getf. rewrite Z.shiftr_0_l, Z.land_0_l. symmetry.
    apply Z.mod_0_l. apply wf_fieldb_spec in Hf. destruct Hf. nia.
  - exact Ha.
Qed.

Class KernelGhost (K : Type) := {
  k_dma : K -> gmap Z Z;
  k_nat_hw : K -> option Z;
  k_ct_hw : K -> option Z
}.

(** The opcodes of the commands. *)
Definition OP_NAT_INIT : Z := 5.
Definition OP_TABLE_DMA : Z := 14.
Definition OP_CT_INIT : Z := 23.

Definition is_cmd (op : Z) (p : ipahal_imm_cmd_pyld) : bool := pyld_opcode p =? op.

(** The payload of the last command with opcode [op] of the list. *)
Definition last_cmd (op : Z) (l : list ipahal_imm_cmd_pyld) (cur : option Z) : option Z :=
  fold_left (fun cur p => if is_cmd op p then Some (pyld_data p) else cur) l cur.

(** A table DMA command as the hardware reads it. *)
Definition decode_dma {c : ipa3_config} (data : Z) : option ipa_ioc_nat_dma_one :=
  let '(fi, fb, fo, fd) :=
    if IPA_HW_v4_0 <=? ipa_hw_type
    then (tdw_table_index, tdw_base_addr, tdw_offset, tdw_data)
    else (nd_table_index, nd_base_addr, nd_offset, nd_data) in
  ty ← tbl_of_number (getf fb data);
  Some (mk_dma_one (getf fi data) ty (getf fo data) (getf fd data)).

Definition dma_ones {c : ipa3_config} (l : list ipahal_imm_cmd_pyld) : list ipa_ioc_nat_dma_one :=
  omap (fun p => decode_dma (pyld_data p)) (filter (fun p => is_cmd OP_TABLE_DMA p = true) l).

Section Ghost.
Context {K : Type} {G : KernelGhost K}.

Definition same_ghost (k k' : K) : Prop :=
  k_dma k' = k_dma k /\ k_nat_hw k' = k_nat_hw k /\ k_ct_hw k' = k_ct_hw k.

#[export] Instance same_ghost_preorder : PreOrder same_ghost.
Proof.
  split; [done|]. intros k1 k2 k3 (A1 & A2 & A3) (B1 & B2 & B3).
  split; [congruence|]. split; congruence.
Qed.
End Ghost.

Class KernelLaws {c : ipa3_config} (K : Type) {E : KernelEnv K} {G : KernelGhost K} : Prop := {
  kzalloc_ghost n k : same_ghost k (k_kzalloc n k).2;
  kfree_ghost k : same_ghost k (k_kfree k);
  ioremap_ghost a n k : same_ghost k (k_ioremap a n k).2;
  iounmap_ghost a k : same_ghost k (k_iounmap a k);
  dma_mmap_ghost v h n m k : same_ghost k (k_dma_mmap_coherent v h n m k).2;
  iomap_ghost a n m k : same_ghost k (k_vm_iomap_memory a n m k).2;
  copy_from_ghost k : same_ghost k (k_copy_from_user k).2;
  copy_to_ghost k : same_ghost k (k_copy_to_user k).2;
  class_create_ghost nm k : same_ghost k (k_class_create nm k).2;
  class_destroy_ghost nm k : same_ghost k (k_class_destroy nm k);
  chrdev_ghost nm k : same_ghost k (k_alloc_chrdev_region nm k).2;
  unregister_ghost nm k : same_ghost k (k_unregister_chrdev_region nm k);
  device_create_ghost nm k : same_ghost k (k_device_create nm k).2;
  device_destroy_ghost nm k : same_ghost k (k_device_destroy nm k);
  cdev_ghost nm k : same_ghost k (k_cdev_add nm k).2;
  dma_alloc_fails n k k' : k_dma_alloc_coherent n k = (None, k') -> same_ghost k k';
  dma_alloc_fresh n k v h k' :
    k_dma_alloc_coherent n k = (Some (v, h), k') ->
    v <> NULL /\ 0 <= h /\ h + n < 2 ^ 64 /\ k_dma k !! h = None
    /\ k_dma k' = <[h := n]> (k_dma k)
    /\ k_nat_hw k' = k_nat_hw k /\ k_ct_hw k' = k_ct_hw k;
  dma_free_gone n v h k :
    k_dma (k_dma_free_coherent n v h k) = delete h (k_dma k)
    /\ k_nat_hw (k_dma_free_coherent n v h k) = k_nat_hw k
    /\ k_ct_hw (k_dma_free_coherent n v h k) = k_ct_hw k;
  send_done l m k m' k' :
    k_send_cmd l m k = (0, m', k') ->
    k_dma k' = k_dma k /\ k_nat_hw k' = last_cmd OP_NAT_INIT l (k_nat_hw k)
    /\ k_ct_hw k' = last_cmd OP_CT_INIT l (k_ct_hw k)
    /\ (forall m1, dma_effect (dma_ones l) m = Some m1 -> mem_eq m' m1);
  send_failed l m k r m' k' :
    k_send_cmd l m k = (r, m', k') -> r <> 0 -> same_ghost k k' /\ mem_eq m' m
}.
