(* ===== verification/KSend.v ===== *)
(** * Sending commands to the hardware

    The lists of commands the driver sends fit the arrays they are built in,
    and what the hardware is left with when it reports them done. *)
From S2P Require Import Prelude Bitfield Table TableDma Env TableMem RecordUpdate KernelEnv Hal.
From S2P Require Import HalCmd KernelLaws KNat KNatOps.

Section Send.
Context {c : ipa3_config} {K : Type} {E : KernelEnv K} {G : KernelGhost K} {laws : KernelLaws K}.
Hypothesis Hhw : supported ipa_hw_type.
Implicit Types (s : kst K) (k : K) (p : ipahal_imm_cmd_pyld).

(** A change of the world that the driver's state and the ghost state do not
    see. *)
Definition quiet s s' : Prop :=
  ctx s' = ctx s /\ tables s' = tables s /\ same_ghost (world s) (world s').

#[export] Instance quiet_preorder : PreOrder quiet.
Proof.
  split; [done|]. intros s1 s2 s3 (A1 & A2 & A3) (B1 & B2 & B3).
  split; [congruence|]. split; [congruence|]. by etrans.
Qed.

Lemma quiet_world s k' : same_ghost (world s) k' -> quiet s (s <| world := k' |>).
Proof. done. Qed.

(** ** Constructing *)

(** The command is constructed as [p], or not at all. *)
Definition constructs (name : ipahal_imm_cmd_name) (params : imm_params) p : Prop :=
  forall k, exists o k',
    ipahal_construct_imm_cmd ipa_hw_type name params k = Some (o, k')
    /\ same_ghost k k' /\ (o = None \/ o = Some p).

Lemma alloc_pyld_spec len op data k : exists o k',
  alloc_pyld len op data k = Some (o, k') /\ same_ghost k k'
  /\ (o = None \/ o = Some (mk_pyld (u16 op) len data)).
Proof.
  unfold alloc_pyld. pose proof (kzalloc_ghost (len + 4) k) as Hg.
  destruct (k_kzalloc (len + 4) k) as [[] k']; eexists _, _; (split; [done|]); auto.
Qed.

Lemma not_constructed k p : exists o k',
  Some (@None ipahal_imm_cmd_pyld, k) = Some (o, k') /\ same_ghost k k' /\ (o = None \/ o = Some p).
Proof. eexists _, _. split; [done|]. split; [done|]. by left. Qed.

(** A construct call whose table entry is [construct] with opcode [op]. *)
Lemma constructs_by name params p construct op :
  imm_cmd_objs ipa_hw_type ipa_hw_type name = Some (construct, op) ->
  (forall k, exists o k', construct op params k = Some (o, k')
     /\ same_ghost k k' /\ (o = None \/ o = Some p)) ->
  constructs name params p.
Proof. intros Hn Hc k. unfold ipahal_construct_imm_cmd. rewrite Hn. apply Hc. Qed.

Lemma nat_init_constructs cmd :
  constructs IPA_IMM_CMD_IP_V4_NAT_INIT (params_nat_init cmd)
    (mk_pyld OP_NAT_INIT 40 (nat_init_payload cmd)).
Proof.
  eapply constructs_by; [by apply imm_cmd_objs_nat_init|]. intros k. apply alloc_pyld_spec.
Qed.

Lemma ct_init_constructs cmd : IPA_HW_v4_0 <= ipa_hw_type ->
  constructs IPA_IMM_CMD_IP_V6_CT_INIT (params_ct_init cmd)
    (mk_pyld OP_CT_INIT 24 (ct_init_payload cmd)).
Proof.
  intros H4. eapply constructs_by; [by apply imm_cmd_objs_v4|]. intros k.
  apply alloc_pyld_spec.
Qed.

(** A register write that waits for the packets before it. *)
Lemma register_write_constructs ofst val mask : exists data,
  constructs IPA_IMM_CMD_REGISTER_WRITE
    (params_register_write (mk_register_write ofst val mask false IPAHAL_HPS_CLEAR))
    (mk_pyld 12 16 data).
Proof.
  destruct (decide (IPA_HW_v4_0 <= ipa_hw_type)) as [H4|H4].
  - eexists. eapply constructs_by; [by apply imm_cmd_objs_v4|]. intros k. cbn.
    destruct (0xFFFF <? ofst); [apply not_constructed|]. apply alloc_pyld_spec.
  - eexists. eapply constructs_by; [apply imm_cmd_objs_v3; [done|lia]|]. intros k.
    apply alloc_pyld_spec.
Qed.

Lemma shared_mem_constructs addr size local : IPA_HW_v4_0 <= ipa_hw_type -> exists data,
  constructs IPA_IMM_CMD_DMA_SHARED_MEM
    (params_dma_shared_mem (mk_dma_shared_mem addr size local false false false IPAHAL_HPS_CLEAR))
    (mk_pyld 19 16 data).
Proof.
  intros H4. eexists. eapply constructs_by; [by apply imm_cmd_objs_v4|]. intros k. cbn.
  destruct (0xFFFF <? size); [apply not_constructed|]. destruct (0xFFFF <? local); [apply not_constructed|].
  apply alloc_pyld_spec.
Qed.

Definition table_dma_data (one : dma_one_raw) : Z :=
  let t := mk_table_dma (raw_offset one) (raw_data one) (raw_table_index one)
             (raw_base_addr one) in
  if IPA_HW_v4_0 <=? ipa_hw_type then table_dma_payload t else nat_dma_payload t.

Lemma table_dma_constructs one :
  constructs table_dma_name
    (params_table_dma (mk_table_dma (raw_offset one) (raw_data one) (raw_table_index one)
       (raw_base_addr one)))
    (mk_pyld OP_TABLE_DMA 8 (table_dma_data one)).
Proof.
  unfold table_dma_name, table_dma_data. destruct (Z.leb_spec IPA_HW_v4_0 ipa_hw_type) as [H|H].
  - eapply constructs_by; [by apply imm_cmd_objs_v4|]. intros k. apply alloc_pyld_spec.
  - eapply constructs_by; [by apply imm_cmd_objs_v3|]. intros k. apply alloc_pyld_spec.
Qed.

(** A command of a list that is built: it constructs [p], and a failure has a
    status. *)
Definition builds (cmd : ipahal_imm_cmd_name * imm_params * Z) p : Prop :=
  constructs cmd.1.1 cmd.1.2 p /\ cmd.2 <> 0.

Lemma build_cmds_spec bound cmds ps l s :
  Forall2 builds cmds ps -> (length l + length cmds <= bound)%nat ->
  exists r l' s', build_cmds bound cmds l s = Some (r, l', s') /\ quiet s s'
    /\ (r = 0 -> l' = l ++ ps).
Proof.
  intros H. revert l s. induction H as [|[[name params] err] p cmds ps [Hc He] _ IH].
  - intros l s _. exists 0, l, s. split; [done|]. split; [done|]. by rewrite app_nil_r.
  - intros l s Hlen. cbn in Hlen, Hc, He. cbn [build_cmds].
    destruct (Nat.leb_spec bound (length l)) as [Hb|Hb]; [lia|].
    destruct (Hc (world s)) as (o & k' & -> & Hg & Ho). cbn [mbind option_bind].
    destruct o as [p'|].
    + destruct Ho as [|[= ->]]; [done|].
      destruct (IH (l ++ [p]) (s <| world := k' |>)) as (r & l' & s' & -> & Hq & Hl).
      { rewrite length_app. cbn. lia. }
      exists r, l', s'. split; [done|]. split; [by etrans; [|exact Hq]|].
      intros Hr. rewrite (Hl Hr), <- app_assoc. done.
    + eexists _, _, _. split; [done|]. split; [done|]. done.
Qed.

Lemma destroy_quiet l s : quiet s (destroy_imm_cmd l s).
Proof.
  split; [done|]. split; [done|]. cbn. generalize (world s). induction l as [|p l IH]; intros k.
  - done.
  - cbn. etrans; [apply kfree_ghost|]. apply IH.
Qed.

(** ** Lists of commands *)

(** Commands that concern neither the tables nor the blocks. *)
Definition inert (l : list ipahal_imm_cmd_pyld) : Prop :=
  Forall (fun p => pyld_opcode p <> OP_NAT_INIT /\ pyld_opcode p <> OP_CT_INIT
                   /\ pyld_opcode p <> OP_TABLE_DMA) l.

Lemma last_cmd_inert op l cur :
  op = OP_NAT_INIT \/ op = OP_CT_INIT -> inert l -> last_cmd op l cur = cur.
Proof.
  intros Hop. unfold last_cmd. induction 1 as [|p l Hp _ IH] in cur |- *; [done|].
  cbn [fold_left]. unfold is_cmd. rewrite (proj2 (Z.eqb_neq _ _)); [apply IH|].
  destruct Hop as [-> | ->]; tauto.
Qed.

Lemma last_cmd_app op l1 l2 cur : last_cmd op (l1 ++ l2) cur = last_cmd op l2 (last_cmd op l1 cur).
Proof. apply fold_left_app. Qed.

Lemma dma_ones_inert l : inert l -> dma_ones l = [].
Proof.
  unfold dma_ones. induction 1 as [|p l Hp _ IH]; [done|].
  rewrite filter_cons_False; [exact IH|]. unfold is_cmd. rewrite Z.eqb_eq. tauto.
Qed.

Lemma dma_ones_app l1 l2 : dma_ones (l1 ++ l2) = dma_ones l1 ++ dma_ones l2.
Proof. unfold dma_ones. by rewrite filter_app, omap_app. Qed.

Lemma nop_builds : exists p, builds nop_cmd p /\ inert [p].
Proof.
  destruct (register_write_constructs 0 0 0) as [data H]. eexists. split; [by split|].
  by repeat constructor.
Qed.

Lemma coal_builds : exists ps, Forall2 builds coal_close_cmd ps /\ inert ps
  /\ (length ps <= if (wan_coal_ep =? -1)%Z then 0 else 1)%nat.
Proof.
  unfold coal_close_cmd. destruct (wan_coal_ep =? -1)%Z, ulso_wa; cbn;
    try (exists []; split; [constructor|]; split; [constructor|cbn; lia]).
  edestruct register_write_constructs as [data H]. eexists [_]. split.
  { constructor; [split; [exact H|done]|constructor]. }
  split; [by repeat constructor|]. cbn. lia.
Qed.

(** What precedes the commands proper. *)
Lemma prefix_builds : exists ps, Forall2 builds (coal_close_cmd ++ [nop_cmd]) ps /\ inert ps
  /\ (length ps <= if (wan_coal_ep =? -1)%Z then 1 else 2)%nat.
Proof.
  destruct coal_builds as (ps & Hb & Hi & Hl). destruct nop_builds as (p & Hp & Hip).
  exists (ps ++ [p]). split; [apply Forall2_app; [done|by constructor]|].
  split; [by apply Forall_app|]. rewrite length_app. cbn. destruct (wan_coal_ep =? -1)%Z; lia.
Qed.

Lemma prefix_short :
  (length (coal_close_cmd ++ [nop_cmd]) <= if (wan_coal_ep =? -1)%Z then 1 else 2)%nat.
Proof.
  destruct prefix_builds as (ps & Hb & _ & Hl). by rewrite (Forall2_length _ _ _ Hb).
Qed.
End Send.
