(* ===== verification/KUser.v ===== *)
(** * Table DMA through the driver, and the driver as environment of the library

    A command that [ipa3_table_dma_cmd] accepts and the hardware carries out
    has the documented effect of its entries on the tables; any other leaves
    them alone.  This is what the library's theorems assume of the ioctl.

    [kernel_env] answers the system calls of the library with the model of the
    driver: the table ioctls and [mmap] of the table devices go through
    [ipa3_ioctl] and [ipa3_nat_ipv6ct_mmap], everything else to an environment
    [U] of the rest of the system.  The laws the library's theorems assume of
    their environment are theorems here. *)
From S2P Require Import Prelude Bitfield Table TableDma Env TableMem RecordUpdate KernelEnv Hal.
From S2P Require Import HalCmd KernelLaws KNat KNatOps KSend KIoctl.

(** An entry as it crosses into the kernel. *)
Definition raw_one (one : ipa_ioc_nat_dma_one) : dma_one_raw :=
  mk_dma_one_raw (one_table_index one) (tbl_number (one_base_addr one)) (one_offset one)
    (one_data one).

Lemma tbl_of_number_tbl_number ty : tbl_of_number (tbl_number ty) = Some ty.
Proof. by destruct ty. Qed.

Lemma tbl_number_of_tbl n ty : tbl_of_number n = Some ty -> tbl_number ty = n.
Proof.
  unfold tbl_of_number. repeat case_match; intros [= <-]; cbn; lia.
Qed.

(** Only the low bits of what is assigned to a field count. *)
Lemma setf_mod f e v : wf_field f -> setf f e (v mod 2 ^ fw f) = setf f e v.
Proof.
  intros [_ Hw]. unfold setf. rewrite <- !Z.land_ones by lia.
  by rewrite <- Z.land_assoc, Z.land_diag.
Qed.

Section TableDma.
Context {c : ipa3_config} {K : Type} {E : KernelEnv K} {G : KernelGhost K} {laws : KernelLaws K}.
Hypothesis Hhw : supported ipa_hw_type.
Implicit Types (s : kst K) (k : K) (one : ipa_ioc_nat_dma_one).

(** ** What is accepted *)

Definition ct_type (ty : ipa_table_dma_type) : bool :=
  match ty with IPA_IPV6CT_BASE_TBL | IPA_IPV6CT_EXPN_TBL => true | _ => false end.

Lemma validate_one_accepts s nmi raw :
  ipa3_table_validate_table_dma_one s nmi raw = Some 0 ->
  exists ty size, tbl_of_number (raw_base_addr raw) = Some ty
    /\ ipa3_nat_ipv6ct_calculate_table_size s nmi (raw_base_addr raw) = Some size
    /\ raw_table_index raw < 1 /\ raw_offset raw < size < 2 ^ 32
    /\ (ct_type ty = true -> IPA_HW_v4_0 <= ipa_hw_type)
    /\ cm_is_hw_init (device s (if ct_type ty then DEV_IPV6CT else DEV_NAT)) = true.
Proof.
  unfold ipa3_table_validate_table_dma_one.
  destruct (Z.leb_spec 1 (raw_table_index raw)) as [?|Hi]; [done|].
  destruct (tbl_of_number _) as [ty|] eqn:Et; [|done].
  match goal with |- (if ?b then _ else _) = _ -> _ => destruct b eqn:Eb; [done|] end.
  destruct (ipa3_nat_ipv6ct_calculate_table_size _ _ _) as [size|] eqn:Es; [|done].
  cbn [mbind option_bind]. destruct (size =? 0); [done|].
  destruct (Z.leb_spec size (raw_offset raw)) as [?|Ho]; [done|]. intros _.
  exists ty, size. split; [done|]. split; [done|]. split; [lia|].
  assert (Hs : size < 2 ^ 32).
  { revert Es. unfold ipa3_nat_ipv6ct_calculate_table_size.
    destruct ((nm_mem_loc (nm s)).[nmi]) as [m|]; [|done]. cbn [mbind option_bind].
    rewrite Et. match goal with |- (let '(_, _) := ?x in _) = _ -> _ => destruct x as [n ty'] end.
    destruct (ipahal_nat_entry_size _ ty') as [[? ?]|]; [|done]. cbn. intros [= <-].
    apply u32_range. }
  split; [lia|]. destruct ty; cbn in Eb |- *; rewrite ?orb_false_iff, ?negb_false_iff in Eb;
    (split; [intros [=]; lia|tauto]).
Qed.

Lemma validate_ones_accepts s nmi l :
  validate_dma_ones s nmi l = Some 0 ->
  Forall (fun raw => ipa3_table_validate_table_dma_one s nmi raw = Some 0) l.
Proof.
  induction l as [|raw l IH]; [by constructor|]. cbn [validate_dma_ones].
  destruct (ipa3_table_validate_table_dma_one s nmi raw) as [r|] eqn:Er; [|done]. cbn.
  destruct (Z.eqb_spec r 0) as [->|?]; cbn; [|congruence]. intros H. constructor; auto.
Qed.

(** ** What the hardware reads *)

Lemma decode_accepted one :
  0 <= one_offset one < 2 ^ 32 ->
  (ct_type (one_base_addr one) = true -> IPA_HW_v4_0 <= ipa_hw_type) ->
  exists ti, decode_dma (table_dma_data (raw_one one))
    = Some (mk_dma_one ti (one_base_addr one) (one_offset one) (one_data one mod 2 ^ 16)).
Proof.
  intros Ho Hct. unfold decode_dma, table_dma_data.
  destruct (Z.leb_spec IPA_HW_v4_0 ipa_hw_type) as [H4|H4].
  - unfold table_dma_payload. cbn [td_table_index td_base_addr td_offset td_data raw_one
      raw_table_index raw_base_addr raw_offset raw_data].
    rewrite (payload_read tdw_base_addr _ (tbl_number (one_base_addr one))),
      (payload_read tdw_offset _ (one_offset one)),
      (payload_read tdw_data _ (one_data one)) by done.
    change (fw tdw_base_addr) with 3. change (fw tdw_offset) with 32. change (fw tdw_data) with 16.
    replace (tbl_number (one_base_addr one) mod 2 ^ 3) with (tbl_number (one_base_addr one))
      by by destruct one as [? []].
    rewrite tbl_of_number_tbl_number, (Z.mod_small (one_offset one)) by done.
    eexists. reflexivity.
  - unfold nat_dma_payload. cbn [td_table_index td_base_addr td_offset td_data raw_one
      raw_table_index raw_base_addr raw_offset raw_data].
    rewrite (payload_read nd_base_addr _ (tbl_number (one_base_addr one))),
      (payload_read nd_offset _ (one_offset one)),
      (payload_read nd_data _ (one_data one)) by done.
    change (fw nd_base_addr) with 2. change (fw nd_offset) with 32. change (fw nd_data) with 16.
    replace (tbl_number (one_base_addr one) mod 2 ^ 2) with (tbl_number (one_base_addr one)).
    + rewrite tbl_of_number_tbl_number, (Z.mod_small (one_offset one)) by done.
      eexists. reflexivity.
    + destruct one as [? [] ? ?]; try done; cbn in Hct; specialize (Hct eq_refl); lia.
Qed.

Lemma effect_one_decoded one ti m m1 :
  dma_effect_one one m = Some m1 ->
  0 <= one_offset one
  /\ dma_effect_one (mk_dma_one ti (one_base_addr one) (one_offset one)
                       (one_data one mod 2 ^ 16)) m = Some m1.
Proof.
  unfold dma_effect_one. cbn [one_base_addr one_offset one_data].
  destruct ((m (one_base_addr one)).[_]) as [e|] eqn:Ee; [|done]. cbn. intros [= <-]. split.
  - apply lookupZ_Some_range in Ee as [Hk _].
    assert (0 < hw_record_size (one_base_addr one)) by by destruct one as [? []]. 
    pose proof (Z.div_mod (one_offset one) (hw_record_size (one_base_addr one)) ltac:(lia)).
    pose proof (Z.mod_pos_bound (one_offset one) (hw_record_size (one_base_addr one)) ltac:(lia)).
    nia.
  - f_equal. unfold record_put16. rewrite setf_mod; [done|].
    unfold half_at, wf_field. cbn.
    pose proof (Z.mod_pos_bound (one_offset one) (hw_record_size (one_base_addr one))).
    assert (0 < hw_record_size (one_base_addr one)) by by destruct one as [? []]. lia.
Qed.

Definition dma_pyld (raw : dma_one_raw) : ipahal_imm_cmd_pyld :=
  mk_pyld OP_TABLE_DMA 8 (table_dma_data raw).

Lemma effect_decoded s nmi ones m m1 :
  Forall (fun raw => ipa3_table_validate_table_dma_one s nmi raw = Some 0) (map raw_one ones) ->
  dma_effect ones m = Some m1 ->
  dma_effect (dma_ones (map dma_pyld (map raw_one ones))) m = Some m1.
Proof.
  unfold dma_ones. induction ones as [|one ones IH] in m |- *; [done|].
  cbn [map dma_effect]. intros Hv He. apply Forall_cons in Hv as [Hv Hvs].
  destruct (dma_effect_one one m) as [m2|] eqn:E1; [|done]. cbn in He.
  destruct (validate_one_accepts _ _ _ Hv) as (ty & size & Hty & _ & _ & Hsz & Hct & _).
  cbn in Hty. rewrite tbl_of_number_tbl_number in Hty. injection Hty as <-.
  destruct (decode_accepted one) as [ti Hd].
  { destruct (effect_one_decoded one 0 m m2 E1) as [H0 _]. cbn in Hsz. lia. }
  { exact Hct. }
  destruct (effect_one_decoded one ti m m2 E1) as [_ Hd1].
  rewrite filter_cons_True by done. cbn [omap list_omap dma_pyld pyld_data]. rewrite Hd.
  cbn [dma_effect]. rewrite Hd1. cbn. by apply IH.
Qed.

(** ** The command *)

Lemma last_cmd_dma op l cur :
  op = OP_NAT_INIT \/ op = OP_CT_INIT -> last_cmd op (map dma_pyld l) cur = cur.
Proof.
  intros Hop. unfold last_cmd. induction l as [|raw l IH]; [done|]. cbn [map fold_left].
  replace (is_cmd op (dma_pyld raw)) with false; [exact IH|].
  by destruct Hop as [-> | ->].
Qed.

Lemma table_dma_cmds_build l : Forall2 builds (table_dma_cmds l) (map dma_pyld l).
Proof.
  unfold table_dma_cmds. induction l as [|raw l IH]; cbn; constructor; [|exact IH].
  split; [by apply table_dma_constructs|done].
Qed.

Lemma send_quiet s l s1 r :
  ipa3_send_cmd s l = (r, s1) ->
  ctx s1 = ctx s
  /\ (r <> 0 -> same_ghost (world s) (world s1) /\ mem_eq (tables s1) (tables s))
  /\ (r = 0 -> k_dma (world s1) = k_dma (world s)
      /\ k_nat_hw (world s1) = last_cmd OP_NAT_INIT l (k_nat_hw (world s))
      /\ k_ct_hw (world s1) = last_cmd OP_CT_INIT l (k_ct_hw (world s))
      /\ (forall m1, dma_effect (dma_ones l) (tables s) = Some m1 -> mem_eq (tables s1) m1)).
Proof.
  unfold ipa3_send_cmd. destruct (k_send_cmd l (tables s) (world s)) as [[r' t'] k'] eqn:Es.
  intros [= <- <-]. cbn. split; [done|]. split.
  - intros Hr. by apply (send_failed _ _ _ _ _ _ Es).
  - intros ->. by apply (send_done _ _ _ _ _ Es).
Qed.

Definition accepted_dma s (nmi : Z) (ones : list dma_one_raw) : Prop :=
  Forall (fun raw => ipa3_table_validate_table_dma_one s nmi raw = Some 0) ones.

(** A call of [ipa3_table_dma_cmd] leaves the driver alone; only one that
    succeeds touches the tables, and it has the effect of its entries. *)
Definition dma_outcome s (dma : dma_cmd_raw) (r : Z) s' : Prop :=
  let ones := take (Z.to_nat (raw_entries dma)) (raw_dma dma) in
  ctx s' = ctx s /\ same_ghost (world s) (world s')
  /\ (r <> 0 -> mem_eq (tables s') (tables s))
  /\ (r = 0 -> exists nmi, accepted_dma s nmi ones
      /\ forall m1, dma_effect (dma_ones (map dma_pyld ones)) (tables s) = Some m1 ->
           mem_eq (tables s') m1).

Lemma dma_cmds_fit (entries : Z) (ones : list dma_one_raw) :
  Z.of_nat (length ones) <= Z.max 0 entries ->
  entries <= Z.of_nat IPA_MAX_NUM_OF_TABLE_DMA_CMD_DESC
             - (if wan_coal_ep =? -1 then 0 else 1) - 1 ->
  (length (coal_close_cmd ++ nop_cmd :: table_dma_cmds ones)
   <= IPA_MAX_NUM_OF_TABLE_DMA_CMD_DESC)%nat.
Proof.
  intros Hl Hmax. pose proof (prefix_short Hhw) as Hp.
  rewrite length_app in *. cbn [length] in *. unfold table_dma_cmds. rewrite length_map.
  unfold IPA_MAX_NUM_OF_TABLE_DMA_CMD_DESC in *. destruct (wan_coal_ep =? -1); lia.
Qed.

Lemma table_dma_cmd_spec s dma r s' :
  ipa3_table_dma_cmd s dma = Some (r, s') -> dma_outcome s dma r s'.
Proof.
  unfold ipa3_table_dma_cmd. set (nmi := if sram_compatible (ctx s) then _ else _).
  assert (Hrefuse : forall e, e <> 0 -> Some (e, s) = Some (r, s') -> dma_outcome s dma r s')
    by by intros e He [= <- <-].
  destruct (cm_is_dev_init _); [|by apply Hrefuse].
  destruct (IPA_VALID_NAT_MEM_IN nmi); [|by apply Hrefuse]. cbn [negb].
  match goal with |- (if ?b then _ else _) = _ -> _ => destruct b eqn:Eb; [by apply Hrefuse|] end.
  rewrite orb_false_iff, Z.eqb_neq, Z.ltb_ge in Eb. destruct Eb as [_ Hmax].
  destruct (lengthZ (raw_dma dma) <? _); [done|].
  set (ones := take (Z.to_nat (raw_entries dma)) (raw_dma dma)).
  destruct (validate_dma_ones s nmi ones) as [v|] eqn:Ev; [|done]. cbn [mbind option_bind].
  destruct (Z.eqb_spec v 0) as [->|Hv]; cbn [negb]; [|by apply Hrefuse].
  destruct (prefix_builds Hhw) as (pre & Hpre & Hin & _).
  assert (Hb : Forall2 builds (coal_close_cmd ++ nop_cmd :: table_dma_cmds ones)
                 (pre ++ map dma_pyld ones)).
  { change (nop_cmd :: table_dma_cmds ones) with ([nop_cmd] ++ table_dma_cmds ones).
    rewrite app_assoc. apply Forall2_app; [done|apply table_dma_cmds_build]. }
  destruct (build_cmds_spec IPA_MAX_NUM_OF_TABLE_DMA_CMD_DESC _ _ [] s Hb)
    as (br & bl & bs & -> & (Q1 & Q2 & Q3) & Hbl).
  { apply (dma_cmds_fit (raw_entries dma)); [|done].
    unfold ones. rewrite length_take. lia. }
  cbn [mbind option_bind]. destruct (Z.eqb_spec br 0) as [->|Hbr]; cbn [negb].
  - specialize (Hbl eq_refl). cbn in Hbl. subst bl.
    destruct (ipa3_send_cmd bs _) as [sr ss] eqn:Es. intros [= <- <-].
    destruct (send_quiet _ _ _ _ Es) as (S1 & S2 & S3).
    destruct (destroy_quiet (pre ++ map dma_pyld ones) ss) as (D1 & D2 & D3).
    split; [congruence|]. rewrite Q2 in *. split; [|split].
    + etrans; [exact Q3|]. etrans; [|exact D3].
      destruct (decide (sr = 0)) as [Hs|Hs]; [|by apply S2].
      destruct (S3 Hs) as (T1 & T2 & T3 & _). split; [done|].
      rewrite last_cmd_app, (last_cmd_inert _ pre), last_cmd_dma in T2 by auto.
      rewrite last_cmd_app, (last_cmd_inert _ pre), last_cmd_dma in T3 by auto. done.
    + intros Hs. rewrite D2. by apply S2.
    + intros Hs. exists nmi. split; [by apply validate_ones_accepts|]. intros m1 Hm.
      rewrite D2. apply S3; [done|]. by rewrite dma_ones_app, (dma_ones_inert pre).
  - intros [= <- <-]. destruct (destroy_quiet bl bs) as (D1 & D2 & D3).
    split; [congruence|]. split; [by etrans|]. split; [|done]. intros _. by rewrite D2, Q2.
Qed.
End TableDma.

(** What a file descriptor is open on. *)
Class VfsEnv (K : Type) := { v_fd_device : Z -> K -> option nat_device }.

(** What is assumed of the configuration. *)
Class ConfigOk {c : ipa3_config} : Prop := {
  cfg_supported : supported ipa_hw_type;
  cfg_page : 0 < PAGE_SIZE <= 2 ^ 16;
  cfg_sram : 0 <= nat_tbl_ofst /\ 0 <= nat_tbl_size /\ nat_tbl_ofst + nat_tbl_size <= 2 ^ 31;
  cfg_pdn : 16 <= pdn_config_size
}.

Section User.
Context {c : ipa3_config} {K : Type} {E : KernelEnv K} {U : IpaEnv K} {V : VfsEnv K}.
Implicit Types (s : kst K).

Definition lift {A} (f : K -> A * K) s : A * kst K :=
  let '(a, k) := f (world s) in (a, s <| world := k |>).

(** The system call: -1 for every failure. *)
Definition drv_ioctl (req : nat_ioctl) s : Z * nat_ioctl_out * kst K :=
  match ipa3_ioctl s req with
  | Some (r, out, s') => (if r =? 0 then 0 else -1, out, s')
  | None => (-1, out_none, s)
  end.

Definition drv_status (req : nat_ioctl) s : Z * kst K :=
  let '(r, _, s) := drv_ioctl req s in (r, s).

Definition drv_mmap (size fd : Z) s : Z * kst K :=
  match v_fd_device fd (world s) with
  | None => (MAP_FAILED, s)
  | Some d =>
      match ipa3_nat_ipv6ct_mmap s d (roundup size PAGE_SIZE) with
      | Some (r, s) => if r =? 0 then lift (env_mmap size fd) s else (MAP_FAILED, s)
      | None => (MAP_FAILED, s)
      end
  end.

(** The library clears the argument: its offset is 0. *)
Definition drv_alloc (ioc : table_ioctl) (size : Z) s : Z * Z * kst K :=
  let req :=
    match ioc with
    | IPA_IOC_ALLOC_IPV6CT_TABLE => IOC_ALLOC_IPV6CT_TABLE size 0
    | _ => IOC_ALLOC_NAT_TABLE size 0
    end in
  let '(r, out, s) := drv_ioctl req s in
  (r, match out with out_offset o => o | _ => 0 end, s).

Definition drv_delete (ioc : table_ioctl) (del : ipa_ioc_nat_ipv6ct_table_del) s : Z * kst K :=
  drv_status (match ioc with
              | IPA_IOC_DEL_IPV6CT_TABLE => IOC_DEL_IPV6CT_TABLE del
              | _ => IOC_DEL_NAT_TABLE del
              end) s.

Definition raw_cmd (cmd : ipa_ioc_nat_dma_cmd) : dma_cmd_raw :=
  mk_dma_cmd_raw (entries cmd) (mem_type cmd) (map raw_one (dma cmd)).

Definition drv_table_dma (cmd : ipa_ioc_nat_dma_cmd) (m : tbl_mem) s : Z * tbl_mem * kst K :=
  let '(r, s) := drv_status (IPA_IOC_TABLE_DMA_CMD (entries cmd) (raw_cmd cmd))
                   (s <| tables := m |>) in
  (r, tables s, s).

Definition kernel_env : IpaEnv (kst K) := {|
  env_lock s := lift env_lock s;
  env_unlock s := lift env_unlock s;
  env_mutexattr_init s := lift env_mutexattr_init s;
  env_mutexattr_settype s := lift env_mutexattr_settype s;
  env_mutex_init s := lift env_mutex_init s;
  env_calloc n s := lift (env_calloc n) s;
  env_open path s := lift (env_open path) s;
  env_close fd s := lift (env_close fd) s;
  env_mmap size fd s := drv_mmap size fd s;
  env_munmap addr size s := s <| world := env_munmap addr size (world s) |>;
  env_initial s addr size := env_initial (world s) addr size;
  env_get_hw_version fd s := lift (env_get_hw_version fd) s;
  env_get_sram_info _ s :=
    let '(r, out, s) := drv_ioctl IPA_IOC_GET_NAT_IN_SRAM_INFO s in
    (r, match out with out_sram_info info => info | _ => sram_info_zero end, s);
  env_alloc_table _ ioc size s := drv_alloc ioc size s;
  env_del_table _ ioc del s := drv_delete ioc del s;
  env_v4_init _ init s := drv_status (IPA_IOC_V4_INIT_NAT init) s;
  env_ipv6ct_init _ init s := drv_status (IPA_IOC_INIT_IPV6CT_TABLE init) s;
  env_modify_pdn _ entry s := drv_status (IPA_IOC_NAT_MODIFY_PDN entry) s;
  env_vote_clock fd v s := lift (env_vote_clock fd v) s;
  env_table_dma _ cmd m s := drv_table_dma cmd m s
|}.
End User.

(** ** The driver keeps the laws of the library's environment *)

Section Laws.
Context {c : ipa3_config} {K : Type} {E : KernelEnv K} {G : KernelGhost K} {laws : KernelLaws K}.
Context {ok : ConfigOk} {U : IpaEnv K} {V : VfsEnv K}.
Implicit Types (s : kst K).

Lemma finish_ioctl_inv h r out s' :
  finish_ioctl h = Some (r, out, s') ->
  exists r0, h = Some (r0, s') /\ (r = 0 <-> r0 = 0) /\ out = out_none.
Proof.
  unfold finish_ioctl, efault. destruct h as [[r0 s1]|]; [|done]. cbn.
  destruct (Z.eqb_spec r0 0) as [->|Hr]; intros [= <- <- <-]; eexists; done.
Qed.

Lemma table_dma_ioctl_spec s hdr cmd r out s' :
  table_dma_ioctl s hdr cmd = Some (r, out, s') ->
  (r <> 0 -> mem_eq (tables s') (tables s))
  /\ (r = 0 -> exists s1 nmi,
      let ones := take (Z.to_nat (raw_entries cmd)) (take (Z.to_nat hdr) (raw_dma cmd)) in
      accepted_dma s1 nmi ones /\ raw_entries cmd = hdr
      /\ forall m1, dma_effect (dma_ones (map dma_pyld ones)) (tables s) = Some m1 ->
           mem_eq (tables s') m1).
Proof.
  unfold table_dma_ioctl, efault. destruct (k_kzalloc _ (world s)) as [[] k1]; cbn [negb];
    [|by intros [= <- <- <-]]. cbn [world]. destruct (k_copy_from_user _) as [[] k2]; [by intros [= <- <- <-]|].
  destruct (Z.eqb_spec (raw_entries cmd) hdr) as [Hh|Hh]; [|by intros [= <- <- <-]]. cbn [negb].
  set (s2 := s <| world := k1 |> <| world := k2 |>).
  destruct (finish_ioctl _) as [[[r0 o0] s0]|] eqn:Ef; [|done]. cbn. intros [= <- <- <-].
  destruct (finish_ioctl_inv _ _ _ _ Ef) as (ri & Hi & Hr & _).
  apply table_dma_cmd_spec in Hi as (_ & _ & Hne & Heq); [|apply cfg_supported]. cbn in Hne, Heq.
  split.
  - intros Hn. apply Hne. tauto.
  - intros H0. destruct (Heq (proj1 Hr H0)) as (nmi & Ha & Hm). by exists s2, nmi.
Qed.

#[local] Instance user_env : IpaEnv (kst K) := kernel_env.

Lemma drv_table_dma_spec cmd m s r m' s' :
  drv_table_dma cmd m s = (r, m', s') ->
  (r <> 0 -> mem_eq m' m)
  /\ (r = 0 -> forall m1, dma_effect (cmd_ones cmd) m = Some m1 -> mem_eq m' m1).
Proof.
  unfold drv_table_dma, drv_status, drv_ioctl, ipa3_ioctl, efault. cbn [world].
  set (s0 := s <| tables := m |>).
  destruct (k_copy_from_user _) as [[] k1].
  { by intros [= <- <- <-]. }
  set (s1 := s0 <| world := k1 |>).
  destruct (table_dma_ioctl s1 _ _) as [[[r1 o1] s2]|] eqn:Et; [|by intros [= <- <- <-]].
  intros [= <- <- <-]. apply table_dma_ioctl_spec in Et as [Hne Heq]. cbn in Hne, Heq.
  destruct (Z.eqb_spec r1 0) as [->|Hr]; (split; [|try done]).
  - done.
  - intros _ m1 Hm. destruct (Heq eq_refl) as (s3 & nmi & Ha & _ & Hm1).
    rewrite take_take, Nat.min_id, firstn_map in Ha, Hm1. fold (cmd_ones cmd) in Ha, Hm1.
    apply Hm1. by eapply effect_decoded; [exact Ha|].
  - intros _. by apply Hne.
Qed.

Lemma kernel_dma_laws : IpaEnvLaws (kst K).
Proof.
  split; cbn.
  - intros fd cmd m k m' k' m1 H Hm ty. apply drv_table_dma_spec in H as [_ H]. by apply H.
  - intros fd cmd m k r m' k' H Hr ty. apply drv_table_dma_spec in H as [H _]. by apply H.
Qed.

(** ** Memory *)

Lemma drv_alloc_offset ioc size s off s' : drv_alloc ioc size s = (0, off, s') -> off = 0.
Proof.
  unfold drv_alloc, drv_ioctl.
  set (req := match ioc with IPA_IOC_ALLOC_IPV6CT_TABLE => _ | _ => _ end).
  destruct (ipa3_ioctl s req) as [[[r out] s1]|] eqn:Ei; [|by intros [= <- <-]].
  intros [= _ <- _]. destruct out as [|o|]; [done| |done]. exfalso.
  assert (Hf : forall x, finish_alloc 0 x = Some (r, out_offset o, s1) -> False).
  { unfold finish_alloc, efault. intros [[r0 s0]|]; [|done]. cbn. by destruct (r0 =? 0). }
  revert Ei. unfold ipa3_ioctl. subst req.
  destruct ioc; destruct (k_copy_from_user (world s)) as [[] k1]; try done; apply Hf.
Qed.

Lemma roundup_ge x y : 0 < y -> x <= roundup x y /\ roundup x y <= x + (y - 1).
Proof.
  intros Hy. unfold roundup. pose proof (Z.div_mod (x + (y - 1)) y ltac:(lia)).
  pose proof (Z.mod_pos_bound (x + (y - 1)) y ltac:(lia)). lia.
Qed.

Lemma sram_info_spec s r info s' :
  ipa3_nat_get_sram_info s = (r, info, s') ->
  0 <= nat_table_offset_into_mmap info
  /\ nat_table_offset_into_mmap info + sram_mem_available_for_nat info
     <= best_nat_in_sram_size_rqst info.
Proof.
  unfold ipa3_nat_get_sram_info.
  destruct (negb _); intros [= <- <- <-]; [cbn; lia|].
  cbn [nat_table_offset_into_mmap sram_mem_available_for_nat best_nat_in_sram_size_rqst].
  set (a := u64 _). pose proof cfg_page as Hp. pose proof cfg_sram as Hs.
  assert (Ho := land_range_size a (PAGE_SIZE - 1)). specialize (Ho ltac:(lia)).
  change (2 ^ 16) with 65536 in Hp. change (2 ^ 31) with 2147483648 in Hs.
  rewrite (u32_small (Z.land a (PAGE_SIZE - 1))) by lia.
  rewrite (u32_small (Z.land a (PAGE_SIZE - 1) + nat_tbl_size)) by lia.
  assert (Hr := roundup_ge (Z.land a (PAGE_SIZE - 1) + nat_tbl_size) PAGE_SIZE).
  specialize (Hr ltac:(lia)).
  rewrite u32_small by lia. lia.
Qed.

Lemma kernel_mem_laws :
  (forall size fd (k : K) a k', env_mmap size fd k = (a, k') -> a = -1 \/ 0 < a) ->
  IpaMemLaws (kst K).
Proof.
  intros Hmap. split; cbn.
  - intros size fd s a s'. unfold drv_mmap. destruct (v_fd_device fd (world s)) as [d|].
    + destruct (ipa3_nat_ipv6ct_mmap s d _) as [[r s1]|]; [|by intros [= <- _]; left].
      destruct (r =? 0); [|by intros [= <- _]; left].
      unfold lift. destruct (env_mmap size fd (world s1)) as [a' k'] eqn:Em.
      intros [= <- _]. by eapply Hmap.
    + intros [= <- _]. by left.
  - intros fd ioc size s off s'. apply drv_alloc_offset.
  - intros fd s info s'. unfold drv_ioctl, ipa3_ioctl, proc_sram_info_rqst, efault.
    destruct (ipa3_nat_get_sram_info s) as [[r i] s1] eqn:Ei.
    pose proof (sram_info_spec _ _ _ _ Ei) as Hi.
    destruct (r =? 0); cbn [negb]; [|by intros [=]].
    destruct (k_copy_to_user (world s1)) as [[] k1]; [by intros [=]|]. by intros [= <- _].
Qed.
End Laws.
