(* ===== verification/KInv.v ===== *)
(** * The invariant of the kernel's NAT driver

    [driver_ok]: the driver owns what it points to, a mapped location has
    memory, and the tables the hardware was given last lie in a buffer that is
    still allocated (or in the SRAM set aside for them). *)
From S2P Require Import Prelude Bitfield Table Env RecordUpdate KernelEnv Hal HalCmd KernelLaws.
From S2P Require Import KNat KNatOps KSend KUser.

(** ** Ownership of DMA buffers *)

(** The buffers of the list (handle and size) are allocated and distinct. *)
Definition own (dma : gmap Z Z) (l : list (Z * Z)) : Prop :=
  NoDup l.*1 /\ Forall (fun hn => dma !! hn.1 = Some hn.2) l.

Lemma own_perm dma l l' : l ≡ₚ l' -> own dma l -> own dma l'.
Proof. unfold own. intros H [H1 H2]. by rewrite <- H. Qed.

Lemma own_sublist dma l l' : sublist l' l -> own dma l -> own dma l'.
Proof.
  intros H [H1 H2]. split.
  - eapply sublist_NoDup; [exact H1|]. by apply fmap_sublist.
  - rewrite Forall_forall in *. intros x Hx. apply H2. by eapply elem_of_sublist.
Qed.

Lemma own_alloc dma l h n :
  own dma l -> dma !! h = None -> own (<[h := n]> dma) ((h, n) :: l).
Proof.
  intros [H1 H2] Hh.
  assert (Hne : Forall (fun hn => hn.1 <> h) l).
  { eapply Forall_impl; [exact H2|]. intros [h' n'] Hd <-. cbn in *. congruence. }
  split.
  - cbn. constructor; [|done]. rewrite list_elem_of_fmap. intros (x & -> & Hx).
    rewrite Forall_forall in Hne. by apply (Hne x).
  - constructor; [cbn; by rewrite lookup_insert_eq|].
    rewrite Forall_forall in *. intros x Hx. cbn. rewrite lookup_insert_ne; [by apply H2|].
    intros ->. by apply (Hne x Hx).
Qed.

Lemma own_free dma l h n : own dma ((h, n) :: l) -> own (delete h dma) l.
Proof.
  intros [H1 H2]. cbn in H1. apply NoDup_cons in H1 as [H1 H3]. apply Forall_cons in H2 as [_ H2].
  split; [done|]. rewrite Forall_forall in *. intros x Hx. rewrite lookup_delete_ne; [by apply H2|].
  intros ->. apply H1. apply list_elem_of_fmap. eauto.
Qed.

Lemma own_live dma l h n : own dma l -> (h, n) ∈ l -> dma !! h = Some n.
Proof. intros [_ H]. rewrite Forall_forall in H. intros Hl. apply (H _ Hl). Qed.

(** ** What the hardware was given *)

(** Address and length of the four tables of a NAT initialisation, as the
    hardware reads them: a base table has one record more than the field says. *)
Definition nat_table_ranges (d : Z) : list (Z * Z) :=
  let b := getf ni_size_base_tables d + 1 in
  let e := getf ni_size_expansion_tables d in
  [(getf ni_ipv4_rules_addr d, b * 32); (getf ni_ipv4_expansion_rules_addr d, e * 32);
   (getf ni_index_table_addr d, b * 4); (getf ni_index_table_expansion_addr d, e * 4)].

Definition nat_table_types (d : Z) : list Z :=
  [getf ni_ipv4_rules_addr_type d; getf ni_ipv4_expansion_rules_addr_type d;
   getf ni_index_table_addr_type d; getf ni_index_table_expansion_addr_type d].

Definition ranges_in (l : list (Z * Z)) (lo n : Z) : Prop :=
  Forall (fun r => lo <= r.1 /\ r.1 + r.2 <= lo + n) l.

Definition nat_in_sram {c : ipa3_config} (d : Z) : Prop :=
  Forall (eq 1) (nat_table_types d) /\ ranges_in (nat_table_ranges d) nat_tbl_ofst nat_tbl_size.

Definition nat_in_buffer (d h n : Z) : Prop :=
  Forall (eq 0) (nat_table_types d) /\ ranges_in (nat_table_ranges d) h n.

#[export] Instance ranges_in_dec l lo n : Decision (ranges_in l lo n).
Proof. unfold ranges_in. apply _. Defined.
#[export] Instance nat_in_sram_dec {c : ipa3_config} d : Decision (nat_in_sram d).
Proof. unfold nat_in_sram. apply _. Defined.
#[export] Instance nat_in_buffer_dec d h n : Decision (nat_in_buffer d h n).
Proof. unfold nat_in_buffer. apply _. Defined.

(** The NAT tables of the hardware lie in the SRAM set aside for them or in
    one allocated DMA buffer. *)
Definition nat_hw_safe {c : ipa3_config} {K} {G : KernelGhost K} (k : K) : Prop :=
  match k_nat_hw k with
  | None => True
  | Some d => nat_in_sram d \/ exists h n, k_dma k !! h = Some n /\ nat_in_buffer d h n
  end.

Lemma nat_hw_safe_unfold {c : ipa3_config} {K} {G : KernelGhost K} (k : K) :
  nat_hw_safe k <-> match k_nat_hw k with
    | None => True
    | Some d => nat_in_sram d \/ ~ map_Forall (fun h n => ~ nat_in_buffer d h n) (k_dma k)
    end.
Proof.
  unfold nat_hw_safe. destruct (k_nat_hw k) as [d|]; [|done]. split.
  - intros [?|(h & n & Hh & Hn)]; [by left|]. right. intros Ha. by apply (Ha h n Hh).
  - intros [?|H]; [by left|]. right.
    apply map_not_Forall in H as (h & n & Hh & Hn); [|apply _]. exists h, n.
    split; [done|]. by apply dec_stable.
Qed.

#[export] Instance nat_hw_safe_dec {c : ipa3_config} {K} {G : KernelGhost K} (k : K) :
  Decision (nat_hw_safe k).
Proof.
  assert (D : Decision (match k_nat_hw k with
    | None => True
    | Some d => nat_in_sram d \/ ~ map_Forall (fun h n => ~ nat_in_buffer d h n) (k_dma k)
    end)) by (destruct (k_nat_hw k); apply _).
  destruct D as [H|H]; [left; by apply nat_hw_safe_unfold|right; by intros ?%nat_hw_safe_unfold].
Defined.

(** ** The driver's state, abstractly *)

(** The buffers and mappings the driver keeps track of. *)
Record dview := mk_dview {
  dv_tmp : Z;
  dv_hw_init : bool;
  dv_ddr : option (Z * Z);
  dv_ddr_in_use : bool;
  dv_ddr_mapped : bool;
  dv_sram : option Z;
  dv_sram_in_use : bool;
  dv_sram_mapped : bool;
  dv_last : Z;
  dv_pdn : option (Z * Z * Z);
  dv_ct : option (Z * Z)
}.
#[export] Instance eta_dview : EtaFields dview := fun v =>
  mk_dview (dv_tmp v) (dv_hw_init v) (dv_ddr v) (dv_ddr_in_use v) (dv_ddr_mapped v)
    (dv_sram v) (dv_sram_in_use v) (dv_sram_mapped v) (dv_last v) (dv_pdn v) (dv_ct v).

(** What is behind a pointer that may be null. *)
Definition behind {A} (va : Z) (x : A) : option A := if va =? NULL then None else Some x.

Lemma behind_Some {A} va (x : A) : va <> NULL -> behind va x = Some x.
Proof. intros H. unfold behind. by rewrite (proj2 (Z.eqb_neq _ _) H). Qed.

Section View.
Context {K : Type}.
Implicit Types (s : kst K).

Definition loc s (nmi : Z) : ipa3_nat_mem_loc_data :=
  default mem_loc_zero (nm_mem_loc (nm s)).[nmi].
Definition ddr s := loc s IPA_NAT_MEM_IN_DDR.
Definition sram s := loc s IPA_NAT_MEM_IN_SRAM.

Definition view_ddr (m : ipa3_nat_mem_loc_data) : option (Z * Z) :=
  behind (ml_vaddr m) (ml_dma_handle m, ml_table_alloc_size m).
Definition view_sram (m : ipa3_nat_mem_loc_data) : option Z :=
  behind (ml_vaddr m) (ml_table_alloc_size m).
Definition view_pdn (p : ipa_mem_buffer) : option (Z * Z * Z) :=
  behind (mb_base p) (mb_phys_base p, mb_size p, lengthZ (mb_entries p)).
Definition view_ct (d : ipa3_nat_ipv6ct_common_mem) : option (Z * Z) :=
  behind (cm_vaddr d) (cm_dma_handle d, cm_table_alloc_size d).
Definition view_tmp (d : ipa3_nat_ipv6ct_common_mem) : Z :=
  match cm_tmp_mem d with Some t => tmp_dma_handle t | None => -1 end.

Definition view_of s : dview :=
  mk_dview (view_tmp (nm_dev (nm s))) (cm_is_hw_init (nm_dev (nm s)))
    (view_ddr (ddr s)) (nm_ddr_in_use (nm s)) (ml_is_mapped (ddr s))
    (view_sram (sram s)) (nm_sram_in_use (nm s)) (ml_is_mapped (sram s))
    (nm_last_alloc_loc (nm s)) (view_pdn (nm_pdn_mem (nm s))) (view_ct (ipv6ct_mem (ctx s))).

Lemma loc_lookup s nmi : lengthZ (nm_mem_loc (nm s)) = 2 -> nmi = 0 \/ nmi = 1 ->
  (nm_mem_loc (nm s)).[nmi] = Some (loc s nmi).
Proof.
  intros Hl Hn. unfold loc. destruct (lookupZ_in_range (nm_mem_loc (nm s)) nmi) as [m ->]; [|done].
  lia.
Qed.

Lemma loc_with_loc s nmi nmi' m : lengthZ (nm_mem_loc (nm s)) = 2 -> nmi = 0 \/ nmi = 1 ->
  loc (with_loc s nmi m) nmi' = if decide (nmi = nmi') then m else loc s nmi'.
Proof.
  intros Hl Hn. unfold loc, with_loc, with_nm, nm in *. cbn. rewrite lookupZ_updateZ by lia.
  by case_decide.
Qed.

Lemma view_with_ddr s m : lengthZ (nm_mem_loc (nm s)) = 2 ->
  view_of (with_loc s IPA_NAT_MEM_IN_DDR m)
  = view_of s <| dv_ddr := view_ddr m |> <| dv_ddr_mapped := ml_is_mapped m |>.
Proof.
  intros Hl. unfold view_of, ddr, sram. rewrite !loc_with_loc by auto. done.
Qed.

Lemma view_with_sram s m : lengthZ (nm_mem_loc (nm s)) = 2 ->
  view_of (with_loc s IPA_NAT_MEM_IN_SRAM m)
  = view_of s <| dv_sram := view_sram m |> <| dv_sram_mapped := ml_is_mapped m |>.
Proof.
  intros Hl. unfold view_of, ddr, sram. rewrite !loc_with_loc by auto. done.
Qed.
End View.

(** ** The invariant *)

Section Invariant.
Context {c : ipa3_config}.

Definition view_owned (v : dview) : list (Z * Z) :=
  (dv_tmp v, IPA_NAT_IPV6CT_TEMP_MEM_SIZE)
  :: option_list (dv_ddr v) ++ option_list (fst <$> dv_pdn v) ++ option_list (dv_ct v).

(** What the NAT block of the hardware points to: the SRAM, the temporary
    memory, or the DDR buffer of a driver that knows it initialised it. *)
Definition view_hw_ok (v : dview) (d : Z) : Prop :=
  nat_in_sram d \/ nat_in_buffer d (dv_tmp v) IPA_NAT_IPV6CT_TEMP_MEM_SIZE
  \/ (exists h n, dv_ddr v = Some (h, n) /\ nat_in_buffer d h n /\ dv_hw_init v = true).

Record view_ok (v : dview) (dma : gmap Z Z) (hw : option Z) : Prop := {
  vo_tmp : 0 <= dv_tmp v < 2 ^ 32;
  vo_own : own dma (view_owned v);
  vo_fit : forall h n, dv_ddr v = Some (h, n) -> 0 <= h /\ h + n < 2 ^ 64;
  vo_ddr : is_Some (dv_ddr v) -> dv_ddr_in_use v = true;
  vo_ddr_map : dv_ddr_mapped v = true -> is_Some (dv_ddr v);
  vo_sram : forall n, dv_sram v = Some n -> dv_sram_in_use v = true /\ n <= nat_tbl_size;
  vo_sram_map : dv_sram_mapped v = true -> is_Some (dv_sram v);
  vo_last : dv_last v = IPA_NAT_MEM_IN_DDR \/ dv_last v = IPA_NAT_MEM_IN_SRAM;
  vo_pdn : forall h n len, dv_pdn v = Some (h, n, len) -> len = pdn_config_size / 16;
  vo_hw : forall d, hw = Some d -> view_hw_ok v d
}.

Context {K : Type} {G : KernelGhost K}.
Implicit Types (s : kst K).

(** What device initialisation sets and nothing changes. *)
Record flags_ok s : Prop := {
  fl_locs : lengthZ (nm_mem_loc (nm s)) = 2;
  fl_nat : cm_is_dev_init (nm_dev (nm s)) = true /\ cm_is_nat_mem (nm_dev (nm s)) = true
           /\ cm_is_ipv6ct_mem (nm_dev (nm s)) = false
           /\ cm_phys_mem_size (nm_dev (nm s)) = nat_tbl_size
           /\ is_Some (cm_tmp_mem (nm_dev (nm s)));
  fl_ct : cm_is_nat_mem (ipv6ct_mem (ctx s)) = false
          /\ cm_is_dev_init (ipv6ct_mem (ctx s)) = (IPA_HW_v4_0 <=? ipa_hw_type)
          /\ cm_is_ipv6ct_mem (ipv6ct_mem (ctx s)) = (IPA_HW_v4_0 <=? ipa_hw_type)
}.

Definition driver_ok s : Prop :=
  flags_ok s /\ view_ok (view_of s) (k_dma (world s)) (k_nat_hw (world s)).

Lemma driver_ok_safe s : driver_ok s -> nat_hw_safe (world s).
Proof.
  intros [_ H]. unfold nat_hw_safe. destruct (k_nat_hw (world s)) as [d|] eqn:Ed; [|done].
  pose proof (vo_own _ _ _ H) as Ho. unfold view_owned in Ho.
  destruct (vo_hw _ _ _ H _ eq_refl) as [Hs|[Hb|(h & n & Hd & Hb & _)]]; [by left| |]; right.
  - eexists _, _. split; [|exact Hb]. eapply own_live; [exact Ho|]. set_solver.
  - exists h, n. split; [|exact Hb]. eapply own_live; [exact Ho|]. rewrite Hd. set_solver.
Qed.

(** The state of the driver and of the world, as far as the invariant sees
    them, did not change. *)
Lemma driver_ok_same s s' :
  ctx s' = ctx s -> same_ghost (world s) (world s') -> driver_ok s -> driver_ok s'.
Proof.
  intros Hc (G1 & G2 & _) [[] H2].
  assert (Hn : nm s' = nm s) by (unfold nm; by rewrite Hc).
  split; [split; by rewrite ?Hn, ?Hc|].
  assert (Hv : view_of s' = view_of s).
  { unfold view_of, ddr, sram, loc. by rewrite Hn, Hc. }
  by rewrite Hv, G1, G2.
Qed.

Lemma quiet_driver_ok s s' : quiet s s' -> driver_ok s -> driver_ok s'.
Proof. intros (H1 & _ & H3). by apply driver_ok_same. Qed.

(** A call that is answered and keeps the invariant. *)
Definition answers (f : option (Z * kst K)) : Prop :=
  exists r s', f = Some (r, s') /\ driver_ok s'.

Lemma answers_now r s : driver_ok s -> answers (Some (r, s)).
Proof. intros H. by exists r, s. Qed.

Lemma answers_same r s s' :
  ctx s' = ctx s -> same_ghost (world s) (world s') -> driver_ok s -> answers (Some (r, s')).
Proof. intros H1 H2 H3. apply answers_now. by eapply driver_ok_same. Qed.
End Invariant.
