(* ===== verification/KAlloc.v ===== *)
(** * Allocating and mapping memory keeps the driver's invariant *)
From S2P Require Import Prelude Bitfield Table Env RecordUpdate KernelEnv Hal HalCmd KernelLaws.
From S2P Require Import KNat KNatOps KSend KUser KInv.

Section Alloc.
Context {c : ipa3_config} {K : Type} {E : KernelEnv K} {G : KernelGhost K}.
Context {laws : KernelLaws K} {ok : ConfigOk}.
Implicit Types (s : kst K) (v : dview).

(** Compute the world of the state in the goal. *)
Ltac world_is k := match goal with |- context [world ?s'] => change (world s') with k end.

(** Changes of a view that the invariant allows. *)

Lemma view_ok_ddr_none v dma hw :
  view_ok v dma hw -> dv_ddr v = None -> forall b,
  view_ok (v <| dv_ddr := None |> <| dv_ddr_in_use := b |>) dma hw.
Proof.
  intros [] Hn b. split; cbn; try done.
  - unfold view_owned in *. cbn. by rewrite Hn in vo_own.
  - by rewrite <- Hn.
  - intros d Hd. destruct (vo_hw d Hd) as [?|[?|(h & n & Hh & _)]]; [by left|by right; left|].
    congruence.
Qed.

(** Memory the hardware does not know about. *)
Definition hw_off_ddr v (hw : option Z) : Prop := forall d, hw = Some d ->
  nat_in_sram d \/ nat_in_buffer d (dv_tmp v) IPA_NAT_IPV6CT_TEMP_MEM_SIZE.

Lemma no_ddr_hw_off v dma hw : view_ok v dma hw -> dv_ddr v = None -> hw_off_ddr v hw.
Proof.
  intros [] Hn d Hd. destruct (vo_hw d Hd) as [?|[?|(h & n & Hh & _)]]; [by left|by right|].
  congruence.
Qed.

Lemma view_ok_ddr_new v dma hw h n :
  view_ok v dma hw -> dv_ddr v = None -> dma !! h = None -> 0 <= h -> h + n < 2 ^ 64 ->
  view_ok (v <| dv_ddr := Some (h, n) |> <| dv_ddr_in_use := true |>
             <| dv_last := IPA_NAT_MEM_IN_DDR |>) (<[h := n]> dma) hw.
Proof.
  intros Hv Hn Hh H0 Hfit. pose proof (no_ddr_hw_off _ _ _ Hv Hn) as Hoff. destruct Hv.
  split; cbn; try done.
  - eapply own_perm; [|by apply (own_alloc _ _ h n vo_own)]. unfold view_owned. rewrite Hn. cbn.
    apply perm_swap.
  - by intros h' n' [= <- <-].
  - by left.
  - intros d Hd. destruct (Hoff d Hd); [by left|by right; left].
Qed.

Lemma view_ok_sram_new v dma hw n : view_ok v dma hw -> n <= nat_tbl_size ->
  view_ok (v <| dv_sram := Some n |> <| dv_sram_in_use := true |>
             <| dv_last := IPA_NAT_MEM_IN_SRAM |>) dma hw.
Proof.
  intros [] Hn. split; cbn; try done.
  - by intros n' [= <-].
  - by right.
Qed.

Lemma view_ok_pdn_new v dma hw h n len :
  view_ok v dma hw -> dv_pdn v = None -> dma !! h = None -> len = pdn_config_size / 16 ->
  view_ok (v <| dv_pdn := Some (h, n, len) |>) (<[h := n]> dma) hw.
Proof.
  intros [] Hn Hh Hlen. split; cbn; try done.
  - eapply own_perm; [|by apply (own_alloc _ _ h n vo_own)]. unfold view_owned. rewrite Hn. cbn.
    destruct (dv_ddr v); cbn; [|apply perm_swap].
    etrans; [apply perm_swap|]. constructor. apply perm_swap.
  - by intros h' n' len' [= <- <- <-].
Qed.

Lemma view_ok_ct v dma hw : view_ok v dma hw -> view_ok (v <| dv_ct := None |>) dma hw.
Proof.
  intros []. split; cbn; try done. eapply own_sublist; [|exact vo_own].
  unfold view_owned. cbn. apply sublist_skip. apply sublist_app; [done|].
  apply sublist_app; [done|]. apply sublist_nil_l.
Qed.

Lemma view_ok_ct_new v dma hw h n : view_ok v dma hw -> dma !! h = None ->
  view_ok (v <| dv_ct := Some (h, n) |>) (<[h := n]> dma) hw.
Proof.
  intros Hv Hh. apply view_ok_ct in Hv as []. split; cbn; try done.
  eapply own_perm; [|by apply (own_alloc _ _ h n vo_own)]. unfold view_owned. cbn.
  rewrite app_nil_r, app_assoc. apply Permutation_cons_append.
Qed.

Lemma view_ok_ddr_gone v dma hw h n :
  view_ok v dma hw -> dv_ddr v = Some (h, n) -> dv_ddr_mapped v = false -> hw_off_ddr v hw ->
  view_ok (v <| dv_ddr := None |>) (delete h dma) hw.
Proof.
  intros [] Hd Hm Hoff. split; cbn; try done.
  - apply (own_free _ _ h n). eapply own_perm; [|exact vo_own]. unfold view_owned. rewrite Hd.
    cbn. apply perm_swap.
  - congruence.
  - intros d Hdd. destruct (Hoff d Hdd); [by left|by right; left].
Qed.

Lemma view_ok_sram_gone v dma hw : view_ok v dma hw -> dv_sram_mapped v = false ->
  view_ok (v <| dv_sram := None |>) dma hw.
Proof. intros [] Hm. split; cbn; try done. congruence. Qed.

(** ** The driver's functions *)

Lemma flags_ok_by s s' :
  flags_ok s -> lengthZ (nm_mem_loc (nm s')) = lengthZ (nm_mem_loc (nm s)) ->
  nm_dev (nm s') = nm_dev (nm s) -> ipv6ct_mem (ctx s') = ipv6ct_mem (ctx s) -> flags_ok s'.
Proof. intros [] H1 H2 H3. split; by rewrite ?H1, ?H2, ?H3. Qed.

Lemma flags_with_loc s nmi m : flags_ok s -> flags_ok (with_loc s nmi m).
Proof. intros H. eapply flags_ok_by; [exact H|apply lengthZ_updateZ|done|done]. Qed.

Lemma flags_with_world s k : flags_ok s -> flags_ok (s <| world := k |>).
Proof. intros H. by eapply flags_ok_by. Qed.

Lemma view_ddr_none s : driver_ok s -> nm_ddr_in_use (nm s) = false -> view_ddr (ddr s) = None.
Proof.
  intros [_ H] Hu. pose proof (vo_ddr _ _ _ H) as Hd. cbn in Hd.
  destruct (view_ddr (ddr s)); [|done]. rewrite Hd in Hu; [done|eauto].
Qed.

Lemma ddr_unmapped s : driver_ok s -> nm_ddr_in_use (nm s) = false -> ml_is_mapped (ddr s) = false.
Proof.
  intros H Hu. pose proof (view_ddr_none s H Hu) as Hn. destruct H as [_ H].
  pose proof (vo_ddr_map _ _ _ H) as Hd. cbn in Hd. rewrite Hn in Hd.
  destruct (ml_is_mapped (ddr s)); [|done]. by destruct Hd.
Qed.

Lemma view_sram_none s : driver_ok s -> nm_sram_in_use (nm s) = false -> view_sram (sram s) = None.
Proof.
  intros [_ H] Hu. pose proof (vo_sram _ _ _ H) as Hd. cbn in Hd.
  destruct (view_sram (sram s)); [|done]. destruct (Hd _ eq_refl). congruence.
Qed.

Lemma sram_unmapped s : driver_ok s -> nm_sram_in_use (nm s) = false -> ml_is_mapped (sram s) = false.
Proof.
  intros H Hu. pose proof (view_sram_none s H Hu) as Hn. destruct H as [_ H].
  pose proof (vo_sram_map _ _ _ H) as Hd. cbn in Hd. rewrite Hn in Hd.
  destruct (ml_is_mapped (sram s)); [|done]. by destruct Hd.
Qed.

(** The location allocated last is not mapped and not known to the hardware. *)
Definition fresh_alloc s : Prop :=
  (nm_last_alloc_loc (nm s) = IPA_NAT_MEM_IN_DDR -> ml_is_mapped (ddr s) = false
     /\ hw_off_ddr (view_of s) (k_nat_hw (world s)))
  /\ (nm_last_alloc_loc (nm s) = IPA_NAT_MEM_IN_SRAM -> ml_is_mapped (sram s) = false).

(** Answered, with the invariant and, on success, fresh memory. *)
Definition allocates (f : option (Z * kst K)) : Prop :=
  exists r s', f = Some (r, s') /\ driver_ok s' /\ (r = 0 -> fresh_alloc s').

Lemma allocates_fails r s : driver_ok s -> r <> 0 -> allocates (Some (r, s)).
Proof. intros H Hr. by exists r, s. Qed.

Lemma alloc_sram_ok s size : driver_ok s -> size <= nat_tbl_size ->
  allocates (alloc_nat_in_sram s size).
Proof.
  intros Hok Hsize. unfold alloc_nat_in_sram.
  destruct (nm_sram_in_use (nm s)) eqn:Eu; [by apply allocates_fails|].
  pose proof (view_sram_none s Hok Eu) as Hnone. pose proof (sram_unmapped s Hok Eu) as Hmap.
  destruct Hok as [Hf Hv]. pose proof (fl_locs _ Hf) as Hl.
  rewrite (loc_lookup s IPA_NAT_MEM_IN_SRAM) by auto. cbn [mbind option_bind]. fold (sram s).
  pose proof (ioremap_ghost sram_phys_addr IPA_NAT_PHYS_MEM_SIZE (world s)) as (G1 & G2 & _).
  destruct (k_ioremap _ _ (world s)) as [va k]. cbn in G1, G2. set (s1 := s <| world := k |>).
  destruct (Z.eqb_spec va NULL) as [->|Hva].
  - apply allocates_fails; [|done]. split; [by apply flags_with_loc, flags_with_world|].
    rewrite view_with_sram by done. cbn [world]. change (view_of s1) with (view_of s).
    change (world (with_loc _ _ _)) with k. rewrite G1, G2.
    replace (_ <| dv_sram_mapped := _ |>) with (view_of s); [done|].
    revert Hnone. unfold view_of, view_sram, behind. cbn. by destruct (ml_vaddr (sram s) =? NULL).
  - eexists 0, _. split; [done|].
    set (s2 := with_loc s1 _ _). set (s3 := with_nm s2 _).
    assert (Hs2 : view_of s2 = view_of s <| dv_sram := Some size |>).
    { unfold s2. rewrite view_with_sram by done. unfold view_sram. cbn [ml_vaddr].
      rewrite (behind_Some va) by done. done. }
    assert (Hs3 : view_of s3 = view_of s <| dv_sram := Some size |> <| dv_sram_in_use := true |>
                                         <| dv_last := IPA_NAT_MEM_IN_SRAM |>).
    { change (view_of s3) with (view_of s2 <| dv_sram_in_use := true |>
                                         <| dv_last := IPA_NAT_MEM_IN_SRAM |>). by rewrite Hs2. }
    split; [split|].
    + eapply flags_ok_by; [by apply (flags_with_loc s1), flags_with_world|done..].
    + rewrite Hs3. change (world s3) with k. rewrite G1, G2. by apply view_ok_sram_new.
    + intros _. split; [done|]. intros _.
      change (dv_sram_mapped (view_of s3) = false). rewrite Hs3. exact Hmap.
Qed.

Lemma alloc_ddr_ok s size : driver_ok s -> allocates (alloc_nat_in_ddr s size).
Proof.
  intros Hok. unfold alloc_nat_in_ddr.
  destruct (nm_ddr_in_use (nm s)) eqn:Eu; [by apply allocates_fails|].
  pose proof (view_ddr_none s Hok Eu) as Hnone. pose proof (ddr_unmapped s Hok Eu) as Hmap.
  destruct Hok as [Hf Hv]. pose proof (fl_locs _ Hf) as Hl.
  rewrite (loc_lookup s IPA_NAT_MEM_IN_DDR) by auto. cbn [mbind option_bind]. fold (ddr s).
  destruct (k_dma_alloc_coherent size (world s)) as [[[va h]|] k] eqn:Ea.
  - destruct (dma_alloc_fresh _ _ _ _ _ Ea) as (Hva & H0 & Hfit & Hh & G1 & G2 & _).
    eexists 0, _. split; [done|]. set (s1 := s <| world := k |>).
    set (s2 := with_loc s1 _ _). set (s3 := with_nm s2 _).
    assert (Hs3 : view_of s3 = view_of s <| dv_ddr := Some (h, size) |>
      <| dv_ddr_in_use := true |> <| dv_last := IPA_NAT_MEM_IN_DDR |>).
    { change (view_of s3) with (view_of s2 <| dv_ddr_in_use := true |>
                                           <| dv_last := IPA_NAT_MEM_IN_DDR |>).
      unfold s2. rewrite view_with_ddr by done. unfold view_ddr. cbn [ml_vaddr].
      rewrite (behind_Some va) by done. done. }
    split; [split|].
    + eapply flags_ok_by; [by apply (flags_with_loc s1), flags_with_world|done..].
    + rewrite Hs3. change (world s3) with k. rewrite G1, G2. by apply view_ok_ddr_new.
    + intros _. split; [|done]. intros _. split.
      * change (dv_ddr_mapped (view_of s3) = false). rewrite Hs3. exact Hmap.
      * change (world s3) with k. rewrite Hs3, G2. exact (no_ddr_hw_off _ _ _ Hv Hnone).
  - apply dma_alloc_fails in Ea as (G1 & G2 & _).
    apply allocates_fails; [|done]. split; [by apply flags_with_loc, flags_with_world|].
    rewrite view_with_ddr by done. change (world (with_loc _ _ _)) with k. rewrite G1, G2.
    replace (_ <| dv_ddr_mapped := _ |>) with (view_of s); [done|].
    revert Hnone. unfold view_of. cbn. by intros ->.
Qed.

Lemma alloc_ct_ok s size : driver_ok s ->
  driver_ok (alloc_ipv6ct_in_ddr s DEV_IPV6CT size).2.
Proof.
  intros [Hf Hv]. unfold alloc_ipv6ct_in_ddr. cbn [world with_device].
  change (world (s <| ctx := _ |>)) with (world s).
  destruct (k_dma_alloc_coherent size (world s)) as [[[va h]|] k] eqn:Ea; cbn [snd].
  - destruct (dma_alloc_fresh _ _ _ _ _ Ea) as (Hva & H0 & Hfit & Hh & G1 & G2 & _).
    split; [destruct Hf; by split|]. world_is k. rewrite G1, G2.
    match goal with |- view_ok (view_of ?s') _ _ =>
      replace (view_of s') with (view_of s <| dv_ct := Some (h, size) |>) end.
    + by apply view_ok_ct_new.
    + unfold view_of. cbn. unfold view_ct. cbn. rewrite (behind_Some va) by done. done.
  - apply dma_alloc_fails in Ea as (G1 & G2 & _).
    split; [destruct Hf; by split|]. world_is k. rewrite G1, G2.
    exact (view_ok_ct (view_of s) _ _ Hv).
Qed.

Lemma max_pdn_spec : IPA_HW_v4_0 <= ipa_hw_type -> ipa3_get_max_pdn = Some (pdn_config_size / 16).
Proof.
  intros H4. unfold ipa3_get_max_pdn. by rewrite (proj1 (entry_size_v4 _ cfg_supported H4)).
Qed.

Lemma alloc_pdn_ok s : IPA_HW_v4_0 <= ipa_hw_type -> mb_base (nm_pdn_mem (nm s)) = NULL ->
  driver_ok s -> fresh_alloc s ->
  exists r s', alloc_pdn_mem s = Some (r, s') /\ driver_ok s' /\ fresh_alloc s'.
Proof.
  intros H4 Hb [Hf Hv] Hfresh. unfold alloc_pdn_mem.
  rewrite (proj1 (entry_size_v4 _ cfg_supported H4)), (max_pdn_spec H4). cbn [mbind option_bind].
  set (size := 16 * (pdn_config_size / 16)). set (s1 := with_nm s _).
  assert (Hs1 : view_of s1 = view_of s).
  { unfold view_of. cbn. unfold view_pdn. cbn. by rewrite Hb. }
  assert (Hok1 : driver_ok s1).
  { split; [destruct Hf; by split|]. by rewrite Hs1. }
  assert (Hfresh1 : fresh_alloc s1).
  { destruct Hfresh as [F1 F2]. split; [|exact F2]. intros Hl. rewrite Hs1. by apply F1. }
  destruct (pdn_config_size <? size); [by exists (- ENOMEM), s1|].
  change (world s1) with (world s).
  destruct (k_dma_alloc_coherent size (world s)) as [[[va h]|] k] eqn:Ea.
  - destruct (dma_alloc_fresh _ _ _ _ _ Ea) as (Hva & H0 & Hfit & Hh & G1 & G2 & _).
    eexists 0, _. split; [done|]. set (s3 := with_nm _ _).
    assert (Hs3 : view_of s3
      = view_of s <| dv_pdn := Some (h, size, pdn_config_size / 16) |>).
    { rewrite <- Hs1. unfold view_of. cbn. unfold view_pdn. cbn. rewrite (behind_Some va) by done.
      unfold lengthZ. rewrite length_replicate. rewrite Z2Nat.id; [done|].
      pose proof cfg_pdn. apply Z.div_pos; lia. }
    split; [split; [destruct Hf; by split|]|].
    + rewrite Hs3. change (world s3) with k. rewrite G1, G2. apply view_ok_pdn_new; try done.
      cbn. unfold view_pdn, behind. by rewrite Hb.
    + destruct Hfresh as [F1 F2]. split; [|exact F2]. intros Hl. specialize (F1 Hl) as [F3 F4].
      split; [exact F3|]. rewrite Hs3. change (world s3) with k. by rewrite G2.
  - apply dma_alloc_fails in Ea as (G1 & G2 & G3). eexists _, _. split; [done|]. split.
    + by apply (driver_ok_same s1).
    + destruct Hfresh1 as [F1 F2]. split; [|exact F2]. intros Hl. specialize (F1 Hl) as [F3 F4].
      split; [exact F3|]. world_is k. change (view_of (s1 <| world := k |>)) with (view_of s1).
      by rewrite G2.
Qed.

Lemma fail_pdn_ok s : driver_ok s -> fresh_alloc s ->
  exists s', fail_alloc_pdn s = Some s' /\ driver_ok s'.
Proof.
  intros Hok [F1 F2]. pose proof Hok as [Hf Hv]. pose proof (fl_locs _ Hf) as Hl.
  unfold fail_alloc_pdn. pose proof (vo_last _ _ _ Hv) as Hlast. cbn in Hlast.
  rewrite loc_lookup by done. cbn [mbind option_bind]. destruct Hlast as [Hlast|Hlast];
    rewrite Hlast in *; cbn [Z.eqb IPA_NAT_MEM_IN_DDR IPA_NAT_MEM_IN_SRAM Pos.eqb].
  - specialize (F1 eq_refl) as [F1 F3]. fold (ddr s).
    destruct (Z.eqb_spec (ml_vaddr (ddr s)) NULL) as [E0|E0]; [by eauto|].
    eexists. split; [done|]. destruct (dma_free_gone (ml_table_alloc_size (ddr s))
      (ml_vaddr (ddr s)) (ml_dma_handle (ddr s)) (world s)) as (G1 & G2 & _).
    split; [by apply flags_with_loc, flags_with_world|].
    rewrite view_with_ddr by done. cbn [world with_loc with_nm]. 
    change (world (with_loc _ _ _)) with (k_dma_free_coherent (ml_table_alloc_size (ddr s))
      (ml_vaddr (ddr s)) (ml_dma_handle (ddr s)) (world s)). rewrite G1, G2.
    change (view_of (s <| world := _ |>)) with (view_of s).
    eapply (view_ok_ddr_gone (view_of s)); [exact Hv| |exact F1|exact F3].
    cbn. unfold view_ddr. by rewrite (behind_Some (ml_vaddr (ddr s))).
  - specialize (F2 eq_refl). fold (sram s).
    destruct (Z.eqb_spec (ml_io_vaddr (sram s)) NULL) as [E0|E0]; [by eauto|].
    eexists. split; [done|]. pose proof (iounmap_ghost (ml_io_vaddr (sram s)) (world s)) as (G1 & G2 & _).
    split; [by apply flags_with_loc, flags_with_world|].
    rewrite view_with_sram by done.
    change (world (with_loc _ _ _)) with (k_iounmap (ml_io_vaddr (sram s)) (world s)).
    rewrite G1, G2. change (view_of (s <| world := _ |>)) with (view_of s).
    by apply (view_ok_sram_gone (view_of s)).
Qed.

(** ** The handlers *)

Lemma allocate_nat_mem_ok s size : driver_ok s ->
  allocates (ipa3_nat_ipv6ct_allocate_mem s DEV_NAT size IPAHAL_NAT_IPV4).
Proof.
  intros Hok. unfold ipa3_nat_ipv6ct_allocate_mem.
  destruct (size =? 0); [by apply allocates_fails|].
  destruct (negb _); [by apply allocates_fails|].
  destruct (_ || _); [by apply allocates_fails|].
  rewrite (proj1 (entry_size_v3 _ cfg_supported)). cbn [mbind option_bind].
  destruct (_ <? size); [by apply allocates_fails|].
  destruct (sram_compatible (ctx s) && (size <=? IPA_NAT_PHYS_MEM_SIZE)) eqn:Eb.
  - apply andb_true_iff in Eb as [_ Hs%Z.leb_le]. by apply alloc_sram_ok.
  - by apply alloc_ddr_ok.
Qed.

Lemma allocate_nat_table_ok s size : driver_ok s -> answers (ipa3_allocate_nat_table s size).
Proof.
  intros Hok. unfold ipa3_allocate_nat_table.
  destruct (allocate_nat_mem_ok s size Hok) as (r & s1 & -> & Hok1 & Hfresh).
  cbn [mbind option_bind].
  destruct (Z.eqb_spec r 0) as [Hr|Hr]; cbn [negb]; [|by apply answers_now].
  specialize (Hfresh Hr).
  destruct (Z.leb_spec IPA_HW_v4_0 ipa_hw_type) as [H4|H4]; [|by apply answers_now].
  destruct (Z.eqb_spec (mb_base (nm_pdn_mem (nm s1))) NULL) as [Hb|Hb]; [|by apply answers_now].
  destruct (alloc_pdn_ok s1 H4 Hb Hok1 Hfresh) as (r2 & s2 & Ha & Hok2 & Hfresh2).
  cbn [andb]. rewrite Ha. cbn [mbind option_bind]. destruct (r2 =? 0); [by apply answers_now|].
  destruct (fail_pdn_ok s2 Hok2 Hfresh2) as (s3 & -> & Hok3). by apply answers_now.
Qed.

Lemma allocate_ct_table_ok s size : driver_ok s -> answers (ipa3_allocate_ipv6ct_table s size).
Proof.
  intros Hok. unfold ipa3_allocate_ipv6ct_table.
  destruct (Z.ltb_spec ipa_hw_type IPA_HW_v4_0) as [H4|H4]; [by apply answers_now|].
  unfold ipa3_nat_ipv6ct_allocate_mem.
  destruct (size =? 0); [by apply answers_now|].
  destruct (negb _); [by apply answers_now|].
  destruct (_ || _); [by apply answers_now|].
  rewrite (proj2 (entry_size_v4 _ cfg_supported H4)). cbn [mbind option_bind].
  destruct (_ <? size); [by apply answers_now|].
  pose proof (alloc_ct_ok s size Hok) as Ha.
  destruct (alloc_ipv6ct_in_ddr s DEV_IPV6CT size) as [r s']. by apply answers_now.
Qed.

(** ** Mapping *)

Lemma valid_mem_in nmi : IPA_VALID_NAT_MEM_IN nmi = true ->
  nmi = IPA_NAT_MEM_IN_DDR \/ nmi = IPA_NAT_MEM_IN_SRAM.
Proof. unfold IPA_VALID_NAT_MEM_IN, IPA_NAT_MEM_IN_MAX, IPA_NAT_MEM_IN_DDR, IPA_NAT_MEM_IN_SRAM. lia. Qed.

(** The mapping of a location with memory; [ml_base_address] and
    [ml_is_mapped] change. *)
Lemma remap_ok s nmi base b :
  driver_ok s -> nmi = IPA_NAT_MEM_IN_DDR \/ nmi = IPA_NAT_MEM_IN_SRAM ->
  ml_vaddr (loc s nmi) <> NULL ->
  driver_ok (with_loc s nmi (loc s nmi <| ml_base_address := base |> <| ml_is_mapped := b |>)).
Proof.
  intros [Hf Hv] Hn Hva. split; [by apply flags_with_loc|].
  pose proof (fl_locs _ Hf) as Hl. change (world (with_loc s nmi _)) with (world s).
  destruct Hn as [-> | ->]; [rewrite view_with_ddr by done|rewrite view_with_sram by done];
    destruct Hv; split; try done; intros _; cbn.
  - unfold view_ddr. by rewrite behind_Some.
  - unfold view_sram. by rewrite behind_Some.
Qed.

Lemma mmap_nat_ok s vsize : driver_ok s -> answers (mmap_nat s vsize).
Proof.
  intros Hok. unfold mmap_nat. set (nmi := nm_last_alloc_loc (nm s)).
  destruct (IPA_VALID_NAT_MEM_IN nmi) eqn:En; [|by apply answers_now]. apply valid_mem_in in En.
  rewrite loc_lookup by first [done | apply (fl_locs _ (proj1 Hok))]. cbn [mbind option_bind negb].
  destruct (Z.eqb_spec (ml_vaddr (loc s nmi)) NULL) as [?|Hva]; [by apply answers_now|].
  destruct (ml_is_mapped (loc s nmi)) eqn:Em; [by apply answers_now|].
  destruct (_ && _); [by apply answers_now|].
  match goal with |- context [let '(_, _) := ?x in _] => set (r := x) end.
  assert (Hg : same_ghost (world s) r.2).
  { subst r. destruct (nmi =? IPA_NAT_MEM_IN_DDR); [apply dma_mmap_ghost|apply iomap_ghost]. }
  destruct r as [r k]. cbn [snd] in Hg. set (s1 := s <| world := k |>).
  assert (Hok1 : driver_ok s1) by by apply (driver_ok_same s).
  destruct (r =? 0); apply answers_now.
  - exact (remap_ok s1 nmi _ true Hok1 En Hva).
  - exact (remap_ok s1 nmi NULL (ml_is_mapped (loc s nmi)) Hok1 En Hva).
Qed.

(** Changes of the IPv6CT device the invariant does not see. *)
Lemma ct_device_ok s s1 d :
  driver_ok s -> with_device s DEV_IPV6CT d = s1 -> view_ct d = view_ct (ipv6ct_mem (ctx s)) ->
  cm_is_nat_mem d = cm_is_nat_mem (ipv6ct_mem (ctx s)) ->
  cm_is_dev_init d = cm_is_dev_init (ipv6ct_mem (ctx s)) ->
  cm_is_ipv6ct_mem d = cm_is_ipv6ct_mem (ipv6ct_mem (ctx s)) -> driver_ok s1.
Proof.
  intros [[F1 F2 F3] Hv] <- H1 H2 H3 H4. split; [split; try done; cbn; by rewrite H2, H3, H4|].
  replace (view_of (with_device s DEV_IPV6CT d)) with (view_of s); [done|].
  unfold view_of. cbn. by rewrite H1.
Qed.

Lemma mmap_ct_ok s vsize : driver_ok s -> driver_ok (mmap_ipv6ct s vsize).2.
Proof.
  intros Hok. unfold mmap_ipv6ct. cbn [device].
  destruct (_ =? NULL); [done|]. destruct (cm_is_mapped _); [done|].
  match goal with |- context [k_dma_mmap_coherent ?a ?b ?n ?m ?k] =>
    pose proof (dma_mmap_ghost a b n m k) as Hg; destruct (k_dma_mmap_coherent a b n m k) as [r k1]
  end. cbn [snd] in Hg. set (s1 := s <| world := k1 |>).
  assert (Hok1 : driver_ok s1) by by apply (driver_ok_same s).
  by destruct (r =? 0); eapply (ct_device_ok s1).
Qed.

Lemma mmap_ok s d vsize : driver_ok s -> answers (ipa3_nat_ipv6ct_mmap s d vsize).
Proof.
  intros Hok. unfold ipa3_nat_ipv6ct_mmap.
  destruct (negb _); [by apply answers_now|]. destruct Hok as [Hf Hv]. destruct d; cbn [device].
  - destruct (fl_nat _ Hf) as (_ & -> & _). by apply mmap_nat_ok.
  - destruct (fl_ct _ Hf) as (-> & _). pose proof (mmap_ct_ok s vsize (conj Hf Hv)) as Hm.
    destruct (mmap_ipv6ct s vsize) as [r s']. by apply answers_now.
Qed.
End Alloc.
