(* ===== verification/KInit.v ===== *)
(** * Initialising the hardware keeps the driver's invariant

    The checks of an initialisation put its tables inside the memory of the
    location it names, so the hardware is never pointed elsewhere. *)
From S2P Require Import Prelude Bitfield Table Env RecordUpdate KernelEnv Hal HalCmd KernelLaws.
From S2P Require Import KNat KNatOps KSend KUser KInv KAlloc.

(** ** What a payload says *)

Lemma ni_rules_read cmd :
  getf ni_ipv4_rules_addr (nat_init_payload cmd) = base_table_addr (nat4_table_init cmd) mod 2 ^ 64.
Proof. by apply payload_read. Qed.
Lemma ni_expn_rules_read cmd : getf ni_ipv4_expansion_rules_addr (nat_init_payload cmd)
  = expansion_table_addr (nat4_table_init cmd) mod 2 ^ 64.
Proof. by apply payload_read. Qed.
Lemma ni_index_read cmd :
  getf ni_index_table_addr (nat_init_payload cmd) = index_table_addr cmd mod 2 ^ 64.
Proof. by apply payload_read. Qed.
Lemma ni_index_expn_read cmd : getf ni_index_table_expansion_addr (nat_init_payload cmd)
  = index_table_expansion_addr cmd mod 2 ^ 64.
Proof. by apply payload_read. Qed.
Lemma ni_size_read cmd : getf ni_size_base_tables (nat_init_payload cmd)
  = size_base_table (nat4_table_init cmd) mod 2 ^ 12.
Proof. by apply payload_read. Qed.
Lemma ni_expn_size_read cmd : getf ni_size_expansion_tables (nat_init_payload cmd)
  = size_expansion_table (nat4_table_init cmd) mod 2 ^ 10.
Proof. by apply payload_read. Qed.

Lemma ni_types_read cmd :
  nat_table_types (nat_init_payload cmd)
  = [Z.b2z (base_table_addr_shared (nat4_table_init cmd));
     Z.b2z (expansion_table_addr_shared (nat4_table_init cmd));
     Z.b2z (index_table_addr_shared cmd); Z.b2z (index_table_expansion_addr_shared cmd)].
Proof.
  unfold nat_table_types, nat_init_payload. repeat f_equal;
    (erewrite payload_read by reflexivity); apply b2z_mod_2.
Qed.

Lemma u64_small x : 0 <= x < 2 ^ 64 -> u64 x = x.
Proof. apply Z.mod_small. Qed.

(** ** The checks *)

(** The C types of the fields of a request. *)
Definition wf_nat_init (init : ipa_ioc_v4_nat_init) : Prop :=
  Forall (fun x => 0 <= x < 2 ^ 32)
    [v4_ipv4_rules_offset init; v4_expn_rules_offset init; v4_index_offset init;
     v4_index_expn_offset init]
  /\ 0 <= v4_table_entries init < 2 ^ 16 /\ 0 <= v4_expn_table_entries init < 2 ^ 16.

(** The four tables lie in memory of [n] bytes. *)
Definition init_fits (init : ipa_ioc_v4_nat_init) (n : Z) : Prop :=
  v4_ipv4_rules_offset init + 32 * (v4_table_entries init + 1) <= n
  /\ v4_expn_rules_offset init + 32 * v4_expn_table_entries init <= n
  /\ v4_index_offset init + 4 * (v4_table_entries init + 1) <= n
  /\ v4_index_expn_offset init + 4 * v4_expn_table_entries init <= n.

Section Init.
Context {c : ipa3_config} {K : Type} {E : KernelEnv K} {G : KernelGhost K}.
Context {laws : KernelLaws K} {ok : ConfigOk}.
Implicit Types (s : kst K) (init : ipa_ioc_v4_nat_init).

(** Where the table sizes and offsets leave the ranges of the hardware. *)
Lemma init_ranges init shared base n :
  wf_nat_init init -> init_fits init n -> 0 <= base -> base + n < 2 ^ 64 ->
  ranges_in (nat_table_ranges (nat_init_payload (ipa3_nat_create_init_cmd init shared base)))
    base n.
Proof.
  intros (Ho & He & Hx) (F1 & F2 & F3 & F4) H0 Hn.
  repeat (apply Forall_cons in Ho as [? Ho]). clear Ho.
  unfold nat_table_ranges.
  rewrite ni_rules_read, ni_expn_rules_read, ni_index_read, ni_index_expn_read, ni_size_read,
    ni_expn_size_read.
  cbn [ipa3_nat_create_init_cmd ipa3_nat_ipv6ct_create_init_cmd nat4_table_init base_table_addr
    expansion_table_addr index_table_addr index_table_expansion_addr size_base_table
    size_expansion_table].
  pose proof (Z.mod_le (v4_table_entries init) (2 ^ 12) ltac:(lia) ltac:(lia)).
  pose proof (Z.mod_le (v4_expn_table_entries init) (2 ^ 10) ltac:(lia) ltac:(lia)).
  pose proof (Z.mod_pos_bound (v4_table_entries init) (2 ^ 12) ltac:(lia)).
  pose proof (Z.mod_pos_bound (v4_expn_table_entries init) (2 ^ 10) ltac:(lia)).
  set (b := _ mod 2 ^ 12) in *. set (e := _ mod 2 ^ 10) in *. clearbody b e.
  rewrite !u64_small, !Z.mod_small by lia.
  unfold ranges_in. rewrite !Forall_cons, Forall_nil. cbn [fst snd]. lia.
Qed.

Lemma init_types init (shared : bool) base :
  Forall (eq (Z.b2z shared))
    (nat_table_types (nat_init_payload (ipa3_nat_create_init_cmd init shared base))).
Proof. rewrite ni_types_read. by repeat constructor. Qed.

Lemma check_table_spec s nmi m off n ty sz :
  cm_is_ipv6ct_mem (nm_dev (nm s)) = false -> (nm_mem_loc (nm s)).[nmi] = Some m ->
  ipahal_nat_entry_size ipa_hw_type ty = Some (0, sz) -> 0 < sz <= 64 -> 0 <= off < 2 ^ 32 ->
  exists r, ipa3_nat_ipv6ct_check_table_params s DEV_NAT nmi off n ty = Some r
    /\ (r = 0 -> off + sz * u16 n <= ml_table_alloc_size m).
Proof.
  intros Hd Hm Hty Hsz Ho. unfold ipa3_nat_ipv6ct_check_table_params. cbn [device].
  rewrite Hd, Hm. cbn [mbind option_bind]. destruct (_ && _); [by eexists|].
  rewrite Hty. cbn. pose proof (u16_range n). 
  rewrite (u64_small (sz * u16 n)) by nia. 
  destruct (_ <? off); [by eexists|].
  rewrite (u64_small (off + sz * u16 n)) by nia.
  destruct (Z.ltb_spec (ml_table_alloc_size m) (off + sz * u16 n)); by eexists.
Qed.

Lemma check_nat_tables_spec s nmi m init :
  flags_ok s -> (nm_mem_loc (nm s)).[nmi] = Some m -> wf_nat_init init ->
  v4_table_entries init <> U16_MAX ->
  exists r, check_nat_tables s nmi init = Some r
    /\ (r = 0 -> init_fits init (ml_table_alloc_size m)).
Proof.
  intros Hf Hm (Ho & He & Hx) Hne. destruct (fl_nat _ Hf) as (_ & _ & Hd & _).
  destruct (entry_size_v3 _ cfg_supported) as [Hs1 Hs2].
  repeat (apply Forall_cons in Ho as [? Ho]). clear Ho.
  assert (Hn : u16 (v4_table_entries init + 1) = v4_table_entries init + 1).
  { apply u16_small. unfold U16_MAX in Hne. lia. }
  assert (Hxn : u16 (v4_expn_table_entries init) = v4_expn_table_entries init)
    by by apply u16_small.
  pose proof (fun off n => check_table_spec s nmi m off n _ _ Hd Hm Hs1 ltac:(lia)) as C1.
  pose proof (fun off n => check_table_spec s nmi m off n _ _ Hd Hm Hs2 ltac:(lia)) as C2.
  unfold check_nat_tables, init_fits.
  destruct (C1 (v4_ipv4_rules_offset init) (v4_table_entries init + 1)) as (r1 & -> & R1); [done|].
  cbn [mbind option_bind]. destruct (Z.eqb_spec r1 0) as [Hr1|]; [|by eexists].
  destruct (C1 (v4_expn_rules_offset init) (v4_expn_table_entries init)) as (r2 & -> & R2); [done|].
  cbn [mbind option_bind]. destruct (Z.eqb_spec r2 0) as [Hr2|]; [|by eexists].
  destruct (C2 (v4_index_offset init) (v4_table_entries init + 1)) as (r3 & -> & R3); [done|].
  cbn [mbind option_bind]. destruct (Z.eqb_spec r3 0) as [Hr3|]; [|by eexists].
  destruct (C2 (v4_index_expn_offset init) (v4_expn_table_entries init)) as (r4 & -> & R4); [done|].
  eexists. split; [done|]. intros Hr4. rewrite Hn, Hxn in *. auto.
Qed.

(** ** Sending *)

(** The driver's state changed at most where the invariant does not look. *)
Definition reshaped s s' : Prop :=
  view_of s' = view_of s /\ (flags_ok s -> flags_ok s').

#[export] Instance reshaped_preorder : PreOrder reshaped.
Proof.
  split; [done|]. intros s1 s2 s3 [A1 A2] [B1 B2]. split; [by etrans|auto].
Qed.

Lemma reshaped_same s s' : ctx s' = ctx s -> reshaped s s'.
Proof.
  intros Hc. assert (Hn : nm s' = nm s) by (unfold nm; by rewrite Hc). split.
  - unfold view_of, ddr, sram, loc. by rewrite Hn, Hc.
  - intros []. split; by rewrite ?Hn, ?Hc.
Qed.

Lemma reshaped_ok s s' :
  reshaped s s' -> k_dma (world s') = k_dma (world s) ->
  k_nat_hw (world s') = k_nat_hw (world s) -> driver_ok s -> driver_ok s'.
Proof.
  intros [Hv Hf] G1 G2 [Hf0 Hv0]. split; [auto|]. by rewrite Hv, G1, G2.
Qed.

(** New contents of the PDN table. *)
Lemma reshaped_pdn s l : lengthZ l = lengthZ (mb_entries (nm_pdn_mem (nm s))) ->
  reshaped s (with_nm s (nm s <| nm_pdn_mem := nm_pdn_mem (nm s) <| mb_entries := l |> |>)).
Proof.
  intros Hl. split; [|intros []; by split]. unfold view_of. cbn. unfold view_pdn. cbn. by rewrite Hl.
Qed.

Lemma create_modify_pdn_spec s zero : IPA_HW_v4_0 <= ipa_hw_type ->
  exists r p s', ipa3_nat_create_modify_pdn_cmd s zero = Some (r, params_dma_shared_mem p, s')
    /\ reshaped s s' /\ world s' = world s
    /\ (r = 0 -> exists data,
          constructs IPA_IMM_CMD_DMA_SHARED_MEM (params_dma_shared_mem p) (mk_pyld 19 16 data)).
Proof.
  intros H4. unfold ipa3_nat_create_modify_pdn_cmd.
  rewrite (proj1 (entry_size_v4 _ cfg_supported H4)), (max_pdn_spec H4). cbn [mbind option_bind].
  destruct (_ =? NULL); [by eexists _, _, _|]. eexists 0, _, _. split; [done|].
  destruct zero; (split; [|split; [done|intros _; apply (shared_mem_constructs cfg_supported _ _ _ H4)]]).
  - apply reshaped_pdn. unfold lengthZ. by rewrite length_map.
  - done.
Qed.

Lemma build_pdn_spec bound zero l s :
  exists r l' s', build_pdn_cmd bound zero l s = Some (r, l', s') /\ reshaped s s'
    /\ same_ghost (world s) (world s') /\ (r = 0 -> exists ps, inert ps /\ l' = l ++ ps).
Proof.
  unfold build_pdn_cmd. destruct (Z.ltb_spec ipa_hw_type IPA_HW_v4_0) as [H4|H4].
  { eexists 0, l, s. do 3 (split; [done|]). intros _. exists [].
    split; [constructor|]. by rewrite app_nil_r. }
  destruct (Nat.leb_spec bound (length l)) as [Hb|Hb].
  { by eexists _, l, s. }
  destruct (create_modify_pdn_spec s zero H4) as (r & p & s1 & -> & Hr & Hw & Hc). cbn [mbind option_bind].
  destruct (Z.eqb_spec r 0) as [Hr0|Hr0]; cbn [negb]; [|by exists r, l, s1; rewrite Hw].
  destruct (Hc Hr0) as (data & Hdata).
  destruct (build_cmds_spec bound
    [(IPA_IMM_CMD_DMA_SHARED_MEM, params_dma_shared_mem p, - ENOMEM)] [mk_pyld 19 16 data] l s1)
    as (r2 & l2 & s2 & -> & (Q1 & Q2 & Q3) & Hl2).
  { by repeat constructor. }
  { cbn. lia. }
  exists r2, l2, s2. split; [done|]. split; [etrans; [exact Hr|by apply reshaped_same]|].
  rewrite Hw in Q3. split; [done|]. intros Hr2. exists [mk_pyld 19 16 data].
  split; [by repeat constructor|]. by apply Hl2.
Qed.

(** The commands are sent and freed. *)
Lemma send_destroy_spec s l l' : exists r s',
  (let '(r, s1) := ipa3_send_cmd s l in Some (r, destroy_imm_cmd l' s1)) = Some (r, s')
  /\ ctx s' = ctx s /\ k_dma (world s') = k_dma (world s)
  /\ k_nat_hw (world s')
     = (if r =? 0 then last_cmd OP_NAT_INIT l (k_nat_hw (world s)) else k_nat_hw (world s))
  /\ k_ct_hw (world s')
     = (if r =? 0 then last_cmd OP_CT_INIT l (k_ct_hw (world s)) else k_ct_hw (world s)).
Proof.
  destruct (ipa3_send_cmd s l) as [r s1] eqn:Es. eexists r, _. split; [done|].
  destruct (send_quiet _ _ _ _ Es) as (S1 & S2 & S3).
  destruct (destroy_quiet l' s1) as (D1 & _ & D2 & D3 & D4). split; [congruence|].
  destruct (Z.eqb_spec r 0) as [Hr|Hr].
  - destruct (S3 Hr) as (T1 & T2 & T3 & _). split_and!; congruence.
  - destruct (S2 Hr) as [(T1 & T2 & T3) _]. split_and!; congruence.
Qed.

(** The commands constructed so far are freed. *)
Lemma destroy_fail_spec s s1 l r : r <> 0 -> reshaped s s1 -> same_ghost (world s) (world s1) ->
  exists r' s', Some (r, destroy_imm_cmd l s1) = Some (r', s')
    /\ reshaped s s' /\ k_dma (world s') = k_dma (world s)
    /\ forall x, k_nat_hw (world s') = (if r' =? 0 then x else k_nat_hw (world s)).
Proof.
  intros Hr H1 (G1 & G2 & _). destruct (destroy_quiet l s1) as (D1 & _ & D2 & D3 & _).
  eexists r, _. split; [done|]. rewrite (proj2 (Z.eqb_neq _ _) Hr).
  split; [etrans; [exact H1|by apply reshaped_same]|]. split; congruence.
Qed.

Lemma send_nat_init_spec s cmd zero :
  exists r s', ipa3_nat_send_init_cmd s cmd zero = Some (r, s')
    /\ reshaped s s' /\ k_dma (world s') = k_dma (world s)
    /\ k_nat_hw (world s')
       = (if r =? 0 then Some (nat_init_payload cmd) else k_nat_hw (world s)).
Proof.
  unfold ipa3_nat_send_init_cmd.
  destruct (prefix_builds cfg_supported) as (pre & Hpre & Hin & Hlen).
  pose proof (prefix_short cfg_supported) as Hshort.
  destruct (build_cmds_spec IPA_NAT_MAX_NUM_OF_INIT_CMD_DESC
    (coal_close_cmd ++ [nop_cmd; (IPA_IMM_CMD_IP_V4_NAT_INIT, params_nat_init cmd, - EPERM)])
    (pre ++ [mk_pyld OP_NAT_INIT 40 (nat_init_payload cmd)]) [] s)
    as (r1 & l1 & s1 & -> & (Q1 & Q2 & Q3) & Hl1).
  { change [nop_cmd; ?x] with ([nop_cmd] ++ [x]). rewrite app_assoc. apply Forall2_app; [done|].
    repeat constructor; [apply (nat_init_constructs cfg_supported)|done]. }
  { unfold IPA_NAT_MAX_NUM_OF_INIT_CMD_DESC. rewrite length_app in *. cbn in *. destruct (wan_coal_ep =? -1); lia. }
  cbn [mbind option_bind]. destruct (Z.eqb_spec r1 0) as [Hr1|Hr1]; cbn [negb]; cycle 1.
  { edestruct destroy_fail_spec as (r & s' & -> & H1 & H2 & H3);
      [exact Hr1|by apply reshaped_same|exact Q3|]. by exists r, s'. }
  rewrite (Hl1 Hr1), app_nil_l. set (l2 := pre ++ _).
  destruct (build_pdn_spec IPA_NAT_MAX_NUM_OF_INIT_CMD_DESC zero l2 s1)
    as (r2 & l3 & s2 & -> & P1 & P2 & Hl3). cbn [mbind option_bind].
  assert (R2 : reshaped s s2) by (etrans; [by apply reshaped_same|exact P1]).
  assert (G2 : same_ghost (world s) (world s2)) by by etrans.
  destruct (Z.eqb_spec r2 0) as [Hr2|Hr2]; cbn [negb]; cycle 1.
  { edestruct destroy_fail_spec as (r & s' & -> & H1 & H2 & H3); [exact Hr2|exact R2|exact G2|].
    by exists r, s'. }
  destruct (Hl3 Hr2) as (ps & Hps & ->).
  destruct (send_destroy_spec s2 (l2 ++ ps) (l2 ++ ps)) as (r & s' & -> & H1 & H2 & H3 & _).
  exists r, s'. destruct G2 as (G2 & G3 & _). split; [done|].
  split; [etrans; [exact R2|by apply reshaped_same]|]. split; [congruence|].
  rewrite H3, G3. destruct (r =? 0); [|done].
  unfold l2. by rewrite !last_cmd_app, (last_cmd_inert _ ps) by auto.
Qed.
End Init.
