(* ===== verification/KHandlers.v ===== *)
(** * The handlers that reach the hardware keep the driver's invariant *)
From S2P Require Import Prelude Bitfield Table Env RecordUpdate KernelEnv Hal HalCmd KernelLaws.
From S2P Require Import KNat KNatOps KSend KUser KInv KAlloc KInit.

(** A refusal. *)
Ltac refuse := match goal with
  |- answers (if ?b then _ else _) => let E := fresh in destruct b eqn:E; [by apply answers_now|]
  end.

Section Handlers.
Context {c : ipa3_config} {K : Type} {E : KernelEnv K} {G : KernelGhost K}.
Context {laws : KernelLaws K} {ok : ConfigOk}.
Implicit Types (s : kst K) (init : ipa_ioc_v4_nat_init).

(** ** Steps that the invariant does not see *)

Lemma reshaped_loc s nmi m :
  flags_ok s -> nmi = IPA_NAT_MEM_IN_DDR \/ nmi = IPA_NAT_MEM_IN_SRAM ->
  ml_vaddr m = ml_vaddr (loc s nmi) -> ml_dma_handle m = ml_dma_handle (loc s nmi) ->
  ml_table_alloc_size m = ml_table_alloc_size (loc s nmi) ->
  ml_is_mapped m = ml_is_mapped (loc s nmi) -> reshaped s (with_loc s nmi m).
Proof.
  intros Hf Hn H1 H2 H3 H4. split; [|apply flags_with_loc]. pose proof (fl_locs _ Hf).
  destruct Hn as [-> | ->]; [rewrite view_with_ddr by done|rewrite view_with_sram by done].
  - unfold view_ddr. by rewrite H1, H2, H3, H4.
  - unfold view_sram. by rewrite H1, H3, H4.
Qed.

Lemma device_structure_spec s nmi a b n e i x f :
  flags_ok s -> nmi = IPA_NAT_MEM_IN_DDR \/ nmi = IPA_NAT_MEM_IN_SRAM ->
  exists r s', ipa3_nat_ipv6ct_init_device_structure s DEV_NAT nmi a b n e i x f = Some (r, s')
    /\ reshaped s s' /\ world s' = world s /\ (nmi = IPA_NAT_MEM_IN_DDR -> r = 0).
Proof.
  intros Hf Hn. unfold ipa3_nat_ipv6ct_init_device_structure. cbn [device].
  destruct (fl_nat _ Hf) as (_ & -> & -> & _).
  rewrite (loc_lookup s nmi (fl_locs _ Hf) Hn). cbn [mbind option_bind].
  set (s1 := with_nm s (nm s <| nm_active_table := nmi |>)).
  match goal with |- context [with_loc s1 nmi ?m] => set (m' := m) end.
  assert (H1 : reshaped s (with_loc s1 nmi m')).
  { transitivity s1; [by split; [|intros []]|]. apply reshaped_loc; try done. by destruct Hf. }
  destruct Hn as [-> | ->]; cbn [Z.eqb IPA_NAT_MEM_IN_DDR IPA_NAT_MEM_IN_SRAM Pos.eqb];
    [|destruct (negb _)]; eexists _, _; (split; [done|]); try done;
    destruct f; (split; [|done]); try done;
    (etrans; [exact H1|by split; [|intros []]]).
Qed.

Lemma store_pdn_spec s i f :
  driver_ok s -> IPA_HW_v4_0 <= ipa_hw_type -> mb_base (nm_pdn_mem (nm s)) <> NULL ->
  0 <= i < pdn_config_size / 16 ->
  exists s', store_pdn s i f = Some (0, s') /\ reshaped s s' /\ world s' = world s.
Proof.
  intros [Hf Hv] H4 Hb Hi. unfold store_pdn.
  rewrite (construct_entry_v4 _ f cfg_supported H4). cbn [mbind option_bind].
  pose proof (vo_pdn _ _ _ Hv) as Hp. cbn in Hp. unfold view_pdn in Hp.
  rewrite behind_Some in Hp by done. specialize (Hp _ _ _ eq_refl).
  rewrite storeZ_Some by lia. cbn [mbind option_bind]. eexists. split; [done|].
  split; [|done]. apply reshaped_pdn. apply lengthZ_updateZ.
Qed.

(** ** Initialisation of the NAT block *)

(** The command that was checked keeps the hardware in the memory of the
    location. *)
Lemma init_hw_ok s init nmi m :
  driver_ok s -> nmi = IPA_NAT_MEM_IN_DDR \/ nmi = IPA_NAT_MEM_IN_SRAM -> m = loc s nmi ->
  ml_is_mapped m = true -> wf_nat_init init -> init_fits init (ml_table_alloc_size m) ->
  let d := nat_init_payload
    (if nmi =? IPA_NAT_MEM_IN_DDR then ipa3_nat_create_init_cmd init false (ml_dma_handle m)
     else ipa3_nat_create_init_cmd init true nat_tbl_ofst) in
  (nmi = IPA_NAT_MEM_IN_DDR /\ exists h n, view_ddr (ddr s) = Some (h, n) /\ nat_in_buffer d h n)
  \/ (nmi = IPA_NAT_MEM_IN_SRAM /\ nat_in_sram d).
Proof.
  intros [_ Hv] [-> | ->] -> Hm Hwf Hfit d.
  - left. split; [done|]. pose proof (vo_ddr_map _ _ _ Hv Hm) as [[h n] Hd]. cbn in Hd.
    exists h, n. split; [done|]. pose proof (vo_fit _ _ _ Hv h n Hd) as [H0 Hn].
    revert Hd. unfold view_ddr, behind, ddr. destruct (_ =? NULL); [done|]. intros [= <- <-].
    split; [apply (init_types init false)|]. by apply init_ranges.
  - right. split; [done|]. pose proof (vo_sram_map _ _ _ Hv Hm) as [n Hd]. cbn in Hd.
    destruct (vo_sram _ _ _ Hv n Hd) as [_ Hn].
    revert Hd. unfold view_sram, behind, sram. destruct (_ =? NULL); [done|]. intros [= <-].
    split; [apply (init_types init true)|]. apply init_ranges; [done| |apply cfg_sram|].
    + destruct Hfit as (?&?&?&?). repeat split; lia.
    + pose proof cfg_sram. change (2 ^ 31) with 2147483648 in *. lia.
Qed.

Lemma driver_ok_hw s s' d :
  driver_ok s -> reshaped s s' -> k_dma (world s') = k_dma (world s) ->
  k_nat_hw (world s') = Some d -> view_hw_ok (view_of s) d -> driver_ok s'.
Proof.
  intros [Hf Hv] [R1 R2] Hdma Hhw Hd. split; [auto|]. rewrite R1, Hdma, Hhw. destruct Hv. split; try done.
  by intros d' [= <-].
Qed.

(** The NAT block is known to be initialised. *)
Definition hw_init_done s : kst K :=
  with_device s DEV_NAT (device s DEV_NAT <| cm_is_hw_init := true |>).

Lemma driver_ok_hw_init s : driver_ok s -> driver_ok (hw_init_done s).
Proof.
  intros [[] []]. split; [by split|]. split; try done.
  cbn. intros d Hd. destruct (vo_hw d Hd) as [?|[?|(h & n & ? & ? & _)]];
    [by left|by right; left|right; right]. by exists h, n.
Qed.

Lemma driver_ok_hw_ddr s s' d h n :
  driver_ok s -> reshaped s s' -> k_dma (world s') = k_dma (world s) ->
  k_nat_hw (world s') = Some d -> view_ddr (ddr s) = Some (h, n) -> nat_in_buffer d h n ->
  driver_ok (hw_init_done s').
Proof.
  intros [Hf Hv] [R1 R2] Hdma Hhw Hd Hb. split; [destruct (R2 Hf); by split|].
  change (view_of (hw_init_done s')) with (view_of s' <| dv_hw_init := true |>).
  change (world (hw_init_done s')) with (world s'). rewrite R1, Hdma, Hhw.
  destruct Hv. split; try done. intros d' [= <-]. right; right. by exists h, n.
Qed.

Lemma public_ip_reshaped s x : reshaped s (with_nm s (nm s <| nm_public_ip_addr := x |>)).
Proof. by split; [|intros []]. Qed.

Lemma nat_init_wf s init : wf_nat_init init -> wf_nat_init (nat_init_request s init).
Proof. unfold nat_init_request. by destruct (sram_compatible (ctx s)). Qed.

(** The memory of the location is initialised by a command that was sent. *)
Lemma init_finish_ok s s2 nmi d a b n e i x f ip :
  driver_ok s -> reshaped s s2 -> k_dma (world s2) = k_dma (world s) ->
  k_nat_hw (world s2) = Some d ->
  (nmi = IPA_NAT_MEM_IN_DDR /\ exists h n, view_ddr (ddr s) = Some (h, n) /\ nat_in_buffer d h n)
  \/ (nmi = IPA_NAT_MEM_IN_SRAM /\ nat_in_sram d) ->
  answers ('(result, s) ← ipa3_nat_ipv6ct_init_device_structure s2 DEV_NAT nmi a b n e i x f;
    if negb (result =? 0) then Some (result, s) else
    Some (0, hw_init_done (with_nm s (nm s <| nm_public_ip_addr := ip |>)))).
Proof.
  intros Hok R2 D2 H2 Hhw.
  destruct (device_structure_spec s2 nmi a b n e i x f) as (r & s3 & -> & R3 & W3 & Hr).
  { apply R2. apply Hok. }
  { destruct Hhw as [[-> _]|[-> _]]; auto. }
  cbn [mbind option_bind]. assert (R03 : reshaped s s3) by by etrans.
  rewrite <- W3 in D2, H2.
  destruct Hhw as [[-> (h & n' & Hd & Hb)]|[-> Hs]].
  - rewrite Hr by done. cbn [negb Z.eqb]. apply answers_now. eapply driver_ok_hw_ddr; try done.
    etrans; [exact R03|apply public_ip_reshaped].
  - assert (Hok3 : driver_ok s3) by (eapply driver_ok_hw; try done; by left).
    destruct (r =? 0); [|by apply answers_now]. apply answers_now, driver_ok_hw_init.
    by apply (reshaped_ok s3); [apply public_ip_reshaped|..].
Qed.

(** The public address is the first entry of the PDN table. *)
Lemma init_pdn_spec s init : driver_ok s -> exists s1,
  (if (IPA_HW_v4_0 <=? ipa_hw_type) && negb (mb_base (nm_pdn_mem (nm s)) =? NULL)
      && negb (v4_focus_change init)
   then store_pdn s 0 (mk_pdn_fields (v4_ip_addr init) 0 0) else Some (0, s)) = Some (0, s1)
  /\ reshaped s s1 /\ world s1 = world s
  /\ mb_base (nm_pdn_mem (nm s1)) = mb_base (nm_pdn_mem (nm s)).
Proof.
  intros Hok. destruct (Z.leb_spec IPA_HW_v4_0 ipa_hw_type) as [H4|H4]; [|by exists s].
  destruct (Z.eqb_spec (mb_base (nm_pdn_mem (nm s))) NULL) as [Hb|Hb]; [by exists s|].
  destruct (v4_focus_change init); [by exists s|]. cbn [andb negb].
  destruct (store_pdn_spec s 0 (mk_pdn_fields (v4_ip_addr init) 0 0) Hok H4 Hb) as (s1 & Hs & R & W).
  { split; [done|]. apply Z.div_str_pos. pose proof cfg_pdn. lia. }
  exists s1. split; [done|]. split; [done|]. split; [done|]. revert Hs. unfold store_pdn.
  destruct (ipahal_nat_construct_entry _ _ _) as [[r1 e]|]; [|done]. cbn [mbind option_bind].
  destruct (storeZ _ 0 e) as [l|]; [|done]. cbn [mbind option_bind]. by intros [= _ <-].
Qed.

Lemma nat_init_cmd_ok s init : driver_ok s -> wf_nat_init init -> answers (ipa3_nat_init_cmd s init).
Proof.
  intros Hok Hwf0. unfold ipa3_nat_init_cmd.
  pose proof (nat_init_wf s init Hwf0) as Hwf. set (init' := nat_init_request s init) in *.
  clearbody init'. clear Hwf0 init. rename init' into init. set (nmi := v4_mem_type init).
  refuse. refuse. rewrite orb_false_iff, !Z.eqb_neq in H0. destruct H0 as [_ Hmax].
  refuse. apply negb_false_iff, valid_mem_in in H0. pose proof (fl_locs _ (proj1 Hok)) as Hl.
  pose proof (loc_lookup s nmi Hl H0) as Hm. rewrite Hm. cbn [mbind option_bind].
  refuse. apply negb_false_iff in H1.
  destruct (check_nat_tables_spec s nmi (loc s nmi) init (proj1 Hok) Hm Hwf Hmax) as (r & -> & Hfit).
  cbn [mbind option_bind]. destruct (Z.eqb_spec r 0) as [Hr|Hr]; cbn [negb]; [|by apply answers_now].
  pose proof (init_hw_ok s init nmi _ Hok H0 eq_refl H1 Hwf (Hfit Hr)) as Hhw. cbn zeta in Hhw.
  set (cmd := if nmi =? _ then _ else _) in *.
  destruct (init_pdn_spec s init Hok) as (s1 & -> & R1 & W1 & _).
  cbn [mbind option_bind negb Z.eqb].
  destruct (send_nat_init_spec s1 cmd false) as (r2 & s2 & -> & R2 & D2 & H2).
  cbn [mbind option_bind]. rewrite W1 in *. assert (R02 : reshaped s s2) by by etrans.
  destruct (Z.eqb_spec r2 0) as [Hr2|Hr2]; cbn [negb].
  - by eapply init_finish_ok.
  - apply answers_now. by eapply reshaped_ok.
Qed.

(** ** The PDN table *)

Lemma send_inert s l l' : inert l -> exists r s',
  (let '(r, s1) := ipa3_send_cmd s l in Some (r, destroy_imm_cmd l' s1)) = Some (r, s')
  /\ reshaped s s' /\ k_dma (world s') = k_dma (world s)
  /\ k_nat_hw (world s') = k_nat_hw (world s).
Proof.
  intros Hl. destruct (send_destroy_spec s l l') as (r & s' & -> & H1 & H2 & H3 & _).
  exists r, s'. split; [done|]. split; [by apply reshaped_same|]. split; [done|].
  rewrite H3, last_cmd_inert by auto. by destruct (r =? 0).
Qed.

Lemma mdfy_pdn_ok s e : driver_ok s -> 0 <= ioc_pdn_index e -> answers (ipa3_nat_mdfy_pdn s e).
Proof.
  intros Hok He. unfold ipa3_nat_mdfy_pdn. refuse. apply Z.ltb_ge in H. refuse.
  apply Z.eqb_neq in H0. rewrite (max_pdn_spec H). cbn [mbind option_bind]. refuse.
  apply Z.ltb_ge in H1.
  destruct (store_pdn_spec s (ioc_pdn_index e) (mk_pdn_fields (ioc_public_ip e)
    (if ipa_hw_type =? IPA_HW_v4_1 then Z.lor (ioc_src_metadata e) IPA_QMAP_TETH_BIT
     else ioc_src_metadata e) (ioc_dst_metadata e)) Hok H H0 ltac:(lia)) as (s1 & -> & R1 & W1).
  cbn [mbind option_bind negb Z.eqb].
  assert (Hok1 : driver_ok s1) by by apply (reshaped_ok s); rewrite ?W1.
  destruct (create_modify_pdn_spec s1 false H) as (r & p & s2 & -> & R2 & W2 & Hp).
  cbn [mbind option_bind]. assert (Hok2 : driver_ok s2) by by apply (reshaped_ok s1); rewrite ?W2.
  destruct (Z.eqb_spec r 0) as [Hr|Hr]; cbn [negb]; [|by apply answers_now].
  destruct (Hp Hr) as (data & Hdata).
  destruct (build_cmds_spec 1 [(IPA_IMM_CMD_DMA_SHARED_MEM, params_dma_shared_mem p, - ENOMEM)]
    [mk_pyld 19 16 data] [] s2) as (r3 & l & s3 & -> & Hq & Hl).
  { by repeat constructor. }
  { done. }
  cbn [mbind option_bind]. assert (Hok3 : driver_ok s3) by by eapply quiet_driver_ok.
  destruct (Z.eqb_spec r3 0) as [Hr3|Hr3]; cbn [negb]; [|by apply answers_now].
  destruct (send_inert s3 l l) as (r4 & s4 & -> & R4 & D4 & N4).
  { rewrite (Hl Hr3). by repeat constructor. }
  apply answers_now. by apply (reshaped_ok s3).
Qed.

Lemma build_cmds_ctx bound cmds l s r l' s' :
  build_cmds bound cmds l s = Some (r, l', s') -> ctx s' = ctx s.
Proof.
  revert l s. induction cmds as [|[[name params] err] cmds IH]; intros l s; cbn [build_cmds].
  - by intros [= _ _ <-].
  - destruct (_ <=? _)%nat; [done|].
    destruct (ipahal_construct_imm_cmd _ _ _ _) as [[[p|] k]|]; [|by intros [= _ _ <-]|done].
    cbn. intros H. exact (IH _ _ H).
Qed.

(** What a modification that succeeds stores. *)
Lemma mdfy_pdn_stores s e s' : ipa3_nat_mdfy_pdn s e = Some (0, s') ->
  let src := if ipa_hw_type =? IPA_HW_v4_1 then Z.lor (ioc_src_metadata e) IPA_QMAP_TETH_BIT
             else ioc_src_metadata e in
  let l := mb_entries (nm_pdn_mem (nm s)) in
  IPA_HW_v4_0 <= ipa_hw_type /\ 0 <= ioc_pdn_index e < lengthZ l
  /\ mb_entries (nm_pdn_mem (nm s'))
     = l.[ioc_pdn_index e <- ipa_nat_ipv4_pdn_construct_entry_v_4_0
            (mk_pdn_fields (ioc_public_ip e) src (ioc_dst_metadata e))].
Proof.
  unfold ipa3_nat_mdfy_pdn. destruct (Z.ltb_spec ipa_hw_type IPA_HW_v4_0) as [?|H4]; [done|].
  destruct (_ =? NULL); [done|]. rewrite (max_pdn_spec H4). cbn [mbind option_bind].
  destruct (_ <? ioc_pdn_index e); [done|]. cbn zeta. set (src := if _ =? IPA_HW_v4_1 then _ else _).
  unfold store_pdn. rewrite (construct_entry_v4 _ _ cfg_supported H4). cbn [mbind option_bind].
  destruct (storeZ _ _ _) as [l|] eqn:El; [|done]. cbn [mbind option_bind negb Z.eqb].
  apply storeZ_inv in El as [-> Hi]. set (s1 := with_nm s _).
  assert (Hm : exists r p, ipa3_nat_create_modify_pdn_cmd s1 false = Some (r, p, s1)).
  { unfold ipa3_nat_create_modify_pdn_cmd.
    rewrite (proj1 (entry_size_v4 _ cfg_supported H4)), (max_pdn_spec H4). cbn [mbind option_bind].
    destruct (_ =? NULL); by eexists _, _. }
  destruct Hm as (r & p & ->). cbn [mbind option_bind].
  destruct (Z.eqb_spec r 0) as [_|Hr]; cbn [negb]; [|congruence].
  destruct (build_cmds _ _ _ s1) as [[[r2 l2] s2]|] eqn:Eb; [|done]. cbn [mbind option_bind].
  apply build_cmds_ctx in Eb. destruct (Z.eqb_spec r2 0) as [_|Hr2]; cbn [negb]; [|congruence].
  destruct (ipa3_send_cmd s2 l2) as [r3 s3] eqn:Es. apply send_quiet in Es as (Hc & _).
  intros [= _ <-]. split; [done|]. split; [done|].
  replace (nm (destroy_imm_cmd l2 s3)) with (nm s1); [done|]. unfold nm. cbn. by rewrite Hc, Eb.
Qed.

Lemma pdn_construct_parse f :
  ipa_nat_ipv4_pdn_parse_entry_v_4_0 (ipa_nat_ipv4_pdn_construct_entry_v_4_0 f)
  = mk_pdn_fields (u32 (pdn_public_ip f)) (u32 (pdn_src_metadata f)) (u32 (pdn_dst_metadata f)).
Proof.
  unfold ipa_nat_ipv4_pdn_parse_entry_v_4_0, ipa_nat_ipv4_pdn_construct_entry_v_4_0.
  by rewrite (getf_setf_ne hwp_dst_metadata hwp_public_ip), (getf_setf_ne hwp_dst_metadata hwp_src_metadata),
    (getf_setf_ne hwp_src_metadata hwp_public_ip), !getf_setf_eq by done.
Qed.

(** ** Table DMA *)

Lemma validate_one_total s nmi raw :
  flags_ok s -> nmi = IPA_NAT_MEM_IN_DDR \/ nmi = IPA_NAT_MEM_IN_SRAM ->
  is_Some (ipa3_table_validate_table_dma_one s nmi raw).
Proof.
  intros Hf Hn. unfold ipa3_table_validate_table_dma_one.
  destruct (1 <=? raw_table_index raw); [done|].
  match goal with |- is_Some (if ?b then _ else _) => destruct b eqn:Eb; [done|] end.
  unfold ipa3_nat_ipv6ct_calculate_table_size. rewrite (loc_lookup s nmi (fl_locs _ Hf) Hn).
  destruct (entry_size_v3 _ cfg_supported) as [H1 H2]. cbn [mbind option_bind].
  destruct (tbl_of_number (raw_base_addr raw)) as [[]|]; try done; rewrite ?H1, ?H2;
    try (cbn [mbind option_bind]; by repeat case_match);
    rewrite orb_false_iff, Z.ltb_ge in Eb; destruct Eb as [H4 _];
    rewrite (proj2 (entry_size_v4 _ cfg_supported H4)); cbn [mbind option_bind];
    by repeat case_match.
Qed.

Lemma validate_ones_total s nmi l :
  flags_ok s -> nmi = IPA_NAT_MEM_IN_DDR \/ nmi = IPA_NAT_MEM_IN_SRAM ->
  is_Some (validate_dma_ones s nmi l).
Proof.
  intros Hf Hn. induction l as [|raw l IH]; [done|]. cbn [validate_dma_ones].
  destruct (validate_one_total s nmi raw Hf Hn) as [r ->]. cbn [mbind option_bind].
  by destruct (negb (r =? 0)).
Qed.

Lemma table_dma_cmd_total s dma :
  flags_ok s -> raw_entries dma <= lengthZ (raw_dma dma) -> is_Some (ipa3_table_dma_cmd s dma).
Proof.
  intros Hf Hlen. unfold ipa3_table_dma_cmd.
  destruct (negb (cm_is_dev_init _)); [done|].
  destruct (IPA_VALID_NAT_MEM_IN _) eqn:En; [|done]. apply valid_mem_in in En. cbn [negb].
  match goal with |- is_Some (if ?b then _ else _) => destruct b eqn:Eb; [done|] end.
  rewrite orb_false_iff, Z.ltb_ge in Eb. destruct Eb as [_ Hmax].
  rewrite (proj2 (Z.ltb_ge _ _) Hlen).
  set (ones := take _ _). destruct (validate_ones_total s _ ones Hf En) as [v ->].
  cbn [mbind option_bind]. destruct (v =? 0); [|done]. cbn [negb].
  destruct (prefix_builds cfg_supported) as (pre & Hpre & _ & _).
  destruct (build_cmds_spec IPA_MAX_NUM_OF_TABLE_DMA_CMD_DESC
    (coal_close_cmd ++ nop_cmd :: table_dma_cmds ones) (pre ++ map dma_pyld ones) [] s)
    as (br & bl & bs & -> & _).
  - change (nop_cmd :: table_dma_cmds ones) with ([nop_cmd] ++ table_dma_cmds ones).
    rewrite app_assoc. apply Forall2_app; [done|]. by apply table_dma_cmds_build, cfg_supported.
  - apply (dma_cmds_fit cfg_supported (raw_entries dma)); [|done].
    unfold ones. rewrite length_take. lia.
  - cbn [mbind option_bind]. destruct (negb _); [done|]. by destruct (ipa3_send_cmd bs bl).
Qed.

Lemma table_dma_cmd_ok s dma :
  driver_ok s -> raw_entries dma <= lengthZ (raw_dma dma) -> answers (ipa3_table_dma_cmd s dma).
Proof.
  intros Hok Hlen. destruct (table_dma_cmd_total s dma (proj1 Hok) Hlen) as [[r s'] Hr].
  rewrite Hr. apply table_dma_cmd_spec in Hr as (Hc & Hg & _); [|apply cfg_supported].
  by apply (answers_same _ s).
Qed.
End Handlers.
