(* ===== verification/KRelease.v ===== *)
(** * IPv6CT initialisation and the release of the tables keep the driver's
    invariant

    Before a buffer of the NAT tables is freed the hardware is pointed to the
    temporary memory, so it never works on memory that is gone. *)
From S2P Require Import Prelude Bitfield Table Env RecordUpdate KernelEnv Hal HalCmd KernelLaws.
From S2P Require Import KNat KNatOps KSend KUser KInv KAlloc KInit KHandlers.

Section Release.
Context {c : ipa3_config} {K : Type} {E : KernelEnv K} {G : KernelGhost K}.
Context {laws : KernelLaws K} {ok : ConfigOk}.
Implicit Types (s : kst K) (v : dview).

(** ** The IPv6CT block *)

Lemma send_ct_init_spec s cmd : IPA_HW_v4_0 <= ipa_hw_type ->
  exists r s', ipa3_ipv6ct_send_init_cmd s cmd = Some (r, s')
    /\ ctx s' = ctx s /\ k_dma (world s') = k_dma (world s)
    /\ k_nat_hw (world s') = k_nat_hw (world s)
    /\ k_ct_hw (world s') = (if r =? 0 then Some (ct_init_payload cmd) else k_ct_hw (world s)).
Proof.
  intros H4. unfold ipa3_ipv6ct_send_init_cmd.
  destruct (prefix_builds cfg_supported) as (pre & Hpre & Hin & Hlen).
  pose proof (prefix_short cfg_supported) as Hshort.
  destruct (build_cmds_spec IPA_IPV6CT_MAX_NUM_OF_INIT_CMD_DESC (coal_close_cmd ++ [nop_cmd]) pre
    [] s Hpre) as (r1 & l1 & s1 & -> & Q & Hl1).
  { unfold IPA_IPV6CT_MAX_NUM_OF_INIT_CMD_DESC. cbn [length]. destruct (wan_coal_ep =? -1); lia. }
  cbn [mbind option_bind]. assert (Hfail : forall e s2, e <> 0 -> quiet s s2 -> forall l, exists r s',
    Some (e, destroy_imm_cmd l s2) = Some (r, s') /\ ctx s' = ctx s
    /\ k_dma (world s') = k_dma (world s) /\ k_nat_hw (world s') = k_nat_hw (world s)
    /\ k_ct_hw (world s') = (if r =? 0 then Some (ct_init_payload cmd) else k_ct_hw (world s))).
  { intros e s2 He Hq l. eexists e, _. split; [done|]. rewrite (proj2 (Z.eqb_neq _ _) He).
    by assert (quiet s (destroy_imm_cmd l s2)) as (D1 & _ & D2 & D3 & D4)
      by (etrans; [exact Hq|apply destroy_quiet]). }
  destruct (Z.eqb_spec r1 0) as [Hr1|Hr1]; cbn [negb]; [|by apply (Hfail r1 s1 Hr1)].
  destruct (Nat.leb_spec IPA_IPV6CT_MAX_NUM_OF_INIT_CMD_DESC (length l1)) as [?|Hb];
    [by apply (Hfail (- ENOBUFS) s1)|].
  destruct (build_cmds_spec IPA_IPV6CT_MAX_NUM_OF_INIT_CMD_DESC
    [(IPA_IMM_CMD_IP_V6_CT_INIT, params_ct_init cmd, - EPERM)]
    [mk_pyld OP_CT_INIT 24 (ct_init_payload cmd)] l1 s1) as (r2 & l2 & s2 & -> & P & Hl2).
  { repeat constructor; [by apply (ct_init_constructs cfg_supported)|done]. }
  { cbn [length]. lia. }
  cbn [mbind option_bind]. assert (quiet s s2) as Hq by (by etrans; [exact Q|]).
  destruct (Z.eqb_spec r2 0) as [Hr2|Hr2]; cbn [negb]; [|by apply (Hfail r2 s2 Hr2)].
  rewrite (Hl2 Hr2), (Hl1 Hr1), app_nil_l.
  destruct (send_destroy_spec s2 (pre ++ [mk_pyld OP_CT_INIT 24 (ct_init_payload cmd)])
    (pre ++ [mk_pyld OP_CT_INIT 24 (ct_init_payload cmd)])) as (r & s' & -> & H1 & H2 & H3 & H5).
  exists r, s'. destruct Hq as (C1 & _ & C2 & C3 & C4). do 3 (split; [congruence|]).
  rewrite H3, H5, !last_cmd_app, !(last_cmd_inert _ pre) by auto.
  rewrite C3, C4. by destruct (r =? 0).
Qed.

Lemma check_ct_total s nmi off n : cm_is_ipv6ct_mem (ipv6ct_mem (ctx s)) = true ->
  IPA_HW_v4_0 <= ipa_hw_type ->
  is_Some (ipa3_nat_ipv6ct_check_table_params s DEV_IPV6CT nmi off n IPAHAL_NAT_IPV6CT).
Proof.
  intros Hd H4. unfold ipa3_nat_ipv6ct_check_table_params. cbn [device]. rewrite Hd.
  cbn [mbind option_bind]. destruct (_ <? off); [done|].
  rewrite (proj2 (entry_size_v4 _ cfg_supported H4)). cbn [mbind option_bind negb Z.eqb].
  by repeat case_match.
Qed.

Lemma ct_init_cmd_ok s init : driver_ok s -> answers (ipa3_ipv6ct_init_cmd s init).
Proof.
  intros Hok. pose proof (proj1 Hok) as Hf. unfold ipa3_ipv6ct_init_cmd.
  refuse. apply Z.ltb_ge in H. destruct (fl_ct _ Hf) as (_ & _ & Hd).
  rewrite (proj2 (Z.leb_le _ _) H) in Hd. refuse. refuse. refuse.
  destruct (check_ct_total s IPA_NAT_MEM_IN_DDR (v6_base_table_offset init)
    (v6_table_entries init + 1) Hd H) as [r1 ->]. cbn [mbind option_bind]. refuse.
  destruct (check_ct_total s IPA_NAT_MEM_IN_DDR (v6_expn_table_offset init)
    (v6_expn_table_entries init) Hd H) as [r2 ->]. cbn [mbind option_bind]. refuse.
  match goal with |- context [ipa3_ipv6ct_send_init_cmd s ?cmd] =>
    destruct (send_ct_init_spec s cmd H) as (r3 & s3 & -> & R3%reshaped_same & D3 & N3 & _) end.
  cbn [mbind option_bind]. assert (Hok3 : driver_ok s3) by by apply (reshaped_ok s).
  refuse. unfold ipa3_nat_ipv6ct_init_device_structure. cbn [device].
  destruct (fl_ct _ (proj1 Hok3)) as (_ & _ & ->). rewrite (proj2 (Z.leb_le _ _) H).
  cbn [mbind option_bind]. apply answers_now. by eapply (ct_device_ok s3).
Qed.

Lemma view_ok_ct_gone v dma hw h n :
  view_ok v dma hw -> dv_ct v = Some (h, n) -> view_ok (v <| dv_ct := None |>) (delete h dma) hw.
Proof.
  intros [] Hd. split; cbn; try done.
  apply (own_free _ _ h n). eapply own_perm; [|exact vo_own]. unfold view_owned. cbn. rewrite Hd.
  cbn. rewrite app_nil_r, app_assoc. symmetry. apply Permutation_cons_append.
Qed.

Lemma del_ct_ok s del : driver_ok s -> answers (ipa3_del_ipv6ct_table s del).
Proof.
  intros Hok. unfold ipa3_del_ipv6ct_table. refuse. refuse. apply Z.ltb_ge in H0.
  match goal with |- answers ('(_, _) ← ?p; _) => assert (exists r s1, p = Some (r, s1) /\ driver_ok s1)
    as (r & s1 & -> & Hok1) end.
  { destruct (cm_is_hw_init _); [|by exists 0, s]. unfold ipa3_ipv6ct_send_del_table_cmd.
    destruct (ipa3_nat_ipv6ct_create_del_table_cmd _ _ _ _) as [r t].
    destruct (negb (r =? 0)); [by exists r, s|].
    destruct (send_ct_init_spec s t H0) as (r3 & s3 & -> & R3%reshaped_same & D3 & N3 & _).
    exists r3, s3. split; [done|]. by apply (reshaped_ok s). }
  cbn [mbind option_bind]. refuse. unfold ipa3_nat_ipv6ct_free_mem. cbn [device].
  pose proof Hok1 as [Hf1 Hv1]. destruct (fl_ct _ Hf1) as (F1 & F2 & F3). rewrite F3.
  rewrite (proj2 (Z.leb_le _ _) H0). cbn [mbind option_bind]. apply answers_now.
  destruct (Z.eqb_spec (cm_vaddr (ipv6ct_mem (ctx s1))) NULL) as [Hn|Hn].
  - eapply (ct_device_ok s1); try done. unfold view_ct, behind. by rewrite Hn.
  - set (d := ipv6ct_mem (ctx s1)) in *.
    destruct (dma_free_gone (cm_table_alloc_size d) (cm_vaddr d) (cm_dma_handle d) (world s1))
      as (G1 & G2 & _).
    split; [destruct Hf1; by split|]. cbn [with_device world].
    match goal with |- view_ok (view_of ?s') _ _ =>
      change (view_of s') with (view_of s1 <| dv_ct := None |>);
      change (world s') with (k_dma_free_coherent (cm_table_alloc_size d) (cm_vaddr d)
        (cm_dma_handle d) (world s1)) end.
    rewrite G1, G2. eapply (view_ok_ct_gone (view_of s1)); [exact Hv1|]. cbn. unfold view_ct.
    by rewrite behind_Some.
Qed.

(** ** The NAT block *)

(** The tables the hardware is left with before their memory is freed. *)
Lemma del_cmd_tmp (t : ipahal_imm_cmd_nat_ipv6ct_init_common) h :
  base_table_addr t = h -> expansion_table_addr t = h -> base_table_addr_shared t = false ->
  expansion_table_addr_shared t = false -> size_base_table t = 0 -> size_expansion_table t = 0 ->
  0 <= h < 2 ^ 32 ->
  nat_in_buffer (nat_init_payload (mk_nat_init t h h false false 0)) h IPA_NAT_IPV6CT_TEMP_MEM_SIZE.
Proof.
  intros H1 H2 H3 H4 H5 H6 Hh. split.
  - rewrite ni_types_read. cbn. rewrite H3, H4. by repeat constructor.
  - unfold nat_table_ranges, ranges_in, IPA_NAT_IPV6CT_TEMP_MEM_SIZE.
    rewrite ni_rules_read, ni_expn_rules_read, ni_index_read, ni_index_expn_read, ni_size_read,
      ni_expn_size_read.
    cbn [nat4_table_init index_table_addr index_table_expansion_addr]. rewrite H1, H2, H5, H6.
    rewrite !(Z.mod_small h), !Z.mod_0_l by lia. rewrite !Forall_cons, Forall_nil.
    cbn [fst snd]. lia.
Qed.

Lemma send_del_ok s i : driver_ok s -> exists r s', ipa3_nat_send_del_table_cmd s i = Some (r, s')
  /\ driver_ok s' /\ (r = 0 -> hw_off_ddr (view_of s') (k_nat_hw (world s'))).
Proof.
  intros Hok. pose proof Hok as [Hf Hv]. unfold ipa3_nat_send_del_table_cmd.
  unfold ipa3_nat_ipv6ct_create_del_table_cmd. cbn [device].
  destruct (negb (IPA_VALID_TBL_INDEX i)); [by exists (- EPERM), s|].
  destruct (fl_nat _ Hf) as (_ & _ & _ & _ & [t Ht]).
  pose proof (vo_tmp _ _ _ Hv) as Htmp. cbn in Htmp. unfold view_tmp in Htmp. rewrite Ht in *.
  rewrite (u32_small _ Htmp). cbn [negb Z.eqb].
  match goal with |- context [ipa3_nat_send_init_cmd s ?x true] => set (cmd := x) end.
  assert (Hb : nat_in_buffer (nat_init_payload cmd) (dv_tmp (view_of s)) IPA_NAT_IPV6CT_TEMP_MEM_SIZE).
  { cbn [dv_tmp view_of]. unfold view_tmp. rewrite Ht. by apply del_cmd_tmp. }
  destruct (send_nat_init_spec s cmd true) as (r & s' & -> & R & D & N). exists r, s'.
  split; [done|]. destruct (Z.eqb_spec r 0) as [Hr|Hr].
  - split; [eapply driver_ok_hw; try done; by right; left|].
    intros _ d Hd. rewrite N in Hd. injection Hd as <-. right. by rewrite (proj1 R).
  - by split; [apply (reshaped_ok s)|].
Qed.

(** A driver that has not initialised the NAT block has not given it DDR. *)
Lemma not_init_hw_off v dma hw : view_ok v dma hw -> dv_hw_init v = false -> hw_off_ddr v hw.
Proof.
  intros [] Hi d Hd. destruct (vo_hw d Hd) as [?|[?|(h & n & _ & _ & ?)]]; [by left|by right|congruence].
Qed.

Lemma free_pdn_ok s : driver_ok s -> driver_ok (free_pdn_mem s)
  /\ (hw_off_ddr (view_of s) (k_nat_hw (world s)) ->
      hw_off_ddr (view_of (free_pdn_mem s)) (k_nat_hw (world (free_pdn_mem s)))).
Proof.
  intros [Hf Hv]. unfold free_pdn_mem.
  destruct (_ && _) eqn:Eb; [|done]. apply andb_true_iff in Eb as [_ Eb%negb_true_iff%Z.eqb_neq].
  set (pdn := nm_pdn_mem (nm s)) in *.
  destruct (dma_free_gone (mb_size pdn) (mb_base pdn) (mb_phys_base pdn) (world s)) as (G1 & G2 & _).
  set (s' := with_nm _ _).
  assert (Hw : world s' = k_dma_free_coherent (mb_size pdn) (mb_base pdn) (mb_phys_base pdn) (world s))
    by done.
  assert (Hs' : view_of s' = view_of s <| dv_pdn := None |>) by done.
  rewrite Hs', Hw, G2. split; [|done]. split; [destruct Hf; by split|]. rewrite Hs', Hw, G1, G2.
  destruct Hv. split; cbn; try done.
  apply (own_free _ _ (mb_phys_base pdn) (mb_size pdn)). eapply own_perm; [|exact vo_own].
  unfold view_owned. cbn. unfold view_pdn. rewrite behind_Some by done. cbn.
  destruct (view_ddr (ddr s)); cbn; [|apply perm_swap].
  etrans; [|apply perm_swap]. constructor. apply perm_swap.
Qed.

(** No table is allocated. *)
Definition cleared v : dview :=
  v <| dv_hw_init := false |> <| dv_ddr := None |> <| dv_ddr_in_use := false |>
    <| dv_ddr_mapped := false |> <| dv_sram := None |> <| dv_sram_in_use := false |>
    <| dv_sram_mapped := false |>.

Definition without_ddr v (dma : gmap Z Z) : gmap Z Z :=
  match dv_ddr v with Some (h, _) => delete h dma | None => dma end.

Lemma view_ok_cleared v dma hw :
  view_ok v dma hw -> hw_off_ddr v hw -> view_ok (cleared v) (without_ddr v dma) hw.
Proof.
  intros [] Hoff. split; cbn; try done.
  - unfold without_ddr. destruct (dv_ddr v) as [[h n]|] eqn:Ed.
    + apply (own_free _ _ h n). eapply own_perm; [|exact vo_own]. unfold view_owned. rewrite Ed.
      cbn. apply perm_swap.
    + unfold view_owned in *. cbn. by rewrite Ed in vo_own.
  - intros d Hd. destruct (Hoff d Hd); [by left|by right; left].
Qed.

Lemma free_nat_ddr_spec s : driver_ok s -> exists s', free_nat_ddr s = Some s'
  /\ ctx s' = ctx s <| nat_mem := nm s <| nm_ddr_in_use := false |> |>
  /\ k_dma (world s') = without_ddr (view_of s) (k_dma (world s))
  /\ k_nat_hw (world s') = k_nat_hw (world s).
Proof.
  intros Hok. unfold free_nat_ddr, without_ddr. cbn [dv_ddr view_of].
  destruct (nm_ddr_in_use (nm s)) eqn:Eu.
  - rewrite (loc_lookup s IPA_NAT_MEM_IN_DDR (fl_locs _ (proj1 Hok))) by auto.
    cbn [mbind option_bind]. fold (ddr s). unfold view_ddr, behind.
    destruct (Z.eqb_spec (ml_vaddr (ddr s)) NULL) as [Hn|Hn]; eexists; (split; [done|]); [done|].
    split; [done|]. cbn.
    destruct (dma_free_gone (ml_table_alloc_size (ddr s)) (ml_vaddr (ddr s)) (ml_dma_handle (ddr s))
      (world s)) as (G1 & G2 & _). done.
  - rewrite (view_ddr_none s Hok Eu). exists s. split; [done|]. split; [|done].
    unfold nm in *. destruct s as [[[] ct sr] t k]. cbn in *. by subst.
Qed.

Lemma free_nat_sram_spec s : lengthZ (nm_mem_loc (nm s)) = 2 -> exists s', free_nat_sram s = Some s'
  /\ ctx s' = ctx s <| nat_mem := nm s <| nm_sram_in_use := false |> |>
  /\ same_ghost (world s) (world s').
Proof.
  intros Hl. unfold free_nat_sram. destruct (nm_sram_in_use (nm s)) eqn:Eu.
  - rewrite (loc_lookup s IPA_NAT_MEM_IN_SRAM Hl) by auto. cbn [mbind option_bind].
    destruct (_ =? NULL); eexists; (split; [done|]); [done|]. split; [done|]. apply iounmap_ghost.
  - exists s. split; [done|]. split; [|done]. unfold nm in *. destruct s as [[[] ct sr] t k].
    cbn in *. by subst.
Qed.

Lemma free_nat_mem_ok s : driver_ok s -> hw_off_ddr (view_of s) (k_nat_hw (world s)) ->
  exists s', ipa3_nat_ipv6ct_free_mem s DEV_NAT = Some s' /\ driver_ok s'
    /\ view_of s' = cleared (view_of s)
    /\ k_dma (world s') = without_ddr (view_of s) (k_dma (world s)).
Proof.
  intros Hok Hoff. pose proof Hok as [Hf Hv]. unfold ipa3_nat_ipv6ct_free_mem. cbn [device].
  destruct (fl_nat _ Hf) as (_ & -> & -> & _).
  destruct (free_nat_ddr_spec s Hok) as (s1 & -> & C1 & D1 & N1). cbn [mbind option_bind].
  assert (Hn1 : nm s1 = nm s <| nm_ddr_in_use := false |>) by (unfold nm; by rewrite C1).
  destruct (free_nat_sram_spec s1) as (s2 & -> & C2 & D2 & N2 & _).
  { rewrite Hn1. apply (fl_locs _ Hf). }
  cbn [mbind option_bind].
  assert (Hn2 : nm s2 = nm s1 <| nm_sram_in_use := false |>) by (unfold nm; by rewrite C2).
  eexists. split; [done|]. set (s' := with_nm _ _).
  assert (Hw : world s' = world s2) by done.
  assert (Hs' : view_of s' = cleared (view_of s)).
  { unfold s', view_of. cbn. fold (nm s2). by rewrite Hn2, C2, C1, Hn1. }
  rewrite Hs', Hw, D2. split; [|done]. split.
  - destruct Hf. split; cbn; fold (nm s2); rewrite ?Hn2, ?C2, ?C1, ?Hn1; done.
  - rewrite Hs', Hw, D2, N2, D1, N1. by apply view_ok_cleared.
Qed.

(** ** What a deletion frees *)

Definition without_pdn v (dma : gmap Z Z) : gmap Z Z :=
  match dv_pdn v with Some (h, _, _) => delete h dma | None => dma end.

Lemma free_pdn_spec s : IPA_HW_v4_0 <= ipa_hw_type ->
  view_of (free_pdn_mem s) = view_of s <| dv_pdn := None |>
  /\ k_dma (world (free_pdn_mem s)) = without_pdn (view_of s) (k_dma (world s)).
Proof.
  intros H4. unfold free_pdn_mem, without_pdn. rewrite (proj2 (Z.leb_le _ _) H4).
  cbn [andb dv_pdn view_of]. unfold view_pdn, behind.
  set (pdn := nm_pdn_mem (nm s)).
  destruct (Z.eqb_spec (mb_base pdn) NULL) as [Hb|Hb]; cbn [negb].
  - split; [|done]. unfold view_of, view_pdn, behind. fold pdn. by rewrite Hb.
  - destruct (dma_free_gone (mb_size pdn) (mb_base pdn) (mb_phys_base pdn) (world s)) as (G1 & _).
    by split.
Qed.

(** The hardware is pointed away from the tables. *)
Lemma del_send_ok s i : driver_ok s -> exists r s1,
  (if cm_is_hw_init (device s DEV_NAT) then ipa3_nat_send_del_table_cmd s i else Some (0, s))
    = Some (r, s1)
  /\ driver_ok s1 /\ (r = 0 -> hw_off_ddr (view_of s1) (k_nat_hw (world s1)))
  /\ view_of s1 = view_of s /\ k_dma (world s1) = k_dma (world s).
Proof.
  intros Hok. destruct (cm_is_hw_init (device s DEV_NAT)) eqn:Ei.
  - destruct (send_del_ok s i Hok) as (r & s1 & Hs & Hok1 & Hoff).
    exists r, s1. split; [done|]. split; [done|]. split; [done|].
    revert Hs. unfold ipa3_nat_send_del_table_cmd.
    destruct (ipa3_nat_ipv6ct_create_del_table_cmd _ _ _ _) as [r0 t].
    destruct (negb (r0 =? 0)); [by intros [= _ <-]|].
    match goal with |- ipa3_nat_send_init_cmd s ?x true = _ -> _ =>
      destruct (send_nat_init_spec s x true) as (r2 & s2 & -> & R2 & D2 & _) end.
    intros [= _ <-]. split; [apply R2|done].
  - exists 0, s. split; [done|]. split; [done|]. split; [|done]. intros _.
    by apply (not_init_hw_off _ _ _ (proj2 Hok)).
Qed.

(** A deletion that succeeds forgets both locations and frees the DDR and the
    PDN buffer. *)
Definition del_frees s s' : Prop :=
  view_of s' = cleared (view_of s <| dv_pdn := None |>)
  /\ k_dma (world s') = without_ddr (view_of s) (without_pdn (view_of s) (k_dma (world s))).

Lemma del_nat_run s del : driver_ok s -> exists r s', ipa3_del_nat_table s del = Some (r, s')
  /\ driver_ok s' /\ (r = 0 -> IPA_HW_v4_0 <= ipa_hw_type -> del_frees s s').
Proof.
  intros Hok. unfold ipa3_del_nat_table.
  set (nmi := if sram_compatible (ctx s) then _ else _). cbn zeta.
  destruct (negb _); [by eexists _, s|]. destruct (negb _); [by eexists _, s|].
  destruct (IPA_VALID_NAT_MEM_IN nmi) eqn:En; [|by eexists _, s].
  apply valid_mem_in in En. cbn [negb].
  destruct (del_send_ok s (del_table_index del) Hok) as (r & s1 & -> & Hok1 & Hoff & V1 & D1).
  cbn [mbind option_bind]. destruct (Z.eqb_spec r 0) as [Hr|Hr]; cbn [negb]; [|by eexists r, s1].
  specialize (Hoff Hr). rewrite (loc_lookup s1 nmi (fl_locs _ (proj1 Hok1)) En).
  cbn [mbind option_bind]. set (s2 := with_nm s1 (nm s1 <| nm_public_ip_addr := 0 |>)).
  set (s3 := with_loc s2 nmi _).
  assert (R : reshaped s1 s3).
  { etrans; [apply public_ip_reshaped|]. apply (reshaped_loc s2); try done.
    apply public_ip_reshaped, Hok1. }
  assert (Hok3 : driver_ok s3) by by apply (reshaped_ok s1).
  destruct (free_pdn_ok s3 Hok3) as [Hok4 Hoff4].
  destruct (free_nat_mem_ok _ Hok4) as (s5 & -> & Hok5 & V5 & D5).
  { apply Hoff4. by rewrite (proj1 R). }
  eexists _, _. split; [reflexivity|]. split; [done|]. intros _ H4. unfold del_frees.
  destruct (free_pdn_spec s3 H4) as [V4 D4].
  rewrite V5, D5, V4, D4, (proj1 R), V1. change (world s3) with (world s1). by rewrite D1.
Qed.

Lemma del_nat_ok s del : driver_ok s -> answers (ipa3_del_nat_table s del).
Proof.
  intros Hok. destruct (del_nat_run s del Hok) as (r & s' & -> & H & _). by apply answers_now.
Qed.

(** All DMA memory in use is the driver's. *)
Definition no_leak s : Prop :=
  forall h n, k_dma (world s) !! h = Some n -> (h, n) ∈ view_owned (view_of s).

Lemma del_no_leak s s' : driver_ok s -> no_leak s -> del_frees s s' -> no_leak s'.
Proof.
  intros [_ Hv] Hl [V D] h n. rewrite D, V. intros Hh.
  pose proof (vo_own _ _ _ Hv) as [_ Hown]. rewrite Forall_forall in Hown.
  unfold without_ddr, without_pdn in Hh. unfold no_leak, view_owned in Hl. unfold view_owned.
  assert (Hh0 : k_dma (world s) !! h = Some n).
  { revert Hh. destruct (dv_ddr (view_of s)) as [[hd nd]|], (dv_pdn (view_of s)) as [[[hp np] lp]|];
      rewrite ?lookup_delete_Some; naive_solver. }
  specialize (Hl _ _ Hh0). cbn [cleared dv_tmp dv_ddr dv_pdn dv_ct]. 
  rewrite elem_of_cons, !elem_of_app in Hl.
  destruct Hl as [Hl|[Hl|[Hl|Hl]]]; [rewrite Hl; by left| | |set_solver]; exfalso.
  - destruct (dv_ddr (view_of s)) as [[hd nd]|]; [|set_solver].
    apply list_elem_of_singleton in Hl as [= <- <-]. by rewrite lookup_delete_eq in Hh.
  - destruct (dv_pdn (view_of s)) as [[[hp np] lp]|]; [|set_solver].
    apply list_elem_of_singleton in Hl as [= <- <-].
    destruct (dv_ddr (view_of s)) as [[hd nd]|]; rewrite ?lookup_delete_Some, ?lookup_delete_eq in Hh;
      naive_solver.
Qed.
End Release.
