(* ===== verification/KReach.v ===== *)
(** * Every run of the kernel's NAT driver

    The driver starts with [ipa3_nat_ipv6ct_init_devices]; after that user
    space asks for ioctls and mappings in any order, with any numbers of the C
    types.  Every request is answered and leaves the invariant intact. *)
From S2P Require Import Prelude Bitfield Table Env RecordUpdate KernelEnv Hal HalCmd KernelLaws.
From S2P Require Import KNat KNatOps KIoctl KSend KUser KInv KAlloc KInit KHandlers KRelease.

Section Reach.
Context {c : ipa3_config} {K : Type} {E : KernelEnv K} {G : KernelGhost K}.
Context {laws : KernelLaws K} {ok : ConfigOk}.
Implicit Types (s : kst K) (k : K).

(** ** Start *)

(** What a device that was initialised looks like. *)
Definition inited (d : nat_device) (name : string) (size ofst : Z) (t : ipa3_nat_ipv6ct_tmp_mem)
    (x : ipa3_nat_ipv6ct_common_mem) : ipa3_nat_ipv6ct_common_mem :=
  x <| cm_is_nat_mem := (match d with DEV_NAT => true | DEV_IPV6CT => false end) |>
    <| cm_is_ipv6ct_mem := (match d with DEV_NAT => false | DEV_IPV6CT => true end) |>
    <| cm_name := name |> <| cm_tmp_mem := Some t |> <| cm_phys_mem_size := size |>
    <| cm_phys_mem_ofst := ofst |> <| cm_is_dev_init := true |>.

Lemma world_with_device s d x : world (with_device s d x) = world s.
Proof. by destruct d. Qed.

Lemma init_device_spec s d name size ofst t s' :
  ipa3_nat_ipv6ct_init_device s d name size ofst t = (0, s') ->
  ctx s' = ctx (with_device s d (inited d name size ofst t (device s d)))
  /\ same_ghost (world s) (world s').
Proof.
  unfold ipa3_nat_ipv6ct_init_device.
  destruct (_ <=? _)%nat; [done|].
  rewrite !world_with_device.
  pose proof (class_create_ghost name (world s)) as G1.
  destruct (k_class_create name (world s)) as [[] k1]; cbn [negb snd] in *; [|done].
  pose proof (chrdev_ghost name k1) as G2.
  destruct (k_alloc_chrdev_region name k1) as [r2 k2]; cbn [snd] in *. destruct (r2 =? 0); [|done].
  pose proof (device_create_ghost name k2) as G3.
  destruct (k_device_create name k2) as [[] k3]; cbn [negb snd] in *; [|done].
  pose proof (cdev_ghost name k3) as G4.
  destruct (k_cdev_add name k3) as [r4 k4]; cbn [snd] in *.
  destruct (Z.eqb_spec r4 0) as [->|Hr]; cbn [negb]; [|by intros [= ? _]].
  intros [= <-]. split; [by destruct d|].
  rewrite world_with_device.
  etrans; [exact G1|]. etrans; [exact G2|]. etrans; [exact G3|exact G4].
Qed.

Lemma fail_init_inv s t r s' : r <> 0 -> fail_init_nat_dev s t r = (0, s') -> False.
Proof. unfold fail_init_nat_dev. destruct (nm_is_tmp_mem_allocated _); intros ? [= ? _]; done. Qed.

(** What the driver's state is after it was loaded. *)
Definition loaded (t : ipa3_nat_ipv6ct_tmp_mem) : ipa3_context :=
  let nat := nat_mem_zero <| nm_is_tmp_mem_allocated := true |>
    <| nm_dev := inited DEV_NAT IPA_NAT_DEV_NAME IPA_NAT_PHYS_MEM_SIZE IPA_NAT_PHYS_MEM_OFFSET t
                   common_mem_zero |> in
  let ct := if ipa_hw_type <? IPA_HW_v4_0 then common_mem_zero
            else inited DEV_IPV6CT IPA_IPV6CT_DEV_NAME IPA_IPV6CT_PHYS_MEM_SIZE
                   IPA_IPV6CT_PHYS_MEM_OFFSET t common_mem_zero in
  mk_context nat ct false.

Lemma init_devices_spec m k s :
  ipa3_nat_ipv6ct_init_devices (mk_kst context_init m k) = (0, s) ->
  exists t, ctx s = loaded t /\ 0 <= tmp_dma_handle t
    /\ k_dma (world s) !! tmp_dma_handle t = Some IPA_NAT_IPV6CT_TEMP_MEM_SIZE
    /\ k_nat_hw (world s) = k_nat_hw k.
Proof.
  unfold ipa3_nat_ipv6ct_init_devices, ipa3_nat_ipv6ct_allocate_tmp_memory. cbn [world].
  pose proof (kzalloc_ghost 16 k) as G0.
  destruct (k_kzalloc 16 k) as [[] k0]; cbn [negb snd] in *; [|done].
  destruct (k_dma_alloc_coherent _ k0) as [[[v h]|] k1] eqn:Ea; [|done].
  destruct (dma_alloc_fresh _ _ _ _ _ Ea) as (_ & H0 & _ & _ & D1 & N1 & _).
  set (t := mk_tmp_mem v h). set (s1 := with_nm _ _).
  destruct (ipa3_nat_ipv6ct_init_device s1 DEV_NAT _ _ _ t) as [r2 s2] eqn:E2.
  destruct (Z.eqb_spec r2 0) as [->|Hr2]; cbn [negb]; [|by intros ?%fail_init_inv].
  apply init_device_spec in E2 as (C2 & D2 & N2 & _).
  assert (Hs1 : k_dma (world s1) = <[h := IPA_NAT_IPV6CT_TEMP_MEM_SIZE]> (k_dma k0)
                /\ k_nat_hw (world s1) = k_nat_hw k).
  { change (world s1) with k1. destruct G0 as (_ & G0 & _). by rewrite D1, N1, G0. }
  destruct Hs1 as [Dk Nk]. unfold loaded.
  destruct (ipa_hw_type <? IPA_HW_v4_0).
  - intros [= <-]. exists t. rewrite D2, Dk, N2. split; [by rewrite C2|].
    split; [done|]. by rewrite lookup_insert_eq.
  - destruct (ipa3_nat_ipv6ct_init_device s2 DEV_IPV6CT _ _ _ t) as [r3 s3] eqn:E3.
    destruct (Z.eqb_spec r3 0) as [->|Hr3]; cbn [negb]; [|by intros ?%fail_init_inv].
    apply init_device_spec in E3 as (C3 & D3 & N3 & _).
    intros [= <-]. exists t. rewrite D3, N3, D2, Dk, N2. split; [|split; [done|by rewrite lookup_insert_eq]].
    rewrite C3. unfold with_device. cbn. by rewrite C2.
Qed.

(** The temporary memory is addressed by 32 bits: the handle is truncated to
    them when the tables are deleted. *)
Definition tmp_low s : Prop := view_tmp (nm_dev (nm s)) < 2 ^ 32.

Lemma loaded_ok m k s :
  ipa3_nat_ipv6ct_init_devices (mk_kst context_init m k) = (0, s) ->
  k_nat_hw k = None -> tmp_low s -> driver_ok s.
Proof.
  intros Hi Hk Hlow. destruct (init_devices_spec m k s Hi) as (t & Hc & H0 & D & N).
  assert (Hn : nm s = nat_mem (loaded t)) by (unfold nm; by rewrite Hc).
  unfold tmp_low in Hlow. rewrite Hn in Hlow. cbn in Hlow. unfold view_tmp in Hlow. cbn in Hlow.
  split.
  - split; rewrite ?Hn, ?Hc; cbn; [done| |].
    + done.
    + rewrite Z.ltb_antisym. by destruct (IPA_HW_v4_0 <=? ipa_hw_type).
  - assert (Hv : view_of s = mk_dview (tmp_dma_handle t) false None false false None false false 0 None None).
    { unfold view_of, ddr, sram, loc. rewrite Hn, Hc. cbn. by destruct (ipa_hw_type <? IPA_HW_v4_0). }
    rewrite Hv, N, Hk. split; cbn; try done.
    + split; [by apply NoDup_singleton|]. by constructor.
    + by left.
Qed.

(** ** Requests *)

(** The C types of a request: offsets and counts are unsigned; the array of a
    DMA command has as many elements as its header says. *)
Definition wf_request (req : nat_ioctl) : Prop :=
  match req with
  | IPA_IOC_V4_INIT_NAT init => wf_nat_init init
  | IPA_IOC_TABLE_DMA_CMD hdr_entries cmd => hdr_entries <= lengthZ (raw_dma cmd)
  | IPA_IOC_NAT_MODIFY_PDN entry => 0 <= ioc_pdn_index entry
  | _ => True
  end.

(** A system call that is answered and keeps the invariant. *)
Definition serves (f : option (Z * nat_ioctl_out * kst K)) : Prop :=
  exists r out s', f = Some (r, out, s') /\ driver_ok s'.

Lemma serves_now r out s : driver_ok s -> serves (Some (r, out, s)).
Proof. intros H. by exists r, out, s. Qed.

Lemma finish_ioctl_ok h : answers h -> serves (finish_ioctl h).
Proof.
  intros (r & s & -> & Hok). unfold finish_ioctl, efault. cbn [mbind option_bind].
  destruct (r =? 0); by apply serves_now.
Qed.

Lemma world_ok s k : same_ghost (world s) k -> driver_ok s -> driver_ok (s <| world := k |>).
Proof. intros Hg. by apply driver_ok_same. Qed.

(** The results are copied to user space, or not. *)
Lemma copy_out_ok s out : driver_ok s ->
  serves (let '(fails, k) := k_copy_to_user (world s) in
          let s := s <| world := k |> in
          if fails then efault s else Some (0, out, s)).
Proof.
  intros Hok. pose proof (copy_to_ghost (world s)) as Hg.
  destruct (k_copy_to_user (world s)) as [b k]. cbn [snd] in Hg.
  unfold efault. destruct b; apply serves_now; by apply world_ok.
Qed.

Lemma finish_alloc_ok offset h : answers h -> serves (finish_alloc offset h).
Proof.
  intros (r & s & -> & Hok). unfold finish_alloc. cbn [mbind option_bind].
  destruct (negb _); [by apply serves_now|]. destruct (offset =? 0); [by apply serves_now|].
  by apply copy_out_ok.
Qed.

Lemma sram_info_ok s : driver_ok s -> driver_ok (ipa3_nat_get_sram_info s).2.
Proof.
  intros [[] Hv]. unfold ipa3_nat_get_sram_info. destruct (negb _); [by split|].
  by split; [split|].
Qed.

Lemma kfree_ok s : driver_ok s -> driver_ok (s <| world := k_kfree (world s) |>).
Proof. apply world_ok, kfree_ghost. Qed.

Lemma table_dma_ioctl_ok s hdr cmd :
  driver_ok s -> hdr <= lengthZ (raw_dma cmd) -> serves (table_dma_ioctl s hdr cmd).
Proof.
  intros Hok Hlen. unfold table_dma_ioctl, efault.
  pose proof (kzalloc_ghost (4 + hdr * 12) (world s)) as G1.
  destruct (k_kzalloc _ (world s)) as [b1 k1]. cbn [snd] in G1.
  apply (world_ok s k1) in Hok as Hok1; [|exact G1]. set (s1 := s <| world := k1 |>) in *.
  destruct b1; cbn [negb]; [|by apply serves_now].
  pose proof (copy_from_ghost (world s1)) as G2.
  destruct (k_copy_from_user (world s1)) as [b2 k2]. cbn [snd] in G2.
  apply (world_ok s1 k2) in Hok1 as Hok2; [|exact G2]. set (s2 := s1 <| world := k2 |>) in *.
  destruct b2.
  { apply serves_now. exact (kfree_ok s2 Hok2). }
  destruct (Z.eqb_spec (raw_entries cmd) hdr) as [Hh|Hh]; cbn [negb]; cycle 1.
  { apply serves_now. by apply kfree_ok. }
  destruct (finish_ioctl_ok (ipa3_table_dma_cmd s2 (mk_dma_cmd_raw (raw_entries cmd)
    (raw_mem_type cmd) (take (Z.to_nat hdr) (raw_dma cmd))))) as (r & out & s3 & -> & Hok3).
  { apply table_dma_cmd_ok; [done|]. cbn. unfold lengthZ in *. rewrite length_take. lia. }
  cbn [mbind option_bind]. apply serves_now. by apply kfree_ok.
Qed.


Lemma ioctl_ok s req : driver_ok s -> wf_request req -> serves (ipa3_ioctl s req).
Proof.
  intros Hok Hreq. pose proof (copy_from_ghost (world s)) as Hg.
  destruct (k_copy_from_user (world s)) as [b k] eqn:Ec. cbn [snd] in Hg.
  apply (world_ok s k) in Hg as Hok1; [|exact Hok]. set (s1 := s <| world := k |>) in *.
  assert (Hin : forall h, serves h -> serves (if b then efault s1 else h)).
  { intros h Hh. unfold efault. destruct b; [by apply serves_now|done]. }
  destruct req; cbn [ipa3_ioctl wf_request] in *; rewrite ?Ec; cbv beta iota zeta; fold s1;
    try apply Hin.
  - unfold ipa3_allocate_nat_device.
    destruct (allocate_nat_table_ok s1 size Hok1) as (r & s2 & -> & Hok2). unfold efault.
    cbn [mbind option_bind]. destruct (negb _); [by apply serves_now|]. by apply copy_out_ok.
  - by apply finish_alloc_ok, allocate_nat_table_ok.
  - by apply finish_alloc_ok, allocate_ct_table_ok.
  - by apply finish_ioctl_ok, nat_init_cmd_ok.
  - by apply finish_ioctl_ok, ct_init_cmd_ok.
  - by apply table_dma_ioctl_ok.
  - by apply finish_ioctl_ok, del_nat_ok.
  - by apply finish_ioctl_ok, del_nat_ok.
  - by apply finish_ioctl_ok, del_ct_ok.
  - by apply finish_ioctl_ok, mdfy_pdn_ok.
  - unfold proc_sram_info_rqst. pose proof (sram_info_ok s Hok) as Hs.
    destruct (ipa3_nat_get_sram_info s) as [[r info] s2]. unfold efault.
    destruct (negb _); [by apply serves_now|]. by apply copy_out_ok.
Qed.

(** ** What user space sees *)

(** The statuses of a system call. *)
Definition user_status (r : Z) : Prop := r = 0 \/ r = - EFAULT \/ r = - ENOMEM.

Lemma finish_status h r out s :
  finish_ioctl h = Some (r, out, s) -> user_status r.
Proof.
  unfold finish_ioctl, efault. destruct h as [[r0 s0]|]; [|done]. cbn [mbind option_bind].
  destruct (r0 =? 0); intros [= <- _ _]; unfold user_status; auto.
Qed.

Lemma ioctl_status s req r out s' :
  ipa3_ioctl s req = Some (r, out, s') -> user_status r.
Proof.
  assert (Hcopy : forall s0 o, (let '(fails, k) := k_copy_to_user (world s0) in
    let s := s0 <| world := k |> in if fails then efault s else Some (0, o, s)) = Some (r, out, s') ->
    user_status r).
  { intros s0 o. destruct (k_copy_to_user _) as [[] k]; unfold efault; intros [= <- _ _]; unfold user_status; auto. }
  assert (Halloc : forall n h, finish_alloc n h = Some (r, out, s') ->
    user_status r).
  { intros n h. unfold finish_alloc, efault. destruct h as [[r0 s0]|]; [|done]. cbn [mbind option_bind].
    destruct (negb _); [intros [= <- _ _]; unfold user_status; auto|]. destruct (n =? 0); [intros [= <- _ _]; unfold user_status; auto|].
    apply Hcopy. }
  unfold ipa3_ioctl, efault. destruct req; try (destruct (k_copy_from_user (world s)) as [[] k];
    [intros [= <- _ _]; unfold user_status; auto|]); try apply finish_status; try apply Halloc.
  - destruct (ipa3_allocate_nat_device _ size offset) as [[[r0 o] s0]|]; [|done].
    cbn [mbind option_bind]. destruct (negb _); [intros [= <- _ _]; unfold user_status; auto|]. apply Hcopy.
  - unfold table_dma_ioctl, efault. destruct (k_kzalloc _ _) as [[] k1]; cbn [negb];
      [|intros [= <- _ _]; unfold user_status; auto].
    destruct (k_copy_from_user _) as [[] k2]; [intros [= <- _ _]; unfold user_status; auto|].
    destruct (negb _); [intros [= <- _ _]; unfold user_status; auto|].
    destruct (finish_ioctl _) as [[[r0 o] s0]|] eqn:Ef; [|done]. cbn [mbind option_bind].
    apply finish_status in Ef. by intros [= <- _ _].
  - unfold proc_sram_info_rqst, efault. destruct (ipa3_nat_get_sram_info s) as [[r0 i] s0].
    destruct (negb _); [intros [= <- _ _]; unfold user_status; auto|]. apply Hcopy.
Qed.

(** ** Runs *)

(** A request of user space, or its writing into the tables it has mapped. *)
Inductive kstep : kst K -> kst K -> Prop :=
  | step_ioctl s req r out s' :
      wf_request req -> ipa3_ioctl s req = Some (r, out, s') -> kstep s s'
  | step_mmap s d vsize r s' : ipa3_nat_ipv6ct_mmap s d vsize = Some (r, s') -> kstep s s'
  | step_write s m : kstep s (s <| tables := m |>).

Inductive reachable : kst K -> Prop :=
  | reach_load m k s :
      ipa3_nat_ipv6ct_init_devices (mk_kst context_init m k) = (0, s) ->
      k_nat_hw k = None -> tmp_low s -> reachable s
  | reach_step s s' : reachable s -> kstep s s' -> reachable s'.

Lemma kstep_ok s s' : kstep s s' -> driver_ok s -> driver_ok s'.
Proof.
  intros [s1 req r out s2 Hreq Hs|s1 d v r s2 Hs|s1 m] Hok.
  - destruct (ioctl_ok s1 req Hok Hreq) as (r' & out' & s3 & H & Hok3). congruence.
  - destruct (mmap_ok s1 d v Hok) as (r' & s3 & H & Hok3). congruence.
  - by apply (driver_ok_same s1).
Qed.

Lemma reachable_ok s : reachable s -> driver_ok s.
Proof. induction 1; [by eapply loaded_ok|]. by eapply kstep_ok. Qed.
End Reach.
