(* ===== verification/KRace.v ===== *)
(** * Two threads in the driver

    [ipa3_nat_init_cmd] and the functions that send DMA commands do not take
    the lock of the device, which allocation and deletion hold: another request
    may be served between the checks of an initialisation and the command it
    sends.  [istep] interleaves requests with the two halves of
    initialisations. *)
From S2P Require Import Prelude Bitfield Table Env RecordUpdate KernelEnv Hal HalCmd KernelLaws.
From S2P Require Import KNat KNatOps KIoctl KSend KUser KInv KAlloc KInit KHandlers KRelease.
From S2P Require Import KReach.

Section Race.
Context {c : ipa3_config} {K : Type} {E : KernelEnv K}.
Implicit Types (s : kst K) (init : ipa_ioc_v4_nat_init).

(** An initialisation that passed the checks: the request and the command. *)
Definition pending_init : Type := ipa_ioc_v4_nat_init * ipahal_imm_cmd_ip_v4_nat_init.

(** The first half of [ipa3_nat_init_cmd]: the checks and the command. *)
Definition nat_init_check s init : option (Z + pending_init) :=
  let init := nat_init_request s init in
  let nmi := v4_mem_type init in
  if negb (IPA_VALID_TBL_INDEX (v4_tbl_index init)) then Some (inl (- EPERM)) else
  if (v4_table_entries init =? 0) || (v4_table_entries init =? U16_MAX)
  then Some (inl (- EPERM)) else
  if negb (IPA_VALID_NAT_MEM_IN nmi) then Some (inl (- EPERM)) else
  m ← (nm_mem_loc (nm s)).[nmi];
  if negb (ml_is_mapped m) then Some (inl (- EPERM)) else
  result ← check_nat_tables s nmi init;
  if negb (result =? 0) then Some (inl result) else
  Some (inr (init,
    if nmi =? IPA_NAT_MEM_IN_DDR
    then ipa3_nat_create_init_cmd init false (ml_dma_handle m)
    else ipa3_nat_create_init_cmd init true nat_tbl_ofst)).

(** The second half: the command is sent and the driver's state set. *)
Definition nat_init_commit s (p : pending_init) : option (Z * kst K) :=
  let '(init, cmd) := p in
  '(result, s) ←
    (if (IPA_HW_v4_0 <=? ipa_hw_type) && negb (mb_base (nm_pdn_mem (nm s)) =? NULL)
        && negb (v4_focus_change init)
     then store_pdn s 0 (mk_pdn_fields (v4_ip_addr init) 0 0) else Some (0, s));
  if negb (result =? 0) then Some (result, s) else
  '(result, s) ← ipa3_nat_send_init_cmd s cmd false;
  if negb (result =? 0) then Some (result, s) else
  '(result, s) ← ipa3_nat_ipv6ct_init_device_structure s DEV_NAT (v4_mem_type init)
    (v4_ipv4_rules_offset init) (v4_expn_rules_offset init) (v4_table_entries init)
    (v4_expn_table_entries init) (v4_index_offset init) (v4_index_expn_offset init)
    (v4_focus_change init);
  if negb (result =? 0) then Some (result, s) else
  let s := with_nm s (nm s <| nm_public_ip_addr := v4_ip_addr init |>) in
  Some (0, with_device s DEV_NAT (device s DEV_NAT <| cm_is_hw_init := true |>)).

(** Without interference the halves are the whole. *)
Lemma nat_init_cmd_halves s init :
  ipa3_nat_init_cmd s init
  = (r ← nat_init_check s init;
     match r with inl e => Some (e, s) | inr p => nat_init_commit s p end).
Proof.
  unfold ipa3_nat_init_cmd, nat_init_check, nat_init_commit. set (init' := nat_init_request s init).
  destruct (negb _); [done|]. destruct (_ || _); [done|]. destruct (negb _); [done|].
  destruct ((nm_mem_loc (nm s)).[v4_mem_type init']) as [m|]; [|done]. cbn [mbind option_bind].
  destruct (negb _); [done|]. destruct (check_nat_tables _ _ _) as [r|]; [|done].
  cbn [mbind option_bind]. by destruct (negb _).
Qed.

(** The state and the initialisations that are under way. *)
Inductive istep : kst K * list pending_init -> kst K * list pending_init -> Prop :=
  | istep_request s s' l : kstep s s' -> istep (s, l) (s', l)
  | istep_check s init p l :
      wf_nat_init init -> nat_init_check s init = Some (inr p) -> istep (s, l) (s, p :: l)
  | istep_commit s p l1 l2 r s' :
      nat_init_commit s p = Some (r, s') -> istep (s, l1 ++ p :: l2) (s', l1 ++ l2).

(** A serial initialisation is a check and its commit. *)
Lemma init_cmd_isteps s init r s' :
  wf_nat_init init -> ipa3_nat_init_cmd s init = Some (r, s') ->
  s' = s \/ rtc istep (s, []) (s', []).
Proof.
  intros Hwf. rewrite nat_init_cmd_halves.
  destruct (nat_init_check s init) as [[e|p]|] eqn:Ec; cbn [mbind option_bind]; [|intros Hc|done].
  - intros [= _ <-]. by left.
  - right. eapply rtc_l; [by eapply istep_check|]. eapply rtc_l; [|done].
    exact (istep_commit s p [] [] r s' Hc).
Qed.
End Race.
