(* ===== verification/KCreate.v ===== *)
(** * The driver accepts a table that fits, and runs out of memory

    When Linux and the hardware cooperate, the driver serves the requests that
    create a table in DDR, and the hardware is given exactly the tables of the
    request.

    A failed allocation of a second IPv6CT table widens the bounds the first
    one is checked against; a failed allocation of the PDN table leaves the DDR
    location marked as in use. *)
From S2P Require Import Prelude Bitfield Table Env RecordUpdate KernelEnv Hal HalCmd KernelLaws.
From S2P Require Import KNat KNatOps KIoctl KSend KUser KInv KAlloc KInit KHandlers KRelease.
From S2P Require Import KReach.

(** Nothing fails: there is memory below 4 GB as long as fewer than a thousand
    buffers are in use, and the hardware does what it is told. *)
Class Cooperative (K : Type) {E : KernelEnv K} {G : KernelGhost K} : Prop := {
  coop_kzalloc n k : (k_kzalloc n k).1 = true;
  coop_copy_from k : (k_copy_from_user k).1 = false;
  coop_copy_to k : (k_copy_to_user k).1 = false;
  coop_dma n k : 0 < n <= 2 ^ 18 -> (size (k_dma k) < 1000)%nat -> exists v h k',
    k_dma_alloc_coherent n k = (Some (v, h), k') /\ h + n < 2 ^ 32;
  coop_mmap v h n m k : (k_dma_mmap_coherent v h n m k).1 = 0;
  coop_send l m k : (k_send_cmd l m k).1.1 = 0
}.

(** The register offsets and sizes of the configuration fit the commands. *)
Class ConfigFits {c : ipa3_config} : Prop := {
  fits_coal : aggr_force_close_ofst <= 0xFFFF;
  fits_coal_n i : aggr_force_close_n_ofst i <= 0xFFFF;
  fits_pdn : pdn_config_size <= 0xFFFF;
  fits_pdn_ofst : u32 (smem_restricted_bytes + pdn_config_ofst) <= 0xFFFF
}.

Section Create.
Context {c : ipa3_config} {K : Type} {E : KernelEnv K} {G : KernelGhost K}.
Context {laws : KernelLaws K} {ok : ConfigOk} {coop : Cooperative K} {fits : ConfigFits}.
Implicit Types (s : kst K) (k : K) (init : ipa_ioc_v4_nat_init).

(** ** Commands are constructed and carried out *)

Definition surely (cmd : ipahal_imm_cmd_name * imm_params * Z) : Prop :=
  forall k, exists p k', ipahal_construct_imm_cmd ipa_hw_type cmd.1.1 cmd.1.2 k = Some (Some p, k').

Lemma alloc_pyld_surely len op data k : exists p k', alloc_pyld len op data k = Some (Some p, k').
Proof.
  unfold alloc_pyld. pose proof (coop_kzalloc (len + 4) k) as H.
  destruct (k_kzalloc (len + 4) k) as [b k1]. cbn in H. subst b. by eexists _, _.
Qed.

Lemma surely_by name params err construct op :
  imm_cmd_objs ipa_hw_type ipa_hw_type name = Some (construct, op) ->
  (forall k, exists p k', construct op params k = Some (Some p, k')) ->
  surely (name, params, err).
Proof. intros Hn Hc k. unfold ipahal_construct_imm_cmd. cbn. rewrite Hn. apply Hc. Qed.

Lemma nat_init_surely cmd err : surely (IPA_IMM_CMD_IP_V4_NAT_INIT, params_nat_init cmd, err).
Proof.
  eapply surely_by; [apply imm_cmd_objs_nat_init, cfg_supported|]. intros k.
  apply alloc_pyld_surely.
Qed.

Lemma register_write_surely ofst val mask err : ofst <= 0xFFFF ->
  surely (IPA_IMM_CMD_REGISTER_WRITE,
    params_register_write (mk_register_write ofst val mask false IPAHAL_HPS_CLEAR), err).
Proof.
  intros Ho. destruct (decide (IPA_HW_v4_0 <= ipa_hw_type)) as [H4|H4].
  - eapply surely_by; [by apply imm_cmd_objs_v4; [apply cfg_supported|]|]. intros k. cbn.
    rewrite (proj2 (Z.ltb_ge _ _) Ho). apply alloc_pyld_surely.
  - eapply surely_by; [apply imm_cmd_objs_v3; [apply cfg_supported|lia]|]. intros k.
    apply alloc_pyld_surely.
Qed.

Lemma shared_mem_surely addr size local err :
  IPA_HW_v4_0 <= ipa_hw_type -> size <= 0xFFFF -> local <= 0xFFFF ->
  surely (IPA_IMM_CMD_DMA_SHARED_MEM, params_dma_shared_mem
    (mk_dma_shared_mem addr size local false false false IPAHAL_HPS_CLEAR), err).
Proof.
  intros H4 Hs Hl. eapply surely_by; [by apply imm_cmd_objs_v4; [apply cfg_supported|]|].
  intros k. cbn. rewrite (proj2 (Z.ltb_ge _ _) Hs), (proj2 (Z.ltb_ge _ _) Hl).
  apply alloc_pyld_surely.
Qed.

Lemma prefix_surely : Forall surely (coal_close_cmd ++ [nop_cmd]).
Proof.
  apply Forall_app. split; [|constructor; [by apply register_write_surely|constructor]].
  unfold coal_close_cmd. destruct (_ && _); [|constructor]. constructor; [|constructor].
  apply register_write_surely. destruct (_ <? _); [apply fits_coal|apply fits_coal_n].
Qed.

Lemma build_cmds_surely bound cmds l s :
  Forall surely cmds -> (length l + length cmds <= bound)%nat ->
  exists l' s', build_cmds bound cmds l s = Some (0, l', s')
    /\ length l' = (length l + length cmds)%nat.
Proof.
  intros H. revert l s. induction H as [|[[name params] err] cmds Hc _ IH]; intros l s Hlen.
  - exists l, s. split; [done|]. cbn. lia.
  - unfold surely in Hc. cbn [length fst snd] in Hlen, Hc. cbn [build_cmds]. rewrite (proj2 (Nat.leb_gt _ _)) by lia.
    destruct (Hc (world s)) as (p & k' & ->). cbn [mbind option_bind].
    destruct (IH (l ++ [p]) (s <| world := k' |>)) as (l' & s' & -> & Hl).
    { rewrite length_app. cbn. lia. }
    exists l', s'. split; [done|]. rewrite Hl, length_app. cbn. lia.
Qed.

Lemma send_surely l l' s : exists s',
  (let '(r, s1) := ipa3_send_cmd s l in Some (r, destroy_imm_cmd l' s1)) = Some (0, s').
Proof.
  unfold ipa3_send_cmd. pose proof (coop_send l (tables s) (world s)) as H.
  destruct (k_send_cmd l (tables s) (world s)) as [[r t] k]. cbn in H. subst r. by eexists.
Qed.

Lemma build_pdn_surely l s zero :
  (IPA_HW_v4_0 <= ipa_hw_type -> mb_base (nm_pdn_mem (nm s)) <> NULL) -> (length l <= 3)%nat ->
  exists l' s', build_pdn_cmd IPA_NAT_MAX_NUM_OF_INIT_CMD_DESC zero l s = Some (0, l', s').
Proof.
  intros Hb Hl. unfold build_pdn_cmd.
  destruct (Z.ltb_spec ipa_hw_type IPA_HW_v4_0) as [?|H4]; [by exists l, s|].
  rewrite (proj2 (Nat.leb_gt _ _)) by (unfold IPA_NAT_MAX_NUM_OF_INIT_CMD_DESC; lia).
  unfold ipa3_nat_create_modify_pdn_cmd.
  rewrite (proj1 (entry_size_v4 _ cfg_supported H4)), (max_pdn_spec H4). cbn [mbind option_bind].
  rewrite (proj2 (Z.eqb_neq _ _) (Hb H4)). cbn [mbind option_bind negb Z.eqb].
  match goal with |- context [build_cmds ?b ?cmds l ?s1] =>
    destruct (build_cmds_surely b cmds l s1) as (l' & s' & -> & _) end; [|cbn; unfold IPA_NAT_MAX_NUM_OF_INIT_CMD_DESC; lia|by eauto].
  constructor; [|constructor]. apply shared_mem_surely; [done| |apply fits_pdn_ofst].
  pose proof fits_pdn. pose proof cfg_pdn.
  pose proof (Z.mul_div_le pdn_config_size 16 ltac:(lia)). lia.
Qed.

Lemma send_nat_init_surely s cmd zero :
  (IPA_HW_v4_0 <= ipa_hw_type -> mb_base (nm_pdn_mem (nm s)) <> NULL) ->
  exists s', ipa3_nat_send_init_cmd s cmd zero = Some (0, s')
    /\ reshaped s s' /\ k_dma (world s') = k_dma (world s)
    /\ k_nat_hw (world s') = Some (nat_init_payload cmd).
Proof.
  intros Hb. destruct (send_nat_init_spec s cmd zero) as (r & s' & Hs & R & D & N).
  exists s'. assert (Hr : r = 0); [|by subst r].
  revert Hs. unfold ipa3_nat_send_init_cmd. set (cmds := coal_close_cmd ++ _).
  assert (Hlen : (length cmds <= 3)%nat).
  { pose proof (prefix_short cfg_supported) as Hp. unfold cmds. rewrite length_app in *. cbn in *.
    destruct (wan_coal_ep =? -1); lia. }
  destruct (build_cmds_surely IPA_NAT_MAX_NUM_OF_INIT_CMD_DESC cmds [] s) as (l & s1 & E1 & Hl).
  { unfold cmds. change [nop_cmd; ?x] with ([nop_cmd] ++ [x]). rewrite app_assoc.
    apply Forall_app. split; [apply prefix_surely|]. constructor; [apply nat_init_surely|constructor]. }
  { unfold IPA_NAT_MAX_NUM_OF_INIT_CMD_DESC. cbn. lia. }
  rewrite E1. cbn [mbind option_bind negb Z.eqb].
  destruct (build_pdn_surely l s1 zero) as (l2 & s2 & E2); [|cbn in Hl; lia|].
  { assert (nm s1 = nm s) as -> by (unfold nm; f_equal; by eapply build_cmds_ctx).
    exact Hb. }
  rewrite E2. cbn [mbind option_bind negb Z.eqb].
  destruct (send_surely l2 l2 s2) as (s3 & E3). rewrite E3. congruence.
Qed.

(** ** Initialisation *)

Lemma check_table_accepts s m off n ty sz :
  cm_is_ipv6ct_mem (nm_dev (nm s)) = false -> (nm_mem_loc (nm s)).[IPA_NAT_MEM_IN_DDR] = Some m ->
  ipahal_nat_entry_size ipa_hw_type ty = Some (0, sz) -> 0 < sz <= 64 -> 0 <= off < 2 ^ 32 ->
  0 <= ml_dma_handle m -> ml_dma_handle m + ml_table_alloc_size m < 2 ^ 32 ->
  off + sz * u16 n <= ml_table_alloc_size m ->
  ipa3_nat_ipv6ct_check_table_params s DEV_NAT IPA_NAT_MEM_IN_DDR off n ty = Some 0.
Proof.
  intros Hd Hm Hty Hsz Ho H0 Hlow Hfit. unfold ipa3_nat_ipv6ct_check_table_params. cbn [device].
  rewrite Hd, Hm. cbn [mbind option_bind]. pose proof (u16_range n). unfold UINT_MAX.
  assert (0 <= sz * u16 n) by nia. assert (sz * u16 n <= 64 * 65535) by nia.
  rewrite (u64_small (_ - ml_dma_handle m)) by lia.
  rewrite (proj2 (Z.ltb_ge _ off)) by lia. rewrite andb_false_r, Hty.
  cbn [mbind option_bind negb Z.eqb].
  rewrite !(u64_small (sz * u16 n)), (u64_small (off + sz * u16 n)), u64_small by lia.
  rewrite !(proj2 (Z.ltb_ge _ _)) by lia. done.
Qed.

(** A request for tables in DDR that lie in the memory that was allocated. *)
Record good_init s init : Prop := {
  gi_wf : wf_nat_init init;
  gi_index : v4_tbl_index init = 0;
  gi_entries : 0 < v4_table_entries init < U16_MAX;
  gi_ddr : v4_mem_type init = IPA_NAT_MEM_IN_DDR;
  gi_mapped : ml_is_mapped (ddr s) = true;
  gi_fits : init_fits init (ml_table_alloc_size (ddr s));
  gi_low : 0 <= ml_dma_handle (ddr s)
           /\ ml_dma_handle (ddr s) + ml_table_alloc_size (ddr s) < 2 ^ 32;
  gi_pdn : IPA_HW_v4_0 <= ipa_hw_type -> mb_base (nm_pdn_mem (nm s)) <> NULL
}.

Lemma check_nat_tables_accepts s init :
  flags_ok s -> good_init s init -> check_nat_tables s IPA_NAT_MEM_IN_DDR init = Some 0.
Proof.
  intros Hf [(Ho & He & Hx) _ Hn _ _ (F1 & F2 & F3 & F4) [L1 L2] _].
  destruct (fl_nat _ Hf) as (_ & _ & Hd & _). destruct (entry_size_v3 _ cfg_supported) as [Hs1 Hs2].
  repeat (apply Forall_cons in Ho as [? Ho]). clear Ho. unfold U16_MAX in Hn.
  pose proof (loc_lookup s IPA_NAT_MEM_IN_DDR (fl_locs _ Hf) ltac:(by left)) as Hm.
  fold (ddr s) in Hm.
  assert (Hu : u16 (v4_table_entries init + 1) = v4_table_entries init + 1)
    by (apply u16_small; lia).
  assert (Hux : u16 (v4_expn_table_entries init) = v4_expn_table_entries init)
    by by apply u16_small.
  unfold check_nat_tables.
  rewrite (check_table_accepts s (ddr s) _ _ _ _ Hd Hm Hs1) by first [lia|rewrite Hu; lia].
  cbn [mbind option_bind negb Z.eqb].
  rewrite (check_table_accepts s (ddr s) _ _ _ _ Hd Hm Hs1) by first [lia|rewrite Hux; lia].
  cbn [mbind option_bind negb Z.eqb].
  rewrite (check_table_accepts s (ddr s) _ _ _ _ Hd Hm Hs2) by first [lia|rewrite Hu; lia].
  cbn [mbind option_bind negb Z.eqb].
  by rewrite (check_table_accepts s (ddr s) _ _ _ _ Hd Hm Hs2) by first [lia|rewrite Hux; lia].
Qed.

Lemma nat_init_request_id s init :
  v4_mem_type init = IPA_NAT_MEM_IN_DDR ->
  exists f, nat_init_request s init
    = mk_v4_init (v4_tbl_index init) (v4_ipv4_rules_offset init) (v4_expn_rules_offset init)
        (v4_index_offset init) (v4_index_expn_offset init) (v4_table_entries init)
        (v4_expn_table_entries init) (v4_ip_addr init) 0 f.
Proof.
  intros Hm. unfold nat_init_request. destruct (sram_compatible (ctx s)); [|by eexists].
  destruct init. cbn in *. rewrite Hm. by eexists.
Qed.

Lemma nat_init_accepted s init :
  driver_ok s -> good_init s init ->
  exists s', ipa3_nat_init_cmd s init = Some (0, s') /\ driver_ok s'
    /\ k_dma (world s') = k_dma (world s)
    /\ k_nat_hw (world s')
       = Some (nat_init_payload (ipa3_nat_create_init_cmd init false (ml_dma_handle (ddr s)))).
Proof.
  intros Hok Hg. destruct (nat_init_cmd_ok s init Hok (gi_wf _ _ Hg)) as (r & s' & Hr & Hok').
  exists s'. rewrite Hr. pose proof Hok as [Hf Hv].
  assert (Hgoal : r = 0 /\ k_dma (world s') = k_dma (world s) /\ k_nat_hw (world s')
    = Some (nat_init_payload (ipa3_nat_create_init_cmd init false (ml_dma_handle (ddr s)))));
    [|by destruct Hgoal as (-> & ? & ?)].
  revert Hr. unfold ipa3_nat_init_cmd.
  destruct (nat_init_request_id s init (gi_ddr _ _ Hg)) as (f & ->).
  match goal with |- context [check_nat_tables s _ ?x] => set (init' := x) end.
  assert (Hg' : good_init s init') by by destruct Hg.
  assert (Hcmd : ipa3_nat_create_init_cmd init false (ml_dma_handle (ddr s))
    = ipa3_nat_create_init_cmd init' false (ml_dma_handle (ddr s))) by done.
  rewrite Hcmd. clearbody init'. clear Hcmd Hg init. rename init' into init, Hg' into Hg.
  destruct Hg as [Hwf Hi Hn Hd Hm Hfit Hlow Hp] eqn:EHg. clear EHg.
  rewrite Hi, Hd. cbn [negb IPA_VALID_TBL_INDEX Z.eqb].
  rewrite (proj2 (Z.eqb_neq (v4_table_entries init) 0)), (proj2 (Z.eqb_neq _ U16_MAX)) by lia.
  change (IPA_VALID_NAT_MEM_IN IPA_NAT_MEM_IN_DDR) with true. cbn [negb orb].
  rewrite (loc_lookup s IPA_NAT_MEM_IN_DDR (fl_locs _ Hf)) by by left. fold (ddr s).
  cbn [mbind option_bind]. rewrite Hm. cbn [negb].
  rewrite (check_nat_tables_accepts s init Hf (Build_good_init s init Hwf Hi Hn Hd Hm Hfit Hlow Hp)).
  cbn [mbind option_bind negb Z.eqb IPA_NAT_MEM_IN_DDR].
  destruct (init_pdn_spec s init Hok) as (s1 & -> & R1 & W1 & B1).
  cbn [mbind option_bind negb Z.eqb].
  destruct (send_nat_init_surely s1 (ipa3_nat_create_init_cmd init false (ml_dma_handle (ddr s))) false)
    as (s2 & -> & R2 & D2 & N2); [by rewrite B1|]. cbn [mbind option_bind negb Z.eqb].
  match goal with |- context [ipa3_nat_ipv6ct_init_device_structure s2 DEV_NAT ?nmi ?a ?b ?x ?e ?i ?y ?f] =>
    destruct (device_structure_spec s2 nmi a b x e i y f) as (r3 & s3 & -> & R3 & W3 & Hr3)
  end; [by apply R2, R1|by left|]. cbn [mbind option_bind]. rewrite (Hr3 eq_refl).
  cbn [negb Z.eqb]. intros [= <- <-]. split; [done|]. rewrite <- N2, <- W3.
  split; [|done]. rewrite <- W1, <- D2, <- W3. done.
Qed.

(** ** Allocation and mapping *)

(** DDR memory of [n] bytes that is not mapped yet. *)
Definition fresh_ddr s (n : Z) : Prop :=
  nm_last_alloc_loc (nm s) = IPA_NAT_MEM_IN_DDR /\ ml_vaddr (ddr s) <> NULL
  /\ ml_is_mapped (ddr s) = false /\ ml_table_alloc_size (ddr s) = n
  /\ 0 <= ml_dma_handle (ddr s) /\ ml_dma_handle (ddr s) + n < 2 ^ 32.

Lemma alloc_ddr_accepted s n :
  driver_ok s -> nm_ddr_in_use (nm s) = false -> 0 < n <= 2 ^ 18 ->
  (size (k_dma (world s)) < 1000)%nat ->
  exists s', alloc_nat_in_ddr s n = Some (0, s') /\ fresh_ddr s' n
    /\ ctx s' = ctx s <| nat_mem := nat_mem (ctx s')  |>
    /\ mb_base (nm_pdn_mem (nm s')) = mb_base (nm_pdn_mem (nm s))
    /\ exists h, k_dma (world s') = <[h := n]> (k_dma (world s)).
Proof.
  intros Hok Hu Hn Hroom. pose proof (ddr_unmapped s Hok Hu) as Hmap. unfold alloc_nat_in_ddr.
  rewrite Hu, (loc_lookup s IPA_NAT_MEM_IN_DDR (fl_locs _ (proj1 Hok))) by by left.
  cbn [mbind option_bind]. fold (ddr s).
  destruct (coop_dma n (world s) Hn Hroom) as (v & h & k & Ha & Hlow). rewrite Ha.
  destruct (dma_alloc_fresh _ _ _ _ _ Ha) as (Hv & H0 & _ & _ & D & _).
  eexists. split; [done|]. set (s1 := with_loc _ _ _). set (s' := with_nm _ _).
  assert (Hd : ddr s' = ddr s <| ml_table_alloc_size := n |> <| ml_vaddr := v |>
                         <| ml_dma_handle := h |>).
  { change (ddr s') with (ddr s1). unfold s1, ddr. rewrite loc_with_loc; [done| |by left].
    apply (fl_locs _ (proj1 Hok)). }
  unfold fresh_ddr. rewrite Hd. do 3 (split; [done|]). by exists h.
Qed.

Lemma alloc_pdn_accepted s :
  IPA_HW_v4_0 <= ipa_hw_type -> (size (k_dma (world s)) < 1000)%nat ->
  exists s', alloc_pdn_mem s = Some (0, s') /\ mb_base (nm_pdn_mem (nm s')) <> NULL
    /\ forall n, fresh_ddr s n -> fresh_ddr s' n.
Proof.
  intros H4 Hroom. unfold alloc_pdn_mem.
  rewrite (proj1 (entry_size_v4 _ cfg_supported H4)), (max_pdn_spec H4). cbn [mbind option_bind].
  set (n := 16 * (pdn_config_size / 16)). pose proof cfg_pdn. pose proof fits_pdn.
  assert (Hn : 0 < n <= pdn_config_size).
  { pose proof (Z.div_mod pdn_config_size 16 ltac:(lia)).
    pose proof (Z.mod_pos_bound pdn_config_size 16 ltac:(lia)). unfold n. lia. }
  rewrite (proj2 (Z.ltb_ge _ _)) by lia.
  set (s1 := with_nm s _). change (world s1) with (world s).
  destruct (coop_dma n (world s)) as (v & h & k & Ha & _); [lia|done|]. rewrite Ha.
  destruct (dma_alloc_fresh _ _ _ _ _ Ha) as (Hv & _).
  eexists. split; [done|]. by split.
Qed.

(** The request would be served from DDR. *)
Definition wants_ddr s (n : Z) : Prop :=
  0 < n <= MAX_ALLOC_NAT_SIZE 32 /\ (sram_compatible (ctx s) = false \/ nat_tbl_size < n).

Lemma allocate_mem_ddr s n : driver_ok s -> wants_ddr s n ->
  ipa3_nat_ipv6ct_allocate_mem s DEV_NAT n IPAHAL_NAT_IPV4 = alloc_nat_in_ddr s n.
Proof.
  intros [Hf _] [Hn Hsram]. unfold ipa3_nat_ipv6ct_allocate_mem. cbn [device].
  unfold MAX_ALLOC_NAT_SIZE in *.
  destruct (fl_nat _ Hf) as (-> & -> & -> & _).
  rewrite (proj2 (Z.eqb_neq n 0)), bool_decide_eq_true_2 by first [lia|done]. cbn [negb andb orb].
  rewrite (proj1 (entry_size_v3 _ cfg_supported)). cbn [mbind option_bind].
  rewrite (proj2 (Z.ltb_ge _ n)) by lia.
  replace (sram_compatible (ctx s) && (n <=? IPA_NAT_PHYS_MEM_SIZE)) with false; [done|].
  unfold IPA_NAT_PHYS_MEM_SIZE. destruct Hsram as [-> | H]; [done|].
  by rewrite (proj2 (Z.leb_gt _ _) H), andb_false_r.
Qed.

Lemma allocate_accepted s n :
  driver_ok s -> nm_ddr_in_use (nm s) = false -> wants_ddr s n ->
  (size (k_dma (world s)) < 999)%nat ->
  exists s', ipa3_allocate_nat_table s n = Some (0, s') /\ driver_ok s' /\ fresh_ddr s' n
    /\ (IPA_HW_v4_0 <= ipa_hw_type -> mb_base (nm_pdn_mem (nm s')) <> NULL).
Proof.
  intros Hok Hu Hn Hroom.
  destruct (allocate_nat_table_ok s n Hok) as (r & s' & Hr & Hok'). rewrite Hr. exists s'.
  assert (Hgoal : r = 0 /\ fresh_ddr s' n
    /\ (IPA_HW_v4_0 <= ipa_hw_type -> mb_base (nm_pdn_mem (nm s')) <> NULL));
    [|by destruct Hgoal as (-> & ? & ?)].
  revert Hr. unfold ipa3_allocate_nat_table. rewrite allocate_mem_ddr by done.
  destruct Hn as [Hn _]. unfold MAX_ALLOC_NAT_SIZE, IPA_TABLE_MAX_ENTRIES in Hn.
  destruct (alloc_ddr_accepted s n Hok Hu ltac:(lia) ltac:(lia)) as (s1 & -> & F1 & _ & B1 & h & D1).
  cbn [mbind option_bind negb Z.eqb].
  destruct (Z.leb_spec IPA_HW_v4_0 ipa_hw_type) as [H4|H4]; cbn [andb].
  - destruct (Z.eqb_spec (mb_base (nm_pdn_mem (nm s1))) NULL) as [Hb|Hb]; [|by intros [= <- <-]].
    destruct (alloc_pdn_accepted s1 H4) as (s2 & -> & B2 & F2).
    { rewrite D1, map_size_insert. destruct (k_dma (world s) !! h); cbn; lia. }
    cbn [mbind option_bind Z.eqb]. intros [= <- <-]. split; [done|]. by split; [apply F2|].
  - intros [= <- <-]. split; [done|]. split; [done|]. intros ?. lia.
Qed.

Lemma mmap_accepted s n vsize :
  driver_ok s -> fresh_ddr s n -> exists s', ipa3_nat_ipv6ct_mmap s DEV_NAT vsize = Some (0, s')
    /\ driver_ok s' /\ ml_is_mapped (ddr s') = true /\ ml_dma_handle (ddr s') = ml_dma_handle (ddr s)
    /\ ml_table_alloc_size (ddr s') = n
    /\ mb_base (nm_pdn_mem (nm s')) = mb_base (nm_pdn_mem (nm s)).
Proof.
  intros Hok (Hlast & Hva & Hm & Hn & _).
  destruct (mmap_ok s DEV_NAT vsize Hok) as (r & s' & Hr & Hok'). rewrite Hr. exists s'.
  revert Hr. unfold ipa3_nat_ipv6ct_mmap, mmap_nat. cbn [device].
  destruct (fl_nat _ (proj1 Hok)) as (-> & -> & _). rewrite Hlast.
  change (IPA_VALID_NAT_MEM_IN IPA_NAT_MEM_IN_DDR) with true. cbn [negb].
  pose proof (fl_locs _ (proj1 Hok)) as Hl.
  rewrite (loc_lookup s IPA_NAT_MEM_IN_DDR Hl) by by left. fold (ddr s).
  cbn [mbind option_bind]. rewrite (proj2 (Z.eqb_neq _ _) Hva), Hm.
  change (IPA_NAT_MEM_IN_DDR =? IPA_NAT_MEM_IN_SRAM) with false. cbn [andb Z.eqb IPA_NAT_MEM_IN_DDR].
  match goal with |- context [k_dma_mmap_coherent ?a ?b ?d ?e ?k] =>
    pose proof (coop_mmap a b d e k) as H; destruct (k_dma_mmap_coherent a b d e k) as [r1 k1] end.
  cbn [fst] in H. subst r1. cbn [negb Z.eqb]. intros [= <- <-].
  split; [done|]. split; [done|]. unfold ddr in *.
  rewrite (loc_with_loc (s <| world := k1 |>) IPA_NAT_MEM_IN_DDR) by first [done|by left].
  by rewrite decide_True.
Qed.
End Create.

Lemma ci_addr_read t : getf ci_table_addr (ct_init_payload t) = base_table_addr t mod 2 ^ 64.
Proof. by apply payload_read. Qed.

Lemma ci_size_read t : getf ci_size_base_table (ct_init_payload t) = size_base_table t mod 2 ^ 12.
Proof. by apply payload_read. Qed.

Section Errors.
Context {c : ipa3_config} {K : Type} {E : KernelEnv K} {G : KernelGhost K}.
Context {laws : KernelLaws K} {ok : ConfigOk} {coop : Cooperative K} {fits : ConfigFits}.
Implicit Types (s : kst K) (init : ipa_ioc_ipv6ct_init).

(** ** IPv6CT tables *)

Definition ct s : ipa3_nat_ipv6ct_common_mem := ipv6ct_mem (ctx s).

Lemma ct_init_surely cmd err : IPA_HW_v4_0 <= ipa_hw_type ->
  surely (IPA_IMM_CMD_IP_V6_CT_INIT, params_ct_init cmd, err).
Proof.
  intros H4. eapply surely_by; [by apply imm_cmd_objs_v4; [apply cfg_supported|]|]. intros k.
  apply alloc_pyld_surely.
Qed.

Lemma send_ct_init_surely s cmd : IPA_HW_v4_0 <= ipa_hw_type ->
  exists s', ipa3_ipv6ct_send_init_cmd s cmd = Some (0, s') /\ ctx s' = ctx s
    /\ k_dma (world s') = k_dma (world s) /\ k_ct_hw (world s') = Some (ct_init_payload cmd).
Proof.
  intros H4. destruct (send_ct_init_spec s cmd H4) as (r & s' & Hs & C & D & _ & N).
  exists s'. assert (Hr : r = 0); [|by subst r].
  revert Hs. unfold ipa3_ipv6ct_send_init_cmd.
  pose proof (prefix_short cfg_supported) as Hp.
  assert (Hp2 : (length (coal_close_cmd ++ [nop_cmd]) <= 2)%nat)
    by (destruct (wan_coal_ep =? -1); lia).
  destruct (build_cmds_surely IPA_IPV6CT_MAX_NUM_OF_INIT_CMD_DESC (coal_close_cmd ++ [nop_cmd]) [] s
    prefix_surely) as (l & s1 & -> & Hl).
  { unfold IPA_IPV6CT_MAX_NUM_OF_INIT_CMD_DESC. cbn [length]. lia. }
  cbn [length] in Hl. cbn [mbind option_bind negb Z.eqb].
  rewrite (proj2 (Nat.leb_gt _ _)) by (unfold IPA_IPV6CT_MAX_NUM_OF_INIT_CMD_DESC; lia).
  destruct (build_cmds_surely IPA_IPV6CT_MAX_NUM_OF_INIT_CMD_DESC
    [(IPA_IMM_CMD_IP_V6_CT_INIT, params_ct_init cmd, - EPERM)] l s1) as (l2 & s2 & -> & _).
  { constructor; [by apply ct_init_surely|constructor]. }
  { unfold IPA_IPV6CT_MAX_NUM_OF_INIT_CMD_DESC. cbn [length]. lia. }
  cbn [mbind option_bind negb Z.eqb]. destruct (send_surely l2 l2 s2) as (s3 & ->). congruence.
Qed.

(** The C types of a request, and that its tables lie in [n] bytes. *)
Definition wf_ct_init init : Prop :=
  0 <= v6_base_table_offset init < 2 ^ 32 /\ 0 <= v6_expn_table_offset init < 2 ^ 32
  /\ 0 < v6_table_entries init < U16_MAX /\ 0 <= v6_expn_table_entries init < 2 ^ 16.

Definition ct_init_fits init (n : Z) : Prop :=
  v6_base_table_offset init + 64 * (v6_table_entries init + 1) <= n
  /\ v6_expn_table_offset init + 64 * v6_expn_table_entries init <= n.

Lemma check_ct_accepts s nmi off n :
  cm_is_ipv6ct_mem (ct s) = true -> IPA_HW_v4_0 <= ipa_hw_type -> 0 <= off < 2 ^ 32 ->
  0 <= cm_dma_handle (ct s) -> cm_dma_handle (ct s) + cm_table_alloc_size (ct s) < 2 ^ 32 ->
  off + 64 * u16 n <= cm_table_alloc_size (ct s) ->
  ipa3_nat_ipv6ct_check_table_params s DEV_IPV6CT nmi off n IPAHAL_NAT_IPV6CT = Some 0.
Proof.
  intros Hd H4 Ho H0 Hlow Hfit. unfold ipa3_nat_ipv6ct_check_table_params. cbn [device].
  fold (ct s). rewrite Hd. cbn [mbind option_bind]. pose proof (u16_range n). unfold UINT_MAX.
  rewrite (u64_small (_ - cm_dma_handle (ct s))) by lia.
  rewrite (proj2 (Z.ltb_ge _ off)) by lia.
  rewrite (proj2 (entry_size_v4 _ cfg_supported H4)). cbn [mbind option_bind negb Z.eqb].
  rewrite !(u64_small (64 * u16 n)), (u64_small (off + 64 * u16 n)), u64_small by lia.
  rewrite !(proj2 (Z.ltb_ge _ _)) by lia. done.
Qed.

(** The driver and the hardware accept tables that lie in the size the driver
    remembers. *)
Lemma ct_init_accepted s init :
  IPA_HW_v4_0 <= ipa_hw_type -> cm_is_ipv6ct_mem (ct s) = true -> cm_is_mapped (ct s) = true ->
  v6_tbl_index init = 0 -> wf_ct_init init -> ct_init_fits init (cm_table_alloc_size (ct s)) ->
  0 <= cm_dma_handle (ct s) -> cm_dma_handle (ct s) + cm_table_alloc_size (ct s) < 2 ^ 32 ->
  exists s', ipa3_ipv6ct_init_cmd s init = Some (0, s') /\ k_dma (world s') = k_dma (world s)
    /\ k_ct_hw (world s') = Some (ct_init_payload (ipa3_nat_ipv6ct_create_init_cmd false
         (cm_dma_handle (ct s)) 0 (v6_base_table_offset init) (v6_expn_table_offset init)
         (v6_table_entries init) (v6_expn_table_entries init))).
Proof.
  intros H4 Hd Hm Hi (W1 & W2 & W3 & W4) (F1 & F2) H0 Hlow. unfold U16_MAX in W3.
  unfold ipa3_ipv6ct_init_cmd. cbn [device]. fold (ct s).
  rewrite (proj2 (Z.ltb_ge _ _) H4), Hi, Hm. cbn [negb IPA_VALID_TBL_INDEX Z.eqb].
  rewrite (proj2 (Z.eqb_neq (v6_table_entries init) 0)), (proj2 (Z.eqb_neq _ U16_MAX))
    by (unfold U16_MAX; lia). cbn [orb].
  rewrite !check_ct_accepts by first [done|lia|rewrite u16_small by lia; lia].
  cbn [mbind option_bind negb Z.eqb].
  match goal with |- context [ipa3_ipv6ct_send_init_cmd s ?cmd] =>
    destruct (send_ct_init_surely s cmd H4) as (s1 & -> & C1 & D1 & N1) end.
  cbn [mbind option_bind negb Z.eqb]. unfold ipa3_nat_ipv6ct_init_device_structure. cbn [device].
  rewrite C1. fold (ct s). rewrite Hd. cbn [mbind option_bind].
  eexists. split; [reflexivity|]. split; [exact D1|exact N1].
Qed.

(** An allocation that fails leaves the mapped buffer behind, with the size
    that was asked for. *)
Lemma ct_alloc_fails s n k :
  driver_ok s -> IPA_HW_v4_0 <= ipa_hw_type -> 0 < n <= MAX_ALLOC_NAT_SIZE 64 ->
  k_dma_alloc_coherent n (world s) = (None, k) ->
  exists s', ipa3_allocate_ipv6ct_table s n = Some (- ENOMEM, s')
    /\ ct s' = ct s <| cm_table_alloc_size := n |> <| cm_vaddr := NULL |> /\ world s' = k.
Proof.
  intros [Hf _] H4 Hn Ha. unfold MAX_ALLOC_NAT_SIZE in Hn. unfold ipa3_allocate_ipv6ct_table.
  rewrite (proj2 (Z.ltb_ge _ _) H4). unfold ipa3_nat_ipv6ct_allocate_mem. cbn [device].
  destruct (fl_ct _ Hf) as (-> & -> & ->).
  rewrite (proj2 (Z.eqb_neq n 0)), (proj2 (Z.leb_le _ _) H4) by lia. cbn [negb andb orb].
  rewrite bool_decide_eq_true_2 by done. cbn [negb]. rewrite (proj2 (entry_size_v4 _ cfg_supported H4)). cbn [mbind option_bind].
  unfold MAX_ALLOC_NAT_SIZE. rewrite (proj2 (Z.ltb_ge _ n)) by lia.
  unfold alloc_ipv6ct_in_ddr. cbn [with_device world].
  match goal with |- context [k_dma_alloc_coherent n ?w] => change w with (world s) end.
  rewrite Ha. by eexists.
Qed.

(** ** The PDN table *)

Lemma allocate_in_use s n : driver_ok s -> wants_ddr s n -> nm_ddr_in_use (nm s) = true ->
  ipa3_allocate_nat_table s n = Some (- EPERM, s).
Proof.
  intros Hok Hn Hu. unfold ipa3_allocate_nat_table. rewrite allocate_mem_ddr by done.
  unfold alloc_nat_in_ddr. by rewrite Hu.
Qed.

(** What is left behind: the location is in use and has no memory. *)
Definition ddr_stuck s : Prop :=
  nm_ddr_in_use (nm s) = true /\ ml_vaddr (ddr s) = NULL
  /\ nm_last_alloc_loc (nm s) = IPA_NAT_MEM_IN_DDR.

Lemma pdn_alloc_fails s n v h k1 k2 :
  driver_ok s -> IPA_HW_v4_0 <= ipa_hw_type -> wants_ddr s n -> nm_ddr_in_use (nm s) = false ->
  mb_base (nm_pdn_mem (nm s)) = NULL ->
  k_dma_alloc_coherent n (world s) = (Some (v, h), k1) ->
  k_dma_alloc_coherent (16 * (pdn_config_size / 16)) k1 = (None, k2) ->
  exists s', ipa3_allocate_nat_table s n = Some (- ENOMEM, s') /\ ddr_stuck s'
    /\ sram_compatible (ctx s') = sram_compatible (ctx s)
    /\ cm_is_hw_init (nm_dev (nm s')) = cm_is_hw_init (nm_dev (nm s)).
Proof.
  intros Hok H4 Hn Hu Hb Ha1 Ha2. unfold ipa3_allocate_nat_table.
  rewrite allocate_mem_ddr by done. unfold alloc_nat_in_ddr.
  pose proof (fl_locs _ (proj1 Hok)) as Hl.
  rewrite Hu, (loc_lookup s IPA_NAT_MEM_IN_DDR Hl) by by left. cbn [mbind option_bind].
  rewrite Ha1. cbn [mbind option_bind negb Z.eqb]. set (s1 := with_nm _ _).
  destruct (dma_alloc_fresh _ _ _ _ _ Ha1) as (Hv & _).
  change (mb_base (nm_pdn_mem (nm s1))) with (mb_base (nm_pdn_mem (nm s))).
  rewrite (proj2 (Z.leb_le _ _) H4), Hb. cbn [andb Z.eqb NULL].
  unfold alloc_pdn_mem. rewrite (proj1 (entry_size_v4 _ cfg_supported H4)), (max_pdn_spec H4).
  cbn [mbind option_bind]. pose proof cfg_pdn.
  pose proof (Z.mul_div_le pdn_config_size 16 ltac:(lia)).
  rewrite (proj2 (Z.ltb_ge pdn_config_size _)) by lia.
  match goal with |- context [k_dma_alloc_coherent _ (world ?x)] => change (world x) with k1 end.
  rewrite Ha2. cbn [mbind option_bind Z.eqb Z.opp ENOMEM]. set (s2 := _ <| world := k2 |>).
  assert (Hd2 : loc s2 IPA_NAT_MEM_IN_DDR = loc s IPA_NAT_MEM_IN_DDR
    <| ml_table_alloc_size := n |> <| ml_vaddr := v |> <| ml_dma_handle := h |>).
  { change (loc s2 IPA_NAT_MEM_IN_DDR) with (loc (with_loc (s <| world := k1 |>) IPA_NAT_MEM_IN_DDR
      (loc s IPA_NAT_MEM_IN_DDR <| ml_table_alloc_size := n |> <| ml_vaddr := v |>
        <| ml_dma_handle := h |>)) IPA_NAT_MEM_IN_DDR).
    rewrite loc_with_loc by first [done|by left]. by rewrite decide_True. }
  assert (Hl2 : lengthZ (nm_mem_loc (nm s2)) = 2).
  { change (nm_mem_loc (nm s2)) with ((nm_mem_loc (nm s)).[IPA_NAT_MEM_IN_DDR <-
      loc s IPA_NAT_MEM_IN_DDR <| ml_table_alloc_size := n |> <| ml_vaddr := v |>
        <| ml_dma_handle := h |>]). by rewrite lengthZ_updateZ. }
  unfold fail_alloc_pdn. change (nm_last_alloc_loc (nm s2)) with IPA_NAT_MEM_IN_DDR.
  rewrite (loc_lookup s2 IPA_NAT_MEM_IN_DDR Hl2) by by left. cbn [mbind option_bind].
  rewrite Hd2. cbn [Z.eqb IPA_NAT_MEM_IN_DDR ml_vaddr].
  match goal with |- context [ml_vaddr ?m =? NULL] => change (ml_vaddr m) with v end.
  rewrite (proj2 (Z.eqb_neq _ _) Hv). cbn [mbind option_bind]. eexists. split; [reflexivity|].
  split; [|done]. split; [done|]. split; [|done]. unfold ddr.
  by rewrite loc_with_loc by first [done|by left].
Qed.

Lemma mmap_stuck s vsize : driver_ok s -> ddr_stuck s ->
  ipa3_nat_ipv6ct_mmap s DEV_NAT vsize = Some (- EPERM, s).
Proof.
  intros Hok (_ & Hva & Hlast). unfold ipa3_nat_ipv6ct_mmap, mmap_nat. cbn [device].
  destruct (fl_nat _ (proj1 Hok)) as (-> & -> & _). rewrite Hlast. cbn [negb].
  change (IPA_VALID_NAT_MEM_IN IPA_NAT_MEM_IN_DDR) with true. cbn [negb].
  rewrite (loc_lookup s IPA_NAT_MEM_IN_DDR (fl_locs _ (proj1 Hok))) by by left.
  fold (ddr s). cbn [mbind option_bind]. by rewrite Hva.
Qed.

(** A table the hardware was never given is deleted without a command. *)
Lemma del_not_init s : driver_ok s -> IPA_HW_v4_0 <= ipa_hw_type ->
  cm_is_hw_init (nm_dev (nm s)) = false ->
  exists s', ipa3_del_nat_table s (mk_table_del 0 IPA_NAT_MEM_IN_DDR) = Some (0, s')
    /\ nm_ddr_in_use (nm s') = false.
Proof.
  intros Hok H4 Hi. destruct (del_nat_run s (mk_table_del 0 IPA_NAT_MEM_IN_DDR) Hok) as (r & s' & Hr & _ & Hf).
  exists s'. assert (r = 0) as ->.
  { revert Hr. unfold ipa3_del_nat_table. cbn [device del_mem_type del_table_index].
    destruct (fl_nat _ (proj1 Hok)) as (-> & _). rewrite Hi.
    replace (if sram_compatible (ctx s) then IPA_NAT_MEM_IN_DDR else 0) with IPA_NAT_MEM_IN_DDR
      by by destruct (sram_compatible (ctx s)).
    cbn [negb IPA_VALID_TBL_INDEX Z.eqb mbind option_bind].
    change (IPA_VALID_NAT_MEM_IN IPA_NAT_MEM_IN_DDR) with true. cbn [negb].
    destruct ((nm_mem_loc (nm s)).[IPA_NAT_MEM_IN_DDR]); [|done]. cbn [mbind option_bind].
    destruct (ipa3_nat_ipv6ct_free_mem _ _); [|done]. by intros [= <- _]. }
  split; [done|]. destruct (Hf eq_refl H4) as [Hv _]. exact (f_equal dv_ddr_in_use Hv).
Qed.
End Errors.

(** ** The tables of an initialisation, and the entries of a DMA command for them *)
Section DmaEntries.
Context {c : ipa3_config} {K : Type} {E : KernelEnv K} {G : KernelGhost K}.
Context {laws : KernelLaws K} {ok : ConfigOk}.
Implicit Types (s : kst K).

(** Where a table of an initialisation lies and the bytes it occupies. *)
Definition nat_table_offset (init : ipa_ioc_v4_nat_init) (ty : ipa_table_dma_type) : Z :=
  match ty with
  | IPA_NAT_BASE_TBL => v4_ipv4_rules_offset init
  | IPA_NAT_EXPN_TBL => v4_expn_rules_offset init
  | IPA_NAT_INDX_TBL => v4_index_offset init
  | IPA_NAT_INDEX_EXPN_TBL => v4_index_expn_offset init
  | _ => 0
  end.
Definition nat_table_bytes (init : ipa_ioc_v4_nat_init) (ty : ipa_table_dma_type) : Z :=
  match ty with
  | IPA_NAT_BASE_TBL => 32 * (v4_table_entries init + 1)
  | IPA_NAT_EXPN_TBL => 32 * v4_expn_table_entries init
  | IPA_NAT_INDX_TBL => 4 * (v4_table_entries init + 1)
  | IPA_NAT_INDEX_EXPN_TBL => 4 * v4_expn_table_entries init
  | _ => 0
  end.
Definition ct_table_bytes (init : ipa_ioc_ipv6ct_init) (ty : ipa_table_dma_type) : Z :=
  match ty with
  | IPA_IPV6CT_BASE_TBL => 64 * (v6_table_entries init + 1)
  | IPA_IPV6CT_EXPN_TBL => 64 * v6_expn_table_entries init
  | _ => 0
  end.

(** The sizes the driver remembers. *)
Definition nat_sizes s (nmi n e : Z) : Prop :=
  ml_table_entries (loc s nmi) = n /\ ml_expn_table_entries (loc s nmi) = e.

Lemma device_structure_sizes s nmi a b n e i x f r s' :
  flags_ok s -> nmi = IPA_NAT_MEM_IN_DDR \/ nmi = IPA_NAT_MEM_IN_SRAM ->
  ipa3_nat_ipv6ct_init_device_structure s DEV_NAT nmi a b n e i x f = Some (r, s') ->
  nat_sizes s' nmi n e.
Proof.
  intros Hf Hn. unfold ipa3_nat_ipv6ct_init_device_structure. cbn [device].
  destruct (fl_nat _ Hf) as (_ & -> & -> & _).
  rewrite (loc_lookup s nmi (fl_locs _ Hf) Hn). cbn [mbind option_bind].
  set (s1 := with_nm s (nm s <| nm_active_table := nmi |>)).
  match goal with |- context [with_loc s1 nmi ?m] => set (m' := m) end.
  assert (H1 : loc (with_loc s1 nmi m') nmi = m').
  { rewrite loc_with_loc by first [apply (fl_locs _ Hf)|done]. by rewrite decide_True. }
  assert (H2 : forall y, loc (with_nm (with_loc s1 nmi m') (nm (with_loc s1 nmi m') <| nm_switch2ddr_cnt := y |>)) nmi = m') by (intros; exact H1).
  assert (H3 : forall y, loc (with_nm (with_loc s1 nmi m') (nm (with_loc s1 nmi m') <| nm_switch2sram_cnt := y |>)) nmi = m') by (intros; exact H1).
  unfold nat_sizes.
  destruct (nmi =? _); [|destruct (negb _)]; intros [= _ <-]; destruct f; by rewrite ?H1, ?H2, ?H3.
Qed.

(** After an accepted initialisation: the sizes are those of the request, which
    lie in the memory of the location. *)
Lemma nat_init_sizes s init s1 :
  driver_ok s -> wf_nat_init init -> ipa3_nat_init_cmd s init = Some (0, s1) ->
  let r := nat_init_request s init in
  let nmi := v4_mem_type r in
  (nmi = IPA_NAT_MEM_IN_DDR \/ nmi = IPA_NAT_MEM_IN_SRAM)
  /\ flags_ok s1 /\ nat_sizes s1 nmi (v4_table_entries r) (v4_expn_table_entries r)
  /\ cm_is_hw_init (device s1 DEV_NAT) = true /\ init_fits r (ml_table_alloc_size (loc s nmi)).
Proof.
  intros Hok Hwf0 Hrun.
  assert (Hf1 : flags_ok s1).
  { destruct (nat_init_cmd_ok s init Hok Hwf0) as (r & s' & Hr & [Hf _]). rewrite Hrun in Hr.
    by injection Hr as _ <-. }
  revert Hrun. unfold ipa3_nat_init_cmd.
  pose proof (nat_init_wf s init Hwf0) as Hwf. cbv zeta. set (r := nat_init_request s init) in *.
  clearbody r. clear Hwf0 init. set (nmi := v4_mem_type r).
  destruct (IPA_VALID_TBL_INDEX _); [|done]. cbn [negb].
  destruct (_ || _) eqn:Emax; [done|]. apply orb_false_iff in Emax as [_ Hmax%Z.eqb_neq].
  destruct (IPA_VALID_NAT_MEM_IN nmi) eqn:Hn; [|done]. apply valid_mem_in in Hn. cbn [negb].
  pose proof (loc_lookup s nmi (fl_locs _ (proj1 Hok)) Hn) as Hm. rewrite Hm. cbn [mbind option_bind].
  destruct (ml_is_mapped _); [|done]. cbn [negb].
  destruct (check_nat_tables_spec s nmi (loc s nmi) r (proj1 Hok) Hm Hwf Hmax) as (rc & -> & Hfit).
  cbn [mbind option_bind]. destruct (Z.eqb_spec rc 0) as [Hr|Hr]; cbn [negb]; [|intros [= ? _]; lia].
  set (cmd := if nmi =? _ then _ else _).
  destruct (init_pdn_spec s r Hok) as (s2 & -> & R1 & _).
  cbn [mbind option_bind negb Z.eqb].
  destruct (send_nat_init_spec s2 cmd false) as (r3 & s3 & -> & R3 & _). cbn [mbind option_bind].
  destruct (Z.eqb_spec r3 0) as [Hr3|Hr3]; cbn [negb]; [|intros [= ? _]; lia].
  assert (Hf3 : flags_ok s3) by (apply R3, R1, Hok).
  match goal with |- context [ipa3_nat_ipv6ct_init_device_structure s3 DEV_NAT ?nmi ?a ?b ?x ?e ?i ?y ?f] =>
    destruct (ipa3_nat_ipv6ct_init_device_structure s3 DEV_NAT nmi a b x e i y f) as [[r4 s4]|] eqn:E4;
      [|done] end.
  apply device_structure_sizes in E4; [|done..]. cbn [mbind option_bind].
  destruct (Z.eqb_spec r4 0) as [Hr4|Hr4]; cbn [negb]; [|intros [= ? _]; lia].
  intros [= <-]. split; [done|]. split; [done|]. split; [exact E4|]. split; [done|]. by apply Hfit.
Qed.

Lemma nat_table_fits init ty n : init_fits init n -> ct_type ty = false ->
  nat_table_offset init ty + nat_table_bytes init ty <= n.
Proof. intros (?&?&?&?). by destruct ty. Qed.

Lemma ct_init_sizes s init s1 :
  driver_ok s -> ipa3_ipv6ct_init_cmd s init = Some (0, s1) ->
  flags_ok s1 /\ IPA_HW_v4_0 <= ipa_hw_type /\ cm_is_hw_init (ct s1) = true
  /\ cm_table_entries (ct s1) = v6_table_entries init
  /\ cm_expn_table_entries (ct s1) = v6_expn_table_entries init.
Proof.
  intros Hok Hrun. assert (Hf1 : flags_ok s1).
  { destruct (ct_init_cmd_ok s init Hok) as (r & s' & Hr & [Hf _]). rewrite Hrun in Hr.
    by injection Hr as _ <-. }
  split; [done|]. revert Hrun. unfold ipa3_ipv6ct_init_cmd.
  destruct (Z.ltb_spec ipa_hw_type IPA_HW_v4_0) as [?|H4]; [done|].
  destruct (fl_ct _ (proj1 Hok)) as (_ & _ & Hd). rewrite (proj2 (Z.leb_le _ _) H4) in Hd.
  destruct (IPA_VALID_TBL_INDEX _); [|done]. destruct (_ || _); [done|].
  destruct (cm_is_mapped _); [|done]. cbn [negb].
  destruct (check_ct_total s IPA_NAT_MEM_IN_DDR (v6_base_table_offset init)
    (v6_table_entries init + 1) Hd H4) as [r1 ->]. cbn [mbind option_bind].
  destruct (Z.eqb_spec r1 0); cbn [negb]; [|intros [= ? _]; lia].
  destruct (check_ct_total s IPA_NAT_MEM_IN_DDR (v6_expn_table_offset init)
    (v6_expn_table_entries init) Hd H4) as [r2 ->]. cbn [mbind option_bind].
  destruct (Z.eqb_spec r2 0); cbn [negb]; [|intros [= ? _]; lia].
  match goal with |- context [ipa3_ipv6ct_send_init_cmd s ?cmd] =>
    destruct (send_ct_init_spec s cmd H4) as (r3 & s3 & -> & C3 & _) end.
  cbn [mbind option_bind]. destruct (Z.eqb_spec r3 0); cbn [negb]; [|intros [= ? _]; lia].
  unfold ipa3_nat_ipv6ct_init_device_structure. cbn [device]. rewrite C3, Hd. cbn [mbind option_bind].
  intros [= <-]. done.
Qed.

(** An entry for a table of [n] bytes. *)
Lemma validate_one_iff s nmi raw ty n :
  raw_base_addr raw = tbl_number ty -> 0 <= raw_offset raw ->
  (ct_type ty = true -> IPA_HW_v4_0 <= ipa_hw_type) ->
  cm_is_hw_init (device s (if ct_type ty then DEV_IPV6CT else DEV_NAT)) = true ->
  ipa3_nat_ipv6ct_calculate_table_size s nmi (tbl_number ty) = Some n ->
  ipa3_table_validate_table_dma_one s nmi raw = Some 0
  <-> raw_table_index raw < 1 /\ raw_offset raw < n.
Proof.
  intros Hb Ho Hct Hhw Hs. unfold ipa3_table_validate_table_dma_one.
  rewrite Hb, tbl_of_number_tbl_number, Hs. 
  replace (match ty with IPA_IPV6CT_BASE_TBL | IPA_IPV6CT_EXPN_TBL => _ | _ => _ end) with false.
  - cbn [mbind option_bind]. destruct (Z.leb_spec 1 (raw_table_index raw)); [split; [done|lia]|].
    destruct (Z.eqb_spec n 0); [split; [done|lia]|].
    destruct (Z.leb_spec n (raw_offset raw)); split; (done || lia).
  - destruct ty; cbn in Hct, Hhw |- *; rewrite Hhw; try done; by rewrite (proj2 (Z.ltb_ge _ _) (Hct eq_refl)).
Qed.

Lemma calculate_nat_size s nmi init ty :
  flags_ok s -> nmi = IPA_NAT_MEM_IN_DDR \/ nmi = IPA_NAT_MEM_IN_SRAM -> wf_nat_init init ->
  nat_sizes s nmi (v4_table_entries init) (v4_expn_table_entries init) -> ct_type ty = false ->
  ipa3_nat_ipv6ct_calculate_table_size s nmi (tbl_number ty) = Some (nat_table_bytes init ty).
Proof.
  intros Hf Hn (_ & He & Hx) [S1 S2] Hty. unfold ipa3_nat_ipv6ct_calculate_table_size.
  rewrite (loc_lookup s nmi (fl_locs _ Hf) Hn), tbl_of_number_tbl_number. cbn [mbind option_bind].
  destruct (entry_size_v3 _ cfg_supported) as [H1 H2]. rewrite S1, S2.
  destruct ty; try done; rewrite ?H1, ?H2; cbn [mbind option_bind nat_table_bytes];
    by rewrite (u32_small (_ : Z)), u32_small by (rewrite ?u32_small; lia).
Qed.

Lemma calculate_ct_size s nmi init ty :
  flags_ok s -> nmi = IPA_NAT_MEM_IN_DDR \/ nmi = IPA_NAT_MEM_IN_SRAM -> IPA_HW_v4_0 <= ipa_hw_type ->
  0 <= v6_table_entries init < 2 ^ 16 -> 0 <= v6_expn_table_entries init < 2 ^ 16 ->
  cm_table_entries (ct s) = v6_table_entries init ->
  cm_expn_table_entries (ct s) = v6_expn_table_entries init -> ct_type ty = true ->
  ipa3_nat_ipv6ct_calculate_table_size s nmi (tbl_number ty) = Some (ct_table_bytes init ty).
Proof.
  intros Hf Hn H4 He Hx S1 S2 Hty. unfold ipa3_nat_ipv6ct_calculate_table_size. cbn [device]. fold (ct s).
  rewrite (loc_lookup s nmi (fl_locs _ Hf) Hn), tbl_of_number_tbl_number. cbn [mbind option_bind].
  rewrite S1, S2.
  destruct ty; try done; rewrite (proj2 (entry_size_v4 _ cfg_supported H4));
    cbn [mbind option_bind ct_table_bytes];
    by rewrite (u32_small (_ : Z)), u32_small by (rewrite ?u32_small; lia).
Qed.
End DmaEntries.
