(* ===== verification/NatTable.v ===== *)
(** * NAT tables: creation, rules, PDNs ([ipanat/src/ipa_nat_drvi.c])

    The state of the library is the two NAT caches (DDR and SRAM), the PDN
    table, the hash token and the state [K] of the environment.  Every
    operation returns its status and the new state; [None] stands for
    undefined behaviour (a null descriptor dereferenced, an access outside a
    table or the PDN array). *)
From S2P Require Import Prelude Bitfield Table Sizing TableDma NatRule Env.

(** ** Table handles *)

Definition IPA_NAT_MAX_IP4_TBLS : Z := 1.
Definition MAX_DMA_ENTRIES_FOR_ADD : nat := 4.
Definition MAX_DMA_ENTRIES_FOR_DEL : nat := 3.
Definition IPA_NAT_DEV_NAME : string := "ipaNatTable".

Definition MAKE_TBL_HDL (hdl mt : Z) : Z := u32 (Z.lor (Z.shiftl mt 31) hdl).

(** Memory type and table number. *)
Definition BREAK_TBL_HDL (hdl_in : Z) : Z * Z :=
  (Z.land (Z.shiftr hdl_in 31) 1, Z.land hdl_in 0xFF).

Definition VALID_TBL_HDL (h : Z) : bool := Z.land h 0xFF =? IPA_NAT_MAX_IP4_TBLS.

(** ** State *)

Record ipa_nat_ip4_table_cache := mk_ip4_table_cache {
  public_addr : Z;
  mem_desc : ipa_mem_descriptor;
  table : ipa_table nat_user;
  index_table : ipa_table Z
}.

Record ipa_nat_cache := mk_nat_cache {
  ipa_desc : option ipa_descriptor;
  ip4_tbl : list ipa_nat_ip4_table_cache;
  table_cnt : Z;
  nc_nmi : Z
}.

Definition ip4_table_cache_zero : ipa_nat_ip4_table_cache :=
  mk_ip4_table_cache 0 mem_desc_zero ipa_table_zero ipa_table_zero.

Definition nat_cache_zero : ipa_nat_cache :=
  mk_nat_cache None [ip4_table_cache_zero] 0 IPA_NAT_MEM_IN_DDR.

Definition with_table (nt : ipa_nat_ip4_table_cache) (t : ipa_table nat_user) :=
  mk_ip4_table_cache (public_addr nt) (mem_desc nt) t (index_table nt).
Definition with_index_table (nt : ipa_nat_ip4_table_cache) (t : ipa_table Z) :=
  mk_ip4_table_cache (public_addr nt) (mem_desc nt) (table nt) t.
Definition with_mem_desc (nt : ipa_nat_ip4_table_cache) (d : ipa_mem_descriptor) :=
  mk_ip4_table_cache (public_addr nt) d (table nt) (index_table nt).

Definition with_desc (c : ipa_nat_cache) (d : option ipa_descriptor) :=
  mk_nat_cache d (ip4_tbl c) (table_cnt c) (nc_nmi c).
Definition with_cnt (c : ipa_nat_cache) (n : Z) :=
  mk_nat_cache (ipa_desc c) (ip4_tbl c) n (nc_nmi c).
Definition with_nmi (c : ipa_nat_cache) (n : Z) :=
  mk_nat_cache (ipa_desc c) (ip4_tbl c) (table_cnt c) n.
Definition with_tbl (c : ipa_nat_cache) (i : Z) (nt : ipa_nat_ip4_table_cache) :=
  mk_nat_cache (ipa_desc c) (ip4_tbl c).[i <- nt] (table_cnt c) (nc_nmi c).

Record nat_state (K : Type) := mk_nat_state {
  ipv4_nat_cache : list ipa_nat_cache;
  active_nat_cache_ptr : option Z;
  pdns : list ipa_nat_pdn_entry;
  num_pdns : Z;
  Hash_token : Z;
  env : K
}.
Arguments mk_nat_state {K}.
Arguments ipv4_nat_cache {K}.
Arguments active_nat_cache_ptr {K}.
Arguments pdns {K}.
Arguments num_pdns {K}.
Arguments Hash_token {K}.
Arguments env {K}.

(** The state when the library is loaded. *)
Definition nat_state_init {K} (k : K) : nat_state K :=
  mk_nat_state [nat_cache_zero; nat_cache_zero] None
    (replicate (Z.to_nat IPA_MAX_PDN_NUM) pdn_zero) 0 69 k.

Section Setters.
Context {K : Type}.
Implicit Types (s : nat_state K).

Definition with_caches s c : nat_state K :=
  mk_nat_state c (active_nat_cache_ptr s) (pdns s) (num_pdns s) (Hash_token s) (env s).
Definition with_cache s nmi c : nat_state K := with_caches s (ipv4_nat_cache s).[nmi <- c].
Definition with_active s a : nat_state K :=
  mk_nat_state (ipv4_nat_cache s) a (pdns s) (num_pdns s) (Hash_token s) (env s).
Definition with_pdns s p n : nat_state K :=
  mk_nat_state (ipv4_nat_cache s) (active_nat_cache_ptr s) p n (Hash_token s) (env s).
Definition with_token s t : nat_state K :=
  mk_nat_state (ipv4_nat_cache s) (active_nat_cache_ptr s) (pdns s) (num_pdns s) t (env s).
Definition with_env s k : nat_state K :=
  mk_nat_state (ipv4_nat_cache s) (active_nat_cache_ptr s) (pdns s) (num_pdns s)
    (Hash_token s) k.
End Setters.

(** The hardware's view of the two tables, and back. *)
Definition tables_mem (nt : ipa_nat_ip4_table_cache) : tbl_mem := fun ty =>
  match ty with
  | IPA_NAT_BASE_TBL => take (Z.to_nat (table_entries (table nt))) (slots (table nt))
  | IPA_NAT_EXPN_TBL => drop (Z.to_nat (table_entries (table nt))) (slots (table nt))
  | IPA_NAT_INDX_TBL =>
      take (Z.to_nat (table_entries (index_table nt))) (slots (index_table nt))
  | IPA_NAT_INDEX_EXPN_TBL =>
      drop (Z.to_nat (table_entries (index_table nt))) (slots (index_table nt))
  | _ => []
  end.

Definition with_tables_mem (nt : ipa_nat_ip4_table_cache) (m : tbl_mem)
    : ipa_nat_ip4_table_cache :=
  mk_ip4_table_cache (public_addr nt) (mem_desc nt)
    (with_slots (table nt) (m IPA_NAT_BASE_TBL ++ m IPA_NAT_EXPN_TBL))
    (with_slots (index_table nt) (m IPA_NAT_INDX_TBL ++ m IPA_NAT_INDEX_EXPN_TBL)).

(** ** Creation and destruction *)

Definition ipa_nati_create_table_dma_cmd_helpers (nt : ipa_nat_ip4_table_cache)
    (table_indx : Z) : ipa_nat_ip4_table_cache :=
  let off := addr_offset (mem_desc nt) in
  let flags := ipa_table_dma_cmd_helper_init table_indx IPA_NAT_BASE_TBL IPA_NAT_EXPN_TBL
    (off + IPA_NAT_RULE_FLAG_FIELD_OFFSET) in
  let next := ipa_table_dma_cmd_helper_init table_indx IPA_NAT_BASE_TBL IPA_NAT_EXPN_TBL
    (off + IPA_NAT_RULE_NEXT_FIELD_OFFSET) in
  let proto := ipa_table_dma_cmd_helper_init table_indx IPA_NAT_BASE_TBL IPA_NAT_EXPN_TBL
    (off + IPA_NAT_RULE_PROTO_FIELD_OFFSET) in
  let ientry := ipa_table_dma_cmd_helper_init table_indx IPA_NAT_INDX_TBL
    IPA_NAT_INDEX_EXPN_TBL (off + IPA_NAT_INDEX_RULE_NAT_INDEX_FIELD_OFFSET) in
  let inext := ipa_table_dma_cmd_helper_init table_indx IPA_NAT_INDX_TBL
    IPA_NAT_INDEX_EXPN_TBL (off + IPA_NAT_INDEX_RULE_NEXT_FIELD_OFFSET) in
  with_index_table
    (with_table nt
       (with_dma_help (table nt) (fun ht =>
          match ht with
          | HELP_UPDATE_HEAD => Some flags
          | HELP_UPDATE_ENTRY => Some next
          | HELP_DELETE_HEAD => Some proto
          | HELP_UPDATE_MAX => None
          end)))
    (with_dma_help (index_table nt) (fun ht =>
       match ht with
       | HELP_UPDATE_HEAD => Some ientry
       | HELP_UPDATE_ENTRY => Some inext
       | HELP_DELETE_HEAD => Some ientry
       | HELP_UPDATE_MAX => None
       end)).

Section Operations.
Context {K : Type} {E : IpaEnv K}.
Implicit Types (k : K) (s : nat_state K) (c : ipa_nat_cache)
  (nt : ipa_nat_ip4_table_cache).

Definition ipa_nati_create_table c nt (public_ip_addr number_of_entries table_index : Z) k
    : option (Z * ipa_nat_ip4_table_cache * K) :=
  let t : ipa_table nat_user :=
    ipa_table_init "IPA NAT table" (nc_nmi c) sizeof_ipa_nat_rule None 0
      (Some nat_entry_interface) in
  let nt := mk_ip4_table_cache public_ip_addr (mem_desc nt) t (index_table nt) in
  '(ret, t) ← ipa_table_calculate_entries_num t number_of_entries (nc_nmi c);
  let nt := with_table nt t in
  if negb (ret =? 0) then Some (ret, nt, k) else
  let '(ok, k) :=
    env_calloc (expn_table_entries t * sizeof_ipa_nat_indx_tbl_meta_info) k in
  if negb ok then Some (- ENOMEM, nt, k) else
  let meta := replicate (Z.to_nat (expn_table_entries t)) 0 in
  let it : ipa_table Z :=
    ipa_table_init "IPA NAT index table" (nc_nmi c) sizeof_ipa_nat_indx_tbl_rule
      (Some meta) sizeof_ipa_nat_indx_tbl_meta_info (Some index_entry_interface) in
  let it := with_sizes it (table_entries t) (expn_table_entries t) (tot_tbl_ents t) in
  let size := ipa_table_calculate_size t + ipa_table_calculate_size it in
  let md := ipa_mem_descriptor_init (mem_desc nt) IPA_NAT_DEV_NAME size table_index
    IPA_IOC_ALLOC_NAT_TABLE IPA_IOC_DEL_NAT_TABLE true in
  d ← ipa_desc c;
  let '(ret, md, k) := ipa_mem_descriptor_allocate_memory md (fd d) k in
  if negb (ret =? 0) then Some (ret, ip4_table_cache_zero, k) else
  let top := mmap_addr md + mmap_size md in
  let base := base_addr md in
  let '(t, next) := ipa_table_calculate_addresses t base
    (mapped_records k top base (entry_size t) (tot_tbl_ents t)) in
  let '(it, _) := ipa_table_calculate_addresses it next
    (mapped_records k top next (entry_size it) (tot_tbl_ents it)) in
  t ← ipa_table_reset t;
  it ← ipa_table_reset it;
  Some (0, ipa_nati_create_table_dma_cmd_helpers
             (mk_ip4_table_cache public_ip_addr md t it) table_index, k).

Definition ipa_nati_destroy_table c nt k : option (Z * ipa_nat_ip4_table_cache * K) :=
  d ← ipa_desc c;
  let '(ret, _, k) := ipa_mem_descriptor_delete (mem_desc nt) (fd d) k in
  Some (ret, ip4_table_cache_zero, k).

Definition ipa_nati_post_ipv4_init_cmd c nt (tbl_index : Z) (focus_change : bool) k
    : option (Z * K) :=
  let rules := addr_offset (mem_desc nt) in
  let expn := u32 (rules + table_entries (table nt) * sizeof_ipa_nat_rule) in
  let index := u32 (expn + expn_table_entries (table nt) * sizeof_ipa_nat_rule) in
  let index_expn :=
    u32 (index + table_entries (index_table nt) * sizeof_ipa_nat_indx_tbl_rule) in
  d ← ipa_desc c;
  Some (env_v4_init (fd d)
    (mk_v4_init tbl_index rules expn index index_expn
       (u16 (table_entries (table nt) - 1)) (expn_table_entries (table nt))
       (public_addr nt) (nc_nmi c) focus_change) k).

Definition ipa_nati_post_ipv4_dma_cmd c nt (cmd : ipa_ioc_nat_dma_cmd) k
    : option (Z * ipa_nat_ip4_table_cache * K) :=
  let cmd := mk_dma_cmd (entries cmd) (nc_nmi c) (dma cmd) in
  d ← ipa_desc c;
  let '(ret, m, k) := env_table_dma (fd d) cmd (tables_mem nt) k in
  Some (if ret =? 0 then 0 else - EIO, with_tables_mem nt m, k).

(** ** PDNs *)

Definition set_pdn s (i : Z) (p : ipa_nat_pdn_entry) : option (nat_state K) :=
  l ← storeZ (pdns s) i p; Some (with_pdns s l (num_pdns s)).

Definition ipa_nati_modify_pdn s (entry : ipa_ioc_nat_pdn_entry)
    : option (Z * nat_state K) :=
  ddr ← (ipv4_nat_cache s).[IPA_NAT_MEM_IN_DDR];
  sram ← (ipv4_nat_cache s).[IPA_NAT_MEM_IN_SRAM];
  match (match ipa_desc ddr with Some d => Some d | None => ipa_desc sram end) with
  | None => Some (- EIO, s)
  | Some d =>
      let '(ret, k) := env_modify_pdn (fd d) entry (env s) in
      let s := with_env s k in
      if negb (ret =? 0) then Some (ret, s) else
      s ← set_pdn s (ioc_pdn_index entry)
            (mk_pdn (ioc_public_ip entry) (ioc_src_metadata entry) (ioc_dst_metadata entry));
      Some (ret, s)
  end.

(** The index of the first of the PDNs from [i] on with the address. *)
Fixpoint get_pdn_index_loop (n : nat) (l : list ipa_nat_pdn_entry) (i ip : Z)
    : option (option Z) :=
  match n with
  | O => Some None
  | S n' =>
      p ← l.[i];
      if public_ip p =? ip then Some (Some i) else get_pdn_index_loop n' l (i + 1) ip
  end.

(** Status and index (written on success). *)
Definition ipa_nati_get_pdn_index s (ip : Z) : option (Z * option Z) :=
  r ← get_pdn_index_loop (Z.to_nat (IPA_MAX_PDN_NUM - 1)) (pdns s) 0 ip;
  match r with
  | Some i => Some (0, Some (u8 i))
  | None => Some (- EIO, None)
  end.

Inductive pdn_search := pdn_same (i : Z) | pdn_empty (i : Z) | pdn_full.

(** The search loop of [ipa_nati_alloc_pdn]. *)
Fixpoint alloc_pdn_loop (n : nat) (l : list ipa_nat_pdn_entry) (i ip : Z)
    : option pdn_search :=
  match n with
  | O => Some pdn_full
  | S n' =>
      p ← l.[i];
      if public_ip p =? ip then Some (pdn_same i)
      else if decide (p = pdn_zero) then Some (pdn_empty i)
      else alloc_pdn_loop n' l (i + 1) ip
  end.

(** Status, index (when written) and state. *)
Definition ipa_nati_alloc_pdn s (pdn_info : ipa_nat_pdn_entry)
    : option (Z * option Z * nat_state K) :=
  if IPA_MAX_PDN_NUM - 1 <=? num_pdns s then Some (- EIO, None, s) else
  r ← alloc_pdn_loop (Z.to_nat (IPA_MAX_PDN_NUM - 1)) (pdns s) 0 (public_ip pdn_info);
  match r with
  | pdn_same i => Some (0, Some (u8 i), s)
  | pdn_full => Some (- EIO, None, s)
  | pdn_empty i =>
      '(ret, s) ← ipa_nati_modify_pdn s
        (mk_ioc_pdn (u8 i) (public_ip pdn_info) (src_metadata pdn_info)
           (dst_metadata pdn_info));
      if ret =? 0 then Some (ret, Some (u8 i), with_pdns s (pdns s) (num_pdns s + 1))
      else Some (ret, None, s)
  end.

Definition ipa_nati_get_pdn_cnt s : Z := num_pdns s.

Definition ipa_nati_dealloc_pdn s (pdn_index : Z) : option (Z * nat_state K) :=
  if num_pdns s =? 0 then Some (- EIO, s) else
  p ← (pdns s).[pdn_index];
  if decide (p = pdn_zero) then Some (- EIO, s) else
  '(ret, s) ← ipa_nati_modify_pdn s (mk_ioc_pdn pdn_index 0 0 0);
  if negb (ret =? 0) then Some (- EIO, s) else
  l ← storeZ (pdns s) pdn_index pdn_zero;
  Some (0, with_pdns s l (num_pdns s - 1)).
End Operations.
