(* ===== verification/NatOps.v ===== *)
(** * NAT table and rule operations ([ipanat/src/ipa_nat_drvi.c])

    The [ipa_NATI_*] functions: table creation and deletion, insertion and
    deletion of rules, time stamps.  The body a function runs with the mutex held is a
    definition of its own ([..._locked]). *)
From S2P Require Import Prelude Bitfield Table Sizing TableDma NatRule Env NatTable.

(** Release the mutex; a failure overrides a status of zero. *)
Definition unlock_nat {K} {E : IpaEnv K} (ret : Z) (s : nat_state K) : Z * nat_state K :=
  let '(u, k) := env_unlock (env s) in
  ((if u =? 0 then ret else if ret =? 0 then - EPERM else ret), with_env s k).

Section Operations.
Context {K : Type} {E : IpaEnv K}.
Implicit Types (k : K) (s : nat_state K) (c : ipa_nat_cache)
  (nt : ipa_nat_ip4_table_cache).

(** ** Tables *)

Definition ipa_NATI_post_ipv4_init_cmd s (tbl_hdl : Z) : option (Z * nat_state K) :=
  let '(nmi, tbl_hdl) := BREAK_TBL_HDL tbl_hdl in
  if negb (IPA_VALID_NAT_MEM_IN nmi) then Some (- EINVAL, s) else
  c ← (ipv4_nat_cache s).[nmi];
  let '(l, k) := env_lock (env s) in
  let s := with_env s k in
  if negb (l =? 0) then Some (- EINVAL, s) else
  if table_cnt c =? 0 then Some (unlock_nat (- EINVAL) s) else
  nt ← (ip4_tbl c).[tbl_hdl - 1];
  '(ret, k) ← ipa_nati_post_ipv4_init_cmd c nt (tbl_hdl - 1) true (env s);
  let s := with_env s k in
  if negb (ret =? 0) then Some (unlock_nat ret s) else
  Some (unlock_nat ret (with_active s (Some nmi))).

(** The descriptor is opened for the first table. *)
Definition open_for_table c k : bool * ipa_nat_cache * K :=
  match ipa_desc c with
  | Some _ => (true, c, k)
  | None =>
      let '(d, k) := ipa_descriptor_open k in
      (match d with Some _ => true | None => false end, with_desc c d, k)
  end.

(** The label [failed_create_table]: the descriptor is closed again unless
    there are other tables. *)
Definition failed_create_table s (nmi : Z) c : nat_state K :=
  if table_cnt c =? 0
  then with_env (with_cache s nmi (with_desc c None))
         (ipa_descriptor_close (ipa_desc c) (env s))
  else with_cache s nmi c.

(** The table is created and posted to the hardware. *)
Definition create_ipv4_tbl s (nmi : Z) c (public_ip_addr number_of_entries : Z)
    : option (Z * Z * nat_state K) :=
  let i := table_cnt c in
  nt ← (ip4_tbl c).[i];
  '(ret, nt, k) ← ipa_nati_create_table c nt public_ip_addr number_of_entries i (env s);
  let c := with_tbl c i nt in
  let s := with_env s k in
  if negb (ret =? 0) then Some (ret, 0, failed_create_table s nmi c) else
  '(ret, k) ← ipa_nati_post_ipv4_init_cmd c nt i false (env s);
  let s := with_env s k in
  if negb (ret =? 0) then
    '(_, nt, k) ← ipa_nati_destroy_table c nt (env s);
    Some (ret, 0, failed_create_table (with_env s k) nmi (with_tbl c i nt))
  else
  let s := with_active s (Some nmi) in
  p ← (pdns s).[0];
  let s := with_pdns s (pdns s).[0 <- mk_pdn public_ip_addr (src_metadata p) (dst_metadata p)] 1 in
  let c := with_cnt c (u8 (table_cnt c + 1)) in
  Some (ret, MAKE_TBL_HDL (table_cnt c) nmi, with_cache s nmi c).

(** The body of [ipa_NATI_add_ipv4_tbl] between lock and unlock: status,
    handle and state. *)
Definition add_ipv4_tbl_locked s (nmi public_ip_addr number_of_entries : Z)
    : option (Z * Z * nat_state K) :=
  c ← (ipv4_nat_cache s).[nmi];
  let c := with_nmi c nmi in
  let s := with_cache s nmi c in
  if IPA_NAT_MAX_IP4_TBLS <=? table_cnt c then Some (- EINVAL, 0, s) else
  let '(opened, c, k) := open_for_table c (env s) in
  let s := with_env (with_cache s nmi c) k in
  if negb opened then Some (- EIO, 0, s) else
  create_ipv4_tbl s nmi c public_ip_addr number_of_entries.

(** Status, table handle and state. *)
Definition ipa_NATI_add_ipv4_tbl s (nmi public_ip_addr number_of_entries : Z)
    : option (Z * Z * nat_state K) :=
  if negb (IPA_VALID_NAT_MEM_IN nmi) then Some (- EINVAL, 0, s) else
  let '(l, k) := env_lock (env s) in
  let s := with_env s k in
  if negb (l =? 0) then Some (- EINVAL, 0, s) else
  '(ret, tbl_hdl, s) ← add_ipv4_tbl_locked s nmi public_ip_addr number_of_entries;
  let '(u, k) := env_unlock (env s) in
  Some (if u =? 0 then ret else - EPERM, tbl_hdl, with_env s k).

Definition ipa_NATI_del_ipv4_table s (tbl_hdl : Z) : option (Z * nat_state K) :=
  let '(nmi, tbl_hdl) := BREAK_TBL_HDL tbl_hdl in
  if negb (IPA_VALID_NAT_MEM_IN nmi) then Some (- EINVAL, s) else
  c ← (ipv4_nat_cache s).[nmi];
  let '(l, k) := env_lock (env s) in
  let s := with_env s k in
  if negb (l =? 0) then Some (- EINVAL, s) else
  nt ← (ip4_tbl c).[tbl_hdl - 1];
  if negb (md_valid (mem_desc nt)) then Some (unlock_nat (- EINVAL) s) else
  '(ret, nt, k) ← ipa_nati_destroy_table c nt (env s);
  let c := with_tbl c (tbl_hdl - 1) nt in
  let s := with_env (with_cache s nmi c) k in
  if negb (ret =? 0) then Some (unlock_nat ret s) else
  let c := with_cnt c (u8 (table_cnt c - 1)) in
  let '(c, k) :=
    if table_cnt c =? 0 then (with_desc c None, ipa_descriptor_close (ipa_desc c) (env s))
    else (c, env s) in
  Some (unlock_nat ret (with_env (with_cache s nmi c) k)).

(** ** Time stamps *)

(** Status, time stamp (when written) and state. *)
Definition ipa_NATI_query_timestamp s (tbl_hdl rule_hdl : Z)
    : option (Z * option Z * nat_state K) :=
  let '(nmi, tbl_hdl) := BREAK_TBL_HDL tbl_hdl in
  if negb (IPA_VALID_NAT_MEM_IN nmi) then Some (- EINVAL, None, s) else
  c ← (ipv4_nat_cache s).[nmi];
  let '(l, k) := env_lock (env s) in
  let s := with_env s k in
  if negb (l =? 0) then Some (- EINVAL, None, s) else
  nt ← (ip4_tbl c).[tbl_hdl - 1];
  if negb (md_valid (mem_desc nt)) then
    let '(ret, s) := unlock_nat (- EINVAL) s in Some (ret, None, s)
  else
  match ipa_table_get_entry (table nt) rule_hdl with
  | (ret, Some (rule_ptr, _)) =>
      rule ← rec_load (table nt) rule_ptr;
      let '(ret, s) := unlock_nat ret s in Some (ret, Some (getf time_stamp rule), s)
  | (ret, None) => let '(ret, s) := unlock_nat ret s in Some (ret, None, s)
  end.

(** ** Adding a rule *)

(** The bucket of the NAT table and the next hash token. *)
Definition nat_bucket (hw_ver pub_ip : Z) (r : ipa_nat_ipv4_rule) (entries token : Z)
    : Z * Z :=
  let h := dst_hash hw_ver pub_ip (u_target_ip r) (u_target_port r) (u_public_port r)
             (u_protocol r) (u16 (entries - 1)) in
  if u_src_only r then
    let i := Z.land (u16 (h + token)) (entries - 1) in
    ((if i =? 0 then u16 (entries - 1) else i), token + 1)
  else (h, token).

(** The bucket of the index table and the next hash token. *)
Definition index_bucket (r : ipa_nat_ipv4_rule) (entries token : Z) : Z * Z :=
  let h := src_hash (u_private_ip r) (u_private_port r) (u_target_ip r) (u_target_port r)
             (u_protocol r) (u16 (entries - 1)) in
  if u_dst_only r then
    let i := Z.land (u16 (h + token)) (entries - 1) in
    ((if i =? 0 then u16 (entries - 1) else i), token + 1)
  else (h, token).

(** The fields written after both insertions. *)
Definition finish_rule (rule : Z) (r : ipa_nat_ipv4_rule) (index_entry : Z) : Z :=
  let e := setf indx_tbl_entry rule index_entry in
  let e := setf redirect e (u_redirect r) in
  let e := setf enable e (u_enable r) in
  setf time_stamp e (u_time_stamp r).

(** The body of [ipa_NATI_add_ipv4_rule] with the mutex held and the table
    found valid: status, rule handle, hash token, tables and environment. *)
Definition add_ipv4_rule_locked c nt (pdns : list ipa_nat_pdn_entry)
    (r : ipa_nat_ipv4_rule) (token : Z) k
    : option (Z * Z * Z * ipa_nat_ip4_table_cache * K) :=
  d ← ipa_desc c;
  p ← pdns.[u_pdn_index r];
  let cmd := dma_cmd_zero MAX_DMA_ENTRIES_FOR_ADD in
  let '(bucket, token) :=
    nat_bucket (ver d) (public_ip p) r (table_entries (table nt)) token in
  '(ret, t, new_entry_index, hdl, cmd) ←
    ipa_table_add_entry (table nt) (pdns, r) bucket (Some 0) cmd;
  let nt := with_table nt t in
  if negb (ret =? 0) then Some (ret, 0, token, nt, k) else
  let new_entry_handle := default 0 hdl in
  let '(ibucket, token) := index_bucket r (table_entries (table nt)) token in
  '(ret, it, new_index_tbl_entry_index, _, cmd) ←
    ipa_table_add_entry (index_table nt) new_entry_index ibucket None cmd;
  let nt := with_index_table nt it in
  let erase_table nt := t ← ipa_table_erase_entry (table nt) new_entry_index;
                        Some (with_table nt t) in
  let erase_both nt := it ← ipa_table_erase_entry (index_table nt) new_index_tbl_entry_index;
                       erase_table (with_index_table nt it) in
  if negb (ret =? 0) then
    nt ← erase_table nt; Some (ret, 0, token, nt, k)
  else
  let rule := ipa_table_get_entry_by_index (table nt) new_entry_index in
  if rule =? NULL then nt ← erase_both nt; Some (- EPERM, 0, token, nt, k) else
  e ← rec_load (table nt) rule;
  t ← rec_store (table nt) rule (finish_rule e r new_index_tbl_entry_index);
  let nt := with_table nt t in
  '(ret, nt, k) ← ipa_nati_post_ipv4_dma_cmd c nt cmd k;
  if negb (ret =? 0) then nt ← erase_both nt; Some (ret, 0, token, nt, k)
  else Some (ret, new_entry_handle, token, nt, k).

(** Status, rule handle (of a non-null handle pointer) and state. *)
Definition ipa_NATI_add_ipv4_rule s (tbl_hdl : Z) (clnt_rule : option ipa_nat_ipv4_rule)
    (rule_hdl : option Z) : option (Z * option Z * nat_state K) :=
  match clnt_rule, rule_hdl with
  | Some r, Some _ =>
      if negb (VALID_TBL_HDL tbl_hdl) then Some (- EINVAL, rule_hdl, s) else
      let '(nmi, tbl_hdl) := BREAK_TBL_HDL tbl_hdl in
      if negb (IPA_VALID_NAT_MEM_IN nmi) then Some (- EINVAL, Some 0, s) else
      c ← (ipv4_nat_cache s).[nmi];
      if u_protocol r =? IPAHAL_NAT_INVALID_PROTOCOL then Some (- EINVAL, Some 0, s) else
      (* the error message reads the PDN even when its index is too large *)
      p ← (pdns s).[u_pdn_index r];
      if (IPA_MAX_PDN_NUM <=? u_pdn_index r) || (public_ip p =? 0)
      then Some (- EINVAL, Some 0, s) else
      let '(l, k) := env_lock (env s) in
      let s := with_env s k in
      if negb (l =? 0) then Some (- EINVAL, Some 0, s) else
      nt ← (ip4_tbl c).[tbl_hdl - 1];
      if negb (md_valid (mem_desc nt)) then
        let '(_, k) := env_unlock (env s) in Some (- EINVAL, Some 0, with_env s k)
      else
      '(ret, hdl, token, nt, k) ←
        add_ipv4_rule_locked c nt (pdns s) r (Hash_token s) (env s);
      let s := with_token (with_cache s nmi (with_tbl c (tbl_hdl - 1) nt)) token in
      let '(u, k) := env_unlock k in
      let s := with_env s k in
      if negb (ret =? 0) then Some (ret, Some 0, s)
      else if u =? 0 then Some (ret, Some hdl, s)
      else Some (- EPERM, Some 0, s)
  | _, _ => Some (- EINVAL, rule_hdl, s)
  end.

(** ** Deleting a rule *)

(** The rule of the second member of an index chain now sits at the head. *)
Definition ipa_nati_copy_second_index_entry_to_head nt (it : ipa_table_iterator)
    (cmd : ipa_ioc_nat_dma_cmd)
    : option (ipa_nat_ip4_table_cache * ipa_ioc_nat_dma_cmd) :=
  index_table_rule ← rec_load (index_table nt) (next_entry it);
  '(_, cmd) ← ipa_table_add_dma_cmd (index_table nt) HELP_UPDATE_ENTRY (curr_entry it)
                (curr_index it) (getf ir_next_index index_table_rule) cmd;
  let entry := getf tbl_entry index_table_rule in
  let t := table nt in
  let ptr :=
    if entry <? table_entries t then table_addr t + entry * sizeof_ipa_nat_rule
    else expn_table_addr t + u16 (entry - table_entries t) * sizeof_ipa_nat_rule in
  e ← rec_load t ptr;
  t ← rec_store t ptr (setf indx_tbl_entry e (curr_index it));
  Some (with_table nt t, cmd).

(** The NAT record is erased, unless it heads a chain with members. *)
Definition nat_delete_step (t : ipa_table nat_user) (tit : ipa_table_iterator)
    : option (ipa_table nat_user) :=
  if negb (ipa_table_iterator_is_head_with_tail tit) then
    is_prev_empty ←
      (if prev_entry tit =? NULL then Some false
       else prev ← rec_load t (prev_entry tit);
            Some (getf protocol prev =? IPAHAL_NAT_INVALID_PROTOCOL));
    ipa_table_delete_entry t tit is_prev_empty
  else Some t.

(** The index record is erased and its previous index cleared. *)
Definition idx_delete_step (it : ipa_table Z) (iit : ipa_table_iterator)
    : option (ipa_table Z) :=
  it ← ipa_table_delete_entry it iit false;
  if table_entries it <=? curr_index iit then
    m ← meta it;
    m ← storeZ m (curr_index iit - table_entries it) IPA_TABLE_INVALID_ENTRY;
    Some (with_meta it (Some m))
  else Some it.

(** The end of [ipa_NATI_del_ipv4_rule]: the command is completed and
    posted, then the records are erased. *)
Definition del_ipv4_rule_commit c nt (cmd : ipa_ioc_nat_dma_cmd)
    (tit iit : ipa_table_iterator) k : option (Z * ipa_nat_ip4_table_cache * K) :=
  cmd ← ipa_table_create_delete_command (table nt) cmd tit;
  '(ret, nt, k) ← ipa_nati_post_ipv4_dma_cmd c nt cmd k;
  if negb (ret =? 0) then Some (ret, nt, k) else
  t ← nat_delete_step (table nt) tit;
  it ← idx_delete_step (index_table nt) iit;
  Some (ret, with_index_table (with_table nt t) it, k).

(** The body of [ipa_NATI_del_ipv4_rule] with the mutex held and the table
    found valid: status, tables and environment. *)
Definition del_ipv4_rule_locked c nt (rule_hdl : Z) k
    : option (Z * ipa_nat_ip4_table_cache * K) :=
  match ipa_table_get_entry (table nt) rule_hdl with
  | (ret, None) => Some (ret, nt, k)
  | (_, Some (table_rule, index)) =>
      '(ret, tit) ← ipa_table_iterator_init (table nt) table_rule index;
      if negb (ret =? 0) then Some (ret, nt, k) else
      rule ← rec_load (table nt) table_rule;
      let index := getf indx_tbl_entry rule in
      let index_table_rule := ipa_table_get_entry_by_index (index_table nt) index in
      if index_table_rule =? NULL then Some (- EPERM, nt, k) else
      '(ret, iit) ← ipa_table_iterator_init (index_table nt) index_table_rule index;
      if negb (ret =? 0) then Some (ret, nt, k) else
      let cmd := dma_cmd_zero MAX_DMA_ENTRIES_FOR_DEL in
      cmd ← ipa_table_create_delete_command (index_table nt) cmd iit;
      if ipa_table_iterator_is_head_with_tail iit then
        '(nt, cmd) ← ipa_nati_copy_second_index_entry_to_head nt iit cmd;
        '(ret, iit) ← ipa_table_iterator_next iit (index_table nt);
        if negb (ret =? 0) then Some (ret, nt, k)
        else del_ipv4_rule_commit c nt cmd tit iit k
      else del_ipv4_rule_commit c nt cmd tit iit k
  end.

Definition ipa_NATI_del_ipv4_rule s (tbl_hdl rule_hdl : Z) : option (Z * nat_state K) :=
  let '(nmi, tbl_hdl) := BREAK_TBL_HDL tbl_hdl in
  if negb (IPA_VALID_NAT_MEM_IN nmi) then Some (- EINVAL, s) else
  c ← (ipv4_nat_cache s).[nmi];
  let '(l, k) := env_lock (env s) in
  let s := with_env s k in
  if negb (l =? 0) then Some (- EINVAL, s) else
  nt ← (ip4_tbl c).[tbl_hdl - 1];
  if negb (md_valid (mem_desc nt)) then Some (unlock_nat (- EINVAL) s) else
  '(ret, nt, k) ← del_ipv4_rule_locked c nt rule_hdl (env s);
  Some (unlock_nat ret (with_env (with_cache s nmi (with_tbl c (tbl_hdl - 1) nt)) k)).
End Operations.
