(* ===== verification/NatWalk.v ===== *)
(** * Clearing, copying, walking and measuring NAT tables
    ([ipanat/src/ipa_nat_drvi.c])

    A walk calls back into code that may change the library's state (the copy
    of a table adds the rules it visits to another table), so it runs on a
    state [St] that contains the NAT state. *)
From S2P Require Import Prelude Bitfield Table Sizing TableDma NatRule Env NatTable NatOps.
From Stdlib Require Import SpecFloat.

Inductive WhichTbl2Use := USE_NAT_TABLE | USE_INDEX_TABLE | USE_MAX.

Definition VALID_WHICHTBL2USE (w : WhichTbl2Use) : bool :=
  match w with USE_MAX => false | _ => true end.

Record ipa_nati_tbl_stats := mk_tbl_stats {
  st_nmi : Z;
  tot_ents : Z;
  tot_base_ents : Z;
  tot_base_ents_filled : Z;
  tot_expn_ents : Z;
  tot_expn_ents_filled : Z;
  tot_chains : Z;
  min_chain_len : Z;
  max_chain_len : Z;
  avg_chain_len : spec_float
}.

Definition float_zero : spec_float := S754_zero false.

Definition tbl_stats_zero : ipa_nati_tbl_stats := mk_tbl_stats 0 0 0 0 0 0 0 0 0 float_zero.

(** The quotient of two counters as single precision floats. *)
Definition float_ratio (a b : Z) : spec_float :=
  SFdiv 24 128 (float_of_Z 24 128 a) (float_of_Z 24 128 b).

Record chain_stat_help := mk_chain_stat_help {
  csh_which : WhichTbl2Use;
  tot_for_avg : Z;
  csh_stats : ipa_nati_tbl_stats
}.

(** ** Chain statistics *)

(** The index of the next record in the chain, as read by the two branches. *)
Definition chain_next (which : WhichTbl2Use) (e : Z) : Z :=
  match which with USE_NAT_TABLE => getf nr_next_index e | _ => getf ir_next_index e end.

(** The [while] loop over the records after [e]. *)
Fixpoint chain_len_loop {U} (fuel : nat) (t : ipa_table U) (which : WhichTbl2Use) (e chain_len : Z)
    : option Z :=
  match fuel with
  | O => None
  | S fuel' =>
      if chain_next which e =? 0 then Some chain_len
      else e' ← rec_load t (GOTO_REC t (chain_next which e));
           chain_len_loop fuel' t which e' (u32 (chain_len + 1))
  end.

(** The counters after a chain of the given length. *)
Definition count_chain (csh : chain_stat_help) (chain_len : Z) : chain_stat_help :=
  let st := csh_stats csh in
  mk_chain_stat_help (csh_which csh) (u32 (tot_for_avg csh + chain_len))
    (mk_tbl_stats (st_nmi st) (tot_ents st) (tot_base_ents st) (tot_base_ents_filled st)
       (tot_expn_ents st) (tot_expn_ents_filled st) (u32 (tot_chains st + 1))
       (if min_chain_len st =? 0 then chain_len
        else if min_chain_len st <? chain_len then min_chain_len st else chain_len)
       (if chain_len <? max_chain_len st then max_chain_len st else chain_len)
       (avg_chain_len st)).

(** The fuel is the number of records plus one. *)
Definition gen_chain_stats {U} : ipa_table_walk_cb U (ipa_table U * chain_stat_help) :=
  fun t rule_hdl record_ptr record_index _ _ s =>
    let csh := snd s in
    let '(_, is_expn_tbl, _) := BREAK_RULE_HDL t rule_hdl in
    if negb (is_expn_tbl =? 0) then Some (1, s) else
    e ← rec_load t record_ptr;
    chain_len ←
      (if chain_next (csh_which csh) e =? 0 then Some 0
       else chain_len_loop (S (length (slots t))) t (csh_which csh) e 1);
    if chain_len =? 0 then Some (0, s) else Some (0, (fst s, count_chain csh chain_len)).

(** The stanza of [ipa_NATI_ipv4_tbl_stats] for one of the tables: status of
    the walk and statistics. *)
Definition table_stats {U} (which : WhichTbl2Use) (nmi : Z) (t : ipa_table U)
    : option (Z * ipa_nati_tbl_stats) :=
  let st := mk_tbl_stats nmi (u32 (table_entries t + expn_table_entries t)) (table_entries t)
    (cur_tbl_cnt t) (expn_table_entries t) (cur_expn_tbl_cnt t) 0 0 0 float_zero in
  '(ret, s) ← ipa_table_walk fst 0 WHEN_SLOT_FILLED gen_chain_stats
                (t, mk_chain_stat_help which 0 st);
  let csh := snd s in
  let st := csh_stats csh in
  Some (ret,
    if negb (ret <? 0) && negb (tot_for_avg csh =? 0) && negb (tot_chains st =? 0)
    then mk_tbl_stats (st_nmi st) (tot_ents st) (tot_base_ents st) (tot_base_ents_filled st)
           (tot_expn_ents st) (tot_expn_ents_filled st) (tot_chains st) (min_chain_len st)
           (max_chain_len st) (float_ratio (tot_for_avg csh) (tot_chains st))
    else st).

Section NatOperations.
Context {K : Type} {E : IpaEnv K}.
Implicit Types (k : K) (s : nat_state K) (c : ipa_nat_cache) (nt : ipa_nat_ip4_table_cache).

(** ** SRAM and its clock *)

(** Status, size (when written) and state. *)
Definition ipa_nati_get_sram_size s : option (Z * option Z * nat_state K) :=
  let '(l, k) := env_lock (env s) in
  let s := with_env s k in
  if negb (l =? 0) then Some (- EINVAL, None, s) else
  c ← (ipv4_nat_cache s).[IPA_NAT_MEM_IN_SRAM];
  let '(opened, c, k) := open_for_table c (env s) in
  let s := with_env (with_cache s IPA_NAT_MEM_IN_SRAM c) k in
  if negb opened then let '(ret, s) := unlock_nat (- EIO) s in Some (ret, None, s) else
  d ← ipa_desc c;
  let '(ret, info, k) := env_get_sram_info (fd d) (env s) in
  let s := with_env s k in
  if negb (ret =? 0) then let '(ret, s) := unlock_nat ret s in Some (ret, None, s) else
  let size := sram_mem_available_for_nat info in
  let '(ret, s) := unlock_nat (if size =? 0 then - EINVAL else 0) s in
  Some (ret, Some size, s).

Definition ipa_nati_vote_clock s (vote_type : Z) : option (Z * nat_state K) :=
  c ← (ipv4_nat_cache s).[IPA_NAT_MEM_IN_SRAM];
  let '(opened, c, k) := open_for_table c (env s) in
  let s := with_env (with_cache s IPA_NAT_MEM_IN_SRAM c) k in
  if negb opened then Some (- EIO, s) else
  d ← ipa_desc c;
  let '(ret, k) := env_vote_clock (fd d) vote_type (env s) in
  Some (ret, with_env s k).

(** ** Clearing *)

Definition clear_table nt : option ipa_nat_ip4_table_cache :=
  t ← ipa_table_reset (table nt);
  it ← ipa_table_reset (index_table nt);
  Some (with_index_table (with_table nt (with_counts t 0 0)) (with_counts it 0 0)).

Definition ipa_NATI_clear_ipv4_tbl s (tbl_hdl : Z) : option (Z * nat_state K) :=
  let '(nmi, tbl_hdl) := BREAK_TBL_HDL tbl_hdl in
  if negb (IPA_VALID_NAT_MEM_IN nmi) then Some (- EINVAL, s) else
  c ← (ipv4_nat_cache s).[nmi];
  let '(l, k) := env_lock (env s) in
  let s := with_env s k in
  if negb (l =? 0) then Some (- EINVAL, s) else
  if table_cnt c =? 0 then Some (unlock_nat (- EINVAL) s) else
  nt ← (ip4_tbl c).[tbl_hdl - 1];
  nt ← clear_table nt;
  Some (unlock_nat 0 (with_cache s nmi (with_tbl c (tbl_hdl - 1) nt))).

(** ** Statistics *)

(** Status, statistics of the NAT and of the index table (when written) and
    state. *)
Definition ipa_NATI_ipv4_tbl_stats s (tbl_hdl : Z)
    : option (Z * option (ipa_nati_tbl_stats * ipa_nati_tbl_stats) * nat_state K) :=
  if negb (VALID_TBL_HDL tbl_hdl) then Some (- EINVAL, None, s) else
  let '(l, k) := env_lock (env s) in
  let s := with_env s k in
  if negb (l =? 0) then Some (- EINVAL, None, s) else
  let unlock ret n i := let '(ret, s) := unlock_nat ret s in Some (ret, Some (n, i), s) in
  let '(nmi, broken_tbl_hdl) := BREAK_TBL_HDL tbl_hdl in
  if negb (IPA_VALID_NAT_MEM_IN nmi) then unlock (- EINVAL) tbl_stats_zero tbl_stats_zero else
  c ← (ipv4_nat_cache s).[nmi];
  if table_cnt c =? 0 then unlock (- EINVAL) tbl_stats_zero tbl_stats_zero else
  nt ← (ip4_tbl c).[broken_tbl_hdl - 1];
  '(ret, nat_stats) ← table_stats USE_NAT_TABLE nmi (table nt);
  if ret <? 0 then unlock (- EINVAL) nat_stats tbl_stats_zero else
  '(ret, idx_stats) ← table_stats USE_INDEX_TABLE nmi (index_table nt);
  if ret <? 0 then unlock (- EINVAL) nat_stats idx_stats else
  unlock 0 nat_stats idx_stats.
End NatOperations.

(** ** Walks *)

Section Walks.
Context {K : Type} {E : IpaEnv K} {St : Type}.
Context (nat_of : St -> nat_state K) (with_nat : St -> nat_state K -> St).

(** A callback for either table; [None] is the null pointer. *)
Definition nat_walk_cb : Type := forall U, ipa_table_walk_cb U St.

(** The table of a state a walk goes through. *)
Definition walked_table (nmi i : Z) (st : St) : ipa_nat_ip4_table_cache :=
  default ip4_table_cache_zero
    (c ← (ipv4_nat_cache (nat_of st)).[nmi]; (ip4_tbl c).[i]).

Definition unlock_st (ret : Z) (st : St) : Z * St :=
  let '(ret, s) := unlock_nat ret (nat_of st) in (ret, with_nat st s).

Definition ipa_NATI_walk_ipv4_tbl (st : St) (tbl_hdl : Z) (which : WhichTbl2Use)
    (walk_cb : option nat_walk_cb) : option (Z * St) :=
  match walk_cb with
  | None => Some (- EINVAL, st)
  | Some cb =>
      if negb (VALID_TBL_HDL tbl_hdl) || negb (VALID_WHICHTBL2USE which)
      then Some (- EINVAL, st) else
      let '(l, k) := env_lock (env (nat_of st)) in
      let st := with_nat st (with_env (nat_of st) k) in
      if negb (l =? 0) then Some (- EINVAL, st) else
      let '(nmi, broken_tbl_hdl) := BREAK_TBL_HDL tbl_hdl in
      if negb (IPA_VALID_NAT_MEM_IN nmi) then Some (unlock_st (- EINVAL) st) else
      c ← (ipv4_nat_cache (nat_of st)).[nmi];
      if table_cnt c =? 0 then Some (unlock_st (- EINVAL) st) else
      nt ← (ip4_tbl c).[broken_tbl_hdl - 1];
      '(ret, st) ←
        match which with
        | USE_NAT_TABLE =>
            ipa_table_walk (fun st => table (walked_table nmi (broken_tbl_hdl - 1) st)) 0
              WHEN_SLOT_FILLED (cb nat_user) st
        | _ =>
            ipa_table_walk (fun st => index_table (walked_table nmi (broken_tbl_hdl - 1) st)) 0
              WHEN_SLOT_FILLED (cb Z) st
        end;
      Some (unlock_st ret st)
  end.

(** The callback is given the destination's handle. *)
Definition ipa_nati_copy_ipv4_tbl (st : St) (src_tbl_hdl dst_tbl_hdl : Z)
    (copy_cb : option (Z -> nat_walk_cb)) : option (Z * St) :=
  match copy_cb with
  | None => Some (- EINVAL, st)
  | Some cb =>
      let '(l, k) := env_lock (env (nat_of st)) in
      let st := with_nat st (with_env (nat_of st) k) in
      if negb (l =? 0) then Some (- EINVAL, st) else
      '(ret, s) ← ipa_NATI_clear_ipv4_tbl (nat_of st) dst_tbl_hdl;
      let st := with_nat st s in
      if negb (ret =? 0) then Some (unlock_st ret st) else
      '(ret, st) ← ipa_NATI_walk_ipv4_tbl st src_tbl_hdl USE_NAT_TABLE (Some (cb dst_tbl_hdl));
      Some (unlock_st ret st)
  end.
End Walks.
