(* ===== verification/NatMap.v ===== *)
(** * Handle maps ([ipanat/src/ipa_nat_map.cpp])

    An array of [std::map]s from 32-bit keys to 32-bit values.  An index
    outside the array is undefined behaviour ([None]): [VALID_IPA_USE_MAP]
    accepts every index. *)
From S2P Require Import Prelude.

Definition MAP_NUM_00 : Z := 0.
Definition MAP_NUM_01 : Z := 1.
Definition MAP_NUM_02 : Z := 2.
Definition MAP_NUM_03 : Z := 3.
Definition MAP_NUM_99 : Z := 4.
Definition MAP_NUM_MAX : Z := 5.

(** As written, with a disjunction; an unsigned index is never negative. *)
Definition VALID_IPA_USE_MAP (w : Z) : bool := (MAP_NUM_00 <=? w) || (w <? MAP_NUM_MAX).

Abbreviation map_arrays := (list (gmap Z Z)).

Definition map_array_init : map_arrays := replicate (Z.to_nat MAP_NUM_MAX) ∅.

(** Status and maps. *)
Definition ipa_nat_map_add (ms : map_arrays) (which key val : Z) : option (Z * map_arrays) :=
  if negb (VALID_IPA_USE_MAP which) then Some (-1, ms) else
  m ← ms.[which];
  match m !! key with
  | Some _ => Some (-1, ms)
  | None => Some (0, ms.[which <- <[key := val]> m])
  end.

(** Status and value (when written). *)
Definition ipa_nat_map_find (ms : map_arrays) (which key : Z) : option (Z * option Z) :=
  if negb (VALID_IPA_USE_MAP which) then Some (-1, None) else
  m ← ms.[which];
  match m !! key with
  | Some v => Some (0, Some v)
  | None => Some (-1, None)
  end.

(** Status, value (when written) and maps. *)
Definition ipa_nat_map_del (ms : map_arrays) (which key : Z)
    : option (Z * option Z * map_arrays) :=
  if negb (VALID_IPA_USE_MAP which) then Some (-1, None, ms) else
  m ← ms.[which];
  match m !! key with
  | Some v => Some (0, Some v, ms.[which <- delete key m])
  | None => Some (-1, None, ms)
  end.

Definition ipa_nat_map_clear (ms : map_arrays) (which : Z) : option (Z * map_arrays) :=
  if negb (VALID_IPA_USE_MAP which) then Some (-1, ms) else
  _ ← ms.[which];
  Some (0, ms.[which <- ∅]).
