(* ===== verification/Statemach.v ===== *)
(** * The state machine above the tables ([ipanat/src/ipa_nat_statemach.c])

    The machine decides which of the two NAT tables, in DDR or in SRAM, a call
    works on, moves the rules from one to the other, and translates the rule
    handles the client was given to the current ones.

    A callback's argument array is a value of [arb]; the cells its pointers
    point to are the fields of that value, and a callback returns it with the
    cells' new contents. *)
From S2P Require Import Prelude Bitfield Table Sizing TableDma NatRule Env NatTable NatOps NatWalk.
From S2P Require Import NatMap.
From Stdlib Require Import SpecFloat Ascii.

Inductive ipa_nati_state :=
  | NATI_STATE_NULL
  | NATI_STATE_DDR_ONLY
  | NATI_STATE_SRAM_ONLY
  | NATI_STATE_HYBRID
  | NATI_STATE_HYBRID_DDR
  | NATI_STATE_LAST.

#[export] Instance ipa_nati_state_eq_dec : EqDecision ipa_nati_state.
Proof. solve_decision. Defined.

Inductive ipa_nati_trigger :=
  | NATI_TRIG_NULL
  | NATI_TRIG_ADD_TABLE
  | NATI_TRIG_DEL_TABLE
  | NATI_TRIG_CLR_TABLE
  | NATI_TRIG_WLK_TABLE
  | NATI_TRIG_TBL_STATS
  | NATI_TRIG_ADD_RULE
  | NATI_TRIG_DEL_RULE
  | NATI_TRIG_TBL_SWITCH
  | NATI_TRIG_GOTO_DDR
  | NATI_TRIG_GOTO_SRAM
  | NATI_TRIG_GET_TSTAMP
  | NATI_TRIG_LAST.

#[export] Instance ipa_nati_trigger_eq_dec : EqDecision ipa_nati_trigger.
Proof. solve_decision. Defined.

(** ** Names of the memory types *)

(** The lower case of a letter. *)
Definition tolower (c : ascii) : ascii :=
  let n := nat_of_ascii c in
  if (65 <=? n)%nat && (n <=? 90)%nat then ascii_of_nat (n + 32) else c.

Fixpoint lower (s : string) : string :=
  match s with EmptyString => EmptyString | String c s' => String (tolower c) (lower s') end.

Definition strcasesame (a b : string) : bool := String.eqb (lower a) (lower b).

Definition mem_type_str_to_ipa_nati_state (str : option string) : ipa_nati_state :=
  match str with
  | Some s =>
      if strcasesame s "HYBRID" then NATI_STATE_HYBRID
      else if strcasesame s "SRAM" then NATI_STATE_SRAM_ONLY
      else NATI_STATE_DDR_ONLY
  | None => NATI_STATE_DDR_ONLY
  end.

(** ** The machine's state *)

Inductive mem_sub := DDR_SUB | SRAM_SUB.

#[export] Instance mem_sub_eq_dec : EqDecision mem_sub.
Proof. solve_decision. Defined.

(** An array of two, indexed by [DDR_SUB] and [SRAM_SUB]. *)
Record per_mem (A : Type) := mk_per_mem { in_ddr : A; in_sram : A }.
Arguments mk_per_mem {A}.
Arguments in_ddr {A}.
Arguments in_sram {A}.

Definition at_sub {A} (p : per_mem A) (sub : mem_sub) : A :=
  match sub with DDR_SUB => in_ddr p | SRAM_SUB => in_sram p end.

Definition set_sub {A} (p : per_mem A) (sub : mem_sub) (x : A) : per_mem A :=
  match sub with
  | DDR_SUB => mk_per_mem x (in_sram p)
  | SRAM_SUB => mk_per_mem (in_ddr p) x
  end.

Record nati_switch_stats := mk_switch_stats { pass : Z; fail : Z }.

Record nati_map_pair := mk_map_pair { orig2new_map : Z; new2orig_map : Z }.

Record ipa_nati_obj := mk_nati_obj {
  prev_state : ipa_nati_state;
  curr_state : ipa_nati_state;
  hold_state : bool;
  state_to_hold : ipa_nati_state;
  ddr_tbl_hdl : Z;
  sram_tbl_hdl : Z;
  tot_slots_in_sram : Z;
  back_to_sram_thresh : Z;
  tot_rules_in_table : per_mem Z;
  map_pairs : per_mem nati_map_pair;
  sw_stats : per_mem nati_switch_stats
}.

Definition nati_obj_init : ipa_nati_obj :=
  mk_nati_obj NATI_STATE_NULL NATI_STATE_NULL false NATI_STATE_NULL 0 0 0 0
    (mk_per_mem 0 0)
    (mk_per_mem (mk_map_pair MAP_NUM_00 MAP_NUM_01) (mk_map_pair MAP_NUM_02 MAP_NUM_03))
    (mk_per_mem (mk_switch_stats 0 0) (mk_switch_stats 0 0)).

(** The library: the tables, the machine, the handle maps and whether the
    mutex was initialised. *)
Record nat_mgr (K : Type) := mk_nat_mgr {
  mgr_nat : nat_state K;
  nati_obj : ipa_nati_obj;
  map_array : map_arrays;
  nat_mutex_init : bool
}.
Arguments mk_nat_mgr {K}.
Arguments mgr_nat {K}.
Arguments nati_obj {K}.
Arguments map_array {K}.
Arguments nat_mutex_init {K}.

Definition nat_mgr_init {K} (k : K) : nat_mgr K :=
  mk_nat_mgr (nat_state_init k) nati_obj_init map_array_init false.

Section Setters.
Context {K : Type}.
Implicit Types (m : nat_mgr K).

Definition with_mgr_nat m s : nat_mgr K :=
  mk_nat_mgr s (nati_obj m) (map_array m) (nat_mutex_init m).
Definition with_obj m o : nat_mgr K :=
  mk_nat_mgr (mgr_nat m) o (map_array m) (nat_mutex_init m).
Definition with_maps m ms : nat_mgr K :=
  mk_nat_mgr (mgr_nat m) (nati_obj m) ms (nat_mutex_init m).
Definition with_init m b : nat_mgr K :=
  mk_nat_mgr (mgr_nat m) (nati_obj m) (map_array m) b.

Implicit Types (o : ipa_nati_obj).

Definition with_states o prev curr : ipa_nati_obj :=
  mk_nati_obj prev curr (hold_state o) (state_to_hold o) (ddr_tbl_hdl o) (sram_tbl_hdl o)
    (tot_slots_in_sram o) (back_to_sram_thresh o) (tot_rules_in_table o) (map_pairs o) (sw_stats o).
Definition with_hold o hold st : ipa_nati_obj :=
  mk_nati_obj (prev_state o) (curr_state o) hold st (ddr_tbl_hdl o) (sram_tbl_hdl o)
    (tot_slots_in_sram o) (back_to_sram_thresh o) (tot_rules_in_table o) (map_pairs o) (sw_stats o).
Definition with_tbl_hdls o ddr sram : ipa_nati_obj :=
  mk_nati_obj (prev_state o) (curr_state o) (hold_state o) (state_to_hold o) ddr sram
    (tot_slots_in_sram o) (back_to_sram_thresh o) (tot_rules_in_table o) (map_pairs o) (sw_stats o).
Definition with_slots_in_sram o n thresh : ipa_nati_obj :=
  mk_nati_obj (prev_state o) (curr_state o) (hold_state o) (state_to_hold o) (ddr_tbl_hdl o)
    (sram_tbl_hdl o) n thresh (tot_rules_in_table o) (map_pairs o) (sw_stats o).
Definition with_tot_rules o p : ipa_nati_obj :=
  mk_nati_obj (prev_state o) (curr_state o) (hold_state o) (state_to_hold o) (ddr_tbl_hdl o)
    (sram_tbl_hdl o) (tot_slots_in_sram o) (back_to_sram_thresh o) p (map_pairs o) (sw_stats o).
Definition with_sw_stats o p : ipa_nati_obj :=
  mk_nati_obj (prev_state o) (curr_state o) (hold_state o) (state_to_hold o) (ddr_tbl_hdl o)
    (sram_tbl_hdl o) (tot_slots_in_sram o) (back_to_sram_thresh o) (tot_rules_in_table o)
    (map_pairs o) p.

(** ** The macros of the state machine *)

Definition SET_NATIOBJ_STATE m (st : ipa_nati_state) : nat_mgr K :=
  with_obj m (with_states (nati_obj m) (curr_state (nati_obj m)) st).
Definition BACK2_UNSTARTED_STATE m : nat_mgr K :=
  with_obj m (with_states (nati_obj m) NATI_STATE_NULL NATI_STATE_NULL).
End Setters.

Definition IN_UNSTARTED_STATE (o : ipa_nati_obj) : bool :=
  bool_decide (prev_state o = NATI_STATE_NULL).
Definition in_state (o : ipa_nati_obj) (st : ipa_nati_state) : bool :=
  bool_decide (curr_state o = st).
Definition IN_HYBRID_STATE (o : ipa_nati_obj) : bool :=
  in_state o NATI_STATE_HYBRID || in_state o NATI_STATE_HYBRID_DDR.
Definition COMPATIBLE_NMI_4SWITCH (o : ipa_nati_obj) (n : Z) : bool :=
  (n =? IPA_NAT_MEM_IN_SRAM) && in_state o NATI_STATE_HYBRID_DDR
  || (n =? IPA_NAT_MEM_IN_DDR) && in_state o NATI_STATE_HYBRID
  || (n =? IPA_NAT_MEM_IN_DDR) && in_state o NATI_STATE_DDR_ONLY
  || (n =? IPA_NAT_MEM_IN_SRAM) && in_state o NATI_STATE_SRAM_ONLY.
Definition GEN_HOLD_STATE (o : ipa_nati_obj) : ipa_nati_state :=
  if negb (IN_HYBRID_STATE o) then curr_state o
  else if in_state o NATI_STATE_HYBRID then NATI_STATE_SRAM_ONLY else NATI_STATE_DDR_ONLY.
Definition SRAM_CURRENTLY_ACTIVE (o : ipa_nati_obj) : bool :=
  in_state o NATI_STATE_SRAM_ONLY || in_state o NATI_STATE_HYBRID.
Definition SRAM_TO_BE_ACCESSED (o : ipa_nati_obj) (t : ipa_nati_trigger) : bool :=
  SRAM_CURRENTLY_ACTIVE o || bool_decide (t = NATI_TRIG_GOTO_SRAM)
  || bool_decide (t = NATI_TRIG_TBL_SWITCH).
Definition VOTE_REQUIRED (o : ipa_nati_obj) (t : ipa_nati_trigger) : bool :=
  SRAM_TO_BE_ACCESSED o t && negb (bool_decide (t = NATI_TRIG_GET_TSTAMP))
  && negb (bool_decide (t = NATI_TRIG_ADD_TABLE)).
Definition CHOOSE_MEM_SUB (o : ipa_nati_obj) : mem_sub :=
  if in_state o NATI_STATE_HYBRID then SRAM_SUB else DDR_SUB.
Definition CHOOSE_MAPS (o : ipa_nati_obj) : nati_map_pair := at_sub (map_pairs o) (CHOOSE_MEM_SUB o).

(** [.25 * v], stored in a [uint32_t]. *)
Definition PRCNT_OF (v : Z) : Z := u32 (mul_double v (double_lit 25 100)).

(** ** Arguments of a trigger *)

Section Machine.
Context {K : Type} {E : IpaEnv K}.
Implicit Types (m : nat_mgr K).

Definition mgr_walk_cb : Type := nat_walk_cb (St := nat_mgr K).

(** The cells: the table handle, the client's rule and rule handle, the time
    stamp, the two statistics. *)
Inductive arb :=
  | arb_null
  | arb_add_tbl (public_ip_addr number_of_entries tbl_hdl : Z) (mem_type : option string)
  | arb_tbl (tbl_hdl : Z)
  | arb_walk (tbl_hdl : Z) (which : WhichTbl2Use) (walk_cb : option mgr_walk_cb)
  | arb_stats (tbl_hdl : Z) (nat_stats idx_stats : ipa_nati_tbl_stats)
  | arb_add_rule (tbl_hdl : Z) (clnt_rule : ipa_nat_ipv4_rule) (rule_hdl : Z)
  | arb_rule (tbl_hdl rule_hdl : Z)
  | arb_tstamp (tbl_hdl rule_hdl time_stamp : Z).

(** Status, arguments with the cells' contents, library. *)
Abbreviation sm_result := (option (Z * arb * nat_mgr K)).

(** ** The mutex and the clock *)

Definition mgr_env m : K := env (mgr_nat m).
Definition with_mgr_env m (k : K) : nat_mgr K := with_mgr_nat m (with_env (mgr_nat m) k).

Definition mutex_init m : Z * nat_mgr K :=
  let '(ret, k) := env_mutexattr_init (mgr_env m) in
  let m := with_mgr_env m k in
  if negb (ret =? 0) then (ret, m) else
  let '(ret, k) := env_mutexattr_settype (mgr_env m) in
  let m := with_mgr_env m k in
  if negb (ret =? 0) then (ret, m) else
  let '(ret, k) := env_mutex_init (mgr_env m) in
  let m := with_mgr_env m k in
  if negb (ret =? 0) then (ret, m) else (ret, with_init m true).

Definition take_mutex m : Z * nat_mgr K :=
  let lock m := let '(ret, k) := env_lock (mgr_env m) in (ret, with_mgr_env m k) in
  if nat_mutex_init m then lock m
  else let '(ret, m) := mutex_init m in if ret =? 0 then lock m else (ret, m).

Definition give_mutex m : Z * nat_mgr K :=
  if nat_mutex_init m
  then let '(ret, k) := env_unlock (mgr_env m) in (ret, with_mgr_env m k)
  else (-1, m).

Definition IPA_APP_CLK_DEVOTE : Z := 0.
Definition IPA_APP_CLK_VOTE : Z := 1.
Definition IPA_APP_CLK_RESET_VOTE : Z := 2.

Definition ipa_nat_vote_clock m (vote_type : Z) : option (Z * nat_mgr K) :=
  if negb ((IPA_APP_CLK_DEVOTE <=? vote_type) && (vote_type <=? IPA_APP_CLK_RESET_VOTE))
  then Some (- EINVAL, m) else
  '(ret, s) ← ipa_nati_vote_clock (mgr_nat m) vote_type;
  Some (ret, with_mgr_nat m s).

(** ** Counters and maps *)

Definition count_rules m (sub : mem_sub) (f : Z -> Z) : nat_mgr K :=
  let p := tot_rules_in_table (nati_obj m) in
  with_obj m (with_tot_rules (nati_obj m) (set_sub p sub (u32 (f (at_sub p sub))))).

(** The counter of a memory type is reset and its maps are cleared. *)
Definition forget_rules m (sub : mem_sub) : option (nat_mgr K) :=
  let m := count_rules m sub (fun _ => 0) in
  let p := at_sub (map_pairs (nati_obj m)) sub in
  '(_, ms) ← ipa_nat_map_clear (map_array m) (orig2new_map p);
  '(_, ms) ← ipa_nat_map_clear ms (new2orig_map p);
  Some (with_maps m ms).

(** A rule's original and current handle point to each other. *)
Definition map_handles m (p : nati_map_pair) (orig new : Z) : option (Z * nat_mgr K) :=
  '(ret, ms) ← ipa_nat_map_add (map_array m) (orig2new_map p) orig new;
  let m := with_maps m ms in
  if negb (ret =? 0) then Some (ret, m) else
  '(ret, ms) ← ipa_nat_map_add (map_array m) (new2orig_map p) new orig;
  Some (ret, with_maps m ms).

(** ** Moving a rule *)

(** The client's rule of a record. *)
Definition rule_of_record (e : Z) : ipa_nat_ipv4_rule :=
  mk_ipv4_rule (getf target_ip e) (getf private_ip e) (getf target_port e) (getf private_port e)
    (getf public_port e) (getf protocol e) (getf pdn_index e) (getf redirect e) (getf enable e)
    (getf time_stamp e) (getf uc_activation_index e) (negb (getf s_bit e =? 0))
    (negb (getf ucp e =? 0)) (negb (getf dst_only e =? 0)) (negb (getf src_only e =? 0)).

Definition migrate_rule (dst_tbl_hdl : Z) : mgr_walk_cb :=
  fun U table_ptr tbl_rule_hdl record_ptr _ _ _ m =>
    let pairs := map_pairs (nati_obj m) in
    let '(src, dst) :=
      if nmi table_ptr =? IPA_NAT_MEM_IN_SRAM then (SRAM_SUB, DDR_SUB) else (DDR_SUB, SRAM_SUB) in
    e ← rec_load table_ptr record_ptr;
    if getf protocol e =? IPAHAL_NAT_INVALID_PROTOCOL then Some (0, m) else
    '(ret, orig) ← ipa_nat_map_find (map_array m) (new2orig_map (at_sub pairs src)) tbl_rule_hdl;
    match orig with
    | None => Some (ret, m)
    | Some orig_rule_hdl =>
        '(ret, new, s) ← ipa_NATI_add_ipv4_rule (mgr_nat m) dst_tbl_hdl (Some (rule_of_record e)) (Some 0);
        let m := with_mgr_nat m s in
        if negb (ret =? 0) then Some (ret, m) else
        let m := count_rules m dst (fun n => n + 1) in
        new_rule_hdl ← new;
        map_handles m (at_sub pairs dst) orig_rule_hdl new_rule_hdl
    end.

(** ** The callbacks *)

Section Callbacks.
(** The state machine, for the callbacks that run another trigger. *)
Context (ipa_nati_statemach : nat_mgr K -> ipa_nati_trigger -> arb -> sm_result).

Definition _smUndef m (trigger : ipa_nati_trigger) (args : arb) : sm_result := Some (-1, args, m).

Definition _smDelTbl m (trigger : ipa_nati_trigger) (args : arb) : sm_result :=
  match args with
  | arb_tbl tbl_hdl =>
      '(ret, s) ← ipa_NATI_del_ipv4_table (mgr_nat m) tbl_hdl;
      let m := with_mgr_nat m s in
      Some (ret, args,
            if (ret =? 0) && negb (IN_HYBRID_STATE (nati_obj m))
            then BACK2_UNSTARTED_STATE m else m)
  | _ => None
  end.

Definition _smFirstTbl m (trigger : ipa_nati_trigger) (args : arb) : sm_result :=
  match args with
  | arb_add_tbl _ _ _ mem_type_ptr =>
      let o := nati_obj m in
      let st := if hold_state o && negb (bool_decide (state_to_hold o = NATI_STATE_NULL))
                then state_to_hold o else mem_type_str_to_ipa_nati_state mem_type_ptr in
      ipa_nati_statemach (SET_NATIOBJ_STATE m st) NATI_TRIG_ADD_TABLE args
  | _ => None
  end.

Definition _smAddDdrTbl m (trigger : ipa_nati_trigger) (args : arb) : sm_result :=
  match args with
  | arb_add_tbl public_ip_addr number_of_entries tbl_hdl mem_type =>
      '(ret, hdl, s) ← ipa_NATI_add_ipv4_tbl (mgr_nat m) IPA_NAT_MEM_IN_DDR public_ip_addr number_of_entries;
      let m := with_mgr_nat m s in
      let m := with_obj m (with_tbl_hdls (nati_obj m) hdl (sram_tbl_hdl (nati_obj m))) in
      Some (ret,
            (if ret =? 0 then arb_add_tbl public_ip_addr number_of_entries hdl mem_type else args), m)
  | _ => None
  end.

Definition _smAddSramTbl m (trigger : ipa_nati_trigger) (args : arb) : sm_result :=
  match args with
  | arb_add_tbl public_ip_addr number_of_entries tbl_hdl mem_type =>
      '(ret, size, s) ← ipa_nati_get_sram_size (mgr_nat m);
      let m := with_mgr_nat m s in
      if negb (ret =? 0) then Some (ret, args, m) else
      '(ret, slots) ← ipa_calc_num_sram_table_entries (default 0 size) sizeof_ipa_nat_rule
                        sizeof_ipa_nat_indx_tbl_rule;
      let m := with_obj m (with_slots_in_sram (nati_obj m) slots (back_to_sram_thresh (nati_obj m))) in
      if negb (ret =? 0) then Some (ret, args, m) else
      let m := with_obj m (with_slots_in_sram (nati_obj m) slots (PRCNT_OF slots)) in
      '(ret, m) ← ipa_nat_vote_clock m IPA_APP_CLK_VOTE;
      if negb (ret =? 0) then Some (ret, args, m) else
      '(ret, hdl, s) ← ipa_NATI_add_ipv4_tbl (mgr_nat m) IPA_NAT_MEM_IN_SRAM public_ip_addr (u16 slots);
      let m := with_mgr_nat m s in
      let m := with_obj m (with_tbl_hdls (nati_obj m) (ddr_tbl_hdl (nati_obj m)) hdl) in
      '(_, m) ← ipa_nat_vote_clock m IPA_APP_CLK_DEVOTE;
      Some (ret,
            (if ret =? 0 then arb_add_tbl public_ip_addr number_of_entries hdl mem_type else args), m)
  | _ => None
  end.

Definition _smAddSramAndDdrTbl m (trigger : ipa_nati_trigger) (args : arb) : sm_result :=
  match args with
  | arb_add_tbl public_ip_addr number_of_entries _ _ =>
      m ← forget_rules m SRAM_SUB;
      m ← forget_rules m DDR_SUB;
      '(ret, args, m) ← _smAddSramTbl m trigger args;
      if ret =? 0 then
        if number_of_entries <=? tot_slots_in_sram (nati_obj m)
        then Some (ret, args, SET_NATIOBJ_STATE m NATI_STATE_SRAM_ONLY)
        else
          (* a cell of its own protects the client's handle *)
          '(ret, _, m) ← _smAddDdrTbl m trigger (arb_add_tbl public_ip_addr number_of_entries 0 None);
          if negb (ret =? 0) then Some (ret, args, m) else
          '(ret, _, m) ← ipa_nati_statemach m NATI_TRIG_GOTO_SRAM arb_null;
          Some (ret, args, m)
      else
        '(ret, args, m) ← _smAddDdrTbl m trigger args;
        Some (ret, args, if ret =? 0 then SET_NATIOBJ_STATE m NATI_STATE_DDR_ONLY else m)
  | _ => None
  end.

Definition _smDelSramAndDdrTbl m (trigger : ipa_nati_trigger) (args : arb) : sm_result :=
  m ← forget_rules m SRAM_SUB;
  m ← forget_rules m DDR_SUB;
  '(ret, args, m) ← _smDelTbl m trigger args;
  if negb (ret =? 0) then Some (ret, args, m) else
  '(ret, _, m) ← _smDelTbl m trigger (arb_tbl (ddr_tbl_hdl (nati_obj m)));
  Some (ret, args, if ret =? 0 then BACK2_UNSTARTED_STATE m else m).

Definition _smClrTbl m (trigger : ipa_nati_trigger) (args : arb) : sm_result :=
  match args with
  | arb_tbl tbl_hdl =>
      let '(nmi, _) := BREAK_TBL_HDL tbl_hdl in
      if negb (IPA_VALID_NAT_MEM_IN nmi) then Some (- EINVAL, args, m) else
      m ← forget_rules m (if nmi =? IPA_NAT_MEM_IN_SRAM then SRAM_SUB else DDR_SUB);
      '(ret, s) ← ipa_NATI_clear_ipv4_tbl (mgr_nat m) tbl_hdl;
      Some (ret, args, with_mgr_nat m s)
  | _ => None
  end.

(** The handle of the table in use in the hybrid states. *)
Definition hybrid_hdl m (tbl_hdl : Z) : Z :=
  if in_state (nati_obj m) NATI_STATE_HYBRID then tbl_hdl else ddr_tbl_hdl (nati_obj m).

Definition _smClrTblHybrid m (trigger : ipa_nati_trigger) (args : arb) : sm_result :=
  match args with
  | arb_tbl tbl_hdl =>
      '(ret, _, m) ← _smClrTbl m trigger (arb_tbl (hybrid_hdl m tbl_hdl)); Some (ret, args, m)
  | _ => None
  end.

Definition _smWalkTbl m (trigger : ipa_nati_trigger) (args : arb) : sm_result :=
  match args with
  | arb_walk tbl_hdl which walk_cb =>
      '(ret, m) ← ipa_NATI_walk_ipv4_tbl mgr_nat with_mgr_nat m tbl_hdl which walk_cb;
      Some (ret, args, m)
  | _ => None
  end.

Definition _smWalkTblHybrid m (trigger : ipa_nati_trigger) (args : arb) : sm_result :=
  match args with
  | arb_walk tbl_hdl which walk_cb =>
      '(ret, _, m) ← _smWalkTbl m trigger (arb_walk (hybrid_hdl m tbl_hdl) which walk_cb);
      Some (ret, args, m)
  | _ => None
  end.

Definition _smStatTbl m (trigger : ipa_nati_trigger) (args : arb) : sm_result :=
  match args with
  | arb_stats tbl_hdl nat_stats idx_stats =>
      '(ret, st, s) ← ipa_NATI_ipv4_tbl_stats (mgr_nat m) tbl_hdl;
      let '(ns, ixs) := default (nat_stats, idx_stats) st in
      Some (ret, arb_stats tbl_hdl ns ixs, with_mgr_nat m s)
  | _ => None
  end.

Definition _smStatTblHybrid m (trigger : ipa_nati_trigger) (args : arb) : sm_result :=
  match args with
  | arb_stats tbl_hdl nat_stats idx_stats =>
      '(ret, args', m) ← _smStatTbl m trigger (arb_stats (hybrid_hdl m tbl_hdl) nat_stats idx_stats);
      match args' with
      | arb_stats _ ns ixs => Some (ret, arb_stats tbl_hdl ns ixs, m)
      | _ => None
      end
  | _ => None
  end.

(** The client's rule is written to: three of its fields are cleared. *)
Definition strip_rule (r : ipa_nat_ipv4_rule) : ipa_nat_ipv4_rule :=
  mk_ipv4_rule (u_target_ip r) (u_private_ip r) (u_target_port r) (u_private_port r)
    (u_public_port r) (u_protocol r) (u_pdn_index r) 0 0 0 (u_uc_activation_index r)
    (u_s r) (u_ucp r) (u_dst_only r) (u_src_only r).

Definition _smAddRuleToTbl m (trigger : ipa_nati_trigger) (args : arb) : sm_result :=
  match args with
  | arb_add_rule tbl_hdl clnt_rule rule_hdl =>
      let clnt_rule := strip_rule clnt_rule in
      '(ret, hdl, s) ← ipa_NATI_add_ipv4_rule (mgr_nat m) tbl_hdl (Some clnt_rule) (Some rule_hdl);
      let m := with_mgr_nat m s in
      let m := if ret =? 0 then count_rules m (CHOOSE_MEM_SUB (nati_obj m)) (fun n => n + 1) else m in
      Some (ret, arb_add_rule tbl_hdl clnt_rule (default rule_hdl hdl), m)
  | _ => None
  end.

Definition _smDelRuleFromTbl m (trigger : ipa_nati_trigger) (args : arb) : sm_result :=
  match args with
  | arb_rule tbl_hdl rule_hdl =>
      '(ret, s) ← ipa_NATI_del_ipv4_rule (mgr_nat m) tbl_hdl rule_hdl;
      let m := with_mgr_nat m s in
      Some (ret, args,
            if ret =? 0 then count_rules m (CHOOSE_MEM_SUB (nati_obj m)) (fun n => n - 1) else m)
  | _ => None
  end.

Definition _smAddRuleHybrid m (trigger : ipa_nati_trigger) (args : arb) : sm_result :=
  match args with
  | arb_add_rule tbl_hdl clnt_rule rule_hdl =>
      '(ret, args', m) ← _smAddRuleToTbl m trigger
                           (arb_add_rule (hybrid_hdl m tbl_hdl) clnt_rule rule_hdl);
      match args' with
      | arb_add_rule _ clnt_rule rule_hdl =>
          let args := arb_add_rule tbl_hdl clnt_rule rule_hdl in
          if ret =? 0 then
            '(ret, m) ← map_handles m (CHOOSE_MAPS (nati_obj m)) rule_hdl rule_hdl;
            Some (ret, args, m)
          else if in_state (nati_obj m) NATI_STATE_HYBRID && negb (hold_state (nati_obj m)) then
            '(ret, _, m) ← ipa_nati_statemach m NATI_TRIG_TBL_SWITCH arb_null;
            if negb (ret =? 0) then Some (ret, args, m) else
            ipa_nati_statemach (SET_NATIOBJ_STATE m NATI_STATE_HYBRID_DDR) trigger args
          else Some (ret, args, m)
      | _ => None
      end
  | _ => None
  end.

Definition _smDelRuleHybrid m (trigger : ipa_nati_trigger) (args : arb) : sm_result :=
  match args with
  | arb_rule tbl_hdl orig_rule_hdl =>
      let maps := CHOOSE_MAPS (nati_obj m) in
      '(ret, new, ms) ← ipa_nat_map_del (map_array m) (orig2new_map maps) orig_rule_hdl;
      let m := with_maps m ms in
      match new with
      | None => Some (ret, args, m)
      | Some new_rule_hdl =>
          '(_, _, ms) ← ipa_nat_map_del (map_array m) (new2orig_map maps) new_rule_hdl;
          let m := with_maps m ms in
          '(ret, _, m) ← _smDelRuleFromTbl m trigger (arb_rule (hybrid_hdl m tbl_hdl) new_rule_hdl);
          let o := nati_obj m in
          if (ret =? 0) && in_state o NATI_STATE_HYBRID_DDR
             && (at_sub (tot_rules_in_table o) (CHOOSE_MEM_SUB o) <=? back_to_sram_thresh o)
             && negb (hold_state o)
          then
            '(ret, _, m) ← ipa_nati_statemach m NATI_TRIG_TBL_SWITCH arb_null;
            Some (0, args, if ret =? 0 then SET_NATIOBJ_STATE m NATI_STATE_HYBRID else m)
          else Some (ret, args, m)
      end
  | _ => None
  end.

Definition _smGoToDdr m (trigger : ipa_nati_trigger) (args : arb) : sm_result :=
  '(ret, s) ← ipa_NATI_post_ipv4_init_cmd (mgr_nat m) (ddr_tbl_hdl (nati_obj m));
  let m := with_mgr_nat m s in
  Some (ret, args, if ret =? 0 then SET_NATIOBJ_STATE m NATI_STATE_HYBRID_DDR else m).

Definition _smGoToSram m (trigger : ipa_nati_trigger) (args : arb) : sm_result :=
  '(ret, s) ← ipa_NATI_post_ipv4_init_cmd (mgr_nat m) (sram_tbl_hdl (nati_obj m));
  let m := with_mgr_nat m s in
  Some (ret, args, if ret =? 0 then SET_NATIOBJ_STATE m NATI_STATE_HYBRID else m).

(** The copy counts as passed or failed in the statistics of the memory type
    that was in use. *)
Definition count_switch m (sub : mem_sub) (ret : Z) : nat_mgr K :=
  let p := sw_stats (nati_obj m) in
  let st := at_sub p sub in
  with_obj m (with_sw_stats (nati_obj m)
    (set_sub p sub
       (if ret =? 0 then mk_switch_stats (u32 (pass st + 1)) (fail st)
        else mk_switch_stats (pass st) (u32 (fail st + 1))))).

(** The statistics a caller that passes an argument asks for are only
    printed. *)
Definition collect_stats m (args : arb) (tbl_hdl : Z) : option (nat_mgr K) :=
  match args with
  | arb_null => Some m
  | _ => '(_, _, s) ← ipa_NATI_ipv4_tbl_stats (mgr_nat m) tbl_hdl; Some (with_mgr_nat m s)
  end.

Definition _smSwitchFromDdrToSram m (trigger : ipa_nati_trigger) (args : arb) : sm_result :=
  let sub := CHOOSE_MEM_SUB (nati_obj m) in
  m ← collect_stats m args (ddr_tbl_hdl (nati_obj m));
  '(ret, _, m) ← ipa_nati_statemach m NATI_TRIG_GOTO_SRAM arb_null;
  if negb (ret =? 0) then Some (ret, args, m) else
  m ← forget_rules m SRAM_SUB;
  '(ret, m) ← ipa_nati_copy_ipv4_tbl mgr_nat with_mgr_nat m (ddr_tbl_hdl (nati_obj m))
                (sram_tbl_hdl (nati_obj m)) (Some migrate_rule);
  Some (ret, args, count_switch m sub ret).

Definition _smSwitchFromSramToDdr m (trigger : ipa_nati_trigger) (args : arb) : sm_result :=
  let sub := CHOOSE_MEM_SUB (nati_obj m) in
  m ← collect_stats m args (sram_tbl_hdl (nati_obj m));
  '(ret, _, m) ← ipa_nati_statemach m NATI_TRIG_GOTO_DDR arb_null;
  if negb (ret =? 0) then Some (ret, args, m) else
  m ← forget_rules m DDR_SUB;
  '(ret, m) ← ipa_nati_copy_ipv4_tbl mgr_nat with_mgr_nat m (sram_tbl_hdl (nati_obj m))
                (ddr_tbl_hdl (nati_obj m)) (Some migrate_rule);
  Some (ret, args, count_switch m sub ret).

Definition _smGetTmStmp m (trigger : ipa_nati_trigger) (args : arb) : sm_result :=
  match args with
  | arb_tstamp tbl_hdl rule_hdl time_stamp =>
      '(ret, ts, s) ← ipa_NATI_query_timestamp (mgr_nat m) tbl_hdl rule_hdl;
      Some (ret, arb_tstamp tbl_hdl rule_hdl (default time_stamp ts), with_mgr_nat m s)
  | _ => None
  end.

Definition _smGetTmStmpHybrid m (trigger : ipa_nati_trigger) (args : arb) : sm_result :=
  match args with
  | arb_tstamp tbl_hdl orig_rule_hdl time_stamp =>
      '(ret, new) ← ipa_nat_map_find (map_array m) (orig2new_map (CHOOSE_MAPS (nati_obj m))) orig_rule_hdl;
      match new with
      | None => Some (ret, args, m)
      | Some new_rule_hdl =>
          '(ret, args', m) ← _smGetTmStmp m trigger
                               (arb_tstamp (hybrid_hdl m tbl_hdl) new_rule_hdl time_stamp);
          match args' with
          | arb_tstamp _ _ ts => Some (ret, arb_tstamp tbl_hdl orig_rule_hdl ts, m)
          | _ => None
          end
      end
  | _ => None
  end.

(** The callback of a state and trigger. *)
Definition _state_mach_tbl (st : ipa_nati_state) (trigger : ipa_nati_trigger)
    : nat_mgr K -> ipa_nati_trigger -> arb -> sm_result :=
  match st, trigger with
  | NATI_STATE_NULL, NATI_TRIG_ADD_TABLE => _smFirstTbl

  | NATI_STATE_DDR_ONLY, NATI_TRIG_ADD_TABLE => _smAddDdrTbl
  | NATI_STATE_SRAM_ONLY, NATI_TRIG_ADD_TABLE => _smAddSramTbl
  | (NATI_STATE_DDR_ONLY | NATI_STATE_SRAM_ONLY), NATI_TRIG_DEL_TABLE => _smDelTbl
  | (NATI_STATE_DDR_ONLY | NATI_STATE_SRAM_ONLY), NATI_TRIG_CLR_TABLE => _smClrTbl
  | (NATI_STATE_DDR_ONLY | NATI_STATE_SRAM_ONLY), NATI_TRIG_WLK_TABLE => _smWalkTbl
  | (NATI_STATE_DDR_ONLY | NATI_STATE_SRAM_ONLY), NATI_TRIG_TBL_STATS => _smStatTbl
  | (NATI_STATE_DDR_ONLY | NATI_STATE_SRAM_ONLY), NATI_TRIG_ADD_RULE => _smAddRuleToTbl
  | (NATI_STATE_DDR_ONLY | NATI_STATE_SRAM_ONLY), NATI_TRIG_DEL_RULE => _smDelRuleFromTbl
  | (NATI_STATE_DDR_ONLY | NATI_STATE_SRAM_ONLY), NATI_TRIG_GET_TSTAMP => _smGetTmStmp

  | NATI_STATE_HYBRID, NATI_TRIG_ADD_TABLE => _smAddSramAndDdrTbl
  | NATI_STATE_HYBRID, NATI_TRIG_TBL_SWITCH => _smSwitchFromSramToDdr
  | NATI_STATE_HYBRID_DDR, NATI_TRIG_TBL_SWITCH => _smSwitchFromDdrToSram
  | (NATI_STATE_HYBRID | NATI_STATE_HYBRID_DDR), NATI_TRIG_DEL_TABLE => _smDelSramAndDdrTbl
  | (NATI_STATE_HYBRID | NATI_STATE_HYBRID_DDR), NATI_TRIG_CLR_TABLE => _smClrTblHybrid
  | (NATI_STATE_HYBRID | NATI_STATE_HYBRID_DDR), NATI_TRIG_WLK_TABLE => _smWalkTblHybrid
  | (NATI_STATE_HYBRID | NATI_STATE_HYBRID_DDR), NATI_TRIG_TBL_STATS => _smStatTblHybrid
  | (NATI_STATE_HYBRID | NATI_STATE_HYBRID_DDR), NATI_TRIG_ADD_RULE => _smAddRuleHybrid
  | (NATI_STATE_HYBRID | NATI_STATE_HYBRID_DDR), NATI_TRIG_DEL_RULE => _smDelRuleHybrid
  | (NATI_STATE_HYBRID | NATI_STATE_HYBRID_DDR), NATI_TRIG_GOTO_DDR => _smGoToDdr
  | (NATI_STATE_HYBRID | NATI_STATE_HYBRID_DDR), NATI_TRIG_GOTO_SRAM => _smGoToSram
  | (NATI_STATE_HYBRID | NATI_STATE_HYBRID_DDR), NATI_TRIG_GET_TSTAMP => _smGetTmStmpHybrid

  | _, _ => _smUndef
  end.
End Callbacks.

(** ** Running a trigger *)

(** The fuel bounds how deep triggers run triggers. *)
Fixpoint statemach (fuel : nat) m (trigger : ipa_nati_trigger) (args : arb) : sm_result :=
  match fuel with
  | O => None
  | S fuel' =>
      let '(ret, m) := take_mutex m in
      if negb (ret =? 0) then Some (ret, args, m) else
      let vote := VOTE_REQUIRED (nati_obj m) trigger in
      '(voted, m) ← (if vote then ipa_nat_vote_clock m IPA_APP_CLK_VOTE else Some (0, m));
      if negb (voted =? 0) then let '(ret, m) := give_mutex m in Some (ret, args, m) else
      '(ret, args, m) ← _state_mach_tbl (statemach fuel') (curr_state (nati_obj m)) trigger m trigger args;
      '(_, m) ← (if vote then ipa_nat_vote_clock m IPA_APP_CLK_DEVOTE else Some (0, m));
      (* the status of the callback is overwritten *)
      let '(ret, m) := give_mutex m in Some (ret, args, m)
  end.

(** An addition may run a switch, which runs a change of focus, and the
    addition again. *)
Definition ipa_nati_statemach : nat_mgr K -> ipa_nati_trigger -> arb -> sm_result := statemach 3.

(** ** The hijacked API *)

(** Status, table handle and library. *)
Definition ipa_nati_add_ipv4_tbl m (public_ip_addr : Z) (mem_type_ptr : option string)
    (number_of_entries tbl_hdl : Z) : option (Z * Z * nat_mgr K) :=
  '(ret, args, m) ← ipa_nati_statemach m NATI_TRIG_ADD_TABLE
                      (arb_add_tbl public_ip_addr number_of_entries tbl_hdl mem_type_ptr);
  match args with arb_add_tbl _ _ hdl _ => Some (ret, hdl, m) | _ => None end.

Definition ipa_nati_del_ipv4_table m (tbl_hdl : Z) : option (Z * nat_mgr K) :=
  '(ret, _, m) ← ipa_nati_statemach m NATI_TRIG_DEL_TABLE (arb_tbl tbl_hdl); Some (ret, m).

Definition ipa_nati_clear_ipv4_tbl m (tbl_hdl : Z) : option (Z * nat_mgr K) :=
  '(ret, _, m) ← ipa_nati_statemach m NATI_TRIG_CLR_TABLE (arb_tbl tbl_hdl); Some (ret, m).

Definition ipa_nati_walk_ipv4_tbl m (tbl_hdl : Z) (which : WhichTbl2Use)
    (walk_cb : option mgr_walk_cb) : option (Z * nat_mgr K) :=
  '(ret, _, m) ← ipa_nati_statemach m NATI_TRIG_WLK_TABLE (arb_walk tbl_hdl which walk_cb);
  Some (ret, m).

(** Status, statistics and library. *)
Definition ipa_nati_ipv4_tbl_stats m (tbl_hdl : Z) (nat_stats idx_stats : ipa_nati_tbl_stats)
    : option (Z * (ipa_nati_tbl_stats * ipa_nati_tbl_stats) * nat_mgr K) :=
  '(ret, args, m) ← ipa_nati_statemach m NATI_TRIG_TBL_STATS (arb_stats tbl_hdl nat_stats idx_stats);
  match args with arb_stats _ ns ixs => Some (ret, (ns, ixs), m) | _ => None end.

(** Status, the client's rule and rule handle, library. *)
Definition ipa_nati_add_ipv4_rule m (tbl_hdl : Z) (clnt_rule : ipa_nat_ipv4_rule) (rule_hdl : Z)
    : option (Z * ipa_nat_ipv4_rule * Z * nat_mgr K) :=
  '(ret, args, m) ← ipa_nati_statemach m NATI_TRIG_ADD_RULE (arb_add_rule tbl_hdl clnt_rule rule_hdl);
  match args with arb_add_rule _ r hdl => Some (ret, r, hdl, m) | _ => None end.

Definition ipa_nati_del_ipv4_rule m (tbl_hdl rule_hdl : Z) : option (Z * nat_mgr K) :=
  '(ret, _, m) ← ipa_nati_statemach m NATI_TRIG_DEL_RULE (arb_rule tbl_hdl rule_hdl); Some (ret, m).

(** Status, time stamp and library. *)
Definition ipa_nati_query_timestamp m (tbl_hdl rule_hdl time_stamp : Z)
    : option (Z * Z * nat_mgr K) :=
  '(ret, args, m) ← ipa_nati_statemach m NATI_TRIG_GET_TSTAMP (arb_tstamp tbl_hdl rule_hdl time_stamp);
  match args with arb_tstamp _ _ ts => Some (ret, ts, m) | _ => None end.

(** ** Switching by request *)

(** The body of [ipa_nat_switch_to] between the mutex calls, whose status is
    overwritten when the mutex is given back. *)
Definition switch_to_locked m (nmi : Z) (hold : bool) : option (Z * nat_mgr K) :=
  let o := nati_obj m in
  if IN_UNSTARTED_STATE o then
    Some (0, with_obj m (with_hold o hold
               (if nmi =? IPA_NAT_MEM_IN_DDR then NATI_STATE_DDR_ONLY else NATI_STATE_SRAM_ONLY)))
  else if IN_HYBRID_STATE o then
    '(ret, m) ←
      (if COMPATIBLE_NMI_4SWITCH o nmi
       then '(ret, _, m) ← ipa_nati_statemach m NATI_TRIG_TBL_SWITCH arb_null; Some (ret, m)
       else Some (0, m));
    if negb (ret =? 0) then Some (ret, m) else
    let o := nati_obj m in
    Some (ret, with_obj m (with_hold o hold (if hold then GEN_HOLD_STATE o else state_to_hold o)))
  else if hold then
    if COMPATIBLE_NMI_4SWITCH o nmi
    then Some (0, with_obj m (with_hold o hold (GEN_HOLD_STATE o)))
    else Some (-1, m)
  else Some (0, with_obj m (with_hold o hold NATI_STATE_NULL)).

Definition ipa_nat_switch_to m (nmi : Z) (hold : bool) : option (Z * nat_mgr K) :=
  if negb (IPA_VALID_NAT_MEM_IN nmi) then Some (-1, m) else
  let '(ret, m) := take_mutex m in
  if negb (ret =? 0) then Some (ret, m) else
  '(_, m) ← switch_to_locked m nmi hold;
  Some (give_mutex m).

Definition ipa_nat_is_sram_supported m : bool := VALID_TBL_HDL (sram_tbl_hdl (nati_obj m)).
End Machine.
