(* ===== verification/NatDrv.v ===== *)
(** * The public NAT API ([ipanat/src/ipa_nat_drv.c])

    The entry points check their arguments and call the state machine or the
    PDN operations.  [None] for a pointer argument is the null pointer. *)
From S2P Require Import Prelude Bitfield Table TableDma NatRule Env NatTable NatOps NatWalk NatMap.
From S2P Require Import Statemach.

Section Api.
Context {K : Type} {E : IpaEnv K}.
Implicit Types (m : nat_mgr K).

(** Status, table handle (the cell of the given pointer) and library. *)
Definition ipa_nat_add_ipv4_tbl m (public_ip_addr : Z) (mem_type_ptr : option string)
    (number_of_entries : Z) (tbl_hdl : option Z) : option (Z * option Z * nat_mgr K) :=
  match tbl_hdl, mem_type_ptr with
  | Some _, Some _ =>
      if number_of_entries =? 0 then Some (- EINVAL, tbl_hdl, m) else
      '(ret, hdl, m) ← ipa_nati_add_ipv4_tbl m public_ip_addr mem_type_ptr number_of_entries 0;
      Some (ret, Some hdl, m)
  | _, _ => Some (- EINVAL, tbl_hdl, m)
  end.

Definition ipa_nat_del_ipv4_tbl m (tbl_hdl : Z) : option (Z * nat_mgr K) :=
  if negb (VALID_TBL_HDL tbl_hdl) then Some (- EINVAL, m) else ipa_nati_del_ipv4_table m tbl_hdl.

(** Status, the client's rule and rule handle, library. *)
Definition ipa_nat_add_ipv4_rule m (tbl_hdl : Z) (clnt_rule : option ipa_nat_ipv4_rule)
    (rule_hdl : option Z) : option (Z * option ipa_nat_ipv4_rule * option Z * nat_mgr K) :=
  match clnt_rule, rule_hdl with
  | Some r, Some h =>
      if negb (VALID_TBL_HDL tbl_hdl) then Some (- EINVAL, clnt_rule, rule_hdl, m) else
      '(ret, r, h, m) ← ipa_nati_add_ipv4_rule m tbl_hdl r h;
      Some (if ret =? 0 then 0 else - EINVAL, Some r, Some h, m)
  | _, _ => Some (- EINVAL, clnt_rule, rule_hdl, m)
  end.

Definition ipa_nat_del_ipv4_rule m (tbl_hdl rule_hdl : Z) : option (Z * nat_mgr K) :=
  if negb (VALID_TBL_HDL tbl_hdl) || negb (VALID_RULE_HDL rule_hdl) then Some (- EINVAL, m)
  else ipa_nati_del_ipv4_rule m tbl_hdl rule_hdl.

(** Status, time stamp and library. *)
Definition ipa_nat_query_timestamp m (tbl_hdl rule_hdl : Z) (time_stamp : option Z)
    : option (Z * option Z * nat_mgr K) :=
  match time_stamp with
  | Some ts =>
      if negb (VALID_TBL_HDL tbl_hdl) || negb (VALID_RULE_HDL rule_hdl)
      then Some (- EINVAL, time_stamp, m) else
      '(ret, ts, m) ← ipa_nati_query_timestamp m tbl_hdl rule_hdl ts; Some (ret, Some ts, m)
  | None => Some (- EINVAL, time_stamp, m)
  end.

(** An operation on the tables, lifted to the library. *)
Definition lift_nat {A} (m : nat_mgr K) (r : option (A * nat_state K)) : option (A * nat_mgr K) :=
  '(x, s) ← r; Some (x, with_mgr_nat m s).

(** The bound check lets index 16 through. *)
Definition ipa_nat_modify_pdn m (tbl_hdl pdn_index : Z) (pdn_info : option ipa_nat_pdn_entry)
    : option (Z * nat_mgr K) :=
  match pdn_info with
  | Some p =>
      if negb (VALID_TBL_HDL tbl_hdl) then Some (- EINVAL, m) else
      if IPA_MAX_PDN_NUM <? pdn_index then Some (- EINVAL, m) else
      lift_nat m (ipa_nati_modify_pdn (mgr_nat m)
                    (mk_ioc_pdn pdn_index (public_ip p) (src_metadata p) (dst_metadata p)))
  | None => Some (- EINVAL, m)
  end.

(** Status and index (the cell of the given pointer). *)
Definition ipa_nat_get_pdn_index m (public_ip : Z) (pdn_index : option Z) : option (Z * option Z) :=
  match pdn_index with
  | Some i =>
      '(ret, j) ← ipa_nati_get_pdn_index (mgr_nat m) public_ip; Some (ret, Some (default i j))
  | None => Some (- EINVAL, None)
  end.

Definition ipa_nat_alloc_pdn m (pdn_info : option ipa_nat_pdn_entry) (pdn_index : option Z)
    : option (Z * option Z * nat_mgr K) :=
  match pdn_info, pdn_index with
  | Some p, Some i =>
      '(ret, j, s) ← ipa_nati_alloc_pdn (mgr_nat m) p;
      Some (ret, Some (default i j), with_mgr_nat m s)
  | _, _ => Some (- EINVAL, pdn_index, m)
  end.

Definition ipa_nat_get_pdn_count m (pdn_cnt : option Z) : Z * option Z :=
  match pdn_cnt with
  | Some _ => (0, Some (u8 (ipa_nati_get_pdn_cnt (mgr_nat m))))
  | None => (- EINVAL, None)
  end.

(** The bound check lets index 16 through. *)
Definition ipa_nat_dealloc_pdn m (pdn_index : Z) : option (Z * nat_mgr K) :=
  if IPA_MAX_PDN_NUM <? pdn_index then Some (- EINVAL, m) else
  lift_nat m (ipa_nati_dealloc_pdn (mgr_nat m) pdn_index).
End Api.
