(* ===== verification/NatWf.v ===== *)
(** * The invariant of a NAT table and the effect of a posted command

    [wf_nat] relates the two tables of a NAT table: both are well-formed
    hash tables of the same size; a record of the index table in use points
    to the rule that points back to it; a rule deleted at the head of a chain
    stays as a place holder only while the chain has members. *)
From S2P Require Import Prelude Bitfield Chain Table TableFacts TableDma.
From S2P Require Import TableInsert TableDelete NatRule NatRuleFacts Env TableMem NatTable NatOps.

Abbreviation nat_view := (view nat_entry_interface).
Abbreviation idx_view := (view index_entry_interface).
Abbreviation wf_nat_layout := (wf_layout nat_entry_interface nat_layout nat_meta_ok).
Abbreviation wf_idx_layout := (wf_layout index_entry_interface index_layout index_meta_ok).
Abbreviation wf_nat_table := (wf_table nat_entry_interface nat_layout cleared nat_meta_ok).
Abbreviation wf_idx_table := (wf_table index_entry_interface index_layout cleared index_meta_ok).
Abbreviation nat_helpers := (wf_helpers nat_layout IPA_NAT_BASE_TBL IPA_NAT_EXPN_TBL).
Abbreviation idx_helpers := (wf_helpers index_layout IPA_NAT_INDX_TBL IPA_NAT_INDEX_EXPN_TBL).
Abbreviation nat_one := (the_one IPA_NAT_BASE_TBL IPA_NAT_EXPN_TBL).
Abbreviation idx_one := (the_one IPA_NAT_INDX_TBL IPA_NAT_INDEX_EXPN_TBL).

(** A rule deleted at the head of a chain with members. *)
Definition dead (e : Z) : bool := getf protocol e =? IPAHAL_NAT_INVALID_PROTOCOL.

(** Record [i] of the NAT table holds the rule [e]. *)
Definition live (nt : ipa_nat_ip4_table_cache) (i e : Z) : Prop :=
  (slots (table nt)).[i] = Some e /\ table_entry_is_valid e = true /\ dead e = false.

(** Record [j] of the index table is in use and is [e]. *)
Definition indexed (nt : ipa_nat_ip4_table_cache) (j e : Z) : Prop :=
  (slots (index_table nt)).[j] = Some e /\ index_table_entry_is_valid e = true.

Record wf_nat_shape (nt : ipa_nat_ip4_table_cache) : Prop := {
  ns_layout : wf_nat_layout (table nt);
  ns_idx_layout : wf_idx_layout (index_table nt);
  ns_helpers : nat_helpers (table nt);
  ns_idx_helpers : idx_helpers (index_table nt);
  ns_base : table_entries (index_table nt) = table_entries (table nt);
  ns_tot : tot_tbl_ents (index_table nt) = tot_tbl_ents (table nt);
  ns_size : 2 <= table_entries (table nt);
  (** record indices fit the handles *)
  ns_hdl : table_entries (table nt) <= 4096 /\ expn_table_entries (table nt) <= 4096
    /\ (nmi (table nt) = 0 \/ nmi (table nt) = 1);
  ns_nmi : nmi (index_table nt) = nmi (table nt)
}.

Record wf_nat (nt : ipa_nat_ip4_table_cache) : Prop := {
  nw_shape : wf_nat_shape nt;
  nw_table : wf_nat_table (table nt);
  nw_index : wf_idx_table (index_table nt);
  (** every rule has its index record *)
  nw_rule_index i e : live nt i e ->
    exists x, indexed nt (getf indx_tbl_entry e) x /\ getf tbl_entry x = i;
  (** every index record has its rule *)
  nw_index_rule j x : indexed nt j x ->
    exists e, live nt (getf tbl_entry x) e /\ getf indx_tbl_entry e = j;
  (** place holders head a chain with members *)
  nw_dead i e : (slots (table nt)).[i] = Some e -> table_entry_is_valid e = true ->
    dead e = true -> i < table_entries (table nt) /\ getf nr_next_index e <> 0
}.

(** ** Commands for the two tables *)

(** A DMA entry for a record of one of the two tables. *)
Inductive nat_dma (nt : ipa_nat_ip4_table_cache) : ipa_ioc_nat_dma_one -> Prop :=
  | nat_dma_table off i d :
      0 <= off < sizeof_ipa_nat_rule -> 0 <= i < tot_tbl_ents (table nt) ->
      nat_dma nt (nat_one (table nt) off i d)
  | nat_dma_index off i d :
      0 <= off < sizeof_ipa_nat_indx_tbl_rule -> 0 <= i < tot_tbl_ents (index_table nt) ->
      nat_dma nt (idx_one (index_table nt) off i d).

(** The effect of the entries of a command on the two tables. *)
Fixpoint apply_ones (ones : list ipa_ioc_nat_dma_one) (nt : ipa_nat_ip4_table_cache)
    : option ipa_nat_ip4_table_cache :=
  match ones with
  | [] => Some nt
  | one :: ones' =>
      t ← table_apply_one IPA_NAT_BASE_TBL IPA_NAT_EXPN_TBL one (table nt);
      it ← table_apply_one IPA_NAT_INDX_TBL IPA_NAT_INDEX_EXPN_TBL one (index_table nt);
      apply_ones ones' (with_index_table (with_table nt t) it)
  end.

Lemma with_table_id nt : with_table nt (table nt) = nt.
Proof. by destruct nt. Qed.

Lemma with_index_table_id nt : with_index_table nt (index_table nt) = nt.
Proof. by destruct nt. Qed.

Lemma apply_ones_table nt off i d e ones :
  wf_nat_shape nt -> 0 <= off < sizeof_ipa_nat_rule -> (slots (table nt)).[i] = Some e ->
  apply_ones (nat_one (table nt) off i d :: ones) nt
  = apply_ones ones (with_table nt
      (with_slots (table nt) (slots (table nt)).[i <- record_put16 e off d])).
Proof.
  intros Hs Hoff He. cbn [apply_ones]. pose proof (ns_layout _ Hs) as Hl.
  rewrite (apply_the_one nat_entry_interface nat_layout nat_meta_ok _ _ _ _ _ _ e)
    by (done || (rewrite (wl_entry_size _ _ _ _ Hl); done)).
  cbn [mbind option_bind]. rewrite apply_the_one_other by done. by destruct nt.
Qed.

Lemma apply_ones_index nt off i d e ones :
  wf_nat_shape nt -> 0 <= off < sizeof_ipa_nat_indx_tbl_rule ->
  (slots (index_table nt)).[i] = Some e ->
  apply_ones (idx_one (index_table nt) off i d :: ones) nt
  = apply_ones ones (with_index_table nt
      (with_slots (index_table nt) (slots (index_table nt)).[i <- record_put16 e off d])).
Proof.
  intros Hs Hoff He. cbn [apply_ones]. pose proof (ns_idx_layout _ Hs) as Hl.
  rewrite (apply_the_one_other IPA_NAT_BASE_TBL) by done. cbn [mbind option_bind].
  rewrite (apply_the_one index_entry_interface index_layout index_meta_ok _ _ _ _ _ _ e)
    by (done || (rewrite (wl_entry_size _ _ _ _ Hl); done)).
  by destruct nt.
Qed.

(** Two NAT tables that differ in the records of their tables only. *)
Definition slots_only (nt nt' : ipa_nat_ip4_table_cache) : Prop :=
  nt' = mk_ip4_table_cache (public_addr nt) (mem_desc nt)
          (with_slots (table nt) (slots (table nt')))
          (with_slots (index_table nt) (slots (index_table nt')))
  /\ lengthZ (slots (table nt')) = lengthZ (slots (table nt))
  /\ lengthZ (slots (index_table nt')) = lengthZ (slots (index_table nt)).

Lemma with_slots_id {U} (t : ipa_table U) : with_slots t (slots t) = t.
Proof. by destruct t. Qed.

Lemma slots_only_refl nt : slots_only nt nt.
Proof. split; [|done]. rewrite !with_slots_id. by destruct nt. Qed.

Lemma slots_only_trans nt1 nt2 nt3 :
  slots_only nt1 nt2 -> slots_only nt2 nt3 -> slots_only nt1 nt3.
Proof.
  intros (E1 & L1 & L2) (E2 & L3 & L4). split; [|lia]. rewrite E2, E1. done.
Qed.

Lemma slots_only_table nt i x :
  slots_only nt (with_table nt (with_slots (table nt) (slots (table nt)).[i <- x])).
Proof.
  split; [|cbn; by rewrite lengthZ_updateZ]. cbn. rewrite with_slots_id. done.
Qed.

Lemma slots_only_index nt i x :
  slots_only nt (with_index_table nt (with_slots (index_table nt) (slots (index_table nt)).[i <- x])).
Proof.
  split; [|cbn; by rewrite lengthZ_updateZ]. cbn. rewrite with_slots_id. done.
Qed.

Lemma slots_only_same_shape nt nt' :
  slots_only nt nt' ->
  same_shape (table nt) (table nt') /\ same_shape (index_table nt) (index_table nt')
  /\ meta (table nt') = meta (table nt) /\ meta (index_table nt') = meta (index_table nt).
Proof. intros (E & L1 & L2). rewrite E in *. cbn in *. by repeat split. Qed.

Lemma wf_nat_shape_same nt nt' :
  wf_nat_shape nt -> same_shape (table nt) (table nt') ->
  same_shape (index_table nt) (index_table nt') ->
  nat_meta_ok (meta (table nt')) (expn_table_entries (table nt')) ->
  index_meta_ok (meta (index_table nt')) (expn_table_entries (index_table nt')) ->
  wf_nat_shape nt'.
Proof.
  intros [] H1 H2 H3 H4. split.
  - by eapply wf_layout_same_shape.
  - by eapply wf_layout_same_shape.
  - by eapply wf_helpers_same_shape.
  - by eapply wf_helpers_same_shape.
  - destruct H1 as (_ & -> & _), H2 as (_ & -> & _). done.
  - destruct H1 as (_ & _ & _ & -> & _), H2 as (_ & _ & _ & -> & _). done.
  - destruct H1 as (_ & -> & _). done.
  - destruct H1 as (_ & -> & -> & _ & _ & _ & _ & _ & -> & _). done.
  - destruct H1 as (_ & _ & _ & _ & _ & _ & _ & _ & -> & _), H2 as (_ & _ & _ & _ & _ & _ & _ & _ & -> & _).
    done.
Qed.

Lemma wf_nat_shape_slots nt nt' :
  wf_nat_shape nt -> slots_only nt nt' -> wf_nat_shape nt'.
Proof.
  intros Hs Ho. destruct (slots_only_same_shape _ _ Ho) as (H1 & H2 & H3 & H4).
  apply (wf_nat_shape_same nt); [done|done|done| |].
  - rewrite H3. apply (wl_meta _ _ _ _ (ns_layout _ Hs)).
  - rewrite H4. destruct H2 as (_ & _ & -> & _). apply (wl_meta _ _ _ _ (ns_idx_layout _ Hs)).
Qed.

Lemma nat_dma_shape nt nt' one :
  same_shape (table nt) (table nt') -> same_shape (index_table nt) (index_table nt') ->
  nat_dma nt one -> nat_dma nt' one.
Proof.
  intros H1 H2. destruct 1 as [off i d Hoff Hi|off i d Hoff Hi].
  - rewrite <- (the_one_same_shape _ _ _ _ _ _ _ H1). apply nat_dma_table; [done|].
    destruct H1 as (_ & _ & _ & -> & _). done.
  - rewrite <- (the_one_same_shape _ _ _ _ _ _ _ H2). apply nat_dma_index; [done|].
    destruct H2 as (_ & _ & _ & -> & _). done.
Qed.

Lemma nat_dma_slots nt nt' one : slots_only nt nt' -> nat_dma nt one -> nat_dma nt' one.
Proof. intros Ho. destruct (slots_only_same_shape _ _ Ho) as (H1 & H2 & _). by apply nat_dma_shape. Qed.

(** The hardware performs [apply_ones]. *)
Lemma dma_effect_apply ones nt nt' :
  wf_nat_shape nt -> Forall (nat_dma nt) ones -> apply_ones ones nt = Some nt' ->
  slots_only nt nt'
  /\ exists m, dma_effect ones (tables_mem nt) = Some m /\ mem_eq m (tables_mem nt').
Proof.
  revert nt. induction ones as [|one ones IH]; intros nt Hs Hf Ha.
  { injection Ha as <-. split; [apply slots_only_refl|]. eexists. split; [done|]. by intros ty. }
  apply Forall_cons in Hf as [H1 Hf].
  pose proof (ns_layout _ Hs) as Hl. pose proof (ns_idx_layout _ Hs) as Hil.
  assert (exists nt1 m1, apply_ones (one :: ones) nt = apply_ones ones nt1
    /\ slots_only nt nt1 /\ dma_effect_one one (tables_mem nt) = Some m1
    /\ mem_eq m1 (tables_mem nt1)) as (nt1 & m1 & E1 & Ho & Em & Hm).
  { destruct H1 as [off i d Hoff Hi|off i d Hoff Hi].
    - destruct (record_in_range _ _ _ _ i Hl Hi) as [e He].
      destruct (effect_the_one IPA_NAT_BASE_TBL IPA_NAT_EXPN_TBL (table nt) (tables_mem nt))
        with (off := off) (i := i) (d := d) (e := e) as (m' & Em & Hb & He' & Hot);
        [done|apply (wl_esz _ _ _ _ Hl)|pose proof (wl_base _ _ _ _ Hl); lia
        |by rewrite (wl_entry_size _ _ _ _ Hl)|by rewrite (wl_entry_size _ _ _ _ Hl)|done|done
        |rewrite (wl_entry_size _ _ _ _ Hl); done|done|].
      eexists _, m'. split; [by apply (apply_ones_table nt off i d e)|].
      split; [apply slots_only_table|]. split; [exact Em|]. intros ty. destruct ty; cbn; try done; by rewrite Hot.
    - destruct (record_in_range _ _ _ _ i Hil Hi) as [e He].
      destruct (effect_the_one IPA_NAT_INDX_TBL IPA_NAT_INDEX_EXPN_TBL (index_table nt) (tables_mem nt))
        with (off := off) (i := i) (d := d) (e := e) as (m' & Em & Hb & He' & Hot);
        [done|apply (wl_esz _ _ _ _ Hil)|pose proof (wl_base _ _ _ _ Hil); lia
        |by rewrite (wl_entry_size _ _ _ _ Hil)|by rewrite (wl_entry_size _ _ _ _ Hil)|done|done
        |rewrite (wl_entry_size _ _ _ _ Hil); done|done|].
      eexists _, m'. split; [by apply (apply_ones_index nt off i d e)|].
      split; [apply slots_only_index|]. split; [exact Em|]. intros ty. destruct ty; cbn; try done; by rewrite Hot. }
  rewrite E1 in Ha.
  destruct (IH nt1) as (Ho2 & m2 & Em2 & Hm2);
    [by eapply wf_nat_shape_slots| |done|].
  { eapply Forall_impl; [exact Hf|]. intros x. by apply nat_dma_slots. }
  split; [by eapply slots_only_trans|].
  destruct (dma_effect_ext ones (tables_mem nt1) m1 m2) as (m3 & Em3 & Hm3).
  - intros ty. symmetry. apply Hm.
  - done.
  - exists m3. cbn [dma_effect]. rewrite Em. cbn. split; [done|].
    intros ty. by rewrite <- Hm3.
Qed.

Lemma with_tables_mem_eq nt nt' m :
  slots_only nt nt' -> mem_eq m (tables_mem nt') ->
  table_entries (table nt') = table_entries (table nt) ->
  with_tables_mem nt m = nt'.
Proof.
  intros (E & _ & _) Hm _. unfold with_tables_mem. rewrite !Hm. cbn [tables_mem].
  rewrite !take_drop. by rewrite <- E.
Qed.

Lemma post_dma_spec {K} {E : IpaEnv K} {laws : IpaEnvLaws K} c d nt cmd (k : K) nt' :
  wf_nat_shape nt -> ipa_desc c = Some d -> Forall (nat_dma nt) (cmd_ones cmd) ->
  apply_ones (cmd_ones cmd) nt = Some nt' ->
  exists k', ipa_nati_post_ipv4_dma_cmd c nt cmd k = Some (0, nt', k')
    \/ ipa_nati_post_ipv4_dma_cmd c nt cmd k = Some (- EIO, nt, k').
Proof.
  intros Hs Hd Hf Ha. destruct (dma_effect_apply _ _ _ Hs Hf Ha) as (Ho & m & Em & Hm).
  unfold ipa_nati_post_ipv4_dma_cmd. rewrite Hd. cbn [mbind option_bind].
  destruct (slots_only_same_shape _ _ Ho) as ((_ & Hb & _) & _).
  destruct (env_table_dma _ _ _ k) as [[ret m'] k'] eqn:Ed. exists k'.
  destruct (Z.eqb_spec ret 0) as [->|Hr].
  - left. do 3 f_equal. apply with_tables_mem_eq; [done| |done].
    intros ty. rewrite <- Hm. eapply dma_success; [exact Ed|done].
  - right. do 3 f_equal. apply with_tables_mem_eq; [apply slots_only_refl| |done].
    intros ty. eapply dma_failure; [exact Ed|done].
Qed.

(** ** Commands made of entries for one table *)

Definition for_table (bt et : ipa_table_dma_type) (one : ipa_ioc_nat_dma_one) : Prop :=
  one_base_addr one = bt \/ one_base_addr one = et.

Lemma apply_one_foreign {U} bt et bt' et' one (t : ipa_table U) :
  for_table bt' et' one -> bt' <> bt -> bt' <> et -> et' <> bt -> et' <> et ->
  table_apply_one bt et one t = Some t.
Proof.
  intros [E|E] **; unfold table_apply_one; rewrite E; by rewrite !decide_False.
Qed.

Lemma apply_ones_app l1 l2 nt :
  apply_ones (l1 ++ l2) nt = nt1 ← apply_ones l1 nt; apply_ones l2 nt1.
Proof.
  revert nt. induction l1 as [|one l1 IH]; intros nt; [done|]. cbn [apply_ones app].
  destruct (table_apply_one IPA_NAT_BASE_TBL _ _ _); [|done]. cbn [mbind option_bind].
  destruct (table_apply_one IPA_NAT_INDX_TBL _ _ _); [|done]. cbn [mbind option_bind]. apply IH.
Qed.

Lemma apply_ones_nat ones nt t' :
  Forall (for_table IPA_NAT_BASE_TBL IPA_NAT_EXPN_TBL) ones ->
  table_apply IPA_NAT_BASE_TBL IPA_NAT_EXPN_TBL ones (table nt) = Some t' ->
  apply_ones ones nt = Some (with_table nt t').
Proof.
  revert nt. induction ones as [|one ones IH]; intros nt Hf Ha.
  { injection Ha as <-. by destruct nt. }
  apply Forall_cons in Hf as [H1 Hf]. cbn [apply_ones]. cbn [table_apply] in Ha.
  destruct (table_apply_one IPA_NAT_BASE_TBL _ one (table nt)) as [t1|]; [|done].
  cbn [mbind option_bind] in *. rewrite (apply_one_foreign _ _ _ _ _ _ H1) by done.
  cbn [mbind option_bind].
  erewrite IH; [|done|done]. by destruct nt.
Qed.

Lemma apply_ones_idx ones nt t' :
  Forall (for_table IPA_NAT_INDX_TBL IPA_NAT_INDEX_EXPN_TBL) ones ->
  table_apply IPA_NAT_INDX_TBL IPA_NAT_INDEX_EXPN_TBL ones (index_table nt) = Some t' ->
  apply_ones ones nt = Some (with_index_table nt t').
Proof.
  revert nt. induction ones as [|one ones IH]; intros nt Hf Ha.
  { injection Ha as <-. by destruct nt. }
  apply Forall_cons in Hf as [H1 Hf]. cbn [apply_ones]. cbn [table_apply] in Ha.
  rewrite (apply_one_foreign IPA_NAT_BASE_TBL _ _ _ _ _ H1) by done. cbn [mbind option_bind].
  destruct (table_apply_one IPA_NAT_INDX_TBL _ one (index_table nt)) as [t1|]; [|done].
  cbn [mbind option_bind] in *. erewrite IH; [|done|done]. by destruct nt.
Qed.

Lemma the_one_for_table {U} bt et (t : ipa_table U) off i d :
  for_table bt et (the_one bt et t off i d).
Proof. unfold the_one, for_table. destruct (table_entries t <=? i); cbn; eauto. Qed.
