(* ===== verification/NatAdd.v ===== *)
(** * Adding a rule

    [add_ipv4_rule_locked] either adds the rule to both tables, so that it
    is found from its buckets and every other rule is as before, or returns
    an error and leaves the rules as they were. *)
From S2P Require Import Prelude Bitfield Chain Table TableFacts TableDma.
From S2P Require Import TableInsert NatRule NatRuleFacts Env NatTable NatOps NatWf.

(** ** Buckets *)

Lemma masked_bucket_range h base token :
  2 <= base <= 5120 ->
  1 <= (let i := Z.land (u16 (h + token)) (base - 1) in
        if i =? 0 then u16 (base - 1) else i) < base.
Proof.
  intros Hb. pose proof (land_range_size (u16 (h + token)) (base - 1)). cbn.
  destruct (Z.eqb_spec (Z.land (u16 (h + token)) (base - 1)) 0); [rewrite u16_small; lia|lia].
Qed.

Lemma nat_bucket_range v ip r base token :
  2 <= base <= 5120 -> 1 <= (nat_bucket v ip r base token).1 < base.
Proof.
  intros Hb. unfold nat_bucket. destruct (u_src_only r); cbn [fst].
  - by apply masked_bucket_range.
  - pose proof (dst_hash_range v ip (u_target_ip r) (u_target_port r) (u_public_port r)
      (u_protocol r) (u16 (base - 1))) as H. rewrite u16_small in H by lia.
    rewrite u16_small; lia.
Qed.

Lemma index_bucket_range r base token :
  2 <= base <= 5120 -> 1 <= (index_bucket r base token).1 < base.
Proof.
  intros Hb. unfold index_bucket. destruct (u_dst_only r); cbn [fst].
  - by apply masked_bucket_range.
  - pose proof (src_hash_range (u_private_ip r) (u_private_port r) (u_target_ip r)
      (u_target_port r) (u_protocol r) (u16 (base - 1))) as H.
    rewrite u16_small in H by lia. rewrite u16_small; lia.
Qed.

(** ** The new records *)

Abbreviation nat_insertion := (insertion nat_entry_interface nat_meta_ok).
Abbreviation idx_insertion := (insertion index_entry_interface index_meta_ok).

(** What the NAT record is before the fields of the caller are added. *)
Lemma nat_new_record_spec (t : ipa_table nat_user) ps r n link m e1 d p :
  ps.[u_pdn_index r] = Some p -> u_pdn_index r < IPA_MAX_PDN_NUM -> wf_user_rule r ->
  is_index t = false ->
  new_record nat_entry_interface t (ps, r) n link m 0 e1 d ->
  rule_matches ps r e1 /\ getf nr_next_index e1 = 0 /\ getf nr_prev_index e1 = link_prev link
  /\ flags_for d e1.
Proof.
  intros Hp Hlt Hu Hidx Hn. destruct (head_insert_spec ps r p 0 Hp Hlt Hu (getf_zero _))
    as (e' & d' & E & Hm & (S1 & S2 & _) & Hf).
  rewrite getf_zero in S1, S2.
  destruct link as [[q eq]|]; cbn [new_record] in Hn.
  - rewrite Hidx in Hn. destruct Hn as (e0 & E0 & Es & _ & Hnx & Hpv).
    unfold tail_copy in E0. cbn [entry_head_insert nat_entry_interface] in E0. rewrite E in E0. injection E0 as <- <-. injection Es as <- <-.
    cbn in Hnx, Hpv. injection Hpv as Hpv. split_and!.
    + apply (rule_matches_ext _ _ e'); [|done]. apply same_fields_setf; [done|field_side].
    + by simp_fields.
    + done.
    + destruct Hf as (F1 & F2 & F3 & F4). unfold flags_for. by simp_fields.
  - cbn [entry_head_insert nat_entry_interface] in Hn. rewrite E in Hn. injection Hn as <- <-. done.
Qed.

(** The record after [finish_rule] and the flags word. *)
Lemma nat_final_record ps r e1 d j :
  rule_matches ps r e1 -> flags_for d e1 -> 0 <= j < 65536 ->
  let ef := record_put16 (finish_rule e1 r j) IPA_NAT_RULE_FLAG_FIELD_OFFSET d in
  rule_matches ps r ef /\ table_entry_is_valid ef = true
  /\ getf nr_next_index ef = getf nr_next_index e1
  /\ getf nr_prev_index ef = getf nr_prev_index e1
  /\ getf indx_tbl_entry ef = j /\ getf redirect ef = 0
  /\ getf time_stamp ef = u_time_stamp r mod 2 ^ 24.
Proof.
  intros Hm (F1 & F2 & F3 & F4) Hj ef.
  assert (Hm2 : rule_matches ps r (finish_rule e1 r j)).
  { apply (rule_matches_ext _ _ e1); [|done]. unfold finish_rule.
    repeat (eapply same_fields_trans; [|apply same_fields_setf; [reflexivity|field_side]]).
    apply same_fields_refl. }
  assert (Hf2 : flags_for d (finish_rule e1 r j)).
  { unfold flags_for, finish_rule. by simp_fields. }
  destruct (put_flags _ _ _ _ Hm2 Hf2) as (P1 & P2 & P3 & P4 & P5 & P6 & P7).
  fold ef in P1, P2, P3, P4, P5, P6, P7.
  unfold table_entry_is_valid. rewrite P2, P3, P4, P5, P6, P7. unfold finish_rule.
  simp_fields. split_and!; try done. by apply (u16_small j).
Qed.

(** The index record once linked. *)
Lemma idx_final_record (t : ipa_table Z) h i n link m e1 d :
  is_index t = true -> 0 < i < 65536 -> idx_insertion t h n link m ->
  new_record index_entry_interface t i n link m 0 e1 d ->
  let ef := ins_final index_layout true link e1 d in
  index_table_entry_is_valid ef = true /\ getf ir_next_index ef = 0 /\ getf tbl_entry ef = i
  /\ index_table_entry_get_prev_index ef n m (table_entries t) = Some (link_prev link).
Proof.
  intros Hidx Hi Hins Hn ef.
  assert (Hef : getf tbl_entry ef = i -> index_table_entry_is_valid ef = true).
  { intros E. unfold index_table_entry_is_valid. rewrite E.
    by rewrite (proj2 (Z.eqb_neq i 0)) by lia. }
  destruct link as [[q eq]|]; cbn [new_record] in Hn; cbn [ins_final] in ef.
  - rewrite Hidx in Hn. destruct Hn as (e0 & E0 & Es & _ & _ & Hpv).
    injection E0 as <- <-.
    assert (E1 : e1 = setf tbl_entry 0 i).
    { cbn in Es. unfold index_table_entry_set_prev_index in Es. revert Es.
      destruct (table_entries t <=? n); [|by intros [= <- _]].
      destruct (meta t) as [l|]; [|done]. cbn. destruct (storeZ _ _ _); [|done]. cbn.
      by intros [= <- _]. }
    assert (Ht : getf tbl_entry ef = i).
    { unfold ef. rewrite E1. simp_fields. apply (u16_small i). lia. }
    split_and!; [by apply Hef| |done|exact Hpv]. unfold ef. rewrite E1. by simp_fields.
  - injection Hn as <- <-.
    assert (Ht : getf tbl_entry ef = i).
    { unfold ef, record_put16. simp_fields. apply (u16_small i). lia. }
    split_and!; [by apply Hef| |done|].
    + unfold ef, record_put16. by simp_fields.
    + pose proof Hins as (_ & _ & _ & _ & -> & Hh & _). unfold index_table_entry_get_prev_index.
      by rewrite (proj2 (Z.leb_gt _ _)) by lia.
Qed.

(** ** The two tables after the insertion *)

(** The fields of a rule a change of its links leaves alone. *)
Definition kept_fields : list field := rule_fields ++ [redirect; enable; time_stamp].

Definition linked_fields : list field := kept_fields ++ [nr_prev_index; indx_tbl_entry].

Lemma relinked_fields n x x' : relinked nat_layout n x x' -> same_fields linked_fields x x'.
Proof.
  intros [->| ->]; [apply same_fields_refl|]. by apply same_fields_setf; [|field_side].
Qed.

Lemma relinked_index n x x' :
  relinked index_layout n x x' -> getf tbl_entry x' = getf tbl_entry x.
Proof. intros [->| ->]; [done|]. unfold record_put16. by simp_fields. Qed.

Lemma linked_fields_live x x' :
  same_fields linked_fields x x' ->
  table_entry_is_valid x' = table_entry_is_valid x /\ dead x' = dead x
  /\ getf indx_tbl_entry x' = getf indx_tbl_entry x.
Proof.
  intros H. unfold table_entry_is_valid, dead.
  by rewrite !(same_fields_read linked_fields x x') by done.
Qed.

(** Rule [i] was added with record [e]; all other rules are kept. *)
Definition rule_added (nt nt' : ipa_nat_ip4_table_cache) (i e : Z) : Prop :=
  live nt' i e /\ (forall x, ~ live nt i x)
  /\ (forall k x, live nt k x -> exists x', live nt' k x' /\ same_fields kept_fields x x')
  /\ (forall k x', k <> i -> live nt' k x' -> exists x, live nt k x).

Section Joint.
Context (nt : ipa_nat_ip4_table_cache) (h n ih j : Z) (link ilink : option (Z * Z))
  (m im : option (list Z)) (ef ief : Z).
Hypothesis (Hwf : wf_nat nt)
  (Hins : nat_insertion (table nt) h n link m)
  (Hiins : idx_insertion (index_table nt) ih j ilink im)
  (Hv : table_entry_is_valid ef = true) (Hd : dead ef = false)
  (Hnx : getf nr_next_index ef = 0) (Hpv : getf nr_prev_index ef = link_prev link)
  (Hix : getf indx_tbl_entry ef = j)
  (Hiv : index_table_entry_is_valid ief = true) (Hinx : getf ir_next_index ief = 0)
  (Hte : getf tbl_entry ief = n)
  (Hipv : index_table_entry_get_prev_index ief j im (table_entries (index_table nt))
          = Some (link_prev ilink)).

Definition joint : ipa_nat_ip4_table_cache :=
  mk_ip4_table_cache (public_addr nt) (mem_desc nt)
    (ins_linked nat_layout (table nt) n ef link m)
    (ins_linked index_layout (index_table nt) j ief ilink im).

Lemma joint_tables :
  wf_nat_table (table joint) /\ reach (nat_view (table joint)) h n
  /\ wf_idx_table (index_table joint) /\ reach (idx_view (index_table joint)) ih j.
Proof.
  destruct (wf_ins_linked nat_entry_interface nat_layout cleared nat_meta_ok
              (table nt) h n link m ef) as [H1 H2]; try done;
    [apply (nw_table _ Hwf)|cbn; by rewrite <- Hpv|].
  destruct (wf_ins_linked index_entry_interface index_layout cleared index_meta_ok
              (index_table nt) ih j ilink im ief) as [H3 H4]; try done.
  apply (nw_index _ Hwf).
Qed.

Lemma joint_new : (slots (table joint)).[n] = Some ef /\ (slots (index_table joint)).[j] = Some ief.
Proof.
  split.
  - apply (ins_linked_new nat_entry_interface nat_layout cleared nat_meta_ok _ h);
      [apply (nw_table _ Hwf)|done].
  - apply (ins_linked_new index_entry_interface index_layout cleared index_meta_ok _ ih);
      [apply (nw_index _ Hwf)|done].
Qed.

Lemma joint_rule_fwd i x :
  (slots (table nt)).[i] = Some x -> table_entry_is_valid x = true ->
  i <> n /\ exists x', (slots (table joint)).[i] = Some x' /\ relinked nat_layout n x x'.
Proof.
  intros Hx Hvx. assert (Hi : i <> n).
  { intros ->. destruct Hins as (_ & (en & Hen & Hven) & _). cbn in Hven. congruence. }
  split; [done|].
  pose proof (ins_linked_other nat_entry_interface nat_layout nat_meta_ok _ h n ef link m i
    Hins Hi) as H. rewrite Hx in H. cbn [table joint].
  destruct ((slots (ins_linked _ _ _ _ _ _)).[i]) as [x'|]; [by eauto|done].
Qed.

Lemma joint_rule_bwd i x' :
  i <> n -> (slots (table joint)).[i] = Some x' ->
  exists x, (slots (table nt)).[i] = Some x /\ relinked nat_layout n x x'.
Proof.
  intros Hi Hx. pose proof (ins_linked_other nat_entry_interface nat_layout nat_meta_ok _ h n
    ef link m i Hins Hi) as H. cbn [table joint] in Hx. rewrite Hx in H.
  destruct ((slots (table nt)).[i]) as [x|]; [by eauto|done].
Qed.

Lemma joint_index_fwd i x :
  indexed nt i x -> i <> j /\ exists x', indexed joint i x' /\ getf tbl_entry x' = getf tbl_entry x.
Proof.
  intros [Hx Hvx]. assert (Hi : i <> j).
  { intros ->. destruct Hiins as (_ & (en & Hen & Hven) & _). cbn in Hven. congruence. }
  split; [done|].
  pose proof (ins_linked_other index_entry_interface index_layout index_meta_ok _ ih j ief
    ilink im i Hiins Hi) as H. rewrite Hx in H. unfold indexed. cbn [index_table joint].
  destruct ((slots (ins_linked _ _ _ _ _ _)).[i]) as [x'|]; [|done].
  apply relinked_index in H. exists x'. unfold index_table_entry_is_valid in *.
  rewrite H. done.
Qed.

Lemma joint_index_bwd i x' :
  i <> j -> indexed joint i x' -> exists x, indexed nt i x /\ getf tbl_entry x' = getf tbl_entry x.
Proof.
  intros Hi [Hx Hvx].
  pose proof (ins_linked_other index_entry_interface index_layout index_meta_ok _ ih j ief
    ilink im i Hiins Hi) as H. cbn [index_table joint] in Hx. rewrite Hx in H. unfold indexed.
  destruct ((slots (index_table nt)).[i]) as [x|]; [|done].
  apply relinked_index in H. exists x. unfold index_table_entry_is_valid in *.
  rewrite H in Hvx. done.
Qed.

Lemma joint_shape : wf_nat_shape joint.
Proof.
  pose proof (nw_shape _ Hwf) as Hs. apply (wf_nat_shape_same nt); [done| | | |].
  - apply ins_linked_shape.
  - apply ins_linked_shape.
  - unfold joint. destruct Hins as (_ & _ & Hm & _). destruct link as [[]|]; exact Hm.
  - unfold joint. destruct Hiins as (_ & _ & Hm & _). destruct ilink as [[]|]; exact Hm.
Qed.

Lemma joint_added : rule_added nt joint n ef.
Proof.
  destruct joint_new as [Hn Hj]. split_and!.
  - done.
  - intros x (Hx & Hvx & _). by destruct (joint_rule_fwd _ _ Hx Hvx).
  - intros k x (Hx & Hvx & Hdx). destruct (joint_rule_fwd _ _ Hx Hvx) as (_ & x' & Hx' & Hr).
    apply relinked_fields in Hr. exists x'. destruct (linked_fields_live _ _ Hr) as (E1 & E2 & _).
    split; [|by eapply same_fields_app_l]. split; [done|]. by rewrite E1, E2.
  - intros k x' Hk (Hx & Hvx & Hdx). destruct (joint_rule_bwd _ _ Hk Hx) as (x & Hx' & Hr).
    apply relinked_fields, linked_fields_live in Hr as (E1 & E2 & _). exists x.
    split; [done|]. by rewrite <- E1, <- E2.
Qed.

Lemma joint_wf : wf_nat joint.
Proof.
  destruct joint_tables as (H1 & _ & H2 & _). destruct joint_new as [Hn Hj]. split; [| done|done| | |].
  - apply joint_shape.
  - intros i e (He & Hve & Hde). destruct (decide (i = n)) as [->|Hi].
    + rewrite Hn in He. injection He as <-. rewrite Hix. by exists ief.
    + destruct (joint_rule_bwd _ _ Hi He) as (x & Hx & Hr).
      apply relinked_fields, linked_fields_live in Hr as (E1 & E2 & E3).
      destruct (nw_rule_index _ Hwf i x) as (y & Hy & Hty).
      { split; [done|]. by rewrite <- E1, <- E2. }
      destruct (joint_index_fwd _ _ Hy) as (_ & y' & Hy' & Ety). exists y'.
      by rewrite E3, Ety.
  - intros i x Hx. destruct (decide (i = j)) as [->|Hi].
    + destruct Hx as [Hx _]. rewrite Hj in Hx. injection Hx as <-. rewrite Hte. by exists ef.
    + destruct (joint_index_bwd _ _ Hi Hx) as (y & Hy & Ety).
      destruct (nw_index_rule _ Hwf i y Hy) as (e & (He & Hve & Hde) & Hie).
      destruct (joint_rule_fwd _ _ He Hve) as (_ & e' & He' & Hr).
      apply relinked_fields, linked_fields_live in Hr as (E1 & E2 & E3). exists e'.
      rewrite Ety. split; [split; [done|by rewrite E1, E2]|]. by rewrite E3.
  - intros i e He Hve Hde. destruct (decide (i = n)) as [->|Hi].
    { rewrite Hn in He. injection He as <-. congruence. }
    destruct (joint_rule_bwd _ _ Hi He) as (x & Hx & Hr).
    pose proof Hr as Hr'. apply relinked_fields, linked_fields_live in Hr' as (E1 & E2 & E3).
    destruct (nw_dead _ Hwf i x Hx) as [Hb Hn0]; [congruence|congruence|].
    split.
    { destruct (ins_linked_shape nat_layout (table nt) n ef link m) as (_ & Eb & _).
      cbn [table joint]. by rewrite Eb. }
    destruct Hr as [->| ->]; [done|]. unfold record_put16.
    rewrite (getf_setf_same (half_at (el_next_off nat_layout)) nr_next_index) by field_side.
    change (n mod 2 ^ fw nr_next_index) with (u16 n).
    destruct Hins as (Hnr & _). pose proof (wl_max _ _ _ _ (ns_layout _ (nw_shape _ Hwf))) as Hmax.
    unfold IPA_TABLE_MAX_ENTRIES in Hmax. rewrite u16_small; lia.
Qed.
End Joint.

(** ** The whole operation *)

(** The DMA entries of an insertion address the tables' own records. *)
Lemma nat_ins_dma nt h n link m d :
  wf_nat nt -> nat_insertion (table nt) h n link m ->
  Forall (nat_dma nt) (ins_ones nat_layout IPA_NAT_BASE_TBL IPA_NAT_EXPN_TBL (table nt) false n link d)
  /\ Forall (for_table IPA_NAT_BASE_TBL IPA_NAT_EXPN_TBL)
       (ins_ones nat_layout IPA_NAT_BASE_TBL IPA_NAT_EXPN_TBL (table nt) false n link d).
Proof.
  intros Hwf (Hn & _ & _ & _ & Hlk). unfold ins_ones, tail_ones.
  pose proof (wl_slots _ _ _ _ (ns_layout _ (nw_shape _ Hwf))) as Hs.
  destruct link as [[p ep]|]; cbn [app].
  - destruct Hlk as (_ & _ & Hep & _). apply lookupZ_Some_range in Hep.
    split; repeat (apply Forall_cons; split); try apply Forall_nil; try done;
      try apply the_one_for_table; apply nat_dma_table; (done || lia).
  - split; repeat (apply Forall_cons; split); try apply Forall_nil; try done;
      try apply the_one_for_table; apply nat_dma_table; (done || lia).
Qed.

Lemma idx_ins_dma nt h n link m d :
  wf_nat nt -> idx_insertion (index_table nt) h n link m ->
  Forall (nat_dma nt)
    (ins_ones index_layout IPA_NAT_INDX_TBL IPA_NAT_INDEX_EXPN_TBL (index_table nt) true n link d)
  /\ Forall (for_table IPA_NAT_INDX_TBL IPA_NAT_INDEX_EXPN_TBL)
       (ins_ones index_layout IPA_NAT_INDX_TBL IPA_NAT_INDEX_EXPN_TBL (index_table nt) true n link d).
Proof.
  intros Hwf (Hn & _ & _ & _ & Hlk). unfold ins_ones, tail_ones.
  pose proof (wl_slots _ _ _ _ (ns_idx_layout _ (nw_shape _ Hwf))) as Hs.
  destruct link as [[p ep]|]; cbn [app].
  - destruct Hlk as (_ & _ & Hep & _). apply lookupZ_Some_range in Hep.
    split; repeat (apply Forall_cons; split); try apply Forall_nil; try done;
      try apply the_one_for_table; apply nat_dma_index; (done || lia).
  - split; repeat (apply Forall_cons; split); try apply Forall_nil; try done;
      try apply the_one_for_table; apply nat_dma_index; (done || lia).
Qed.

(** The tables as a failed insertion leaves them: only the previous index of
    a free index record may differ. *)
Definition rolled_back (nt nt' : ipa_nat_ip4_table_cache) : Prop :=
  wf_nat nt' /\ table nt' = table nt /\ mem_desc nt' = mem_desc nt
  /\ public_addr nt' = public_addr nt
  /\ exists m, index_table nt' = with_meta (index_table nt) m.

Lemma rolled_back_refl nt : wf_nat nt -> rolled_back nt nt.
Proof.
  intros H. split_and!; try done. exists (meta (index_table nt)). by destruct nt as [? ? ? []].
Qed.

Lemma rolled_back_meta nt ih j ilink im :
  wf_nat nt -> idx_insertion (index_table nt) ih j ilink im ->
  rolled_back nt (with_index_table nt (with_meta (index_table nt) im)).
Proof.
  intros Hwf Hins. split_and!; try done; [|by eexists]. destruct Hwf as [Hs Ht Hi H1 H2 H3].
  split; try done.
  - apply (wf_nat_shape_same nt); try done; [apply (wl_meta _ _ _ _ (ns_layout _ Hs))|].
    destruct Hins as (_ & _ & Hm & _). done.
  - by eapply wf_table_with_meta.
Qed.

(** The rule was added under its handle and is found from both buckets. *)
Definition rule_inserted (ps : list ipa_nat_pdn_entry) (r : ipa_nat_ipv4_rule) (v ip token : Z)
    (nt nt' : ipa_nat_ip4_table_cache) (hdl : Z) : Prop :=
  exists i e,
    hdl = MakeEntryHdl (table nt) i /\ 0 < i < tot_tbl_ents (table nt)
    /\ rule_added nt nt' i e /\ rule_matches ps r e
    /\ getf time_stamp e = u_time_stamp r mod 2 ^ 24 /\ getf redirect e = 0
    /\ mem_desc nt' = mem_desc nt /\ same_shape (table nt) (table nt')
    /\ reach (nat_view (table nt')) (nat_bucket v ip r (table_entries (table nt)) token).1 i
    /\ reach (idx_view (index_table nt'))
         (index_bucket r (table_entries (table nt))
            (nat_bucket v ip r (table_entries (table nt)) token).2).1
         (getf indx_tbl_entry e).

Lemma wf_nat_sizes nt :
  wf_nat nt -> 2 <= table_entries (table nt) <= 5120 /\ tot_tbl_ents (table nt) <= 5120.
Proof.
  intros Hwf. pose proof (nw_shape _ Hwf) as Hs. pose proof (ns_layout _ Hs) as Hl.
  pose proof (wl_max _ _ _ _ Hl). pose proof (wl_tot _ _ _ _ Hl). pose proof (wl_expn _ _ _ _ Hl).
  pose proof (ns_size _ Hs). unfold IPA_TABLE_MAX_ENTRIES in *. lia.
Qed.

Lemma nat_not_index nt : wf_nat nt -> is_index (table nt) = false.
Proof.
  intros Hwf. pose proof (wl_meta _ _ _ _ (ns_layout _ (nw_shape _ Hwf))) as Hm.
  unfold is_index. by rewrite Hm.
Qed.

Lemma idx_is_index nt : wf_nat nt -> is_index (index_table nt) = true.
Proof.
  intros Hwf. destruct (wl_meta _ _ _ _ (ns_idx_layout _ (nw_shape _ Hwf))) as (l & Hm & _).
  unfold is_index. by rewrite Hm.
Qed.

(** The posting step: both records are in place, the command is complete. *)
Section Posting.
Context {K : Type} {E : IpaEnv K} {laws : IpaEnvLaws K}.
Context (c : ipa_nat_cache) (d : ipa_descriptor) (nt : ipa_nat_ip4_table_cache)
  (h n ih j : Z) (link ilink : option (Z * Z)) (m im : option (list Z)) (e2 ie fd1 fd2 : Z).
Hypothesis (Hd : ipa_desc c = Some d) (Hwf : wf_nat nt)
  (Hins : nat_insertion (table nt) h n link m)
  (Hiins : idx_insertion (index_table nt) ih j ilink im).

Definition placed : ipa_nat_ip4_table_cache :=
  mk_ip4_table_cache (public_addr nt) (mem_desc nt)
    (ins_table (table nt) n e2 link m) (ins_table (index_table nt) j ie ilink im).

Definition add_ones : list ipa_ioc_nat_dma_one :=
  ins_ones nat_layout IPA_NAT_BASE_TBL IPA_NAT_EXPN_TBL (table nt) false n link fd1
  ++ ins_ones index_layout IPA_NAT_INDX_TBL IPA_NAT_INDEX_EXPN_TBL (index_table nt) true j ilink fd2.

Lemma placed_shape : wf_nat_shape placed.
Proof.
  apply (wf_nat_shape_same nt); [apply (nw_shape _ Hwf)|apply ins_table_shape
    |apply ins_table_shape| |]; unfold placed; cbn [table index_table].
  - destruct Hins as (_ & _ & Hm & _). destruct link; exact Hm.
  - destruct Hiins as (_ & _ & Hm & _). destruct ilink; exact Hm.
Qed.

Lemma post_add cmd k :
  cmd_ones cmd = add_ones ->
  exists k',
    ipa_nati_post_ipv4_dma_cmd c placed cmd k
    = Some (0, joint nt n j link ilink m im (ins_final nat_layout false link e2 fd1)
                 (ins_final index_layout true ilink ie fd2), k')
    \/ ipa_nati_post_ipv4_dma_cmd c placed cmd k = Some (- EIO, placed, k').
Proof.
  intros Hc. destruct (nat_ins_dma nt h n link m fd1 Hwf Hins) as [D1 F1].
  destruct (idx_ins_dma nt ih j ilink im fd2 Hwf Hiins) as [D2 F2].
  apply (post_dma_spec c d); [apply placed_shape|done| |]; rewrite Hc; unfold add_ones.
  - apply Forall_app. split; [eapply Forall_impl; [exact D1|]|eapply Forall_impl; [exact D2|]];
      intros one; apply nat_dma_shape; apply ins_table_shape.
  - rewrite apply_ones_app.
    erewrite apply_ones_nat; [|done|].
    2: { cbn [placed table]. apply (apply_ins_ones nat_entry_interface nat_layout cleared nat_meta_ok
           _ _ _ h); [apply (nw_table _ Hwf)|done|done]. }
    cbn [mbind option_bind]. erewrite apply_ones_idx; [done|done|].
    cbn [placed with_table index_table].
    apply (apply_ins_ones index_entry_interface index_layout cleared index_meta_ok _ _ _ ih);
      [apply (nw_index _ Hwf)|done|done].
Qed.
End Posting.

Section AddRule.
Context {K : Type} {E : IpaEnv K} {laws : IpaEnvLaws K}.
Context (c : ipa_nat_cache) (d : ipa_descriptor) (nt : ipa_nat_ip4_table_cache)
  (ps : list ipa_nat_pdn_entry) (pdn : ipa_nat_pdn_entry) (r : ipa_nat_ipv4_rule).
Hypothesis (Hd : ipa_desc c = Some d) (Hwf : wf_nat nt)
  (Hp : ps.[u_pdn_index r] = Some pdn) (Hlt : u_pdn_index r < IPA_MAX_PDN_NUM)
  (Hu : wf_user_rule r) (Hproto : u_protocol r <> IPAHAL_NAT_INVALID_PROTOCOL).

Lemma add_to_nat_table bucket cmd k :
  0 < bucket < table_entries (table nt) -> cmd_room cmd k -> 2 <= k ->
  (exists n link m e1 fd1,
     nat_insertion (table nt) bucket n link m /\ (slots (table nt)).[n] = Some 0
     /\ new_record nat_entry_interface (table nt) (ps, r) n link m 0 e1 fd1
     /\ ipa_table_add_entry (table nt) (ps, r) bucket (Some 0) cmd
        = Some (0, ins_table (table nt) n e1 link m, n, Some (MakeEntryHdl (table nt) n),
                push_all cmd (ins_ones nat_layout IPA_NAT_BASE_TBL IPA_NAT_EXPN_TBL
                                (table nt) false n link fd1)))
  \/ ipa_table_add_entry (table nt) (ps, r) bucket (Some 0) cmd
     = Some (-1, table nt, bucket, Some 0, cmd).
Proof.
  intros Hb Hr Hk.
  destruct (add_entry_spec nat_entry_interface nat_layout cleared nat_meta_ok
    IPA_NAT_BASE_TBL IPA_NAT_EXPN_TBL (table nt) (ps, r) bucket (Some 0) cmd k)
    as [(n & link & m & en & e1 & fd1 & Hi & Hen & Hf & Hn & Ea)|(_ & _ & Ea)];
    try done; try apply (nw_table _ Hwf); try apply (ns_helpers _ (nw_shape _ Hwf)).
  - intros en ->. destruct (head_insert_spec ps r pdn 0 Hp Hlt Hu (getf_zero _)) as (e' & x & He & _). eauto.
  - intros en ->. rewrite nat_not_index by done.
    destruct (head_insert_spec ps r pdn 0 Hp Hlt Hu (getf_zero _)) as (e' & x & He & _). eauto.
  - left. rewrite Hf in *. rewrite nat_not_index in Ea by done. by exists n, link, m, e1, fd1.
  - by right.
Qed.

Lemma add_to_index_table n bucket cmd k :
  0 < bucket < table_entries (index_table nt) -> cmd_room cmd k -> 2 <= k ->
  (exists j link m e1 fd1,
     idx_insertion (index_table nt) bucket j link m /\ (slots (index_table nt)).[j] = Some 0
     /\ new_record index_entry_interface (index_table nt) n j link m 0 e1 fd1
     /\ ipa_table_add_entry (index_table nt) n bucket None cmd
        = Some (0, ins_table (index_table nt) j e1 link m, j, None,
                push_all cmd (ins_ones index_layout IPA_NAT_INDX_TBL IPA_NAT_INDEX_EXPN_TBL
                                (index_table nt) true j link fd1)))
  \/ ipa_table_add_entry (index_table nt) n bucket None cmd
     = Some (-1, index_table nt, bucket, None, cmd).
Proof.
  intros Hb Hr Hk.
  destruct (add_entry_spec index_entry_interface index_layout cleared index_meta_ok
    IPA_NAT_INDX_TBL IPA_NAT_INDEX_EXPN_TBL (index_table nt) n bucket None cmd k)
    as [(j & link & m & en & e1 & fd1 & Hi & Hen & Hf & Hn & Ea)|(_ & _ & Ea)];
    try done; try apply (nw_index _ Hwf); try apply (ns_idx_helpers _ (nw_shape _ Hwf)).
  - intros en _. by eexists _, _.
  - intros en _. rewrite idx_is_index by done. by eexists _, _.
  - left. rewrite Hf in *. rewrite idx_is_index in Ea by done. by exists j, link, m, e1, fd1.
  - by right.
Qed.

Lemma joint_inserted bucket n link m e1 fd1 token token1 ibucket token2 j ilink im ie fd2 :
  nat_insertion (table nt) bucket n link m ->
  new_record nat_entry_interface (table nt) (ps, r) n link m 0 e1 fd1 ->
  idx_insertion (index_table nt) ibucket j ilink im ->
  new_record index_entry_interface (index_table nt) n j ilink im 0 ie fd2 ->
  nat_bucket (ver d) (public_ip pdn) r (table_entries (table nt)) token = (bucket, token1) ->
  index_bucket r (table_entries (table nt)) token1 = (ibucket, token2) ->
  let nt' := joint nt n j link ilink m im
    (ins_final nat_layout false link (finish_rule e1 r j) fd1)
    (ins_final index_layout true ilink ie fd2) in
  wf_nat nt'
  /\ rule_inserted ps r (ver d) (public_ip pdn) token nt nt' (MakeEntryHdl (table nt) n).
Proof.
  intros Hins Hnew Hiins Hinew Eb Eib nt'. destruct (wf_nat_sizes _ Hwf) as [Hbase Htot].
  assert (Hnr : 0 < n < tot_tbl_ents (table nt)) by apply Hins.
  assert (Hjr : 0 < j < tot_tbl_ents (table nt))
    by (rewrite <- (ns_tot _ (nw_shape _ Hwf)); apply Hiins).
  destruct (nat_new_record_spec _ _ _ _ _ _ _ _ _ Hp Hlt Hu (nat_not_index _ Hwf) Hnew)
    as (R1 & R2 & R3 & R4).
  destruct (nat_final_record ps r e1 fd1 j R1 R4) as (F1 & F2 & F3 & F4 & F5 & F6 & F7); [lia|].
  rewrite R2 in F3. rewrite R3 in F4.
  assert (Eef : ins_final nat_layout false link (finish_rule e1 r j) fd1
    = record_put16 (finish_rule e1 r j) IPA_NAT_RULE_FLAG_FIELD_OFFSET fd1) by (by destruct link).
  destruct (idx_final_record _ _ n _ _ _ _ _ (idx_is_index _ Hwf) ltac:(lia) Hiins Hinew)
    as (I1 & I2 & I3 & I4).
  rewrite <- Eef in F1, F2, F3, F4, F5, F6, F7.
  assert (Hdead : dead (ins_final nat_layout false link (finish_rule e1 r j) fd1) = false).
  { unfold dead. destruct F1 as (_ & _ & -> & _). by apply Z.eqb_neq. }
  split; [by apply (joint_wf nt bucket n ibucket j)|].
  destruct (joint_tables nt bucket n ibucket j link ilink m im _ _ Hwf Hins Hiins F2 F3 F4 I1 I2 I4)
    as (_ & T2 & _ & T4).
  exists n, (ins_final nat_layout false link (finish_rule e1 r j) fd1).
  rewrite Eb. cbn [fst snd]. rewrite Eib, F5. cbn [fst]. split_and!; try done; try lia.
  - by apply (joint_added nt bucket n ibucket j).
  - apply ins_linked_shape.
Qed.

(** Status, handle and tables; the hash token and the environment aside. *)
Lemma add_rule_spec token k :
  exists ret hdl token' nt' k',
    add_ipv4_rule_locked c nt ps r token k = Some (ret, hdl, token', nt', k')
    /\ ((ret = 0 /\ wf_nat nt' /\ rule_inserted ps r (ver d) (public_ip pdn) token nt nt' hdl)
        \/ (ret < 0 /\ hdl = 0 /\ rolled_back nt nt')).
Proof.
  destruct (wf_nat_sizes _ Hwf) as [Hbase Htot]. pose proof (nw_shape _ Hwf) as Hs.
  unfold add_ipv4_rule_locked. rewrite Hd, Hp. cbn [mbind option_bind].
  pose proof (nat_bucket_range (ver d) (public_ip pdn) r _ token Hbase) as Hb.
  destruct (nat_bucket _ _ _ _ token) as [bucket token1] eqn:Eb. cbn [fst snd] in Hb.
  assert (Hroom : cmd_room (dma_cmd_zero MAX_DMA_ENTRIES_FOR_ADD) 4) by (apply cmd_room_zero; unfold MAX_DMA_ENTRIES_FOR_ADD; lia).
  destruct (add_to_nat_table bucket _ 4 ltac:(lia) Hroom ltac:(lia))
    as [(n & link & m & e1 & fd1 & Hins & H0 & Hnew & Ea)|Ea]; rewrite Ea;
    cbn [mbind option_bind Z.eqb negb].
  2: { eexists _, _, _, _, _. split; [reflexivity|]. right. split; [lia|]. split; [done|].
       rewrite with_table_id. by apply rolled_back_refl. }
  set (ones1 := ins_ones _ _ _ _ _ _ _ _).
  destruct (push_all_spec ones1 _ 4 Hroom) as [Hroom1 Eones1];
    [unfold ones1; etransitivity; [apply ins_ones_length|lia]|].
  assert (Hroom1' : cmd_room (push_all (dma_cmd_zero MAX_DMA_ENTRIES_FOR_ADD) ones1) 2)
    by (eapply cmd_room_weaken; [done|];
        pose proof (ins_ones_length nat_layout IPA_NAT_BASE_TBL IPA_NAT_EXPN_TBL (table nt)
                      false n link fd1) as H; fold ones1 in H; lia).
  assert (Ebase : table_entries (table (with_table nt (ins_table (table nt) n e1 link m)))
    = table_entries (table nt)) by apply ins_table_shape.
  rewrite Ebase.
  pose proof (index_bucket_range r _ token1 Hbase) as Hib.
  destruct (index_bucket r _ token1) as [ibucket token2] eqn:Eib. cbn [fst] in Hib.
  cbn [with_table index_table table].
  assert (Emeta : with_meta (table nt) m = table nt).
  { pose proof (wl_meta _ _ _ _ (ns_layout _ Hs)) as H1. destruct Hins as (_ & _ & H2 & _).
    unfold nat_meta_ok in *. rewrite H2, <- H1. by destruct nt as [? ? [] ?]. }
  assert (Herase : forall e, ipa_table_erase_entry (ins_table (table nt) n e link m) n = Some (table nt)).
  { intros e. rewrite <- Emeta at 2. by apply (erase_ins_table nat_entry_interface nat_layout cleared
      nat_meta_ok _ bucket); [apply (nw_table _ Hwf)| |]. }
  destruct (add_to_index_table n ibucket _ 2 ltac:(rewrite (ns_base _ Hs); lia) Hroom1' ltac:(lia))
    as [(j & ilink & im & ie & fd2 & Hiins & Hi0 & Hinew & Eia)|Eia]; rewrite Eia;
    cbn [mbind option_bind Z.eqb negb with_index_table with_table table index_table].
  2: { rewrite Herase. cbn [mbind option_bind]. eexists _, _, _, _, _. split; [reflexivity|].
       right. split; [lia|]. split; [done|]. destruct nt. by apply rolled_back_refl. }
  assert (Hl1 : wf_nat_layout (ins_table (table nt) n e1 link m))
    by apply (placed_shape nt bucket n ibucket j link ilink m im e1 ie Hwf Hins Hiins).
  assert (Hnr : 0 < n < tot_tbl_ents (table nt)) by apply Hins.
  assert (Hjr : 0 < j < tot_tbl_ents (table nt))
    by (rewrite <- (ns_tot _ Hs); apply Hiins).
  assert (Hnr1 : 0 < n < tot_tbl_ents (ins_table (table nt) n e1 link m))
    by (destruct link; exact Hnr).
  rewrite (get_entry_by_index_live nat_entry_interface nat_layout nat_meta_ok) by done.
  rewrite (GOTO_REC_not_NULL nat_entry_interface nat_layout nat_meta_ok) by (done || lia).
  rewrite (rec_load_GOTO_REC nat_entry_interface nat_layout nat_meta_ok) by done.
  rewrite ins_table_lookup by (rewrite (wl_slots _ _ _ _ (ns_layout _ Hs)); lia).
  cbn [mbind option_bind].
  rewrite (rec_store_GOTO_REC nat_entry_interface nat_layout nat_meta_ok) by (done || lia).
  cbn [mbind option_bind]. rewrite ins_table_rewrite.
  match goal with |- context [ipa_nati_post_ipv4_dma_cmd c ?x _ _] =>
    change x with (placed nt n j link ilink m im (finish_rule e1 r j) ie) end.
  destruct (push_all_spec (ins_ones index_layout IPA_NAT_INDX_TBL IPA_NAT_INDEX_EXPN_TBL
    (index_table nt) true j ilink fd2) _ 2 Hroom1') as [_ Eones2]; [apply ins_ones_length|].
  rewrite Eones1 in Eones2.
  destruct (post_add c d nt bucket n ibucket j link ilink m im (finish_rule e1 r j) ie fd1 fd2
    Hd Hwf Hins Hiins _ k Eones2) as (k' & [Epost|Epost]); rewrite Epost;
    cbn [mbind option_bind Z.eqb negb default].
  - eexists _, _, _, _, _. split; [reflexivity|]. left. split; [done|].
    by apply (joint_inserted bucket n link m e1 fd1 token token1 ibucket token2).
  - cbn [placed index_table table].
    rewrite (erase_ins_table index_entry_interface index_layout cleared index_meta_ok _ ibucket)
      by (done || apply (nw_index _ Hwf)). cbn [mbind option_bind].
    rewrite Herase. cbn [mbind option_bind].
    eexists _, _, _, _, _. split; [reflexivity|]. right. split; [done|]. split; [done|].
    eapply (rolled_back_meta nt ibucket j ilink im) in Hiins; [|done]. exact Hiins.
Qed.
End AddRule.
