(* ===== verification/NatDel.v ===== *)
(** * Deleting a rule, creating a table

    [del_ipv4_rule_locked] removes exactly the rule of its handle: the rule
    leaves both tables (a chain head with members stays as a place holder
    that matches no packet), and every other rule keeps its translation and
    its index record.

    A table [ipa_nati_create_table] returns is empty and well formed, with a
    capacity between 4 and 5120 records and handles for every record. *)
From S2P Require Import Prelude Bitfield Chain Table TableFacts TableDma TableInsert TableDelete.
From S2P Require Import TableHold TableHandle NatRule NatRuleFacts Env NatTable NatOps NatWf.
From S2P Require Import NatAdd Sizing.

Abbreviation nat_iter := (@iter_at nat_user).
Abbreviation idx_iter := (@iter_at Z).
Abbreviation nat_delete_one :=
  (delete_one nat_entry_interface nat_layout IPA_NAT_BASE_TBL IPA_NAT_EXPN_TBL).
Abbreviation idx_delete_one :=
  (delete_one index_entry_interface index_layout IPA_NAT_INDX_TBL IPA_NAT_INDEX_EXPN_TBL).

(** ** The NAT table *)

(** What a change of its neighbours leaves of a rule. *)
Definition indexed_fields : list field := kept_fields ++ [indx_tbl_entry].

Lemma indexed_fields_live x x' :
  same_fields indexed_fields x x' ->
  table_entry_is_valid x' = table_entry_is_valid x /\ dead x' = dead x
  /\ getf indx_tbl_entry x' = getf indx_tbl_entry x.
Proof.
  intros H. unfold table_entry_is_valid, dead.
  by rewrite !(same_fields_read indexed_fields x x') by done.
Qed.

(** Rules are deleted as [TableHold] says. *)
#[export] Instance nat_holder_laws :
  HolderLaws nat_entry_interface nat_layout dead (same_fields indexed_fields).
Proof.
  split; cbn; unfold record_put16, dead, table_entry_is_valid, table_entry_get_next_index,
    table_entry_get_prev_index.
  - apply same_fields_refl.
  - intros x x' H. destruct (indexed_fields_live _ _ H) as (H1 & H2 & _). done.
  - intros x n. apply same_fields_setf; [done|field_side].
  - intros x i p m base x' m' [= <- _]. apply same_fields_setf; [done|field_side].
  - intros x c n. rewrite getf_setf_sub by field_side. reflexivity.
  - intros x d. by simp_fields.
  - intros x d. by simp_fields.
  - intros x d i m base. by simp_fields.
Qed.

Abbreviation dead_ok := (TableHold.dead_ok nat_entry_interface dead).
Abbreviation live_in := (TableHold.live_in nat_entry_interface dead).
Abbreviation nat_deleted :=
  (deleted nat_entry_interface nat_layout cleared nat_meta_ok dead (same_fields indexed_fields)).

Lemma nat_delete_all (t : ipa_table nat_user) i e il :
  wf_nat_table t -> nat_view t i = Some il -> (slots t).[i] = Some e -> dead_ok t ->
  exists t1 t', table_apply_one IPA_NAT_BASE_TBL IPA_NAT_EXPN_TBL (nat_delete_one t i il) t = Some t1
    /\ nat_delete_step t1 (nat_iter t i il) = Some t' /\ nat_deleted t t' i.
Proof.
  intros Hwf Hv He Hd.
  exact (delete_all nat_entry_interface nat_layout cleared nat_meta_ok dead _
           IPA_NAT_BASE_TBL IPA_NAT_EXPN_TBL ltac:(done) t i e il Hwf Hv He Hd).
Qed.

(** ** The index table *)

Definition indexed_in (it : ipa_table Z) (j x : Z) : Prop :=
  (slots it).[j] = Some x /\ index_table_entry_is_valid x = true.

(** The records of [it'] other than those of [ex] point where they did. *)
Definition same_index (ex : list Z) (it it' : ipa_table Z) : Prop :=
  forall k, k ∉ ex ->
    (forall x, indexed_in it k x -> exists x', indexed_in it' k x' /\ getf tbl_entry x' = getf tbl_entry x)
    /\ (forall x', indexed_in it' k x' -> exists x, indexed_in it k x /\ getf tbl_entry x' = getf tbl_entry x).

Definition idx_vacated (it it' : ipa_table Z) (j : Z) (ex : list Z) : Prop :=
  wf_idx_table it' /\ same_shape it it' /\ (forall x, ~ indexed_in it' j x)
  /\ same_index ex it it'.

Lemma same_index_pointwise ex it it' :
  (forall k, k ∉ ex -> match (slots it).[k], (slots it').[k] with
    | Some x, Some x' => getf tbl_entry x' = getf tbl_entry x
    | None, None => True | _, _ => False end) ->
  same_index ex it it'.
Proof.
  intros H k Hk. specialize (H k Hk). unfold indexed_in, index_table_entry_is_valid. split.
  - intros x [Hx Hv]. rewrite Hx in H. destruct ((slots it').[k]) as [x'|]; [|done].
    exists x'. rewrite H. done.
  - intros x' [Hx Hv]. rewrite Hx in H. destruct ((slots it).[k]) as [x|]; [|done].
    exists x. rewrite H in Hv. done.
Qed.

(** Clearing the previous index of the vacated record. *)
Lemma idx_clear_meta it j :
  wf_idx_table it -> (slots it).[j] = Some 0 ->
  exists it', (if table_entries it <=? j then
                 m ← meta it; m ← storeZ m (j - table_entries it) IPA_TABLE_INVALID_ENTRY;
                 Some (with_meta it (Some m))
               else Some it) = Some it'
    /\ wf_idx_table it' /\ same_shape it it' /\ slots it' = slots it.
Proof.
  intros Hwf Hj. pose proof (wt_layout _ _ _ _ _ Hwf) as Hl.
  destruct (table_entries it <=? j) eqn:E; [|by exists it]. apply Z.leb_le in E.
  destruct (wl_meta _ _ _ _ Hl) as (l & Hm & Hlen). rewrite Hm. cbn [mbind option_bind].
  pose proof (lookupZ_Some_range _ _ _ Hj) as Hr. rewrite (wl_slots _ _ _ _ Hl) in Hr.
  pose proof (wl_tot _ _ _ _ Hl). rewrite storeZ_Some by lia. cbn [mbind option_bind].
  eexists. split; [reflexivity|]. split; [|done].
  apply (wf_table_meta_free index_entry_interface index_layout cleared index_meta_ok it j 0); try done.
  - eexists. split; [done|]. by rewrite lengthZ_updateZ.
  - intros e k Hk Hne. cbn. unfold index_table_entry_get_prev_index. rewrite Hm.
    destruct (table_entries it <=? k); [|done]. cbn. apply lookupZ_updateZ_ne. lia.
Qed.

Section IdxTableDelete.
Context (it : ipa_table Z) (j x : Z) (jl : link).
Hypothesis (Hwf : wf_idx_table it) (Hv : idx_view it j = Some jl) (Hx : (slots it).[j] = Some x).

Let Hl : wf_idx_layout it := wt_layout _ _ _ _ _ Hwf.
Let Hc := wt_chains _ _ _ _ _ Hwf.
Abbreviation ifs := index_entry_interface.

Lemma idx_delete_lone :
  j < table_entries it -> l_next jl = 0 ->
  exists it1 it', table_apply_one IPA_NAT_INDX_TBL IPA_NAT_INDEX_EXPN_TBL (idx_delete_one it j jl) it
      = Some it1
    /\ idx_delete_step it1 (idx_iter it j jl) = Some it' /\ idx_vacated it it' j [j].
Proof.
  intros Hb Hn. pose proof (wfc_base _ _ _ Hc _ _ Hv Hb) as Hp.
  eexists _, (removed it j). split.
  { unfold delete_one. rewrite decide_True, decide_True by done.
    by apply (apply_the_one ifs index_layout index_meta_ok); [| |rewrite (wl_entry_size _ _ _ _ Hl)|]. }
  split.
  { unfold idx_delete_step. rewrite (delete_entry_lone ifs index_layout cleared index_meta_ok) by done.
    cbn [mbind option_bind curr_index iter_at].
    by rewrite (proj2 (Z.leb_gt _ _)) by (cbn; lia). }
  destruct (wf_table_removed ifs index_layout cleared index_meta_ok it j jl Hwf Hv Hb Hn) as [Hwf' _].
  split; [done|]. split; [repeat split; cbn; by rewrite lengthZ_updateZ|]. split.
  - intros y [Hy Hvy]. cbn in Hy. rewrite lookupZ_updateZ_eq in Hy by (by eapply lookupZ_Some_range).
    by injection Hy as <-.
  - apply same_index_pointwise. intros k Hk. apply not_elem_of_cons in Hk as [Hk _]. cbn.
    rewrite lookupZ_updateZ_ne by done. by destruct ((slots it).[k]).
Qed.

(** A member; [it] may also be the table whose head was just rewritten. *)
Lemma idx_delete_member pe :
  table_entries it <= j -> (slots it).[l_prev jl] = Some pe ->
  exists it', idx_delete_step
      (with_slots it (slots it).[l_prev jl <- record_put16 pe (el_next_off index_layout) (l_next jl)])
      (idx_iter it j jl) = Some it'
    /\ idx_vacated it it' j [j].
Proof.
  intros Hb Hpe.
  destruct (delete_entry_member ifs index_layout cleared index_meta_ok it j jl pe false
    Hwf Hv Hb Hpe (or_introl eq_refl)) as (l' & m' & E3 & Hun).
  destruct (wf_table_unlinked ifs index_layout cleared index_meta_ok it j jl pe l' m' Hwf Hv Hb Hpe Hun)
    as [Hwf' _].
  destruct (unlinked_facts ifs index_layout cleared index_meta_ok it j jl pe l' m' Hwf Hv Hb Hpe Hun)
    as (_ & Hi0 & Hp' & Hn' & Hfr & _).
  pose proof (unlinked_length _ _ _ _ _ _ _ _ Hun) as Hlen.
  unfold idx_delete_step. rewrite E3. cbn [mbind option_bind curr_index iter_at].
  set (it1 := with_expn_cnt _ _) in *.
  destruct (idx_clear_meta it1 j Hwf' Hi0) as (it' & E4 & Hwf2 & Hs2 & Hsl).
  exists it'. split; [exact E4|]. split; [done|].
  assert (Hs1 : same_shape it it1) by (by repeat split).
  split. { unfold same_shape in *. intuition congruence. }
  split.
  - intros y [Hy Hvy]. rewrite Hsl in Hy. cbn in Hy. rewrite Hi0 in Hy. by injection Hy as <-.
  - apply same_index_pointwise. intros k Hk. apply not_elem_of_cons in Hk as [Hk _]. rewrite Hsl. cbn.
    destruct (decide (k = l_prev jl)) as [->|Hkp].
    { rewrite Hpe, Hp'. unfold record_put16. by simp_fields. }
    destruct (decide (k = l_next jl /\ l_next jl <> 0)) as [[-> Hn0]|Hkn].
    { destruct (Hn' Hn0) as (ne & ne' & -> & -> & _ & _ & _ & Es). cbn in Es.
      unfold index_table_entry_set_prev_index in Es. revert Es.
      destruct (table_entries it <=? l_next jl); [|by intros [= <- _]].
      destruct (meta it) as [l|]; [|done]. cbn. destruct (storeZ _ _ _); [|done]. cbn.
      by intros [= <- _]. }
    rewrite Hfr by (done || lia). by destruct ((slots it).[k]).
Qed.
End IdxTableDelete.

(** ** Both tables *)

(** Rule [i] is gone, all other rules are kept. *)
Definition rule_deleted (nt nt' : ipa_nat_ip4_table_cache) (i : Z) : Prop :=
  (forall x, ~ live nt' i x)
  /\ (forall k x, k <> i -> live nt k x -> exists x', live nt' k x' /\ same_fields kept_fields x x')
  /\ (forall k x', live nt' k x' -> exists x, live nt k x)
  /\ same_shape (table nt) (table nt') /\ mem_desc nt' = mem_desc nt.

Lemma wf_nat_dead_ok nt : wf_nat nt -> dead_ok (table nt).
Proof. intros Hwf i e. apply (nw_dead _ Hwf). Qed.

(** A rule written to without touching what the invariant says of it. *)
Lemma nat_rewrite_indx (t : ipa_table nat_user) i e j :
  wf_nat_table t -> (slots t).[i] = Some e -> table_entry_is_valid e = true -> dead_ok t ->
  let t' := with_slots t (slots t).[i <- setf indx_tbl_entry e j] in
  wf_nat_table t' /\ nat_view t' ≡ nat_view t /\ dead_ok t'.
Proof.
  intros Hwf He Hv Hd t'.
  assert (E1 : table_entry_is_valid (setf indx_tbl_entry e j) = table_entry_is_valid e)
    by (unfold table_entry_is_valid; by simp_fields).
  destruct (wf_table_rewrite nat_entry_interface nat_layout cleared nat_meta_ok t i e
              (setf indx_tbl_entry e j)) as [H1 H2]; try done.
  - cbn. by rewrite E1.
  - cbn. unfold table_entry_get_next_index. by simp_fields.
  - cbn. unfold table_entry_get_prev_index. by simp_fields.
  - split; [done|]. split; [done|]. intros k x Hx Hvx Hdx. cbn in Hx.
    destruct (decide (i = k)) as [<-|Hk].
    + rewrite lookupZ_updateZ_eq in Hx by (by eapply lookupZ_Some_range). injection Hx as <-.
      unfold dead in Hdx. rewrite getf_setf_ne in Hdx by field_side.
      destruct (Hd i e) as [H3 H4]; try done. split; [done|].
      cbn in *. unfold table_entry_get_next_index in *. by simp_fields.
    + rewrite lookupZ_updateZ_ne in Hx by done. by apply (Hd k x).
Qed.

Section Combine.
Context (nt : ipa_nat_ip4_table_cache) (i j e x : Z).
Hypothesis (Hwf : wf_nat nt) (Hi : live nt i e) (Hij : getf indx_tbl_entry e = j)
  (Hx : indexed nt j x) (Hxi : getf tbl_entry x = i).

Lemma deleted_shape nt' :
  same_shape (table nt) (table nt') -> same_shape (index_table nt) (index_table nt') ->
  wf_nat_table (table nt') -> wf_idx_table (index_table nt') -> wf_nat_shape nt'.
Proof.
  intros H1 H2 H3 H4. apply (wf_nat_shape_same nt); try done; [apply (nw_shape _ Hwf)| |].
  - apply (wl_meta _ _ _ _ (wt_layout _ _ _ _ _ H3)).
  - apply (wl_meta _ _ _ _ (wt_layout _ _ _ _ _ H4)).
Qed.

(** The rule and its index record were removed. *)
Lemma combine_plain nt' :
  mem_desc nt' = mem_desc nt ->
  nat_deleted (table nt) (table nt') i -> idx_vacated (index_table nt) (index_table nt') j [j] ->
  wf_nat nt' /\ rule_deleted nt nt' i.
Proof.
  intros Hmd (T1 & T2 & T3 & T4 & T5 & T6) (I1 & I2 & I3 & I4). split; [split|].
  - by apply deleted_shape.
  - done.
  - done.
  - intros k e' Hk. assert (k <> i) as Hki by (intros ->; by apply (T4 e')).
    destruct (T6 k e' Hki Hk) as (y & Hy & Hs). apply indexed_fields_live in Hs as (_ & _ & E3).
    destruct (nw_rule_index _ Hwf k y Hy) as (z & Hz & Hzt).
    destruct (I4 (getf indx_tbl_entry y)) as [I5 _].
    { intros E%list_elem_of_singleton. rewrite E in Hz. destruct Hz, Hx. congruence. }
    destruct (I5 z Hz) as (z' & Hz' & Ez). exists z'. rewrite E3. by rewrite Ez.
  - intros k z' Hz. assert (k <> j) as Hkj by (intros ->; by apply (I3 z')).
    destruct (I4 k) as [_ I5]; [by intros ?%list_elem_of_singleton|].
    destruct (I5 z' Hz) as (z & Hz0 & Ez). destruct (nw_index_rule _ Hwf k z Hz0) as (y & Hy & Hyk).
    destruct (T5 (getf tbl_entry z) y) as (y' & Hy' & Hs); [|done|].
    { intros E. rewrite E in Hy. destruct Hy as (Hy & _), Hi as (He & _). congruence. }
    apply indexed_fields_live in Hs as (_ & _ & E3). exists y'. rewrite Ez, E3. done.
  - done.
  - split; [done|]. split.
    + intros k y Hk Hy. destruct (T5 k y Hk Hy) as (y' & Hy' & Hs). exists y'. split; [done|].
      by eapply same_fields_app_l.
    + split; [|done]. intros k y' Hy. assert (k <> i) as Hki by (intros ->; by apply (T4 y')).
      destruct (T6 k y' Hki Hy) as (y & Hy0 & _). by exists y.
Qed.

(** The second index record took the place of the head. *)
Lemma combine_moved (s i2 xs e2 : Z) (t0 : ipa_table nat_user) (it0 : ipa_table Z) (xj : Z) nt' :
  mem_desc nt' = mem_desc nt ->
  s <> j -> indexed nt s xs -> getf tbl_entry xs = i2 -> live nt i2 e2 -> 0 <= j < 65536 ->
  t0 = with_slots (table nt) (slots (table nt)).[i2 <- setf indx_tbl_entry e2 j] ->
  it0 = with_slots (index_table nt) (slots (index_table nt)).[j <- xj] ->
  getf tbl_entry xj = i2 ->
  nat_deleted t0 (table nt') i -> idx_vacated it0 (index_table nt') s [s] ->
  wf_nat nt' /\ rule_deleted nt nt' i.
Proof.
  intros Hmd Hsj Hs Hsi He2 Hjr Et0 Eit0 Hxj (T1 & T2 & T3 & T4 & T5 & T6) (I1 & I2 & I3 & I4).
  destruct (nw_index_rule _ Hwf s xs Hs) as (e2' & He2' & Hes). rewrite Hsi in He2'.
  assert (e2' = e2) as -> by (destruct He2', He2; congruence).
  assert (Hi2 : i2 <> i).
  { intros ->. destruct He2 as (He2 & _), Hi as (He & _). congruence. }
  assert (Hi2v : index_table_entry_is_valid xj = true).
  { destruct Hs as [_ Hv]. unfold index_table_entry_is_valid in *. rewrite Hxj, <- Hsi. done. }
  assert (Hr2 : 0 <= i2 < lengthZ (slots (table nt)))
    by (destruct He2 as (He2 & _); by eapply lookupZ_Some_range).
  assert (Hrj : 0 <= j < lengthZ (slots (index_table nt)))
    by (destruct Hx as (Hx' & _); by eapply lookupZ_Some_range).
  (* rules of [t0] are those of [nt], [i2] points to [j] *)
  assert (L2 : live_in t0 i2 (setf indx_tbl_entry e2 j)).
  { rewrite Et0. split; [cbn; by apply lookupZ_updateZ_eq|]. destruct He2 as (_ & Hv & Hd).
    cbn. unfold table_entry_is_valid, dead in *. by simp_fields. }
  assert (Hix2 : getf indx_tbl_entry (setf indx_tbl_entry e2 j) = j)
    by (simp_fields; by apply (u16_small j)).
  assert (Lk : forall k y, k <> i2 -> live_in t0 k y <-> live nt k y).
  { intros k y Hk. rewrite Et0. unfold TableHold.live_in, live. cbn. by rewrite lookupZ_updateZ_ne. }
  assert (Xj : indexed_in it0 j xj).
  { rewrite Eit0. split; [cbn; by apply lookupZ_updateZ_eq|done]. }
  assert (Xk : forall k y, k <> j -> indexed_in it0 k y <-> indexed nt k y).
  { intros k y Hk. rewrite Eit0. unfold indexed_in, indexed. cbn. by rewrite lookupZ_updateZ_ne. }
  assert (Hsh1 : same_shape (table nt) (table nt')).
  { assert (same_shape (table nt) t0) as H0 by
      (rewrite Et0; apply same_shape_with_slots; by rewrite lengthZ_updateZ).
    unfold same_shape in *. intuition congruence. }
  assert (Hsh2 : same_shape (index_table nt) (index_table nt')).
  { assert (same_shape (index_table nt) it0) as H0 by
      (rewrite Eit0; apply same_shape_with_slots; by rewrite lengthZ_updateZ).
    unfold same_shape in *. intuition congruence. }
  split; [split|].
  - by apply deleted_shape.
  - done.
  - done.
  - intros k e' Hk. assert (k <> i) as Hki by (intros ->; by apply (T4 e')).
    destruct (T6 k e' Hki Hk) as (y & Hy & Hsf). apply indexed_fields_live in Hsf as (_ & _ & E3).
    destruct (decide (k = i2)) as [->|Hk2].
    + destruct Hy as (Hy & _), L2 as (L2 & _). rewrite Hy in L2. injection L2 as ->.
      rewrite E3, Hix2. destruct (I4 j) as [I5 _]; [by intros ?%list_elem_of_singleton|].
      destruct (I5 xj Xj) as (z & Hz & Ez). exists z. by rewrite Ez.
    + apply Lk in Hy; [|done]. destruct (nw_rule_index _ Hwf k y Hy) as (z & Hz & Hzt).
      assert (getf indx_tbl_entry y <> j) as Hyj by (intros E; rewrite E in Hz; destruct Hz, Hx; congruence).
      assert (getf indx_tbl_entry y <> s) as Hys by (intros E; rewrite E in Hz; destruct Hz, Hs; congruence).
      destruct (I4 (getf indx_tbl_entry y)) as [I5 _]; [by intros ?%list_elem_of_singleton|].
      destruct (I5 z) as (z' & Hz' & Ez); [by apply Xk|]. exists z'. rewrite E3, Ez. done.
  - intros k z' Hz. assert (k <> s) as Hks by (intros ->; by apply (I3 z')).
    destruct (I4 k) as [_ I5]; [by intros ?%list_elem_of_singleton|].
    destruct (I5 z' Hz) as (z & Hz0 & Ez). destruct (decide (k = j)) as [->|Hkj].
    + destruct Hz0 as (Hz0 & _), Xj as (Xj & _). rewrite Hz0 in Xj. injection Xj as ->.
      rewrite Ez, Hxj. destruct (T5 i2 _ Hi2 L2) as (y' & Hy' & Hsf).
      apply indexed_fields_live in Hsf as (_ & _ & E3). exists y'. by rewrite E3.
    + apply Xk in Hz0; [|done]. destruct (nw_index_rule _ Hwf k z Hz0) as (y & Hy & Hyk).
      assert (getf tbl_entry z <> i) as H1 by (intros E; rewrite E in Hy; destruct Hy as (Hy & _), Hi as (He & _); congruence).
      assert (getf tbl_entry z <> i2) as H2 by (intros E; rewrite E in Hy; destruct Hy as (Hy & _), He2 as (He2 & _); congruence).
      destruct (T5 (getf tbl_entry z) y) as (y' & Hy' & Hsf); [done|by apply Lk|].
      apply indexed_fields_live in Hsf as (_ & _ & E3). exists y'. rewrite Ez, E3. done.
  - done.
  - split; [done|]. split.
    + intros k y Hk Hy. destruct (decide (k = i2)) as [->|Hk2].
      * assert (y = e2) as -> by (destruct Hy as (Hy & _), He2 as (He2 & _); congruence).
        destruct (T5 i2 _ Hk L2) as (y' & Hy' & Hsf). exists y'. split; [done|].
        eapply same_fields_trans; [|by eapply same_fields_app_l].
        apply same_fields_setf; [done|field_side].
      * destruct (T5 k y Hk) as (y' & Hy' & Hsf); [by apply Lk|]. exists y'. split; [done|].
        by eapply same_fields_app_l.
    + split; [|done].
      intros k y' Hy. assert (k <> i) as Hki by (intros ->; by apply (T4 y')).
      destruct (T6 k y' Hki Hy) as (y & Hy0 & _). destruct (decide (k = i2)) as [->|Hk2]; [by exists e2|].
      exists y. by apply Lk.
Qed.
End Combine.

(** ** Commands *)

(** The delete command of a live record addresses the table's own records. *)
Lemma nat_delete_one_dma nt i il :
  wf_nat_table (table nt) -> nat_view (table nt) i = Some il ->
  nat_dma nt (nat_delete_one (table nt) i il)
  /\ for_table IPA_NAT_BASE_TBL IPA_NAT_EXPN_TBL (nat_delete_one (table nt) i il).
Proof.
  intros Hwf Hv. destruct (delete_one_in_table nat_entry_interface nat_layout cleared nat_meta_ok
    IPA_NAT_BASE_TBL IPA_NAT_EXPN_TBL _ i il Hwf Hv) as (off & k & d & -> & Ho & Hk).
  split; [by apply nat_dma_table|apply the_one_for_table].
Qed.

Lemma idx_delete_one_dma nt j jl :
  wf_idx_table (index_table nt) -> idx_view (index_table nt) j = Some jl ->
  nat_dma nt (idx_delete_one (index_table nt) j jl)
  /\ for_table IPA_NAT_INDX_TBL IPA_NAT_INDEX_EXPN_TBL (idx_delete_one (index_table nt) j jl).
Proof.
  intros Hwf Hv. destruct (delete_one_in_table index_entry_interface index_layout cleared
    index_meta_ok IPA_NAT_INDX_TBL IPA_NAT_INDEX_EXPN_TBL _ j jl Hwf Hv)
    as (off & k & d & -> & Ho & Hk).
  split; [by apply nat_dma_index|apply the_one_for_table].
Qed.

Section Commit.
Context {K : Type} {E : IpaEnv K} {laws : IpaEnvLaws K}.
Context (c : ipa_nat_cache) (d : ipa_descriptor) (nt0 : ipa_nat_ip4_table_cache)
  (i e0 : Z) (il : link) (cmd : ipa_ioc_nat_dma_cmd) (iit : ipa_table_iterator)
  (it1 it' : ipa_table Z).
Hypothesis (Hd : ipa_desc c = Some d) (Hs : wf_nat_shape nt0) (Hwf : wf_nat_table (table nt0))
  (Hdead : dead_ok (table nt0)) (Hil : nat_view (table nt0) i = Some il)
  (He0 : (slots (table nt0)).[i] = Some e0) (Hroom : cmd_room cmd 1)
  (Hdma : Forall (nat_dma nt0) (cmd_ones cmd))
  (Hfor : Forall (for_table IPA_NAT_INDX_TBL IPA_NAT_INDEX_EXPN_TBL) (cmd_ones cmd))
  (Happ : table_apply IPA_NAT_INDX_TBL IPA_NAT_INDEX_EXPN_TBL (cmd_ones cmd) (index_table nt0)
          = Some it1)
  (Hstep : idx_delete_step it1 iit = Some it').

Lemma commit_spec k :
  exists k',
    (exists t', nat_deleted (table nt0) t' i
       /\ del_ipv4_rule_commit c nt0 cmd (nat_iter (table nt0) i il) iit k
          = Some (0, with_index_table (with_table nt0 t') it', k'))
    \/ del_ipv4_rule_commit c nt0 cmd (nat_iter (table nt0) i il) iit k = Some (- EIO, nt0, k').
Proof.
  destruct (nat_delete_all (table nt0) i e0 il Hwf Hil He0 Hdead) as (t1 & t' & A1 & A2 & A3).
  destruct (nat_delete_one_dma nt0 i il Hwf Hil) as [D1 F1].
  unfold del_ipv4_rule_commit.
  rewrite (create_delete_command_spec nat_entry_interface nat_layout cleared nat_meta_ok
    IPA_NAT_BASE_TBL IPA_NAT_EXPN_TBL _ i il cmd 1 Hwf (ns_helpers _ Hs) Hil Hroom) by lia.
  cbn [mbind option_bind].
  destruct (post_dma_spec c d nt0 (push_dma cmd (nat_delete_one (table nt0) i il)) k
    (with_index_table (with_table nt0 t1) it1) Hs Hd) as (k' & [Ep|Ep]).
  - rewrite (cmd_ones_push cmd 1) by (done || lia). apply Forall_app. split; [done|].
    apply Forall_singleton. done.
  - rewrite (cmd_ones_push cmd 1) by (done || lia). rewrite apply_ones_app.
    rewrite (apply_ones_idx _ _ it1) by done. cbn [mbind option_bind].
    rewrite (apply_ones_nat _ _ t1); [by destruct nt0|by apply Forall_singleton|].
    cbn [table_apply with_index_table table]. by rewrite A1.
  - exists k'. left. exists t'. split; [done|]. rewrite Ep. cbn [mbind option_bind Z.eqb negb].
    cbn [with_index_table with_table table index_table]. rewrite A2. cbn [mbind option_bind].
    rewrite Hstep. done.
  - exists k'. right. rewrite Ep. done.
Qed.
End Commit.

(** ** The whole operation *)

Section DelRule.
Context {K : Type} {E : IpaEnv K} {laws : IpaEnvLaws K}.
Context (c : ipa_nat_cache) (d : ipa_descriptor) (nt : ipa_nat_ip4_table_cache)
  (i j e x : Z) (il jl : link).
Hypothesis (Hd : ipa_desc c = Some d) (Hwf : wf_nat nt) (Hi : live nt i e)
  (Hij : getf indx_tbl_entry e = j) (Hx : indexed nt j x) (Hxi : getf tbl_entry x = i)
  (Hil : nat_view (table nt) i = Some il) (Hjl : idx_view (index_table nt) j = Some jl).

Let Hs := nw_shape _ Hwf.
Let cmd0 : ipa_ioc_nat_dma_cmd := dma_cmd_zero MAX_DMA_ENTRIES_FOR_DEL.

Lemma del_room : cmd_room cmd0 3.
Proof. apply cmd_room_zero; unfold MAX_DMA_ENTRIES_FOR_DEL; lia. Qed.

(** Up to the index case nothing is written. *)
Lemma del_unfold k :
  del_ipv4_rule_locked c nt (MakeEntryHdl (table nt) i) k
  = let tit := nat_iter (table nt) i il in
    let iit := idx_iter (index_table nt) j jl in
    let cmd := push_dma cmd0 (idx_delete_one (index_table nt) j jl) in
    if ipa_table_iterator_is_head_with_tail iit then
      '(nt, cmd) ← ipa_nati_copy_second_index_entry_to_head nt iit cmd;
      '(ret, iit) ← ipa_table_iterator_next iit (index_table nt);
      if negb (ret =? 0) then Some (ret, nt, k)
      else del_ipv4_rule_commit c nt cmd tit iit k
    else del_ipv4_rule_commit c nt cmd tit iit k.
Proof.
  pose proof (ns_layout _ Hs) as Hl. pose proof (ns_idx_layout _ Hs) as Hl2.
  pose proof (wl_tot _ _ _ _ Hl). pose proof (ns_hdl _ Hs) as (B1 & B2 & B3).
  pose proof (wl_base _ _ _ _ Hl). pose proof (wl_expn _ _ _ _ Hl).
  pose proof (wfc_range _ _ _ (wt_chains _ _ _ _ _ (nw_table _ Hwf)) _ _ Hil) as Hir.
  pose proof (wfc_range _ _ _ (wt_chains _ _ _ _ _ (nw_index _ Hwf)) _ _ Hjl) as Hjr.
  unfold del_ipv4_rule_locked. rewrite get_entry_make_hdl by (done || lia).
  rewrite (iterator_init_spec nat_entry_interface nat_layout cleared nat_meta_ok _ _ il
    (nw_table _ Hwf) Hil).
  cbn [mbind option_bind Z.eqb negb].
  rewrite (rec_load_GOTO_REC nat_entry_interface nat_layout nat_meta_ok) by done.
  destruct Hi as (He & _). rewrite He. cbn [mbind option_bind]. rewrite Hij.
  rewrite (get_entry_by_index_live index_entry_interface index_layout index_meta_ok) by done.
  rewrite (GOTO_REC_not_NULL index_entry_interface index_layout index_meta_ok) by (done || lia).
  rewrite (iterator_init_spec index_entry_interface index_layout cleared index_meta_ok _ _ jl
    (nw_index _ Hwf) Hjl).
  cbn [mbind option_bind Z.eqb negb].
  pose proof (create_delete_command_spec index_entry_interface index_layout cleared index_meta_ok
    IPA_NAT_INDX_TBL IPA_NAT_INDEX_EXPN_TBL _ j jl _ 3 (nw_index _ Hwf) (ns_idx_helpers _ Hs) Hjl
    del_room ltac:(lia)) as Ec.
  unfold iter_at in Ec at 1. unfold cmd0 in Ec. rewrite Ec. cbn [mbind option_bind]. reflexivity.
Qed.

(** The index record is a member or a lone head. *)
Lemma del_plain k :
  l_prev jl <> 0 \/ l_next jl = 0 ->
  exists ret nt' k',
    del_ipv4_rule_locked c nt (MakeEntryHdl (table nt) i) k = Some (ret, nt', k')
    /\ ((ret = 0 /\ wf_nat nt' /\ rule_deleted nt nt' i) \/ (ret = - EIO /\ nt' = nt)).
Proof.
  intros Hor. rewrite del_unfold. cbn zeta.
  assert (Eh : ipa_table_iterator_is_head_with_tail (idx_iter (index_table nt) j jl) = false).
  { unfold ipa_table_iterator_is_head_with_tail, iter_at, VALID_INDEX, IPA_TABLE_INVALID_ENTRY.
    cbn [next_index prev_index]. destruct Hor as [Hp| ->]; [|done].
    rewrite (proj2 (Z.eqb_neq (l_prev jl) 0)) by done. apply andb_false_r. }
  rewrite Eh. destruct (idx_delete_one_dma nt j jl (nw_index _ Hwf) Hjl) as [D1 F1].
  pose proof (wt_chains _ _ _ _ _ (nw_index _ Hwf)) as Hc.
  assert (Hidx : exists it1 it',
    table_apply_one IPA_NAT_INDX_TBL IPA_NAT_INDEX_EXPN_TBL (idx_delete_one (index_table nt) j jl)
      (index_table nt) = Some it1
    /\ idx_delete_step it1 (idx_iter (index_table nt) j jl) = Some it'
    /\ idx_vacated (index_table nt) it' j [j]).
  { destruct Hx as [Hx0 _]. destruct (decide (j < table_entries (index_table nt))) as [Hb|Hb].
    - pose proof (wfc_base _ _ _ Hc _ _ Hjl Hb). apply (idx_delete_lone _ j x jl); try done.
      + apply (nw_index _ Hwf).
      + tauto.
    - destruct (wfc_prev _ _ _ Hc _ _ Hjl) as (Hp0 & pl & Hpl & _); [lia|].
      apply view_Some in Hpl as (pe & Hpe & _).
      destruct (idx_delete_member (index_table nt) j jl (nw_index _ Hwf) Hjl pe) as (it' & A1 & A2);
        [lia|done|].
      eexists _, it'. split; [|done]. unfold delete_one. rewrite decide_False by done.
      apply (apply_the_one index_entry_interface index_layout index_meta_ok); try done;
        [apply (ns_idx_layout _ Hs)|rewrite (wl_entry_size _ _ _ _ (ns_idx_layout _ Hs)); done]. }
  destruct Hidx as (it1 & it' & A1 & A2 & A3).
  set (cmd1 := push_dma cmd0 (idx_delete_one (index_table nt) j jl)).
  assert (Hroom : cmd_room cmd1 1)
    by (eapply cmd_room_weaken; [apply (cmd_room_push _ 3 _ del_room); lia|lia]).
  assert (Ho : cmd_ones cmd1 = [idx_delete_one (index_table nt) j jl])
    by (unfold cmd1; rewrite (cmd_ones_push _ 3) by (apply del_room || lia); done).
  destruct (commit_spec c d nt i e il cmd1 (idx_iter (index_table nt) j jl) it1 it' Hd Hs
    (nw_table _ Hwf) (wf_nat_dead_ok _ Hwf) Hil (proj1 Hi) Hroom
    ltac:(rewrite Ho; by apply Forall_singleton) ltac:(rewrite Ho; by apply Forall_singleton)
    ltac:(rewrite Ho; cbn [table_apply]; by rewrite A1) A2 k) as (k' & [(t' & B1 & B2)|B]).
  - rewrite B2. eexists _, _, _. split; [reflexivity|]. left. split; [done|].
    by apply (combine_plain nt i j e x).
  - rewrite B. eexists _, _, _. split; [reflexivity|]. by right.
Qed.

(** The index record heads a chain: its second record [s], of rule [i2],
    takes its place. *)
Section Moved.
Context (s xs i2 e2 : Z) (sl : link).
Hypothesis (Hjp : l_prev jl = 0) (Hjn : l_next jl = s) (Hs0 : s <> 0)
  (Hxs : indexed nt s xs) (Hsl : idx_view (index_table nt) s = Some sl)
  (Hxs2 : getf tbl_entry xs = i2) (Hi2 : live nt i2 e2).

Definition moved_nt : ipa_nat_ip4_table_cache :=
  with_table nt (with_slots (table nt) (slots (table nt)).[i2 <- setf indx_tbl_entry e2 j]).
Definition moved_one : ipa_ioc_nat_dma_one :=
  idx_one (index_table nt) (el_next_off index_layout) j (getf ir_next_index xs).

Lemma rule_ptr_GOTO_REC :
  (if i2 <? table_entries (table nt) then table_addr (table nt) + i2 * sizeof_ipa_nat_rule
   else expn_table_addr (table nt) + u16 (i2 - table_entries (table nt)) * sizeof_ipa_nat_rule)
  = GOTO_REC (table nt) i2.
Proof.
  pose proof (ns_layout _ Hs) as Hl. pose proof (wl_entry_size _ _ _ _ Hl) as He.
  destruct Hi2 as (H2 & _). apply lookupZ_Some_range in H2.
  rewrite (wl_slots _ _ _ _ Hl) in H2. pose proof (wl_max _ _ _ _ Hl) as Hm.
  pose proof (wl_base _ _ _ _ Hl).
  unfold IPA_TABLE_MAX_ENTRIES in Hm. cbn in He. unfold GOTO_REC. rewrite He.
  destruct (i2 <? table_entries (table nt)) eqn:E1; [done|]. apply Z.ltb_ge in E1.
  rewrite u16_small by lia. rewrite (wl_expn_addr _ _ _ _ Hl), He.
  unfold sizeof_ipa_nat_rule. lia.
Qed.

Lemma copy_second_spec cmd k0 :
  cmd_room cmd k0 -> 1 <= k0 ->
  ipa_nati_copy_second_index_entry_to_head nt (idx_iter (index_table nt) j jl) cmd
  = Some (moved_nt, push_dma cmd moved_one).
Proof.
  intros Hr Hk. pose proof (ns_layout _ Hs) as Hl. pose proof (ns_idx_layout _ Hs) as Hl2.
  pose proof (wfc_range _ _ _ (wt_chains _ _ _ _ _ (nw_index _ Hwf)) _ _ Hjl) as Hjr.
  unfold ipa_nati_copy_second_index_entry_to_head, iter_at, ptr_of.
  cbn [next_entry curr_entry curr_index]. rewrite Hjn, decide_False by done.
  rewrite (rec_load_GOTO_REC index_entry_interface index_layout index_meta_ok) by done.
  destruct Hxs as [Hxs0 _]. rewrite Hxs0. cbn [mbind option_bind].
  rewrite (add_dma_cmd_spec index_entry_interface index_layout index_meta_ok IPA_NAT_INDX_TBL
    IPA_NAT_INDEX_EXPN_TBL _ _ (el_next_off index_layout) j _ cmd k0);
    [|done|apply (ns_idx_helpers _ Hs)|done|rewrite (wl_entry_size _ _ _ _ Hl2); done|lia|done|done].
  cbn [mbind option_bind]. rewrite Hxs2, rule_ptr_GOTO_REC.
  rewrite (rec_load_GOTO_REC nat_entry_interface nat_layout nat_meta_ok) by done.
  destruct Hi2 as (H2 & _). rewrite H2. cbn [mbind option_bind].
  apply lookupZ_Some_range in H2. rewrite (wl_slots _ _ _ _ Hl) in H2.
  rewrite (rec_store_GOTO_REC nat_entry_interface nat_layout nat_meta_ok) by done. done.
Qed.

Lemma sl_prev : l_prev sl = j /\ l_next sl = getf ir_next_index xs.
Proof.
  pose proof (wt_chains _ _ _ _ _ (nw_index _ Hwf)) as Hc.
  destruct (wfc_next _ _ _ Hc _ _ Hjl) as (_ & l' & Hl' & Hp'); [by rewrite Hjn|].
  rewrite Hjn, Hsl in Hl'. injection Hl' as <-. split; [done|].
  apply view_Some in Hsl as (y & Hy & _ & Hn & _). destruct Hxs as [Hxs0 _]. cbn in Hn.
  rewrite Hxs0 in Hy. by injection Hy as <-.
Qed.

Lemma moved_index :
  exists it0 xj it1 it',
    it0 = with_slots (index_table nt) (slots (index_table nt)).[j <- xj]
    /\ getf tbl_entry xj = i2
    /\ table_apply IPA_NAT_INDX_TBL IPA_NAT_INDEX_EXPN_TBL
         [idx_delete_one (index_table nt) j jl; moved_one] (index_table nt) = Some it1
    /\ idx_delete_step it1 (idx_iter (index_table nt) s sl) = Some it'
    /\ idx_vacated it0 it' s [s].
Proof.
  pose proof (ns_idx_layout _ Hs) as Hl. destruct sl_prev as [Hsp Hsn].
  pose proof (wt_chains _ _ _ _ _ (nw_index _ Hwf)) as Hc.
  destruct Hx as [Hx0 Hxv], Hxs as [Hxs0 Hxsv].
  set (xj := record_put16 x (el_del_off index_layout) (getf tbl_entry xs)).
  assert (Exj : getf tbl_entry xj = i2).
  { unfold xj, record_put16. rewrite (getf_setf_same _ tbl_entry) by field_side. rewrite Hxs2.
    apply Z.mod_small. rewrite <- Hxs2. apply getf_range. field_side. }
  set (it0 := with_slots (index_table nt) (slots (index_table nt)).[j <- xj]).
  destruct (wf_table_rewrite index_entry_interface index_layout cleared index_meta_ok
    (index_table nt) j x xj (nw_index _ Hwf) Hx0) as [W1 W2]; try done.
  { cbn. unfold index_table_entry_is_valid in *. by rewrite Exj, <- Hxs2. }
  { cbn. unfold index_table_entry_get_next_index, xj, record_put16. by simp_fields. }
  fold it0 in W1, W2.
  assert (Hsl0 : idx_view it0 s = Some sl) by (by rewrite (W2 s)).
  assert (Hjr : 0 <= j < lengthZ (slots (index_table nt))) by (by eapply lookupZ_Some_range).
  assert (Hsb : table_entries (index_table nt) <= s).
  { destruct (wfc_next _ _ _ Hc _ _ Hjl) as (? & _); [by rewrite Hjn|]. by rewrite <- Hjn. }
  assert (Hpe : (slots it0).[l_prev sl] = Some xj)
    by (rewrite Hsp; cbn; by apply lookupZ_updateZ_eq).
  destruct (idx_delete_member it0 s sl W1 Hsl0 xj Hsb Hpe) as (it' & A1 & A2).
  eexists it0, xj, _, it'. split; [done|]. split; [done|]. split; [|split; [exact A1|done]].
  cbn [table_apply]. unfold delete_one. rewrite decide_True, decide_False by (done || by rewrite Hjn).
  rewrite Hx0, Hjn, Hxs0.
  rewrite (apply_the_one index_entry_interface index_layout index_meta_ok _ _ _ _ _ _ x)
    by (done || (rewrite (wl_entry_size _ _ _ _ Hl); done)).
  cbn [mbind option_bind]. change (with_slots (index_table nt) _) with it0.
  assert (Hl0 : wf_idx_layout it0) by apply (wt_layout _ _ _ _ _ W1).
  unfold moved_one. rewrite <- (the_one_same_shape _ _ (index_table nt) it0)
    by (apply same_shape_with_slots; by rewrite lengthZ_updateZ).
  rewrite (apply_the_one index_entry_interface index_layout index_meta_ok _ _ _ _ _ _ xj);
    [|done|done|rewrite (wl_entry_size _ _ _ _ Hl0); done|by rewrite Hsp in Hpe].
  cbn [mbind option_bind]. by rewrite Hsp, Hsn.
Qed.

Lemma moved_shape : wf_nat_shape moved_nt.
Proof. apply (wf_nat_shape_slots nt); [exact Hs|apply slots_only_table]. Qed.

Lemma del_moved k :
  exists k',
    (exists nt', del_ipv4_rule_locked c nt (MakeEntryHdl (table nt) i) k = Some (0, nt', k')
       /\ wf_nat nt' /\ rule_deleted nt nt' i)
    \/ del_ipv4_rule_locked c nt (MakeEntryHdl (table nt) i) k = Some (- EIO, moved_nt, k').
Proof.
  destruct (wf_nat_sizes _ Hwf) as [_ Htot]. destruct sl_prev as [Hsp Hsn].
  pose proof (wfc_range _ _ _ (wt_chains _ _ _ _ _ (nw_index _ Hwf)) _ _ Hjl) as Hjr.
  assert (Hj16 : 0 <= j < 65536) by (rewrite (ns_tot _ Hs) in Hjr; lia).
  assert (Hi2i : i2 <> i).
  { intros E0. destruct (nw_index_rule _ Hwf s xs Hxs) as (e3 & He3 & H3).
    rewrite Hxs2, E0 in He3. destruct He3 as (He3 & _), Hi as (He & _).
    assert (s = j) as Esj by congruence.
    destruct (wfc_next _ _ _ (wt_chains _ _ _ _ _ (nw_index _ Hwf)) _ _ Hjl) as (Hge & l' & Hl' & Hp');
      [by rewrite Hjn|]. rewrite Hjn, Esj, Hjl in Hl'. injection Hl' as <-. lia. }
  destruct Hi as (He & Hvi & Hdi), Hi2 as (He2 & Hv2 & Hd2).
  destruct (nat_rewrite_indx (table nt) i2 e2 j (nw_table _ Hwf) He2 Hv2 (wf_nat_dead_ok _ Hwf))
    as (T1 & T2 & T3).
  rewrite del_unfold. cbn zeta.
  assert (Eh : ipa_table_iterator_is_head_with_tail (idx_iter (index_table nt) j jl) = true).
  { unfold ipa_table_iterator_is_head_with_tail, iter_at, VALID_INDEX, IPA_TABLE_INVALID_ENTRY.
    cbn [next_index prev_index]. rewrite Hjn, Hjp. by rewrite (proj2 (Z.eqb_neq s 0)) by done. }
  set (one1 := idx_delete_one (index_table nt) j jl).
  assert (R1 : cmd_room (push_dma cmd0 one1) 2)
    by (apply (cmd_room_push _ 3 _ del_room); lia).
  rewrite Eh, (copy_second_spec _ 2 R1) by lia. cbn [mbind option_bind].
  rewrite (iterator_next_spec index_entry_interface index_layout cleared index_meta_ok
    (index_table moved_nt) _ s sl (nw_index _ Hwf));
    [|done|unfold iter_at, ptr_of; cbn [next_entry]; rewrite Hjn; by rewrite decide_False|done].
  cbn [mbind option_bind Z.eqb negb].
  assert (Eit : mk_iterator (curr_index (idx_iter (index_table nt) j jl))
      (curr_entry (idx_iter (index_table nt) j jl)) s (GOTO_REC (index_table moved_nt) s)
      (l_next sl) (ptr_of (index_table moved_nt) (l_next sl)) = idx_iter (index_table nt) s sl).
  { unfold iter_at. cbn [curr_index curr_entry]. rewrite Hsp. unfold ptr_of at 2.
    by rewrite decide_False by lia. }
  rewrite Eit. destruct moved_index as (it0 & xj & it1 & it' & E0 & Exj & A1 & A2 & A3).
  set (cmd2 := push_dma (push_dma cmd0 one1) moved_one).
  assert (R2 : cmd_room cmd2 1) by (apply (cmd_room_push _ 2); (done || lia)).
  assert (Ho : cmd_ones cmd2 = [one1; moved_one]).
  { unfold cmd2. rewrite (cmd_ones_push _ 2), (cmd_ones_push _ 3) by (apply del_room || done || lia).
    done. }
  destruct (idx_delete_one_dma nt j jl (nw_index _ Hwf) Hjl) as [D1 F1].
  assert (D2 : nat_dma nt moved_one) by (apply nat_dma_index; (done || lia)).
  assert (F2 : for_table IPA_NAT_INDX_TBL IPA_NAT_INDEX_EXPN_TBL moved_one)
    by apply the_one_for_table.
  destruct (commit_spec c d moved_nt i e il cmd2 (idx_iter (index_table nt) s sl) it1 it' Hd
    moved_shape T1 T3) with (k := k) as (k' & [(t' & B1 & B2)|B]).
  - etransitivity; [exact (T2 i)|exact Hil].
  - cbn. by rewrite lookupZ_updateZ_ne.
  - done.
  - rewrite Ho. repeat (apply Forall_cons; split); [| |by apply Forall_nil];
      (eapply nat_dma_slots; [apply slots_only_table|done]).
  - rewrite Ho. by repeat (apply Forall_cons; split).
  - by rewrite Ho.
  - done.
  - exists k'. left. eexists. split; [exact B2|].
    eapply (combine_moved nt i j e x Hwf); try done; try exact E0; try exact A3; try exact B1;
      try exact Hxs2; try done.
    intros Esj. destruct (wfc_next _ _ _ (wt_chains _ _ _ _ _ (nw_index _ Hwf)) _ _ Hjl)
      as (Hge & l' & Hl' & Hp'); [by rewrite Hjn|].
    rewrite Hjn, Esj, Hjl in Hl'. injection Hl' as <-. lia.
  - exists k'. right. exact B.
Qed.
End Moved.
End DelRule.

(** The second index record of a chain headed by the index record of rule
    [i], and its rule. *)
Lemma head_moved nt i e x jl :
  wf_nat nt -> live nt i e -> indexed nt (getf indx_tbl_entry e) x -> getf tbl_entry x = i ->
  idx_view (index_table nt) (getf indx_tbl_entry e) = Some jl -> l_prev jl = 0 -> l_next jl <> 0 ->
  exists xs sl e2, indexed nt (l_next jl) xs /\ idx_view (index_table nt) (l_next jl) = Some sl
    /\ live nt (getf tbl_entry xs) e2 /\ getf indx_tbl_entry e2 = l_next jl
    /\ l_next jl <> getf indx_tbl_entry e.
Proof.
  intros Hwf Hi Hx Hxi Hjl Hp Hn. pose proof (wt_chains _ _ _ _ _ (nw_index _ Hwf)) as Hc.
  destruct (wfc_next _ _ _ Hc _ _ Hjl Hn) as (Hnb & sl & Hsl & Hsp).
  destruct (proj1 (view_Some _ _ _ _) Hsl) as (xs & Hxs & Hxv & _).
  destruct (nw_index_rule _ Hwf (l_next jl) xs) as (e2 & He2 & He2i); [done|].
  exists xs, sl, e2. split_and!; try done.
  intros Esj. rewrite Esj, Hjl in Hsl. injection Hsl as <-.
  pose proof (wfc_range _ _ _ Hc _ _ Hjl). lia.
Qed.

(** Deleting a rule of the table: it is gone, or the post failed and only the
    index pointer of one other rule may have changed. *)
Lemma del_rule_spec {K} {E : IpaEnv K} {laws : IpaEnvLaws K} c d nt i e (k : K) :
  ipa_desc c = Some d -> wf_nat nt -> live nt i e ->
  exists ret nt' k',
    del_ipv4_rule_locked c nt (MakeEntryHdl (table nt) i) k = Some (ret, nt', k')
    /\ ((ret = 0 /\ wf_nat nt' /\ rule_deleted nt nt' i)
        \/ (ret = - EIO
            /\ (nt' = nt
                \/ exists i2 e2, i2 <> i /\ live nt i2 e2
                   /\ getf indx_tbl_entry e2 <> getf indx_tbl_entry e
                   /\ nt' = moved_nt nt (getf indx_tbl_entry e) i2 e2))).
Proof.
  intros Hd Hwf Hi. destruct (nw_rule_index _ Hwf i e Hi) as (x & Hx & Hxi).
  set (j := getf indx_tbl_entry e) in *.
  destruct (view_live nat_entry_interface nat_layout cleared nat_meta_ok (table nt) i e) as [il Hil];
    [apply (ns_layout _ (nw_shape _ Hwf))|apply Hi|apply Hi|].
  destruct (view_live index_entry_interface index_layout cleared index_meta_ok (index_table nt) j x)
    as [jl Hjl]; [apply (ns_idx_layout _ (nw_shape _ Hwf))|apply Hx|apply Hx|].
  pose proof (wt_chains _ _ _ _ _ (nw_index _ Hwf)) as Hc.
  destruct (decide (l_prev jl <> 0 \/ l_next jl = 0)) as [Hor|Hno].
  - destruct (del_plain c d nt i j e x il jl Hd Hwf Hi eq_refl Hx Hxi Hil Hjl k Hor)
      as (ret & nt' & k' & Ed & [H|[H1 H2]]); exists ret, nt', k'; split; auto.
  - assert (Hp : l_prev jl = 0) by (destruct (decide (l_prev jl = 0)); tauto).
    assert (Hn : l_next jl <> 0) by tauto.
    destruct (head_moved nt i e x jl Hwf Hi Hx Hxi Hjl Hp Hn)
      as (xs & sl & e2 & Hxs & Hsl & He2 & He2i & Hsj).
    destruct (del_moved c d nt i j e x il jl Hd Hwf Hi eq_refl Hx Hxi Hil Hjl (l_next jl) xs
      (getf tbl_entry xs) e2 sl Hp eq_refl Hn Hxs Hsl eq_refl He2 k)
      as (k' & [(nt' & E1 & W & D)|E1]).
    + exists 0, nt', k'. split; [done|]. by left.
    + eexists _, _, k'. split; [exact E1|]. right. split; [done|]. right.
      exists (getf tbl_entry xs), e2. split_and!; try done.
      * intros E2. rewrite E2 in He2. destruct He2 as (He2 & _), Hi as (He & _).
        apply Hsj. rewrite <- He2i. unfold j. congruence.
      * by rewrite He2i.
Qed.

(** After such a failure the moved rule no longer has its index record. *)
Lemma moved_nt_broken nt i2 e2 j :
  wf_nat nt -> live nt i2 e2 -> getf indx_tbl_entry e2 <> j -> 0 <= j < 65536 ->
  ~ wf_nat (moved_nt nt j i2 e2).
Proof.
  intros Hwf Hi2 Hne Hj Hbad.
  assert (L : live (moved_nt nt j i2 e2) i2 (setf indx_tbl_entry e2 j)).
  { destruct Hi2 as (He & Hv & Hd). split.
    - cbn. apply lookupZ_updateZ_eq. by eapply lookupZ_Some_range.
    - unfold table_entry_is_valid, dead in *. by simp_fields. }
  destruct (nw_rule_index _ Hbad _ _ L) as (x & Hx & Hxt).
  rewrite (getf_setf_eq indx_tbl_entry) in Hx by field_side.
  change (j mod 2 ^ fw indx_tbl_entry) with (u16 j) in Hx. rewrite (u16_small j) in Hx by done.
  assert (Hx' : indexed nt j x) by exact Hx.
  destruct (nw_index_rule _ Hwf j x Hx') as (e & He & Hej). rewrite Hxt in He.
  destruct He as (He & _), Hi2 as (He2 & _). congruence.
Qed.

Section Create.
Context {K : Type} {E : IpaEnv K}.

(** Two cleared tables of the right layout. *)
Lemma wf_nat_cleared nt :
  wf_nat_shape nt ->
  slots (table nt) = replicate (Z.to_nat (tot_tbl_ents (table nt))) 0 ->
  slots (index_table nt) = replicate (Z.to_nat (tot_tbl_ents (index_table nt))) 0 ->
  cur_tbl_cnt (table nt) = 0 -> cur_expn_tbl_cnt (table nt) = 0 ->
  cur_tbl_cnt (index_table nt) = 0 -> cur_expn_tbl_cnt (index_table nt) = 0 ->
  wf_nat nt /\ forall i x, ~ live nt i x.
Proof.
  intros Hs E1 E2 C1 C2 C3 C4.
  destruct (wf_table_empty nat_entry_interface nat_layout cleared nat_meta_ok (table nt)
    (ns_layout _ Hs) E1 C1 C2) as [Hwt Hvt].
  destruct (wf_table_empty index_entry_interface index_layout cleared index_meta_ok (index_table nt)
    (ns_idx_layout _ Hs) E2 C3 C4) as [Hwi Hvi].
  assert (Hz : forall i x, (slots (table nt)).[i] = Some x -> x = 0).
  { intros i x. rewrite E1. unfold lookupZ. case_decide; [|done].
    by intros [-> _]%lookup_replicate. }
  assert (Hzi : forall i x, (slots (index_table nt)).[i] = Some x -> x = 0).
  { intros i x. rewrite E2. unfold lookupZ. case_decide; [|done].
    by intros [-> _]%lookup_replicate. }
  assert (Hno : forall i x, ~ live nt i x).
  { intros i x (Hx & Hv & _). by rewrite (Hz i x Hx) in Hv. }
  split; [|done]. split; try done.
  - intros i x Hx. by destruct (Hno i x).
  - intros j x [Hx Hv]. by rewrite (Hzi j x Hx) in Hv.
  - intros i x Hx Hv _. by rewrite (Hz i x Hx) in Hv.
Qed.

(** ** The whole function *)

Lemma create_table_spec {laws : IpaMemLaws K} c nt0 d ip n k :
  ipa_desc c = Some d -> nc_nmi c = 0 \/ nc_nmi c = 1 -> 0 <= n ->
  exists ret nt k',
    ipa_nati_create_table c nt0 ip n 0 k = Some (ret, nt, k')
    /\ (ret = 0 -> wf_nat nt /\ (forall i x, ~ live nt i x) /\ md_valid (mem_desc nt) = true
          /\ nmi (table nt) = nc_nmi c
          /\ exists b e, sizes (nc_nmi c) n = Some (b, e) /\ table_entries (table nt) = b
             /\ expn_table_entries (table nt) = e)
    /\ (ret <> 0 -> md_valid (mem_desc nt0) = false -> md_valid (mem_desc nt) = false).
Proof.
  intros Hd Hnmi Hn. unfold ipa_nati_create_table.
  destruct (decide (n <= IPA_TABLE_MAX_ENTRIES)) as [Hle|Hgt].
  2: { unfold ipa_table_calculate_entries_num. rewrite (proj2 (Z.ltb_lt _ _)) by lia.
       eexists _, _, _. split; [reflexivity|]. split; [done|]. by intros _. }
  rewrite calculate_entries_num_sizes by done.
  destruct (sizes_spec (nc_nmi c) n) as (b & e & Es & S1 & S2 & S3 & S4 & S5 & S6 & S7); [done|done|].
  rewrite Es. cbn [mbind option_bind].
  destruct (IPA_TABLE_MAX_ENTRIES <? b + e) eqn:Et; [|apply Z.ltb_ge in Et].
  { cbn [mbind option_bind Z.eqb negb Z.opp EINVAL]. eexists _, _, _. split; [reflexivity|].
    split; [done|]. by intros _. }
  destruct (S6 Et) as [S8 S9]. unfold IPA_TABLE_MAX_ENTRIES in Et.
  cbn [mbind option_bind Z.eqb negb].
  destruct (env_calloc _ k) as [ok k1]. destruct ok; cbn [negb].
  2: { eexists _, _, _. split; [reflexivity|]. split; [done|]. by intros _. }
  rewrite Hd. cbn [mbind option_bind].
  destruct (ipa_mem_descriptor_allocate_memory _ (fd d) k1) as [[ret md] k2] eqn:Em.
  destruct (Z.eqb_spec ret 0) as [->|Hr]; cbn [negb].
  2: { eexists _, _, _. split; [reflexivity|]. split; [done|]. by intros _ _. }
  apply allocate_memory_spec in Em as (Hmap & Horig & Hval);
    [|cbn; unfold ipa_table_calculate_size, sizeof_ipa_nat_rule, sizeof_ipa_nat_indx_tbl_rule; cbn; lia].
  assert (Horig' : orig_rqst_size md = 36 * (b + e)).
  { rewrite Horig. cbn. unfold ipa_table_calculate_size, sizeof_ipa_nat_rule,
      sizeof_ipa_nat_indx_tbl_rule. cbn. lia. }
  destruct Hmap as (M1 & M2 & M3). unfold ipa_table_calculate_addresses.
  set (t0 := with_sizes (ipa_table_init "IPA NAT table" _ _ _ _ _) b e (b + e)).
  set (it0 := with_sizes (ipa_table_init "IPA NAT index table" _ _ _ _ _) _ _ _).
  rewrite (reset_spec (with_memory t0 _ _ _)).
  2: { split; cbn; try lia; unfold sizeof_ipa_nat_rule; try lia.
       apply mapped_records_length; lia. }
  cbn [mbind option_bind].
  rewrite (reset_spec (with_memory it0 _ _ _)).
  2: { split; cbn; try lia; unfold sizeof_ipa_nat_rule, sizeof_ipa_nat_indx_tbl_rule; try lia.
       apply mapped_records_length; lia. }
  cbn [mbind option_bind]. eexists _, _, _. split; [reflexivity|]. split; [|done]. intros _.
  set (nt := ipa_nati_create_table_dma_cmd_helpers _ 0).
  assert (Hrep : forall m : Z, 0 <= m -> lengthZ (replicate (Z.to_nat m) 0) = m)
    by (intros; unfold lengthZ; rewrite length_replicate; lia).
  assert (Hshape : wf_nat_shape nt).
  { split; try done; try (cbn; lia).
    - split; cbn; unfold IPA_TABLE_MAX_ENTRIES, sizeof_ipa_nat_rule; (done || lia || by apply Hrep; lia).
    - split; cbn; unfold IPA_TABLE_MAX_ENTRIES, sizeof_ipa_nat_rule, sizeof_ipa_nat_indx_tbl_rule;
        try (done || lia || by apply Hrep; lia). eexists. split; [done|]. apply Hrep. lia.
    - split; cbn; by rewrite ?M2.
    - split; cbn; by rewrite ?M2. }
  destruct (wf_nat_cleared nt Hshape) as [W1 W2]; try done.
  split_and!; try done. by exists b, e.
Qed.
End Create.
