(* ===== verification/KCompose.v ===== *)
(** * A NAT table from the library down to the hardware

    The library ([libipanat]) creates a table through the driver: it asks for
    the SRAM information, allocates and maps memory, computes the places of its
    four tables and posts them.  Composed with the driver's model, this ends
    with the hardware working on exactly those tables. *)
From S2P Require Import TableFacts TableHandle Sizing NatRule NatTable NatOps NatWf NatDel.
From S2P Require Import Prelude Bitfield Table Env TableMem RecordUpdate KernelEnv Hal HalCmd.
From S2P Require Import KernelLaws KNat KNatOps KIoctl KSend KUser KInv KAlloc KInit KHandlers.
From S2P Require Import KRelease KReach KCreate.

(** User space has memory, and the device file of the NAT tables is there. *)
Class CooperativeUser (K : Type) {U : IpaEnv K} {V : VfsEnv K} {G : KernelGhost K} : Prop := {
  user_calloc n k : (env_calloc n k).1 = true /\ same_ghost k (env_calloc n k).2;
  user_open path k : 0 <= (env_open path k).1 /\ same_ghost k (env_open path k).2;
  user_open_nat k : let r := env_open "/dev/ipaNatTable" k in v_fd_device r.1 r.2 = Some DEV_NAT;
  user_mmap n fd k : 0 < (env_mmap n fd k).1 /\ same_ghost k (env_mmap n fd k).2;
  user_close fd k : (env_close fd k).1 = 0 /\ same_ghost k (env_close fd k).2
}.

Section Compose.
Context {c : ipa3_config} {K : Type} {E : KernelEnv K} {G : KernelGhost K}.
Context {laws : KernelLaws K} {ok : ConfigOk} {coop : Cooperative K} {fits : ConfigFits}.
Context {U : IpaEnv K} {V : VfsEnv K} {user : CooperativeUser K}.
Implicit Types (s : kst K) (md : ipa_mem_descriptor) (nt : ipa_nat_ip4_table_cache).

#[local] Instance compose_env : IpaEnv (kst K) := kernel_env.

(** The table memory is there and mapped. *)
Record ready_ddr s (n : Z) : Prop := {
  rd_mapped : ml_is_mapped (ddr s) = true;
  rd_size : ml_table_alloc_size (ddr s) = n;
  rd_low : 0 <= ml_dma_handle (ddr s) /\ ml_dma_handle (ddr s) + n < 2 ^ 32;
  rd_pdn : IPA_HW_v4_0 <= ipa_hw_type -> mb_base (nm_pdn_mem (nm s)) <> NULL
}.

Lemma ready_ddr_live s n : driver_ok s -> ready_ddr s n ->
  k_dma (world s) !! ml_dma_handle (ddr s) = Some n.
Proof.
  intros [_ Hv] [R1 R2 _ _]. destruct (vo_ddr_map _ _ _ Hv R1) as [[h m] Hd]. cbn in Hd.
  assert (h = ml_dma_handle (ddr s) /\ m = n) as [<- <-].
  { revert Hd. unfold view_ddr, behind. destruct (_ =? NULL); [done|]. by intros [= <- <-]. }
  eapply own_live; [apply (vo_own _ _ _ Hv)|]. unfold view_owned. cbn [dv_ddr view_of].
  rewrite Hd. set_solver.
Qed.

(** ** System calls that succeed *)

Lemma get_sram_accepted fd s : driver_ok s -> exists info s',
  env_get_sram_info fd s = (0, info, s') /\ driver_ok s' /\ nm s' = nm s
  /\ same_ghost (world s) (world s') /\ sram_mem_available_for_nat info = nat_tbl_size.
Proof.
  intros Hok. cbn. unfold drv_ioctl, ipa3_ioctl, proc_sram_info_rqst.
  pose proof (sram_info_ok s Hok) as Hs. revert Hs. unfold ipa3_nat_get_sram_info. cbn [device].
  destruct (fl_nat _ (proj1 Hok)) as (-> & _). cbn [negb snd Z.eqb].
  set (s1 := s <| ctx := _ |>). intros Hok1. pose proof (coop_copy_to (world s1)) as H.
  pose proof (copy_to_ghost (world s1)) as Hg.
  destruct (k_copy_to_user (world s1)) as [b k]. cbn in H, Hg. subst b. cbn [Z.eqb].
  eexists _, _. split; [done|]. split; [by apply world_ok|]. done.
Qed.

Lemma alloc_table_accepted fd n s :
  driver_ok s -> nm_ddr_in_use (nm s) = false -> nat_tbl_size < n <= MAX_ALLOC_NAT_SIZE 32 ->
  (size (k_dma (world s)) < 999)%nat ->
  exists s', env_alloc_table fd IPA_IOC_ALLOC_NAT_TABLE n s = (0, 0, s') /\ driver_ok s'
    /\ fresh_ddr s' n /\ (IPA_HW_v4_0 <= ipa_hw_type -> mb_base (nm_pdn_mem (nm s')) <> NULL).
Proof.
  intros Hok Hu Hn Hroom. cbn. unfold drv_alloc, drv_ioctl, ipa3_ioctl.
  pose proof (coop_copy_from (world s)) as H. pose proof (copy_from_ghost (world s)) as Hg.
  destruct (k_copy_from_user (world s)) as [b k]. cbn [fst snd] in H, Hg. subst b. cbv beta iota zeta.
  pose proof (world_ok s k Hg Hok) as Hok1. pose proof cfg_sram as Hsram.
  destruct (allocate_accepted (s <| world := k |>) n) as (s' & -> & H1 & H2 & H3); try done.
  - split; [lia|]. right. lia.
  - by rewrite <- (proj1 Hg) in Hroom.
  - by exists s'.
Qed.

Lemma mmap_file_accepted s n path :
  driver_ok s -> fresh_ddr s n -> path = "/dev/ipaNatTable"%string ->
  (IPA_HW_v4_0 <= ipa_hw_type -> mb_base (nm_pdn_mem (nm s)) <> NULL) ->
  exists dfd s1 a s2, env_open path s = (dfd, s1) /\ 0 <= dfd
    /\ env_mmap n dfd s1 = (a, s2) /\ 0 < a /\ driver_ok s2 /\ ready_ddr s2 n.
Proof.
  intros Hok Hf -> Hp. cbn. unfold lift.
  pose proof (user_open "/dev/ipaNatTable" (world s)) as [Ho Hg].
  pose proof (user_open_nat (world s)) as Hd. cbn zeta in Hd.
  destruct (env_open "/dev/ipaNatTable" (world s)) as [dfd k]. cbn [fst snd] in *.
  exists dfd, (s <| world := k |>). unfold drv_mmap. cbn [world]. change (world (s <| world := k |>)) with k.
  rewrite Hd. pose proof (world_ok s k Hg Hok) as Hok1.
  destruct (mmap_accepted (s <| world := k |>) n (roundup n PAGE_SIZE) Hok1 Hf)
    as (s2 & -> & Hok2 & M1 & M2 & M3 & M4).
  cbn [Z.eqb]. unfold lift. pose proof (user_mmap n dfd (world s2)) as [Ha Hg2].
  destruct (env_mmap n dfd (world s2)) as [a k2]. cbn [fst snd] in *.
  eexists a, _. do 4 (split; [done|]). split; [by apply world_ok|]. destruct Hf as (_&_&_&_&F5&F6).
  split; try done.
  - change (ddr (s2 <| world := k2 |>)) with (ddr s2). by rewrite M2.
  - change (nm (s2 <| world := k2 |>)) with (nm s2). rewrite M4. exact Hp.
Qed.

Lemma allocate_memory_accepted md fd s :
  driver_ok s -> nm_ddr_in_use (nm s) = false ->
  nat_tbl_size < orig_rqst_size md <= MAX_ALLOC_NAT_SIZE 32 ->
  (size (k_dma (world s)) < 999)%nat ->
  allocate_ioctl_num md = IPA_IOC_ALLOC_NAT_TABLE -> md_name md = NatTable.IPA_NAT_DEV_NAME ->
  exists md' s', ipa_mem_descriptor_allocate_memory md fd s = (0, md', s')
    /\ driver_ok s' /\ ready_ddr s' (orig_rqst_size md).
Proof.
  intros Hok Hu Hn Hroom Hioc Hname. unfold ipa_mem_descriptor_allocate_memory, AllocateMemory.
  destruct (get_sram_accepted fd s Hok) as (info & s1 & -> & Hok1 & Hnm1 & Hg1 & Havail).
  set (md1 := mk_mem_desc _ _ _ _ _ _ _ _ _ _ _ _ _ info).
  assert (Hsram : sram_to_be_used md1 = false).
  { unfold md1. cbn. rewrite Havail. unfold MAX_ALLOC_NAT_SIZE, IPA_TABLE_MAX_ENTRIES in Hn.
    pose proof cfg_sram. rewrite u32_small by lia. rewrite (proj2 (Z.leb_gt _ _)) by lia.
    by rewrite andb_false_r. }
  change (allocate_ioctl_num md1) with (allocate_ioctl_num md).
  change (orig_rqst_size md1) with (orig_rqst_size md). rewrite Hioc.
  destruct (alloc_table_accepted fd (orig_rqst_size md) s1) as (s2 & -> & Hok2 & Hf2 & Hp2); try done.
  { by rewrite Hnm1. }
  { by rewrite (proj1 Hg1). }
  cbn [Z.eqb negb]. unfold MapMemory. cbn [md_name sram_to_be_used orig_rqst_size].
  change (md_name md1) with (md_name md). rewrite Hname, Hsram.
  destruct (mmap_file_accepted s2 (orig_rqst_size md) "/dev/ipaNatTable" Hok2 Hf2 eq_refl Hp2)
    as (dfd & s3 & a & s4 & Ho & Hd & Hm & Ha & Hok4 & Hr4).
  change (strlcpy IPA_DEV_DIR IPA_RESOURCE_NAME_MAX) with (Some "/dev/"%string, 5%nat).
  cbv beta iota.
  change (IPA_RESOURCE_NAME_MAX <=? 5)%nat with false. cbv iota.
  change (strlcpy NatTable.IPA_NAT_DEV_NAME (IPA_RESOURCE_NAME_MAX - 5)) with (Some "ipaNatTable"%string, 11%nat).
  cbv beta iota.
  change (String.append (default "" (Some "/dev/")) (default "" (Some "ipaNatTable")))%string
    with "/dev/ipaNatTable"%string.
  rewrite Ho, (proj2 (Z.ltb_ge _ _) Hd).
  match goal with |- context [env_mmap ?n dfd s3] => change n with (orig_rqst_size md) end.
  rewrite Hm. unfold MAP_FAILED. rewrite (proj2 (Z.eqb_neq a (-1))) by lia.
  pose proof (user_close dfd (world s4)) as [Hc Hgc]. 
  assert (Hcl : env_close dfd s4 = lift (env_close dfd) s4) by done. rewrite Hcl. unfold lift.
  destruct (env_close dfd (world s4)) as [cl k5]. cbn [fst snd] in Hc, Hgc. subst cl.
  cbn [Z.eqb negb]. eexists _, _. split; [reflexivity|]. split; [by apply world_ok|].
  destruct Hr4. by split.
Qed.

(** ** Posting the tables *)

(** The tables of [b] and [e] records at [h], one after the other. *)
Definition tables_at (h b e : Z) : list (Z * Z) :=
  [(h, b * 32); (h + 32 * b, e * 32); (h + 32 * (b + e), b * 4); (h + 32 * (b + e) + 4 * b, e * 4)].

(** The request for such tables. *)
Definition init_request (b e ip : Z) (f : bool) : ipa_ioc_v4_nat_init :=
  mk_v4_init 0 0 (32 * b) (32 * (b + e)) (32 * (b + e) + 4 * b) (b - 1) e ip
    IPA_NAT_MEM_IN_DDR f.

Lemma init_request_ranges b e ip f h :
  2 <= b <= 4096 -> 2 <= e <= 4096 -> 0 <= h -> h + 36 * (b + e) < 2 ^ 32 ->
  let d := nat_init_payload (ipa3_nat_create_init_cmd (init_request b e ip f) false h) in
  nat_table_ranges d = [(h, b * 32); (h + 32 * b, e mod 2 ^ 10 * 32); (h + 32 * (b + e), b * 4);
    (h + 32 * (b + e) + 4 * b, e mod 2 ^ 10 * 4)]
  /\ Forall (eq 0) (nat_table_types d).
Proof.
  intros Hb He Hh Hlow d. pose proof (init_types (init_request b e ip f) false h) as Ht.
  change (Z.b2z false) with 0 in Ht. split; [|exact Ht]. unfold nat_table_ranges, d.
  rewrite ni_rules_read, ni_expn_rules_read, ni_index_read, ni_index_expn_read, ni_size_read,
    ni_expn_size_read.
  cbn [ipa3_nat_create_init_cmd ipa3_nat_ipv6ct_create_init_cmd nat4_table_init base_table_addr
    expansion_table_addr index_table_addr index_table_expansion_addr size_base_table
    size_expansion_table init_request v4_ipv4_rules_offset v4_expn_rules_offset v4_index_offset
    v4_index_expn_offset v4_table_entries v4_expn_table_entries].
  rewrite !u64_small by lia. rewrite (Z.mod_small (b - 1)) by lia.
  rewrite !(Z.mod_small _ (2 ^ 64)) by lia. by rewrite Z.sub_add, Z.add_0_r, !Z.add_assoc.
Qed.

Lemma init_request_good s b e ip f :
  2 <= b <= 4096 -> 2 <= e <= 4096 -> ready_ddr s (36 * (b + e)) ->
  good_init s (init_request b e ip f).
Proof.
  intros Hb He [R1 R2 R3 R4]. split; try done.
  - unfold wf_nat_init. rewrite !Forall_cons, Forall_nil. cbn. lia.
  - unfold U16_MAX. cbn. lia.
  - rewrite R2. unfold init_fits. cbn. lia.
  - by rewrite R2.
Qed.

Lemma post_init_accepted ca nt d s b e f :
  driver_ok s -> ready_ddr s (36 * (b + e)) -> ipa_desc ca = Some d -> nc_nmi ca = IPA_NAT_MEM_IN_DDR ->
  addr_offset (mem_desc nt) = 0 -> table_entries (table nt) = b -> expn_table_entries (table nt) = e ->
  table_entries (index_table nt) = b -> 2 <= b <= 4096 -> 2 <= e <= 4096 ->
  exists s', ipa_nati_post_ipv4_init_cmd ca nt 0 f s = Some (0, s') /\ driver_ok s'
    /\ k_dma (world s') = k_dma (world s)
    /\ k_nat_hw (world s') = Some (nat_init_payload (ipa3_nat_create_init_cmd
         (init_request b e (public_addr nt) f) false (ml_dma_handle (ddr s)))).
Proof.
  intros Hok Hr Hd Hn H0 Hb He Hi Hbr Her. unfold ipa_nati_post_ipv4_init_cmd.
  rewrite H0, Hb, He, Hi, Hd, Hn. cbn [mbind option_bind].
  unfold sizeof_ipa_nat_rule, sizeof_ipa_nat_indx_tbl_rule.
  match goal with |- context [env_v4_init _ ?x _] =>
    replace x with (init_request b e (public_addr nt) f) end; cycle 1.
  { unfold init_request. rewrite (u16_small (b - 1)), !u32_small by lia. f_equal; lia. }
  cbn [env_v4_init compose_env kernel_env]. unfold drv_status, drv_ioctl, ipa3_ioctl.
  pose proof (coop_copy_from (world s)) as H. pose proof (copy_from_ghost (world s)) as Hg.
  destruct (k_copy_from_user (world s)) as [x k]. cbn [fst snd] in H, Hg. subst x.
  cbv beta iota zeta. set (s1 := s <| world := k |>).
  assert (Hr1 : ready_ddr s1 (36 * (b + e))) by by destruct Hr.
  destruct (nat_init_accepted s1 (init_request b e (public_addr nt) f) (world_ok s k Hg Hok)
    (init_request_good s1 b e _ f Hbr Her Hr1)) as (s' & -> & Hok' & Hdma & Hhw).
  change (ddr s1) with (ddr s) in Hhw.
  exists s'. split; [reflexivity|]. split; [exact Hok'|].
  split; [|exact Hhw]. rewrite Hdma. apply Hg.
Qed.

(** What the fields of the command can say about the tables of [n] entries. *)
Definition ddr_fields (n : Z) : bool :=
  match sizes IPA_NAT_MEM_IN_DDR n with
  | Some (b, e) =>
      ((b - 1) mod 2 ^ 12 + 1 =? b) && (e mod 2 ^ 10 =? (if n <? 5115 then e else 0))
  | None => true
  end.

Lemma ddr_fields_check : forall_below ddr_fields (Z.to_nat 5121) 0 = true.
Proof. vm_compute. reflexivity. Qed.

(** ** User memory *)

Lemma calloc_accepted n s : exists k, env_calloc n s = (true, s <| world := k |>)
  /\ same_ghost (world s) k.
Proof.
  cbn. unfold lift. pose proof (user_calloc n (world s)) as [H Hg].
  destruct (env_calloc n (world s)) as [x k]. cbn in H, Hg. subst x. by exists k.
Qed.

(** The part of [ipa_nati_create_table] that talks to the driver. *)
Lemma create_runs {memlaws : IpaMemLaws (kst K)} ca nt0 d ip n s b e ret nt s' :
  driver_ok s -> nm_ddr_in_use (nm s) = false -> (size (k_dma (world s)) < 999)%nat ->
  ipa_desc ca = Some d -> nc_nmi ca = IPA_NAT_MEM_IN_DDR -> n <= Table.IPA_TABLE_MAX_ENTRIES ->
  sizes IPA_NAT_MEM_IN_DDR n = Some (b, e) -> 0 <= b -> 0 <= e -> b + e <= Table.IPA_TABLE_MAX_ENTRIES ->
  nat_tbl_size < 36 * (b + e) ->
  ipa_nati_create_table ca nt0 ip n 0 s = Some (ret, nt, s') ->
  ret = 0 /\ driver_ok s' /\ ready_ddr s' (36 * (b + e)) /\ addr_offset (mem_desc nt) = 0
  /\ public_addr nt = ip.
Proof.
  intros Hok Hu Hroom Hd Hn Hle Hs Hb0 He0 Hle2 Hbig. unfold ipa_nati_create_table. rewrite Hn.
  rewrite calculate_entries_num_sizes, Hs by lia. cbn [mbind option_bind].
  rewrite (proj2 (Z.ltb_ge _ _) Hle2). cbn [mbind option_bind negb Z.eqb]. rewrite Hd.
  match goal with |- context [env_calloc ?m s] => destruct (calloc_accepted m s) as (k & -> & Hg) end.
  cbn [mbind option_bind negb].
  match goal with |- context [ipa_mem_descriptor_allocate_memory ?m] => set (md := m) end.
  assert (Hsize : orig_rqst_size md = 36 * (b + e)).
  { cbn. unfold ipa_table_calculate_size, sizeof_ipa_nat_rule, sizeof_ipa_nat_indx_tbl_rule.
    cbn. lia. }
  destruct (allocate_memory_accepted md (fd d) (s <| world := k |>)) as (md' & s1 & Ha & Hok1 & Hr1).
  { by apply world_ok. }
  { done. }
  { rewrite Hsize. unfold MAX_ALLOC_NAT_SIZE, KNat.IPA_TABLE_MAX_ENTRIES.
    unfold Table.IPA_TABLE_MAX_ENTRIES in Hle2. lia. }
  { by rewrite <- (proj1 Hg) in Hroom. }
  { done. }
  { done. }
  rewrite Ha. rewrite Hsize in Hr1.
  apply allocate_memory_spec in Ha as ((_ & Hoff & _) & _ & _).
  2: { rewrite Hsize. unfold Table.IPA_TABLE_MAX_ENTRIES in Hle2. lia. }
  cbn [negb Z.eqb]. unfold ipa_table_calculate_addresses.
  match goal with |- mbind _ ?x = _ -> _ => destruct x as [t1|] end;
    cbn [mbind option_bind]; [|done].
  match goal with |- mbind _ ?x = _ -> _ => destruct x as [t2|] end;
    cbn [mbind option_bind]; [|done].
  by intros [= <- <- <-].
Qed.

(** ** The whole creation *)

Lemma create_accepted {memlaws : IpaMemLaws (kst K)} ca nt0 d ip n s b e :
  driver_ok s -> nm_ddr_in_use (nm s) = false -> (size (k_dma (world s)) < 999)%nat ->
  ipa_desc ca = Some d -> nc_nmi ca = IPA_NAT_MEM_IN_DDR -> 0 <= n <= Table.IPA_TABLE_MAX_ENTRIES ->
  sizes IPA_NAT_MEM_IN_DDR n = Some (b, e) -> nat_tbl_size < 36 * (b + e) ->
  2 <= b <= 4096 /\ 2 <= e <= 4096 /\ b + e <= Table.IPA_TABLE_MAX_ENTRIES
  /\ exists nt s', ipa_nati_create_table ca nt0 ip n 0 s = Some (0, nt, s')
    /\ wf_nat nt /\ (forall i x, ~ live nt i x)
    /\ driver_ok s' /\ ready_ddr s' (36 * (b + e)) /\ addr_offset (mem_desc nt) = 0
    /\ public_addr nt = ip /\ table_entries (table nt) = b /\ expn_table_entries (table nt) = e.
Proof.
  intros Hok Hu Hroom Hd Hn Hle Hs Hbig.
  destruct (sizes_spec 0 n) as (b' & e' & Es & S1 & _ & S2 & _ & _ & S4 & S3); [done|by left|].
  pose proof Hs as Hs'. change IPA_NAT_MEM_IN_DDR with 0 in Hs'. rewrite Hs' in Es.
  injection Es as <- <-. specialize (S3 eq_refl). destruct (S4 S3) as [S5 S6]. do 3 (split; [lia|]).
  destruct (create_table_spec ca nt0 d ip n s Hd) as (ret & nt & s' & Hc & Hspec & _);
    [by left|lia|].
  destruct (create_runs ca nt0 d ip n s b e ret nt s') as (-> & H1 & H2 & H3 & H4); try done; [lia..|].
  destruct (Hspec eq_refl) as (W1 & W2 & _ & _ & b2 & e2 & E2 & B2 & E3).
  rewrite Hn, Hs in E2. injection E2 as <- <-. by exists nt, s'.
Qed.
End Compose.

(** ** A small table of the library ends up in SRAM

    Once the library has asked for the SRAM information, the driver places a
    table in SRAM whenever it fits, whatever memory type the library works in;
    the initialisation of a DDR table then names a location that is not
    mapped. *)

Section Small.
Context {c : ipa3_config} {K : Type} {E : KernelEnv K} {ok : ConfigOk}.
Context {U : IpaEnv K} {V : VfsEnv K}.
Implicit Types (s : kst K) (md : ipa_mem_descriptor).

#[local] Instance small_env : IpaEnv (kst K) := kernel_env.

(** The DDR location is not mapped. *)
Record ddr_free s : Prop := {
  df_flags : flags_ok s;
  df_mapped : ml_is_mapped (ddr s) = false
}.

(** The location allocated last is the SRAM. *)
Definition in_sram s : Prop := ddr_free s /\ nm_last_alloc_loc (nm s) = IPA_NAT_MEM_IN_SRAM.

Lemma ddr_free_by s s' :
  ddr_free s -> lengthZ (nm_mem_loc (nm s')) = lengthZ (nm_mem_loc (nm s)) ->
  nm_dev (nm s') = nm_dev (nm s) -> ipv6ct_mem (ctx s') = ipv6ct_mem (ctx s) ->
  ml_is_mapped (ddr s') = ml_is_mapped (ddr s) -> ddr_free s'.
Proof. intros [] H1 H2 H3 H4. split; [by eapply flags_ok_by|congruence]. Qed.

Lemma in_sram_by s s' :
  in_sram s -> lengthZ (nm_mem_loc (nm s')) = lengthZ (nm_mem_loc (nm s)) ->
  nm_dev (nm s') = nm_dev (nm s) -> ipv6ct_mem (ctx s') = ipv6ct_mem (ctx s) ->
  ml_is_mapped (ddr s') = ml_is_mapped (ddr s) ->
  nm_last_alloc_loc (nm s') = nm_last_alloc_loc (nm s) -> in_sram s'.
Proof. intros [] H1 H2 H3 H4 H5. split; [by eapply ddr_free_by|congruence]. Qed.

(** ** Allocation *)

Lemma alloc_sram_small s n s' : ddr_free s -> alloc_nat_in_sram s n = Some (0, s') -> in_sram s'.
Proof.
  intros Hd. unfold alloc_nat_in_sram. destruct (nm_sram_in_use (nm s)); [done|].
  pose proof (fl_locs _ (df_flags _ Hd)) as Hl.
  rewrite (loc_lookup s IPA_NAT_MEM_IN_SRAM Hl) by by right. cbn [mbind option_bind].
  destruct (k_ioremap _ _ _) as [va k]. destruct (va =? NULL); [done|]. intros [= <-].
  set (s1 := with_loc _ _ _). split; [|done].
  assert (Hs1 : ddr s1 = ddr s).
  { unfold s1, ddr. rewrite (loc_with_loc (s <| world := k |>)) by first [done|by right].
    by rewrite decide_False. }
  eapply (ddr_free_by s); [done| |done|done|].
  - apply lengthZ_updateZ.
  - change (ddr (with_nm s1 _)) with (ddr s1). by rewrite Hs1.
Qed.

Lemma alloc_pdn_small s r s' : alloc_pdn_mem s = Some (r, s') -> in_sram s -> in_sram s'.
Proof.
  unfold alloc_pdn_mem. destruct (ipahal_nat_entry_size _ _) as [[? ?]|]; [|done].
  cbn [mbind option_bind]. destruct ipa3_get_max_pdn as [m|]; [|done]. cbn [mbind option_bind].
  destruct (_ <? _); [by intros [= _ <-] Hs; apply (in_sram_by s)|].
  destruct (k_dma_alloc_coherent _ _) as [[[va h]|] k]; intros [= _ <-] Hs; by apply (in_sram_by s).
Qed.

Lemma allocate_table_small s n s' :
  ddr_free s -> sram_compatible (ctx s) = true -> n <= nat_tbl_size ->
  ipa3_allocate_nat_table s n = Some (0, s') -> in_sram s'.
Proof.
  intros Hd Hc Hn. unfold ipa3_allocate_nat_table, ipa3_nat_ipv6ct_allocate_mem. cbn [device].
  destruct (fl_nat _ (df_flags _ Hd)) as (-> & -> & -> & _). rewrite Hc.
  destruct (n =? 0); [done|]. rewrite bool_decide_eq_true_2 by done. cbn [negb andb orb].
  rewrite (proj1 (entry_size_v3 _ cfg_supported)). cbn [mbind option_bind].
  destruct (_ <? n); [done|]. unfold IPA_NAT_PHYS_MEM_SIZE. rewrite (proj2 (Z.leb_le _ _) Hn).
  destruct (alloc_nat_in_sram s n) as [[r1 s1]|] eqn:Ea; [|done]. cbn [mbind option_bind].
  destruct (Z.eqb_spec r1 0) as [->|Hr]; cbn [negb]; [|congruence].
  apply alloc_sram_small in Ea; [|done]. destruct (_ && _); [|by intros [= <-]].
  destruct (alloc_pdn_mem s1) as [[r2 s2]|] eqn:Ep; [|done]. cbn [mbind option_bind].
  apply alloc_pdn_small in Ep; [|done]. destruct (Z.eqb_spec r2 0) as [->|Hr2]; [by intros [= <-]|].
  destruct (fail_alloc_pdn s2); [|done]. by intros [= ? _].
Qed.

(** ** The system calls *)

Lemma lift_world {A} (f : K -> A * K) s a s' : lift f s = (a, s') -> ctx s' = ctx s.
Proof. unfold lift. destruct (f (world s)) as [x k]. by intros [= _ <-]. Qed.

Lemma in_sram_ctx s s' : ctx s' = ctx s -> in_sram s -> in_sram s'.
Proof.
  intros Hc. assert (Hn : nm s' = nm s) by (unfold nm; by rewrite Hc).
  intros H. eapply in_sram_by; [exact H|..]; unfold ddr, loc; by rewrite ?Hn, ?Hc.
Qed.

Lemma ddr_free_ctx s s' : ctx s' = ctx s -> ddr_free s -> ddr_free s'.
Proof.
  intros Hc. assert (Hn : nm s' = nm s) by (unfold nm; by rewrite Hc).
  intros H. eapply ddr_free_by; [exact H|..]; unfold ddr, loc; by rewrite ?Hn, ?Hc.
Qed.

(** The library's first request makes the driver consider the SRAM. *)
Lemma get_sram_small fd s r info s' : ddr_free s -> env_get_sram_info fd s = (r, info, s') ->
  ddr_free s' /\ sram_compatible (ctx s') = true.
Proof.
  intros Hd. cbn. unfold drv_ioctl, ipa3_ioctl, proc_sram_info_rqst, ipa3_nat_get_sram_info.
  cbn [device]. destruct (fl_nat _ (df_flags _ Hd)) as (-> & _). cbn [negb Z.eqb].
  set (s1 := s <| ctx := _ |>). assert (ddr_free s1 /\ sram_compatible (ctx s1) = true) as [H1 H2].
  { split; [|done]. by apply (ddr_free_by s). }
  unfold efault. destruct (k_copy_to_user (world s1)) as [[] k]; intros [= _ _ <-];
    (split; [by apply (ddr_free_ctx s1)|exact H2]).
Qed.

Lemma alloc_table_small fd n s off s' :
  ddr_free s -> sram_compatible (ctx s) = true -> n <= nat_tbl_size ->
  env_alloc_table fd IPA_IOC_ALLOC_NAT_TABLE n s = (0, off, s') -> in_sram s'.
Proof.
  intros Hd Hc Hn. cbn. unfold drv_alloc, drv_ioctl, ipa3_ioctl, efault.
  destruct (k_copy_from_user (world s)) as [[] k]; [done|]. cbv beta iota zeta.
  set (s1 := s <| world := k |>).
  destruct (ipa3_allocate_nat_table s1 n) as [[r s2]|] eqn:Ea; cbn; [|done].
  destruct (Z.eqb_spec r 0) as [->|Hr]; cbn; [|done]. intros [= _ <-].
  eapply (allocate_table_small s1); [by apply (ddr_free_ctx s)|done..].
Qed.

Lemma mmap_nat_small s v r s' : in_sram s -> mmap_nat s v = Some (r, s') -> in_sram s'.
Proof.
  intros Hs. unfold mmap_nat. rewrite (proj2 Hs).
  change (IPA_VALID_NAT_MEM_IN IPA_NAT_MEM_IN_SRAM) with true.
  cbn [negb]. pose proof (fl_locs _ (df_flags _ (proj1 Hs))) as Hl.
  rewrite (loc_lookup s IPA_NAT_MEM_IN_SRAM Hl) by by right. cbn [mbind option_bind].
  destruct (_ =? NULL); [by intros [= _ <-]|]. destruct (ml_is_mapped _); [by intros [= _ <-]|].
  destruct (_ && _); [by intros [= _ <-]|].
  change (IPA_NAT_MEM_IN_SRAM =? IPA_NAT_MEM_IN_DDR) with false. cbv iota.
  destruct (k_vm_iomap_memory _ _ _ _) as [r1 k].
  assert (Hw : forall m, in_sram (with_loc (s <| world := k |>) IPA_NAT_MEM_IN_SRAM m)).
  { intros m. apply (in_sram_by s); try done; [apply lengthZ_updateZ|]. unfold ddr.
    rewrite (loc_with_loc (s <| world := k |>)) by first [done|by right].
    by rewrite decide_False. }
  destruct (negb _); intros [= _ <-]; apply Hw.
Qed.

Lemma mmap_ct_small s v : in_sram s -> in_sram (mmap_ipv6ct s v).2.
Proof.
  intros Hs. unfold mmap_ipv6ct. cbn [device].
  destruct (_ =? NULL); [done|]. destruct (cm_is_mapped _); [done|].
  destruct (k_dma_mmap_coherent _ _ _ _ _) as [r k].
  by destruct (negb _); destruct Hs as [[[] Hm] Hl]; split; [split; [split|]| | split; [split|]|].
Qed.

Lemma mmap_small n fd s a s' : in_sram s -> env_mmap n fd s = (a, s') -> in_sram s'.
Proof.
  intros Hs. cbn. unfold drv_mmap. destruct (v_fd_device fd (world s)) as [d|]; [|by intros [= _ <-]].
  assert (Hm : forall r s1, ipa3_nat_ipv6ct_mmap s d (roundup n PAGE_SIZE) = Some (r, s1) -> in_sram s1).
  { intros r s1. unfold ipa3_nat_ipv6ct_mmap. destruct (negb _); [by intros [= _ <-]|].
    destruct (cm_is_nat_mem (device s d)); [by apply mmap_nat_small|].
    pose proof (mmap_ct_small s (roundup n PAGE_SIZE) Hs) as H.
    destruct (mmap_ipv6ct s _) as [r2 s2]. by intros [= _ <-]. }
  destruct (ipa3_nat_ipv6ct_mmap s d _) as [[r s1]|]; [|by intros [= _ <-]].
  specialize (Hm _ _ eq_refl). destruct (r =? 0); [|by intros [= _ <-]].
  intros Hl. by apply (in_sram_ctx s1); [eapply lift_world|].
Qed.

(** ** Initialisation *)

Lemma init_small fd init s : in_sram s -> v4_mem_type init = IPA_NAT_MEM_IN_DDR ->
  (env_v4_init fd init s).1 = -1.
Proof.
  intros Hs Hm. cbn. unfold drv_status, drv_ioctl, ipa3_ioctl, efault.
  destruct (k_copy_from_user (world s)) as [[] k]; [done|]. cbv beta iota zeta.
  set (s1 := s <| world := k |>).
  assert (H : exists r, ipa3_nat_init_cmd s1 init = Some (r, s1) /\ r <> 0).
  { unfold ipa3_nat_init_cmd. destruct (nat_init_request_id s1 init Hm) as (f & ->).
    cbn [v4_tbl_index v4_table_entries v4_mem_type].
    destruct (negb _); [by eexists|]. destruct (_ || _); [by eexists|].
    change (IPA_VALID_NAT_MEM_IN 0) with true. cbn [negb].
    pose proof (fl_locs _ (df_flags _ (proj1 Hs))) as Hl.
    rewrite (loc_lookup s1 0 Hl) by by left. cbn [mbind option_bind].
    change (loc s1 0) with (ddr s). rewrite (df_mapped _ (proj1 Hs)). by eexists. }
  destruct H as (r & -> & Hr). cbn. by rewrite (proj2 (Z.eqb_neq _ _) Hr).
Qed.

(** ** Creation *)

Lemma map_memory_small md fd s md' s' :
  in_sram s -> MapMemory md fd s = (0, md', s') -> in_sram s'.
Proof.
  intros Hs. unfold MapMemory. destruct (strlcpy _ _) as [dir len].
  destruct (_ <=? len)%nat; [by intros [= ? _ _]|]. destruct (strlcpy _ _) as [nm ?].
  destruct (env_open _ s) as [dfd s1] eqn:Eo. apply lift_world in Eo.
  destruct (dfd <? 0); [by intros [= ? _ _]|].
  destruct (env_mmap _ dfd s1) as [a s2] eqn:Em. apply mmap_small in Em; [|by apply (in_sram_ctx s)].
  destruct (if a =? MAP_FAILED then _ else _) as [r d].
  destruct (env_close dfd s2) as [cl s3] eqn:Ec. apply lift_world in Ec.
  intros [= _ _ <-]. by apply (in_sram_ctx s2).
Qed.

Lemma allocate_memory_small md fd s md' s' :
  ddr_free s -> orig_rqst_size md <= nat_tbl_size -> allocate_ioctl_num md = IPA_IOC_ALLOC_NAT_TABLE ->
  ipa_mem_descriptor_allocate_memory md fd s = (0, md', s') -> in_sram s'.
Proof.
  intros Hd Hn Hioc. unfold ipa_mem_descriptor_allocate_memory, AllocateMemory.
  destruct (env_get_sram_info fd s) as [[r info] s1] eqn:Eg.
  apply get_sram_small in Eg as [Hd1 Hc1]; [|done].
  cbn [allocate_ioctl_num orig_rqst_size]. rewrite Hioc.
  destruct (env_alloc_table fd _ _ s1) as [[r2 off] s2] eqn:Ea.
  destruct (Z.eqb_spec r2 0) as [->|Hr2]; cbn [negb]; cycle 1.
  { rewrite (proj2 (Z.eqb_neq _ _) Hr2). cbn [negb]. congruence. }
  apply alloc_table_small in Ea; [|done..]. cbn [Z.eqb negb].
  destruct (MapMemory _ fd s2) as [[r3 md3] s3] eqn:Em.
  destruct (Z.eqb_spec r3 0) as [->|Hr3]; cbn [negb].
  - apply map_memory_small in Em; [|done]. by intros [= _ <-].
  - destruct (DeallocateMemory md3 fd s3) as [r4 s4]. congruence.
Qed.

Lemma create_small ca nt0 ip n s nt s' b e :
  ddr_free s -> nc_nmi ca = IPA_NAT_MEM_IN_DDR -> n <= Table.IPA_TABLE_MAX_ENTRIES ->
  sizes IPA_NAT_MEM_IN_DDR n = Some (b, e) -> 36 * (b + e) <= nat_tbl_size ->
  ipa_nati_create_table ca nt0 ip n 0 s = Some (0, nt, s') -> in_sram s'.
Proof.
  intros Hd Hn Hle Hs Hsmall. unfold ipa_nati_create_table. rewrite Hn.
  rewrite calculate_entries_num_sizes, Hs by done. cbn [mbind option_bind].
  destruct (_ <? b + e); cbn [mbind option_bind negb Z.eqb]; [done|].
  destruct (env_calloc _ s) as [x s1] eqn:Ec. apply lift_world in Ec.
  destruct x; cbn [negb]; [|done].
  destruct (ipa_desc ca) as [d|]; cbn [mbind option_bind]; [|done].
  match goal with |- context [ipa_mem_descriptor_allocate_memory ?m] => set (md := m) end.
  assert (Hsize : orig_rqst_size md = 36 * (b + e)).
  { cbn. unfold ipa_table_calculate_size, sizeof_ipa_nat_rule, sizeof_ipa_nat_indx_tbl_rule.
    cbn. lia. }
  destruct (ipa_mem_descriptor_allocate_memory md (fd d) s1) as [[r md'] s2] eqn:Ea.
  destruct (Z.eqb_spec r 0) as [->|Hr]; cbn [negb]; [|congruence].
  apply allocate_memory_small in Ea; [|by apply (ddr_free_ctx s)|lia|done].
  unfold ipa_table_calculate_addresses.
  match goal with |- mbind _ ?x = _ -> _ => destruct x as [t1|] end;
    cbn [mbind option_bind]; [|done].
  match goal with |- mbind _ ?x = _ -> _ => destruct x as [t2|] end;
    cbn [mbind option_bind]; [|done].
  by intros [= _ <-].
Qed.
End Small.
