(* ===== verification/KDemo.v ===== *)
(** * A concrete kernel and hardware

    [ksim] allocates DMA memory at multiples of two megabytes, up to a size
    that is given, and its hardware does what it is told.  It satisfies the
    laws the theorems assume, so they can be applied to concrete runs. *)
From S2P Require Import Prelude Bitfield Table TableDma Env TableMem RecordUpdate KernelEnv Hal.
From S2P Require Import HalCmd KernelLaws KNat KNatOps KIoctl KSend KUser KInv KAlloc KInit.
From S2P Require Import KHandlers KRelease KReach KRace KCreate KCompose.

(** The buffers in use and what the blocks of the hardware were given. *)
Record ksim := mk_ksim {
  ks_dma : gmap Z Z;
  ks_nat : option Z;
  ks_ct : option Z
}.

Definition ksim_slot (dma : gmap Z Z) : option Z :=
  head (filter (fun h => dma !! h = None) (map (fun j => Z.of_nat j * 2 ^ 21) (seq 1 2000))).

(** No buffer is larger than [mx]. *)
Definition ksim_alloc (mx n : Z) (k : ksim) : option (Z * Z) * ksim :=
  match ksim_slot (ks_dma k) with
  | Some h =>
      if (0 <? n) && (n <=? mx) && (n <=? 2 ^ 20)
      then (Some (2 ^ 40 + h, h), mk_ksim (<[h := n]> (ks_dma k)) (ks_nat k) (ks_ct k))
      else (None, k)
  | None => (None, k)
  end.

Definition ksim_send (l : list ipahal_imm_cmd_pyld) {c : ipa3_config} (m : tbl_mem) (k : ksim)
    : Z * tbl_mem * ksim :=
  (0, default m (dma_effect (dma_ones l) m),
   mk_ksim (ks_dma k) (last_cmd OP_NAT_INIT l (ks_nat k)) (last_cmd OP_CT_INIT l (ks_ct k))).

Definition ksim_env (mx : Z) {c : ipa3_config} : KernelEnv ksim := {|
  k_kzalloc _ k := (true, k);
  k_kfree k := k;
  k_dma_alloc_coherent n k := ksim_alloc mx n k;
  k_dma_free_coherent _ _ h k :=
    mk_ksim (delete h (ks_dma k)) (ks_nat k) (ks_ct k);
  k_ioremap _ _ k := (2 ^ 41, k);
  k_iounmap _ k := k;
  k_dma_mmap_coherent _ _ _ _ k := (0, k);
  k_vm_iomap_memory _ _ _ k := (0, k);
  k_class_create _ k := (true, k);
  k_class_destroy _ k := k;
  k_alloc_chrdev_region _ k := (0, k);
  k_unregister_chrdev_region _ k := k;
  k_device_create _ k := (true, k);
  k_device_destroy _ k := k;
  k_cdev_add _ k := (0, k);
  k_copy_from_user k := (false, k);
  k_copy_to_user k := (false, k);
  k_send_cmd l m k := ksim_send l m k
|}.

#[export] Instance ksim_ghost : KernelGhost ksim := {|
  k_dma := ks_dma; k_nat_hw := ks_nat; k_ct_hw := ks_ct
|}.

Lemma ksim_slot_spec dma h : ksim_slot dma = Some h ->
  dma !! h = None /\ 0 <= h /\ h + 2 ^ 20 < 2 ^ 32.
Proof.
  unfold ksim_slot. intros Hh.
  assert (Hin : h ∈ filter (fun h => dma !! h = None)
    (map (fun j => Z.of_nat j * 2 ^ 21) (seq 1 2000))).
  { destruct (filter _ _) as [|x l]; [done|]. cbn in Hh. injection Hh as <-. by left. }
  apply list_elem_of_filter in Hin as [H Hin]. split; [done|].
  apply list_elem_of_In, in_map_iff in Hin as (j & <- & Hj). apply in_seq in Hj. lia.
Qed.

(** As long as there are fewer than a thousand buffers there is a slot. *)
Lemma ksim_slot_exists dma : (size dma < 1000)%nat -> is_Some (ksim_slot dma).
Proof.
  intros Hs. unfold ksim_slot. set (l := map _ (seq 1 2000)).
  destruct (filter (fun h => dma !! h = None) l) as [|h l'] eqn:Ef; [|done]. exfalso.
  assert (Hall : forall h, h ∈ l -> h ∈ (map_to_list dma).*1).
  { intros h Hh. destruct (dma !! h) as [n|] eqn:Eh.
    - apply list_elem_of_fmap. exists (h, n). split; [done|]. by apply elem_of_map_to_list.
    - assert (Hin : h ∈ filter (fun h => dma !! h = None) l) by by apply list_elem_of_filter.
      rewrite Ef in Hin. by apply not_elem_of_nil in Hin. }
  assert (Hnd : NoDup l).
  { unfold l. assert (Hinj : Inj eq eq (fun j => Z.of_nat j * 2 ^ 21)) by (intros x y ?; lia).
    apply (NoDup_fmap_2 (fun j => Z.of_nat j * 2 ^ 21)), NoDup_seq. }
  pose proof (submseteq_length _ _ (NoDup_submseteq _ _ Hnd Hall)) as Hlen.
  revert Hlen. unfold l. rewrite length_map, length_seq, length_fmap, length_map_to_list. lia.
Qed.

Lemma ksim_laws (mx : Z) {c : ipa3_config} : KernelLaws ksim (E := ksim_env mx).
Proof.
  split; try done.
  - intros n k k'. cbn. unfold ksim_alloc. destruct (ksim_slot _); [|by intros [= <-]].
    destruct (_ && _); [done|]. by intros [= <-].
  - intros n k v h k'. cbn. unfold ksim_alloc. destruct (ksim_slot _) as [h'|] eqn:Es; [|done].
    destruct (_ && _) eqn:Eb; [|done]. intros [= <- <- <-].
    rewrite !andb_true_iff, !Z.leb_le in Eb. destruct (ksim_slot_spec _ _ Es) as (H1 & H2 & H3).
    split; [unfold NULL; lia|]. split; [done|]. split; [lia|]. done.
  - intros l m k m' k'. cbn. unfold ksim_send. intros [= <- <-]. do 3 (split; [done|]).
    intros m1 ->. done.
  - intros l m k r m' k'. cbn. unfold ksim_send. by intros [= <- _ _].
Qed.

(** A configuration of version 4.5 of the hardware, with [pdn] bytes for the
    PDN table. *)
Definition sim_config (pdn : Z) : ipa3_config := {|
  ipa_hw_type := 17; ipa_wrapper_base := 0x1E00000; ipa_reg_base_ofst := 0x40000;
  sram_direct_access_ofst := 0x10000; nat_tbl_ofst := 0x1000; nat_tbl_size := 0xD00;
  pdn_config_ofst := 0x2000; pdn_config_size := pdn; smem_restricted_bytes := 640;
  wan_coal_ep := -1; ulso_wa := false; aggr_force_close_ofst := 0;
  aggr_force_close_n_ofst _ := 0; aggr_force_close_val _ := 0; aggr_force_close_mask _ := 0;
  PAGE_SIZE := 4096
|}.

Lemma sim_config_ok pdn : 16 <= pdn -> ConfigOk (c := sim_config pdn).
Proof. intros Hp. split; cbn; unfold supported, IPA_HW_v3_0, IPA_HW_MAX, IPA_HW_v6_0; lia. Qed.

Lemma sim_config_fits : ConfigFits (c := sim_config 80).
Proof. split; cbn; try lia. done. Qed.

(** With room for every table the kernel cooperates. *)
Lemma ksim_cooperative {c : ipa3_config} : Cooperative ksim (E := ksim_env (2 ^ 18)).
Proof.
  split; try done. intros n k Hn Hs. change (k_dma k) with (ks_dma k) in Hs.
  cbn. unfold ksim_alloc.
  destruct (ksim_slot_exists _ Hs) as [h Hh]. rewrite Hh.
  destruct (ksim_slot_spec _ _ Hh) as (_ & H1 & H2).
  rewrite (proj2 (Z.ltb_lt _ _)), !(proj2 (Z.leb_le _ _)) by lia. eexists _, _, _.
  split; [reflexivity|]. lia.
Qed.

(** ** User space *)

(** File 4 is the NAT device, file 5 the IPv6CT device; memory is mapped at
    4096 and holds ones. *)
Definition ksim_open (path : string) : Z :=
  if String.eqb path "/dev/ipaNatTable" then 4
  else if String.eqb path "/dev/ipaIpv6CTTable" then 5 else 3.

#[export] Instance ksim_user : IpaEnv ksim := {|
  env_lock k := (0, k);
  env_unlock k := (0, k);
  env_mutexattr_init k := (0, k);
  env_mutexattr_settype k := (0, k);
  env_mutex_init k := (0, k);
  env_calloc _ k := (true, k);
  env_open path k := (ksim_open path, k);
  env_close _ k := (0, k);
  env_mmap _ _ k := (4096, k);
  env_munmap _ _ k := k;
  env_initial _ _ size := 2 ^ (8 * size) - 1;
  env_get_hw_version _ k := (0, 17, k);
  env_get_sram_info _ k := (0, mk_sram_info 0 0 0, k);
  env_alloc_table _ _ _ k := (-1, 0, k);
  env_del_table _ _ _ k := (-1, k);
  env_v4_init _ _ k := (-1, k);
  env_ipv6ct_init _ _ k := (-1, k);
  env_modify_pdn _ _ k := (-1, k);
  env_vote_clock _ _ k := (0, k);
  env_table_dma _ _ m k := (-1, m, k)
|}.

#[export] Instance ksim_vfs : VfsEnv ksim := {|
  v_fd_device fd _ :=
    if fd =? 4 then Some DEV_NAT else if fd =? 5 then Some DEV_IPV6CT else None
|}.

Lemma ksim_cooperative_user : CooperativeUser ksim.
Proof.
  split; try done. intros path k. split; [|done]. cbn. unfold ksim_open.
  repeat destruct (String.eqb _ _); lia.
Qed.

(** ** The driver at work *)

(** What user space does: an ioctl, or the mapping of a device. *)
Inductive action :=
  | act_ioctl (req : nat_ioctl)
  | act_mmap (d : nat_device) (vsize : Z).

Section Runs.
Context {c : ipa3_config} {K : Type} {E : KernelEnv K}.

Definition do_action (s : kst K) (a : action) : option (kst K) :=
  match a with
  | act_ioctl req => '(_, _, s) ← ipa3_ioctl s req; Some s
  | act_mmap d vsize => '(_, s) ← ipa3_nat_ipv6ct_mmap s d vsize; Some s
  end.

Fixpoint do_actions (s : kst K) (l : list action) : option (kst K) :=
  match l with
  | [] => Some s
  | a :: l => s ← do_action s a; do_actions s l
  end.

Definition wf_action (a : action) : Prop :=
  match a with act_ioctl req => wf_request req | act_mmap _ _ => True end.

Lemma do_actions_kstep s a s' : wf_action a -> do_action s a = Some s' -> kstep s s'.
Proof.
  intros Ha. destruct a as [req|d v]; cbn [do_action].
  - destruct (ipa3_ioctl s req) as [[[r out] s2]|] eqn:Er; [|done]. cbn. intros [= <-].
    by eapply step_ioctl.
  - destruct (ipa3_nat_ipv6ct_mmap s d v) as [[r s2]|] eqn:Er; [|done]. cbn. intros [= <-].
    by eapply step_mmap.
Qed.

Lemma do_actions_isteps s l s' p :
  Forall wf_action l -> do_actions s l = Some s' -> rtc istep (s, p) (s', p).
Proof.
  intros Hl. revert s. induction Hl as [|a l Ha _ IH]; intros s; cbn [do_actions].
  - intros [= <-]. done.
  - destruct (do_action s a) as [s1|] eqn:Ea; [|done]. cbn [mbind option_bind]. intros Hs.
    eapply rtc_l; [|by apply IH]. by eapply istep_request, do_actions_kstep.
Qed.

Context {G : KernelGhost K}.

Lemma do_actions_reachable s l s' :
  reachable s -> Forall wf_action l -> do_actions s l = Some s' -> reachable s'.
Proof.
  intros Hs Hl. revert s Hs. induction Hl as [|a l Ha _ IH]; intros s Hs; cbn [do_actions].
  - by intros [= <-].
  - destruct (do_action s a) as [s1|] eqn:Ea; [|done]. cbn [mbind option_bind]. apply IH.
    eapply reach_step; [exact Hs|]. by eapply do_actions_kstep.
Qed.
End Runs.

Definition no_tables : tbl_mem := fun _ => [].
Definition ksim_start : ksim := mk_ksim ∅ None None.

(** The driver after it was loaded and user space did [l]. *)
Definition demo {c : ipa3_config} (mx : Z) (l : list action) : kst ksim :=
  default (mk_kst context_init no_tables ksim_start)
    (let '(r, s) := ipa3_nat_ipv6ct_init_devices (E := ksim_env mx)
                      (mk_kst context_init no_tables ksim_start) in
     if r =? 0 then do_actions (E := ksim_env mx) s l else None).

(** A table in DDR of 64 and 12 records that is given to the hardware. *)
Definition demo_table : list action :=
  [act_ioctl (IOC_ALLOC_NAT_TABLE (36 * 76) 0); act_mmap DEV_NAT 4096;
   act_ioctl (IPA_IOC_V4_INIT_NAT (init_request 64 12 0x0A000001 false))].

(** An IPv6CT table of 64 and 36 records. *)
Definition demo_ct : list action :=
  [act_ioctl (IOC_ALLOC_IPV6CT_TABLE 6400 0); act_mmap DEV_IPV6CT 8192].

(** The run succeeds from the start. *)
Definition demo_runs {c : ipa3_config} (mx : Z) (l : list action) : bool :=
  let '(r, s) := ipa3_nat_ipv6ct_init_devices (E := ksim_env mx)
                   (mk_kst context_init no_tables ksim_start) in
  (r =? 0) && (view_tmp (nm_dev (nm s)) <? 2 ^ 32)
  && bool_decide (is_Some (do_actions (E := ksim_env mx) s l)).

Lemma demo_reachable {c : ipa3_config} mx l :
  demo_runs mx l = true -> Forall wf_action l -> reachable (E := ksim_env mx) (demo mx l).
Proof.
  unfold demo_runs, demo.
  destruct (ipa3_nat_ipv6ct_init_devices _) as [r s] eqn:Ei. rewrite !andb_true_iff, Z.eqb_eq, Z.ltb_lt.
  intros [[-> Ht] Hl%bool_decide_eq_true] Hw. destruct Hl as [s' Hl]. cbn [Z.eqb]. rewrite Hl. cbn [default].
  eapply (do_actions_reachable (E := ksim_env mx)); [|exact Hw|exact Hl].
  by eapply reach_load.
Qed.
