(* ===== verification/NatSpec.v ===== *)
(** * What a NAT table promises: a finite map from rule handles to translations

    [rules nt] is the map the two tables of [nt] stand for.  Adding a rule
    inserts it under a fresh handle or leaves the map as it was; deleting a
    rule removes its handle.  The chains, the index table and the place
    holders are invisible in the map. *)
From S2P Require Import Prelude Bitfield Chain Table TableFacts TableDma.
From S2P Require Import TableInsert TableDelete TableHold TableHandle.
From S2P Require Import NatRule NatRuleFacts Env NatTable NatOps NatWf NatAdd NatDel.

(** ** Translations *)

Record nat_flow := mk_flow {
  fl_private_ip : Z; fl_private_port : Z; fl_protocol : Z; fl_public_port : Z;
  fl_target_ip : Z; fl_target_port : Z; fl_pdn_index : Z; fl_uc_activation_index : Z;
  fl_s : Z; fl_ucp : Z; fl_dst_only : Z; fl_src_only : Z;
  fl_ip_chksum : Z; fl_tcp_udp_chksum : Z;
  fl_redirect : Z; fl_enable : Z; fl_time_stamp : Z
}.

#[export] Instance nat_flow_eq_dec : EqDecision nat_flow.
Proof. solve_decision. Defined.

(** What a record of the NAT table says. *)
Definition decode (e : Z) : nat_flow :=
  mk_flow (getf private_ip e) (getf private_port e) (getf protocol e) (getf public_port e)
    (getf target_ip e) (getf target_port e) (getf pdn_index e) (getf uc_activation_index e)
    (getf s_bit e) (getf ucp e) (getf dst_only e) (getf src_only e)
    (getf ip_chksum e) (getf tcp_udp_chksum e)
    (getf redirect e) (getf enable e) (getf time_stamp e).

(** What a client's rule asks for on a PDN with the given public address. *)
Definition flow_of (pub : Z) (r : ipa_nat_ipv4_rule) : nat_flow :=
  mk_flow (u_private_ip r) (u_private_port r) (u_protocol r) (u_public_port r)
    (u_target_ip r) (u_target_port r) (u_pdn_index r) (u_uc_activation_index r mod 2 ^ 13)
    (Z.b2z (u_s r)) (Z.b2z (u_ucp r)) (Z.b2z (u_dst_only r)) (Z.b2z (u_src_only r))
    (u16 (ipa_nati_calc_ip_cksum pub (u_private_ip r)))
    (if (IPPROTO_TCP =? u_protocol r) || (IPPROTO_UDP =? u_protocol r)
     then u16 (ipa_nati_calc_tcp_udp_cksum pub (u_public_port r) (u_private_ip r) (u_private_port r))
     else 0)
    0 1 (u_time_stamp r mod 2 ^ 24).

(** ** The map of a table *)

Definition rule_at (nt : ipa_nat_ip4_table_cache) : Z -> option (Z * nat_flow) :=
  table_rule_at nat_entry_interface dead decode (table nt).

Definition rules (nt : ipa_nat_ip4_table_cache) : gmap Z nat_flow :=
  table_rules nat_entry_interface dead decode (table nt).

#[local] Opaque getf setf MakeEntryHdl.

Lemma decode_kept e e' : same_fields kept_fields e e' -> decode e' = decode e.
Proof.
  intros H. unfold same_fields, kept_fields, rule_fields in H. cbn [app] in H.
  rewrite !Forall_cons in H. unfold decode.
  destruct H as (-> & -> & -> & -> & -> & -> & -> & -> & -> & -> & -> & -> & -> & -> & -> & -> & -> & _).
  done.
Qed.

Lemma decode_rule ps r pdn e :
  rule_matches ps r e -> ps.[u_pdn_index r] = Some pdn -> table_entry_is_valid e = true ->
  getf redirect e = 0 -> getf time_stamp e = u_time_stamp r mod 2 ^ 24 ->
  decode e = flow_of (public_ip pdn) r.
Proof.
  unfold decode.
  intros (-> & -> & -> & -> & -> & -> & -> & -> & -> & -> & -> & -> & p & Hp & E1 & E2) Hp' Hv Hr Ht.
  assert (p = pdn) as -> by congruence.
  assert (He : getf enable e = 1).
  { unfold table_entry_is_valid in Hv. apply negb_true_iff, Z.eqb_neq in Hv.
    pose proof (getf_range enable e ltac:(field_side)) as H. cbn in H. lia. }
  unfold flow_of. by rewrite E1, E2, Hr, He, Ht.
Qed.

Lemma rule_at_live nt i p :
  rule_at nt i = Some p <-> exists e, live nt i e /\ p = (MakeEntryHdl (table nt) i, decode e).
Proof. apply (table_rule_at_live nat_entry_interface dead decode). Qed.

Lemma live_unique nt i e e' : live nt i e -> live nt i e' -> e = e'.
Proof. intros (H & _) (H' & _). congruence. Qed.

Lemma rule_hdl_inj nt i j ei ej :
  wf_nat_shape nt -> live nt i ei -> live nt j ej ->
  MakeEntryHdl (table nt) i = MakeEntryHdl (table nt) j -> i = j.
Proof.
  intros Hs (Hi & _) (Hj & _).
  apply (table_hdl_inj nat_entry_interface nat_layout nat_meta_ok _ _ _ ei ej
           (ns_layout _ Hs) (ns_hdl _ Hs) Hi Hj).
Qed.

Lemma lookup_rules nt h v :
  wf_nat_shape nt ->
  rules nt !! h = Some v
  <-> exists i e, live nt i e /\ h = MakeEntryHdl (table nt) i /\ v = decode e.
Proof.
  intros Hs. apply (lookup_table_rules nat_entry_interface nat_layout nat_meta_ok dead decode);
    [apply (ns_layout _ Hs)|apply (ns_hdl _ Hs)].
Qed.

(** ** The operations refine the map *)

Section Refinement.
Context (nt nt' : ipa_nat_ip4_table_cache).
Hypothesis (Hs : wf_nat_shape nt) (Hs' : wf_nat_shape nt').

Lemma rules_inserted ps r pdn v token hdl :
  ps.[u_pdn_index r] = Some pdn ->
  rule_inserted ps r v (public_ip pdn) token nt nt' hdl ->
  rules nt !! hdl = None /\ rules nt' = <[hdl := flow_of (public_ip pdn) r]> (rules nt).
Proof.
  intros Hp (i & e & -> & _ & Ha & Hm & Ht & Hr & _ & Hsh & _).
  assert (Hd : decode e = flow_of (public_ip pdn) r)
    by (eapply decode_rule; [..|apply Ha| |]; done).
  rewrite <- Hd. apply (table_rules_inserted nat_entry_interface nat_layout nat_meta_ok dead decode
    (same_fields kept_fields) decode_kept _ _ (ns_layout _ Hs) (ns_layout _ Hs') (ns_hdl _ Hs) Hsh i e Ha).
Qed.

Lemma rules_deleted i e :
  live nt i e -> rule_deleted nt nt' i ->
  rules nt' = delete (MakeEntryHdl (table nt) i) (rules nt).
Proof.
  intros Hi (Hno & Hk & Hb & Hsh & _).
  by apply (table_rules_deleted nat_entry_interface nat_layout nat_meta_ok dead decode
    (same_fields kept_fields) decode_kept _ _ (ns_layout _ Hs) (ns_layout _ Hs') (ns_hdl _ Hs) Hsh i e (proj1 Hi)).
Qed.

Lemma rules_same_table : table nt' = table nt -> rules nt' = rules nt.
Proof. intros E. unfold rules. by rewrite E. Qed.
End Refinement.

Lemma rules_none nt : wf_nat_shape nt -> (forall i x, ~ live nt i x) -> rules nt = ∅.
Proof.
  intros Hs. apply (table_rules_none nat_entry_interface nat_layout nat_meta_ok dead decode);
    [apply (ns_layout _ Hs)|apply (ns_hdl _ Hs)].
Qed.

Section Operations.
Context {K : Type} {E : IpaEnv K} {laws : IpaEnvLaws K}.
Context (c : ipa_nat_cache) (d : ipa_descriptor) (nt : ipa_nat_ip4_table_cache).
Hypothesis (Hd : ipa_desc c = Some d) (Hwf : wf_nat nt).

Lemma add_refines ps r pdn token (k : K) :
  ps.[u_pdn_index r] = Some pdn -> u_pdn_index r < IPA_MAX_PDN_NUM -> wf_user_rule r ->
  u_protocol r <> IPAHAL_NAT_INVALID_PROTOCOL ->
  exists ret hdl token' nt' k',
    add_ipv4_rule_locked c nt ps r token k = Some (ret, hdl, token', nt', k')
    /\ wf_nat nt' /\ mem_desc nt' = mem_desc nt /\ nmi (table nt') = nmi (table nt) /\ ret <= 0
    /\ (ret = 0 -> rules nt !! hdl = None /\ VALID_RULE_HDL hdl = true
                   /\ rules nt' = <[hdl := flow_of (public_ip pdn) r]> (rules nt))
    /\ (ret <> 0 -> hdl = 0 /\ rules nt' = rules nt).
Proof.
  intros Hp Hlt Hu Hpr.
  destruct (add_rule_spec c d nt ps pdn r Hd Hwf Hp Hlt Hu Hpr token k)
    as (ret & hdl & token' & nt' & k' & Ea & [(-> & Hwf' & Hi)|(Hr & -> & Hrb)]);
    eexists _, _, _, _, _; (split; [exact Ea|]).
  - destruct (rules_inserted nt nt' (nw_shape _ Hwf) (nw_shape _ Hwf') _ _ _ _ _ _ Hp Hi) as [H1 H2].
    destruct Hi as (i & e & -> & Hi & _ & _ & _ & _ & Hmd & Hsh & _).
    split_and!; try done; try lia; [apply Hsh|].
    intros _. split_and!; try done. pose proof (nw_shape _ Hwf) as Hs.
    pose proof (ns_layout _ Hs) as Hl. pose proof (ns_hdl _ Hs) as (B1 & B2 & B3).
    pose proof (wl_base _ _ _ _ Hl). pose proof (wl_expn _ _ _ _ Hl). pose proof (wl_tot _ _ _ _ Hl).
    apply MakeEntryHdl_valid; (done || lia).
  - destruct Hrb as (Hwf' & Ht & Hmd & _). split_and!; try done; try lia; [by rewrite Ht|].
    intros _. split; [done|]. by apply rules_same_table.
Qed.

Lemma del_refines hdl (k : K) :
  is_Some (rules nt !! hdl) ->
  exists ret nt' k',
    del_ipv4_rule_locked c nt hdl k = Some (ret, nt', k')
    /\ (ret = 0 \/ ret = - EIO) /\ mem_desc nt' = mem_desc nt
    /\ (ret = 0 -> wf_nat nt' /\ rules nt' = delete hdl (rules nt)
                   /\ nmi (table nt') = nmi (table nt)).
Proof.
  intros [v Hv]. apply lookup_rules in Hv as (i & e & Hi & -> & _); [|apply (nw_shape _ Hwf)].
  destruct (del_rule_spec c d nt i e k Hd Hwf Hi)
    as (ret & nt' & k' & Ed & [(-> & Hwf' & Hdel)|(-> & Hnt)]);
    eexists _, _, _; (split; [exact Ed|]).
  - split; [by left|]. split; [apply Hdel|]. intros _. split; [done|].
    split; [apply (rules_deleted nt nt' (nw_shape _ Hwf) (nw_shape _ Hwf') i e Hi Hdel)|apply Hdel].
  - split; [by right|]. split; [|done]. by destruct Hnt as [->|(i2 & e2 & _ & _ & _ & ->)].
Qed.
End Operations.
