(* ===== verification/NatState.v ===== *)
(** * The library's NAT state and its contract

    [nat_inv] is the invariant of the library's state between calls: a cache
    holds no table, or one well-formed table with its memory mapped and its
    descriptor open.  [state_rules] is the abstract state: for each of the two
    memory types, the rules of its table if there is one.  Each [ipa_NATI_*]
    call is defined on every state that satisfies the invariant, keeps it and
    acts on the abstract state as its contract says. *)
From S2P Require Import Prelude Bitfield Chain Table Sizing TableFacts TableDma TableInsert.
From S2P Require Import TableDelete TableHandle NatRule NatRuleFacts Env NatTable NatOps NatWf.
From S2P Require Import NatAdd NatDel NatSpec.

(** ** Invariant and abstraction *)

Definition cache_ok (mem : Z) (c : ipa_nat_cache) : Prop :=
  exists nt, ip4_tbl c = [nt]
    /\ ((table_cnt c = 0 /\ md_valid (mem_desc nt) = false)
        \/ (table_cnt c = 1 /\ md_valid (mem_desc nt) = true /\ wf_nat nt
            /\ is_Some (ipa_desc c) /\ nmi (table nt) = mem)).

Record nat_inv {K} (s : nat_state K) : Prop := {
  ni_caches : lengthZ (ipv4_nat_cache s) = 2;
  ni_cache : forall mem c, (ipv4_nat_cache s).[mem] = Some c -> cache_ok mem c;
  ni_pdns : lengthZ (pdns s) = IPA_MAX_PDN_NUM
}.

Definition cache_rules (c : ipa_nat_cache) : option (gmap Z nat_flow) :=
  if table_cnt c =? 0 then None
  else match ip4_tbl c with nt :: _ => Some (rules nt) | [] => None end.

Definition state_rules {K} (s : nat_state K) : list (option (gmap Z nat_flow)) :=
  map cache_rules (ipv4_nat_cache s).

Lemma map_updateZ {A B} (f : A -> B) (l : list A) i x :
  map f l.[i <- x] = (map f l).[i <- f x].
Proof. unfold updateZ. case_decide; [|done]. apply list_fmap_insert. Qed.

Lemma map_lookupZ {A B} (f : A -> B) (l : list A) i : (map f l).[i] = f <$> l.[i].
Proof. unfold lookupZ. case_decide; [|done]. apply list_lookup_fmap. Qed.

Lemma cache_ok_update l i c :
  (forall mem x, l.[mem] = Some x -> cache_ok mem x) -> cache_ok i c ->
  forall mem x, l.[i <- c].[mem] = Some x -> cache_ok mem x.
Proof.
  intros H Hc mem x Hx. pose proof (lookupZ_Some_range _ _ _ Hx) as Hr. rewrite lengthZ_updateZ in Hr.
  destruct (decide (i = mem)) as [->|Hne].
  - rewrite lookupZ_updateZ_eq in Hx by done. by injection Hx as <-.
  - rewrite lookupZ_updateZ_ne in Hx by done. by apply H.
Qed.

Lemma nat_inv_init {K} (k : K) : nat_inv (nat_state_init k).
Proof.
  split; [done| |done].
  intros mem c H. exists ip4_table_cache_zero. pose proof (lookupZ_Some_range _ _ _ H) as Hr.
  change (0 <= mem < 2) in Hr. assert (mem = 0 \/ mem = 1) as [->| ->] by lia; injection H as <-; split; (done || by left).
Qed.

Lemma state_rules_init {K} (k : K) : state_rules (nat_state_init k) = [None; None].
Proof. done. Qed.

Section Inv.
Context {K : Type}.
Implicit Types (s : nat_state K).

Lemma nat_inv_cache s nmi :
  nat_inv s -> nmi = 0 \/ nmi = 1 ->
  exists c, (ipv4_nat_cache s).[nmi] = Some c /\ cache_ok nmi c /\ 0 <= nmi < lengthZ (ipv4_nat_cache s).
Proof.
  intros [H1 H2 H3] Hn. assert (Hr : 0 <= nmi < lengthZ (ipv4_nat_cache s)) by lia.
  destruct (lookupZ_in_range (ipv4_nat_cache s) nmi Hr) as [c Hc].
  exists c. split; [done|]. split; [|done]. by apply H2.
Qed.

Lemma nat_inv_with_cache s nmi c : nat_inv s -> cache_ok nmi c -> nat_inv (with_cache s nmi c).
Proof.
  intros [] Hc. split; cbn; [by rewrite lengthZ_updateZ|by apply cache_ok_update|done].
Qed.

Lemma nat_inv_env s k : nat_inv s -> nat_inv (with_env s k).
Proof. by intros []. Qed.

Lemma nat_inv_token s t : nat_inv s -> nat_inv (with_token s t).
Proof. by intros []. Qed.

Lemma nat_inv_active s a : nat_inv s -> nat_inv (with_active s a).
Proof. by intros []. Qed.

Lemma nat_inv_pdns s l n : nat_inv s -> lengthZ l = IPA_MAX_PDN_NUM -> nat_inv (with_pdns s l n).
Proof. by intros []. Qed.

Lemma state_rules_with_cache s nmi c :
  state_rules (with_cache s nmi c) = (state_rules s).[nmi <- cache_rules c].
Proof. apply map_updateZ. Qed.

Lemma state_rules_lookup s nmi c :
  (ipv4_nat_cache s).[nmi] = Some c -> (state_rules s).[nmi] = Some (cache_rules c).
Proof. intros H. unfold state_rules. by rewrite map_lookupZ, H. Qed.

Lemma state_rules_same s nmi c c' :
  (ipv4_nat_cache s).[nmi] = Some c -> cache_rules c' = cache_rules c ->
  state_rules (with_cache s nmi c') = state_rules s.
Proof.
  intros H E. rewrite state_rules_with_cache, E. by apply updateZ_id, state_rules_lookup.
Qed.
End Inv.

(** ** Table handles *)

Lemma break_tbl_hdl h :
  VALID_TBL_HDL h = true ->
  exists nmi, BREAK_TBL_HDL h = (nmi, 1) /\ (nmi = 0 \/ nmi = 1) /\ IPA_VALID_NAT_MEM_IN nmi = true.
Proof.
  unfold VALID_TBL_HDL, BREAK_TBL_HDL. intros H%Z.eqb_eq. rewrite H.
  exists (Z.land (Z.shiftr h 31) 1). split; [done|].
  assert (E : Z.land (Z.shiftr h 31) 1 = Z.shiftr h 31 mod 2) by (by apply (Z.land_ones _ 1)).
  rewrite E. pose proof (Z.mod_pos_bound (Z.shiftr h 31) 2 ltac:(lia)).
  assert (Hor : Z.shiftr h 31 mod 2 = 0 \/ Z.shiftr h 31 mod 2 = 1) by lia.
  split; [done|]. by destruct Hor as [->| ->].
Qed.

Lemma break_make_tbl_hdl nmi :
  nmi = 0 \/ nmi = 1 ->
  VALID_TBL_HDL (MAKE_TBL_HDL 1 nmi) = true /\ BREAK_TBL_HDL (MAKE_TBL_HDL 1 nmi) = (nmi, 1).
Proof. by intros [->| ->]. Qed.

Lemma valid_nat_mem nmi : IPA_VALID_NAT_MEM_IN nmi = true -> nmi = 0 \/ nmi = 1.
Proof.
  unfold IPA_VALID_NAT_MEM_IN, IPA_NAT_MEM_IN_MAX, IPA_NAT_MEM_IN_DDR. rewrite andb_true_iff, Z.leb_le, Z.ltb_lt. lia.
Qed.

(** ** The calls *)

Section Calls.
Context {K : Type} {E : IpaEnv K} {laws : IpaEnvLaws K}.
Implicit Types (s : nat_state K).

Lemma unlock_nat_spec ret s :
  exists k', unlock_nat ret s = ((unlock_nat ret s).1, with_env s k')
    /\ (ret <> 0 -> (unlock_nat ret s).1 = ret)
    /\ (ret = 0 -> (unlock_nat ret s).1 = 0 \/ (unlock_nat ret s).1 = - EPERM).
Proof.
  unfold unlock_nat. destruct (env_unlock (env s)) as [u k']. exists k'. cbn [fst].
  split; [done|]. destruct (u =? 0); [split; auto|]. destruct (Z.eqb_spec ret 0); split; auto.
  done.
Qed.

(** [ipa_NATI_add_ipv4_rule]: the rule is in the map under the returned
    handle, or the handle is 0 and the map is as before. A failing unlock
    after an insertion hides the handle. *)
Lemma NATI_add_rule_spec s tbl_hdl r h0 nmi m :
  nat_inv s -> VALID_TBL_HDL tbl_hdl = true -> (BREAK_TBL_HDL tbl_hdl).1 = nmi ->
  (state_rules s).[nmi] = Some (Some m) -> wf_user_rule r -> u_pdn_index r < IPA_MAX_PDN_NUM ->
  exists ret hdl s',
    ipa_NATI_add_ipv4_rule s tbl_hdl (Some r) (Some h0) = Some (ret, Some hdl, s')
    /\ nat_inv s'
    /\ (ret = 0 -> exists pdn, (pdns s).[u_pdn_index r] = Some pdn /\ m !! hdl = None
          /\ VALID_RULE_HDL hdl = true
          /\ state_rules s' = (state_rules s).[nmi <- Some (<[hdl := flow_of (public_ip pdn) r]> m)])
    /\ (ret <> 0 -> hdl = 0
          /\ (state_rules s' = state_rules s
              \/ (ret = - EPERM /\ exists hdl' v, (exists pub, v = flow_of pub r) /\ m !! hdl' = None
                  /\ state_rules s' = (state_rules s).[nmi <- Some (<[hdl' := v]> m)]))).
Proof.
  intros Hinv Hh Hn Hm Hu Epd. destruct (break_tbl_hdl _ Hh) as (nmi' & Eb & Hn' & Hv).
  rewrite Eb in Hn. cbn in Hn. subst nmi'.
  destruct (nat_inv_cache s nmi Hinv Hn') as (c & Hc & Hok & Hr).
  unfold ipa_NATI_add_ipv4_rule. rewrite Hh, Eb, Hv, Hc. cbn [negb mbind option_bind].
  destruct (Z.eqb_spec (u_protocol r) IPAHAL_NAT_INVALID_PROTOCOL) as [_|Hpr].
  { eexists _, _, _. split; [reflexivity|]. split; [done|]. split; [done|]. auto. }
  destruct (lookupZ_in_range (pdns s) (u_pdn_index r)) as [pdn Hp].
  { rewrite (ni_pdns _ Hinv). pose proof (wu_pdn_index _ Hu). lia. }
  rewrite Hp, (proj2 (Z.leb_gt _ _) Epd). cbn [mbind option_bind orb].
  destruct (public_ip pdn =? 0).
  { eexists _, _, _. split; [reflexivity|]. split; [done|]. split; [done|]. auto. }
  destruct (env_lock (env s)) as [lk k1]. cbn [env with_env].
  destruct (lk =? 0); cbn [negb].
  2: { eexists _, _, _. split; [reflexivity|]. split; [by apply nat_inv_env|]. split; [done|]. auto. }
  rewrite (state_rules_lookup _ _ _ Hc) in Hm. injection Hm as Hm.
  destruct Hok as (nt & Hnt & [[H0 _]|(H1 & Hmd & Hwf & [d Hd] & Hnmi)]).
  { unfold cache_rules in Hm. by rewrite H0 in Hm. }
  unfold cache_rules in Hm. rewrite H1, Hnt in Hm. cbn in Hm. injection Hm as <-.
  rewrite Hnt. change ([nt].[1 - 1]) with (Some nt). cbn [mbind option_bind]. rewrite Hmd. cbn [negb].
  destruct (add_refines c d nt Hd Hwf (pdns s) r pdn (Hash_token s) k1 Hp Epd Hu Hpr)
    as (ret & hdl & token' & nt' & k' & Ea & Hwf' & Hmd' & Hnm' & Hle & A0 & A1).
  cbn [pdns with_env Hash_token]. rewrite Ea. cbn [mbind option_bind].
  destruct (env_unlock k') as [u k2].
  assert (Hok' : cache_ok nmi (with_tbl c (1 - 1) nt')).
  { exists nt'. cbn. rewrite Hnt. split; [done|]. right. rewrite Hmd', H1, Hnm'. by rewrite Hd. }
  assert (Er : cache_rules (with_tbl c (1 - 1) nt') = Some (rules nt'))
    by (unfold cache_rules; cbn; by rewrite H1, Hnt).
  set (s1 := with_env (with_token _ _) k2).
  assert (Hs1 : nat_inv s1)
    by (apply nat_inv_env, nat_inv_token, nat_inv_with_cache; [by apply nat_inv_env|done]).
  assert (Es1 : state_rules s1 = (state_rules s).[nmi <- Some (rules nt')])
    by (rewrite <- Er; apply (state_rules_with_cache (with_env s k1))).
  destruct (Z.eqb_spec ret 0) as [->|Hne]; cbn [negb].
  - destruct (A0 eq_refl) as (B1 & B2 & B3). destruct (u =? 0).
    + eexists _, _, s1. split; [reflexivity|]. split; [done|]. split; [|done].
      intros _. exists pdn. by rewrite Es1, B3.
    + eexists _, _, s1. split; [reflexivity|]. split; [done|]. split; [done|]. intros _.
      split; [done|]. right. split; [done|]. exists hdl, (flow_of (public_ip pdn) r).
      rewrite Es1, B3. split; [by eexists|done].
  - destruct (A1 Hne) as [-> B]. eexists _, _, s1. split; [reflexivity|]. split; [done|].
    split; [done|]. intros _. split; [done|]. left. rewrite Es1, B. apply updateZ_id.
    rewrite (state_rules_lookup _ _ _ Hc). unfold cache_rules. by rewrite H1, Hnt.
Qed.

(** [ipa_NATI_del_ipv4_rule] of a rule in the map. *)
Lemma NATI_del_rule_spec s tbl_hdl hdl nmi m :
  nat_inv s -> VALID_TBL_HDL tbl_hdl = true -> (BREAK_TBL_HDL tbl_hdl).1 = nmi ->
  (state_rules s).[nmi] = Some (Some m) -> is_Some (m !! hdl) ->
  exists ret s',
    ipa_NATI_del_ipv4_rule s tbl_hdl hdl = Some (ret, s')
    /\ (ret = 0 \/ ret = - EPERM ->
        nat_inv s' /\ state_rules s' = (state_rules s).[nmi <- Some (delete hdl m)])
    /\ (ret = - EINVAL -> nat_inv s' /\ state_rules s' = state_rules s)
    /\ (ret = 0 \/ ret = - EPERM \/ ret = - EINVAL \/ ret = - EIO).
Proof.
  intros Hinv Hh Hn Hm Hk. destruct (break_tbl_hdl _ Hh) as (nmi' & Eb & Hn' & Hv).
  rewrite Eb in Hn. cbn in Hn. subst nmi'.
  destruct (nat_inv_cache s nmi Hinv Hn') as (c & Hc & Hok & Hr).
  unfold ipa_NATI_del_ipv4_rule. rewrite Eb, Hv, Hc. cbn [negb mbind option_bind].
  destruct (env_lock (env s)) as [lk k1]. cbn [env with_env].
  destruct (lk =? 0); cbn [negb].
  2: { eexists _, _. split; [reflexivity|]. split; [by intros [?|?]|].
       split; [intros _; split; [by apply nat_inv_env|done]|]. auto. }
  rewrite (state_rules_lookup _ _ _ Hc) in Hm. injection Hm as Hm.
  destruct Hok as (nt & Hnt & [[H0 _]|(H1 & Hmd & Hwf & [d Hd] & Hnmi)]).
  { unfold cache_rules in Hm. by rewrite H0 in Hm. }
  unfold cache_rules in Hm. rewrite H1, Hnt in Hm. cbn in Hm. injection Hm as <-.
  rewrite Hnt. change ([nt].[1 - 1]) with (Some nt). cbn [mbind option_bind]. rewrite Hmd. cbn [negb].
  destruct (del_refines c d nt Hd Hwf hdl k1 Hk) as (ret & nt' & k' & Ed & Hret & Hmd' & A).
  rewrite Ed. cbn [mbind option_bind].
  set (s1 := with_env (with_cache _ _ _) k').
  destruct (unlock_nat_spec ret s1) as (k2 & Eu & U1 & U2). rewrite Eu.
  eexists _, _. split; [reflexivity|]. destruct Hret as [->| ->].
  - destruct (A eq_refl) as (Hwf' & Hru & Hnm'). split_and!.
    + intros _. split.
      * apply nat_inv_env, nat_inv_env, nat_inv_with_cache; [by apply nat_inv_env|].
        exists nt'. cbn. rewrite Hnt. split; [done|]. right. rewrite Hmd', H1, Hnm'. by rewrite Hd.
      * rewrite <- Hru. change (state_rules (with_env s1 k2)) with
          (state_rules (with_cache (with_env s k1) nmi (with_tbl c (1 - 1) nt'))).
        rewrite state_rules_with_cache. do 2 f_equal. unfold cache_rules. cbn. by rewrite H1, Hnt.
    + intros E1. destruct (U2 eq_refl) as [E2|E2]; by rewrite E2 in E1.
    + destruct (U2 eq_refl); auto.
  - rewrite U1 by done. split_and!; [by intros [?|?]|done|auto].
Qed.
End Calls.

(** ** Tables *)

(** A cache without a table. *)
Definition cache_empty (c : ipa_nat_cache) : Prop :=
  exists nt, ip4_tbl c = [nt] /\ table_cnt c = 0 /\ md_valid (mem_desc nt) = false.

Lemma cache_empty_ok mem c : cache_empty c -> cache_ok mem c /\ cache_rules c = None.
Proof.
  intros (nt & H1 & H2 & H3). split; [exists nt; auto|]. unfold cache_rules. by rewrite H2.
Qed.

(** [s'] is [s] with the cache [c] for memory type [nmi]. *)
Definition cache_replaced {K} (s s' : nat_state K) (nmi : Z) (c : ipa_nat_cache) : Prop :=
  ipv4_nat_cache s' = (ipv4_nat_cache s).[nmi <- c] /\ lengthZ (pdns s') = lengthZ (pdns s).

Lemma cache_replaced_inv {K} (s s' : nat_state K) nmi c :
  nat_inv s -> cache_replaced s s' nmi c -> cache_ok nmi c ->
  nat_inv s' /\ state_rules s' = (state_rules s).[nmi <- cache_rules c].
Proof.
  intros [H1 H2 H3] [E1 E2] Hc. split.
  - split; rewrite ?E1, ?E2; [by rewrite lengthZ_updateZ|by apply cache_ok_update|done].
  - unfold state_rules. rewrite E1. apply map_updateZ.
Qed.

Section Tables.
Context {K : Type} {E : IpaEnv K} {mlaws : IpaMemLaws K}.
Implicit Types (s : nat_state K).

Lemma failed_create_table_spec s nmi c nt :
  ip4_tbl c = [nt] -> table_cnt c = 0 -> md_valid (mem_desc nt) = false ->
  exists c', cache_replaced s (failed_create_table s nmi c) nmi c' /\ cache_empty c'.
Proof.
  intros H1 H2 H3. unfold failed_create_table. rewrite H2. cbn [Z.eqb].
  exists (with_desc c None). split; [done|]. by exists nt.
Qed.

(** The first table of a cache: none was made, or it is empty. *)
Lemma create_ipv4_tbl_spec s nmi ip n c nt d :
  ip4_tbl c = [nt] -> table_cnt c = 0 -> md_valid (mem_desc nt) = false -> nc_nmi c = nmi ->
  ipa_desc c = Some d -> nmi = 0 \/ nmi = 1 -> 0 <= n -> lengthZ (pdns s) = IPA_MAX_PDN_NUM ->
  exists ret hdl s' c',
    create_ipv4_tbl s nmi c ip n = Some (ret, hdl, s') /\ cache_replaced s s' nmi c'
    /\ ((ret <> 0 /\ hdl = 0 /\ cache_empty c')
        \/ (ret = 0 /\ hdl = MAKE_TBL_HDL 1 nmi /\ cache_ok nmi c' /\ cache_rules c' = Some ∅)).
Proof.
  intros T1 T2 Hmd T3 Hd Hn Hn0 Hpd. unfold create_ipv4_tbl.
  rewrite T2, T1. change ([nt].[0]) with (Some nt). cbn [mbind option_bind].
  destruct (create_table_spec c nt d ip n (env s) Hd) as (ret & nt' & k3 & Ec & C0 & C1);
    [by rewrite T3|done|].
  rewrite Ec. cbn [mbind option_bind].
  destruct (Z.eqb_spec ret 0) as [->|Hne]; cbn [negb].
  2: { destruct (failed_create_table_spec (with_env s k3) nmi (with_tbl c 0 nt') nt')
         as (c' & F1 & F2); [by cbn; rewrite T1|done|by apply C1|].
       eexists _, _, _, c'. split; [reflexivity|]. split; [exact F1|]. by left. }
  destruct (C0 eq_refl) as (W1 & W2 & W3 & W4 & _).
  unfold ipa_nati_post_ipv4_init_cmd. cbn [ipa_desc with_tbl]. rewrite Hd. cbn [mbind option_bind].
  destruct (env_v4_init _ _ _) as [pr k4]. cbn [mbind option_bind].
  destruct (Z.eqb_spec pr 0) as [->|Hne]; cbn [negb].
  2: { unfold ipa_nati_destroy_table. cbn [ipa_desc with_tbl]. rewrite Hd. cbn [mbind option_bind].
       destruct (ipa_mem_descriptor_delete _ _ _) as [[dr dm] k5]. cbn [mbind option_bind].
       destruct (failed_create_table_spec (with_env (with_env (with_env s k3) k4) k5) nmi
         (with_tbl (with_tbl c 0 nt') 0 ip4_table_cache_zero)
         ip4_table_cache_zero) as (c' & F1 & F2); [by cbn; rewrite T1|done|done|].
       eexists _, _, _, c'. split; [reflexivity|]. split; [exact F1|]. by left. }
  destruct (lookupZ_in_range (pdns s) 0) as [p0 Hp0]; [rewrite Hpd; done|].
  cbn [pdns with_active with_env]. rewrite Hp0. cbn [mbind option_bind].
  cbn [table_cnt with_tbl with_cnt]. rewrite T2. change (u8 (0 + 1)) with 1.
  eexists _, _, _, _. split; [reflexivity|]. split.
  - split; [done|cbn; by rewrite lengthZ_updateZ].
  - right. split; [done|]. split; [done|]. split.
    + exists nt'. cbn. rewrite T1. split; [done|]. right. rewrite Hd, W4. by rewrite T3.
    + unfold cache_rules. cbn. rewrite T1. cbn. f_equal. apply rules_none; [apply W1|done].
Qed.

Lemma open_for_table_spec c (k : K) opened c2 k2 :
  open_for_table c k = (opened, c2, k2) ->
  ip4_tbl c2 = ip4_tbl c /\ table_cnt c2 = table_cnt c /\ nc_nmi c2 = nc_nmi c
  /\ (opened = true -> is_Some (ipa_desc c2)).
Proof.
  unfold open_for_table. destruct (ipa_desc c) as [d1|] eqn:Ed1.
  - intros [= <- <- <-]. by rewrite Ed1.
  - destruct (ipa_descriptor_open k) as [dd kk]. intros [= <- <- <-]. cbn. by destruct dd.
Qed.

Lemma add_tbl_locked_spec s nmi ip n c :
  (ipv4_nat_cache s).[nmi] = Some c -> cache_ok nmi c -> nmi = 0 \/ nmi = 1 -> 0 <= n ->
  lengthZ (pdns s) = IPA_MAX_PDN_NUM ->
  exists ret hdl s' c',
    add_ipv4_tbl_locked s nmi ip n = Some (ret, hdl, s') /\ cache_replaced s s' nmi c'
    /\ ((ret <> 0 /\ hdl = 0 /\ cache_ok nmi c' /\ cache_rules c' = cache_rules c)
        \/ (ret = 0 /\ hdl = MAKE_TBL_HDL 1 nmi /\ cache_rules c = None
            /\ cache_ok nmi c' /\ cache_rules c' = Some ∅)).
Proof.
  intros Hc (nt & Hnt & Hor) Hn Hn0 Hpd. unfold add_ipv4_tbl_locked. rewrite Hc.
  cbn [mbind option_bind]. destruct Hor as [[H0 Hmd]|(H1 & Hmd & Hwf & Hdc & Hnmi)].
  2: { cbn [table_cnt with_nmi]. rewrite H1. eexists _, _, _, _. split; [reflexivity|].
       split; [done|]. left. split; [done|]. split; [done|]. split; [|done].
       exists nt. split; [done|]. by right. }
  assert (Hcr : cache_rules c = None) by (unfold cache_rules; by rewrite H0).
  cbn [table_cnt with_nmi]. rewrite H0. cbn [Z.leb IPA_NAT_MAX_IP4_TBLS Z.compare].
  set (s1 := with_cache s nmi (with_nmi c nmi)).
  destruct (open_for_table (with_nmi c nmi) (env s1)) as [[opened c2] k2] eqn:Eo.
  destruct (open_for_table_spec _ _ _ _ _ Eo) as (T1 & T2 & T3 & T4). cbn in T1, T2, T3.
  rewrite Hnt in T1. rewrite H0 in T2.
  set (s2 := with_env (with_cache s1 nmi c2) k2).
  assert (R2 : forall s3 c3, cache_replaced s2 s3 nmi c3 -> cache_replaced s s3 nmi c3).
  { intros s3 c3 [Y1 Y2]. split; [|done]. rewrite Y1. cbn. by rewrite !updateZ_updateZ_eq. }
  destruct opened; cbn [negb].
  - destruct (T4 eq_refl) as [d Hd].
    destruct (create_ipv4_tbl_spec s2 nmi ip n c2 nt d T1 T2 Hmd T3 Hd Hn Hn0 Hpd)
      as (ret & hdl & s' & c' & Ec & Hr & Hcase).
    eexists _, _, _, c'. split; [exact Ec|]. split; [by apply R2|].
    destruct Hcase as [(X1 & X2 & X3)|(X1 & X2 & X3 & X4)]; [left|by right].
    rewrite Hcr. by pose proof (cache_empty_ok nmi _ X3) as [].
  - eexists _, _, _, c2. split; [reflexivity|]. split.
    + split; [cbn; by rewrite updateZ_updateZ_eq|done].
    + left. split; [done|]. split; [done|]. rewrite Hcr. apply cache_empty_ok. by exists nt.
Qed.

(** [ipa_NATI_add_ipv4_tbl]: an empty table under the handle of its memory
    type, or no table and handle 0. *)
Lemma NATI_add_tbl_spec s nmi ip n :
  nat_inv s -> 0 <= n ->
  exists ret hdl s',
    ipa_NATI_add_ipv4_tbl s nmi ip n = Some (ret, hdl, s') /\ nat_inv s'
    /\ ((hdl = 0 /\ ret <> 0 /\ state_rules s' = state_rules s)
        \/ (hdl = MAKE_TBL_HDL 1 nmi /\ (nmi = 0 \/ nmi = 1) /\ (ret = 0 \/ ret = - EPERM)
            /\ (state_rules s).[nmi] = Some None
            /\ state_rules s' = (state_rules s).[nmi <- Some ∅])).
Proof.
  intros Hinv Hn0. unfold ipa_NATI_add_ipv4_tbl.
  destruct (IPA_VALID_NAT_MEM_IN nmi) eqn:Hv; cbn [negb].
  2: { eexists _, _, _. split; [reflexivity|]. split; [done|]. by left. }
  apply valid_nat_mem in Hv. destruct (env_lock (env s)) as [lk k1]. 
  destruct (lk =? 0); cbn [negb].
  2: { eexists _, _, _. split; [reflexivity|]. split; [by apply nat_inv_env|]. by left. }
  destruct (nat_inv_cache s nmi Hinv Hv) as (c & Hc & Hok & Hr).
  destruct (add_tbl_locked_spec (with_env s k1) nmi ip n c Hc Hok Hv Hn0 (ni_pdns _ Hinv))
    as (ret & hdl & s' & c' & Ea & Hrep & Hcase).
  rewrite Ea. cbn [mbind option_bind]. destruct (env_unlock (env s')) as [u k2].
  destruct (cache_replaced_inv s (with_env s' k2) nmi c' Hinv) as [I1 I2];
    [apply Hrep|by destruct Hcase as [(_ & _ & ? & _)|(_ & _ & _ & ? & _)]|].
  eexists _, _, _. split; [reflexivity|]. split; [done|].
  destruct Hcase as [(X1 & -> & X2 & X3)|(-> & -> & X1 & X2 & X3)]; [left|right].
  - split; [done|]. split; [by destruct (u =? 0)|]. rewrite I2, X3.
    by apply updateZ_id, state_rules_lookup.
  - split; [done|]. split; [done|]. split; [destruct (u =? 0); auto|].
    rewrite I2, X3. split; [|done]. rewrite <- X1. by apply state_rules_lookup.
Qed.

(** [ipa_NATI_del_ipv4_table]: the table is gone, whatever the driver
    answers once the memory is unmapped. *)
Lemma NATI_del_tbl_spec s tbl_hdl nmi m :
  nat_inv s -> VALID_TBL_HDL tbl_hdl = true -> (BREAK_TBL_HDL tbl_hdl).1 = nmi ->
  (state_rules s).[nmi] = Some (Some m) ->
  exists ret s',
    ipa_NATI_del_ipv4_table s tbl_hdl = Some (ret, s')
    /\ (ret = 0 -> nat_inv s' /\ state_rules s' = (state_rules s).[nmi <- None]).
Proof.
  intros Hinv Hh Hn Hm. destruct (break_tbl_hdl _ Hh) as (nmi' & Eb & Hn' & Hv).
  rewrite Eb in Hn. cbn in Hn. subst nmi'.
  destruct (nat_inv_cache s nmi Hinv Hn') as (c & Hc & Hok & Hr).
  unfold ipa_NATI_del_ipv4_table. rewrite Eb, Hv, Hc. cbn [negb mbind option_bind].
  destruct (env_lock (env s)) as [lk k1]. cbn [env with_env].
  destruct (lk =? 0); cbn [negb]; [|by eexists _, _].
  rewrite (state_rules_lookup _ _ _ Hc) in Hm. injection Hm as Hm.
  destruct Hok as (nt & Hnt & [[H0 _]|(H1 & Hmd & Hwf & [d Hd] & Hnmi)]).
  { unfold cache_rules in Hm. by rewrite H0 in Hm. }
  rewrite Hnt. change ([nt].[1 - 1]) with (Some nt). cbn [mbind option_bind]. rewrite Hmd. cbn [negb].
  unfold ipa_nati_destroy_table. rewrite Hd. cbn [mbind option_bind].
  destruct (ipa_mem_descriptor_delete _ _ _) as [[ret md] k2]. cbn [mbind option_bind].
  destruct (Z.eqb_spec ret 0) as [->|Hne]; cbn [negb].
  2: { destruct (unlock_nat ret _) as [r' s'] eqn:Eu. eexists _, _. split; [reflexivity|].
       unfold unlock_nat in Eu. destruct (env_unlock _) as [u k3]. injection Eu as <- <-.
       intros E0. destruct (u =? 0); [done|]. by destruct (Z.eqb_spec ret 0). }
  cbn [table_cnt with_tbl with_cnt]. rewrite H1. change (u8 (1 - 1)) with 0. cbn [Z.eqb].
  unfold unlock_nat. destruct (env_unlock _) as [u k4]. eexists _, _. split; [reflexivity|].
  intros _. eapply cache_replaced_inv with (c := mk_nat_cache None [ip4_table_cache_zero] 0 (nc_nmi c));
    [done| |by exists ip4_table_cache_zero; split; [|left]].
  split; [|done]. cbn. rewrite updateZ_updateZ_eq. unfold with_desc, with_cnt, with_tbl. cbn. by rewrite Hnt.
Qed.
End Tables.

(** ** Sequences of calls

    The library as a state machine whose steps are the [ipa_NATI_*] calls a
    client makes, and the machine its contract describes: a map from handles
    to translations for each memory type.  Every run of the library by a
    client that passes handles it was given, and in which the driver does not
    refuse a deletion, is a run of the contract. *)

Inductive nat_call :=
  | call_add_tbl (nmi ip n : Z)
  | call_del_tbl (tbl_hdl : Z)
  | call_add_rule (tbl_hdl : Z) (r : ipa_nat_ipv4_rule)
  | call_del_rule (tbl_hdl rule_hdl : Z).

Abbreviation tables := (list (option (gmap Z nat_flow))).

(** Status, handle (0 where the call returns none) and state. *)
Definition exec {K} {E : IpaEnv K} (s : nat_state K) (call : nat_call)
    : option (Z * Z * nat_state K) :=
  match call with
  | call_add_tbl nmi ip n => ipa_NATI_add_ipv4_tbl s nmi ip n
  | call_del_tbl h => '(ret, s') ← ipa_NATI_del_ipv4_table s h; Some (ret, 0, s')
  | call_add_rule h r =>
      '(ret, hdl, s') ← ipa_NATI_add_ipv4_rule s h (Some r) (Some 0);
      Some (ret, default 0 hdl, s')
  | call_del_rule h rh => '(ret, s') ← ipa_NATI_del_ipv4_rule s h rh; Some (ret, 0, s')
  end.

(** The table of a handle, if there is one. *)
Definition table_of (a : tables) (h : Z) : option (gmap Z nat_flow) :=
  if VALID_TBL_HDL h then m ← a.[(BREAK_TBL_HDL h).1]; m else None.

Definition user_rule_fits (r : ipa_nat_ipv4_rule) : bool :=
  let fits (x w : Z) := (0 <=? x) && (x <? 2 ^ w) in
  fits (u_target_ip r) 32 && fits (u_private_ip r) 32 && fits (u_target_port r) 16
  && fits (u_private_port r) 16 && fits (u_public_port r) 16 && fits (u_protocol r) 8
  && fits (u_pdn_index r) 8 && fits (u_redirect r) 8 && fits (u_enable r) 8
  && fits (u_time_stamp r) 32 && fits (u_uc_activation_index r) 16.

(** The client's side: handles of tables and rules that exist, rules whose
    fields fit their types and whose PDN index is one. *)
Definition permitted (a : tables) (call : nat_call) : bool :=
  match call with
  | call_add_tbl nmi ip n => 0 <=? n
  | call_del_tbl h => bool_decide (is_Some (table_of a h))
  | call_add_rule h r =>
      user_rule_fits r && (u_pdn_index r <? IPA_MAX_PDN_NUM) && bool_decide (is_Some (table_of a h))
  | call_del_rule h rh => bool_decide (is_Some (m ← table_of a h; m !! rh))
  end.

(** The driver's side: a deletion is not refused halfway. *)
Definition honoured (call : nat_call) (ret : Z) : bool :=
  match call with
  | call_del_tbl _ => ret =? 0
  | call_del_rule _ _ => negb (ret =? - EIO)
  | _ => true
  end.

(** The contract. *)
Inductive spec_step (a : tables) : nat_call -> Z -> Z -> tables -> Prop :=
  | spec_no_change call ret :
      ret <> 0 -> spec_step a call ret 0 a
  | spec_add_tbl nmi ip n ret :
      ret = 0 \/ ret = - EPERM -> a.[nmi] = Some None ->
      spec_step a (call_add_tbl nmi ip n) ret (MAKE_TBL_HDL 1 nmi) a.[nmi <- Some ∅]
  | spec_del_tbl h :
      spec_step a (call_del_tbl h) 0 0 a.[(BREAK_TBL_HDL h).1 <- None]
  | spec_add_rule h r hdl m pub :
      a.[(BREAK_TBL_HDL h).1] = Some (Some m) -> m !! hdl = None -> VALID_RULE_HDL hdl = true ->
      spec_step a (call_add_rule h r) 0 hdl
        a.[(BREAK_TBL_HDL h).1 <- Some (<[hdl := flow_of pub r]> m)]
  (** the mutex could not be released: the rule is in, its handle is lost *)
  | spec_add_rule_lost h r hdl m pub :
      a.[(BREAK_TBL_HDL h).1] = Some (Some m) -> m !! hdl = None ->
      spec_step a (call_add_rule h r) (- EPERM) 0
        a.[(BREAK_TBL_HDL h).1 <- Some (<[hdl := flow_of pub r]> m)]
  | spec_del_rule h rh ret m :
      ret = 0 \/ ret = - EPERM -> a.[(BREAK_TBL_HDL h).1] = Some (Some m) ->
      spec_step a (call_del_rule h rh) ret 0 a.[(BREAK_TBL_HDL h).1 <- Some (delete rh m)].

(** Runs of the contract and of the library, with what each call returned. *)
Inductive spec_run (a : tables) : list (nat_call * Z * Z) -> tables -> Prop :=
  | spec_run_nil : spec_run a [] a
  | spec_run_cons call ret hdl a1 tr a2 :
      spec_step a call ret hdl a1 -> spec_run a1 tr a2 ->
      spec_run a ((call, ret, hdl) :: tr) a2.

Lemma table_of_Some a h m :
  table_of a h = Some m -> VALID_TBL_HDL h = true /\ a.[(BREAK_TBL_HDL h).1] = Some (Some m).
Proof.
  unfold table_of. destruct (VALID_TBL_HDL h); [|done]. destruct (a.[_]) as [x|]; [|done].
  cbn. by intros ->.
Qed.

Lemma user_rule_fits_wf r : user_rule_fits r = true -> wf_user_rule r.
Proof.
  unfold user_rule_fits. rewrite !andb_true_iff, !Z.leb_le, !Z.ltb_lt. intros H.
  split; lia.
Qed.

Section Runs.
Context {K : Type} {E : IpaEnv K}.

Inductive nat_run (s : nat_state K) : list (nat_call * Z * Z) -> nat_state K -> Prop :=
  | nat_run_nil : nat_run s [] s
  | nat_run_cons call ret hdl s1 tr s2 :
      permitted (state_rules s) call = true -> honoured call ret = true ->
      exec s call = Some (ret, hdl, s1) -> nat_run s1 tr s2 ->
      nat_run s ((call, ret, hdl) :: tr) s2.

(** The run of the given calls, when each is permitted and honoured. *)
Fixpoint run_calls (s : nat_state K) (calls : list nat_call)
    : option (list (nat_call * Z * Z) * nat_state K) :=
  match calls with
  | [] => Some ([], s)
  | call :: calls' =>
      '(ret, hdl, s1) ← exec s call;
      if permitted (state_rules s) call && honoured call ret then
        '(tr, s2) ← run_calls s1 calls'; Some ((call, ret, hdl) :: tr, s2)
      else None
  end.

Lemma run_calls_run s calls tr s' : run_calls s calls = Some (tr, s') -> nat_run s tr s'.
Proof.
  revert s tr. induction calls as [|call calls IH]; intros s tr; cbn [run_calls].
  - intros [= <- <-]. constructor.
  - destruct (exec s call) as [[[ret hdl] s1]|] eqn:Ee; [|done]. cbn [mbind option_bind].
    destruct (_ && _) eqn:Eb; [|done]. apply andb_true_iff in Eb as [Hp Hh].
    destruct (run_calls s1 calls) as [[tr1 s2]|] eqn:Er; [|done]. cbn [mbind option_bind].
    intros [= <- <-]. econstructor; eauto.
Qed.

Context {laws : IpaEnvLaws K} {mlaws : IpaMemLaws K}.

(** A permitted call is defined; an honoured one follows the contract. *)
Lemma exec_spec (s : nat_state K) call :
  nat_inv s -> permitted (state_rules s) call = true ->
  exists ret hdl s',
    exec s call = Some (ret, hdl, s')
    /\ (honoured call ret = true ->
        nat_inv s' /\ spec_step (state_rules s) call ret hdl (state_rules s')).
Proof.
  intros Hinv. destruct call as [nmi ip n|h|h r|h rh]; cbn [permitted exec].
  - intros Hn%Z.leb_le. destruct (NATI_add_tbl_spec s nmi ip n Hinv Hn)
      as (ret & hdl & s' & Ea & Hinv' & Hc).
    eexists _, _, _. split; [exact Ea|]. intros _. split; [done|].
    destruct Hc as [(-> & Hr & ->)|(-> & _ & Hr & Hn0 & ->)]; by constructor.
  - intros [m (Hh & Hm)%table_of_Some]%bool_decide_eq_true.
    destruct (NATI_del_tbl_spec s h _ m Hinv Hh eq_refl Hm) as (ret & s' & Ed & Hok).
    rewrite Ed. eexists _, _, _. split; [reflexivity|]. cbn. intros ->%Z.eqb_eq.
    destruct (Hok eq_refl) as [H1 ->]. split; [done|]. by constructor.
  - intros [[Hu%user_rule_fits_wf Hlt%Z.ltb_lt]%andb_true_iff
      [m (Hh & Hm)%table_of_Some]%bool_decide_eq_true]%andb_true_iff.
    destruct (NATI_add_rule_spec s h r 0 _ m Hinv Hh eq_refl Hm Hu Hlt)
      as (ret & hdl & s' & Ea & Hinv' & A0 & A1).
    rewrite Ea. eexists _, _, _. split; [reflexivity|]. intros _. split; [done|]. cbn.
    destruct (decide (ret = 0)) as [->|Hne].
    + destruct (A0 eq_refl) as (pdn & _ & B1 & B2 & ->). by constructor.
    + destruct (A1 Hne) as (-> & [->|(-> & hdl' & v & (pub & ->) & B1 & ->)]); by constructor.
  - intros [v Hk]%bool_decide_eq_true. apply bind_Some in Hk as (m & (Hh & Hm)%table_of_Some & Hk).
    destruct (NATI_del_rule_spec s h rh _ m Hinv Hh eq_refl Hm (ex_intro _ v Hk))
      as (ret & s' & Ed & A0 & A1 & A2).
    rewrite Ed. eexists _, _, _. split; [reflexivity|]. cbn. intros Hne%negb_true_iff%Z.eqb_neq.
    destruct A2 as [Hr|[Hr|[Hr|Hr]]]; [| | |done].
    + destruct A0 as [H1 ->]; [by left|]. split; [done|]. by constructor; [left|].
    + destruct A0 as [H1 ->]; [by right|]. split; [done|]. by constructor; [right|].
    + destruct (A1 Hr) as [H1 ->]. split; [done|]. rewrite Hr. by constructor.
Qed.

Lemma nat_run_spec (s : nat_state K) tr s' :
  nat_inv s -> nat_run s tr s' -> nat_inv s' /\ spec_run (state_rules s) tr (state_rules s').
Proof.
  intros Hinv Hr. induction Hr as [|s call ret hdl s1 tr s2 Hp Hh He Hr IH]; [by split; [|constructor]|].
  destruct (exec_spec s call Hinv Hp) as (ret' & hdl' & s1' & He' & Hok).
  rewrite He in He'. injection He' as <- <- <-. destruct (Hok Hh) as [H1 H2].
  destruct (IH H1) as [H3 H4]. split; [done|]. by econstructor.
Qed.
End Runs.
