(* ===== verification/MachRun.v ===== *)
(** * Running the state machine

    What a trigger does besides its callback: the mutex and the clock leave
    the machine's state alone, three levels of triggers are enough, and the
    status of a trigger is the status of releasing the mutex. *)
From S2P Require Import Prelude Bitfield Table Sizing TableDma NatRule Env NatTable NatOps.
From S2P Require Import NatWalk NatMap Statemach Chain TableFacts NatRuleFacts NatWf NatSpec.
From S2P Require Import NatState.

Section Run.
Context {K : Type} {E : IpaEnv K}.
Implicit Types (m : nat_mgr K).

(** ** The mutex and the clock *)

(** Only the world and the initialisation flag may differ. *)
Definition same_machine m m' : Prop :=
  nati_obj m' = nati_obj m /\ map_array m' = map_array m.

Lemma same_machine_trans m1 m2 m3 : same_machine m1 m2 -> same_machine m2 m3 -> same_machine m1 m3.
Proof. intros [E1 E2] [E3 E4]. split; congruence. Qed.

Lemma mutex_init_machine m : same_machine m (mutex_init m).2.
Proof.
  unfold mutex_init. destruct (env_mutexattr_init _) as [r1 k1]. destruct (r1 =? 0); [|done].
  destruct (env_mutexattr_settype _) as [r2 k2]. destruct (r2 =? 0); [|done].
  destruct (env_mutex_init _) as [r3 k3]. by destruct (r3 =? 0).
Qed.

Lemma take_mutex_machine m : same_machine m (take_mutex m).2.
Proof.
  unfold take_mutex. destruct (nat_mutex_init m).
  - by destruct (env_lock _).
  - pose proof (mutex_init_machine m) as H. destruct (mutex_init m) as [r m1]. cbn [snd] in H.
    destruct (r =? 0); [|done]. by destruct (env_lock _).
Qed.

Lemma give_mutex_machine m : same_machine m (give_mutex m).2.
Proof. unfold give_mutex. destruct (nat_mutex_init m); [|done]. by destruct (env_unlock _). Qed.

Lemma vote_clock_machine m v r m' :
  ipa_nat_vote_clock m v = Some (r, m') -> same_machine m m'.
Proof.
  unfold ipa_nat_vote_clock. destruct (negb _); [by intros [= _ <-]|].
  intros ([r1 s] & _ & [= _ <-])%bind_Some. done.
Qed.

(** ** Enough fuel *)

(** Two machines whose callbacks agree run a trigger alike. *)
Lemma statemach_cb f1 f2 m trig args :
  (forall m', nati_obj m' = nati_obj m ->
     _state_mach_tbl (statemach f1) (curr_state (nati_obj m')) trig m' trig args
     = _state_mach_tbl (statemach f2) (curr_state (nati_obj m')) trig m' trig args) ->
  statemach (S f1) m trig args = statemach (S f2) m trig args.
Proof.
  intros H. cbn [statemach]. pose proof (take_mutex_machine m) as Ht.
  destruct (take_mutex m) as [r m1]. cbn [snd] in Ht. destruct (negb (r =? 0)); [done|].
  destruct (VOTE_REQUIRED _ _).
  - destruct (ipa_nat_vote_clock m1 IPA_APP_CLK_VOTE) as [[v m2]|] eqn:Ev; [|done].
    pose proof (vote_clock_machine _ _ _ _ Ev) as Hv. cbn [mbind option_bind].
    destruct (negb (v =? 0)); [done|]. rewrite H; [done|]. destruct Ht, Hv. congruence.
  - cbn [mbind option_bind]. rewrite H by apply Ht. done.
Qed.

Lemma goto_fuel f1 f2 m trig args :
  trig = NATI_TRIG_GOTO_DDR \/ trig = NATI_TRIG_GOTO_SRAM ->
  statemach (S f1) m trig args = statemach (S f2) m trig args.
Proof.
  intros Ht. apply statemach_cb. intros m' _.
  by destruct Ht as [->| ->], (curr_state (nati_obj m')).
Qed.

(** An addition leaves the machine's states alone. *)
Lemma AddRuleToTbl_states m trig args r args' m' :
  _smAddRuleToTbl m trig args = Some (r, args', m') ->
  curr_state (nati_obj m') = curr_state (nati_obj m)
  /\ hold_state (nati_obj m') = hold_state (nati_obj m).
Proof.
  unfold _smAddRuleToTbl. destruct args; try done.
  intros ([[r1 h1] s1] & _ & [= <- <- <-])%bind_Some. by destruct (r1 =? 0).
Qed.

Lemma add_rule_fuel n m args :
  curr_state (nati_obj m) <> NATI_STATE_HYBRID ->
  statemach (S n) m NATI_TRIG_ADD_RULE args = statemach 1 m NATI_TRIG_ADD_RULE args.
Proof.
  intros Hs. apply statemach_cb. intros m' Hm. rewrite <- Hm in Hs.
  destruct (curr_state (nati_obj m')) eqn:Ec; try done.
  cbn [_state_mach_tbl]. unfold _smAddRuleHybrid. destruct args; try done.
  destruct (_smAddRuleToTbl _ _ _) as [[[r a] m1]|] eqn:Ea; [|done]. cbn [mbind option_bind].
  apply AddRuleToTbl_states in Ea as [Es _]. destruct a; try done.
  destruct (r =? 0); [done|]. unfold in_state. rewrite Es, Ec. done.
Qed.

Section Ext.
Context (sm1 sm2 : nat_mgr K -> ipa_nati_trigger -> arb (K := K) -> option (Z * arb (K := K) * nat_mgr K)).
Hypothesis (Hsw : forall m args, sm1 m NATI_TRIG_TBL_SWITCH args = sm2 m NATI_TRIG_TBL_SWITCH args)
  (Hadd : forall m args, curr_state (nati_obj m) <> NATI_STATE_HYBRID ->
     sm1 m NATI_TRIG_ADD_RULE args = sm2 m NATI_TRIG_ADD_RULE args)
  (Hgoto : forall m trig args, trig = NATI_TRIG_GOTO_DDR \/ trig = NATI_TRIG_GOTO_SRAM ->
     sm1 m trig args = sm2 m trig args).

Lemma AddSramAndDdr_ext m trig args :
  _smAddSramAndDdrTbl sm1 m trig args = _smAddSramAndDdrTbl sm2 m trig args.
Proof.
  unfold _smAddSramAndDdrTbl. destruct args as [|ip n h ty| | | | | |]; [reflexivity| |reflexivity..].
  destruct (forget_rules m SRAM_SUB) as [m1|]; [|reflexivity]. cbn [mbind option_bind].
  destruct (forget_rules m1 DDR_SUB) as [m2|]; [|reflexivity]. cbn [mbind option_bind].
  destruct (_smAddSramTbl _ _ _) as [[[r1 a1] m3]|]; [|reflexivity]. cbn [mbind option_bind].
  destruct (r1 =? 0); [|reflexivity]. destruct (_ <=? _); [reflexivity|].
  destruct (_smAddDdrTbl _ _ _) as [[[r2 a2] m4]|]; [|reflexivity]. cbn [mbind option_bind].
  by rewrite Hgoto by (by right).
Qed.

Lemma SwitchFromSramToDdr_ext m trig args :
  _smSwitchFromSramToDdr sm1 m trig args = _smSwitchFromSramToDdr sm2 m trig args.
Proof.
  unfold _smSwitchFromSramToDdr. destruct (collect_stats _ _ _); [|reflexivity].
  cbn [mbind option_bind]. by rewrite Hgoto by (by left).
Qed.

Lemma SwitchFromDdrToSram_ext m trig args :
  _smSwitchFromDdrToSram sm1 m trig args = _smSwitchFromDdrToSram sm2 m trig args.
Proof.
  unfold _smSwitchFromDdrToSram. destruct (collect_stats _ _ _); [|reflexivity].
  cbn [mbind option_bind]. by rewrite Hgoto by (by right).
Qed.

Lemma AddRuleHybrid_ext m args :
  _smAddRuleHybrid sm1 m NATI_TRIG_ADD_RULE args = _smAddRuleHybrid sm2 m NATI_TRIG_ADD_RULE args.
Proof.
  unfold _smAddRuleHybrid. destruct args as [| | | | |th r h| |]; [reflexivity..| |reflexivity|reflexivity].
  destruct (_smAddRuleToTbl _ _ _) as [[[r1 a] m1]|]; [|reflexivity]. cbn [mbind option_bind].
  destruct a as [| | | | |th1 r2 h1| |]; [reflexivity..| |reflexivity|reflexivity].
  destruct (r1 =? 0); [reflexivity|]. destruct (_ && _); [|reflexivity].
  rewrite Hsw. destruct (sm2 _ _ _) as [[[r3 a2] m2]|]; [|reflexivity].
  cbn [mbind option_bind]. destruct (negb _); [reflexivity|]. apply Hadd. discriminate.
Qed.

Lemma DelRuleHybrid_ext m args :
  _smDelRuleHybrid sm1 m NATI_TRIG_DEL_RULE args = _smDelRuleHybrid sm2 m NATI_TRIG_DEL_RULE args.
Proof.
  unfold _smDelRuleHybrid. destruct args as [| | | | | |th h|]; [reflexivity..| |reflexivity].
  destruct (ipa_nat_map_del _ _ _) as [[[r [v|]] ms]|]; [|reflexivity..]. cbn [mbind option_bind].
  destruct (ipa_nat_map_del _ _ _) as [[[r1 v1] ms1]|]; [|reflexivity]. cbn [mbind option_bind].
  destruct (_smDelRuleFromTbl _ _ _) as [[[r2 a2] m2]|]; [|reflexivity]. cbn [mbind option_bind].
  destruct (_ && _); [|reflexivity]. by rewrite Hsw.
Qed.
End Ext.

Lemma switch_fuel n m args :
  statemach (2 + n) m NATI_TRIG_TBL_SWITCH args = statemach 2 m NATI_TRIG_TBL_SWITCH args.
Proof.
  apply statemach_cb. intros m' _.
  destruct (curr_state (nati_obj m')); cbn [_state_mach_tbl]; [reflexivity..| | |reflexivity].
  - apply SwitchFromSramToDdr_ext, goto_fuel.
  - apply SwitchFromDdrToSram_ext, goto_fuel.
Qed.

Lemma add_tbl_fuel n m args :
  curr_state (nati_obj m) <> NATI_STATE_NULL ->
  statemach (2 + n) m NATI_TRIG_ADD_TABLE args = statemach 2 m NATI_TRIG_ADD_TABLE args.
Proof.
  intros Hs. apply statemach_cb. intros m' Hm. rewrite <- Hm in Hs.
  destruct (curr_state (nati_obj m')); cbn [_state_mach_tbl]; [done|reflexivity..| |reflexivity|reflexivity].
  apply AddSramAndDdr_ext, goto_fuel.
Qed.

Lemma first_tbl_fuel n m args :
  _smFirstTbl (statemach (2 + n)) m NATI_TRIG_ADD_TABLE args
  = _smFirstTbl (statemach 2) m NATI_TRIG_ADD_TABLE args.
Proof.
  unfold _smFirstTbl. destruct args as [|ip h n1 ty| | | | | |]; [reflexivity| |reflexivity..].
  apply add_tbl_fuel. unfold SET_NATIOBJ_STATE. cbn [nati_obj with_obj curr_state with_states].
  case_match eqn:Eh.
  - by apply andb_true_iff in Eh as [_ Eh%negb_true_iff%bool_decide_eq_false].
  - unfold mem_type_str_to_ipa_nati_state. by repeat case_match.
Qed.

Lemma callback_fuel n m trig args :
  _state_mach_tbl (statemach (2 + n)) (curr_state (nati_obj m)) trig m trig args
  = _state_mach_tbl (statemach 2) (curr_state (nati_obj m)) trig m trig args.
Proof.
  assert (Hadd : forall m args, curr_state (nati_obj m) <> NATI_STATE_HYBRID ->
    statemach (2 + n) m NATI_TRIG_ADD_RULE args = statemach 2 m NATI_TRIG_ADD_RULE args).
  { intros m1 a1 H. by rewrite (add_rule_fuel (1 + n)), (add_rule_fuel 1). }
  pose proof (switch_fuel n) as Hsw. pose proof (goto_fuel (1 + n) 1) as Hgoto.
  pose proof (first_tbl_fuel n) as Hfirst. change (S (1 + n)) with (2 + n)%nat in Hgoto.
  revert Hadd Hsw Hgoto Hfirst. generalize (statemach (2 + n)) (statemach 2).
  intros sm1 sm2 Hadd Hsw Hgoto Hfirst.
  destruct trig; cycle 1.
  1: destruct (curr_state (nati_obj m)); cbn [_state_mach_tbl];
       [apply Hfirst|reflexivity|reflexivity|by apply AddSramAndDdr_ext|reflexivity..].
  5: destruct (curr_state (nati_obj m)); cbn [_state_mach_tbl];
       [reflexivity..|by apply AddRuleHybrid_ext|by apply AddRuleHybrid_ext|reflexivity].
  5: destruct (curr_state (nati_obj m)); cbn [_state_mach_tbl];
       [reflexivity..|by apply DelRuleHybrid_ext|by apply DelRuleHybrid_ext|reflexivity].
  5: destruct (curr_state (nati_obj m)); cbn [_state_mach_tbl];
       [reflexivity..|by apply SwitchFromSramToDdr_ext|by apply SwitchFromDdrToSram_ext|reflexivity].
  all: by destruct (curr_state (nati_obj m)).
Qed.

Lemma statemach_enough n m trig args :
  statemach (3 + n) m trig args = ipa_nati_statemach m trig args.
Proof. apply statemach_cb. intros m' _. apply callback_fuel. Qed.

(** ** The status of a trigger *)

(** Releasing the mutex, once it was taken, gives the status. *)
Lemma statemach_status fuel m trig args ret args' m' :
  statemach fuel m trig args = Some (ret, args', m') ->
  ((take_mutex m).1 <> 0 /\ ret = (take_mutex m).1 /\ args' = args)
  \/ ((take_mutex m).1 = 0 /\ exists m1, (ret, m') = give_mutex m1).
Proof.
  destruct fuel as [|f]; [done|]. cbn [statemach]. destruct (take_mutex m) as [r m1]. cbn [fst].
  destruct (Z.eqb_spec r 0) as [->|Hr]; cbn [negb].
  2: { intros [= <- <- <-]. by left. }
  intros ([v m2] & _ & H)%bind_Some. right. split; [done|].
  destruct (negb (v =? 0)).
  { destruct (give_mutex m2) as [r3 m3] eqn:Eg. injection H as <- _ <-. by exists m2. }
  apply bind_Some in H as ([[r3 a3] m3] & _ & H). apply bind_Some in H as ([r4 m4] & _ & H).
  destruct (give_mutex m4) as [r5 m5] eqn:Eg. injection H as <- _ <-. by exists m4.
Qed.
End Run.

(** ** Steps of the machine that leave the tables alone

    The mutex, the clock and the change of the hardware's focus: the rules,
    the PDNs, the handle maps and the invariant are the same afterwards.  A
    trigger runs its callback between two such steps. *)

Section NatQuiet.
Context {K : Type} {E : IpaEnv K}.
Implicit Types (s : nat_state K).

(** The tables, their rules and the PDNs are the same. *)
Definition same_tables s s' : Prop :=
  pdns s' = pdns s /\ state_rules s' = state_rules s
  /\ forall mem R, (state_rules s).[mem] = Some (Some R) ->
       (ipv4_nat_cache s').[mem] = (ipv4_nat_cache s).[mem].

Lemma same_tables_refl s : same_tables s s.
Proof. done. Qed.

Lemma same_tables_env s k : same_tables s (with_env s k).
Proof. done. Qed.

Lemma same_tables_trans s1 s2 s3 : same_tables s1 s2 -> same_tables s2 s3 -> same_tables s1 s3.
Proof.
  intros (P1 & R1 & C1) (P2 & R2 & C2). split; [congruence|]. split; [congruence|].
  intros mem R HR. rewrite (C2 mem R), (C1 mem R); [done|done|by rewrite R1].
Qed.

Lemma unlock_nat_quiet ret s :
  nat_inv s -> same_tables s (unlock_nat ret s).2 /\ nat_inv (unlock_nat ret s).2.
Proof.
  intros H. unfold unlock_nat. destruct (env_unlock (env s)) as [u k]. split; [done|by apply nat_inv_env].
Qed.

(** The table of a memory type. *)
Lemma table_of_rules s mem R :
  nat_inv s -> (state_rules s).[mem] = Some (Some R) ->
  exists c nt, (ipv4_nat_cache s).[mem] = Some c /\ ip4_tbl c = [nt] /\ table_cnt c = 1
    /\ wf_nat nt /\ nmi (table nt) = mem /\ R = rules nt /\ is_Some (ipa_desc c)
    /\ md_valid (mem_desc nt) = true.
Proof.
  intros Hinv HR. unfold state_rules in HR. rewrite map_lookupZ in HR.
  destruct ((ipv4_nat_cache s).[mem]) as [c|] eqn:Hc; [|done]. cbn in HR. injection HR as HR.
  destruct (ni_cache _ Hinv _ _ Hc) as (nt & Hnt & [[H0 _]|(H1 & Hmd & Hwf & Hd & Hn)]).
  - unfold cache_rules in HR. by rewrite H0 in HR.
  - exists c, nt. unfold cache_rules in HR. rewrite H1, Hnt in HR. by injection HR as <-.
Qed.

(** Opening the descriptor of a cache for its first table. *)
Lemma open_quiet s mem c opened c' k' :
  nat_inv s -> (ipv4_nat_cache s).[mem] = Some c -> open_for_table c (env s) = (opened, c', k') ->
  let s' := with_env (with_cache s mem c') k' in
  same_tables s s' /\ nat_inv s' /\ (opened = true -> is_Some (ipa_desc c')).
Proof.
  intros Hinv Hc Ho s'. pose proof (ni_cache _ Hinv _ _ Hc) as Hok.
  assert (Hr : cache_rules c' = cache_rules c /\ cache_ok mem c'
    /\ (forall R, cache_rules c = Some R -> c' = c) /\ (opened = true -> is_Some (ipa_desc c'))).
  { unfold open_for_table in Ho. destruct (ipa_desc c) as [d|] eqn:Ed.
    - injection Ho as <- <- <-. by rewrite Ed.
    - destruct (ipa_descriptor_open (env s)) as [d kk]. injection Ho as <- <- <-.
      destruct Hok as (nt & Hnt & [[H0 Hv]|(_ & _ & _ & Hd & _)]); [|rewrite Ed in Hd; by destruct Hd].
      split; [done|]. split; [exists nt; split; [done|by left]|]. split; [|by destruct d].
      intros R. unfold cache_rules. by rewrite H0. }
  destruct Hr as (R1 & R2 & R3 & R4). split; [|split; [|done]].
  - split; [done|]. split; [by apply (state_rules_same _ mem c)|]. intros mem' R HR.
    change (ipv4_nat_cache s') with ((ipv4_nat_cache s).[mem <- c']). destruct (decide (mem = mem')) as [<-|Hne].
    + rewrite (state_rules_lookup _ _ _ Hc) in HR. injection HR as HR. rewrite (R3 _ HR), Hc.
      apply lookupZ_updateZ_eq. by eapply lookupZ_Some_range.
    + by rewrite lookupZ_updateZ_ne.
  - by apply nat_inv_env, nat_inv_with_cache.
Qed.

Lemma vote_quiet s v :
  nat_inv s ->
  exists r s', ipa_nati_vote_clock s v = Some (r, s') /\ same_tables s s' /\ nat_inv s'.
Proof.
  intros Hinv. destruct (nat_inv_cache s 1 Hinv) as (c & Hc & _); [by right|].
  unfold ipa_nati_vote_clock. change IPA_NAT_MEM_IN_SRAM with 1. rewrite Hc. cbn [mbind option_bind].
  destruct (open_for_table c (env s)) as [[opened c'] k'] eqn:Eo.
  destruct (open_quiet _ _ _ _ _ _ Hinv Hc Eo) as (Hs & Hi & Hd).
  destruct opened; cbn [negb]; [|by eexists _, _].
  destruct (Hd eq_refl) as [d Hd']. rewrite Hd'. cbn [mbind option_bind].
  destruct (env_vote_clock _ _ _) as [r k2]. eexists _, _. split; [reflexivity|].
  split; [exact Hs|by apply nat_inv_env].
Qed.

Lemma post_init_quiet s tbl_hdl mem R :
  nat_inv s -> VALID_TBL_HDL tbl_hdl = true -> (BREAK_TBL_HDL tbl_hdl).1 = mem ->
  (state_rules s).[mem] = Some (Some R) ->
  exists r s', ipa_NATI_post_ipv4_init_cmd s tbl_hdl = Some (r, s') /\ same_tables s s' /\ nat_inv s'.
Proof.
  intros Hinv Hh Hm HR. destruct (break_tbl_hdl _ Hh) as (mem' & Eb & _ & Hv).
  rewrite Eb in Hm. cbn in Hm. subst mem'.
  destruct (table_of_rules s mem R Hinv HR) as (c & nt & Hc & Hnt & H1 & _ & _ & _ & [d Hd] & _).
  unfold ipa_NATI_post_ipv4_init_cmd. rewrite Eb, Hv, Hc. cbn [negb mbind option_bind].
  destruct (env_lock (env s)) as [l k1]. destruct (l =? 0); cbn [negb].
  2: { eexists _, _. split; [reflexivity|]. split; [done|by apply nat_inv_env]. }
  rewrite H1, Hnt. change ([nt].[1 - 1]) with (Some nt). cbn [Z.eqb mbind option_bind].
  unfold ipa_nati_post_ipv4_init_cmd. rewrite Hd. cbn [mbind option_bind].
  destruct (env_v4_init _ _ _) as [r k2].
  set (s1 := with_env (with_env s k1) k2). assert (Hi1 : nat_inv s1) by (by apply nat_inv_env, nat_inv_env).
  destruct (r =? 0); cbn [negb].
  - destruct (unlock_nat_quiet r (with_active s1 (Some mem))) as [U1 U2]; [by apply nat_inv_active|].
    destruct (unlock_nat r _) as [r3 s3]. by eexists _, _.
  - destruct (unlock_nat_quiet r s1) as [U1 U2]; [done|].
    destruct (unlock_nat r _) as [r3 s3]. by eexists _, _.
Qed.
End NatQuiet.

(** ** The machine *)

Section MachQuiet.
Context {K : Type} {E : IpaEnv K}.
Implicit Types (m : nat_mgr K).

Definition quiet m m' : Prop :=
  same_machine m m' /\ same_tables (mgr_nat m) (mgr_nat m')
  /\ (nat_inv (mgr_nat m) -> nat_inv (mgr_nat m')).

Lemma quiet_refl m : quiet m m.
Proof. done. Qed.

Lemma quiet_trans m1 m2 m3 : quiet m1 m2 -> quiet m2 m3 -> quiet m1 m3.
Proof.
  intros (A1 & B1 & C1) (A2 & B2 & C2). split; [by eapply same_machine_trans|].
  split; [by eapply same_tables_trans|auto].
Qed.

Lemma quiet_env m k : quiet m (with_mgr_env m k).
Proof. split; [done|]. split; [done|]. apply nat_inv_env. Qed.

Lemma take_mutex_quiet m : quiet m (take_mutex m).2.
Proof.
  assert (Hl : forall m, quiet m (let '(ret, k) := env_lock (mgr_env m) in (ret, with_mgr_env m k)).2).
  { intros m1. destruct (env_lock _) as [r k]. apply quiet_env. }
  unfold take_mutex. destruct (nat_mutex_init m); [apply Hl|].
  assert (Hi : quiet m (mutex_init m).2).
  { unfold mutex_init. destruct (env_mutexattr_init _) as [r1 k1].
    pose proof (quiet_env m k1) as Q1. set (m1 := with_mgr_env m k1) in *.
    destruct (negb (r1 =? 0)); [done|]. destruct (env_mutexattr_settype _) as [r2 k2].
    pose proof (quiet_trans _ _ _ Q1 (quiet_env m1 k2)) as Q2. set (m2 := with_mgr_env m1 k2) in *.
    destruct (negb (r2 =? 0)); [done|]. destruct (env_mutex_init _) as [r3 k3].
    pose proof (quiet_trans _ _ _ Q2 (quiet_env m2 k3)) as Q3. set (m3 := with_mgr_env m2 k3) in *.
    by destruct (negb (r3 =? 0)). }
  destruct (mutex_init m) as [r m1]. cbn [snd] in Hi.
  destruct (r =? 0); [|done]. eapply quiet_trans; [exact Hi|apply Hl].
Qed.

Lemma give_mutex_quiet m : quiet m (give_mutex m).2.
Proof.
  unfold give_mutex. destruct (nat_mutex_init m); [|done].
  destruct (env_unlock _) as [u k]. apply quiet_env.
Qed.

Lemma vote_clock_quiet m v :
  nat_inv (mgr_nat m) -> exists r m', ipa_nat_vote_clock m v = Some (r, m') /\ quiet m m'.
Proof.
  intros Hinv. unfold ipa_nat_vote_clock. destruct (negb _); [by eexists _, _|].
  destruct (vote_quiet (mgr_nat m) v Hinv) as (r & s & -> & H1 & H2). cbn [mbind option_bind].
  by eexists _, _.
Qed.

(** A trigger runs its callback between two quiet steps, or not at all. *)
Lemma statemach_runs f m trig args :
  nat_inv (mgr_nat m) ->
  (forall m1, quiet m m1 ->
     exists r a m2, _state_mach_tbl (statemach f) (curr_state (nati_obj m1)) trig m1 trig args
                    = Some (r, a, m2) /\ nat_inv (mgr_nat m2)) ->
  exists ret args' m', statemach (S f) m trig args = Some (ret, args', m')
    /\ ((quiet m m' /\ args' = args)
        \/ exists m1 r m2, quiet m m1
           /\ _state_mach_tbl (statemach f) (curr_state (nati_obj m1)) trig m1 trig args
              = Some (r, args', m2)
           /\ quiet m2 m').
Proof.
  intros Hinv Hcb. cbn [statemach]. pose proof (take_mutex_quiet m) as Q1.
  destruct (take_mutex m) as [l m1]. cbn [snd] in Q1. assert (Hi1 : nat_inv (mgr_nat m1)) by (by apply Q1).
  destruct (negb (l =? 0)); [eexists _, _, _; split; [reflexivity|by left]|].
  set (vote := VOTE_REQUIRED _ _).
  assert (exists v m2, (if vote then ipa_nat_vote_clock m1 IPA_APP_CLK_VOTE else Some (0, m1)) = Some (v, m2)
    /\ quiet m1 m2) as (v & m2 & Ev & Q2).
  { destruct vote; [by apply vote_clock_quiet|by eexists _, _]. }
  rewrite Ev. cbn [mbind option_bind]. pose proof (quiet_trans _ _ _ Q1 Q2) as Q12.
  destruct (negb (v =? 0)).
  { pose proof (give_mutex_quiet m2) as Q3. destruct (give_mutex m2) as [r m3]. cbn [snd] in Q3.
    eexists _, _, _. split; [reflexivity|]. left. split; [by eapply quiet_trans|done]. }
  destruct (Hcb m2 Q12) as (r & a & m3 & Ec & Hi3). rewrite Ec. cbn [mbind option_bind].
  assert (exists v m4, (if vote then ipa_nat_vote_clock m3 IPA_APP_CLK_DEVOTE else Some (0, m3)) = Some (v, m4)
    /\ quiet m3 m4) as (v4 & m4 & Ev4 & Q4).
  { destruct vote; [by apply vote_clock_quiet|by eexists _, _]. }
  rewrite Ev4. cbn [mbind option_bind]. pose proof (give_mutex_quiet m4) as Q5.
  destruct (give_mutex m4) as [r5 m5]. cbn [snd] in Q5. eexists _, _, _. split; [reflexivity|].
  right. exists m2, r, m3. split; [done|]. split; [done|]. by eapply quiet_trans.
Qed.
End MachQuiet.
