(* ===== verification/NatStats.v ===== *)
(** * Clearing a NAT table, measuring its chains and reading it *)
From Stdlib Require Import SpecFloat.
From S2P Require Import Prelude Bitfield Chain Table Sizing TableFacts TableDma TableHandle.
From S2P Require Import NatRule NatRuleFacts Env NatTable NatOps NatWalk NatWf NatDel NatSpec.
From S2P Require Import NatState Statemach MachRun.

(** ** Clearing *)

Lemma wf_layout_memory {U} I L mok (t : ipa_table U) : wf_layout I L mok t -> wf_memory t.
Proof.
  intros Hl. pose proof (wl_base _ _ _ _ Hl). pose proof (wl_tot _ _ _ _ Hl).
  pose proof (wl_slots _ _ _ _ Hl). destruct Hl. split; (done || lia).
Qed.

Lemma clear_table_spec nt :
  wf_nat_shape nt ->
  exists nt', clear_table nt = Some nt' /\ wf_nat nt' /\ rules nt' = ∅
    /\ mem_desc nt' = mem_desc nt /\ same_shape (table nt) (table nt').
Proof.
  intros Hs. pose proof (ns_layout _ Hs) as Hl. pose proof (ns_idx_layout _ Hs) as Hl2.
  unfold clear_table. rewrite (reset_spec (table nt)) by (by eapply wf_layout_memory).
  cbn [mbind option_bind]. rewrite (reset_spec (index_table nt)) by (by eapply wf_layout_memory).
  cbn [mbind option_bind]. rewrite <- (wl_tot _ _ _ _ Hl), <- (wl_tot _ _ _ _ Hl2).
  set (nt' := with_index_table _ _).
  assert (Hlen : forall n : Z, 0 <= n -> lengthZ (replicate (Z.to_nat n) 0) = n)
    by (intros; unfold lengthZ; rewrite length_replicate; lia).
  pose proof (wl_base _ _ _ _ Hl). pose proof (wl_expn _ _ _ _ Hl). pose proof (wl_tot _ _ _ _ Hl).
  pose proof (wl_base _ _ _ _ Hl2). pose proof (wl_expn _ _ _ _ Hl2). pose proof (wl_tot _ _ _ _ Hl2).
  assert (Hsh : same_shape (table nt) (table nt')).
  { repeat split. cbn. rewrite Hlen by lia. by rewrite (wl_slots _ _ _ _ Hl). }
  assert (Hsh2 : same_shape (index_table nt) (index_table nt')).
  { repeat split. cbn. rewrite Hlen by lia. by rewrite (wl_slots _ _ _ _ Hl2). }
  assert (Hs' : wf_nat_shape nt').
  { apply (wf_nat_shape_same nt); try done; [apply (wl_meta _ _ _ _ Hl)|apply (wl_meta _ _ _ _ Hl2)]. }
  destruct (wf_nat_cleared nt' Hs') as [W1 W2]; try done.
  exists nt'. split; [done|]. split; [done|]. split; [by apply rules_none|]. done.
Qed.

Lemma NATI_clear_spec {K} {E : IpaEnv K} (s : nat_state K) tbl_hdl nmi m :
  nat_inv s -> VALID_TBL_HDL tbl_hdl = true -> (BREAK_TBL_HDL tbl_hdl).1 = nmi ->
  (state_rules s).[nmi] = Some (Some m) ->
  exists ret s',
    ipa_NATI_clear_ipv4_tbl s tbl_hdl = Some (ret, s') /\ nat_inv s' /\ pdns s' = pdns s
    /\ (ret = 0 \/ ret = - EPERM -> state_rules s' = (state_rules s).[nmi <- Some ∅])
    /\ (ret = 0 \/ ret = - EPERM \/ ret = - EINVAL /\ state_rules s' = state_rules s).
Proof.
  intros Hinv Hh Hn Hm. destruct (break_tbl_hdl _ Hh) as (nmi' & Eb & Hn' & Hv).
  rewrite Eb in Hn. cbn in Hn. subst nmi'.
  destruct (nat_inv_cache s nmi Hinv Hn') as (c & Hc & Hok & Hr).
  unfold ipa_NATI_clear_ipv4_tbl. rewrite Eb, Hv, Hc. cbn [negb mbind option_bind].
  destruct (env_lock (env s)) as [lk k1].
  destruct (lk =? 0); cbn [negb].
  2: { eexists _, _. split; [reflexivity|]. split; [by apply nat_inv_env|]. split; [done|].
       split; [by intros [?|?]|]. auto. }
  rewrite (state_rules_lookup _ _ _ Hc) in Hm. injection Hm as Hm.
  destruct Hok as (nt & Hnt & [[H0 _]|(H1 & Hmd & Hwf & [d Hd] & Hnmi)]).
  { unfold cache_rules in Hm. by rewrite H0 in Hm. }
  rewrite H1, Hnt. change ([nt].[1 - 1]) with (Some nt). cbn [mbind option_bind Z.eqb].
  destruct (clear_table_spec nt (nw_shape _ Hwf)) as (nt' & Ec & Hwf' & Hru & Hmd' & Hsh).
  rewrite Ec. cbn [mbind option_bind].
  destruct (unlock_nat_spec 0 (with_cache (with_env s k1) nmi (with_tbl c (1 - 1) nt')))
    as (k2 & Eu & _ & U0). rewrite Eu. eexists _, _. split; [reflexivity|].
  assert (Hok' : cache_ok nmi (with_tbl c (1 - 1) nt')).
  { exists nt'. cbn. rewrite Hnt. split; [done|]. right. rewrite Hmd', H1, Hd. split_and!; try done.
    destruct Hsh as (_ & _ & _ & _ & _ & _ & _ & _ & E9 & _). congruence. }
  split; [by apply nat_inv_env, nat_inv_with_cache; [apply nat_inv_env|]|]. split; [done|].
  split; [intros _|destruct (U0 eq_refl) as [E0|E0]; rewrite E0; auto].
  change (state_rules (with_env ?x k2)) with (state_rules x).
  rewrite state_rules_with_cache. do 2 f_equal. unfold cache_rules.
  cbn [table_cnt with_tbl ip4_tbl]. rewrite H1, Hnt.
  change ([nt].[1 - 1 <- nt']) with [nt']. cbn [Z.eqb]. by rewrite Hru.
Qed.

(** ** Chain statistics

    The statistics of a well-formed table are its sizes, its counters, and the
    number, extreme lengths and total length of the chains with more than one
    record; following a chain always ends. *)

Section Stats.
Context {U : Type} (I : ipa_table_entry_interface U) (L : entry_layout)
  (free_ok : Z -> Prop) (meta_ok : option (list Z) -> Z -> Prop)
  {laws : TableEntryLaws I L free_ok meta_ok}.
Context (which : WhichTbl2Use).
Hypothesis (Hnext : forall e, chain_next which e = entry_get_next_index I e).

Abbreviation wf_table := (TableFacts.wf_table I L free_ok meta_ok).

(** The chain of [h]: its records, the last one first. *)
Definition whole_chain (t : ipa_table U) (h : Z) (vis : list Z) : Prop :=
  path (view I t) h vis /\ NoDup vis
  /\ exists i rest l, vis = i :: rest /\ view I t i = Some l /\ l_next l = 0.

Lemma chain_len_loop_spec t h fuel i e vis :
  wf_table t -> h < table_entries t ->
  path (view I t) h (i :: vis) -> NoDup (i :: vis) -> (slots t).[i] = Some e ->
  tot_tbl_ents t <= Z.of_nat (fuel + length vis) ->
  exists vis', chain_len_loop fuel t which e (lengthZ (i :: vis)) = Some (lengthZ vis')
    /\ whole_chain t h vis' /\ lengthZ (i :: vis) <= lengthZ vis'.
Proof.
  intros Hwf Hh. pose proof (wt_layout _ _ _ _ _ Hwf) as Hl.
  pose proof (wt_chains _ _ _ _ _ Hwf) as Hc.
  pose proof (wl_max _ _ _ _ Hl) as Hmax. unfold IPA_TABLE_MAX_ENTRIES in Hmax.
  pose proof (wl_base _ _ _ _ Hl). pose proof (wl_expn _ _ _ _ Hl).
  pose proof (wl_tot _ _ _ _ Hl).
  revert i e vis. induction fuel as [|fuel IH]; intros i e vis Hp Hnd He Hf.
  - pose proof (path_length _ _ _ _ _ Hc Hp Hnd) as Hlen. cbn [length] in Hlen. lia.
  - assert (exists l, view I t i = Some l /\ l_next l = entry_get_next_index I e) as (l & Hv & Hn).
    { pose proof (path_live _ _ _ _ _ Hc Hp) as Hlive. apply Forall_cons in Hlive as [[l Hv] _].
      exists l. split; [done|]. apply view_Some in Hv as (e' & He' & _ & Hn & _). congruence. }
    cbn [chain_len_loop]. rewrite Hnext, <- Hn.
    destruct (Z.eqb_spec (l_next l) 0) as [E0|Hn0].
    + exists (i :: vis). split; [done|]. split; [|lia]. split; [done|]. split; [done|]. eauto 10.
    + destruct (wfc_next _ _ _ Hc _ _ Hv Hn0) as (_ & l' & Hl' & _).
      pose proof Hl' as Hl''. apply view_Some in Hl'' as (e' & He' & _).
      rewrite (rec_load_GOTO_REC I L meta_ok) by done. rewrite He'. cbn [mbind option_bind].
      assert (Hp' : path (view I t) h (l_next l :: i :: vis)) by (by eapply path_step).
      assert (Hnd' : NoDup (l_next l :: i :: vis)).
      { apply NoDup_cons. split; [|done].
        eapply (path_fresh _ _ _ _ _ _ _ _ Hc Hh Hp Hnd Hv eq_refl Hn0). }
      pose proof (path_length _ _ _ _ _ Hc Hp' Hnd') as Hlen. cbn [length] in Hlen.
      destruct (IH (l_next l) e' (i :: vis) Hp' Hnd' He') as (vis' & E & Hw & Hle); [cbn [length]; lia|].
      exists vis'. unfold lengthZ in *. cbn [length] in *.
      replace (u32 (Z.of_nat (S (length vis)) + 1)) with (Z.of_nat (S (S (length vis))))
        by (rewrite u32_small by lia; lia).
      split; [done|]. split; [done|lia].
Qed.

(** The chain of a head in use. *)
Lemma chain_len_spec t h e :
  wf_table t -> (slots t).[h] = Some e -> entry_is_valid I e = true -> h < table_entries t ->
  exists vis, chain_len_loop (S (length (slots t))) t which e 1 = Some (lengthZ vis)
    /\ whole_chain t h vis /\ 1 <= lengthZ vis < Z.max 1 (tot_tbl_ents t).
Proof.
  intros Hwf He Hv Hh. pose proof (wt_layout _ _ _ _ _ Hwf) as Hl.
  destruct (view_live I L free_ok meta_ok t h e Hl He Hv) as [l Hvl].
  destruct (chain_len_loop_spec t h (S (length (slots t))) h e [] Hwf Hh) as (vis & E & Hw & Hle).
  - by eapply path_start.
  - apply NoDup_singleton.
  - done.
  - pose proof (wl_slots _ _ _ _ Hl) as Hs. unfold lengthZ in Hs. cbn [length]. lia.
  - exists vis. split; [exact E|]. split; [done|]. split; [exact Hle|].
    destruct Hw as (Hp & Hnd & _). apply (path_length _ _ _ _ _ (wt_chains _ _ _ _ _ Hwf) Hp Hnd).
Qed.

(** A head with more records in its chain. *)
Definition heads_chain (e : Z) : bool :=
  entry_is_valid I e && negb (entry_get_next_index I e =? 0).

(** What the statistics record of [n] chains with [total] records. *)
Record counted (n : Z) (csh : chain_stat_help) (max : Z) : Prop := {
  ct_chains : tot_chains (csh_stats csh) = n;
  ct_none : n = 0 -> tot_for_avg csh = 0 /\ min_chain_len (csh_stats csh) = 0
    /\ max_chain_len (csh_stats csh) = 0;
  ct_some : 0 < n -> 1 <= min_chain_len (csh_stats csh) <= max_chain_len (csh_stats csh)
    /\ max_chain_len (csh_stats csh) <= max
    /\ n * min_chain_len (csh_stats csh) <= tot_for_avg csh <= n * max_chain_len (csh_stats csh)
}.

Lemma count_chain_counted n csh max len :
  counted n csh max -> 0 <= n < 5120 -> 1 <= len <= max -> max <= 5120 ->
  counted (n + 1) (count_chain csh len) max.
Proof.
  intros [H1 H2 H3] Hn Hlen Hmax.
  assert (Hb : 0 <= tot_for_avg csh <= n * max).
  { destruct (decide (n = 0)) as [->|]; [destruct (H2 eq_refl) as [-> _]; lia|].
    destruct H3 as (A & B & C); [lia|]. nia. }
  unfold count_chain. split; cbn [tot_chains csh_stats tot_for_avg min_chain_len max_chain_len].
  - rewrite H1. apply u32_small. lia.
  - lia.
  - intros _. rewrite u32_small by nia.
    destruct (decide (n = 0)) as [->|Hn0].
    + destruct (H2 eq_refl) as (-> & -> & ->). cbn [Z.eqb].
      destruct (Z.ltb_spec len 0); lia.
    + destruct H3 as (A & B & C); [lia|]. rewrite (proj2 (Z.eqb_neq _ 0)) by lia.
      destruct (Z.ltb_spec (min_chain_len (csh_stats csh)) len),
        (Z.ltb_spec len (max_chain_len (csh_stats csh))); nia.
Qed.

(** The fields of the statistics a walk leaves alone. *)
Definition same_sizes (st st' : ipa_nati_tbl_stats) : Prop :=
  st_nmi st' = st_nmi st /\ tot_ents st' = tot_ents st /\ tot_base_ents st' = tot_base_ents st
  /\ tot_base_ents_filled st' = tot_base_ents_filled st /\ tot_expn_ents st' = tot_expn_ents st
  /\ tot_expn_ents_filled st' = tot_expn_ents_filled st.

Definition stats_before (t : ipa_table U) (st0 : ipa_nati_tbl_stats) (i : Z)
    (s : ipa_table U * chain_stat_help) : Prop :=
  fst s = t /\ csh_which (snd s) = which /\ same_sizes st0 (csh_stats (snd s))
  /\ counted (countZ heads_chain (slots t) 0 (Z.min i (table_entries t))) (snd s) (tot_tbl_ents t).

Lemma stats_step t st0 i e mp mi s :
  wf_table t -> nmi t = 0 \/ nmi t = 1 -> table_entries t <= 4096 -> expn_table_entries t <= 4096 ->
  0 <= i < tot_tbl_ents t -> (slots t).[i] = Some e -> entry_is_valid I e = true ->
  stats_before t st0 i s ->
  exists ret s', gen_chain_stats t (MakeEntryHdl t i) (GOTO_REC t i) i mp mi s = Some (ret, s')
    /\ (ret = 0 -> stats_before t st0 (i + 1) s')
    /\ (ret <> 0 -> 0 <= ret /\ stats_before t st0 (table_entries t) s').
Proof.
  intros Hwf Hn Hb He4 Hi He Hv (S1 & S2 & S3 & S4).
  pose proof (wt_layout _ _ _ _ _ Hwf) as Hl. pose proof (wl_base _ _ _ _ Hl) as Hb0.
  pose proof (wl_expn _ _ _ _ Hl). pose proof (wl_tot _ _ _ _ Hl) as Ht.
  pose proof (wl_max _ _ _ _ Hl) as Hmax. unfold IPA_TABLE_MAX_ENTRIES in Hmax.
  unfold gen_chain_stats. rewrite break_make_hdl by (done || lia).
  destruct (Z.leb_spec (table_entries t) i) as [Hx|Hx].
  { exists 1, s. split; [done|]. split; [done|]. intros _. split; [lia|].
    split_and!; try done. by rewrite Z.min_r in S4 by lia; rewrite Z.min_id. }
  cbn [Z.eqb negb]. rewrite (rec_load_GOTO_REC I L meta_ok) by done. rewrite He. cbn [mbind option_bind].
  rewrite S2, Hnext. rewrite Z.min_l in S4 by lia.
  assert (Hcnt : countZ heads_chain (slots t) 0 (Z.min (i + 1) (table_entries t))
    = countZ heads_chain (slots t) 0 i + Z.b2z (negb (entry_get_next_index I e =? 0))).
  { rewrite Z.min_l, (countZ_snoc _ _ _ _ e) by (done || lia). unfold heads_chain. by rewrite Hv. }
  destruct (Z.eqb_spec (entry_get_next_index I e) 0) as [E0|Hn0].
  { cbn [mbind option_bind Z.eqb]. exists 0, s. split; [done|]. split; [|done]. intros _.
    split_and!; try done. rewrite Hcnt. cbn [negb Z.b2z]. by rewrite Z.add_0_r. }
  destruct (chain_len_spec t i e Hwf He Hv) as (vis & E & _ & Hlen); [lia|].
  rewrite E. cbn [mbind option_bind]. rewrite (proj2 (Z.eqb_neq (lengthZ vis) 0)) by lia.
  eexists 0, _. split; [reflexivity|]. split; [|done]. intros _. cbn [fst snd].
  split_and!; [done|done|by destruct S3 as (? & ? & ? & ? & ? & ?)|].
  cbn [snd]. rewrite Hcnt. cbn [negb Z.b2z].
  apply count_chain_counted; [done| |lia|lia].
  pose proof (countZ_bound heads_chain (slots t) 0 i). lia.
Qed.

(** The statistics [st] of the table [t]. *)
Record measures (nm : Z) (t : ipa_table U) (st : ipa_nati_tbl_stats) : Prop := {
  ms_nmi : st_nmi st = nm;
  ms_base : tot_base_ents st = table_entries t;
  ms_expn : tot_expn_ents st = expn_table_entries t;
  ms_tot : tot_ents st = tot_tbl_ents t;
  ms_base_filled : tot_base_ents_filled st = countZ (entry_is_valid I) (slots t) 0 (table_entries t);
  ms_expn_filled :
    tot_expn_ents_filled st = countZ (entry_is_valid I) (slots t) (table_entries t) (tot_tbl_ents t);
  ms_chains : tot_chains st = countZ heads_chain (slots t) 0 (table_entries t);
  ms_lengths : 0 < tot_chains st -> 1 <= min_chain_len st <= max_chain_len st
                                    /\ max_chain_len st <= tot_tbl_ents t;
  ms_no_chains : tot_chains st = 0 -> min_chain_len st = 0 /\ max_chain_len st = 0
}.

Lemma table_stats_spec nm t :
  wf_table t -> nmi t = 0 \/ nmi t = 1 -> table_entries t <= 4096 -> expn_table_entries t <= 4096 ->
  exists ret st, table_stats which nm t = Some (ret, st) /\ 0 <= ret /\ measures nm t st.
Proof.
  intros Hwf Hn Hb He4. pose proof (wt_layout _ _ _ _ _ Hwf) as Hl.
  pose proof (wl_base _ _ _ _ Hl). pose proof (wl_expn _ _ _ _ Hl).
  pose proof (wl_tot _ _ _ _ Hl) as Ht. pose proof (wl_max _ _ _ _ Hl) as Hmax.
  unfold IPA_TABLE_MAX_ENTRIES in Hmax. unfold table_stats. set (st0 := mk_tbl_stats _ _ _ _ _ _ _ _ _ _).
  destruct (walk_filled I L meta_ok fst gen_chain_stats t (stats_before t st0)
    (fun ret s => 0 <= ret /\ stats_before t st0 (table_entries t) s) Hl) with
    (s := (t, mk_chain_stat_help which 0 st0)) as (ret & [t' csh] & Ew & Hc).
  - by intros i s (H1 & _).
  - intros i e s Hi He Hv (S1 & S2 & S3 & S4). split_and!; try done.
    destruct (Z.leb_spec (table_entries t) i).
    + by rewrite Z.min_r in S4 |- * by lia.
    + rewrite Z.min_l in S4 by lia. rewrite Z.min_l, (countZ_snoc _ _ _ _ e) by (done || lia).
      unfold heads_chain at 2. rewrite Hv. cbn [andb Z.b2z]. by rewrite Z.add_0_r.
  - intros i e mp mi s Hi He Hv Hs.
    destruct (stats_step t st0 i e mp mi s Hwf Hn Hb He4 Hi He Hv Hs) as (r & s' & H1 & H2 & H3). eauto.
  - split_and!; try done. cbn [snd]. rewrite Z.min_l by lia.
    replace (countZ _ _ 0 0) with 0 by (pose proof (countZ_bound heads_chain (slots t) 0 0); lia).
    split; cbn; lia.
  - assert (Hfin : 0 <= ret /\ stats_before t st0 (table_entries t) (t', csh)).
    { destruct Hc as [[-> H4]|[_ H4]]; [|done]. split; [lia|]. destruct H4 as (S1 & S2 & S3 & S4).
      split_and!; try done. by rewrite Z.min_r in S4 |- * by lia. }
    destruct Hfin as (Hr & _ & _ & (F1 & F2 & F3 & F4 & F5 & F6) & [C1 C2 C3]).
    rewrite Ew. cbn [mbind option_bind]. cbn [snd] in *. rewrite Z.min_id in *.
    eexists _, _. split; [reflexivity|]. split; [done|].
    pose proof (wt_cnt _ _ _ _ _ Hwf) as Hc1. pose proof (wt_expn_cnt _ _ _ _ _ Hwf) as Hc2.
    unfold st0 in *. cbn [st_nmi tot_ents tot_base_ents tot_base_ents_filled tot_expn_ents
      tot_expn_ents_filled] in *. rewrite u32_small in F2 by lia.
    destruct (negb _ && _ && _); split; cbn [st_nmi tot_ents tot_base_ents tot_base_ents_filled
      tot_expn_ents tot_expn_ents_filled tot_chains min_chain_len max_chain_len]; try lia;
      rewrite C1; (lia || done).
Qed.
End Stats.

(** ** Reading the NAT tables: time stamps and statistics *)

Abbreviation nat_measures := (measures nat_entry_interface).
Abbreviation idx_measures := (measures index_entry_interface).

Section Queries.
Context {K : Type} {E : IpaEnv K}.
Implicit Types (s : nat_state K).

(** [ipa_NATI_query_timestamp] of a rule in the map. *)
Lemma query_timestamp_spec s tbl_hdl mem R h f :
  nat_inv s -> VALID_TBL_HDL tbl_hdl = true -> (BREAK_TBL_HDL tbl_hdl).1 = mem ->
  (state_rules s).[mem] = Some (Some R) -> R !! h = Some f ->
  exists ret ts s', ipa_NATI_query_timestamp s tbl_hdl h = Some (ret, ts, s')
    /\ same_tables s s' /\ nat_inv s'
    /\ ((ret = - EINVAL /\ ts = None) \/ ((ret = 0 \/ ret = - EPERM) /\ ts = Some (fl_time_stamp f))).
Proof.
  intros Hinv Hh Hm HR Hf. destruct (break_tbl_hdl _ Hh) as (mem' & Eb & _ & Hv).
  rewrite Eb in Hm. cbn in Hm. subst mem'.
  destruct (table_of_rules s mem R Hinv HR) as (c & nt & Hc & Hnt & H1 & Hwf & _ & -> & _ & Hmd).
  unfold ipa_NATI_query_timestamp. rewrite Eb, Hv, Hc. cbn [negb mbind option_bind].
  destruct (env_lock (env s)) as [l k1]. assert (Hi1 : nat_inv (with_env s k1)) by (by apply nat_inv_env).
  destruct (l =? 0); cbn [negb].
  2: { eexists _, _, _. split; [reflexivity|]. split; [done|]. split; [done|]. by left. }
  rewrite Hnt. change ([nt].[1 - 1]) with (Some nt). cbn [mbind option_bind]. rewrite Hmd. cbn [negb].
  pose proof (nw_shape _ Hwf) as Hs. pose proof (ns_layout _ Hs) as Hl.
  pose proof (ns_hdl _ Hs) as (B1 & B2 & B3). pose proof (wl_base _ _ _ _ Hl).
  pose proof (wl_expn _ _ _ _ Hl). pose proof (wl_tot _ _ _ _ Hl).
  apply lookup_rules in Hf as (i & e & (He & Hev & Hed) & -> & ->); [|done].
  pose proof (lookupZ_Some_range _ _ _ He) as Hi. rewrite (wl_slots _ _ _ _ Hl) in Hi.
  rewrite get_entry_make_hdl by (done || lia).
  rewrite (rec_load_GOTO_REC nat_entry_interface nat_layout nat_meta_ok) by done.
  rewrite He. cbn [mbind option_bind].
  destruct (unlock_nat_spec 0 (with_env s k1)) as (k2 & Eu & _ & U0).
  destruct (unlock_nat_quiet 0 (with_env s k1) Hi1) as [Q1 Q2].
  destruct (unlock_nat 0 (with_env s k1)) as [r s2]. cbn [fst snd] in *.
  eexists _, _, _. split; [reflexivity|]. split; [exact Q1|]. split; [exact Q2|]. right.
  split; [by apply U0|done].
Qed.

(** [ipa_NATI_ipv4_tbl_stats] of an existing table. *)
Lemma tbl_stats_spec s tbl_hdl mem R :
  nat_inv s -> VALID_TBL_HDL tbl_hdl = true -> (BREAK_TBL_HDL tbl_hdl).1 = mem ->
  (state_rules s).[mem] = Some (Some R) ->
  exists ret st s', ipa_NATI_ipv4_tbl_stats s tbl_hdl = Some (ret, st, s')
    /\ same_tables s s' /\ nat_inv s'
    /\ ((ret = - EINVAL /\ st = None)
        \/ (ret = 0 \/ ret = - EPERM) /\ exists c nt ns ixs,
             (ipv4_nat_cache s).[mem] = Some c /\ ip4_tbl c = [nt] /\ rules nt = R
             /\ st = Some (ns, ixs) /\ nat_measures mem (table nt) ns
             /\ idx_measures mem (index_table nt) ixs).
Proof.
  intros Hinv Hh Hm HR. destruct (break_tbl_hdl _ Hh) as (mem' & Eb & _ & Hv).
  rewrite Eb in Hm. cbn in Hm. subst mem'.
  destruct (table_of_rules s mem R Hinv HR) as (c & nt & Hc & Hnt & H1 & Hwf & Hnm & HRn & _ & _).
  unfold ipa_NATI_ipv4_tbl_stats. rewrite Hh. cbn [negb].
  destruct (env_lock (env s)) as [l k1]. assert (Hi1 : nat_inv (with_env s k1)) by (by apply nat_inv_env).
  destruct (l =? 0); cbn [negb].
  2: { eexists _, _, _. split; [reflexivity|]. split; [done|]. split; [done|]. by left. }
  rewrite Eb, Hv. cbn [negb ipv4_nat_cache with_env]. rewrite Hc. cbn [mbind option_bind].
  rewrite H1, Hnt. change ([nt].[1 - 1]) with (Some nt). cbn [Z.eqb mbind option_bind].
  pose proof (nw_shape _ Hwf) as Hs. pose proof (ns_hdl _ Hs) as (B1 & B2 & B3).
  pose proof (ns_nmi _ Hs) as Bn. pose proof (ns_base _ Hs) as Bb. pose proof (ns_tot _ Hs) as Bt.
  pose proof (wl_tot _ _ _ _ (ns_layout _ Hs)). pose proof (wl_tot _ _ _ _ (ns_idx_layout _ Hs)).
  destruct (table_stats_spec nat_entry_interface nat_layout cleared nat_meta_ok USE_NAT_TABLE
    (fun _ => eq_refl) mem (table nt)) as (r1 & ns & E1 & P1 & M1); [apply Hwf|done|done|done|].
  rewrite E1. cbn [mbind option_bind]. rewrite (proj2 (Z.ltb_ge _ _)) by done.
  destruct (table_stats_spec index_entry_interface index_layout cleared index_meta_ok USE_INDEX_TABLE
    (fun _ => eq_refl) mem (index_table nt)) as (r2 & ixs & E2 & P2 & M2);
    [apply Hwf|by rewrite Bn|by rewrite Bb|lia|].
  rewrite E2. cbn [mbind option_bind]. rewrite (proj2 (Z.ltb_ge _ _)) by done.
  destruct (unlock_nat_spec 0 (with_env s k1)) as (k2 & Eu & _ & U0).
  destruct (unlock_nat_quiet 0 (with_env s k1) Hi1) as [Q1 Q2].
  destruct (unlock_nat 0 (with_env s k1)) as [r s2]. cbn [fst snd] in *.
  eexists _, _, _. split; [reflexivity|]. split; [exact Q1|]. split; [exact Q2|]. right.
  split; [by apply U0|]. by exists c, nt, ns, ixs.
Qed.
End Queries.
