(* ===== verification/MachView.v ===== *)
(** * What the client sees through the handle maps

    In the hybrid states the client's handles are translated to the handles of
    the table in use.  [view_of] is the map from the client's handles to
    translations that results, and [handles_ok] says that the two handle maps
    are inverse to each other and name rules of the table ([handles_total]:
    all of them). *)
From S2P Require Import Prelude Bitfield Chain Table TableFacts TableDma TableHandle NatRule.
From S2P Require Import NatRuleFacts Env NatTable NatOps NatWalk NatWf NatSpec NatState NatMap.
From S2P Require Import Statemach.

Definition view_of (o2n : gmap Z Z) (R : gmap Z nat_flow) : gmap Z nat_flow :=
  omap (fun new => R !! new) o2n.

Record handles_ok (o2n n2o : gmap Z Z) (R : gmap Z nat_flow) : Prop := {
  ho_inverse : forall o n, o2n !! o = Some n <-> n2o !! n = Some o;
  ho_rules : forall n, is_Some (n2o !! n) -> is_Some (R !! n)
}.

Definition handles_total (n2o : gmap Z Z) (R : gmap Z nat_flow) : Prop :=
  forall n, is_Some (R !! n) -> is_Some (n2o !! n).

Lemma lookup_view o2n R o : view_of o2n R !! o = n ← o2n !! o; R !! n.
Proof. apply lookup_omap. Qed.

Lemma handles_ok_empty : handles_ok ∅ ∅ ∅.
Proof.
  split.
  - intros o n. by rewrite !lookup_empty.
  - intros n. by rewrite lookup_empty; intros [? [=]].
Qed.

Lemma handles_total_empty n2o : handles_total n2o ∅.
Proof. intros n. by rewrite lookup_empty; intros [? [=]]. Qed.

Lemma view_empty o2n : view_of o2n ∅ = ∅.
Proof.
  apply map_eq. intros o. rewrite lookup_view, lookup_empty.
  by destruct (o2n !! o); cbn [mbind option_bind]; rewrite ?lookup_empty.
Qed.

Section Handles.
Context (o2n n2o : gmap Z Z) (R : gmap Z nat_flow).
Hypothesis (Hok : handles_ok o2n n2o R).

(** A new rule [n] for the client's handle [o]. *)
Lemma handles_ok_add o n f :
  o2n !! o = None -> R !! n = None ->
  handles_ok (<[o := n]> o2n) (<[n := o]> n2o) (<[n := f]> R)
  /\ view_of (<[o := n]> o2n) (<[n := f]> R) = <[o := f]> (view_of o2n R).
Proof.
  intros Ho Hn. assert (Hn' : n2o !! n = None).
  { apply eq_None_not_Some. intros H%(ho_rules _ _ _ Hok). rewrite Hn in H. by destruct H. }
  split; [split|].
  - intros o' n'. rewrite !lookup_insert_Some, (ho_inverse _ _ _ Hok). split.
    + intros [[-> ->]|[Hne H]]; [by left|]. right. split; [|done]. congruence.
    + intros [[-> ->]|[Hne H]]; [by left|]. right. split; [|done].
      apply (ho_inverse _ _ _ Hok) in H. congruence.
  - intros n'. rewrite !lookup_insert_is_Some. intros [->|[Hne H%(ho_rules _ _ _ Hok)]]; auto.
  - apply map_eq. intros o'. rewrite lookup_view. destruct (decide (o' = o)) as [->|Hne].
    + rewrite !lookup_insert_eq. cbn [mbind option_bind]. by rewrite lookup_insert_eq.
    + rewrite !lookup_insert_ne, lookup_view by done.
      destruct (o2n !! o') as [n'|] eqn:E; [|done]. cbn [mbind option_bind].
      apply lookup_insert_ne. intros ->. apply (ho_inverse _ _ _ Hok) in E. congruence.
Qed.

(** The rule of the client's handle [o] is deleted. *)
Lemma handles_ok_delete o n :
  o2n !! o = Some n ->
  handles_ok (delete o o2n) (delete n n2o) (delete n R)
  /\ view_of (delete o o2n) (delete n R) = delete o (view_of o2n R).
Proof.
  intros Ho. pose proof (proj1 (ho_inverse _ _ _ Hok _ _) Ho) as Hn. split; [split|].
  - intros o' n'. rewrite !lookup_delete_Some, (ho_inverse _ _ _ Hok). split.
    + intros [Hne H]. split; [|done]. congruence.
    + intros [Hne H]. split; [|done]. apply (ho_inverse _ _ _ Hok) in H. congruence.
  - intros n'. rewrite !lookup_delete_is_Some. intros [Hne H%(ho_rules _ _ _ Hok)]. done.
  - apply map_eq. intros o'. rewrite lookup_view. destruct (decide (o' = o)) as [->|Hne].
    + by rewrite !lookup_delete_eq.
    + rewrite !lookup_delete_ne, lookup_view by done.
      destruct (o2n !! o') as [n'|] eqn:E; [|done]. cbn [mbind option_bind].
      apply lookup_delete_ne. intros ->. apply (ho_inverse _ _ _ Hok) in E. congruence.
Qed.

(** The client's handle [o] is forgotten, whether or not its rule is gone. *)
Lemma handles_ok_forget o n R' :
  o2n !! o = Some n -> R' = R \/ R' = delete n R ->
  handles_ok (delete o o2n) (delete n n2o) R'
  /\ view_of (delete o o2n) R' = delete o (view_of o2n R).
Proof.
  intros Hn HR'. destruct (handles_ok_delete o n Hn) as [B1 B2]. destruct HR' as [->| ->]; [|done].
  split.
  - split; [apply B1|]. intros n' H%(ho_rules _ _ _ B1). apply lookup_delete_is_Some in H. apply H.
  - rewrite <- B2. apply map_eq. intros o'. rewrite !lookup_view.
    destruct (delete o o2n !! o') as [n'|] eqn:Eo; [|done]. cbn [mbind option_bind].
    symmetry. apply lookup_delete_ne. intros <-. apply (ho_inverse _ _ _ B1) in Eo.
    by rewrite lookup_delete_eq in Eo.
Qed.

Lemma handles_total_add o n f :
  handles_total n2o R -> handles_total (<[n := o]> n2o) (<[n := f]> R).
Proof.
  intros H n'. rewrite !lookup_insert_is_Some. intros [->|[Hne Hn']]; [by left|right; auto].
Qed.

Lemma handles_total_delete n : handles_total n2o R -> handles_total (delete n n2o) (delete n R).
Proof. intros H n'. rewrite !lookup_delete_is_Some. intros [Hne Hn']. auto. Qed.

(** Every client handle in the map has a rule. *)
Lemma view_is_Some o : is_Some (view_of o2n R !! o) <-> is_Some (o2n !! o).
Proof.
  rewrite lookup_view. split.
  { destruct (o2n !! o); [by eexists|by intros [? [=]]]. }
  intros [n Hn]. rewrite Hn.
  apply (ho_rules _ _ _ Hok). exists o. by apply (ho_inverse _ _ _ Hok).
Qed.
End Handles.

(** ** Moving a rule *)

(** The translation a moved rule has: its checksums are computed again from
    the present address of its PDN. *)
Definition refresh (ps : list ipa_nat_pdn_entry) (f : nat_flow) : nat_flow :=
  match ps.[fl_pdn_index f] with
  | Some p =>
      mk_flow (fl_private_ip f) (fl_private_port f) (fl_protocol f) (fl_public_port f)
        (fl_target_ip f) (fl_target_port f) (fl_pdn_index f) (fl_uc_activation_index f)
        (fl_s f) (fl_ucp f) (fl_dst_only f) (fl_src_only f)
        (u16 (ipa_nati_calc_ip_cksum (public_ip p) (fl_private_ip f)))
        (if (IPPROTO_TCP =? fl_protocol f) || (IPPROTO_UDP =? fl_protocol f)
         then u16 (ipa_nati_calc_tcp_udp_cksum (public_ip p) (fl_public_port f)
                     (fl_private_ip f) (fl_private_port f))
         else 0)
        0 1 (fl_time_stamp f)
  | None => f
  end.

(** A translation made with the present address of its PDN is not changed. *)
Lemma refresh_flow_of ps pdn r :
  ps.[u_pdn_index r] = Some pdn -> refresh ps (flow_of (public_ip pdn) r) = flow_of (public_ip pdn) r.
Proof. intros H. unfold refresh, flow_of. cbn. by rewrite H. Qed.

Lemma bit_flag f e : wf_field f -> fw f = 1 -> Z.b2z (negb (getf f e =? 0)) = getf f e.
Proof.
  intros Hf Hw. pose proof (getf_range f e Hf) as H. rewrite Hw in H. cbn in H.
  destruct (Z.eqb_spec (getf f e) 0) as [->|]; cbn; lia.
Qed.

#[local] Opaque getf.

Lemma flow_of_record ps pdn e :
  ps.[getf pdn_index e] = Some pdn ->
  flow_of (public_ip pdn) (rule_of_record e) = refresh ps (decode e).
Proof.
  intros Hp. unfold refresh, decode, flow_of, rule_of_record. cbn. rewrite Hp.
  rewrite !bit_flag by (field_side || done).
  assert (Hm : forall f w, wf_field f -> fw f = w -> getf f e mod 2 ^ w = getf f e).
  { intros f w Hf <-. apply Z.mod_small, getf_range, Hf. }
  rewrite (Hm uc_activation_index 13), (Hm time_stamp 24) by (field_side || done). done.
Qed.

Lemma rule_of_record_wf e : wf_user_rule (rule_of_record e).
Proof.
  assert (Hr : forall f w, wf_field f -> fw f <= w -> 0 <= getf f e < 2 ^ w).
  { intros f w Hf Hw. pose proof (getf_range f e Hf).
    assert (2 ^ fw f <= 2 ^ w) by (apply Z.pow_le_mono_r; lia). lia. }
  split; cbn; apply Hr; (field_side || done).
Qed.

Lemma rule_of_record_pdn e : 0 <= u_pdn_index (rule_of_record e) < IPA_MAX_PDN_NUM.
Proof. cbn. apply (getf_range pdn_index e). field_side. Qed.

(** ** The rules of the first records *)

Definition rules_upto (nt : ipa_nat_ip4_table_cache) (i : Z) : gmap Z nat_flow :=
  list_to_map (omap (rule_at nt) (seqZ 0 i)).

Lemma rules_upto_all nt i : i = lengthZ (slots (table nt)) -> rules_upto nt i = rules nt.
Proof. by intros ->. Qed.

Lemma lookup_rules_upto nt n h v :
  wf_nat_shape nt ->
  rules_upto nt n !! h = Some v
  <-> exists i e, 0 <= i < n /\ live nt i e /\ h = MakeEntryHdl (table nt) i /\ v = decode e.
Proof.
  intros Hs. unfold rules_upto. split.
  - intros H. apply elem_of_list_to_map_2 in H. apply list_elem_of_omap in H as (i & Hin & Hi).
    apply rule_at_live in Hi as (e & He & [= -> ->]). apply elem_of_seqZ in Hin.
    exists i, e. split; [lia|done].
  - intros (i & e & Hr & He & -> & ->). apply elem_of_list_to_map_1'.
    + intros w Hw. apply list_elem_of_omap in Hw as (j & _ & Hj).
      apply rule_at_live in Hj as (ej & Hej & [= E ->]).
      assert (i = j) as <- by (by eapply rule_hdl_inj). destruct He, Hej. congruence.
    + apply list_elem_of_omap. exists i. split; [apply elem_of_seqZ; lia|].
      apply rule_at_live. by exists e.
Qed.

Lemma rules_upto_live nt i e :
  wf_nat_shape nt -> 0 <= i -> live nt i e ->
  rules_upto nt i !! MakeEntryHdl (table nt) i = None
  /\ rules_upto nt (i + 1) = <[MakeEntryHdl (table nt) i := decode e]> (rules_upto nt i).
Proof.
  intros Hs Hi He. split.
  - destruct (rules_upto nt i !! _) as [v|] eqn:E; [|done].
    apply lookup_rules_upto in E as (j & x & Hj & Hx & Eh & _); [|done].
    pose proof (rule_hdl_inj nt i j e x Hs He Hx Eh). lia.
  - apply map_eq. intros h. apply option_eq. intros v.
    rewrite lookup_insert_Some, !lookup_rules_upto by done. split.
    + intros (j & x & Hj & Hx & -> & ->). destruct (decide (j = i)) as [->|Hne].
      * left. by rewrite (live_unique _ _ _ _ Hx He).
      * right. split; [|exists j, x; split; [lia|done]].
        intros E. apply Hne. symmetry. by apply (rule_hdl_inj nt i j e x).
    + intros [[<- <-]|[Hne (j & x & Hj & Hx & -> & ->)]]; [exists i, e|exists j, x];
        (split; [lia|done]).
Qed.

Lemma rules_upto_none nt i :
  wf_nat_shape nt -> 0 <= i -> (forall e, ~ live nt i e) -> rules_upto nt (i + 1) = rules_upto nt i.
Proof.
  intros Hs Hi Hno. apply map_eq. intros h. apply option_eq. intros v.
  rewrite !lookup_rules_upto by done.
  split; intros (j & x & Hj & Hx & -> & ->); exists j, x; (split; [|done]); [|lia].
  destruct (decide (j = i)) as [->|]; [by destruct (Hno x)|lia].
Qed.

(** The part of the client's view that comes from the first records. *)
Lemma view_upto_live (o2n n2o : gmap Z Z) nt i e o :
  wf_nat_shape nt -> 0 <= i -> live nt i e ->
  (forall o n, o2n !! o = Some n <-> n2o !! n = Some o) ->
  n2o !! MakeEntryHdl (table nt) i = Some o ->
  view_of o2n (rules_upto nt i) !! o = None
  /\ view_of o2n (rules_upto nt (i + 1)) = <[o := decode e]> (view_of o2n (rules_upto nt i)).
Proof.
  intros Hs Hi He Hinv Ho. destruct (rules_upto_live nt i e Hs Hi He) as [H1 H2].
  pose proof (proj2 (Hinv _ _) Ho) as Ho'. split.
  - rewrite lookup_view, Ho'. exact H1.
  - apply map_eq. intros o'. rewrite lookup_view, H2. destruct (decide (o' = o)) as [->|Hne].
    + rewrite Ho', lookup_insert_eq. cbn [mbind option_bind]. by rewrite lookup_insert_eq.
    + rewrite lookup_insert_ne, lookup_view by done.
      destruct (o2n !! o') as [n'|] eqn:E; [|done]. cbn [mbind option_bind].
      apply lookup_insert_ne. intros <-. apply Hinv in E. congruence.
Qed.

(** ** The maps of the machine *)

Section Maps.
Context {K : Type}.
Implicit Types (m : nat_mgr K) (sub : mem_sub).

Definition o2n m sub : gmap Z Z :=
  default ∅ ((map_array m).[orig2new_map (at_sub (map_pairs (nati_obj m)) sub)]).
Definition n2o m sub : gmap Z Z :=
  default ∅ ((map_array m).[new2orig_map (at_sub (map_pairs (nati_obj m)) sub)]).

(** The arrays of maps and the indices into it are as initialised. *)
Definition maps_ok m : Prop :=
  lengthZ (map_array m) = MAP_NUM_MAX /\ map_pairs (nati_obj m) = map_pairs nati_obj_init.

(** The maps of one memory type replaced. *)
Definition set_maps m sub (a b : gmap Z Z) : nat_mgr K :=
  let p := at_sub (map_pairs (nati_obj m)) sub in
  with_maps m (map_array m).[orig2new_map p <- a].[new2orig_map p <- b].

Ltac map_cases sub Hp :=
  unfold o2n, n2o, set_maps; destruct sub; cbn [nati_obj map_array with_maps]; rewrite Hp; cbn.

Lemma set_maps_ok m sub a b : maps_ok m -> maps_ok (set_maps m sub a b).
Proof. intros [Hl Hp]. split; [|done]. cbn. by rewrite !lengthZ_updateZ. Qed.

Lemma o2n_set_maps m sub sub' a b :
  maps_ok m -> o2n (set_maps m sub a b) sub' = if decide (sub = sub') then a else o2n m sub'.
Proof.
  intros [Hl Hp]. unfold MAP_NUM_MAX in Hl.
  assert (Hr : forall i x (l : map_arrays), 0 <= i < 5 -> lengthZ l = 5 -> l.[i <- x].[i] = Some x)
    by (intros; apply lookupZ_updateZ_eq; lia).
  unfold o2n, set_maps. cbn [nati_obj map_array with_maps]. rewrite Hp.
  destruct sub, sub'; cbn; unfold MAP_NUM_00, MAP_NUM_01, MAP_NUM_02, MAP_NUM_03;
    repeat first [rewrite Hr by (by rewrite ?lengthZ_updateZ) | rewrite lookupZ_updateZ_ne by done]; done.
Qed.

Lemma n2o_set_maps m sub sub' a b :
  maps_ok m -> n2o (set_maps m sub a b) sub' = if decide (sub = sub') then b else n2o m sub'.
Proof.
  intros [Hl Hp]. unfold MAP_NUM_MAX in Hl.
  assert (Hr : forall i x (l : map_arrays), 0 <= i < 5 -> lengthZ l = 5 -> l.[i <- x].[i] = Some x)
    by (intros; apply lookupZ_updateZ_eq; lia).
  unfold n2o, set_maps. cbn [nati_obj map_array with_maps]. rewrite Hp.
  destruct sub, sub'; cbn; unfold MAP_NUM_00, MAP_NUM_01, MAP_NUM_02, MAP_NUM_03;
    repeat first [rewrite Hr by (by rewrite ?lengthZ_updateZ) | rewrite lookupZ_updateZ_ne by done]; done.
Qed.

Lemma maps_lookup m sub :
  maps_ok m ->
  (map_array m).[orig2new_map (at_sub (map_pairs (nati_obj m)) sub)] = Some (o2n m sub)
  /\ (map_array m).[new2orig_map (at_sub (map_pairs (nati_obj m)) sub)] = Some (n2o m sub).
Proof.
  intros [Hl Hp]. unfold o2n, n2o. rewrite Hp.
  assert (Hr : forall i, 0 <= i < 5 -> (map_array m).[i] = Some (default ∅ ((map_array m).[i]))).
  { intros i Hi. destruct (lookupZ_in_range (map_array m) i) as [x Hx]; [by rewrite Hl|]. by rewrite Hx. }
  destruct sub; cbn; split; by apply Hr.
Qed.

Lemma pair_indices m sub :
  maps_ok m ->
  orig2new_map (at_sub (map_pairs (nati_obj m)) sub) <> new2orig_map (at_sub (map_pairs (nati_obj m)) sub)
  /\ VALID_IPA_USE_MAP (orig2new_map (at_sub (map_pairs (nati_obj m)) sub)) = true
  /\ VALID_IPA_USE_MAP (new2orig_map (at_sub (map_pairs (nati_obj m)) sub)) = true.
Proof. intros [_ ->]. by destruct sub. Qed.

(** Both handles are new: they are entered in both maps. *)
Lemma map_handles_spec m sub orig new :
  maps_ok m -> o2n m sub !! orig = None -> n2o m sub !! new = None ->
  map_handles m (at_sub (map_pairs (nati_obj m)) sub) orig new
  = Some (0, set_maps m sub (<[orig := new]> (o2n m sub)) (<[new := orig]> (n2o m sub))).
Proof.
  intros Hm Ho Hn. destruct (maps_lookup m sub Hm) as [E1 E2].
  destruct (pair_indices m sub Hm) as (Hne & V1 & V2).
  unfold map_handles, ipa_nat_map_add. rewrite V1, E1, V2. cbn [negb mbind option_bind].
  rewrite Ho. cbn [mbind option_bind negb Z.eqb map_array with_maps].
  rewrite lookupZ_updateZ_ne, E2 by done. cbn [mbind option_bind]. by rewrite Hn.
Qed.

Lemma map_find_new m sub new :
  maps_ok m ->
  ipa_nat_map_find (map_array m) (new2orig_map (at_sub (map_pairs (nati_obj m)) sub)) new
  = Some (match n2o m sub !! new with Some o => (0, Some o) | None => (-1, None) end).
Proof.
  intros Hm. destruct (maps_lookup m sub Hm) as [_ E2]. destruct (pair_indices m sub Hm) as (_ & _ & V2).
  unfold ipa_nat_map_find. rewrite V2, E2. cbn [negb mbind option_bind]. by destruct (n2o m sub !! new).
Qed.

(** Clearing the maps and the counter of a memory type. *)
Lemma forget_rules_spec m sub :
  maps_ok m ->
  forget_rules m sub = Some (set_maps (count_rules m sub (fun _ => 0)) sub ∅ ∅).
Proof.
  intros Hm. set (m1 := count_rules m sub (fun _ => 0)). assert (Hm1 : maps_ok m1) by apply Hm.
  destruct (maps_lookup m1 sub Hm1) as [E1 E2]. destruct (pair_indices m1 sub Hm1) as (Hne & V1 & V2).
  unfold forget_rules. fold m1. unfold ipa_nat_map_clear. rewrite V1, E1. cbn [negb mbind option_bind].
  by rewrite V2, lookupZ_updateZ_ne, E2.
Qed.
End Maps.
