(* ===== verification/MachCopy.v ===== *)
(** * Copying a table into another

    [ipa_nati_copy_ipv4_tbl] with the callback [migrate_rule]: when it
    succeeds, the destination holds the rules of the source and the
    destination's handle maps give every client handle its rule again. *)
From S2P Require Import Prelude Bitfield Chain Table Sizing TableFacts TableDma TableHandle.
From S2P Require Import NatRule NatRuleFacts Env NatTable NatOps NatWalk NatWf NatAdd NatSpec.
From S2P Require Import NatState NatStats NatMap Statemach MachRun MachView.

(** ** Frames: what an operation on one table leaves alone *)

Section Frames.
Context {K : Type} {E : IpaEnv K}.
Implicit Types (s : nat_state K).

(** Every cache but the one of memory type [nmi], and the PDNs. *)
Definition other_caches (nmi : Z) s s' : Prop :=
  pdns s' = pdns s /\ forall j, j <> nmi -> (ipv4_nat_cache s').[j] = (ipv4_nat_cache s).[j].

Lemma other_caches_refl nmi s : other_caches nmi s s.
Proof. done. Qed.

Lemma other_caches_env nmi s k : other_caches nmi s (with_env s k).
Proof. done. Qed.

Lemma other_caches_set nmi s c : other_caches nmi s (with_cache s nmi c).
Proof. split; [done|]. intros j Hj. cbn. by rewrite lookupZ_updateZ_ne. Qed.

Lemma other_caches_trans nmi s1 s2 s3 :
  other_caches nmi s1 s2 -> other_caches nmi s2 s3 -> other_caches nmi s1 s3.
Proof.
  intros [E1 H1] [E2 H2]. split; [congruence|]. intros j Hj. by rewrite H2, H1.
Qed.

Lemma unlock_nat_frame nmi ret s : other_caches nmi s (unlock_nat ret s).2.
Proof. unfold unlock_nat. by destruct (env_unlock (env s)). Qed.

Lemma add_rule_frame s tbl_hdl r h0 ret hdl s' :
  ipa_NATI_add_ipv4_rule s tbl_hdl r h0 = Some (ret, hdl, s') ->
  other_caches (BREAK_TBL_HDL tbl_hdl).1 s s'.
Proof.
  unfold ipa_NATI_add_ipv4_rule. destruct r as [r|]; [|by intros [= _ _ <-]].
  destruct h0 as [h0|]; [|by intros [= _ _ <-]].
  destruct (negb (VALID_TBL_HDL tbl_hdl)); [by intros [= _ _ <-]|].
  destruct (BREAK_TBL_HDL tbl_hdl) as [nmi h]. cbn [fst].
  destruct (negb (IPA_VALID_NAT_MEM_IN nmi)); [by intros [= _ _ <-]|].
  intros (c & _ & H)%bind_Some. destruct (u_protocol r =? _); [by injection H as _ _ <-|].
  apply bind_Some in H as (p & _ & H). destruct (_ || _); [by injection H as _ _ <-|].
  destruct (env_lock (env s)) as [l k1]. destruct (negb (l =? 0)); [by injection H as _ _ <-|].
  apply bind_Some in H as (nt & _ & H). destruct (negb (md_valid (mem_desc nt))).
  { cbn [env with_env] in H. destruct (env_unlock k1) as [u k2]. by injection H as _ _ <-. }
  apply bind_Some in H as ([[[[ret1 hdl1] token] nt1] k2] & _ & H).
  destruct (env_unlock k2) as [u k3].
  eapply other_caches_trans; [apply (other_caches_set nmi s (with_tbl c (h - 1) nt1))|].
  destruct (negb (ret1 =? 0)); [by injection H as _ _ <-|].
  destruct (u =? 0); by injection H as _ _ <-.
Qed.

Lemma clear_frame s tbl_hdl ret s' :
  ipa_NATI_clear_ipv4_tbl s tbl_hdl = Some (ret, s') ->
  other_caches (BREAK_TBL_HDL tbl_hdl).1 s s'.
Proof.
  unfold ipa_NATI_clear_ipv4_tbl. destruct (BREAK_TBL_HDL tbl_hdl) as [nmi h]. cbn [fst].
  destruct (negb (IPA_VALID_NAT_MEM_IN nmi)); [by intros [= _ <-]|].
  intros (c & _ & H)%bind_Some. destruct (env_lock (env s)) as [l k1].
  destruct (negb (l =? 0)); [by injection H as _ <-|].
  destruct (table_cnt c =? 0).
  { injection H as H. pose proof (unlock_nat_frame nmi (- EINVAL) (with_env s k1)) as Hu.
    by rewrite H in Hu. }
  apply bind_Some in H as (nt & _ & H). apply bind_Some in H as (nt' & _ & H). injection H as H.
  eapply other_caches_trans; [apply (other_caches_set nmi s (with_tbl c (h - 1) nt'))|].
  pose proof (unlock_nat_frame nmi 0 (with_cache (with_env s k1) nmi (with_tbl c (h - 1) nt'))) as Hu.
  by rewrite H in Hu.
Qed.
End Frames.

(** ** The state of a copy *)

(** The memory type of a part of the machine's state. *)
Definition mem_of (sub : mem_sub) : Z :=
  match sub with DDR_SUB => IPA_NAT_MEM_IN_DDR | SRAM_SUB => IPA_NAT_MEM_IN_SRAM end.

Definition other_sub (sub : mem_sub) : mem_sub :=
  match sub with DDR_SUB => SRAM_SUB | SRAM_SUB => DDR_SUB end.

Section Copy.
Context {K : Type} {E : IpaEnv K} {laws : IpaEnvLaws K}.
Implicit Types (m : nat_mgr K).
(** The source's memory type, its cache and table; the destination's handle;
    the machine before the walk. *)
Context (src : mem_sub) (c : ipa_nat_cache) (nt : ipa_nat_ip4_table_cache) (dst_hdl : Z)
  (m0 : nat_mgr K).
Abbreviation dst := (other_sub src).
Hypothesis (Hc : (ipv4_nat_cache (mgr_nat m0)).[mem_of src] = Some c)
  (Hnt : ip4_tbl c = [nt]) (Hwf : wf_nat nt) (Hnmi : nmi (table nt) = mem_of src)
  (Hdv : VALID_TBL_HDL dst_hdl = true) (Hdst : (BREAK_TBL_HDL dst_hdl).1 = mem_of dst)
  (Hmaps : maps_ok m0) (Hsrc : handles_ok (o2n m0 src) (n2o m0 src) (rules nt)).

(** After the first [i] records: only the destination's table, maps and
    counter have changed, and they hold the rules of these records. *)
Record copied (i : Z) m : Prop := {
  cp_inv : nat_inv (mgr_nat m);
  cp_frame : other_caches (mem_of dst) (mgr_nat m0) (mgr_nat m);
  cp_maps : maps_ok m;
  cp_o2n : o2n m src = o2n m0 src;
  cp_n2o : n2o m src = n2o m0 src;
  cp_obj : nati_obj m = with_tot_rules (nati_obj m0) (tot_rules_in_table (nati_obj m));
  cp_count : at_sub (tot_rules_in_table (nati_obj m)) src
             = at_sub (tot_rules_in_table (nati_obj m0)) src;
  cp_rules : exists R, (state_rules (mgr_nat m)).[mem_of dst] = Some (Some R)
    /\ handles_ok (o2n m dst) (n2o m dst) R /\ handles_total (n2o m dst) R
    /\ at_sub (tot_rules_in_table (nati_obj m)) dst = u32 (Z.of_nat (size R))
    /\ view_of (o2n m dst) R
       = refresh (pdns (mgr_nat m0)) <$> view_of (o2n m0 src) (rules_upto nt i)
}.

(** What holds whatever happens to a rule: the source is untouched. *)
Record source_kept m : Prop := {
  sk_inv : nat_inv (mgr_nat m);
  sk_frame : other_caches (mem_of dst) (mgr_nat m0) (mgr_nat m);
  sk_maps : maps_ok m;
  sk_o2n : o2n m src = o2n m0 src;
  sk_n2o : n2o m src = n2o m0 src;
  sk_obj : nati_obj m = with_tot_rules (nati_obj m0) (tot_rules_in_table (nati_obj m));
  sk_table : exists R, (state_rules (mgr_nat m)).[mem_of dst] = Some (Some R)
}.

Lemma copied_kept i m : copied i m -> source_kept m.
Proof. intros [? ? ? ? ? ? ? (R & HR & _)]. by split; [..|exists R]. Qed.

Lemma mem_of_dst : mem_of src <> mem_of dst.
Proof. by destruct src. Qed.

Lemma src_dst : src <> dst.
Proof. by destruct src. Qed.

Lemma u32_succ n : u32 (u32 (Z.of_nat n) + 1) = u32 (Z.of_nat (S n)).
Proof. unfold u32. rewrite Nat2Z.inj_succ. by rewrite Zplus_mod_idemp_l. Qed.

Lemma copied_table i m :
  copied i m -> walked_table mgr_nat (mem_of src) 0 m = nt.
Proof.
  intros H. unfold walked_table. destruct (cp_frame _ _ H) as [_ Hf].
  rewrite Hf, Hc by apply mem_of_dst. cbn [mbind option_bind]. by rewrite Hnt.
Qed.

(** A record that holds no rule is skipped. *)
Lemma copied_skip i m : 0 <= i -> (forall e, ~ live nt i e) -> copied i m -> copied (i + 1) m.
Proof.
  intros Hi Hno []. split; try done. rewrite rules_upto_none; [done|apply Hwf|done|done].
Qed.

Lemma at_set_sub {A} (p : per_mem A) sub x : at_sub (set_sub p sub x) sub = x.
Proof. by destruct sub. Qed.

Lemma at_set_other {A} (p : per_mem A) sub x : at_sub (set_sub p (other_sub sub) x) sub = at_sub p sub.
Proof. by destruct sub. Qed.

Lemma source_kept_nat m s :
  source_kept m -> nat_inv s -> other_caches (mem_of dst) (mgr_nat m) s ->
  (exists R, (state_rules s).[mem_of dst] = Some (Some R)) -> source_kept (with_mgr_nat m s).
Proof.
  intros [] Hi Hf HR. split; try done. by eapply other_caches_trans.
Qed.

(** The maps and the counter after a rule was entered. *)
Lemma copied_add i e m s o hdl pdn R :
  0 <= i -> live nt i e -> n2o m0 src !! MakeEntryHdl (table nt) i = Some o ->
  copied i m -> nat_inv s -> other_caches (mem_of dst) (mgr_nat m) s ->
  (state_rules (mgr_nat m)).[mem_of dst] = Some (Some R) -> handles_ok (o2n m dst) (n2o m dst) R ->
  handles_total (n2o m dst) R ->
  at_sub (tot_rules_in_table (nati_obj m)) dst = u32 (Z.of_nat (size R)) ->
  view_of (o2n m dst) R = refresh (pdns (mgr_nat m0)) <$> view_of (o2n m0 src) (rules_upto nt i) ->
  (pdns (mgr_nat m)).[getf pdn_index e] = Some pdn -> R !! hdl = None ->
  state_rules s = (state_rules (mgr_nat m)).[mem_of dst
    <- Some (<[hdl := flow_of (public_ip pdn) (rule_of_record e)]> R)] ->
  let m1 := count_rules (with_mgr_nat m s) dst (fun n => n + 1) in
  exists m2, map_handles m1 (at_sub (map_pairs (nati_obj m)) dst) o hdl = Some (0, m2)
    /\ copied (i + 1) m2.
Proof.
  intros Hi He Ho [Hinv Hfr Hmok Ho2n Hn2o Hobj Hcnt _] Hs Hfs HR Hok Hfull Htot Hv Hp Hh Hst m1.
  destruct (view_upto_live (o2n m0 src) (n2o m0 src) nt i e o) as [V1 V2];
    [apply Hwf|done|done|apply (ho_inverse _ _ _ Hsrc)|done|].
  assert (Hmok1 : maps_ok m1) by apply Hmok.
  assert (Hfo : o2n m dst !! o = None).
  { apply eq_None_not_Some. rewrite <- (view_is_Some _ _ _ Hok), Hv, lookup_fmap, V1. by intros [? [=]]. }
  assert (Hfn : n2o m dst !! hdl = None).
  { apply eq_None_not_Some. intros H%(ho_rules _ _ _ Hok). rewrite Hh in H. by destruct H. }
  change (map_pairs (nati_obj m)) with (map_pairs (nati_obj m1)).
  rewrite (map_handles_spec m1 dst o hdl Hmok1 Hfo Hfn). eexists. split; [reflexivity|].
  set (f := flow_of (public_ip pdn) (rule_of_record e)) in *.
  destruct (handles_ok_add _ _ _ Hok o hdl f Hfo Hh) as [A1 A2].
  assert (Hf : f = refresh (pdns (mgr_nat m0)) (decode e)).
  { apply flow_of_record. by destruct Hfr as [<- _]. }
  assert (Hin : 0 <= mem_of dst < lengthZ (state_rules (mgr_nat m)))
    by (eapply lookupZ_Some_range; exact HR).
  split.
  - done.
  - by eapply other_caches_trans.
  - by apply set_maps_ok.
  - rewrite o2n_set_maps, decide_False by (done || by destruct src). done.
  - rewrite n2o_set_maps, decide_False by (done || by destruct src). done.
  - cbn. by rewrite Hobj.
  - cbn. by rewrite at_set_other.
  - exists (<[hdl := f]> R). split; [cbn; rewrite Hst; by apply lookupZ_updateZ_eq|].
    rewrite o2n_set_maps, n2o_set_maps, !decide_True by done. split; [exact A1|].
    split; [by apply handles_total_add|]. split.
    + cbn. rewrite at_set_sub, Htot, map_size_insert_None by done. apply u32_succ.
    + etransitivity; [exact A2|]. by rewrite Hv, V2, fmap_insert, Hf.
Qed.

Lemma migrate_step i e mp mi m :
  0 <= i < tot_tbl_ents (table nt) -> (slots (table nt)).[i] = Some e ->
  table_entry_is_valid e = true -> copied i m ->
  exists ret m',
    migrate_rule dst_hdl nat_user (table nt) (MakeEntryHdl (table nt) i) (GOTO_REC (table nt) i)
      i mp mi m = Some (ret, m')
    /\ (ret = 0 -> copied (i + 1) m') /\ (ret <> 0 -> source_kept m').
Proof.
  intros Hi He Hv Hcp. pose proof (nw_shape _ Hwf) as Hs. pose proof (ns_layout _ Hs) as Hl.
  unfold migrate_rule. rewrite Hnmi.
  assert (Esub : (if mem_of src =? IPA_NAT_MEM_IN_SRAM then (SRAM_SUB, DDR_SUB) else (DDR_SUB, SRAM_SUB))
                 = (src, dst)) by (by destruct src). rewrite Esub. clear Esub.
  rewrite (rec_load_GOTO_REC nat_entry_interface nat_layout nat_meta_ok) by done. rewrite He.
  cbn [mbind option_bind]. fold (dead e). destruct (dead e) eqn:Ed.
  { exists 0, m. split; [done|]. split; [|done]. intros _. apply copied_skip; [lia| |done].
    intros x (Hx & _ & Hx'). congruence. }
  assert (Hlive : live nt i e) by done.
  rewrite (map_find_new m src) by apply Hcp. rewrite (cp_n2o _ _ Hcp).
  destruct (n2o m0 src !! _) as [o|] eqn:Ho; cbn [mbind option_bind].
  2: { exists (-1), m. split; [done|]. split; [done|]. intros _. by apply (copied_kept i). }
  destruct (cp_rules _ _ Hcp) as (R & HR & Hok & Hfull & Htot & Hview).
  destruct (NATI_add_rule_spec (mgr_nat m) dst_hdl (rule_of_record e) 0 (mem_of dst) R)
    as (ret & hdl & s & Ea & Hinv & A0 & A1);
    [apply Hcp|done|done|done|apply rule_of_record_wf|apply rule_of_record_pdn|].
  pose proof (add_rule_frame _ _ _ _ _ _ _ Ea) as Hfr. rewrite Hdst in Hfr.
  rewrite Ea. cbn [mbind option_bind]. destruct (Z.eqb_spec ret 0) as [->|Hne]; cbn [negb].
  - destruct (A0 eq_refl) as (pdn & Hp & Hfree & _ & Hst).
    destruct (copied_add i e m s o hdl pdn R) as (m2 & Em & Hcp2); try done; [lia|].
    exists 0, m2. split; [exact Em|done].
  - exists ret, (with_mgr_nat m s). split; [done|]. split; [done|]. intros _.
    apply source_kept_nat; [by apply (copied_kept i)|done|done|].
    destruct (A1 Hne) as [_ [->|(_ & hdl' & v & _ & _ & ->)]]; [by exists R|].
    eexists. apply lookupZ_updateZ_eq. by eapply lookupZ_Some_range.
Qed.

Lemma copied_env i m k : copied i m -> copied i (with_mgr_nat m (with_env (mgr_nat m) k)).
Proof. intros []. split; try done. by apply nat_inv_env. Qed.

Lemma source_kept_env m k : source_kept m -> source_kept (with_mgr_nat m (with_env (mgr_nat m) k)).
Proof. intros []. split; try done. by apply nat_inv_env. Qed.

(** Releasing the mutex: a failure hides a success. *)
Lemma unlock_st_spec ret m :
  exists k', unlock_st mgr_nat with_mgr_nat ret m
             = ((unlock_st mgr_nat with_mgr_nat ret m).1, with_mgr_nat m (with_env (mgr_nat m) k'))
    /\ ((unlock_st mgr_nat with_mgr_nat ret m).1 = 0 -> ret = 0).
Proof.
  unfold unlock_st, unlock_nat. destruct (env_unlock (env (mgr_nat m))) as [u k']. exists k'.
  split; [done|]. cbn [fst]. destruct (u =? 0); [done|]. by destruct (Z.eqb_spec ret 0).
Qed.

(** What a copy gives: the destination holds the client's rules when it
    succeeds, and the source is untouched in any case. *)
Definition copy_result ret m : Prop :=
  source_kept m /\ (ret = 0 -> copied (tot_tbl_ents (table nt)) m).

Lemma copy_result_unlock ret m :
  copy_result ret m ->
  copy_result (unlock_st mgr_nat with_mgr_nat ret m).1 (unlock_st mgr_nat with_mgr_nat ret m).2.
Proof.
  intros [H1 H2]. destruct (unlock_st_spec ret m) as (k & -> & U). cbn [fst snd].
  split; [by apply source_kept_env|]. intros H. by apply copied_env, H2, U.
Qed.

Lemma walk_migrate m src_hdl :
  VALID_TBL_HDL src_hdl = true -> (BREAK_TBL_HDL src_hdl).1 = mem_of src ->
  table_cnt c = 1 -> copied 0 m ->
  exists ret m',
    ipa_NATI_walk_ipv4_tbl mgr_nat with_mgr_nat m src_hdl USE_NAT_TABLE (Some (migrate_rule dst_hdl))
    = Some (ret, m') /\ copy_result ret m'.
Proof.
  intros Hsv Hsb Hcnt Hcp. pose proof (ns_layout _ (nw_shape _ Hwf)) as Hl.
  destruct (break_tbl_hdl _ Hsv) as (nmi1 & Eb & _ & Hv). rewrite Eb in Hsb. cbn in Hsb. subst nmi1.
  unfold ipa_NATI_walk_ipv4_tbl. rewrite Hsv. cbn [negb orb VALID_WHICHTBL2USE].
  destruct (env_lock (env (mgr_nat m))) as [l k1].
  pose proof (copied_env _ _ k1 Hcp) as Hcp1. set (m1 := with_mgr_nat m _) in *.
  destruct (l =? 0); cbn [negb].
  2: { eexists _, _. split; [reflexivity|]. split; [by eapply copied_kept|done]. }
  rewrite Eb, Hv. cbn [negb]. destruct (cp_frame _ _ Hcp1) as [_ Hf].
  rewrite Hf, Hc by apply mem_of_dst. cbn [mbind option_bind]. rewrite Hcnt, Hnt. cbn [Z.eqb].
  change ([nt].[1 - 1]) with (Some nt). cbn [mbind option_bind].
  destruct (walk_filled nat_entry_interface nat_layout nat_meta_ok
    (fun st => table (walked_table mgr_nat (mem_of src) (1 - 1) st)) (migrate_rule dst_hdl nat_user)
    (table nt) copied (fun _ => source_kept) Hl) with (s := m1) as (ret & m2 & Ew & Hres); try done.
  - intros i s Hs. by rewrite (copied_table i).
  - intros i e s Hi He Hve Hs. apply copied_skip; [lia| |done]. intros x (Hx & Hx' & _). 
    rewrite He in Hx. injection Hx as <-. change (table_entry_is_valid e = false) in Hve. congruence.
  - intros i e mp mi s Hi He Hve Hs. by apply (migrate_step i e mp mi s Hi He Hve).
  - rewrite Ew. cbn [mbind option_bind].
    assert (Hr : copy_result ret m2).
    { destruct Hres as [[-> H]|[Hne H]]; split; try done. by eapply copied_kept. }
    apply copy_result_unlock in Hr. destruct (unlock_st _ _ _ _) as [r3 m3]. by eexists _, _.
Qed.
End Copy.
