(* ===== verification/MachSwitch.v ===== *)
(** * Switching between the tables in the hybrid states

    Moving the rules from one memory type to the other keeps what the client
    sees: every handle of the client names the same translation afterwards. *)
From S2P Require Import Prelude Bitfield Chain Table TableFacts TableDma NatRule NatRuleFacts Env.
From S2P Require Import NatTable NatOps NatWalk NatWf NatSpec NatState NatStats NatMap.
From S2P Require Import Statemach MachRun MachView MachCopy.

Section Switch.
Context {K : Type} {E : IpaEnv K} {laws : IpaEnvLaws K}.
Implicit Types (m : nat_mgr K) (sub : mem_sub).

Definition table_hdl m sub : Z :=
  match sub with DDR_SUB => ddr_tbl_hdl (nati_obj m) | SRAM_SUB => sram_tbl_hdl (nati_obj m) end.

(** The rules of a memory type's table. *)
Definition rules_in m sub : option (gmap Z nat_flow) :=
  x ← (state_rules (mgr_nat m)).[mem_of sub]; x.

Lemma rules_in_Some m sub R :
  rules_in m sub = Some R <-> (state_rules (mgr_nat m)).[mem_of sub] = Some (Some R).
Proof.
  unfold rules_in. destruct ((state_rules (mgr_nat m)).[mem_of sub]) as [x|]; cbn; [|done].
  split; [by intros ->|by intros [= ->]].
Qed.

(** The machine with both tables, as in the hybrid states. *)
Record both_tables m : Prop := {
  bt_inv : nat_inv (mgr_nat m);
  bt_maps : maps_ok m;
  bt_hdl : forall sub, VALID_TBL_HDL (table_hdl m sub) = true;
  bt_mem : forall sub, (BREAK_TBL_HDL (table_hdl m sub)).1 = mem_of sub;
  bt_rules : forall sub, is_Some (rules_in m sub)
}.

Lemma quiet_rules_in m m' sub : quiet m m' -> rules_in m' sub = rules_in m sub.
Proof. intros (_ & (_ & E1 & _) & _). unfold rules_in. by rewrite E1. Qed.

Lemma quiet_table_hdl m m' sub : quiet m m' -> table_hdl m' sub = table_hdl m sub.
Proof. intros ((E1 & _) & _). unfold table_hdl. by rewrite E1. Qed.

Lemma quiet_o2n m m' sub : quiet m m' -> o2n m' sub = o2n m sub.
Proof. intros ((E1 & E2) & _). unfold o2n. by rewrite E1, E2. Qed.

Lemma quiet_n2o m m' sub : quiet m m' -> n2o m' sub = n2o m sub.
Proof. intros ((E1 & E2) & _). unfold n2o. by rewrite E1, E2. Qed.

Lemma quiet_both m m' : quiet m m' -> both_tables m -> both_tables m'.
Proof.
  intros Q [H1 [H2 H3] H4 H5 H6]. pose proof Q as ((E1 & E2) & _ & Hi). split.
  - auto.
  - split; congruence.
  - intros sub. by rewrite (quiet_table_hdl _ _ _ Q).
  - intros sub. by rewrite (quiet_table_hdl _ _ _ Q).
  - intros sub. by rewrite (quiet_rules_in _ _ _ Q).
Qed.

(** [m'] after the rules of [src] were moved; [ret] is the status of the copy. *)
Definition migrated src m ret m' : Prop :=
  both_tables m' /\ pdns (mgr_nat m') = pdns (mgr_nat m)
  /\ rules_in m' src = rules_in m src /\ o2n m' src = o2n m src /\ n2o m' src = n2o m src
  /\ (ret = 0 -> exists R,
        rules_in m' (other_sub src) = Some R
        /\ handles_ok (o2n m' (other_sub src)) (n2o m' (other_sub src)) R
        /\ handles_total (n2o m' (other_sub src)) R
        /\ at_sub (tot_rules_in_table (nati_obj m')) (other_sub src) = u32 (Z.of_nat (size R))
        /\ forall Rs, rules_in m src = Some Rs ->
             view_of (o2n m' (other_sub src)) R
             = refresh (pdns (mgr_nat m)) <$> view_of (o2n m src) Rs).

(** The copy, into forgotten rules. *)
Lemma copy_spec m src :
  both_tables m -> (forall Rs, rules_in m src = Some Rs -> handles_ok (o2n m src) (n2o m src) Rs) ->
  o2n m (other_sub src) = ∅ -> n2o m (other_sub src) = ∅ ->
  at_sub (tot_rules_in_table (nati_obj m)) (other_sub src) = 0 ->
  exists ret m',
    ipa_nati_copy_ipv4_tbl mgr_nat with_mgr_nat m (table_hdl m src) (table_hdl m (other_sub src))
      (Some migrate_rule) = Some (ret, m')
    /\ migrated src m ret m'
    /\ nati_obj m' = with_tot_rules (nati_obj m) (tot_rules_in_table (nati_obj m')).
Proof.
  intros [Hinv Hmaps Hh Hm Hr] Hok Ho Hn Ht.
  destruct (Hr src) as [Rs HRs]. pose proof (proj1 (rules_in_Some _ _ _) HRs) as HRs'.
  destruct (Hr (other_sub src)) as [Rd HRd]. pose proof (proj1 (rules_in_Some _ _ _) HRd) as HRd'.
  destruct (table_of_rules _ _ _ Hinv HRs') as (c & nt & Hc & Hnt & H1 & Hwf & Hnmi & -> & _).
  assert (Hfin : forall ret m1, copy_result src nt m ret m1 ->
    migrated src m ret m1
    /\ nati_obj m1 = with_tot_rules (nati_obj m) (tot_rules_in_table (nati_obj m1))).
  { intros ret m1 [[K1 K2 K3 K4 K5 K6 K7] Hcp]. split; [|done]. destruct K2 as [Kp Kc].
    assert (Ksrc : rules_in m1 src = rules_in m src).
    { unfold rules_in, state_rules. rewrite !map_lookupZ, Kc; [done|by destruct src]. }
    split.
    - split; [done|done| | |].
      + intros sub. specialize (Hh sub). unfold table_hdl in *. by rewrite K6.
      + intros sub. specialize (Hm sub). unfold table_hdl in *. by rewrite K6.
      + intros sub. destruct K7 as [R7 HR7]. assert (sub = src \/ sub = other_sub src) as [->| ->]
          by (destruct sub, src; auto); [by rewrite Ksrc|]. exists R7. by apply rules_in_Some.
    - split_and!; try done. intros ->. destruct (cp_rules _ _ _ _ _ (Hcp eq_refl)) as (R & C1 & C2 & C3 & C4 & C5).
      exists R. split; [by apply rules_in_Some|]. split_and!; try done. intros Rs' HRs2.
      rewrite HRs in HRs2. injection HRs2 as <-. rewrite C5, rules_upto_all; [done|].
      pose proof (ns_layout _ (nw_shape _ Hwf)) as Hl. rewrite (wl_slots _ _ _ _ Hl). done. }
  unfold ipa_nati_copy_ipv4_tbl. destruct (env_lock (env (mgr_nat m))) as [l k1].
  set (m1 := with_mgr_nat m _). 
  assert (Hk1 : source_kept src m m1).
  { split; try done; [by apply nat_inv_env|by destruct m as [? [] ? ?]|by exists Rd]. }
  destruct (l =? 0); cbn [negb].
  2: { eexists _, _. split; [reflexivity|]. by apply Hfin. }
  destruct (NATI_clear_spec (mgr_nat m1) (table_hdl m (other_sub src)) _ Rd (sk_inv _ _ _ Hk1)
    (Hh _) (Hm _) HRd') as (r & s & Ec & Hi & Hp & C1 & C2).
  rewrite Ec. cbn [mbind option_bind]. pose proof (clear_frame _ _ _ _ Ec) as Hfr. rewrite Hm in Hfr.
  assert (Hr1 : 0 <= mem_of (other_sub src) < lengthZ (state_rules (mgr_nat m)))
    by (by eapply lookupZ_Some_range).
  set (m2 := with_mgr_nat m1 s).
  assert (Hk2 : source_kept src m m2).
  { apply source_kept_nat; try done. destruct C2 as [->|[->|[_ ->]]]; [| |by exists Rd].
    all: rewrite C1 by auto; eexists; by apply lookupZ_updateZ_eq. }
  destruct (Z.eqb_spec r 0) as [->|Hne]; cbn [negb].
  2: { pose proof (copy_result_unlock src nt m r m2 (conj Hk2 (fun H => False_ind _ (Hne H)))) as Hu.
       destruct (unlock_st _ _ _ _) as [r3 m3]. eexists _, _. split; [reflexivity|]. by apply Hfin. }
  assert (Hcp : copied src nt m 0 m2).
  { destruct Hk2 as [K1 K2 K3 K4 K5 K6 _]. split; try done. exists ∅.
    change (o2n m2 (other_sub src)) with (o2n m (other_sub src)).
    change (n2o m2 (other_sub src)) with (n2o m (other_sub src)). rewrite Ho, Hn.
    split; [|split; [apply handles_ok_empty|split; [apply handles_total_empty|split; [exact Ht|]]]].
    - cbn [m2 mgr_nat with_mgr_nat]. rewrite C1 by auto. by apply lookupZ_updateZ_eq.
    - change (rules_upto nt 0) with (∅ : gmap Z nat_flow). by rewrite !view_empty, fmap_empty. }
  destruct (walk_migrate src c nt (table_hdl m (other_sub src)) m Hc Hnt Hwf Hnmi (Hh _) (Hm _)
    (Hok _ HRs) m2 (table_hdl m src) (Hh _) (Hm _) H1 Hcp) as (r3 & m3 & Ew & Hres).
  match type of Ew with ?w = _ => match goal with |- context [ipa_NATI_walk_ipv4_tbl ?a ?b ?x ?d ?e ?f] =>
    change (ipa_NATI_walk_ipv4_tbl a b x d e f) with w end end.
  rewrite Ew. cbn [mbind option_bind]. pose proof (copy_result_unlock _ _ _ _ _ Hres) as Hu.
  destruct (unlock_st _ _ _ _) as [r4 m4]. eexists _, _. split; [reflexivity|]. by apply Hfin.
Qed.

(** ** The change of focus *)

(** Only the states of the machine may differ. *)
Definition refocused m m' : Prop :=
  map_array m' = map_array m
  /\ (exists p c, nati_obj m' = with_states (nati_obj m) p c)
  /\ same_tables (mgr_nat m) (mgr_nat m') /\ nat_inv (mgr_nat m').

Lemma with_states_id o : with_states o (prev_state o) (curr_state o) = o.
Proof. by destruct o. Qed.

Lemma refocused_quiet m m1 m' : quiet m m1 -> refocused m1 m' -> refocused m m'.
Proof.
  intros ((E1 & E2) & S1 & _) (E3 & (p & x & E4) & S2 & Hi). split; [congruence|].
  split; [exists p, x; congruence|]. split; [by eapply same_tables_trans|done].
Qed.

Lemma quiet_refocused m m1 m' : refocused m m1 -> quiet m1 m' -> refocused m m'.
Proof.
  intros (E3 & (p & x & E4) & S2 & Hi) ((E1 & E2) & S1 & Hi'). split; [congruence|].
  split; [exists p, x; congruence|]. split; [by eapply same_tables_trans|auto].
Qed.

Definition goto_trigger sub : ipa_nati_trigger :=
  match sub with DDR_SUB => NATI_TRIG_GOTO_DDR | SRAM_SUB => NATI_TRIG_GOTO_SRAM end.

Definition hybrid m : Prop :=
  curr_state (nati_obj m) = NATI_STATE_HYBRID \/ curr_state (nati_obj m) = NATI_STATE_HYBRID_DDR.

Lemma goto_callback f m sub :
  both_tables m -> hybrid m ->
  exists r m', _state_mach_tbl (statemach f) (curr_state (nati_obj m)) (goto_trigger sub) m
                 (goto_trigger sub) arb_null = Some (r, arb_null, m') /\ refocused m m'.
Proof.
  intros Hb Hy. destruct (bt_rules _ Hb sub) as [R HR%rules_in_Some].
  destruct (post_init_quiet (mgr_nat m) (table_hdl m sub) _ R (bt_inv _ Hb) (bt_hdl _ Hb sub)
    (bt_mem _ Hb sub) HR) as (r & s & Ep & Hs & Hi).
  assert (Hgo : exists m', (if r =? 0 then Some (r, arb_null (K := K), SET_NATIOBJ_STATE (with_mgr_nat m s)
       match sub with DDR_SUB => NATI_STATE_HYBRID_DDR | SRAM_SUB => NATI_STATE_HYBRID end)
       else Some (r, arb_null, with_mgr_nat m s)) = Some (r, arb_null, m') /\ refocused m m').
  { destruct (r =? 0); eexists; (split; [reflexivity|]); (split; [done|]); (split; [|done]);
      [by eexists _, _|]. eexists _, _. symmetry. apply with_states_id. }
  destruct Hgo as (m' & Hgo & Hrf). exists r, m'. split; [|done]. rewrite <- Hgo.
  destruct Hy as [Hy|Hy]; rewrite Hy; destruct sub; cbn [_state_mach_tbl goto_trigger];
    unfold _smGoToDdr, _smGoToSram; cbn [table_hdl] in Ep; rewrite Ep; cbn [mbind option_bind];
    by destruct (r =? 0).
Qed.

Lemma goto_runs f m sub :
  both_tables m -> hybrid m ->
  exists ret m', statemach (S f) m (goto_trigger sub) arb_null = Some (ret, arb_null, m')
    /\ refocused m m'.
Proof.
  intros Hb Hy.
  assert (Hq : forall m1, quiet m m1 -> both_tables m1 /\ hybrid m1).
  { intros m1 Q. split; [by eapply quiet_both|]. unfold hybrid. by destruct Q as ((-> & _) & _). }
  destruct (statemach_runs f m (goto_trigger sub) arb_null (bt_inv _ Hb)) as (ret & a & m' & Es & Hc).
  { intros m1 Q. destruct (Hq m1 Q) as [Hb1 Hy1].
    destruct (goto_callback f m1 sub Hb1 Hy1) as (r & m2 & Ec & Hr). rewrite Ec.
    eexists _, _, _. split; [reflexivity|apply Hr]. }
  exists ret, m'. destruct Hc as [(Q & ->)|(m1 & r & m2 & Q1 & Ec & Q2)].
  - split; [done|]. split; [apply Q|]. split; [|split; [apply Q|apply Q, Hb]].
    destruct Q as ((-> & _) & _). eexists _, _. symmetry. apply with_states_id.
  - destruct (Hq m1 Q1) as [Hb1 Hy1]. destruct (goto_callback f m1 sub Hb1 Hy1) as (r' & m2' & Ec' & Hr).
    rewrite Ec in Ec'. injection Ec' as -> -> ->. split; [done|].
    eapply quiet_refocused; [|exact Q2]. by eapply refocused_quiet.
Qed.

(** ** The switch *)

Lemma refocused_facts m m' :
  refocused m m' -> both_tables m ->
  both_tables m' /\ pdns (mgr_nat m') = pdns (mgr_nat m)
  /\ (forall sub, rules_in m' sub = rules_in m sub /\ o2n m' sub = o2n m sub
                  /\ n2o m' sub = n2o m sub /\ table_hdl m' sub = table_hdl m sub).
Proof.
  intros (E1 & (p & x & E2) & (P1 & P2 & _) & Hi) [H1 H2 H3 H4 H5].
  assert (Hsub : forall sub, rules_in m' sub = rules_in m sub /\ o2n m' sub = o2n m sub
                  /\ n2o m' sub = n2o m sub /\ table_hdl m' sub = table_hdl m sub).
  { intros sub. unfold rules_in, o2n, n2o, table_hdl. by rewrite P2, E1, E2. }
  split; [|done]. split; try done.
  - destruct H2. split; [congruence|]. by rewrite E2.
  - intros sub. by rewrite (proj2 (proj2 (proj2 (Hsub sub)))).
  - intros sub. by rewrite (proj2 (proj2 (proj2 (Hsub sub)))).
  - intros sub. by rewrite (proj1 (Hsub sub)).
Qed.

Definition smSwitch src :=
  match src with
  | SRAM_SUB => _smSwitchFromSramToDdr (K := K)
  | DDR_SUB => _smSwitchFromDdrToSram
  end.

Lemma forgotten m sub :
  both_tables m ->
  exists m', forget_rules m sub = Some m' /\ both_tables m'
    /\ o2n m' sub = ∅ /\ n2o m' sub = ∅ /\ at_sub (tot_rules_in_table (nati_obj m')) sub = 0
    /\ mgr_nat m' = mgr_nat m /\ table_hdl m' = table_hdl m
    /\ o2n m' (other_sub sub) = o2n m (other_sub sub) /\ n2o m' (other_sub sub) = n2o m (other_sub sub).
Proof.
  intros [H1 H2 H3 H4 H5]. set (m1 := count_rules m sub (fun _ => 0)).
  assert (Hm1 : maps_ok m1) by apply H2. eexists. split; [by apply forget_rules_spec|]. fold m1.
  rewrite !o2n_set_maps, !n2o_set_maps, !decide_True by done.
  rewrite !decide_False by (by destruct sub).
  split; [split; try done; by apply set_maps_ok|]. split_and!; try done. cbn. by rewrite at_set_sub.
Qed.

Lemma migrated_from m m1 src ret m' :
  pdns (mgr_nat m1) = pdns (mgr_nat m) -> rules_in m1 src = rules_in m src ->
  o2n m1 src = o2n m src -> n2o m1 src = n2o m src -> migrated src m1 ret m' -> migrated src m ret m'.
Proof.
  intros E1 E2 E3 E4. unfold migrated. by rewrite E1, E2, E3, E4.
Qed.

(** A switch out of [src]: when the copy succeeds, the client's view is the
    one it was, with the checksums of the present PDN addresses. *)
Lemma switch_spec f src m trig :
  both_tables m -> hybrid m ->
  (forall Rs, rules_in m src = Some Rs -> handles_ok (o2n m src) (n2o m src) Rs) ->
  exists ret m', smSwitch src (statemach (S f)) m trig arb_null = Some (ret, arb_null, m')
    /\ (migrated src m ret m' \/ (ret <> 0 /\ refocused m m')).
Proof.
  intros Hb Hy Hok.
  destruct (goto_runs f m (other_sub src) Hb Hy) as (r & m1 & Eg & Hrf).
  destruct (refocused_facts _ _ Hrf Hb) as (Hb1 & P1 & Hsub1).
  destruct (forgotten m1 (other_sub src) Hb1) as (m2 & Ef & Hb2 & O2 & N2 & T2 & G2 & D2 & O2' & N2').
  assert (Hinv : other_sub (other_sub src) = src) by (by destruct src). rewrite Hinv in *.
  destruct (Hsub1 src) as (U1 & U2 & U3 & U4).
  destruct (copy_spec m2 src Hb2) as (ret & m3 & Ec & Hmig & _); try done.
  { intros Rs. unfold rules_in. rewrite G2, O2', N2', U2, U3. fold (rules_in m1 src). rewrite U1. apply Hok. }
  exists (if r =? 0 then ret else r), (if r =? 0 then count_switch m3 (CHOOSE_MEM_SUB (nati_obj m)) ret else m1).
  split.
  - destruct src; cbn [smSwitch]; unfold _smSwitchFromSramToDdr, _smSwitchFromDdrToSram;
      cbn [collect_stats mbind option_bind]; cbn [goto_trigger other_sub] in Eg; rewrite Eg;
      cbn [mbind option_bind]; destruct (r =? 0); cbn [negb]; [|done| |done];
      cbn [other_sub] in Ef; rewrite Ef; cbn [mbind option_bind];
      cbn [table_hdl other_sub] in Ec; rewrite Ec; done.
  - destruct (Z.eqb_spec r 0) as [->|Hne]; [left|by right].
    apply (migrated_from m m2); try done.
    + by rewrite G2.
    + unfold rules_in. rewrite G2. exact U1.
    + by rewrite O2'.
    + by rewrite N2'.
    + destruct Hmig as ([B1 B2 B3 B4 B5] & M). split; [|exact M]. by split.
Qed.
End Switch.
