(* ===== verification/MachHybrid.v ===== *)
(** * Rules in the hybrid states

    Adding and deleting rules through the handle maps, seen from the client. *)
From S2P Require Import Prelude Bitfield Chain Table TableFacts TableDma NatRule NatRuleFacts Env.
From S2P Require Import NatTable NatOps NatWalk NatWf NatSpec NatState NatStats NatMap.
From S2P Require Import Statemach MachRun MachView MachCopy MachSwitch.

Section Hybrid.
Context {K : Type} {E : IpaEnv K} {laws : IpaEnvLaws K}.
Implicit Types (m : nat_mgr K) (sub : mem_sub).

(** The memory type in use, and what the client sees. *)
Definition active m : mem_sub := CHOOSE_MEM_SUB (nati_obj m).

Definition client_view m : gmap Z nat_flow :=
  view_of (o2n m (active m)) (default ∅ (rules_in m (active m))).

(** The invariant of the hybrid states: the client holds the SRAM handle. *)
Record hybrid_inv m : Prop := {
  hi_tables : both_tables m;
  hi_state : hybrid m;
  hi_handles : handles_ok (o2n m (active m)) (n2o m (active m)) (default ∅ (rules_in m (active m)))
}.

Lemma hybrid_hdl_active m : hybrid m -> hybrid_hdl m (table_hdl m SRAM_SUB) = table_hdl m (active m).
Proof.
  unfold hybrid, hybrid_hdl, active, CHOOSE_MEM_SUB, in_state.
  intros [->| ->]; [by rewrite bool_decide_eq_true_2|]. by rewrite bool_decide_eq_false_2.
Qed.

(** The machine after an operation on the active table gave it the rules [R]. *)
Lemma both_tables_rules m s R :
  both_tables m -> nat_inv s ->
  state_rules s = (state_rules (mgr_nat m)).[mem_of (active m) <- Some R] ->
  let m' := with_mgr_nat m s in
  both_tables m' /\ rules_in m' (active m) = Some R
  /\ forall sub, sub <> active m -> rules_in m' sub = rules_in m sub.
Proof.
  intros [H1 H2 H3 H4 H5] Hi Hs m'.
  assert (Hr : 0 <= mem_of (active m) < lengthZ (state_rules (mgr_nat m))).
  { destruct (H5 (active m)) as [Ra Ha%rules_in_Some]. by eapply lookupZ_Some_range. }
  assert (R1 : rules_in m' (active m) = Some R).
  { unfold rules_in. cbn [m' mgr_nat with_mgr_nat]. rewrite Hs. by rewrite lookupZ_updateZ_eq. }
  assert (R2 : forall sub, sub <> active m -> rules_in m' sub = rules_in m sub).
  { intros sub Hne. unfold rules_in. cbn [m' mgr_nat with_mgr_nat]. rewrite Hs, lookupZ_updateZ_ne; [done|].
    by destruct sub, (active m). }
  split; [|done]. split; try done. intros sub. destruct (decide (sub = active m)) as [->|Hne].
  - by exists R.
  - rewrite R2 by done. apply H5.
Qed.

Lemma both_tables_same m s :
  both_tables m -> nat_inv s -> state_rules s = state_rules (mgr_nat m) ->
  both_tables (with_mgr_nat m s) /\ forall sub, rules_in (with_mgr_nat m s) sub = rules_in m sub.
Proof.
  intros [H1 H2 H3 H4 H5] Hi Hs.
  assert (R2 : forall sub, rules_in (with_mgr_nat m s) sub = rules_in m sub)
    by (intros sub; unfold rules_in; cbn [mgr_nat with_mgr_nat]; by rewrite Hs).
  split; [|done]. split; try done. intros sub. rewrite R2. apply H5.
Qed.

Lemma strip_rule_wf r : wf_user_rule r -> wf_user_rule (strip_rule r).
Proof. intros []. split; cbn; (done || lia). Qed.

(** A counter may change without anything the client sees. *)
Lemma count_both m sub f : both_tables m -> both_tables (count_rules m sub f).
Proof. intros []. by split. Qed.

(** [_smAddRuleToTbl] on the active table. *)
Lemma add_to_active m trig r h0 :
  both_tables m -> wf_user_rule r -> u_pdn_index r < IPA_MAX_PDN_NUM ->
  exists ret h m',
    _smAddRuleToTbl m trig (arb_add_rule (table_hdl m (active m)) r h0)
      = Some (ret, arb_add_rule (table_hdl m (active m)) (strip_rule r) h, m')
    /\ both_tables m' /\ map_array m' = map_array m
    /\ curr_state (nati_obj m') = curr_state (nati_obj m)
    /\ hold_state (nati_obj m') = hold_state (nati_obj m)
    /\ map_pairs (nati_obj m') = map_pairs (nati_obj m)
    /\ exists R R', rules_in m (active m) = Some R /\ rules_in m' (active m) = Some R'
       /\ (ret = 0 -> exists pdn, (pdns (mgr_nat m)).[u_pdn_index r] = Some pdn /\ R !! h = None
             /\ VALID_RULE_HDL h = true /\ R' = <[h := flow_of (public_ip pdn) (strip_rule r)]> R)
       /\ (ret <> 0 -> h = 0 /\ (R' = R \/ exists h' v, R !! h' = None /\ R' = <[h' := v]> R)).
Proof.
  intros Hb Hw Hp. destruct (bt_rules _ Hb (active m)) as [R HR].
  destruct (NATI_add_rule_spec (mgr_nat m) (table_hdl m (active m)) (strip_rule r) h0 _ R
    (bt_inv _ Hb) (bt_hdl _ Hb _) (bt_mem _ Hb _) (proj1 (rules_in_Some _ _ _) HR)
    (strip_rule_wf _ Hw) Hp) as (ret & h & s & Ea & Hi & A0 & A1).
  unfold _smAddRuleToTbl. rewrite Ea. cbn [mbind option_bind].
  destruct (Z.eqb_spec ret 0) as [->|Hne].
  - destruct (A0 eq_refl) as (pdn & P1 & P2 & P3 & P4).
    destruct (both_tables_rules m s _ Hb Hi P4) as (B1 & B2 & _).
    eexists _, _, _. split; [reflexivity|]. split; [by apply count_both|]. split_and!; try done.
    eexists R, _. split; [done|]. split; [exact B2|]. split; [|done]. intros _. by exists pdn.
  - destruct (A1 Hne) as [-> Hcase]. eexists _, _, _. split; [reflexivity|].
    destruct Hcase as [Hs|(_ & h' & v & _ & Hh & Hs)].
    + destruct (both_tables_same m s Hb Hi Hs) as [B1 B2]. split; [done|]. split_and!; try done.
      exists R, R. split; [done|]. split; [by rewrite B2|]. split; [done|]. intros _. auto.
    + destruct (both_tables_rules m s _ Hb Hi Hs) as (B1 & B2 & _). split; [done|]. split_and!; try done.
      exists R, (<[h' := v]> R). split; [done|]. split; [done|]. split; [done|]. intros _.
      split; [done|]. right. by exists h', v.
Qed.

(** More rules under unmapped handles do not show. *)
Lemma view_unmapped (o2n n2o : gmap Z Z) R h v :
  handles_ok o2n n2o R -> R !! h = None ->
  handles_ok o2n n2o (<[h := v]> R) /\ view_of o2n (<[h := v]> R) = view_of o2n R.
Proof.
  intros [H1 H2] Hh. split.
  - split; [done|]. intros n Hn%H2. apply lookup_insert_is_Some'. by right.
  - apply map_eq. intros o. rewrite !lookup_view. destruct (o2n !! o) as [n|] eqn:Eo; [|done].
    cbn [mbind option_bind]. apply lookup_insert_ne. intros <-. apply H1 in Eo.
    destruct (H2 h); [by eexists|congruence].
Qed.

Lemma o2n_same m m' sub :
  map_array m' = map_array m -> map_pairs (nati_obj m') = map_pairs (nati_obj m) ->
  o2n m' sub = o2n m sub /\ n2o m' sub = n2o m sub.
Proof. intros E1 E2. unfold o2n, n2o. by rewrite E1, E2. Qed.

Lemma active_same m m' : curr_state (nati_obj m') = curr_state (nati_obj m) -> active m' = active m.
Proof. intros E1. unfold active, CHOOSE_MEM_SUB, in_state. by rewrite E1. Qed.

Lemma hybrid_same m m' : curr_state (nati_obj m') = curr_state (nati_obj m) -> hybrid m -> hybrid m'.
Proof. intros E1. unfold hybrid. by rewrite E1. Qed.

(** An operation that replaced the rules and the maps of the active table. *)
Lemma hybrid_inv_maps m m1 a b R :
  both_tables m1 -> hybrid m -> curr_state (nati_obj m1) = curr_state (nati_obj m) ->
  rules_in m1 (active m) = Some R -> handles_ok a b R ->
  hybrid_inv (set_maps m1 (active m) a b) /\ client_view (set_maps m1 (active m) a b) = view_of a R.
Proof.
  intros Hb Hy Es HR Hok. pose proof (bt_maps _ Hb) as Hm. set (m2 := set_maps _ _ _ _).
  assert (Ea : active m2 = active m) by (by apply active_same).
  assert (ER : rules_in m2 (active m) = Some R) by done.
  assert (Eo : o2n m2 (active m) = a) by (unfold m2; by rewrite o2n_set_maps, decide_True).
  assert (En : n2o m2 (active m) = b) by (unfold m2; by rewrite n2o_set_maps, decide_True).
  split.
  - split.
    + destruct Hb. split; try done. by apply set_maps_ok.
    + by apply (hybrid_same m).
    + by rewrite Ea, ER, Eo, En.
  - unfold client_view. by rewrite Ea, ER, Eo.
Qed.

(** An operation that only added unmapped rules to the active table. *)
Lemma hybrid_inv_unmapped m m1 R R' :
  hybrid_inv m -> both_tables m1 -> map_array m1 = map_array m ->
  map_pairs (nati_obj m1) = map_pairs (nati_obj m) ->
  curr_state (nati_obj m1) = curr_state (nati_obj m) ->
  rules_in m (active m) = Some R -> rules_in m1 (active m) = Some R' ->
  R' = R \/ (exists h v, R !! h = None /\ R' = <[h := v]> R) ->
  hybrid_inv m1 /\ client_view m1 = client_view m.
Proof.
  intros [Hb Hy Hok] Hb1 E1 E2 E3 HR HR' Hc. destruct (o2n_same m m1 (active m) E1 E2) as [Eo En].
  pose proof (active_same m m1 E3) as Ea. rewrite HR in Hok. cbn in Hok.
  assert (Hv : handles_ok (o2n m (active m)) (n2o m (active m)) R'
    /\ view_of (o2n m (active m)) R' = view_of (o2n m (active m)) R).
  { destruct Hc as [->|(h & v & Hh & ->)]; [done|]. by apply view_unmapped. }
  split.
  - split; [done|by apply (hybrid_same m)|]. rewrite Ea, HR', Eo, En. apply Hv.
  - unfold client_view. rewrite Ea, HR', Eo, HR. apply Hv.
Qed.

(** Adding a rule when the machine does not switch. *)
Lemma hybrid_add_spec sm m trig r h0 :
  hybrid_inv m -> wf_user_rule r -> u_pdn_index r < IPA_MAX_PDN_NUM ->
  curr_state (nati_obj m) = NATI_STATE_HYBRID_DDR \/ hold_state (nati_obj m) = true ->
  exists ret h m',
    _smAddRuleHybrid sm m trig (arb_add_rule (table_hdl m SRAM_SUB) r h0)
      = Some (ret, arb_add_rule (table_hdl m SRAM_SUB) (strip_rule r) h, m')
    /\ hybrid_inv m'
    /\ (ret = 0 -> exists pdn, (pdns (mgr_nat m)).[u_pdn_index r] = Some pdn
          /\ VALID_RULE_HDL h = true /\ client_view m !! h = None
          /\ client_view m' = <[h := flow_of (public_ip pdn) (strip_rule r)]> (client_view m))
    /\ (ret <> 0 -> client_view m' = client_view m).
Proof.
  intros Hi Hw Hp Hns. pose proof Hi as [Hb Hy Hok].
  destruct (add_to_active m trig r h0 Hb Hw Hp)
    as (ret & h & m1 & Ea & Hb1 & Em & Es & Eh & Ep & R & R' & HR & HR' & A0 & A1).
  unfold _smAddRuleHybrid. rewrite (hybrid_hdl_active m Hy), Ea. cbn [mbind option_bind].
  destruct (Z.eqb_spec ret 0) as [->|Hne].
  - destruct (A0 eq_refl) as (pdn & Hpd & Hh & Hvh & ->).
    rewrite HR in Hok. cbn in Hok. destruct (o2n_same m m1 (active m) Em Ep) as [Eo En].
    change (CHOOSE_MAPS (nati_obj m1)) with (at_sub (map_pairs (nati_obj m1)) (active m1)).
    rewrite (active_same m m1 Es).
    assert (Hn : n2o m1 (active m) !! h = None).
    { rewrite En. apply eq_None_not_Some. intros [? ?]%(ho_rules _ _ _ Hok). congruence. }
    assert (Ecv : client_view m = view_of (o2n m (active m)) R)
      by (unfold client_view; by rewrite HR).
    destruct (o2n m1 (active m) !! h) as [n|] eqn:Eoh.
    + (* the client already holds this handle for another rule *)
      unfold map_handles, ipa_nat_map_add. destruct (maps_lookup m1 (active m) (bt_maps _ Hb1)) as [L1 _].
      destruct (pair_indices m1 (active m) (bt_maps _ Hb1)) as (_ & V1 & _).
      rewrite V1, L1. cbn [negb mbind option_bind]. rewrite Eoh. cbn [negb mbind option_bind].
      assert (Hwm : with_maps m1 (map_array m1) = m1) by (by destruct m1). rewrite Hwm.
      destruct (hybrid_inv_unmapped m m1 R _ Hi Hb1 Em Ep Es HR HR') as [I1 I2]; [right; by eexists _, _|].
      eexists _, _, _. split; [reflexivity|]. split; [done|]. split; [done|]. done.
    + rewrite (map_handles_spec m1 (active m) h h (bt_maps _ Hb1) Eoh Hn). cbn [mbind option_bind].
      rewrite Eo in Eoh |- *. rewrite En in Hn |- *.
      destruct (handles_ok_add _ _ _ Hok h h (flow_of (public_ip pdn) (strip_rule r)) Eoh Hh) as [B1 B2].
      destruct (hybrid_inv_maps m m1 _ _ _ Hb1 Hy Es HR' B1) as [I1 I2].
      eexists _, _, _. split; [reflexivity|]. split; [exact I1|]. split; [|done]. intros _.
      exists pdn. split; [done|]. split; [done|]. rewrite I2, B2, Ecv. split; [|done].
      by rewrite lookup_view, Eoh.
  - destruct (A1 Hne) as [-> Hc].
    destruct (hybrid_inv_unmapped m m1 R R' Hi Hb1 Em Ep Es HR HR' Hc) as [I1 I2].
    assert (Hsw : in_state (nati_obj m1) NATI_STATE_HYBRID && negb (hold_state (nati_obj m1)) = false).
    { unfold in_state. rewrite Es, Eh. destruct Hns as [->| ->]; [done|]. apply andb_false_r. }
    rewrite Hsw. eexists _, _, _. split; [reflexivity|]. done.
Qed.

(** Forgetting a mapped handle. *)
Lemma map_del_pair m sub o n :
  maps_ok m -> o2n m sub !! o = Some n -> n2o m sub !! n = Some o ->
  let p := at_sub (map_pairs (nati_obj m)) sub in
  let ms := (map_array m).[orig2new_map p <- delete o (o2n m sub)] in
  ipa_nat_map_del (map_array m) (orig2new_map p) o = Some (0, Some n, ms)
  /\ ipa_nat_map_del ms (new2orig_map p) n
     = Some (0, Some o, ms.[new2orig_map p <- delete n (n2o m sub)]).
Proof.
  intros Hm Ho Hn p ms. destruct (maps_lookup m sub Hm) as [E1 E2].
  destruct (pair_indices m sub Hm) as (Hne & V1 & V2). unfold ipa_nat_map_del.
  unfold ms, p. rewrite V1, V2, E1. cbn [negb mbind option_bind]. rewrite Ho. split; [done|].
  rewrite lookupZ_updateZ_ne, E2 by done. cbn [mbind option_bind]. by rewrite Hn.
Qed.

Lemma map_del_missing m sub o :
  maps_ok m -> o2n m sub !! o = None ->
  ipa_nat_map_del (map_array m) (orig2new_map (at_sub (map_pairs (nati_obj m)) sub)) o
  = Some (-1, None, map_array m).
Proof.
  intros Hm Ho. destruct (maps_lookup m sub Hm) as [E1 _]. destruct (pair_indices m sub Hm) as (_ & V1 & _).
  unfold ipa_nat_map_del. rewrite V1, E1. cbn [negb mbind option_bind]. by rewrite Ho.
Qed.

(** The machine goes back to SRAM after this deletion. *)
Definition switches_back m : bool :=
  in_state (nati_obj m) NATI_STATE_HYBRID_DDR
  && (u32 (at_sub (tot_rules_in_table (nati_obj m)) (active m) - 1) <=? back_to_sram_thresh (nati_obj m))
  && negb (hold_state (nati_obj m)).

(** [ipa_NATI_del_ipv4_rule] on the active table: the rule is gone, or the
    mutex was not available and nothing changed, or the driver refused. *)
Lemma del_from_active m n R :
  both_tables m -> rules_in m (active m) = Some R -> is_Some (R !! n) ->
  exists ret s,
    ipa_NATI_del_ipv4_rule (mgr_nat m) (table_hdl m (active m)) n = Some (ret, s)
    /\ (ret <> - EIO -> exists R', (R' = R \/ R' = delete n R)
          /\ both_tables (with_mgr_nat m s) /\ rules_in (with_mgr_nat m s) (active m) = Some R').
Proof.
  intros Hb HR Hn.
  destruct (NATI_del_rule_spec (mgr_nat m) (table_hdl m (active m)) n _ R (bt_inv _ Hb) (bt_hdl _ Hb _)
    (bt_mem _ Hb _) (proj1 (rules_in_Some _ _ _) HR) Hn) as (ret & s & Ed & A0 & A1 & A2).
  exists ret, s. split; [done|]. intros Hne.
  assert (Hcase : exists R', nat_inv s /\ (R' = R \/ R' = delete n R)
    /\ state_rules s = (state_rules (mgr_nat m)).[mem_of (active m) <- Some R']).
  { destruct A2 as [H|[H|[H|H]]]; [| | |done].
    - destruct A0 as [I1 I2]; [auto|]. exists (delete n R). auto.
    - destruct A0 as [I1 I2]; [auto|]. exists (delete n R). auto.
    - destruct (A1 H) as [I1 I2]. exists R. split; [done|]. split; [by left|]. rewrite I2. symmetry.
      by apply updateZ_id, rules_in_Some. }
  destruct Hcase as (R' & Hinv' & HR' & Hs). exists R'. split; [done|].
  destruct (both_tables_rules m s R' Hb Hinv' Hs) as (Bt & Br & _). done.
Qed.

(** Deleting a rule when the machine does not switch: the client's handle is
    gone, even when the mutex made the deletion fail. *)
Lemma hybrid_del_spec sm m trig o :
  hybrid_inv m -> is_Some (client_view m !! o) -> switches_back m = false ->
  exists ret m',
    _smDelRuleHybrid sm m trig (arb_rule (table_hdl m SRAM_SUB) o)
      = Some (ret, arb_rule (table_hdl m SRAM_SUB) o, m')
    /\ (ret <> - EIO -> hybrid_inv m' /\ client_view m' = delete o (client_view m)).
Proof.
  intros Hi Ho Hsw. pose proof Hi as [Hb Hy Hok]. pose proof (bt_maps _ Hb) as Hm.
  destruct (bt_rules _ Hb (active m)) as [R HR]. rewrite HR in Hok. cbn in Hok.
  assert (Ecv : client_view m = view_of (o2n m (active m)) R) by (unfold client_view; by rewrite HR).
  rewrite Ecv, (view_is_Some _ _ _ Hok) in Ho. destruct Ho as [n Hn].
  pose proof (proj1 (ho_inverse _ _ _ Hok _ _) Hn) as Hno.
  destruct (map_del_pair m (active m) o n Hm Hn Hno) as [D1 D2].
  destruct (del_from_active m n R Hb HR) as (ret & s & Ed & Hdel);
    [apply (ho_rules _ _ _ Hok); by exists o|].
  unfold _smDelRuleHybrid.
  change (CHOOSE_MAPS (nati_obj m)) with (at_sub (map_pairs (nati_obj m)) (active m)).
  rewrite D1. cbn [mbind option_bind map_array with_maps]. rewrite D2. cbn [mbind option_bind].
  set (m1 := with_maps _ _).
  change (hybrid_hdl m1 (table_hdl m SRAM_SUB)) with (hybrid_hdl m (table_hdl m SRAM_SUB)).
  rewrite (hybrid_hdl_active m Hy). unfold _smDelRuleFromTbl. cbn [mgr_nat m1 with_maps].
  rewrite Ed. cbn [mbind option_bind].
  change (CHOOSE_MEM_SUB (nati_obj (with_mgr_nat m1 s))) with (active m).
  set (m2 := if ret =? 0 then _ else _).
  assert (Hnsw : (ret =? 0) && in_state (nati_obj m2) NATI_STATE_HYBRID_DDR
    && (at_sub (tot_rules_in_table (nati_obj m2)) (CHOOSE_MEM_SUB (nati_obj m2))
        <=? back_to_sram_thresh (nati_obj m2)) && negb (hold_state (nati_obj m2)) = false).
  { unfold m2. destruct (ret =? 0); [|done].
    change (CHOOSE_MEM_SUB (nati_obj (count_rules (with_mgr_nat m1 s) (active m) (fun x => x - 1))))
      with (active m).
    cbn [andb nati_obj count_rules with_obj tot_rules_in_table with_tot_rules]. rewrite at_set_sub. exact Hsw. }
  rewrite Hnsw. eexists _, _. split; [reflexivity|]. intros Hne.
  destruct (Hdel Hne) as (R' & HR' & Bt & Br).
  destruct (handles_ok_forget _ _ _ Hok o n R' Hn HR') as [B1 B2].
  assert (Em2 : exists mX, m2 = set_maps mX (active m) (delete o (o2n m (active m))) (delete n (n2o m (active m)))
    /\ both_tables mX /\ rules_in mX (active m) = Some R' /\ curr_state (nati_obj mX) = curr_state (nati_obj m)).
  { unfold m2. destruct (ret =? 0).
    - exists (count_rules (with_mgr_nat m s) (active m) (fun x => x - 1)).
      split; [done|]. split; [by apply count_both|done].
    - by exists (with_mgr_nat m s). }
  destruct Em2 as (mX & -> & X1 & X2 & X3).
  destruct (hybrid_inv_maps m mX _ _ _ X1 Hy X3 X2 B1) as [I1 I2]. by rewrite I2, B2, Ecv.
Qed.
End Hybrid.
