(* ===== verification/Demo.v ===== *)
(** * A concrete environment

    [sim_env] answers every call of the library with success, except that the
    DMA ioctl returns the statuses its script lists first.  It satisfies the
    laws the theorems assume, so they can be applied to concrete runs. *)
From S2P Require Import Prelude Bitfield Table TableDma NatRule NatRuleFacts Env NatTable NatOps.
From S2P Require Import NatWf NatSpec NatState NatWalk NatMap Statemach NatDrv MachRun MachView.
From S2P Require Import MachCopy MachSwitch MachHybrid.

(** The statuses the next DMA ioctls return (0 when the list is over) and the
    bytes of SRAM the driver offers. *)
Record sim := mk_sim { sim_script : list Z; sim_sram : Z }.

Definition sim_dma (cmd : ipa_ioc_nat_dma_cmd) (m : tbl_mem) (k : sim) : Z * tbl_mem * sim :=
  match sim_script k with
  | st :: l =>
      (st, (if st =? 0 then default m (dma_effect (cmd_ones cmd) m) else m), mk_sim l (sim_sram k))
  | [] => (0, default m (dma_effect (cmd_ones cmd) m), k)
  end.

(** Memory is mapped at address 4096 and holds ones; the status of deleting a
    table is given. *)
Definition sim_env_with (del_status : Z) : IpaEnv sim := {|
  env_lock k := (0, k);
  env_unlock k := (0, k);
  env_mutexattr_init k := (0, k);
  env_mutexattr_settype k := (0, k);
  env_mutex_init k := (0, k);
  env_calloc _ k := (true, k);
  env_open _ k := (3, k);
  env_close _ k := (0, k);
  env_mmap _ _ k := (4096, k);
  env_munmap _ _ k := k;
  env_initial _ _ size := 2 ^ (8 * size) - 1;
  env_get_hw_version _ k := (0, 17, k);
  env_get_sram_info _ k := (0, mk_sram_info (sim_sram k) 0 (sim_sram k), k);
  env_alloc_table _ _ _ k := (0, 0, k);
  env_del_table _ _ _ k := (del_status, k);
  env_v4_init _ _ k := (0, k);
  env_ipv6ct_init _ _ k := (0, k);
  env_modify_pdn _ _ k := (0, k);
  env_vote_clock _ _ k := (0, k);
  env_table_dma _ cmd m k := sim_dma cmd m k
|}.

Lemma sim_laws_with del_status : IpaEnvLaws sim (E := sim_env_with del_status).
Proof.
  split; cbn.
  - intros fd cmd m k m' k' m1 H Hm ty. unfold sim_dma in H. destruct (sim_script k) as [|st l].
    + injection H as <- _. by rewrite Hm.
    + injection H as -> <- _. by rewrite Hm.
  - intros fd cmd m k ret m' k' H Hr ty. unfold sim_dma in H. destruct (sim_script k) as [|st l].
    + injection H as <- _ _. done.
    + injection H as -> <- _. by rewrite (proj2 (Z.eqb_neq ret 0)).
Qed.

Lemma sim_mem_laws_with del_status : IpaMemLaws sim (E := sim_env_with del_status).
Proof.
  split; cbn.
  - intros _ _ _ a _ [= <- _]. lia.
  - intros _ _ _ _ off _ [= <- _]. done.
  - intros _ k info _ [= <- _]. cbn. lia.
Qed.

#[export] Instance sim_env : IpaEnv sim := sim_env_with 0.
#[export] Instance sim_laws : IpaEnvLaws sim := sim_laws_with 0.
#[export] Instance sim_mem_laws : IpaMemLaws sim := sim_mem_laws_with 0.

Definition sim0 : sim := mk_sim [] 4096.

(** A client behind the translation talks UDP to one server. *)
Definition demo_rule (ip port pub : Z) : ipa_nat_ipv4_rule :=
  mk_ipv4_rule 0x08080808 ip 53 port pub 17 0 1 0 5 0 false false false false.

(** A table of six records (four buckets) in DDR and four rules, two of them
    in one bucket. *)
Definition demo_calls : list nat_call :=
  [call_add_tbl 0 0x0a000001 6;
   call_add_rule 1 (demo_rule 5 6 7); call_add_rule 1 (demo_rule 5 6 8);
   call_add_rule 1 (demo_rule 5 7 7); call_add_rule 1 (demo_rule 5 8 7)].

Definition state_after (s : nat_state sim) (calls : list nat_call) : nat_state sim :=
  match run_calls s calls with Some (_, s') => s' | None => s end.

Definition runs (s : nat_state sim) (calls : list nat_call) : bool :=
  match run_calls s calls with Some _ => true | None => false end.

Lemma state_after_run s calls :
  runs s calls = true -> exists tr, nat_run s tr (state_after s calls).
Proof.
  unfold runs, state_after. destruct (run_calls s calls) as [[tr s']|] eqn:Er; [|done].
  intros _. exists tr. by eapply run_calls_run.
Qed.

Definition demo_state (k : sim) : nat_state sim :=
  state_after (nat_state_init k) demo_calls.

(** The DDR cache of a state and its table. *)
Definition ddr_cache (s : nat_state sim) : ipa_nat_cache :=
  default nat_cache_zero ((ipv4_nat_cache s).[IPA_NAT_MEM_IN_DDR]).

Definition ddr_table (s : nat_state sim) : ipa_nat_ip4_table_cache :=
  default ip4_table_cache_zero ((ip4_tbl (ddr_cache s)).[0]).

Lemma ddr_table_wf s :
  nat_inv s -> table_cnt (ddr_cache s) = 1 ->
  wf_nat (ddr_table s) /\ is_Some (ipa_desc (ddr_cache s)).
Proof.
  intros Hinv Hc. destruct (nat_inv_cache s 0 Hinv) as (c & E & Hok & _); [by left|].
  assert (Ec : ddr_cache s = c) by (unfold ddr_cache, IPA_NAT_MEM_IN_DDR; by rewrite E).
  unfold ddr_table. rewrite Ec in *.
  destruct Hok as (nt & Hnt & [[H _]|(_ & _ & H & Hd & _)]); [congruence|]. by rewrite Hnt.
Qed.

Lemma demo_inv : nat_inv (demo_state sim0).
Proof.
  destruct (state_after_run (nat_state_init sim0) demo_calls) as [tr Hr]; [vm_compute; reflexivity|].
  eapply nat_run_spec; [apply nat_inv_init|exact Hr].
Qed.

Definition demo_cache : ipa_nat_cache := ddr_cache (demo_state sim0).
Definition demo_nt : ipa_nat_ip4_table_cache := ddr_table (demo_state sim0).

Lemma demo_desc : ipa_desc demo_cache = Some (mk_ipa_descriptor 3 17).
Proof. vm_compute. reflexivity. Qed.

Lemma demo_wf : wf_nat demo_nt.
Proof. apply (ddr_table_wf _ demo_inv). vm_compute. reflexivity. Qed.

(** ** Concrete machines

    A machine in the hybrid state over tables made by runs of the library, and
    machines reached by calls of the public API. *)

(** ** Machines over given tables *)

(** Every rule of the table under its own handle. *)
Definition own_handles (R : gmap Z nat_flow) : gmap Z Z := map_imap (fun h _ => Some h) R.

Lemma lookup_own R h n : own_handles R !! h = Some n <-> n = h /\ is_Some (R !! h).
Proof.
  unfold own_handles. rewrite map_lookup_imap. destruct (R !! h) as [f|]; cbn [mbind option_bind].
  - split; [intros [= <-]; eauto|by intros [-> _]].
  - split; [done|]. by intros [_ [? [=]]].
Qed.

Lemma handles_ok_own R : handles_ok (own_handles R) (own_handles R) R.
Proof.
  split.
  - intros o n. rewrite !lookup_own. by split; intros [-> ?].
  - intros n [o H]. by apply lookup_own in H as [_ H].
Qed.

Definition rules_at {K} (s : nat_state K) (mem : Z) : gmap Z nat_flow :=
  default ∅ (x ← (state_rules s).[mem]; x).

(** A machine in the given state with both tables, whose client has a handle
    for every rule of the active table. *)
Definition machine_over {K} (s : nat_state K) (st : ipa_nati_state) (held : bool) : nat_mgr K :=
  mk_nat_mgr s
    (mk_nati_obj NATI_STATE_HYBRID st held NATI_STATE_NULL (MAKE_TBL_HDL 1 0) (MAKE_TBL_HDL 1 1) 6 1
       (mk_per_mem (Z.of_nat (size (rules_at s 0))) (Z.of_nat (size (rules_at s 1))))
       (map_pairs nati_obj_init) (sw_stats nati_obj_init))
    [own_handles (rules_at s 0); own_handles (rules_at s 0);
     own_handles (rules_at s 1); own_handles (rules_at s 1); ∅] true.

Definition both_exist {K} (s : nat_state K) : bool :=
  match (state_rules s).[0], (state_rules s).[1] with
  | Some (Some _), Some (Some _) => true
  | _, _ => false
  end.

Lemma machine_over_inv {K} (s : nat_state K) st held :
  nat_inv s -> both_exist s = true -> st = NATI_STATE_HYBRID \/ st = NATI_STATE_HYBRID_DDR ->
  hybrid_inv (machine_over s st held)
  /\ client_view (machine_over s st held)
     = rules_at s (if decide (st = NATI_STATE_HYBRID) then 1 else 0).
Proof.
  intros Hs Hb Hst. unfold both_exist in Hb.
  destruct ((state_rules s).[0]) as [[R0|]|] eqn:E0; [|done..].
  destruct ((state_rules s).[1]) as [[R1|]|] eqn:E1; [|done..].
  assert (A0 : rules_at s 0 = R0) by (unfold rules_at; by rewrite E0).
  assert (A1 : rules_at s 1 = R1) by (unfold rules_at; by rewrite E1).
  set (m := machine_over s st held).
  assert (Hr : forall sub, rules_in m sub = Some (match sub with DDR_SUB => R0 | SRAM_SUB => R1 end)).
  { intros []; unfold rules_in; change (mgr_nat m) with s;
      [change (mem_of DDR_SUB) with 0|change (mem_of SRAM_SUB) with 1]; [by rewrite E0|by rewrite E1]. }
  assert (Ho : forall sub, o2n m sub = own_handles (match sub with DDR_SUB => R0 | SRAM_SUB => R1 end)
                        /\ n2o m sub = own_handles (match sub with DDR_SUB => R0 | SRAM_SUB => R1 end)).
  { intros []; unfold o2n, n2o; cbn; by rewrite ?A0, ?A1. }
  assert (Hv : forall R, view_of (own_handles R) R = R).
  { intros R. apply map_eq. intros o. rewrite lookup_view.
    destruct (own_handles R !! o) as [n|] eqn:En.
    - apply lookup_own in En as [-> _]. done.
    - destruct (R !! o) as [f|] eqn:Ef; [|done]. exfalso.
      assert (own_handles R !! o = Some o) by (apply lookup_own; eauto). congruence. }
  split.
  - split.
    + split; [done|done|by intros []|by intros []|]. intros sub. rewrite Hr. by eexists.
    + exact Hst.
    + rewrite Hr. destruct (Ho (active m)) as [-> ->]. apply handles_ok_own.
  - unfold client_view. rewrite Hr. destruct (Ho (active m)) as [-> _]. cbn [default].
    rewrite Hv. unfold active, CHOOSE_MEM_SUB, in_state. change (curr_state (nati_obj m)) with st.
    destruct Hst as [->| ->]; cbn; by rewrite ?A0, ?A1.
Qed.

(** Both tables and three rules in SRAM. *)
Definition hybrid_nat : nat_state sim :=
  state_after (nat_state_init sim0)
    [call_add_tbl 1 0x0a000001 6; call_add_tbl 0 0x0a000001 20;
     call_add_rule 0x80000001 (demo_rule 5 6 7); call_add_rule 0x80000001 (demo_rule 5 6 8);
     call_add_rule 0x80000001 (demo_rule 5 7 7)].

Lemma hybrid_nat_inv : nat_inv hybrid_nat.
Proof.
  destruct (state_after_run (nat_state_init sim0)
    [call_add_tbl 1 0x0a000001 6; call_add_tbl 0 0x0a000001 20;
     call_add_rule 0x80000001 (demo_rule 5 6 7); call_add_rule 0x80000001 (demo_rule 5 6 8);
     call_add_rule 0x80000001 (demo_rule 5 7 7)]) as [tr Hr]; [vm_compute; reflexivity|].
  eapply nat_run_spec; [apply nat_inv_init|exact Hr].
Qed.

Definition hybrid_demo (held : bool) : nat_mgr sim := machine_over hybrid_nat NATI_STATE_HYBRID held.

Lemma hybrid_demo_inv held : hybrid_inv (hybrid_demo held).
Proof.
  apply machine_over_inv; [exact hybrid_nat_inv|vm_compute; reflexivity|by left].
Qed.

(** ** Runs of the public API *)

(** The machine after a table was made, with the table's handle. *)
Definition api_open (kind : string) (n sram : Z) : option (nat_mgr sim * Z) :=
  '(_, h, m) ← ipa_nat_add_ipv4_tbl (nat_mgr_init (mk_sim [] sram)) 0x0a000001 (Some kind) n (Some 0);
  h ← h; Some (m, h).

(** A step of a client: a rule is added, or a handle deleted. *)
Inductive api_step := api_add (r : ipa_nat_ipv4_rule) | api_del (rule_hdl : Z).

(** Status and rule handle of a step. *)
Definition api_exec (m : nat_mgr sim) (h : Z) (st : api_step) : option (Z * Z * nat_mgr sim) :=
  match st with
  | api_add r => '(ret, _, rh, m) ← ipa_nat_add_ipv4_rule m h (Some r) (Some 0); Some (ret, default 0 rh, m)
  | api_del rh => '(ret, m) ← ipa_nat_del_ipv4_rule m h rh; Some (ret, rh, m)
  end.

Fixpoint api_run (m : nat_mgr sim) (h : Z) (steps : list api_step) : option (list (Z * Z) * nat_mgr sim) :=
  match steps with
  | [] => Some ([], m)
  | st :: steps' =>
      '(ret, rh, m) ← api_exec m h st;
      '(l, m) ← api_run m h steps'; Some ((ret, rh) :: l, m)
  end.
