(* ===== verification/Ipv6Calls.v ===== *)
(** * Every IPv6 connection tracking call follows the contract

    In a state that satisfies the invariant a call either is a step of the
    contract and keeps the invariant, or dereferences the null descriptor
    because no table was created. *)
From S2P Require Import Prelude Bitfield Chain Table Sizing TableFacts TableDma TableInsert.
From S2P Require Import TableHandle TableHold NatRule Ipv6Rule Ipv6Facts Env TableMem Ipv6ct.
From S2P Require Import Ipv6Ops Ipv6State Demo.

Section Calls.
Context {K : Type} {E : IpaEnv K} {E6 : Ipv6Env K} {laws : IpaEnvLaws K} {mlaws : IpaMemLaws K}.
Implicit Types (s : ct_state K) (v : ipa_ipv6ct).

(** The call is defined and a step of the contract. *)
Definition ct_follows s call : Prop :=
  exists ret out s', ct_exec s call = Some (ret, out, s')
    /\ ct_inv s' /\ ct_step (ct_abs_of s) call ret out (ct_abs_of s').

(** A state with an open descriptor. *)
Definition ct_opened v ct d : Prop :=
  ct_tables v = [ct] /\ ct_ipa_desc v = Some d /\ ct_table_cnt v = 1
  /\ (ver d <? IPA_HW_v4_0) = false /\ (md_valid (ct_mem_desc ct) = true -> wf_ct (ct_table ct)).

Lemma ct_inv_cases s :
  ct_inv s ->
  (ct_ipa_desc (ipv6ct s) = None /\ ct_abs_of s = ct_no_table /\ ct_table_cnt (ipv6ct s) = 0
   /\ exists ct, ct_tables (ipv6ct s) = [ct] /\ md_valid (ct_mem_desc ct) = false)
  \/ exists ct d, ct_opened (ipv6ct s) ct d
     /\ ct_abs_of s = if md_valid (ct_mem_desc ct)
                      then ct_open (table_entries (ct_table ct)) (ct_rules (ct_table ct)) else ct_stuck.
Proof.
  intros (ct & Ht & H). unfold ct_abs_of. destruct (ct_ipa_desc (ipv6ct s)) as [d|] eqn:Ed.
  - right. exists ct, d. destruct H as (H1 & H2 & H3). rewrite Ht.
    split; [|done]. split_and!; try done. by apply Z.ltb_ge.
  - left. destruct H as [H1 H2]. split_and!; try done. by exists ct.
Qed.

Lemma opened_inv v ct d (k : K) : ct_opened v ct d -> ct_inv (mk_ct_state v k).
Proof.
  intros (H1 & H2 & H3 & H4%Z.ltb_ge & H5). exists ct. cbn. by rewrite H2.
Qed.

Lemma opened_with v ct ct' d :
  ct_opened v ct d -> (md_valid (ct_mem_desc ct') = true -> wf_ct (ct_table ct')) ->
  ct_opened (with_ct v (1 - 1) ct') ct' d.
Proof. intros (H1 & H2 & H3 & H4 & H5) H. split_and!; try done. cbn. by rewrite H1. Qed.

Lemma opened_abs v ct d (k : K) :
  ct_opened v ct d ->
  ct_abs_of (mk_ct_state v k)
  = if md_valid (ct_mem_desc ct)
    then ct_open (table_entries (ct_table ct)) (ct_rules (ct_table ct)) else ct_stuck.
Proof. intros (H1 & H2 & _). unfold ct_abs_of. cbn. by rewrite H1, H2. Qed.

Lemma unlock_ct_spec ret v (k : K) :
  exists r k', unlock_ct ret v k = (r, mk_ct_state v k')
    /\ (ret <> 0 -> r = ret) /\ (ret = 0 -> r = 0 \/ r = - EPERM).
Proof.
  unfold unlock_ct. destruct (env_v6_unlock k) as [u k']. eexists _, k'. split; [done|].
  destruct (u =? 0); [split; auto|]. destruct (Z.eqb_spec ret 0); split; (done || auto).
Qed.

Lemma ct_handle_valid h : 0 <= h -> invalid_ct_handle h = false -> h = 1.
Proof.
  unfold invalid_ct_handle, IPA_TABLE_INVALID_ENTRY, IPA_IPV6CT_MAX_TBLS.
  rewrite orb_false_iff, Z.eqb_neq, Z.ltb_ge. lia.
Qed.

(** A failing call that changes nothing. *)
Lemma refused_follows s call ret k out :
  ct_inv s -> ret <> 0 -> out = ct_failed_out call ->
  ct_exec s call = Some (ret, out, mk_ct_state (ipv6ct s) k) -> ct_follows s call.
Proof.
  intros Hi Hr -> He. eexists _, _, _. split; [exact He|]. split; [exact Hi|].
  by apply ct_st_refused.
Qed.

(** ** Tables *)

Lemma bail_closed ret v (k : K) ct :
  ct_tables v = [ct] -> md_valid (ct_mem_desc ct) = false -> ct_table_cnt v = 0 ->
  exists s', bail_ipa_desc ret v k = (ret, Some 0, s') /\ ct_inv s' /\ ct_abs_of s' = ct_no_table.
Proof.
  intros H1 H2 H3. unfold bail_ipa_desc. rewrite H3. eexists. split; [reflexivity|].
  split; [|done]. exists ct. cbn. by rewrite H1.
Qed.

(** The two ways a table creation ends. *)
Definition tbl_outcome n ret (out : option Z) s' : Prop :=
  ct_inv s'
  /\ ((ret <> 0 /\ out = Some 0 /\ ct_abs_of s' = ct_no_table)
      \/ (ret = 0 /\ out = Some 1 /\ exists base e, sizes IPA_NAT_MEM_IN_DDR n = Some (base, e)
            /\ ct_abs_of s' = ct_open base ∅)).

Lemma bail_outcome n ret v (k : K) ct :
  ct_tables v = [ct] -> md_valid (ct_mem_desc ct) = false -> ct_table_cnt v = 0 -> ret <> 0 ->
  exists r out s', Some (bail_ipa_desc ret v k) = Some (r, out, s') /\ tbl_outcome n r out s'.
Proof.
  intros H1 H2 H3 Hr. destruct (bail_closed ret v k ct H1 H2 H3) as (s' & -> & B1 & B2).
  eexists _, _, _. split; [reflexivity|]. split; [done|]. by left.
Qed.

Lemma add_tbl_closed s n h ct :
  ct_ipa_desc (ipv6ct s) = None -> ct_table_cnt (ipv6ct s) = 0 -> ct_tables (ipv6ct s) = [ct] ->
  md_valid (ct_mem_desc ct) = false -> 0 < n ->
  exists ret out s', ipa_ipv6ct_add_tbl s n (Some h) = Some (ret, out, s') /\ tbl_outcome n ret out s'.
Proof.
  intros Ed Ec Et Hmd Hn. unfold ipa_ipv6ct_add_tbl.
  rewrite (proj2 (Z.eqb_neq n 0)), Ec, Ed by lia. cbn [Z.leb IPA_IPV6CT_MAX_TBLS Z.compare].
  destruct (ipa_descriptor_open (ct_env s)) as [[d|] k1].
  2: { eexists _, _, _. split; [reflexivity|]. split; [by exists ct|]. by left. }
  destruct (ver d <? IPA_HW_v4_0) eqn:Hver; [by apply (bail_outcome n _ _ _ ct)|].
  cbn [ct_tables with_ct_desc ct_table_cnt]. rewrite Et, Ec. change ([ct].[0]) with (Some ct).
  cbn [mbind option_bind].
  destruct (ct_create_table_spec (with_ct_desc (ipv6ct s) (Some d)) ct d n k1 eq_refl)
    as (ret & ct' & k2 & -> & C0 & C1); [lia|]. cbn [mbind option_bind].
  assert (Et' : forall c, (ct_tables (with_ct (with_ct_desc (ipv6ct s) (Some d)) 0 c)) = [c])
    by (intros; cbn; by rewrite Et).
  destruct (Z.eqb_spec ret 0) as [->|Hne]; cbn [negb].
  2: { apply (bail_outcome n _ _ _ ct'); [done|by apply C1|done|done]. }
  destruct (C0 eq_refl) as (W1 & W2 & W3 & e & W4).
  unfold ipa_ipv6ct_post_init_cmd. cbn [ct_ipa_desc with_ct with_ct_desc mbind option_bind].
  destruct (env_ipv6ct_init _ _ _) as [pr k4]. cbn [mbind option_bind].
  destruct (Z.eqb_spec pr 0) as [->|Hne]; cbn [negb].
  - cbn [ct_table_cnt with_ct with_ct_desc with_ct_cnt]. rewrite Ec. change (u8 (0 + 1)) with 1.
    eexists _, _, _. split; [reflexivity|].
    assert (Ho : ct_opened (with_ct_cnt (with_ct (with_ct_desc (ipv6ct s) (Some d)) 0 ct') 1) ct' d)
      by (split_and!; try done; apply Et').
    split; [by eapply opened_inv|]. right. split; [done|]. split; [done|].
    exists (table_entries (ct_table ct')), e. split; [done|]. rewrite (opened_abs _ _ _ _ Ho), W3. f_equal.
    apply (table_rules_none ct_entry_interface ct_layout ct_meta_ok); [|apply (cw_hdl _ W1)|done].
    by apply wf_ct_layout_of.
  - unfold ipa_ipv6ct_destroy_table. cbn [ct_ipa_desc with_ct with_ct_desc mbind option_bind].
    destruct (ipa_mem_descriptor_delete _ _ _) as [[dr dm] k5]. cbn [mbind option_bind].
    apply (bail_outcome n _ _ _ ct_table_zero); [|done|done|done]. cbn. by rewrite Et.
Qed.

Lemma add_tbl_follows s n p : ct_inv s -> 0 <= n -> ct_follows s (ct_add_tbl n p).
Proof.
  intros Hi Hn. destruct p as [h|].
  2: { by apply (refused_follows s _ (- EINVAL) (ct_env s) None); destruct s. }
  destruct (Z.eqb_spec n 0) as [->|Hn0].
  { by apply (refused_follows s _ (- EINVAL) (ct_env s) (Some h)); destruct s. }
  assert (Hout : ct_failed_out (ct_add_tbl n (Some h)) = Some 0)
    by (cbn; by rewrite (proj2 (Z.eqb_neq n 0))).
  destruct (ct_inv_cases s Hi) as [(Ed & Ea & Ec & ct & Et & Hmd)|(ct & d & Ho & _)].
  - destruct (add_tbl_closed s n h ct Ed Ec Et Hmd ltac:(lia)) as (ret & out & s' & He & Hi' & Hc).
    exists ret, out, s'. split; [exact He|]. split; [done|]. rewrite Ea.
    destruct Hc as [(Hr & -> & ->)|(-> & -> & base & e & Hs & ->)].
    + rewrite <- Hout. by apply ct_st_refused.
    + by apply (ct_st_add_tbl n h base e).
  - pose proof Ho as (_ & _ & Ec & _).
    apply (refused_follows s _ (- EINVAL) (ct_env s) (Some 0)); try done. cbn. unfold ipa_ipv6ct_add_tbl.
    rewrite (proj2 (Z.eqb_neq n 0)), Ec by done. cbn. by destruct s.
Qed.

Lemma del_tbl_follows s h ct d :
  ct_inv s -> ct_opened (ipv6ct s) ct d -> 0 <= h -> ct_follows s (ct_del_tbl h).
Proof.
  intros Hi Ho Hh. pose proof Ho as (Et & Ed & Ec & Hver & Hwf).
  unfold ct_follows, ct_exec, ipa_ipv6ct_del_tbl. rewrite Ed. cbn [mbind option_bind]. rewrite Hver.
  destruct (invalid_ct_handle h) eqn:Eh.
  { eexists _, _, _. split; [reflexivity|]. split; [done|]. by apply ct_st_refused. }
  apply ct_handle_valid in Eh as ->; [|done].
  destruct (env_v6_lock (ct_env s)) as [l k1].
  destruct (l =? 0); cbn [negb mbind option_bind].
  2: { eexists _, _, _. split; [reflexivity|]. split; [by eapply opened_inv|]. by apply ct_st_refused. }
  rewrite Et. change ([ct].[1 - 1]) with (Some ct). cbn [mbind option_bind].
  pose proof (opened_abs _ _ _ (ct_env s) Ho) as Ea. destruct s as [v k]. cbn [ipv6ct ct_env] in *.
  rewrite Ea. destruct (md_valid (ct_mem_desc ct)) eqn:Hmd; cbn [negb].
  2: { destruct (unlock_ct_spec (- EINVAL) v k1) as (r & k2 & -> & U & _). rewrite U by done.
       eexists _, _, _. split; [reflexivity|]. split; [by eapply opened_inv|].
       rewrite (opened_abs _ _ _ _ Ho), Hmd. by apply ct_st_refused. }
  unfold ipa_ipv6ct_destroy_table. rewrite Ed. cbn [mbind option_bind].
  destruct (ipa_mem_descriptor_delete _ _ _) as [[ret md] k2]. cbn [mbind option_bind].
  assert (Ho' : ct_opened (with_ct v (1 - 1) ct_table_zero) ct_table_zero d) by (by eapply opened_with).
  destruct (Z.eqb_spec ret 0) as [->|Hne]; cbn [negb].
  - cbn [ct_table_cnt with_ct with_ct_cnt]. rewrite Ec. change (u8 (1 - 1)) with 0. cbn [Z.eqb].
    match goal with |- context [unlock_ct 0 ?v1 ?k1] =>
      destruct (unlock_ct_spec 0 v1 k1) as (r & k3 & -> & _ & U) end.
    eexists _, _, _. split; [reflexivity|]. split.
    + exists ct_table_zero. cbn. by rewrite Et.
    + apply ct_st_del_tbl. by apply U.
  - match goal with |- context [unlock_ct ret ?v1 ?k1] =>
      destruct (unlock_ct_spec ret v1 k1) as (r & k3 & -> & U & _) end. rewrite U by done.
    eexists _, _, _. split; [reflexivity|]. split; [by eapply opened_inv|].
    rewrite (opened_abs _ _ _ _ Ho'). by apply ct_st_del_tbl_refused.
Qed.

(** ** Rules *)

Section Opened.
Context (v : ipa_ipv6ct) (k : K) (ct : ipa_ipv6ct_table) (d : ipa_descriptor).
Hypothesis (Ho : ct_opened v ct d).

Abbreviation s := (mk_ct_state v k).

Lemma opened_refused call ret out (k' : K) :
  ct_exec s call = Some (ret, out, mk_ct_state v k') -> ret <> 0 -> out = ct_failed_out call ->
  ct_follows s call.
Proof.
  intros He Hr Hout. apply (refused_follows s call ret k' out); [|done|done|done]. by eapply opened_inv.
Qed.

Lemma opened_valid :
  md_valid (ct_mem_desc ct) = true ->
  wf_ct (ct_table ct) /\ ct_abs_of s = ct_open (table_entries (ct_table ct)) (ct_rules (ct_table ct)).
Proof.
  intros Hmd. pose proof Ho as (_ & _ & _ & _ & Hwf). rewrite (opened_abs _ _ _ _ Ho), Hmd. auto.
Qed.

(** The state after an operation on the valid table. *)
Lemma opened_step ct' (k' : K) :
  md_valid (ct_mem_desc ct) = true -> ct_mem_desc ct' = ct_mem_desc ct -> wf_ct (ct_table ct') ->
  ct_inv (mk_ct_state (with_ct v (1 - 1) ct') k')
  /\ ct_abs_of (mk_ct_state (with_ct v (1 - 1) ct') k')
     = ct_open (table_entries (ct_table ct')) (ct_rules (ct_table ct')).
Proof.
  intros Hmd Em Hwf. pose proof (opened_with _ _ ct' _ Ho (fun _ => Hwf)) as Ho'.
  split; [by eapply opened_inv|]. by rewrite (opened_abs _ _ _ _ Ho'), Em, Hmd.
Qed.

Lemma add_rule_follows h r p :
  0 <= h -> (forall u, r = Some u -> wf_ct_rule u) -> ct_follows s (ct_add_rule h r p).
Proof.
  intros Hh Hu. pose proof Ho as (Et & Ed & Ec & Hver & _).
  assert (Hex : ct_exec s (ct_add_rule h r p) = ipa_ipv6ct_add_rule s h r p) by done.
  unfold ipa_ipv6ct_add_rule in Hex. cbn [ipv6ct ct_env] in Hex.
  rewrite Ed in Hex. cbn [mbind option_bind] in Hex. rewrite Hver in Hex.
  destruct (invalid_ct_handle h) eqn:Eh; [by eapply opened_refused|].
  apply ct_handle_valid in Eh as ->; [|done].
  destruct r as [r|]; [|by eapply opened_refused]. destruct p as [p|]; [|by eapply opened_refused].
  destruct (Z.eqb_spec (cu_protocol r) IPA_IPV6CT_INVALID_PROTO_FIELD_CMP) as [_|Hp];
    [by eapply opened_refused|].
  destruct (env_v6_lock k) as [l k1]. destruct (l =? 0); cbn [negb] in Hex; [|by eapply opened_refused].
  rewrite Et in Hex. change ([ct].[1 - 1]) with (Some ct) in Hex. cbn [mbind option_bind] in Hex.
  destruct (md_valid (ct_mem_desc ct)) eqn:Hmd; cbn [negb] in Hex; [|by eapply opened_refused].
  destruct (opened_valid Hmd) as [Hwf Ea].
  destruct (add_ct_rule_spec v d ct Ed Hwf r k1 (Hu r eq_refl) Hp) as (ret & hdl & ct' & k2 & Er & W & Em & Hc).
  rewrite Er in Hex. cbn [mbind option_bind] in Hex. destruct (env_v6_unlock k2) as [u k3].
  destruct (opened_step ct' k3 Hmd Em W) as [Hi' Ea'].
  destruct Hc as [(-> & Hdv & i & e & -> & Hadd)|(Hlt & -> & Hsame)].
  - pose proof Hadd as (Hi0 & Hsh & _). pose proof Hsh as (_ & Eb & _).
    destruct (ct_added_rules r _ _ i e Hwf W Hadd) as [Hnone Hins]. rewrite Eb, Hins in Ea'.
    pose proof (ct_sizes _ Hwf) as (S1 & S2 & S3 & S4).
    assert (Hir : i < tot_tbl_ents (ct_table ct)).
    { destruct Hadd as (_ & _ & ((Hx & _) & _) & _). apply lookupZ_Some_range in Hx.
      rewrite (wl_slots _ _ _ _ (wf_ct_layout_of _ W)) in Hx. destruct Hsh as (_ & _ & _ & E4 & _). lia. }
    cbn [Z.eqb negb] in Hex.
    assert (Hval : VALID_RULE_HDL (MakeEntryHdl (ct_table ct) i) = true)
      by (apply MakeEntryHdl_valid; (lia || left; apply (cw_nmi _ Hwf))).
    assert (Hkey : ct_key (table_entries (ct_table ct)) (MakeEntryHdl (ct_table ct) i)
                   = MakeEntryHdl (ct_table ct) i) by (apply ct_key_made; [done|lia]).
    destruct (u =? 0); (eexists _, _, _; split; [exact Hex|]; split; [done|]; rewrite Ea, Ea').
    + by apply ct_st_add_rule.
    + by eapply ct_st_add_rule_lost.
  - rewrite (proj2 (Z.eqb_neq ret 0)) in Hex by lia. cbn [negb] in Hex.
    eexists _, _, _; split; [exact Hex|]. split; [done|].
    destruct Hsame as [Hsh Hsame]. pose proof Hsh as (_ & Eb & _).
    rewrite Ea, Ea', Eb, (ct_rules_same _ _ Hwf W Hsh Hsame). apply ct_st_refused. lia.
Qed.

Lemma del_rule_follows h rh : 0 <= h -> ct_follows s (ct_del_rule h rh).
Proof.
  intros Hh. pose proof Ho as (Et & Ed & Ec & Hver & _).
  assert (Hex : ct_exec s (ct_del_rule h rh)
    = '(ret, s') ← ipa_ipv6ct_del_rule s h rh; Some (ret, None, s')) by done.
  unfold ipa_ipv6ct_del_rule in Hex. cbn [ipv6ct ct_env] in Hex.
  rewrite Ed in Hex. cbn [mbind option_bind] in Hex. rewrite Hver in Hex.
  destruct (invalid_ct_handle h) eqn:Eh; cbn [orb] in Hex; [by eapply opened_refused|].
  apply ct_handle_valid in Eh as ->; [|done].
  destruct (rh =? IPA_TABLE_INVALID_ENTRY); [by eapply opened_refused|].
  destruct (env_v6_lock k) as [l k1]. destruct (l =? 0); cbn [negb] in Hex; [|by eapply opened_refused].
  rewrite Et in Hex. change ([ct].[1 - 1]) with (Some ct) in Hex. cbn [mbind option_bind] in Hex.
  destruct (md_valid (ct_mem_desc ct)) eqn:Hmd; cbn [negb] in Hex.
  2: { destruct (unlock_ct_spec (- EINVAL) v k1) as (r & k2 & Eu & U & _). rewrite U in Eu by done.
       rewrite Eu in Hex. by eapply opened_refused. }
  destruct (opened_valid Hmd) as [Hwf Ea].
  destruct (del_ct_rule_spec v d ct Ed Hwf rh k1) as (ret & ct' & k2 & Er & W & Em & Eb & Hc).
  rewrite Er in Hex. cbn [mbind option_bind] in Hex.
  destruct (unlock_ct_spec ret (with_ct v (1 - 1) ct') k2) as (r & k3 & Eu & U1 & U2).
  rewrite Eu in Hex. destruct (opened_step ct' k3 Hmd Em W) as [Hi' Ea'].
  exists r, None, (mk_ct_state (with_ct v (1 - 1) ct') k3). split; [exact Hex|]. split; [done|].
  rewrite Ea, Ea', Eb. destruct Hc as [(Hr0 & Hrules)|[(-> & ->)|(-> & -> & _)]].
  - rewrite Hrules, ct_key_index by apply (cw_nmi _ Hwf). apply ct_st_del_rule. by apply U2.
  - rewrite U1 by done. by apply ct_st_refused.
  - rewrite U1 by done. by apply ct_st_refused.
Qed.

(** The time stamp of a rule is that of its record. *)
Lemma query_reads rh i :
  wf_ct (ct_table ct) -> hdl_index (ct_table ct) rh = i -> i < tot_tbl_ents (ct_table ct) ->
  exists e, rec_load (ct_table ct) (GOTO_REC (ct_table ct) i) = Some e
    /\ forall f, ct_rules (ct_table ct) !! ct_key (table_entries (ct_table ct)) rh = Some f ->
         getf ct_time_stamp e = cf_time_stamp f.
Proof.
  intros Hwf Hi Hlt. pose proof (wf_ct_layout_of _ Hwf) as Hl.
  pose proof (hdl_index_range (ct_table ct) rh) as Hr.
  destruct (record_in_range _ _ _ (ct_table ct) i Hl) as [e He]; [lia|].
  rewrite (rec_load_GOTO_REC ct_entry_interface ct_layout ct_meta_ok) by done. exists e. split; [done|].
  intros f. rewrite <- ct_key_index, Hi by apply (cw_nmi _ Hwf). intros Hf.
  apply (lookup_table_rules ct_entry_interface ct_layout ct_meta_ok) in Hf as (j & x & Hx & Ej & ->);
    [|done|apply (cw_hdl _ Hwf)].
  assert (i = j) as <-.
  { eapply (table_hdl_inj ct_entry_interface ct_layout ct_meta_ok (ct_table ct));
      [done|apply (cw_hdl _ Hwf)|exact He|apply Hx|done]. }
  destruct Hx as (Hx & _). rewrite He in Hx. by injection Hx as ->.
Qed.

Lemma query_follows h rh p : 0 <= h -> ct_follows s (ct_query_timestamp h rh p).
Proof.
  intros Hh. pose proof Ho as (Et & Ed & Ec & Hver & _).
  assert (Hex : ct_exec s (ct_query_timestamp h rh p) = ipa_ipv6ct_query_timestamp s h rh p) by done.
  unfold ipa_ipv6ct_query_timestamp in Hex. cbn [ipv6ct ct_env] in Hex.
  rewrite Ed in Hex. cbn [mbind option_bind] in Hex. rewrite Hver in Hex.
  destruct (invalid_ct_handle h) eqn:Eh; cbn [orb] in Hex; [by eapply opened_refused|].
  apply ct_handle_valid in Eh as ->; [|done].
  destruct (rh =? IPA_TABLE_INVALID_ENTRY); cbn [orb] in Hex; [by eapply opened_refused|].
  destruct p as [p|]; cbn [orb] in Hex; [|by eapply opened_refused].
  destruct (env_v6_lock k) as [l k1]. destruct (l =? 0); cbn [negb] in Hex; [|by eapply opened_refused].
  rewrite Et in Hex. change ([ct].[1 - 1]) with (Some ct) in Hex. cbn [mbind option_bind] in Hex.
  assert (Hun : forall ret k2 out s2, ret <> 0 -> ct_exec s (ct_query_timestamp 1 rh (Some p)) =
    (let '(r, s1) := unlock_ct ret v k2 in Some (r, out, s1)) -> out = Some p -> s2 = s ->
    ct_follows s2 (ct_query_timestamp 1 rh (Some p))).
  { intros ret k2 out s2 Hr He -> ->. destruct (unlock_ct_spec ret v k2) as (r & k3 & Eu & U & _).
    rewrite U in Eu by done. rewrite Eu in He. by eapply opened_refused. }
  destruct (md_valid (ct_mem_desc ct)) eqn:Hmd; cbn [negb] in Hex; [|by eapply (Hun (- EINVAL))].
  destruct (opened_valid Hmd) as [Hwf Ea]. rewrite get_entry_hdl_index in Hex.
  destruct (Z.leb_spec (tot_tbl_ents (ct_table ct)) (hdl_index (ct_table ct) rh)) as [Hge|Hlt];
    [by eapply (Hun (- EINVAL))|].
  destruct (query_reads rh _ Hwf eq_refl Hlt) as (e & Hl & Hf). rewrite Hl in Hex.
  cbn [mbind option_bind] in Hex. destruct (unlock_ct_spec 0 v k1) as (r & k3 & Eu & _ & U).
  rewrite Eu in Hex. eexists _, _, _. split; [exact Hex|]. split; [by eapply opened_inv|].
  change (ct_abs_of (mk_ct_state v k3)) with (ct_abs_of s). rewrite Ea. apply ct_st_query; [by apply U|done].
Qed.

Lemma uc_follows call :
  match call with ct_add_uc_act _ | ct_del_uc_act _ => true | _ => false end = true -> ct_follows s call.
Proof.
  pose proof Ho as (_ & Ed & _). destruct call; try done; intros _.
  - assert (Hex : ct_exec s (ct_add_uc_act u)
      = '(ret, u', s') ← ipa_ipv6ct_add_uc_act_entry s u; Some (ret, Some u', s')) by done.
    unfold ipa_ipv6ct_add_uc_act_entry in Hex. cbn [ipv6ct ct_env] in Hex. rewrite Ed in Hex.
    cbn [mbind option_bind] in Hex. destruct (env_add_uc_act _ u k) as [[ret u'] k1].
    eexists _, _, _. split; [exact Hex|]. split; [by eapply opened_inv|]. apply ct_st_add_uc_act.
  - assert (Hex : ct_exec s (ct_del_uc_act i)
      = '(ret, s') ← ipa_ipv6ct_del_uc_act_entry s i; Some (ret, None, s')) by done.
    unfold ipa_ipv6ct_del_uc_act_entry in Hex. cbn [ipv6ct ct_env] in Hex. rewrite Ed in Hex.
    cbn [mbind option_bind] in Hex. destruct (env_del_uc_act _ i k) as [ret k1].
    destruct (ret =? 0).
    + eexists _, _, _. split; [exact Hex|]. split; [by eapply opened_inv|]. apply ct_st_del_uc_act.
    + by eapply opened_refused.
Qed.
End Opened.

(** ** Every call *)

Definition is_add_tbl (call : ct_call) : bool :=
  match call with ct_add_tbl _ _ => true | _ => false end.

Lemma ct_exec_spec s call :
  ct_inv s -> ct_call_fits call = true ->
  (ct_abs_of s = ct_no_table /\ is_add_tbl call = false /\ ct_exec s call = None)
  \/ ((ct_abs_of s <> ct_no_table \/ is_add_tbl call = true) /\ ct_follows s call).
Proof.
  intros Hi Hf. destruct (is_add_tbl call) eqn:Ea.
  { destruct call; try done. right. split; [by right|]. apply add_tbl_follows; [done|].
    cbn in Hf. lia. }
  destruct (ct_inv_cases s Hi) as [(Ed & Hab & _)|(ct & d & Ho & Hab)].
  - left. split; [done|]. split; [done|]. destruct call; try done; cbn;
      unfold ipa_ipv6ct_del_tbl, ipa_ipv6ct_add_rule, ipa_ipv6ct_del_rule, ipa_ipv6ct_query_timestamp,
        ipa_ipv6ct_add_uc_act_entry, ipa_ipv6ct_del_uc_act_entry; by rewrite Ed.
  - right. split; [left; rewrite Hab; by destruct (md_valid _)|]. destruct s as [v k]. cbn [ipv6ct] in Ho.
    destruct call as [n p|h|h r p|h rh|h rh p|u|i]; cbn in Hf; try done.
    + apply (del_tbl_follows _ h ct d); [done|done|lia].
    + apply (add_rule_follows v k ct d Ho).
      * destruct r as [r|]; [by apply andb_true_iff in Hf as [?%Z.leb_le _]|by apply Z.leb_le].
      * intros u ->. apply andb_true_iff in Hf as [_ Hf]. by apply ct_rule_fits_wf.
    + apply (del_rule_follows v k ct d Ho). lia.
    + apply (query_follows v k ct d Ho). lia.
    + by apply (uc_follows v k ct d Ho).
    + by apply (uc_follows v k ct d Ho).
Qed.
End Calls.

(** ** Sequences of IPv6 connection tracking calls

    Runs of the library and of the contract, and a concrete run. *)

Inductive ct_spec_run (a : ct_abs) : list (ct_call * Z * option Z) -> ct_abs -> Prop :=
  | ct_spec_run_nil : ct_spec_run a [] a
  | ct_spec_run_cons call ret out a1 tr a2 :
      ct_step a call ret out a1 -> ct_spec_run a1 tr a2 ->
      ct_spec_run a ((call, ret, out) :: tr) a2.

Section Runs.
Context {K : Type} {E : IpaEnv K} {E6 : Ipv6Env K}.

Inductive ct_run (s : ct_state K) : list (ct_call * Z * option Z) -> ct_state K -> Prop :=
  | ct_run_nil : ct_run s [] s
  | ct_run_cons call ret out s1 tr s2 :
      ct_call_fits call = true -> ct_exec s call = Some (ret, out, s1) -> ct_run s1 tr s2 ->
      ct_run s ((call, ret, out) :: tr) s2.

Fixpoint run_ct_calls (s : ct_state K) (calls : list ct_call)
    : option (list (ct_call * Z * option Z) * ct_state K) :=
  match calls with
  | [] => Some ([], s)
  | call :: calls' =>
      '(ret, out, s1) ← ct_exec s call;
      if ct_call_fits call
      then '(tr, s2) ← run_ct_calls s1 calls'; Some ((call, ret, out) :: tr, s2)
      else None
  end.

Lemma run_ct_calls_run s calls tr s' : run_ct_calls s calls = Some (tr, s') -> ct_run s tr s'.
Proof.
  revert s tr. induction calls as [|call calls IH]; intros s tr; cbn [run_ct_calls].
  - intros [= <- <-]. constructor.
  - destruct (ct_exec s call) as [[[ret out] s1]|] eqn:Ee; [|done]. cbn [mbind option_bind].
    destruct (ct_call_fits call) eqn:Ef; [|done].
    destruct (run_ct_calls s1 calls) as [[tr1 s2]|] eqn:Er; [|done]. cbn [mbind option_bind].
    intros [= <- <-]. econstructor; eauto.
Qed.

Context {laws : IpaEnvLaws K} {mlaws : IpaMemLaws K}.

Lemma ct_run_spec (s : ct_state K) tr s' :
  ct_inv s -> ct_run s tr s' -> ct_inv s' /\ ct_spec_run (ct_abs_of s) tr (ct_abs_of s').
Proof.
  intros Hi Hr. induction Hr as [|s call ret out s1 tr s2 Hf He Hr IH]; [by split; [|constructor]|].
  destruct (ct_exec_spec s call Hi Hf) as [(_ & _ & Hn)|(_ & ret' & out' & s1' & He' & Hi' & Hs)];
    [congruence|]. rewrite He in He'. injection He' as <- <- <-.
  destruct (IH Hi') as [H1 H2]. split; [done|]. by econstructor.
Qed.
End Runs.

(** ** A concrete run *)

#[export] Instance sim_env6 : Ipv6Env sim := {|
  env_v6_lock k := (0, k);
  env_v6_unlock k := (0, k);
  env_add_uc_act _ u k := (0, u, k);
  env_del_uc_act _ _ k := (0, k)
|}.

(** A UDP connection, allowed in both directions. *)
Definition demo_ct_rule (sport dport : Z) : ipa_ipv6ct_rule :=
  mk_ct_rule 0x0001000200030004 0x20010db800000000 0x1111222233334444 0x20010db800000001
    3 false false 0 sport dport 17.

(** Four buckets and three rules; the head of a chain of two is deleted. *)
Definition demo_ct_calls : list ct_call :=
  [ct_add_tbl 6 (Some 0);
   ct_add_rule 1 (Some (demo_ct_rule 5 9)) (Some 0); ct_add_rule 1 (Some (demo_ct_rule 9 5)) (Some 0);
   ct_add_rule 1 (Some (demo_ct_rule 5 8)) (Some 0); ct_del_rule 1 6].

Definition ct_state_after {E : IpaEnv sim} (calls : list ct_call) : ct_state sim :=
  match run_ct_calls (ct_state_init sim0) calls with Some (_, s') => s' | None => ct_state_init sim0 end.

Definition ct_runs {E : IpaEnv sim} (calls : list ct_call) : bool :=
  match run_ct_calls (ct_state_init sim0) calls with Some _ => true | None => false end.

Lemma ct_state_after_run {E : IpaEnv sim} calls :
  ct_runs calls = true -> exists tr, ct_run (ct_state_init sim0) tr (ct_state_after calls).
Proof.
  unfold ct_runs, ct_state_after. destruct (run_ct_calls _ calls) as [[tr s']|] eqn:Er; [|done].
  intros _. exists tr. by eapply run_ct_calls_run.
Qed.

(** The table of a state. *)
Definition ct_table_of (s : ct_state sim) : ipa_ipv6ct_table :=
  default ct_table_zero ((ct_tables (ipv6ct s)).[0]).

Definition ct_has_table (s : ct_state sim) : bool :=
  match ct_ipa_desc (ipv6ct s) with
  | Some _ => md_valid (ct_mem_desc (ct_table_of s))
  | None => false
  end.

Lemma ct_table_of_wf s : ct_inv s -> ct_has_table s = true -> wf_ct (ct_table (ct_table_of s)).
Proof.
  intros (ct & Ht & H). unfold ct_has_table, ct_table_of. rewrite Ht.
  change ([ct].[0]) with (Some ct). destruct (ct_ipa_desc _); [|done]. apply H.
Qed.

Definition demo_ct : ipa_ipv6ct_table := ct_table_of (ct_state_after demo_ct_calls).
