(* ===== verification/TableTheorems.v ===== *)
(** * The generic table: theorems

    What [ipa_table.c] promises of any table whose record layout satisfies
    [TableEntryLaws], with the NAT tables of [Demo] as instances. *)
From S2P Require Import Prelude Bitfield Chain Table Sizing TableFacts TableDma TableHandle.
From S2P Require Import NatRule NatRuleFacts Env NatTable NatOps NatWalk NatWf NatStats NatSpec.
From S2P Require Import NatState Demo.

(** The NAT table of the demonstration is a well-formed generic table. *)
Lemma demo_table_wf :
  TableFacts.wf_table nat_entry_interface nat_layout cleared nat_meta_ok (table demo_nt).
Proof. apply (nw_table _ demo_wf). Qed.

Lemma demo_table_sizes :
  table_entries (table demo_nt) = 4 /\ expn_table_entries (table demo_nt) = 2
  /\ tot_tbl_ents (table demo_nt) = 6 /\ nmi (table demo_nt) = 0.
Proof. vm_compute. done. Qed.

(** ** Handles *)

(** C32: The handle [MakeEntryHdl] gives the record at an index is valid, and
    [BREAK_RULE_HDL] and [ipa_table_get_entry] recover the memory type, the
    kind of record and the index from it. *)
Theorem rule_handle_roundtrip {U} (t : ipa_table U) i :
  nmi t = 0 \/ nmi t = 1 -> 0 < table_entries t <= 4096 -> 0 <= expn_table_entries t <= 4096 ->
  tot_tbl_ents t = table_entries t + expn_table_entries t -> 0 < i < tot_tbl_ents t ->
  VALID_RULE_HDL (MakeEntryHdl t i) = true
  /\ BREAK_RULE_HDL t (MakeEntryHdl t i) = (nmi t, if table_entries t <=? i then 1 else 0, i)
  /\ ipa_table_get_entry t (MakeEntryHdl t i) = (0, Some (GOTO_REC t i, i)).
Proof.
  intros Hn Hb He Ht Hi.
  split; [apply MakeEntryHdl_valid; (done || lia)|].
  split; [apply break_make_hdl; (done || lia)|apply get_entry_make_hdl; (done || lia)].
Qed.

Lemma rule_handle_roundtrip_witness :
  VALID_RULE_HDL (MakeEntryHdl (table demo_nt) 5) = true
  /\ BREAK_RULE_HDL (table demo_nt) (MakeEntryHdl (table demo_nt) 5)
     = (nmi (table demo_nt), if table_entries (table demo_nt) <=? 5 then 1 else 0, 5)
  /\ ipa_table_get_entry (table demo_nt) (MakeEntryHdl (table demo_nt) 5)
     = (0, Some (GOTO_REC (table demo_nt) 5, 5)).
Proof.
  destruct demo_table_sizes as (E1 & E2 & E3 & E4).
  apply (rule_handle_roundtrip (table demo_nt) 5); [by left|lia..].
Defined.

(** ** Searches end *)

(** C33: From the head of any chain, [ipa_table_iterator_end] returns
    successfully, at the one record of the chain that has no successor. *)
Theorem chain_end_found {U} (I : ipa_table_entry_interface U) L fok mok
    {laws : TableEntryLaws I L fok mok} t h :
  TableFacts.wf_table I L fok mok t -> h < table_entries t -> is_Some (view I t h) ->
  exists p pl,
    ipa_table_iterator_end t h (GOTO_REC t h) = Some (0, mk_iterator p (GOTO_REC t p) 0 NULL 0 NULL)
    /\ reach (view I t) h p /\ view I t p = Some pl /\ l_next pl = 0.
Proof. apply (iterator_end_spec I L fok mok). Qed.

Lemma demo_head : is_Some (view nat_entry_interface (table demo_nt) 2).
Proof.
  apply (bool_decide_unpack (is_Some (view nat_entry_interface (table demo_nt) 2))).
  vm_compute. exact I.
Qed.

Lemma chain_end_found_witness :
  exists p pl,
    ipa_table_iterator_end (table demo_nt) 2 (GOTO_REC (table demo_nt) 2)
      = Some (0, mk_iterator p (GOTO_REC (table demo_nt) p) 0 NULL 0 NULL)
    /\ reach (view nat_entry_interface (table demo_nt)) 2 p
    /\ view nat_entry_interface (table demo_nt) p = Some pl /\ l_next pl = 0.
Proof.
  apply (chain_end_found nat_entry_interface nat_layout cleared nat_meta_ok (table demo_nt) 2
    demo_table_wf); [destruct demo_table_sizes as (-> & _); lia|exact demo_head].
Defined.

(** The search for a free expansion record finds one whenever there is
    one, and fails only when every expansion record is in use. *)
Theorem free_record_found {U} (I : ipa_table_entry_interface U) L mok t :
  TableFacts.wf_layout I L mok t ->
  (exists n e, table_entries t <= n < tot_tbl_ents t /\ (slots t).[n] = Some e
     /\ entry_is_valid I e = false /\ FindExpnTblFreeEntry t = Some (0, GOTO_REC t n, n))
  \/ (FindExpnTblFreeEntry t = Some (-1, NULL, 0)
      /\ forall j e, table_entries t <= j < tot_tbl_ents t -> (slots t).[j] = Some e ->
           entry_is_valid I e = true).
Proof.
  intros Hl. destruct (FindExpnTblFreeEntry_spec I L mok t Hl) as [H|[H1 H2]]; [by left|by right].
Qed.

Lemma free_record_found_witness :
  (exists n e, table_entries (table demo_nt) <= n < tot_tbl_ents (table demo_nt)
     /\ (slots (table demo_nt)).[n] = Some e /\ entry_is_valid nat_entry_interface e = false
     /\ FindExpnTblFreeEntry (table demo_nt) = Some (0, GOTO_REC (table demo_nt) n, n))
  \/ (FindExpnTblFreeEntry (table demo_nt) = Some (-1, NULL, 0)
      /\ forall j e, table_entries (table demo_nt) <= j < tot_tbl_ents (table demo_nt) ->
           (slots (table demo_nt)).[j] = Some e -> entry_is_valid nat_entry_interface e = true).
Proof.
  apply (free_record_found nat_entry_interface nat_layout nat_meta_ok).
  exact (wt_layout _ _ _ _ _ demo_table_wf).
Defined.

(** ** Walks *)

(** A callback that notes the records it is called for. *)
Definition note_record {U} : ipa_table_walk_cb U (ipa_table U * list Z) :=
  fun _ _ _ record_index _ _ s => Some (0, (fst s, snd s ++ [record_index])).

Definition in_use {U} (I : ipa_table_entry_interface U) (t : ipa_table U) (i : Z) : bool :=
  match (slots t).[i] with Some e => entry_is_valid I e | None => false end.

Lemma seqZ_snoc i : 0 <= i -> seqZ 0 (i + 1) = seqZ 0 i ++ [i].
Proof. intros. rewrite seqZ_app by lia. by rewrite Z.add_0_l. Qed.

Definition records_in_use {U} (I : ipa_table_entry_interface U) (t : ipa_table U) (n : Z) : list Z :=
  filter (fun i => in_use I t i = true) (seqZ 0 n).

Lemma records_in_use_snoc {U} (I : ipa_table_entry_interface U) (t : ipa_table U) i :
  0 <= i -> records_in_use I t (i + 1) = records_in_use I t i ++ (if in_use I t i then [i] else []).
Proof.
  intros Hi. unfold records_in_use. rewrite seqZ_snoc, filter_app, filter_cons by done.
  destruct (in_use I t i); by case_decide.
Qed.

(** A walk over the records in use visits exactly these, each once and in
    the order of their indices, and ends. *)
Theorem walk_visits_records_in_use {U} (I : ipa_table_entry_interface U) L mok t :
  TableFacts.wf_layout I L mok t ->
  ipa_table_walk fst 0 WHEN_SLOT_FILLED note_record (t, [])
  = Some (0, (t, records_in_use I t (tot_tbl_ents t))).
Proof.
  intros Hl.
  destruct (walk_filled I L mok fst note_record t
    (fun i s => 0 <= i /\ s = (t, records_in_use I t i))
    (fun _ _ => False) Hl) with (s := (t, @nil Z)) as (ret & s' & Ew & Hres).
  - by intros i s [_ ->].
  - intros i e s Hi He Hv [_ ->]. split; [lia|]. rewrite records_in_use_snoc by lia.
    unfold in_use. by rewrite He, Hv, app_nil_r.
  - intros i e mp mi s Hi He Hv [_ ->]. eexists 0, _. split; [reflexivity|]. split; [|done]. intros _.
    split; [lia|]. rewrite records_in_use_snoc by lia. unfold in_use. by rewrite He, Hv.
  - done.
  - destruct Hres as [[-> [_ ->]]|[_ []]]. exact Ew.
Qed.

Lemma walk_visits_records_in_use_witness :
  ipa_table_walk fst 0 WHEN_SLOT_FILLED note_record (table demo_nt, [])
  = Some (0, (table demo_nt, records_in_use nat_entry_interface (table demo_nt) (tot_tbl_ents (table demo_nt)))).
Proof.
  apply (walk_visits_records_in_use nat_entry_interface nat_layout nat_meta_ok).
  exact (wt_layout _ _ _ _ _ demo_table_wf).
Defined.

(** ** Commands to the hardware *)

(** C34: The DMA command [ipa_table_add_dma_cmd] builds for a record makes the
    driver write the given half word at the helper's offset of that record
    and nothing else, whether the record is in the base or in the expansion
    table. *)
Theorem dma_command_updates_record {U} (I : ipa_table_entry_interface U) L mok bt et t ht off i d e cmd :
  TableFacts.wf_layout I L mok t -> dma_help t ht = Some (mk_helper off bt et 0) ->
  ht <> HELP_UPDATE_MAX -> bt <> et -> 0 <= off < entry_size t -> cmd_room cmd 1 ->
  (slots t).[i] = Some e ->
  exists cmd' one, ipa_table_add_dma_cmd t ht (GOTO_REC t i) i d cmd = Some (0, cmd')
    /\ cmd_ones cmd' = cmd_ones cmd ++ [one]
    /\ table_apply_one bt et one t = Some (with_slots t (slots t).[i <- record_put16 e off d]).
Proof.
  intros Hl Hh Hht Hbt Hoff Hroom He.
  assert (Hi : 0 <= i < tot_tbl_ents t)
    by (rewrite <- (wl_slots _ _ _ _ Hl); by eapply lookupZ_Some_range).
  eexists _, _. split; [by apply (add_dma_cmd_spec I L mok bt et t ht off i d cmd 1)|].
  split; [by apply (cmd_ones_push cmd 1)|by apply (apply_the_one I L mok)].
Qed.

Lemma demo_helper :
  dma_help (table demo_nt) HELP_UPDATE_ENTRY
  = Some (mk_helper (el_next_off nat_layout) IPA_NAT_BASE_TBL IPA_NAT_EXPN_TBL 0).
Proof. vm_compute. reflexivity. Qed.

Lemma demo_esz : entry_size (table demo_nt) = 32.
Proof. vm_compute. reflexivity. Qed.

Lemma dma_command_updates_record_witness :
  exists e cmd' one,
    ipa_table_add_dma_cmd (table demo_nt) HELP_UPDATE_ENTRY (GOTO_REC (table demo_nt) 5) 5 3 (dma_cmd_zero 4)
    = Some (0, cmd')
    /\ table_apply_one IPA_NAT_BASE_TBL IPA_NAT_EXPN_TBL one (table demo_nt)
       = Some (with_slots (table demo_nt) (slots (table demo_nt)).[5 <- record_put16 e 8 3]).
Proof.
  pose proof (wt_layout _ _ _ _ _ demo_table_wf) as Hl.
  destruct (record_in_range nat_entry_interface nat_layout nat_meta_ok (table demo_nt) 5 Hl) as [e He];
    [destruct demo_table_sizes as (_ & _ & -> & _); lia|].
  assert (Hoff : 0 <= 8 < entry_size (table demo_nt)) by (rewrite demo_esz; lia).
  assert (Hroom : cmd_room (dma_cmd_zero 4) 1) by (apply cmd_room_zero; lia).
  destruct (dma_command_updates_record nat_entry_interface nat_layout nat_meta_ok
    IPA_NAT_BASE_TBL IPA_NAT_EXPN_TBL (table demo_nt) HELP_UPDATE_ENTRY 8 5 3 e (dma_cmd_zero 4) Hl
    demo_helper ltac:(discriminate) ltac:(discriminate) Hoff Hroom He) as (cmd' & one & H1 & _ & H3).
  exists e, cmd', one. exact (conj H1 H3).
Defined.

(** ** Clearing *)

(** [ipa_table_reset] makes every record of a mapped table zero and
    touches nothing else; a table of the right layout whose counters are zero
    is then well formed and empty. *)
Theorem reset_empties {U} (I : ipa_table_entry_interface U) L fok mok
    {laws : TableEntryLaws I L fok mok} t :
  TableFacts.wf_layout I L mok t ->
  exists t', ipa_table_reset t = Some t' /\ same_shape t t'
    /\ (forall i, 0 <= i < tot_tbl_ents t -> (slots t').[i] = Some 0)
    /\ (cur_tbl_cnt t = 0 -> cur_expn_tbl_cnt t = 0 ->
        TableFacts.wf_table I L fok mok t' /\ forall i, view I t' i = None).
Proof.
  intros Hl. pose proof (wf_layout_memory I L mok t Hl) as Hm.
  pose proof (wl_tot _ _ _ _ Hl) as Ht. pose proof (wl_base _ _ _ _ Hl). pose proof (wl_expn _ _ _ _ Hl).
  eexists. split; [by apply reset_spec|]. rewrite <- Ht.
  set (t' := with_slots t _).
  assert (Hlen : lengthZ (slots t') = lengthZ (slots t)).
  { rewrite (wl_slots _ _ _ _ Hl). cbn. unfold lengthZ. rewrite length_replicate. lia. }
  assert (Hsh : same_shape t t') by (by repeat split).
  split; [done|]. split.
  - intros i Hi. cbn. unfold lookupZ. rewrite decide_True by lia. apply lookup_replicate_2. lia.
  - intros C1 C2. apply (wf_table_empty I L fok mok); [|done..].
    apply (wf_layout_same_shape I L mok t); [done|done|]. apply (wl_meta _ _ _ _ Hl).
Qed.

Lemma reset_empties_witness :
  exists t', ipa_table_reset (table demo_nt) = Some t' /\ (slots t').[5] = Some 0.
Proof.
  destruct (reset_empties nat_entry_interface nat_layout cleared nat_meta_ok (table demo_nt)
    (wt_layout _ _ _ _ _ demo_table_wf)) as (t' & H1 & _ & H3 & _).
  exists t'. split; [exact H1|]. apply H3. destruct demo_table_sizes as (_ & _ & -> & _). lia.
Defined.

(** ** Sizes *)

(** C36: For every number of entries a table may have, the sizing function
    chooses a base table whose size is a power of two and an expansion table
    of even size, both within the twelve bits of a handle's index; the
    table has room for the entries asked for, but one; and it is refused only
    when an SRAM table would exceed the limit of 5120 records. *)
Theorem table_sizes {U} (t : ipa_table U) n mem :
  0 <= n <= IPA_TABLE_MAX_ENTRIES -> mem = 0 \/ mem = 1 ->
  exists ret t', ipa_table_calculate_entries_num t n mem = Some (ret, t')
    /\ (ret = 0 ->
        let b := table_entries t' in let e := expn_table_entries t' in
        tot_tbl_ents t' = b + e /\ 2 <= b <= 4096 /\ 2 ^ Z.log2 b = b /\ 2 <= e <= 4096
        /\ e mod 2 = 0 /\ n - 1 <= b + e <= IPA_TABLE_MAX_ENTRIES)
    /\ (ret <> 0 -> mem = IPA_NAT_MEM_IN_SRAM /\ IPA_TABLE_MAX_ENTRIES < tot_tbl_ents t').
Proof.
  intros Hn Hmem. destruct (sizes_spec mem n Hn Hmem) as (b & e & Es & S1 & S2 & S3 & S4 & S5 & S6 & S7).
  rewrite calculate_entries_num_sizes by lia. rewrite Es. cbn [mbind option_bind].
  destruct (Z.ltb_spec IPA_TABLE_MAX_ENTRIES (b + e)) as [Hb|Hb].
  - eexists _, _. split; [reflexivity|]. split; [done|]. intros _. cbn. split; [|done].
    destruct Hmem as [->|]; [|done]. specialize (S7 eq_refl). lia.
  - eexists _, _. split; [reflexivity|]. split; [|done]. intros _. cbn. specialize (S6 Hb). lia.
Qed.

Lemma table_sizes_witness :
  exists ret t', ipa_table_calculate_entries_num (table demo_nt) 1000 0 = Some (ret, t')
    /\ (ret <> 0 -> 0 = IPA_NAT_MEM_IN_SRAM /\ IPA_TABLE_MAX_ENTRIES < tot_tbl_ents t').
Proof.
  destruct (table_sizes (table demo_nt) 1000 0) as (ret & t' & H1 & _ & H3);
    [unfold IPA_TABLE_MAX_ENTRIES; lia|by left|].
  exists ret, t'. exact (conj H1 H3).
Defined.

(** A table asked for eleven entries in DDR has ten. *)
Theorem ddr_table_one_short {U} (t : ipa_table U) :
  exists t', ipa_table_calculate_entries_num t 11 IPA_NAT_MEM_IN_DDR = Some (0, t')
    /\ tot_tbl_ents t' = 10.
Proof.
  rewrite calculate_entries_num_sizes by done.
  assert (E : sizes IPA_NAT_MEM_IN_DDR 11 = Some (8, 2)) by (vm_compute; reflexivity).
  rewrite E. cbn [mbind option_bind]. eexists. split; reflexivity.
Qed.

(** For every size of the SRAM below a million bytes, the number of
    entries computed for the two NAT tables terminates, is positive when the
    status is 0, fits, and is the last before the first that does not. *)
Theorem sram_capacity sram_size :
  0 <= sram_size < 1000000 ->
  exists ret n, ipa_calc_num_sram_table_entries sram_size sizeof_ipa_nat_rule sizeof_ipa_nat_indx_tbl_rule
                = Some (ret, n)
    /\ (ret = 0 <-> 0 < n) /\ 0 <= n < 20000
    /\ (0 < n -> exists sz, sram_tables_size 32 4 n = Some sz /\ sz <= sram_size)
    /\ exists sz, sram_tables_size 32 4 (n + 1) = Some sz /\ sram_size < sz.
Proof.
  intros Hs. unfold ipa_calc_num_sram_table_entries.
  change sizeof_ipa_nat_rule with 32. change sizeof_ipa_nat_indx_tbl_rule with 4.
  assert (Hx : sram_exceeds sram_size 32 4 20000).
  { exists 1489248. split; [exact sram_large|]. rewrite u32_small by lia. lia. }
  destruct (sram_loop_ends sram_size 32 4 (Z.to_nat 65536) 1 0 20000) as (n & En & Hn); [lia..| |done|].
  { intros k Hk. destruct (sram_tables_size_small k) as (sz & -> & _); [lia|]. by eexists. }
  rewrite En. cbn [mbind option_bind].
  assert (Hu : forall k, 0 <= k <= 20000 -> forall sz, sram_tables_size 32 4 k = Some sz -> u32 sz = sz).
  { intros k Hk sz Esz. destruct (sram_tables_size_small k Hk) as (sz' & Esz' & Hr).
    rewrite Esz in Esz'. injection Esz' as <-. apply u32_small. lia. }
  eexists _, n. split; [reflexivity|].
  split; [destruct (Z.eqb_spec n 0); split; try lia; discriminate|]. split; [lia|].
  destruct (sram_loop_result _ _ _ _ _ _ _ En) as [[-> (sz & E1 & H1)]|[(sz1 & E1 & H1) (sz2 & E2 & H2)]].
  - split; [lia|]. exists sz. split; [exact E1|]. by rewrite (Hu 1 ltac:(lia) sz E1) in H1.
  - rewrite u16_small in E2 by lia. rewrite (Hu n ltac:(lia) sz1 E1) in H1.
    rewrite (Hu (n + 1) ltac:(lia) sz2 E2) in H2.
    split; [intros _; exists sz1|exists sz2]; by split.
Qed.

Lemma sram_capacity_witness :
  exists ret n, ipa_calc_num_sram_table_entries 4096 sizeof_ipa_nat_rule sizeof_ipa_nat_indx_tbl_rule
                = Some (ret, n) /\ (ret = 0 <-> 0 < n).
Proof.
  destruct (sram_capacity 4096) as (ret & n & H1 & H2 & _); [lia|].
  exists ret, n. exact (conj H1 H2).
Defined.
