(* ===== verification/NatTheorems.v ===== *)
(** * The NAT tables: theorems

    What the library promises of a NAT table and of sequences of calls, each
    with a run of the library in the concrete environment of [Demo] to which
    it applies, and the calls that break the promise. *)
From S2P Require Import Prelude Bitfield Chain Table Sizing TableFacts TableDma TableInsert.
From S2P Require Import TableDelete TableHandle NatRule NatRuleFacts Env NatTable NatOps NatWf.
From S2P Require Import NatAdd NatDel NatSpec NatState Demo.

(** ** Runs *)

(** C1: Every sequence of calls that is permitted (tables and rules are named by handles of the
    contract's maps; the numbers of a rule fit their C types and its PDN index is below 16) and
    in which every deletion of a table reports success and the driver refuses no deletion of a
    rule, made from the loaded library on, is a sequence of steps of the contract [spec_step]:
    for each memory type a map from handles to translations. A status 0 means what it says: an
    empty table appears, a table disappears, the rule is in under a fresh valid handle, the
    handle's rule is gone. A status other than 0 leaves the maps as they were, except when it is
    the -EPERM of a mutex that could not be released: then the table is there under its handle,
    the rule is deleted, or the rule is in but its handle was lost. The invariant of the tables
    holds at the end. *)
Theorem library_refines_contract {K} {E : IpaEnv K} {laws : IpaEnvLaws K} {mlaws : IpaMemLaws K}
    (k : K) tr s' :
  nat_run (nat_state_init k) tr s' ->
  nat_inv s' /\ spec_run [None; None] tr (state_rules s').
Proof. intros H. apply (nat_run_spec _ _ _ (nat_inv_init k) H). Qed.

Lemma library_refines_contract_witness :
  exists tr, spec_run [None; None] tr (state_rules (demo_state sim0)).
Proof.
  destruct (state_after_run (nat_state_init sim0) demo_calls) as [tr Hr];
    [vm_compute; reflexivity|].
  exists tr. exact (proj2 (library_refines_contract sim0 tr _ Hr)).
Defined.

(** C2: In every state that satisfies the invariant - by C1, every state that permitted calls reach
    as long as the driver has refused no deletion - a permitted call (handles that exist,
    numbers that fit their C types, a PDN index below 16) has no undefined behaviour: no access
    outside a table, the PDN array or the command buffer, no null descriptor; and it keeps the
    invariant unless the driver now refuses a deletion. The restrictions are needed: with a PDN
    index of 16 or more the code reads outside the PDN array ([pdn_index_read_out_of_bounds]),
    and after a refused deletion the invariant can be broken (C15). *)
Theorem permitted_calls_defined {K} {E : IpaEnv K} {laws : IpaEnvLaws K} {mlaws : IpaMemLaws K}
    (s : nat_state K) call :
  nat_inv s -> permitted (state_rules s) call = true ->
  exists ret hdl s', exec s call = Some (ret, hdl, s')
    /\ (honoured call ret = true -> nat_inv s').
Proof.
  intros Hi Hp. destruct (exec_spec s call Hi Hp) as (ret & hdl & s' & He & Hok).
  exists ret, hdl, s'. split; [done|]. intros Hh. apply (Hok Hh).
Qed.

Lemma permitted_calls_defined_witness :
  exists ret hdl s', exec (demo_state sim0) (call_del_rule 1 4) = Some (ret, hdl, s')
    /\ (honoured (call_del_rule 1 4) ret = true -> nat_inv s').
Proof.
  apply (permitted_calls_defined (demo_state sim0) (call_del_rule 1 4) demo_inv).
  vm_compute. reflexivity.
Defined.

(** ** Rules *)

(** C6: Adding a rule to a well-formed table - its numbers fit their C types, its PDN index is below
    16, its protocol is not the invalid one - either succeeds, and then the table holds exactly
    one more rule, under a valid handle no other rule has: addresses, ports, protocol, PDN and
    the s, ucp, dst_only and src_only flags are those asked for, the activation index and the
    time stamp are cut to 13 and 24 bits, the checksum deltas are those of the PDN's address,
    and the record is enabled and not redirected whatever the rule says of it; or it fails with
    handle 0 and the table holds the rules it held. *)
Theorem add_rule_refines {K} {E : IpaEnv K} {laws : IpaEnvLaws K} c d nt ps r pdn token (k : K) :
  ipa_desc c = Some d -> wf_nat nt -> ps.[u_pdn_index r] = Some pdn ->
  u_pdn_index r < IPA_MAX_PDN_NUM -> wf_user_rule r ->
  u_protocol r <> IPAHAL_NAT_INVALID_PROTOCOL ->
  exists ret hdl token' nt' k',
    add_ipv4_rule_locked c nt ps r token k = Some (ret, hdl, token', nt', k')
    /\ wf_nat nt'
    /\ (ret = 0 -> rules nt !! hdl = None /\ VALID_RULE_HDL hdl = true
                   /\ rules nt' = <[hdl := flow_of (public_ip pdn) r]> (rules nt)
                   /\ forall f, rules nt' !! hdl = Some f -> fl_redirect f = 0 /\ fl_enable f = 1)
    /\ (ret <> 0 -> hdl = 0 /\ rules nt' = rules nt).
Proof.
  intros Hd Hwf Hp Hlt Hu Hpr.
  destruct (add_refines c d nt Hd Hwf ps r pdn token k Hp Hlt Hu Hpr)
    as (ret & hdl & token' & nt' & k' & Ea & H1 & _ & _ & _ & H2 & H3).
  exists ret, hdl, token', nt', k'. split; [done|]. split; [done|]. split; [|done].
  intros H0. destruct (H2 H0) as (A1 & A2 & A3). do 3 (split; [done|]).
  intros f. rewrite A3, lookup_insert_eq. by intros [= <-].
Qed.

Lemma demo_rule_wf : wf_user_rule (demo_rule 5 9 9).
Proof. by apply user_rule_fits_wf. Qed.

Lemma demo_pdn :
  (pdns (demo_state sim0)).[u_pdn_index (demo_rule 5 9 9)] = Some (mk_pdn 0x0a000001 0 0).
Proof. vm_compute. reflexivity. Qed.

Lemma add_rule_refines_witness :
  exists ret hdl token' nt' k',
    add_ipv4_rule_locked demo_cache demo_nt (pdns (demo_state sim0)) (demo_rule 5 9 9) 69 sim0
    = Some (ret, hdl, token', nt', k') /\ wf_nat nt'
    /\ (ret = 0 -> rules demo_nt !! hdl = None /\ VALID_RULE_HDL hdl = true
                   /\ rules nt' = <[hdl := flow_of 0x0a000001 (demo_rule 5 9 9)]> (rules demo_nt)
                   /\ forall f, rules nt' !! hdl = Some f -> fl_redirect f = 0 /\ fl_enable f = 1)
    /\ (ret <> 0 -> hdl = 0 /\ rules nt' = rules demo_nt).
Proof.
  apply (add_rule_refines demo_cache _ demo_nt _ (demo_rule 5 9 9) (mk_pdn 0x0a000001 0 0) 69 sim0
    demo_desc demo_wf); [exact demo_pdn|done|exact demo_rule_wf|done].
Defined.

(** C7: A rule that was added to a well-formed table (its numbers fit their C types, its PDN index
    is below 16) is found where packets look for it: it hangs in the chain of the bucket its
    addresses hash to, and its index record in the chain of its index bucket and points to it. *)
Theorem added_rule_reachable {K} {E : IpaEnv K} {laws : IpaEnvLaws K} c d nt ps r pdn token
    hdl token' nt' (k k' : K) :
  ipa_desc c = Some d -> wf_nat nt -> ps.[u_pdn_index r] = Some pdn ->
  u_pdn_index r < IPA_MAX_PDN_NUM -> wf_user_rule r ->
  u_protocol r <> IPAHAL_NAT_INVALID_PROTOCOL ->
  add_ipv4_rule_locked c nt ps r token k = Some (0, hdl, token', nt', k') ->
  let '(b, token1) := nat_bucket (ver d) (public_ip pdn) r (table_entries (table nt)) token in
  exists i e x, hdl = MakeEntryHdl (table nt) i /\ live nt' i e
    /\ reach (nat_view (table nt')) b i
    /\ reach (idx_view (index_table nt')) (index_bucket r (table_entries (table nt)) token1).1
         (getf indx_tbl_entry e)
    /\ indexed nt' (getf indx_tbl_entry e) x /\ getf tbl_entry x = i.
Proof.
  intros Hd Hwf Hp Hlt Hu Hpr Ea.
  destruct (add_rule_spec c d nt ps pdn r Hd Hwf Hp Hlt Hu Hpr token k)
    as (ret & hdl1 & t1 & nt1 & k1 & Ea1 & Hc).
  rewrite Ea in Ea1. injection Ea1 as <- <- <- <- <-.
  destruct Hc as [(_ & Hwf' & Hi)|(Hr & _)]; [|lia].
  destruct Hi as (i & e & -> & _ & (Hl & _) & _ & _ & _ & _ & _ & R1 & R2).
  destruct (nat_bucket _ _ _ _ token) as [b token1]. cbn [fst snd] in R1, R2.
  destruct (nw_rule_index _ Hwf' i e Hl) as (x & Hx & Hxi). by exists i, e, x.
Qed.

(** Adding one more rule to the demonstration table succeeds. *)
Lemma demo_added_ok :
  exists hdl token' nt' k',
    add_ipv4_rule_locked demo_cache demo_nt (pdns (demo_state sim0)) (demo_rule 5 9 9) 69 sim0
    = Some (0, hdl, token', nt', k').
Proof.
  assert (H : match add_ipv4_rule_locked demo_cache demo_nt (pdns (demo_state sim0))
                      (demo_rule 5 9 9) 69 sim0 with
              | Some (ret, _, _, _, _) => ret =? 0 | None => false end = true)
    by (vm_compute; reflexivity).
  destruct (add_ipv4_rule_locked _ _ _ _ _ _) as [[[[[ret hdl] token'] nt'] k']|]; [|done].
  apply Z.eqb_eq in H. subst. eauto.
Qed.

Lemma added_rule_reachable_witness :
  exists hdl nt' i e, hdl = MakeEntryHdl (table demo_nt) i /\ live nt' i e.
Proof.
  destruct demo_added_ok as (hdl & token' & nt' & k' & Ea).
  pose proof (added_rule_reachable demo_cache _ demo_nt (pdns (demo_state sim0)) (demo_rule 5 9 9)
    (mk_pdn 0x0a000001 0 0) 69 hdl token' nt' sim0 k' demo_desc demo_wf demo_pdn eq_refl
    demo_rule_wf (fun H => ltac:(discriminate H)) Ea) as H.
  revert H. destruct (nat_bucket _ _ _ _ _) as [b t1]. intros (i & e & x & Hh & Hl & _).
  exists hdl, nt', i, e. exact (conj Hh Hl).
Defined.

(** C8: Deleting a rule of the table, when the driver carries it out, removes
    that rule and no other, and leaves a well-formed table. *)
Theorem del_rule_refines {K} {E : IpaEnv K} {laws : IpaEnvLaws K} c d nt hdl (k : K) :
  ipa_desc c = Some d -> wf_nat nt -> is_Some (rules nt !! hdl) ->
  exists ret nt' k',
    del_ipv4_rule_locked c nt hdl k = Some (ret, nt', k')
    /\ (ret = 0 \/ ret = - EIO)
    /\ (ret = 0 -> wf_nat nt' /\ rules nt' = delete hdl (rules nt)).
Proof.
  intros Hd Hwf Hk. destruct (del_refines c d nt Hd Hwf hdl k Hk)
    as (ret & nt' & k' & Ed & H1 & _ & H2). exists ret, nt', k'. split; [done|].
  split; [done|]. intros H0. by destruct (H2 H0) as (? & ? & _).
Qed.

Lemma demo_has_rule : is_Some (rules demo_nt !! 4).
Proof.
  assert (H : bool_decide (is_Some (rules demo_nt !! 4)) = true) by (vm_compute; reflexivity).
  by apply bool_decide_eq_true in H.
Qed.

Lemma del_rule_refines_witness :
  exists ret nt' k',
    del_ipv4_rule_locked demo_cache demo_nt 4 sim0 = Some (ret, nt', k')
    /\ (ret = 0 \/ ret = - EIO)
    /\ (ret = 0 -> wf_nat nt' /\ rules nt' = delete 4 (rules demo_nt)).
Proof. exact (del_rule_refines demo_cache _ demo_nt 4 sim0 demo_desc demo_wf demo_has_rule). Defined.

(** C15: Deleting the rule whose index record heads a chain of other index
    records, when the driver refuses the command, leaves the table broken: the
    rule of the second index record already points to the head, which still
    belongs to the rule that was to be deleted. *)
Theorem refused_deletion_breaks_table {K} {E : IpaEnv K} {laws : IpaEnvLaws K}
    c d nt i e jl nt' (k k' : K) :
  ipa_desc c = Some d -> wf_nat nt -> live nt i e ->
  idx_view (index_table nt) (getf indx_tbl_entry e) = Some jl -> l_prev jl = 0 -> l_next jl <> 0 ->
  del_ipv4_rule_locked c nt (MakeEntryHdl (table nt) i) k = Some (- EIO, nt', k') ->
  ~ wf_nat nt'.
Proof.
  intros Hd Hwf Hi Hj Hp Hn Ed Hbad.
  destruct (nw_rule_index _ Hwf i e Hi) as (x & Hx & Hxi).
  destruct (head_moved nt i e x jl Hwf Hi Hx Hxi Hj Hp Hn) as (xs & sl & e2 & Hxs & Hsl & He2 & He2i & Hne).
  destruct (view_live nat_entry_interface nat_layout cleared nat_meta_ok (table nt) i e) as [il Hil];
    [apply (ns_layout _ (nw_shape _ Hwf))|apply Hi|apply Hi|].
  destruct (del_moved c d nt i _ e x il jl Hd Hwf Hi eq_refl Hx Hxi Hil Hj (l_next jl) xs
      (getf tbl_entry xs) e2 sl Hp eq_refl Hn Hxs Hsl eq_refl He2 k)
      as (k1 & [(nt1 & E1 & _)|E1]); rewrite Ed in E1; [done|]. injection E1 as -> _.
  revert Hbad. apply moved_nt_broken; [done|done|congruence|]. apply (getf_range indx_tbl_entry). field_side.
Qed.

Lemma demo_refused :
  exists nt' k',
    del_ipv4_rule_locked demo_cache demo_nt (MakeEntryHdl (table demo_nt) 2) (mk_sim [1] 0)
    = Some (- EIO, nt', k').
Proof.
  assert (H : match del_ipv4_rule_locked demo_cache demo_nt (MakeEntryHdl (table demo_nt) 2) (mk_sim [1] 0) with
              | Some (ret, _, _) => ret =? - EIO | None => false end = true)
    by (vm_compute; reflexivity).
  destruct (del_ipv4_rule_locked _ _ _ _) as [[[ret nt'] k']|]; [|done].
  apply Z.eqb_eq in H. subst. eauto.
Qed.

(** A record of the demonstration table. *)
Definition demo_record (i : Z) : Z := default 0 ((slots (table demo_nt)).[i]).

Lemma demo_live i :
  match (slots (table demo_nt)).[i] with
  | Some e => table_entry_is_valid e && negb (dead e) | None => false end = true ->
  live demo_nt i (demo_record i).
Proof.
  unfold live, demo_record. destruct ((slots (table demo_nt)).[i]) as [e|]; [|done].
  change (default 0 (Some e)) with e. rewrite andb_true_iff, negb_true_iff. by intros [].
Qed.

Lemma refused_deletion_breaks_table_witness :
  exists nt' k',
    del_ipv4_rule_locked demo_cache demo_nt (MakeEntryHdl (table demo_nt) 2) (mk_sim [1] 0)
    = Some (- EIO, nt', k') /\ ~ wf_nat nt'.
Proof.
  destruct demo_refused as (nt' & k' & Ed). exists nt', k'. split; [exact Ed|].
  apply (refused_deletion_breaks_table demo_cache _ demo_nt 2 (demo_record 2) (Link 4 0) nt' (mk_sim [1] 0) k'
    demo_desc demo_wf); [apply demo_live| | | |exact Ed]; vm_compute; (reflexivity || discriminate).
Defined.
