(* ===== verification/NatErrors.v ===== *)
(** * Where the NAT tables break their promise

    Concrete and general behaviours of the code that its clients would not
    expect: deletions the driver refuses, handles that are deleted twice,
    deletions of tables that fail, PDN indices out of bounds, flags that are
    lost. *)
From S2P Require Import Prelude Bitfield Chain Table TableFacts TableDma NatRule NatRuleFacts Env.
From S2P Require Import NatTable NatOps NatWf NatAdd NatSpec NatState MachRun Demo.

(** ** A table whose deletion failed *)

Section Stuck.
Context {K : Type} {E : IpaEnv K}.
Implicit Types (s : nat_state K).

(** The table is destroyed but still counted. *)
Definition table_stuck s (mem : Z) : Prop :=
  exists c nt, (ipv4_nat_cache s).[mem] = Some c /\ ip4_tbl c = [nt] /\ table_cnt c = 1
    /\ md_valid (mem_desc nt) = false.

Lemma stuck_env s mem k : table_stuck s mem -> table_stuck (with_env s k) mem.
Proof. done. Qed.

Lemma stuck_unlock s mem ret :
  table_stuck s mem -> ret <> 0 ->
  exists r s', unlock_nat ret s = (r, s') /\ r <> 0 /\ table_stuck s' mem.
Proof.
  intros Hs Hr. unfold unlock_nat. destruct (env_unlock (env s)) as [u k].
  eexists _, _. split; [reflexivity|]. split; [|done].
  destruct (u =? 0); [done|]. by destruct (Z.eqb_spec ret 0).
Qed.

Lemma stuck_add s mem ip n :
  table_stuck s mem -> mem = 0 \/ mem = 1 ->
  exists ret s', ipa_NATI_add_ipv4_tbl s mem ip n = Some (ret, 0, s') /\ ret <> 0 /\ table_stuck s' mem.
Proof.
  intros (c & nt & Hc & Hnt & H1 & Hv) Hm. unfold ipa_NATI_add_ipv4_tbl.
  assert (Hvm : IPA_VALID_NAT_MEM_IN mem = true) by (by destruct Hm as [->| ->]). rewrite Hvm. cbn [negb].
  destruct (env_lock (env s)) as [l k1]. destruct (l =? 0); cbn [negb].
  2: { eexists _, _. split; [reflexivity|]. split; [done|]. by exists c, nt. }
  unfold add_ipv4_tbl_locked. cbn [ipv4_nat_cache with_env]. rewrite Hc. cbn [mbind option_bind].
  cbn [table_cnt with_nmi]. rewrite H1. cbn [Z.leb IPA_NAT_MAX_IP4_TBLS Z.compare Pos.compare Pos.compare_cont mbind option_bind].
  destruct (env_unlock _) as [u k2]. eexists _, _. split; [reflexivity|]. split; [by destruct (u =? 0)|].
  exists (with_nmi c mem), nt. split; [|done]. cbn. apply lookupZ_updateZ_eq. by eapply lookupZ_Some_range.
Qed.

Lemma stuck_delete s mem tbl_hdl :
  table_stuck s mem -> VALID_TBL_HDL tbl_hdl = true -> (BREAK_TBL_HDL tbl_hdl).1 = mem ->
  exists ret s', ipa_NATI_del_ipv4_table s tbl_hdl = Some (ret, s') /\ ret <> 0 /\ table_stuck s' mem.
Proof.
  intros Hst Hh Hm. pose proof Hst as (c & nt & Hc & Hnt & H1 & Hv).
  destruct (break_tbl_hdl _ Hh) as (mem' & Eb & _ & Hvm). rewrite Eb in Hm. cbn in Hm. subst mem'.
  unfold ipa_NATI_del_ipv4_table. rewrite Eb, Hvm, Hc. cbn [negb mbind option_bind].
  destruct (env_lock (env s)) as [l k1]. destruct (l =? 0); cbn [negb].
  2: { eexists _, _. split; [reflexivity|]. split; [done|]. by apply stuck_env. }
  rewrite Hnt. change ([nt].[1 - 1]) with (Some nt). cbn [mbind option_bind]. rewrite Hv. cbn [negb].
  destruct (stuck_unlock (with_env s k1) mem (- EINVAL)) as (r & s' & -> & Hr & Hs'); [done|done|].
  by eexists _, _.
Qed.

(** The ioctl that deletes tables fails. *)
Definition deletion_refused : Prop := forall fd ioc arg k, (env_del_table fd ioc arg k).1 <> 0.

Lemma refused_deletion_sticks s tbl_hdl mem R :
  deletion_refused -> nat_inv s -> VALID_TBL_HDL tbl_hdl = true -> (BREAK_TBL_HDL tbl_hdl).1 = mem ->
  (state_rules s).[mem] = Some (Some R) -> (env_lock (env s)).1 = 0 ->
  exists ret s', ipa_NATI_del_ipv4_table s tbl_hdl = Some (ret, s') /\ ret <> 0 /\ table_stuck s' mem.
Proof.
  intros Href Hinv Hh Hm HR Hl. destruct (break_tbl_hdl _ Hh) as (mem' & Eb & _ & Hvm).
  rewrite Eb in Hm. cbn in Hm. subst mem'.
  destruct (table_of_rules s mem R Hinv HR) as (c & nt & Hc & Hnt & H1 & _ & _ & _ & [d Hd] & Hmd).
  unfold ipa_NATI_del_ipv4_table. rewrite Eb, Hvm, Hc. cbn [negb mbind option_bind].
  destruct (env_lock (env s)) as [l k1]. cbn in Hl. subst l. cbn [negb Z.eqb].
  rewrite Hnt. change ([nt].[1 - 1]) with (Some nt). cbn [mbind option_bind]. rewrite Hmd. cbn [negb].
  unfold ipa_nati_destroy_table. rewrite Hd. cbn [mbind option_bind].
  unfold ipa_mem_descriptor_delete. rewrite Hmd. cbn [negb]. unfold DeallocateMemory.
  destruct (env_del_table _ _ _ _) as [ret k2] eqn:Ed.
  assert (Hr : ret <> 0) by (intros ->; eapply Href; rewrite Ed; done).
  cbn [mbind option_bind]. rewrite (proj2 (Z.eqb_neq ret 0) Hr). cbn [negb].
  set (s2 := with_env (with_cache _ _ _) _).
  destruct (stuck_unlock s2 mem ret) as (r & s' & -> & Hr' & Hs'); [|done|by eexists _, _].
  exists (with_tbl c (1 - 1) ip4_table_cache_zero), ip4_table_cache_zero.
  split; [apply lookupZ_updateZ_eq; by eapply lookupZ_Some_range|].
  cbn. rewrite Hnt. done.
Qed.
End Stuck.

(** C30: When the driver refuses the ioctl that deletes tables, deleting a table loses it for good:
    its records are gone, yet it still counts as existing, so that neither a new table can be
    made in its memory type nor the deletion be tried again; every later attempt fails too. *)
Theorem failed_table_deletion_is_final {K} {E : IpaEnv K} (s : nat_state K) tbl_hdl mem R :
  deletion_refused (K := K) -> nat_inv s -> VALID_TBL_HDL tbl_hdl = true ->
  (BREAK_TBL_HDL tbl_hdl).1 = mem -> (state_rules s).[mem] = Some (Some R) ->
  (env_lock (env s)).1 = 0 ->
  exists ret s1, ipa_NATI_del_ipv4_table s tbl_hdl = Some (ret, s1) /\ ret <> 0 /\ table_stuck s1 mem
    /\ forall s2, table_stuck s2 mem ->
         (forall ip n, exists ret s3, ipa_NATI_add_ipv4_tbl s2 mem ip n = Some (ret, 0, s3)
                                      /\ ret <> 0 /\ table_stuck s3 mem)
         /\ exists ret s3, ipa_NATI_del_ipv4_table s2 tbl_hdl = Some (ret, s3)
                           /\ ret <> 0 /\ table_stuck s3 mem.
Proof.
  intros H1 H2 H3 H4 H5 H6.
  destruct (refused_deletion_sticks s tbl_hdl mem R H1 H2 H3 H4 H5 H6) as (ret & s1 & E1 & Hr & Hs).
  exists ret, s1. split; [done|]. split; [done|]. split; [done|]. intros s2 Hs2. split.
  - intros ip n. apply stuck_add; [done|]. destruct (break_tbl_hdl _ H3) as (mem' & Eb & Hm & _).
    rewrite Eb in H4. cbn in H4. by subst.
  - by apply stuck_delete.
Qed.

(** A table in an environment that refuses to delete it. *)
Definition refusing_state : nat_state sim :=
  match run_calls (E := sim_env_with 1) (nat_state_init sim0) [call_add_tbl 0 0x0a000001 6] with
  | Some (_, s) => s
  | None => nat_state_init sim0
  end.

Lemma refusing_inv : nat_inv refusing_state.
Proof.
  unfold refusing_state. destruct (run_calls _ _) as [[tr s]|] eqn:Er; [|apply nat_inv_init].
  eapply (nat_run_spec (E := sim_env_with 1) (laws := sim_laws_with 1) (mlaws := sim_mem_laws_with 1));
    [apply nat_inv_init|by eapply run_calls_run].
Qed.

Lemma refusing_rules : exists R, (state_rules refusing_state).[0] = Some (Some R).
Proof.
  assert (H : match (state_rules refusing_state).[0] with Some (Some _) => true | _ => false end = true)
    by (vm_compute; reflexivity).
  destruct ((state_rules refusing_state).[0]) as [[R|]|]; [|done..]. by exists R.
Qed.

Lemma failed_table_deletion_is_final_witness :
  exists ret s1, ipa_NATI_del_ipv4_table (E := sim_env_with 1) refusing_state 1 = Some (ret, s1)
    /\ ret <> 0 /\ table_stuck s1 0.
Proof.
  destruct refusing_rules as [R HR].
  destruct (failed_table_deletion_is_final (E := sim_env_with 1) refusing_state 1 0 R
    ltac:(discriminate) refusing_inv eq_refl eq_refl HR eq_refl) as (ret & s1 & H1 & H2 & H3 & _).
  exists ret, s1. exact (conj H1 (conj H2 H3)).
Defined.

(** ** A handle deleted twice *)

(** The demonstration table after its rule 4, which heads a chain, was deleted,
    its rule 2 was deleted, and a new rule was added. *)
Definition reused_state : nat_state sim :=
  state_after (demo_state sim0)
    [call_del_rule 1 4; call_del_rule 1 2; call_add_rule 1 (demo_rule 5 9 8)].

Definition unindexed_rule (nt : ipa_nat_ip4_table_cache) (i : Z) : bool :=
  match (slots (table nt)).[i] with
  | Some e =>
      table_entry_is_valid e && negb (dead e)
      && match (slots (index_table nt)).[getf indx_tbl_entry e] with
         | Some x => negb (index_table_entry_is_valid x)
         | None => true
         end
  | None => false
  end.

Lemma unindexed_rule_spec nt i :
  unindexed_rule nt i = true ->
  exists e, live nt i e /\ forall x, ~ indexed nt (getf indx_tbl_entry e) x.
Proof.
  unfold unindexed_rule, live, indexed. destruct ((slots (table nt)).[i]) as [e|]; [|done].
  rewrite !andb_true_iff, negb_true_iff. intros [[Hv Hd] Hx]. exists e. split; [done|].
  intros x [Hi Hxv]. rewrite Hi in Hx. apply negb_true_iff in Hx. congruence.
Qed.

(** C31: A handle whose rule was deleted can still name the place holder of a
    chain; deleting it once more succeeds and removes the index record of
    another client's rule, which packets in one direction then no longer
    find. *)
Theorem second_deletion_corrupts_table :
  nat_inv reused_state /\ rules (ddr_table reused_state) !! 4 = None
  /\ exists s', ipa_NATI_del_ipv4_rule reused_state 1 4 = Some (0, s')
     /\ (exists e, live (ddr_table s') 1 e
                   /\ forall x, ~ indexed (ddr_table s') (getf indx_tbl_entry e) x)
     /\ ~ wf_nat (ddr_table s').
Proof.
  split.
  { destruct (state_after_run (demo_state sim0)
      [call_del_rule 1 4; call_del_rule 1 2; call_add_rule 1 (demo_rule 5 9 8)]) as [tr Hr];
      [vm_compute; reflexivity|].
    eapply nat_run_spec; [apply demo_inv|exact Hr]. }
  assert (Hn : bool_decide (rules (ddr_table reused_state) !! 4 = None) = true) by (vm_compute; reflexivity).
  apply bool_decide_eq_true in Hn. split; [exact Hn|].
  assert (H : match ipa_NATI_del_ipv4_rule reused_state 1 4 with
              | Some (ret, s') => (ret =? 0) && unindexed_rule (ddr_table s') 1 | None => false end = true)
    by (vm_compute; reflexivity).
  destruct (ipa_NATI_del_ipv4_rule reused_state 1 4) as [[ret s']|]; [|done].
  apply andb_true_iff in H as [->%Z.eqb_eq H]. exists s'. split; [reflexivity|].
  destruct (unindexed_rule_spec _ _ H) as (e & He & Hx).
  split; [exists e; exact (conj He Hx)|].
  intros Hwf. destruct (nw_rule_index _ Hwf 1 e He) as (x & Hxi & _). exact (Hx x Hxi).
Qed.

(** ** A PDN index out of bounds *)

(** A rule with a PDN index beyond the sixteen PDNs is not rejected
    safely: the error message reads the PDN array at that index. *)
Theorem pdn_index_read_out_of_bounds {K} {E : IpaEnv K} (s : nat_state K) tbl_hdl r h0 :
  nat_inv s -> VALID_TBL_HDL tbl_hdl = true -> u_protocol r <> IPAHAL_NAT_INVALID_PROTOCOL ->
  IPA_MAX_PDN_NUM <= u_pdn_index r ->
  ipa_NATI_add_ipv4_rule s tbl_hdl (Some r) (Some h0) = None.
Proof.
  intros Hinv Hh Hp Hi. destruct (break_tbl_hdl _ Hh) as (mem & Eb & Hm & Hv).
  destruct (nat_inv_cache s mem Hinv Hm) as (c & Hc & _).
  unfold ipa_NATI_add_ipv4_rule. rewrite Hh, Eb, Hv, Hc. cbn [negb mbind option_bind].
  assert (Hno : (pdns s).[u_pdn_index r] = None)
    by (apply lookupZ_None; rewrite (ni_pdns _ Hinv); lia).
  by rewrite (proj2 (Z.eqb_neq _ _) Hp), Hno.
Qed.

Lemma pdn_index_read_out_of_bounds_witness :
  ipa_NATI_add_ipv4_rule (demo_state sim0) 1
    (Some (mk_ipv4_rule 0x08080808 5 53 6 7 17 16 0 0 0 0 false false false false)) (Some 0) = None.
Proof.
  apply (pdn_index_read_out_of_bounds (demo_state sim0) 1 _ 0 demo_inv eq_refl);
    cbn; unfold IPAHAL_NAT_INVALID_PROTOCOL, IPA_MAX_PDN_NUM; lia.
Defined.

(** ** Flags that are lost *)

(** Whatever the client's rule asks for, the record that is added is
    enabled and its redirect bit is clear: the half word the hardware is told
    to write over the record's flags does not carry the bit. *)
Theorem redirect_is_lost {K} {E : IpaEnv K} {laws : IpaEnvLaws K} c d nt ps r pdn token hdl
    token' nt' (k k' : K) :
  ipa_desc c = Some d -> wf_nat nt -> ps.[u_pdn_index r] = Some pdn ->
  u_pdn_index r < IPA_MAX_PDN_NUM -> wf_user_rule r ->
  u_protocol r <> IPAHAL_NAT_INVALID_PROTOCOL ->
  add_ipv4_rule_locked c nt ps r token k = Some (0, hdl, token', nt', k') ->
  exists i e, hdl = MakeEntryHdl (table nt) i /\ live nt' i e
    /\ getf redirect e = 0 /\ getf enable e = 1 /\ getf time_stamp e = u_time_stamp r mod 2 ^ 24.
Proof.
  intros Hd Hwf Hp Hlt Hu Hpr Ea.
  destruct (add_rule_spec c d nt ps pdn r Hd Hwf Hp Hlt Hu Hpr token k)
    as (ret & hdl1 & t1 & nt1 & k1 & Ea1 & Hc).
  rewrite Ea in Ea1. injection Ea1 as <- <- <- <- <-.
  destruct Hc as [(_ & Hwf' & Hi)|(Hr & _)]; [|lia].
  destruct Hi as (i & e & -> & _ & (Hl & _) & _ & Ht & Hrd & _). exists i, e.
  split_and!; try done. pose proof Hl as (_ & Hv & _).
  unfold table_entry_is_valid in Hv. apply negb_true_iff, Z.eqb_neq in Hv.
  pose proof (getf_range enable e ltac:(field_side)) as H. cbn [fw enable] in H. cbn in H. lia.
Qed.

(** A rule that asks for redirection. *)
Definition redirect_rule : ipa_nat_ipv4_rule :=
  mk_ipv4_rule 0x08080808 5 53 9 9 17 0 1 1 5 0 false false false false.

Lemma redirect_added :
  exists hdl token' nt' k',
    add_ipv4_rule_locked demo_cache demo_nt (pdns (demo_state sim0)) redirect_rule 69 sim0
    = Some (0, hdl, token', nt', k').
Proof.
  assert (H : match add_ipv4_rule_locked demo_cache demo_nt (pdns (demo_state sim0)) redirect_rule 69 sim0 with
              | Some (ret, _, _, _, _) => ret =? 0 | None => false end = true)
    by (vm_compute; reflexivity).
  destruct (add_ipv4_rule_locked _ _ _ _ _ _) as [[[[[ret hdl] token'] nt'] k']|]; [|done].
  apply Z.eqb_eq in H. subst. eauto.
Qed.

Lemma redirect_pdn : (pdns (demo_state sim0)).[u_pdn_index redirect_rule] = Some (mk_pdn 0x0a000001 0 0).
Proof. vm_compute. reflexivity. Qed.

Lemma redirect_rule_wf : wf_user_rule redirect_rule.
Proof. by apply user_rule_fits_wf. Qed.

Lemma redirect_is_lost_witness :
  exists nt' i e, live nt' i e /\ getf redirect e = 0.
Proof.
  destruct redirect_added as (hdl & token' & nt' & k' & Ea).
  destruct (redirect_is_lost demo_cache _ demo_nt (pdns (demo_state sim0)) redirect_rule
    (mk_pdn 0x0a000001 0 0) 69 hdl token' nt' sim0 k' demo_desc demo_wf redirect_pdn eq_refl
    redirect_rule_wf ltac:(discriminate) Ea) as (i & e & _ & Hl & Hr & _).
  exists nt', i, e. exact (conj Hl Hr).
Defined.
