(* ===== verification/NatLaws.v ===== *)
(** * Checksums, hashes, PDNs, time stamps and statistics: theorems

    Searching, allocating and releasing the sixteen addresses rules refer
    to. *)
From S2P Require Import Prelude Bitfield Table TableDma NatRule Env NatTable NatOps Chain Sizing.
From S2P Require Import TableFacts NatRuleFacts NatWalk NatWf NatAdd NatSpec NatState NatStats.
From S2P Require Import MachRun Demo.

(** The first of the [n] PDNs from [i] on that has the address. *)
Definition first_pdn (l : list ipa_nat_pdn_entry) (i : Z) (n : nat) (ip j : Z) : Prop :=
  i <= j < i + Z.of_nat n /\ (exists p, l.[j] = Some p /\ public_ip p = ip)
  /\ forall k p, i <= k < j -> l.[k] = Some p -> public_ip p <> ip.

Lemma get_pdn_index_loop_spec l n i ip :
  0 <= i -> i + Z.of_nat n <= lengthZ l ->
  (exists j, get_pdn_index_loop n l i ip = Some (Some j) /\ first_pdn l i n ip j)
  \/ (get_pdn_index_loop n l i ip = Some None
      /\ forall k p, i <= k < i + Z.of_nat n -> l.[k] = Some p -> public_ip p <> ip).
Proof.
  revert i. induction n as [|n IH]; intros i Hi Hn.
  { right. split; [done|]. intros k p. lia. }
  cbn [get_pdn_index_loop]. destruct (lookupZ_in_range l i) as [p Hp]; [lia|].
  rewrite Hp. cbn [mbind option_bind]. destruct (Z.eqb_spec (public_ip p) ip) as [E|Ne].
  - left. exists i. split; [done|]. split; [lia|]. split; [by exists p|]. intros k q. lia.
  - assert (Hk : forall k q, i <= k -> (i + 1 <= k -> l.[k] = Some q -> public_ip q <> ip) ->
                   l.[k] = Some q -> public_ip q <> ip).
    { intros k q Hk1 Hk2 Hq. destruct (decide (k = i)) as [->|]; [congruence|]. apply Hk2; [lia|done]. }
    destruct (IH (i + 1)) as [(j & -> & Hr & He & Hj)|(-> & Hno)]; [lia|lia| |].
    + left. exists j. split; [done|]. split; [lia|]. split; [done|].
      intros k q Hk1. apply Hk; [lia|]. intros. eapply Hj; [|done]. lia.
    + right. split; [done|]. intros k q Hk1. apply Hk; [lia|]. intros. eapply Hno; [|done]. lia.
Qed.

(** Where [ipa_nati_alloc_pdn] looks. *)
Lemma alloc_pdn_loop_spec l n i ip :
  0 <= i -> i + Z.of_nat n <= lengthZ l ->
  exists r, alloc_pdn_loop n l i ip = Some r
    /\ match r with
       | pdn_same j => first_pdn l i n ip j
       | pdn_empty j => i <= j < i + Z.of_nat n /\ l.[j] = Some pdn_zero
           /\ forall k p, i <= k <= j -> l.[k] = Some p -> public_ip p <> ip
       | pdn_full => forall k p, i <= k < i + Z.of_nat n -> l.[k] = Some p ->
           public_ip p <> ip /\ p <> pdn_zero
       end.
Proof.
  revert i. induction n as [|n IH]; intros i Hi Hn.
  { exists pdn_full. split; [done|]. intros k p. lia. }
  cbn [alloc_pdn_loop]. destruct (lookupZ_in_range l i) as [p Hp]; [lia|].
  rewrite Hp. cbn [mbind option_bind]. destruct (Z.eqb_spec (public_ip p) ip) as [E|Ne].
  { exists (pdn_same i). split; [done|]. split; [lia|]. split; [by exists p|]. intros k q. lia. }
  destruct (decide (p = pdn_zero)) as [->|Nz].
  { exists (pdn_empty i). split; [done|]. split; [lia|]. split; [done|].
    intros k q Hk Hq. replace k with i in Hq by lia. congruence. }
  destruct (IH (i + 1)) as (r & -> & Hr); [lia|lia|]. exists r. split; [done|].
  destruct r as [j|j|].
  - destruct Hr as (H1 & H2 & H3). split; [lia|]. split; [done|]. intros k q Hk Hq.
    destruct (decide (k = i)) as [->|]; [congruence|]. eapply H3; [|done]. lia.
  - destruct Hr as (H1 & H2 & H3). split; [lia|]. split; [done|]. intros k q Hk Hq.
    destruct (decide (k = i)) as [->|]; [congruence|]. eapply H3; [|done]. lia.
  - intros k q Hk Hq. destruct (decide (k = i)) as [->|]; [|eapply Hr; [|done]; lia].
    rewrite Hp in Hq. by injection Hq as <-.
Qed.

Section Pdn.
Context {K : Type} {E : IpaEnv K}.
Implicit Types (s : nat_state K).

Lemma get_pdn_index_spec s ip :
  lengthZ (pdns s) = IPA_MAX_PDN_NUM ->
  (exists j, ipa_nati_get_pdn_index s ip = Some (0, Some j) /\ first_pdn (pdns s) 0 15 ip j)
  \/ (ipa_nati_get_pdn_index s ip = Some (- EIO, None)
      /\ forall k p, 0 <= k < 15 -> (pdns s).[k] = Some p -> public_ip p <> ip).
Proof.
  intros Hl. unfold IPA_MAX_PDN_NUM in Hl. unfold ipa_nati_get_pdn_index.
  change (Z.to_nat (IPA_MAX_PDN_NUM - 1)) with 15%nat.
  destruct (get_pdn_index_loop_spec (pdns s) 15 0 ip) as [(j & -> & Hj)|(-> & Hno)]; [lia|lia| |].
  - left. exists j. cbn [mbind option_bind]. split; [|done]. destruct Hj as (Hj & _).
    by rewrite u8_small by lia.
  - by right.
Qed.

(** The first PDN with an address is the one [ipa_nati_get_pdn_index] finds. *)
Lemma get_pdn_index_first s ip j :
  lengthZ (pdns s) = IPA_MAX_PDN_NUM -> first_pdn (pdns s) 0 15 ip j ->
  ipa_nati_get_pdn_index s ip = Some (0, Some j).
Proof.
  intros Hl (H1 & (p & Hp & Hip) & H3).
  destruct (get_pdn_index_spec s ip Hl) as [(i & -> & G1 & (q & Hq & Hqi) & G3)|(_ & Hno)].
  - do 3 f_equal. destruct (Z.lt_trichotomy i j) as [Hlt|[->|Hgt]]; [|done|].
    + exfalso. apply (H3 i q); [lia|done|done].
    + exfalso. apply (G3 j p); [lia|done|done].
  - exfalso. apply (Hno j p); [lia|done|done].
Qed.

Lemma modify_pdn_spec s entry :
  lengthZ (ipv4_nat_cache s) = 2 -> 0 <= ioc_pdn_index entry < lengthZ (pdns s) ->
  exists ret s', ipa_nati_modify_pdn s entry = Some (ret, s')
    /\ ipv4_nat_cache s' = ipv4_nat_cache s /\ num_pdns s' = num_pdns s
    /\ (ret = 0 -> pdns s' = (pdns s).[ioc_pdn_index entry
          <- mk_pdn (ioc_public_ip entry) (ioc_src_metadata entry) (ioc_dst_metadata entry)])
    /\ (ret <> 0 -> pdns s' = pdns s).
Proof.
  intros Hc Hi. unfold ipa_nati_modify_pdn.
  destruct (lookupZ_in_range (ipv4_nat_cache s) IPA_NAT_MEM_IN_DDR) as [ddr ->]; [by rewrite Hc|].
  destruct (lookupZ_in_range (ipv4_nat_cache s) IPA_NAT_MEM_IN_SRAM) as [sram ->]; [by rewrite Hc|].
  cbn [mbind option_bind]. destruct (match ipa_desc ddr with Some d => Some d | None => ipa_desc sram end) as [d|];
    [|by eexists _, _].
  destruct (env_modify_pdn _ _ _) as [ret k]. destruct (Z.eqb_spec ret 0) as [->|Hne]; cbn [negb];
    [|by eexists _, _].
  unfold set_pdn. cbn [pdns with_env]. rewrite storeZ_Some by done. cbn [mbind option_bind].
  by eexists _, _.
Qed.

(** Allocating an address: afterwards it is found at the returned index. *)
Lemma alloc_pdn_spec s p :
  lengthZ (ipv4_nat_cache s) = 2 -> lengthZ (pdns s) = IPA_MAX_PDN_NUM ->
  exists ret j s', ipa_nati_alloc_pdn s p = Some (ret, j, s')
    /\ ipv4_nat_cache s' = ipv4_nat_cache s /\ lengthZ (pdns s') = IPA_MAX_PDN_NUM
    /\ (ret = 0 -> exists i, j = Some i /\ 0 <= i < 15
          /\ ipa_nati_get_pdn_index s' (public_ip p) = Some (0, Some i)
          /\ (forall k, k <> i -> (pdns s').[k] = (pdns s).[k])
          /\ (pdns s' = pdns s \/ (pdns s).[i] = Some pdn_zero /\ num_pdns s' = num_pdns s + 1))
    /\ (ret <> 0 -> j = None /\ pdns s' = pdns s /\ num_pdns s' = num_pdns s).
Proof.
  intros Hc Hl. pose proof Hl as Hl'. unfold IPA_MAX_PDN_NUM in Hl'. unfold ipa_nati_alloc_pdn.
  destruct (IPA_MAX_PDN_NUM - 1 <=? num_pdns s); [by eexists _, _, _|].
  change (Z.to_nat (IPA_MAX_PDN_NUM - 1)) with 15%nat.
  destruct (alloc_pdn_loop_spec (pdns s) 15 0 (public_ip p)) as (r & -> & Hr); [lia|lia|].
  cbn [mbind option_bind]. destruct r as [i|i|].
  - eexists _, _, _. split; [reflexivity|]. split; [done|]. split; [done|]. split; [|done]. intros _.
    exists i. pose proof Hr as (Hi & _). rewrite u8_small by lia. split; [done|]. split; [lia|].
    split; [by apply get_pdn_index_first|]. auto.
  - destruct Hr as (Hi & Hz & Hno). rewrite u8_small by lia.
    destruct (modify_pdn_spec s (mk_ioc_pdn i (public_ip p) (src_metadata p) (dst_metadata p)) Hc)
      as (ret & s' & Em & M1 & M2 & M3 & M4); [cbn; lia|]. rewrite Em. cbn [mbind option_bind].
    destruct (Z.eqb_spec ret 0) as [->|Hne].
    + eexists _, _, _. split; [reflexivity|]. cbn [ipv4_nat_cache pdns with_pdns num_pdns].
      rewrite (M3 eq_refl), lengthZ_updateZ. cbn [ioc_pdn_index ioc_public_ip ioc_src_metadata ioc_dst_metadata].
      split; [done|]. split; [done|]. split; [|done]. intros _. exists i. split; [done|]. split; [lia|].
      split; [|split; [intros k Hk; by apply lookupZ_updateZ_ne|right; by rewrite M2]].
      apply get_pdn_index_first; [cbn; by rewrite lengthZ_updateZ|].
      cbn [pdns with_pdns]. split; [lia|]. split.
      * eexists. split; [apply lookupZ_updateZ_eq; lia|done].
      * intros k q Hk. rewrite lookupZ_updateZ_ne by lia. apply Hno. lia.
    + eexists _, _, _. split; [reflexivity|]. rewrite (M4 Hne), M2. by split_and!.
  - by eexists _, _, _.
Qed.

(** Releasing a PDN. *)
Lemma dealloc_pdn_spec s i :
  lengthZ (ipv4_nat_cache s) = 2 -> 0 <= i < lengthZ (pdns s) ->
  exists ret s', ipa_nati_dealloc_pdn s i = Some (ret, s')
    /\ ipv4_nat_cache s' = ipv4_nat_cache s
    /\ (ret = 0 -> pdns s' = (pdns s).[i <- pdn_zero] /\ num_pdns s' = num_pdns s - 1
                   /\ (pdns s).[i] <> Some pdn_zero)
    /\ (ret <> 0 -> pdns s' = pdns s /\ num_pdns s' = num_pdns s).
Proof.
  intros Hc Hi. unfold ipa_nati_dealloc_pdn. destruct (num_pdns s =? 0); [by eexists _, _|].
  destruct (lookupZ_in_range (pdns s) i Hi) as [p Hp]. rewrite Hp. cbn [mbind option_bind].
  destruct (decide (p = pdn_zero)) as [->|Hne]; [by eexists _, _|].
  destruct (modify_pdn_spec s (mk_ioc_pdn i 0 0 0) Hc Hi) as (ret & s' & Em & M1 & M2 & M3 & M4).
  rewrite Em. cbn [mbind option_bind]. destruct (Z.eqb_spec ret 0) as [->|Hr]; cbn [negb].
  - rewrite (M3 eq_refl). cbn [ioc_pdn_index]. rewrite storeZ_Some by (by rewrite lengthZ_updateZ).
    cbn [mbind option_bind]. eexists _, _. split; [reflexivity|]. cbn. rewrite updateZ_updateZ_eq, M2.
    split; [done|]. split; [|done]. intros _. split; [done|]. split; [done|]. congruence.
  - eexists _, _. split; [reflexivity|]. rewrite (M4 Hr). split; [done|]. split; [done|]. auto.
Qed.
End Pdn.

(** The sum of the two half words of an address. *)
Definition words (ip : Z) : Z := lo16 ip + hi16 ip.

(** C35: The checksum deltas of a rule are sixteen-bit numbers with which the
    hardware can patch a packet: in one's complement arithmetic, the sum of
    the private address (and port) and the delta is the sum of the public
    address (and port). *)
Theorem checksum_deltas_patch pub pport priv port :
  0 <= pub < 2 ^ 32 -> 0 <= priv < 2 ^ 32 -> 0 <= pport < 2 ^ 16 -> 0 <= port < 2 ^ 16 ->
  let ip := ipa_nati_calc_ip_cksum pub priv in
  let tcp := ipa_nati_calc_tcp_udp_cksum pub pport priv port in
  0 <= ip < 65536 /\ (words priv + ip) mod 65535 = words pub mod 65535
  /\ 0 <= tcp < 65536 /\ (words priv + port + tcp) mod 65535 = (words pub + pport) mod 65535.
Proof.
  intros H1 H2 H3 H4 ip tcp. unfold words.
  destruct (ip_cksum_spec pub priv H1 H2) as [R1 E1]. fold ip in R1, E1.
  destruct (tcp_udp_cksum_spec pub pport priv port H1 H2 H3 H4) as [R2 E2]. fold tcp in R2, E2.
  split; [done|]. split; [|split; [done|]].
  - apply Z.mod_divide in E1 as [q Eq]; [|lia].
    replace (lo16 priv + hi16 priv + ip) with (lo16 pub + hi16 pub + q * 65535) by lia.
    by apply Z.mod_add.
  - apply Z.mod_divide in E2 as [q Eq]; [|lia].
    replace (lo16 priv + hi16 priv + port + tcp) with (lo16 pub + hi16 pub + pport + q * 65535) by lia.
    by apply Z.mod_add.
Qed.

Lemma checksum_deltas_patch_witness :
  0 <= ipa_nati_calc_ip_cksum 0x0a000001 0xc0a80102 < 65536.
Proof. apply (checksum_deltas_patch 0x0a000001 7 0xc0a80102 6); lia. Defined.

(** Whatever the hardware version, the flags and the hash token are, the
    buckets of a rule lie in the base table and are never record 0, which is
    the end of every chain. *)
Theorem buckets_in_base_table ver pub r base token :
  2 <= base <= 5120 ->
  1 <= (nat_bucket ver pub r base token).1 < base
  /\ 1 <= (index_bucket r base token).1 < base.
Proof. intros H. split; [by apply nat_bucket_range|by apply index_bucket_range]. Qed.

Lemma buckets_in_base_table_witness :
  1 <= (nat_bucket 17 0x0a000001 (demo_rule 5 6 7) 4 69).1 < 4
  /\ 1 <= (index_bucket (demo_rule 5 6 7) 4 69).1 < 4.
Proof. apply (buckets_in_base_table 17 0x0a000001 (demo_rule 5 6 7) 4 69). lia. Defined.

(** A PDN that was allocated is found: [ipa_nati_get_pdn_index] of its
    address gives the index [ipa_nati_alloc_pdn] returned, no other PDN
    changed, and the PDN was there before or took a free place and was
    counted; a failed allocation changes nothing. *)
Theorem allocated_pdn_is_found {K} {E : IpaEnv K} (s : nat_state K) p :
  nat_inv s ->
  exists ret j s', ipa_nati_alloc_pdn s p = Some (ret, j, s') /\ nat_inv s'
    /\ (ret = 0 -> exists i, j = Some i /\ 0 <= i < 15
          /\ ipa_nati_get_pdn_index s' (public_ip p) = Some (0, Some i)
          /\ (forall k, k <> i -> (pdns s').[k] = (pdns s).[k])
          /\ (pdns s' = pdns s \/ (pdns s).[i] = Some pdn_zero /\ num_pdns s' = num_pdns s + 1))
    /\ (ret <> 0 -> j = None /\ pdns s' = pdns s /\ num_pdns s' = num_pdns s).
Proof.
  intros [H1 H2 H3]. destruct (alloc_pdn_spec s p H1 H3) as (ret & j & s' & Ea & A1 & A2 & A3).
  exists ret, j, s'. split; [done|]. split; [|done]. split; [by rewrite A1|by rewrite A1|done].
Qed.

Lemma allocated_pdn_is_found_witness :
  exists ret j s', ipa_nati_alloc_pdn (demo_state sim0) (mk_pdn 0x0a000002 1 2) = Some (ret, j, s')
    /\ nat_inv s'.
Proof.
  destruct (allocated_pdn_is_found (demo_state sim0) (mk_pdn 0x0a000002 1 2) demo_inv)
    as (ret & j & s' & H1 & H2 & _). exists ret, j, s'. exact (conj H1 H2).
Defined.

(** [ipa_NATI_query_timestamp] of a rule gives the time stamp the rule
    has, and changes no table. *)
Theorem query_gives_time_stamp {K} {E : IpaEnv K} (s : nat_state K) tbl_hdl mem R h f :
  nat_inv s -> VALID_TBL_HDL tbl_hdl = true -> (BREAK_TBL_HDL tbl_hdl).1 = mem ->
  (state_rules s).[mem] = Some (Some R) -> R !! h = Some f ->
  exists ret ts s', ipa_NATI_query_timestamp s tbl_hdl h = Some (ret, ts, s')
    /\ nat_inv s' /\ state_rules s' = state_rules s
    /\ ((ret = - EINVAL /\ ts = None) \/ ((ret = 0 \/ ret = - EPERM) /\ ts = Some (fl_time_stamp f))).
Proof.
  intros H1 H2 H3 H4 H5.
  destruct (query_timestamp_spec s tbl_hdl mem R h f H1 H2 H3 H4 H5) as (ret & ts & s' & Eq & (_ & Q & _) & Hi & Hc).
  by exists ret, ts, s'.
Qed.

Lemma demo_state_rules :
  exists R f, (state_rules (demo_state sim0)).[0] = Some (Some R) /\ R !! 4 = Some f.
Proof.
  assert (H : match (state_rules (demo_state sim0)).[0] with
              | Some (Some R) => bool_decide (is_Some (R !! 4)) | _ => false end = true)
    by (vm_compute; reflexivity).
  destruct ((state_rules (demo_state sim0)).[0]) as [[R|]|]; [|discriminate H|discriminate H].
  apply bool_decide_eq_true in H as [f Hf]. exists R, f. exact (conj eq_refl Hf).
Qed.

Lemma query_gives_time_stamp_witness :
  exists ret ts s', ipa_NATI_query_timestamp (demo_state sim0) 1 4 = Some (ret, ts, s') /\ nat_inv s'.
Proof.
  destruct demo_state_rules as (R & f & HR & Hf).
  destruct (query_gives_time_stamp (demo_state sim0) 1 0 R 4 f demo_inv eq_refl eq_refl HR Hf)
    as (ret & ts & s' & H1 & H2 & _). exists ret, ts, s'. exact (conj H1 H2).
Defined.

(** [ipa_NATI_clear_ipv4_tbl] leaves an existing table with no rules, or
    fails because the mutex was not available and changes nothing. *)
Theorem clear_empties_table {K} {E : IpaEnv K} (s : nat_state K) tbl_hdl mem R :
  nat_inv s -> VALID_TBL_HDL tbl_hdl = true -> (BREAK_TBL_HDL tbl_hdl).1 = mem ->
  (state_rules s).[mem] = Some (Some R) ->
  exists ret s', ipa_NATI_clear_ipv4_tbl s tbl_hdl = Some (ret, s') /\ nat_inv s' /\ pdns s' = pdns s
    /\ (ret = 0 \/ ret = - EPERM -> state_rules s' = (state_rules s).[mem <- Some ∅])
    /\ (ret = 0 \/ ret = - EPERM \/ ret = - EINVAL /\ state_rules s' = state_rules s).
Proof. intros H1 H2 H3 H4. by apply (NATI_clear_spec s tbl_hdl mem R). Qed.

Lemma clear_empties_table_witness :
  exists ret s', ipa_NATI_clear_ipv4_tbl (demo_state sim0) 1 = Some (ret, s') /\ nat_inv s'.
Proof.
  destruct demo_state_rules as (R & f & HR & _).
  destruct (clear_empties_table (demo_state sim0) 1 0 R demo_inv eq_refl eq_refl HR)
    as (ret & s' & H1 & H2 & _). exists ret, s'. exact (conj H1 H2).
Defined.

(** [ipa_NATI_ipv4_tbl_stats] reports, for the NAT and for the index
    table, their sizes, the numbers of records in use in the base and in the
    expansion table, the number of chains of more than one record, and
    lengths of the shortest and longest of these chains that are ordered and
    within the table; it ends and changes no table. *)
Theorem statistics_are_right {K} {E : IpaEnv K} (s : nat_state K) tbl_hdl mem R :
  nat_inv s -> VALID_TBL_HDL tbl_hdl = true -> (BREAK_TBL_HDL tbl_hdl).1 = mem ->
  (state_rules s).[mem] = Some (Some R) ->
  exists ret st s', ipa_NATI_ipv4_tbl_stats s tbl_hdl = Some (ret, st, s')
    /\ nat_inv s' /\ state_rules s' = state_rules s
    /\ ((ret = - EINVAL /\ st = None)
        \/ (ret = 0 \/ ret = - EPERM) /\ exists c nt ns ixs,
             (ipv4_nat_cache s).[mem] = Some c /\ ip4_tbl c = [nt] /\ rules nt = R
             /\ st = Some (ns, ixs) /\ nat_measures mem (table nt) ns
             /\ idx_measures mem (index_table nt) ixs).
Proof.
  intros H1 H2 H3 H4. destruct (tbl_stats_spec s tbl_hdl mem R H1 H2 H3 H4)
    as (ret & st & s' & Es & (_ & Q & _) & Hi & Hc). by exists ret, st, s'.
Qed.

Lemma statistics_are_right_witness :
  exists ret st s', ipa_NATI_ipv4_tbl_stats (demo_state sim0) 1 = Some (ret, st, s') /\ nat_inv s'.
Proof.
  destruct demo_state_rules as (R & f & HR & _).
  destruct (statistics_are_right (demo_state sim0) 1 0 R demo_inv eq_refl eq_refl HR)
    as (ret & st & s' & H1 & H2 & _). exists ret, st, s'. exact (conj H1 H2).
Defined.
