(* ===== verification/Ipv6Theorems.v ===== *)
(** * IPv6 connection tracking: theorems

    What the library promises of sequences of IPv6 connection tracking calls,
    of a rule that was added, of the hash, and how it fails. *)
From S2P Require Import Prelude Bitfield Chain Table Sizing TableFacts TableDma TableInsert.
From S2P Require Import TableHold NatRule Ipv6Rule Ipv6Facts Env TableMem Ipv6ct.
From S2P Require Import Ipv6Ops Ipv6State Ipv6Calls Demo.

(** C19: Every sequence of IPv6 connection tracking calls the library answers, with arguments of
    their C types, whatever handles the client passes and whatever the driver refuses, is a
    sequence of steps of the contract [ct_step]: a table is a map from handles to rules, an
    added rule appears under a fresh handle, a deleted one (named by any handle of its record)
    disappears, the time stamp read is that of the rule. A failing call leaves the map alone
    with these exceptions: after the -EPERM of a mutex that could not be released the call has
    had its effect (the table or the rule is deleted, or the rule is in but its handle was
    lost), and a table whose deletion fails loses its map and stays unusable. The invariant
    holds at the end. *)
Theorem ct_library_refines_contract {K} {E : IpaEnv K} {E6 : Ipv6Env K} {laws : IpaEnvLaws K}
    {mlaws : IpaMemLaws K} (k : K) tr s' :
  ct_run (ct_state_init k) tr s' -> ct_inv s' /\ ct_spec_run ct_no_table tr (ct_abs_of s').
Proof.
  destruct (ct_inv_init k) as [Hi Ha]. intros H. rewrite <- Ha. by apply ct_run_spec.
Qed.

Lemma ct_library_refines_contract_witness :
  exists tr, ct_spec_run ct_no_table tr (ct_abs_of (ct_state_after demo_ct_calls)).
Proof.
  destruct (ct_state_after_run demo_ct_calls) as [tr Hr]; [vm_compute; reflexivity|].
  exists tr. exact (proj2 (ct_library_refines_contract sim0 tr _ Hr)).
Defined.

(** A call is undefined exactly when it is not the creation of a table and
    there is no table: then it reads the version of the device through the
    null descriptor.  Every other call with arguments of their C types is
    defined and keeps the invariant. *)
Theorem ct_calls_need_table {K} {E : IpaEnv K} {E6 : Ipv6Env K} {laws : IpaEnvLaws K}
    {mlaws : IpaMemLaws K} (s : ct_state K) call :
  ct_inv s -> ct_call_fits call = true ->
  (ct_exec s call = None <-> ct_abs_of s = ct_no_table /\ is_add_tbl call = false)
  /\ (forall ret out s', ct_exec s call = Some (ret, out, s') -> ct_inv s').
Proof.
  intros Hi Hf. destruct (ct_exec_spec s call Hi Hf)
    as [(H1 & H2 & H3)|(Hor & ret & out & s' & He & Hi' & _)].
  - split; [done|]. intros ret out s' He. congruence.
  - split; [|intros r o s2 He2; rewrite He in He2; by injection He2 as <- <- <-].
    split; [congruence|]. intros [H1 H2]. destruct Hor; congruence.
Qed.

Lemma ct_calls_need_table_witness :
  ct_exec (ct_state_init sim0) (ct_del_rule 1 2) = None.
Proof.
  apply (ct_calls_need_table (ct_state_init sim0) (ct_del_rule 1 2)); [apply ct_inv_init|reflexivity|].
  split; reflexivity.
Defined.

(** A rule that was added to a well-formed table is a record of its own
    that says what the client asked for, under the returned handle, and hangs
    in the chain of the bucket its addresses, ports and protocol hash to. *)
Theorem ct_added_rule_reachable {K} {E : IpaEnv K} {laws : IpaEnvLaws K} v d ct r hdl ct' (k k' : K) :
  ct_ipa_desc v = Some d -> wf_ct (ct_table ct) -> wf_ct_rule r ->
  cu_protocol r <> IPA_IPV6CT_INVALID_PROTO_FIELD_CMP ->
  add_ct_rule_locked v ct r k = Some (0, hdl, ct', k') ->
  exists b i e, ipa_ipv6ct_hash r (table_entries (ct_table ct) - 1) = Some b
    /\ hdl = MakeEntryHdl (ct_table ct) i /\ reach (ct_view (ct_table ct')) b i
    /\ ct_live (ct_table ct') i e /\ ct_decode e = ct_flow_of r
    /\ forall x, ~ ct_live (ct_table ct) i x.
Proof.
  intros Hd Hwf Hr Hp Ea.
  destruct (add_ct_rule_spec v d ct Hd Hwf r k Hr Hp) as (ret & h & ct1 & k1 & Ea' & _ & _ & Hc).
  rewrite Ea in Ea'. injection Ea' as <- <- <- <-. destruct Hc as [(_ & _ & i & e & -> & Hadd)|[? _]]; [|lia].
  destruct Hadd as (_ & _ & (Hl & Hno & _) & Hdec & b & Hb & Hreach). by exists b, i, e.
Qed.

Lemma demo_ct_inv : ct_inv (ct_state_after demo_ct_calls).
Proof.
  destruct (ct_state_after_run demo_ct_calls) as [tr Hr]; [vm_compute; reflexivity|].
  eapply ct_run_spec; [apply ct_inv_init|exact Hr].
Qed.

Lemma demo_ct_wf : wf_ct (ct_table demo_ct).
Proof. apply (ct_table_of_wf _ demo_ct_inv). vm_compute. reflexivity. Qed.

Lemma demo_ct_desc : ct_ipa_desc (ipv6ct (ct_state_after demo_ct_calls)) = Some (mk_ipa_descriptor 3 17).
Proof. vm_compute. reflexivity. Qed.

Lemma demo_ct_rule_wf : wf_ct_rule (demo_ct_rule 7 7).
Proof. by apply ct_rule_fits_wf. Qed.

Lemma demo_ct_added :
  exists hdl ct' k', add_ct_rule_locked (ipv6ct (ct_state_after demo_ct_calls)) demo_ct
    (demo_ct_rule 7 7) sim0 = Some (0, hdl, ct', k').
Proof.
  assert (H : match add_ct_rule_locked (ipv6ct (ct_state_after demo_ct_calls)) demo_ct
                      (demo_ct_rule 7 7) sim0 with
              | Some (ret, _, _, _) => ret =? 0 | None => false end = true)
    by (vm_compute; reflexivity).
  destruct (add_ct_rule_locked _ _ _ _) as [[[[ret hdl] ct'] k']|]; [|done].
  apply Z.eqb_eq in H. subst. eauto.
Qed.

Lemma ct_added_rule_reachable_witness :
  exists hdl i, hdl = MakeEntryHdl (ct_table demo_ct) i.
Proof.
  destruct demo_ct_added as (hdl & ct' & k' & Ea).
  destruct (ct_added_rule_reachable (ipv6ct (ct_state_after demo_ct_calls)) (mk_ipa_descriptor 3 17) demo_ct
    (demo_ct_rule 7 7) hdl ct' sim0 k' demo_ct_desc demo_ct_wf demo_ct_rule_wf (fun H => ltac:(discriminate H)) Ea)
    as (b & i & e & _ & H & _).
  exists hdl, i. exact H.
Defined.

(** The hash of a rule is defined (the loop over the segments of an
    address ends after at most four rounds and folds them by exclusive or) and
    selects a base record other than the reserved record 0; it depends on the
    addresses, ports and protocol only. *)
Theorem ct_hash_defined r size :
  wf_ct_rule r -> 0 < size ->
  exists b, ipa_ipv6ct_hash r size = Some b /\ 1 <= b <= size
    /\ (Z.land (ct_mix r) size <> 0 -> b = Z.land (ct_mix r) size).
Proof.
  intros Hr Hs. destruct (ct_hash_range r size Hr Hs) as (b & Hb & Hrange). exists b.
  split; [done|]. split; [done|]. intros Hne. rewrite ct_hash_spec in Hb by done.
  injection Hb as <-. by rewrite (proj2 (Z.eqb_neq _ 0)).
Qed.

Lemma ct_hash_defined_witness :
  exists b, ipa_ipv6ct_hash (demo_ct_rule 7 7) 3 = Some b /\ 1 <= b <= 3.
Proof.
  destruct (ct_hash_defined (demo_ct_rule 7 7) 3 demo_ct_rule_wf ltac:(lia)) as (b & H1 & H2 & _).
  exists b. exact (conj H1 H2).
Defined.

(** When the driver refuses to delete the table, the library never
    recovers: no later call creates, deletes or uses a table, all of them
    fail (the two calls for uC activation entries apart). *)
Theorem ct_refused_deletion_is_final {K} {E : IpaEnv K} {E6 : Ipv6Env K} {laws : IpaEnvLaws K}
    {mlaws : IpaMemLaws K} (s : ct_state K) tr s' :
  ct_inv s -> ct_abs_of s = ct_stuck -> ct_run s tr s' ->
  ct_abs_of s' = ct_stuck
  /\ Forall (fun '(call, ret, _) =>
       ret <> 0 \/ match call with ct_add_uc_act _ | ct_del_uc_act _ => True | _ => False end) tr.
Proof.
  intros Hi Ha Hr. induction Hr as [s|s call ret out s1 tr s2 Hf He Hr IH]; [by split|].
  destruct (ct_exec_spec s call Hi Hf) as [(H & _)|(_ & ret' & out' & s1' & He' & Hi' & Hs)]; [congruence|].
  rewrite He in He'. injection He' as <- <- <-. rewrite Ha in Hs.
  assert (Hst : ct_abs_of s1 = ct_stuck /\ (ret <> 0 \/
    match call with ct_add_uc_act _ | ct_del_uc_act _ => True | _ => False end))
    by (inversion Hs; subst; eauto).
  destruct Hst as [H1 H2]. destruct (IH Hi' H1) as [H3 H4]. split; [done|]. by constructor.
Qed.

(** The driver refuses to delete a table. *)
Definition stuck_calls : list ct_call := [ct_add_tbl 6 (Some 0); ct_del_tbl 1].

Lemma stuck_state :
  let s := ct_state_after (E := sim_env_with (-1)) stuck_calls in
  ct_inv s /\ ct_abs_of s = ct_stuck.
Proof.
  destruct (ct_state_after_run (E := sim_env_with (-1)) stuck_calls) as [tr Hr]; [vm_compute; reflexivity|].
  split; [|vm_compute; reflexivity].
  eapply (ct_run_spec (E := sim_env_with (-1)) (laws := sim_laws_with (-1))
    (mlaws := sim_mem_laws_with (-1))); [apply ct_inv_init|exact Hr].
Qed.

Lemma ct_refused_deletion_is_final_witness :
  exists s', ct_abs_of s' = ct_stuck
    /\ ct_exec (E := sim_env_with (-1)) (ct_state_after (E := sim_env_with (-1)) stuck_calls)
         (ct_add_tbl 6 (Some 0)) = Some (- EINVAL, Some 0, s').
Proof.
  pose (s := ct_state_after (E := sim_env_with (-1)) stuck_calls).
  assert (He : ct_exec (E := sim_env_with (-1)) s (ct_add_tbl 6 (Some 0)) = Some (- EINVAL, Some 0, s))
    by (vm_compute; reflexivity).
  exists s. split; [|exact He].
  refine (proj1 (ct_refused_deletion_is_final (E := sim_env_with (-1)) (laws := sim_laws_with (-1))
    (mlaws := sim_mem_laws_with (-1)) s [(ct_add_tbl 6 (Some 0), - EINVAL, Some 0)] s _ _ _)).
  - apply stuck_state.
  - apply stuck_state.
  - eapply ct_run_cons; [reflexivity|exact He|apply ct_run_nil].
Defined.
