(* ===== verification/MachTheorems.v ===== *)
(** * The state machine: theorems

    The machine ends, keeps what its client sees when it moves the rules
    between DDR and SRAM, and hides failures behind the status of a mutex. *)
From S2P Require Import Prelude Bitfield Chain Table TableFacts TableDma NatRule NatRuleFacts Env.
From S2P Require Import NatTable NatOps NatWalk NatWf NatSpec NatState NatMap Statemach.
From S2P Require Import NatDrv MachRun MachView MachCopy MachSwitch MachHybrid.
From S2P Require Import Demo.

(** ** The hybrid states *)

(** C16: Moving the rules from one memory type to the other ([src] says from
    which), in a hybrid state with both tables: the source table, its handle
    maps and the PDNs are untouched whatever happens; and when the copy
    reports success, each handle of the client names through the new maps the
    translation it named before, with the checksums of the present address of
    its PDN, every rule of the new table has a handle, and the rule counter is
    right. *)
Theorem switch_keeps_client_view {K} {E : IpaEnv K} {laws : IpaEnvLaws K} f src (m : nat_mgr K) trig :
  both_tables m -> hybrid m ->
  (forall Rs, rules_in m src = Some Rs -> handles_ok (o2n m src) (n2o m src) Rs) ->
  exists ret m', smSwitch src (statemach (S f)) m trig arb_null = Some (ret, arb_null, m')
    /\ (migrated src m ret m' \/ (ret <> 0 /\ refocused m m')).
Proof. apply switch_spec. Qed.

Lemma switch_keeps_client_view_witness :
  exists ret m', smSwitch SRAM_SUB (statemach 1) (hybrid_demo false) NATI_TRIG_TBL_SWITCH arb_null
    = Some (ret, arb_null, m')
    /\ (migrated SRAM_SUB (hybrid_demo false) ret m' \/ (ret <> 0 /\ refocused (hybrid_demo false) m')).
Proof.
  destruct (hybrid_demo_inv false) as [H1 H2 H3].
  apply (switch_keeps_client_view 0 SRAM_SUB (hybrid_demo false) NATI_TRIG_TBL_SWITCH H1 H2).
  intros Rs HR. change (active (hybrid_demo false)) with SRAM_SUB in H3. rewrite HR in H3. exact H3.
Defined.

(** C17: Adding a rule (whose numbers fit their C types and whose PDN index is below 16) in a hybrid
    state in which the machine may not switch either extends the client's view with exactly the
    rule asked for (its redirect flag and its time stamp cleared), under a fresh valid handle,
    or fails and leaves the view as it was; the invariant of the hybrid states is kept. *)
Theorem hybrid_add_extends_view {K} {E : IpaEnv K} {laws : IpaEnvLaws K} sm (m : nat_mgr K) trig r h0 :
  hybrid_inv m -> wf_user_rule r -> u_pdn_index r < IPA_MAX_PDN_NUM ->
  curr_state (nati_obj m) = NATI_STATE_HYBRID_DDR \/ hold_state (nati_obj m) = true ->
  exists ret h m',
    _smAddRuleHybrid sm m trig (arb_add_rule (table_hdl m SRAM_SUB) r h0)
      = Some (ret, arb_add_rule (table_hdl m SRAM_SUB) (strip_rule r) h, m')
    /\ hybrid_inv m'
    /\ (ret = 0 -> exists pdn, (pdns (mgr_nat m)).[u_pdn_index r] = Some pdn
          /\ VALID_RULE_HDL h = true /\ client_view m !! h = None
          /\ client_view m' = <[h := flow_of (public_ip pdn) (strip_rule r)]> (client_view m))
    /\ (ret <> 0 -> client_view m' = client_view m).
Proof. apply hybrid_add_spec. Qed.

Lemma hybrid_add_extends_view_witness :
  exists ret h m',
    _smAddRuleHybrid (statemach 2) (hybrid_demo true) NATI_TRIG_ADD_RULE
      (arb_add_rule 0x80000001 (demo_rule 5 9 9) 0)
      = Some (ret, arb_add_rule 0x80000001 (strip_rule (demo_rule 5 9 9)) h, m')
    /\ hybrid_inv m'.
Proof.
  assert (Hw : wf_user_rule (demo_rule 5 9 9)) by (by apply user_rule_fits_wf).
  destruct (hybrid_add_extends_view (statemach 2) (hybrid_demo true) NATI_TRIG_ADD_RULE
    (demo_rule 5 9 9) 0 (hybrid_demo_inv true) Hw eq_refl (or_intror eq_refl))
    as (ret & h & m' & H1 & H2 & _). exists ret, h, m'. exact (conj H1 H2).
Defined.

(** C18: Deleting a rule the client sees, in a hybrid state that is not left by
    it, removes exactly this handle from the client's view, unless the driver
    refuses the deletion. *)
Theorem hybrid_del_shrinks_view {K} {E : IpaEnv K} {laws : IpaEnvLaws K} sm (m : nat_mgr K) trig o :
  hybrid_inv m -> is_Some (client_view m !! o) -> switches_back m = false ->
  exists ret m',
    _smDelRuleHybrid sm m trig (arb_rule (table_hdl m SRAM_SUB) o)
      = Some (ret, arb_rule (table_hdl m SRAM_SUB) o, m')
    /\ (ret <> - EIO -> hybrid_inv m' /\ client_view m' = delete o (client_view m)).
Proof. apply hybrid_del_spec. Qed.

(** The handle of the first rule of the demonstration. *)
Lemma hybrid_demo_rule : is_Some (client_view (hybrid_demo false) !! 32772).
Proof.
  assert (Hv : client_view (hybrid_demo false) = rules_at hybrid_nat 1)
    by (apply (machine_over_inv hybrid_nat NATI_STATE_HYBRID false hybrid_nat_inv);
        [vm_compute; reflexivity|by left]).
  rewrite Hv. assert (H : bool_decide (is_Some (rules_at hybrid_nat 1 !! 32772)) = true)
    by (vm_compute; reflexivity).
  apply bool_decide_eq_true in H. exact H.
Qed.

Lemma hybrid_del_shrinks_view_witness :
  exists ret m',
    _smDelRuleHybrid (statemach 2) (hybrid_demo false) NATI_TRIG_DEL_RULE (arb_rule 0x80000001 32772)
      = Some (ret, arb_rule 0x80000001 32772, m')
    /\ (ret <> - EIO -> hybrid_inv m'
        /\ client_view m' = delete 32772 (client_view (hybrid_demo false))).
Proof.
  apply (hybrid_del_shrinks_view (statemach 2) (hybrid_demo false) NATI_TRIG_DEL_RULE 32772
    (hybrid_demo_inv false) hybrid_demo_rule). vm_compute. reflexivity.
Defined.

(** ** Running a trigger *)

(** C26: A trigger runs other triggers at most three deep: whatever the state
    and the arguments are, more depth than the model's changes nothing. *)
Theorem three_levels_are_enough {K} {E : IpaEnv K} n (m : nat_mgr K) trig args :
  statemach (3 + n) m trig args = ipa_nati_statemach m trig args.
Proof. apply statemach_enough. Qed.

(** The status of a trigger is the status of taking the mutex when that
    fails, and the status of releasing it otherwise; the status of the
    trigger's callback never reaches the caller. *)
Theorem status_is_of_the_mutex {K} {E : IpaEnv K} (m : nat_mgr K) trig args ret args' m' :
  ipa_nati_statemach m trig args = Some (ret, args', m') ->
  ((take_mutex m).1 <> 0 /\ ret = (take_mutex m).1 /\ args' = args)
  \/ ((take_mutex m).1 = 0 /\ exists m1, (ret, m') = give_mutex m1).
Proof. apply statemach_status. Qed.

(** A trigger that is undefined in every state. *)
Lemma status_is_of_the_mutex_witness :
  (take_mutex (hybrid_demo false)).1 = 0
  /\ exists m' m1, (0, m') = give_mutex m1
     /\ ipa_nati_statemach (hybrid_demo false) NATI_TRIG_NULL arb_null = Some (0, arb_null, m').
Proof.
  split; [reflexivity|].
  assert (H : match ipa_nati_statemach (hybrid_demo false) NATI_TRIG_NULL arb_null with
              | Some (ret, arb_null, _) => ret =? 0 | _ => false end = true) by (vm_compute; reflexivity).
  destruct (ipa_nati_statemach (hybrid_demo false) NATI_TRIG_NULL arb_null)
    as [[[ret args'] m']|] eqn:Es; [|discriminate H].
  destruct args'; try discriminate H. apply Z.eqb_eq in H. subst ret. exists m'.
  destruct (status_is_of_the_mutex (hybrid_demo false) NATI_TRIG_NULL arb_null 0 arb_null m' Es)
    as [[Hne _]|[_ [m1 Hg]]]; [exfalso; apply Hne; reflexivity|].
  exists m1. exact (conj Hg eq_refl).
Defined.

(** ** The public API *)

(** The outcomes of an addition to the table of memory type [mem]: the rule is
    in under the handle, or it is not and the handle is 0.  A mutex that could
    not be released hides an inserted rule. *)
Definition added_or_not {K} (s s' : nat_state K) mem R r h : Prop :=
  (VALID_RULE_HDL h = true /\ exists pdn, (pdns s).[u_pdn_index r] = Some pdn /\ R !! h = None
     /\ state_rules s' = (state_rules s).[mem <- Some (<[h := flow_of (public_ip pdn) (strip_rule r)]> R)])
  \/ (h = 0 /\ (state_rules s' = state_rules s
                \/ exists h' v, R !! h' = None
                     /\ state_rules s' = (state_rules s).[mem <- Some (<[h' := v]> R)])).

Section Api.
Context {K : Type} {E : IpaEnv K} {laws : IpaEnvLaws K}.
Implicit Types (m : nat_mgr K).

Lemma add_rule_to_tbl m trig tbl_hdl mem R r :
  nat_inv (mgr_nat m) -> VALID_TBL_HDL tbl_hdl = true -> (BREAK_TBL_HDL tbl_hdl).1 = mem ->
  (state_rules (mgr_nat m)).[mem] = Some (Some R) -> wf_user_rule r -> u_pdn_index r < IPA_MAX_PDN_NUM ->
  exists ret h m', _smAddRuleToTbl m trig (arb_add_rule tbl_hdl r 0)
      = Some (ret, arb_add_rule tbl_hdl (strip_rule r) h, m')
    /\ nat_inv (mgr_nat m') /\ added_or_not (mgr_nat m) (mgr_nat m') mem R r h.
Proof.
  intros Hi Hh Hm HR Hw Hp.
  destruct (NATI_add_rule_spec (mgr_nat m) tbl_hdl (strip_rule r) 0 mem R Hi Hh Hm HR (strip_rule_wf _ Hw) Hp)
    as (ret & h & s & Ea & Hs & A0 & A1).
  unfold _smAddRuleToTbl. rewrite Ea. cbn [mbind option_bind].
  eexists _, _, _. split; [reflexivity|].
  assert (Es : mgr_nat (if ret =? 0 then count_rules (with_mgr_nat m s)
      (CHOOSE_MEM_SUB (nati_obj (with_mgr_nat m s))) (fun n => n + 1) else with_mgr_nat m s) = s)
    by (by destruct (ret =? 0)).
  rewrite Es. split; [done|]. destruct (decide (ret = 0)) as [->|Hne].
  - destruct (A0 eq_refl) as (pdn & P1 & P2 & P3 & P4). left. split; [done|]. by exists pdn.
  - destruct (A1 Hne) as [-> [Hs'|(_ & h' & v & _ & H1 & H2)]]; right; (split; [done|]); [by left|].
    right. by exists h', v.
Qed.

Lemma single_table_callback m trig :
  curr_state (nati_obj m) = NATI_STATE_DDR_ONLY \/ curr_state (nati_obj m) = NATI_STATE_SRAM_ONLY ->
  trig = NATI_TRIG_ADD_RULE ->
  forall f args, _state_mach_tbl (statemach f) (curr_state (nati_obj m)) trig m trig args
                 = _smAddRuleToTbl m trig args.
Proof. by intros [->| ->] ->. Qed.

Lemma added_or_not_quiet s s1 s2 s3 mem R r h :
  same_tables (K := K) s s1 -> same_tables s2 s3 -> added_or_not s1 s2 mem R r h ->
  added_or_not s s3 mem R r h.
Proof.
  intros (P1 & Q1 & _) (_ & Q2 & _). unfold added_or_not. by rewrite P1, Q1, Q2.
Qed.

Lemma api_add_spec m tbl_hdl mem R r :
  nat_inv (mgr_nat m) ->
  curr_state (nati_obj m) = NATI_STATE_DDR_ONLY \/ curr_state (nati_obj m) = NATI_STATE_SRAM_ONLY ->
  VALID_TBL_HDL tbl_hdl = true -> (BREAK_TBL_HDL tbl_hdl).1 = mem ->
  (state_rules (mgr_nat m)).[mem] = Some (Some R) -> wf_user_rule r -> u_pdn_index r < IPA_MAX_PDN_NUM ->
  exists ret r' h m', ipa_nat_add_ipv4_rule m tbl_hdl (Some r) (Some 0) = Some (ret, Some r', Some h, m')
    /\ nat_inv (mgr_nat m') /\ added_or_not (mgr_nat m) (mgr_nat m') mem R r h.
Proof.
  intros Hi Hst Hh Hm HR Hw Hp. unfold ipa_nat_add_ipv4_rule. rewrite Hh. cbn [negb].
  assert (Hcb : forall m1, quiet m m1 -> exists ret h m2,
    _state_mach_tbl (statemach 2) (curr_state (nati_obj m1)) NATI_TRIG_ADD_RULE m1 NATI_TRIG_ADD_RULE
      (arb_add_rule tbl_hdl r 0) = Some (ret, arb_add_rule tbl_hdl (strip_rule r) h, m2)
    /\ nat_inv (mgr_nat m2) /\ added_or_not (mgr_nat m1) (mgr_nat m2) mem R r h).
  { intros m1 ((E1 & _) & (_ & Q & _) & Hq). rewrite single_table_callback by (by rewrite ?E1).
    apply add_rule_to_tbl; try done; [by apply Hq|by rewrite Q]. }
  destruct (statemach_runs 2 m NATI_TRIG_ADD_RULE (arb_add_rule tbl_hdl r 0) Hi)
    as (ret & args' & m' & Es & Hc).
  { intros m1 Q. destruct (Hcb m1 Q) as (r1 & h & m2 & -> & H2 & _). by eexists _, _, _. }
  unfold ipa_nati_add_ipv4_rule, ipa_nati_statemach. rewrite Es. cbn [mbind option_bind].
  destruct Hc as [[Q ->]|(m1 & r1 & m2 & Q1 & Ec & Q2)].
  - eexists _, _, _, _. split; [reflexivity|]. split; [by apply Q|]. right. split; [done|]. left.
    apply Q.
  - destruct (Hcb m1 Q1) as (r1' & h & m2' & Ec' & Hi2 & Ha). rewrite Ec in Ec'.
    injection Ec' as -> -> ->. eexists _, _, _, _. split; [reflexivity|]. split; [by apply Q2|].
    eapply added_or_not_quiet; [apply Q1|apply Q2|done].
Qed.
End Api.

(** A client of a machine with a single table, in DDR or in SRAM, that
    sets its handle to 0 before it calls [ipa_nat_add_ipv4_rule] can tell from
    the handle what happened: a valid handle is fresh and names the rule that
    was asked for (without redirection and with a zero time stamp); 0 means
    that the map did not change, or the mutex failed. *)
Theorem handle_tells_the_outcome {K} {E : IpaEnv K} {laws : IpaEnvLaws K} (m : nat_mgr K) tbl_hdl mem R r :
  nat_inv (mgr_nat m) ->
  curr_state (nati_obj m) = NATI_STATE_DDR_ONLY \/ curr_state (nati_obj m) = NATI_STATE_SRAM_ONLY ->
  VALID_TBL_HDL tbl_hdl = true -> (BREAK_TBL_HDL tbl_hdl).1 = mem ->
  (state_rules (mgr_nat m)).[mem] = Some (Some R) -> wf_user_rule r -> u_pdn_index r < IPA_MAX_PDN_NUM ->
  exists ret r' h m', ipa_nat_add_ipv4_rule m tbl_hdl (Some r) (Some 0) = Some (ret, Some r', Some h, m')
    /\ nat_inv (mgr_nat m') /\ added_or_not (mgr_nat m) (mgr_nat m') mem R r h.
Proof. apply api_add_spec. Qed.

(** A machine in the DDR-only state over the demonstration table. *)
Definition ddr_demo : nat_mgr sim :=
  mk_nat_mgr (demo_state sim0)
    (mk_nati_obj NATI_STATE_NULL NATI_STATE_DDR_ONLY false NATI_STATE_NULL 1 0 0 0
       (mk_per_mem 4 0) (map_pairs nati_obj_init) (sw_stats nati_obj_init)) map_array_init true.

Lemma handle_tells_the_outcome_witness :
  exists ret r' h m', ipa_nat_add_ipv4_rule ddr_demo 1 (Some (demo_rule 5 9 9)) (Some 0)
      = Some (ret, Some r', Some h, m') /\ nat_inv (mgr_nat m').
Proof.
  assert (HR : match (state_rules (demo_state sim0)).[0] with Some (Some _) => true | _ => false end = true)
    by (vm_compute; reflexivity).
  destruct ((state_rules (demo_state sim0)).[0]) as [[R|]|] eqn:E0; [|discriminate HR|discriminate HR].
  assert (Hw : wf_user_rule (demo_rule 5 9 9)) by (by apply user_rule_fits_wf).
  destruct (handle_tells_the_outcome ddr_demo 1 0 R (demo_rule 5 9 9) demo_inv (or_introl eq_refl)
    eq_refl eq_refl E0 Hw eq_refl) as (ret & r' & h & m' & H1 & H2 & _).
  exists ret, r', h, m'. exact (conj H1 H2).
Defined.

(** ** Failures the API hides *)

(** Five rules fill the demonstration table in DDR. *)
Definition full_steps : list api_step :=
  map (fun p => api_add (demo_rule 5 p p)) [1; 2; 3; 4; 5].

(** What a step after others returned, with the machines before and after. *)
Definition last_step (kind : string) (n sram : Z) (steps : list api_step) (st : api_step)
    : option (Z * Z * nat_mgr sim * nat_mgr sim) :=
  '(m, h) ← api_open kind n sram;
  '(_, m1) ← api_run m h steps;
  '(ret, rh, m2) ← api_exec m1 h st;
  Some (ret, rh, m1, m2).

(** When the table is full, [ipa_nat_add_ipv4_rule] reports success and
    the handle 0, and the rule is not in the table. *)
Theorem full_table_reports_success :
  exists m1 m2, last_step "DDR" 6 4096 full_steps (api_add (demo_rule 5 6 6)) = Some (0, 0, m1, m2)
    /\ state_rules (mgr_nat m2) = state_rules (mgr_nat m1).
Proof.
  assert (H : match last_step "DDR" 6 4096 full_steps (api_add (demo_rule 5 6 6)) with
              | Some (ret, rh, m1, m2) => (ret =? 0) && (rh =? 0)
                  && bool_decide (state_rules (mgr_nat m2) = state_rules (mgr_nat m1))
              | None => false end = true) by (vm_compute; reflexivity).
  destruct (last_step _ _ _ _ _) as [[[[ret rh] m1] m2]|]; [|discriminate H].
  rewrite !andb_true_iff, bool_decide_eq_true, !Z.eqb_eq in H. destruct H as [[-> ->] Hs].
  exists m1, m2. exact (conj eq_refl Hs).
Qed.

(** A hybrid client whose rules filled the SRAM, moved to DDR, and came back
    when all but one (whose handle is 32769) were deleted. *)
Definition there_and_back : list api_step :=
  map (fun p => api_add (demo_rule 5 p p)) [1; 2; 3; 4; 5; 6]
  ++ map api_del [32774; 32772; 32770; 32771; 6].

(** After such a round trip the machine gives a handle the client still
    holds to a new rule: the addition reports success, and the client sees
    what it saw before, so that the new rule can never be deleted. *)
Theorem one_handle_for_two_rules :
  exists m1 m2 h, last_step "HYBRID" 20 300 there_and_back (api_add (demo_rule 5 1 1)) = Some (0, h, m1, m2)
    /\ is_Some (client_view m1 !! h) /\ client_view m2 = client_view m1
    /\ rules_in m2 (active m2) <> rules_in m1 (active m1).
Proof.
  assert (H : match last_step "HYBRID" 20 300 there_and_back (api_add (demo_rule 5 1 1)) with
              | Some (ret, rh, m1, m2) => (ret =? 0) && bool_decide (is_Some (client_view m1 !! rh))
                  && bool_decide (client_view m2 = client_view m1)
                  && bool_decide (rules_in m2 (active m2) <> rules_in m1 (active m1))
              | None => false end = true) by (vm_compute; reflexivity).
  destruct (last_step _ _ _ _ _) as [[[[ret rh] m1] m2]|]; [|discriminate H].
  rewrite !andb_true_iff, !bool_decide_eq_true, Z.eqb_eq in H. destruct H as [[[-> H1] H2] H3].
  exists m1, m2, rh. exact (conj eq_refl (conj H1 (conj H2 H3))).
Qed.

(** When the machine later moves to DDR again, the copy stops at the rule
    without a handle; a rule whose handle the client holds is lost, although
    every call reported success. *)
Theorem switch_loses_rules :
  exists m1 m2 rh, last_step "HYBRID" 20 300
      (there_and_back ++ map (fun p => api_add (demo_rule 5 p p)) [1; 3; 4; 5]) (api_add (demo_rule 5 7 7))
      = Some (0, rh, m1, m2)
    /\ is_Some (client_view m1 !! 32771) /\ client_view m2 !! 32771 = None.
Proof.
  assert (H : match last_step "HYBRID" 20 300
      (there_and_back ++ map (fun p => api_add (demo_rule 5 p p)) [1; 3; 4; 5]) (api_add (demo_rule 5 7 7)) with
              | Some (ret, rh, m1, m2) => (ret =? 0) && bool_decide (is_Some (client_view m1 !! 32771))
                  && bool_decide (client_view m2 !! 32771 = None)
              | None => false end = true) by (vm_compute; reflexivity).
  destruct (last_step _ _ _ _ _) as [[[[ret rh] m1] m2]|]; [|discriminate H].
  rewrite !andb_true_iff, !bool_decide_eq_true, Z.eqb_eq in H. destruct H as [[-> H1] H2].
  exists m1, m2, rh. exact (conj eq_refl (conj H1 H2)).
Qed.

(** The bound check of the public API lets the PDN index 16 through; when
    the driver accepts it, the library writes past the end of its sixteen
    PDNs. *)
Theorem pdn_sixteen_written {K} {E : IpaEnv K} (m : nat_mgr K) tbl_hdl p R :
  nat_inv (mgr_nat m) -> VALID_TBL_HDL tbl_hdl = true -> (state_rules (mgr_nat m)).[0] = Some (Some R) ->
  (forall fd entry k, (env_modify_pdn fd entry k).1 = 0) ->
  ipa_nat_modify_pdn m tbl_hdl 16 (Some p) = None.
Proof.
  intros Hi Hh HR Hok. unfold ipa_nat_modify_pdn. rewrite Hh. cbn [negb].
  change (IPA_MAX_PDN_NUM <? 16) with false. cbn [lift_nat].
  destruct (table_of_rules _ _ _ Hi HR) as (c & nt & Hc & _ & _ & _ & _ & _ & [d Hd] & _).
  destruct (nat_inv_cache _ 1 Hi) as (c1 & Hc1 & _); [by right|].
  unfold lift_nat, ipa_nati_modify_pdn. change IPA_NAT_MEM_IN_DDR with 0. change IPA_NAT_MEM_IN_SRAM with 1.
  rewrite Hc, Hc1. cbn [mbind option_bind]. rewrite Hd.
  pose proof (Hok (fd d) (mk_ioc_pdn 16 (public_ip p) (src_metadata p) (dst_metadata p)) (env (mgr_nat m))) as Hr.
  destruct (env_modify_pdn _ _ _) as [ret k]. cbn in Hr. subst ret. cbn [Z.eqb negb].
  unfold set_pdn, storeZ. cbn [ioc_pdn_index pdns with_env].
  assert (Hno : (pdns (mgr_nat m)).[16] = None)
    by (apply lookupZ_None; rewrite (ni_pdns _ Hi); unfold IPA_MAX_PDN_NUM; lia).
  by rewrite Hno.
Qed.

Lemma pdn_sixteen_written_witness :
  ipa_nat_modify_pdn ddr_demo 1 16 (Some (mk_pdn 1 2 3)) = None.
Proof.
  assert (HR : match (state_rules (demo_state sim0)).[0] with Some (Some _) => true | _ => false end = true)
    by (vm_compute; reflexivity).
  destruct ((state_rules (demo_state sim0)).[0]) as [[R|]|] eqn:E0; [|discriminate HR|discriminate HR].
  exact (pdn_sixteen_written ddr_demo 1 (mk_pdn 1 2 3) R demo_inv eq_refl E0 (fun _ _ _ => eq_refl)).
Defined.
