(* ===== verification/KernelTheorems.v ===== *)
(** * The kernel's NAT driver: what holds and what does not *)
From S2P Require Import TableFacts Sizing NatRule NatTable NatOps NatWf NatDel Prelude Bitfield.
From S2P Require Import Table TableDma Env TableMem RecordUpdate KernelEnv Hal HalCmd KernelLaws.
From S2P Require Import KNat KNatOps KIoctl KSend KUser KInv KAlloc KInit KHandlers KRelease.
From S2P Require Import KReach KCreate KRace KCompose KDemo.

Section KernelTheorems.
Context {c : ipa3_config} {K : Type} {E : KernelEnv K} {G : KernelGhost K}.
Context {laws : KernelLaws K} {ok : ConfigOk}.
Implicit Types (s : kst K).

(** C9: In every state the driver reaches when requests are served one at a time and the temporary
    memory it was given lies below 4 GB - whatever ioctls and mappings user space asks for, in
    whatever order and with whatever numbers of their C types, and whichever allocations and
    commands fail - the NAT tables the hardware works on lie in the SRAM set aside for them or
    in one DMA buffer that is still allocated. (Above 4 GB the address of the temporary memory
    is truncated, and an initialisation that is interleaved with other requests breaks the
    property, C23.) *)
Theorem hardware_tables_in_live_memory s : reachable s -> nat_hw_safe (world s).
Proof. intros H. by apply driver_ok_safe, reachable_ok. Qed.

(** C10: A request whose numbers have their C types is answered in every state the driver reaches
    (requests served one at a time, temporary memory below 4 GB) - no null callback of the
    abstraction layer is called and no array (command descriptors, memory locations, PDN
    entries, DMA entries) is accessed out of bounds - and the next state is a state of the
    driver again, from which every mapping is answered too. *)
Theorem requests_are_answered s req : reachable s -> wf_request req ->
  exists r out s', ipa3_ioctl s req = Some (r, out, s') /\ reachable s'
    /\ user_status r
    /\ forall d vsize, exists r2 s2, ipa3_nat_ipv6ct_mmap s' d vsize = Some (r2, s2) /\ reachable s2.
Proof.
  intros Hs Hreq. destruct (ioctl_ok s req (reachable_ok s Hs) Hreq) as (r & out & s' & Hr & Hok').
  exists r, out, s'. split; [done|].
  assert (Hs' : reachable s') by (eapply reach_step; [exact Hs|by eapply step_ioctl]).
  split; [done|]. split; [by eapply ioctl_status|].
  intros d v. destruct (mmap_ok s' d v Hok') as (r2 & s2 & Hm & _). exists r2, s2.
  split; [done|]. eapply reach_step; [exact Hs'|by eapply step_mmap].
Qed.

(** C12: The library running on the driver keeps what its theorems assume of
    the system: a DMA ioctl that succeeds has the documented effect of its
    entries on the tables and one that fails has none; a table is mapped at its
    start; the SRAM the driver offers lies in the mapping the library asks for.
    All that is left to assume is that [mmap] itself never maps the null
    page. *)
Theorem driver_keeps_library_laws {U : IpaEnv K} {V : VfsEnv K}
    (mmap_not_null : forall size fd (k : K) a k', env_mmap size fd k = (a, k') -> a = -1 \/ 0 < a) :
  IpaEnvLaws (kst K) (E := kernel_env) /\ IpaMemLaws (kst K) (E := kernel_env).
Proof. split; [apply kernel_dma_laws|by apply kernel_mem_laws]. Qed.

(** C11: When nothing fails, a table the library creates in DDR and that is too large for the SRAM
    reaches the hardware: memory for both tables is allocated and mapped, the library's request
    passes the checks of the driver, and the hardware is told the addresses of the four tables
    in that memory, one after the other, the size of the base tables, and the size of the
    expansion tables modulo 1024. (No other DDR table is in use and there is room for buffers; a
    table that fits the SRAM can be refused, C37.) *)
Theorem table_reaches_hardware {coop : Cooperative K} {fits : ConfigFits} {U : IpaEnv K}
    {V : VfsEnv K} {user : CooperativeUser K} ca nt0 d ip n f s b e :
  driver_ok s -> nm_ddr_in_use (nm s) = false -> (size (k_dma (world s)) < 999)%nat ->
  ipa_desc ca = Some d -> nc_nmi ca = IPA_NAT_MEM_IN_DDR -> 0 <= n <= Table.IPA_TABLE_MAX_ENTRIES ->
  sizes IPA_NAT_MEM_IN_DDR n = Some (b, e) -> nat_tbl_size < 36 * (b + e) ->
  exists nt s1 s2 h hw,
    ipa_nati_create_table (E := kernel_env) ca nt0 ip n 0 s = Some (0, nt, s1) /\ wf_nat nt
    /\ ipa_nati_post_ipv4_init_cmd (E := kernel_env) ca nt 0 f s1 = Some (0, s2)
    /\ driver_ok s2 /\ k_dma (world s2) !! h = Some (36 * (b + e)) /\ k_nat_hw (world s2) = Some hw
    /\ nat_table_ranges hw = [(h, b * 32); (h + 32 * b, e mod 2 ^ 10 * 32);
         (h + 32 * (b + e), b * 4); (h + 32 * (b + e) + 4 * b, e mod 2 ^ 10 * 4)]
    /\ Forall (eq 0) (nat_table_types hw).
Proof.
  intros Hok Hu Hroom Hd Hn Hle Hs Hbig.
  assert (memlaws : IpaMemLaws (kst K) (E := kernel_env)).
  { apply kernel_mem_laws. intros size fd k a k' Ha. right.
    pose proof (proj1 (user_mmap size fd k)) as H. by rewrite Ha in H. }
  destruct (create_accepted ca nt0 d ip n s b e) as (Hb & He & _ & nt & s1 & Hc & Hwf & _ & Hok1
    & Hr1 & Hoff & Hip & Htb & Hte); try done.
  destruct (post_init_accepted ca nt d s1 b e f) as (s2 & Hp & Hok2 & Hdma & Hhw); try done.
  { by rewrite (ns_base _ (nw_shape _ Hwf)). }
  destruct (init_request_ranges b e (public_addr nt) f (ml_dma_handle (ddr s1)) Hb He)
    as [Hrg Hty]; [apply (rd_low _ _ Hr1)|apply (rd_low _ _ Hr1)|].
  eexists nt, s1, s2, (ml_dma_handle (ddr s1)), _. split; [exact Hc|]. split; [done|].
  split; [exact Hp|]. split; [done|]. split; [|by rewrite Hhw].
  rewrite Hdma. by apply ready_ddr_live.
Qed.

(** C24: From version 4.0 of the hardware on, and with the temporary memory below 4 GB as in
    [driver_ok], a deletion that succeeds frees the memory of the tables and of the PDNs, and
    nothing leaks: when all DMA memory in use was the driver's, all that is left is its
    temporary memory and the buffer of the IPv6CT table; both locations can be allocated again,
    and the hardware works on the temporary memory or on SRAM. *)
Theorem nat_deletion_frees s del s' :
  driver_ok s -> no_leak s -> IPA_HW_v4_0 <= ipa_hw_type ->
  ipa3_del_nat_table s del = Some (0, s') ->
  no_leak s'
  /\ view_owned (view_of s') = (dv_tmp (view_of s), IPA_NAT_IPV6CT_TEMP_MEM_SIZE)
                               :: option_list (dv_ct (view_of s))
  /\ nm_ddr_in_use (nm s') = false /\ nm_sram_in_use (nm s') = false
  /\ hw_off_ddr (view_of s') (k_nat_hw (world s')).
Proof.
  intros Hok Hl H4 Hd. destruct (del_nat_run s del Hok) as (r & s2 & Hr & Hok' & Hf).
  rewrite Hr in Hd. injection Hd as -> ->. specialize (Hf eq_refl H4).
  split; [by apply (del_no_leak s)|]. destruct Hf as [Hv Hdma].
  split; [by rewrite Hv|]. pose proof (f_equal dv_ddr_in_use Hv) as H1.
  pose proof (f_equal dv_sram_in_use Hv) as H2. split; [exact H1|]. split; [exact H2|].
  eapply no_ddr_hw_off; [apply Hok'|]. by rewrite Hv.
Qed.

(** C25: After a second IPv6CT table could not be allocated, the driver accepts
    tables that do not lie in the memory of the first one: the allocation
    fails, yet the size that was asked for replaces the size of the buffer that
    is mapped, and an initialisation that fits the new size makes the hardware
    work beyond the end of the buffer. *)
Theorem failed_ct_reallocation_unsafe {coop : Cooperative K} {fits : ConfigFits} s n h n0 k init :
  driver_ok s -> IPA_HW_v4_0 <= ipa_hw_type -> view_ct (ct s) = Some (h, n0) ->
  cm_is_mapped (ct s) = true -> 0 < n <= MAX_ALLOC_NAT_SIZE 64 ->
  k_dma_alloc_coherent n (world s) = (None, k) -> 0 <= h -> h + n < 2 ^ 32 ->
  v6_tbl_index init = 0 -> wf_ct_init init -> ct_init_fits init n -> v6_table_entries init < 4096 ->
  n0 < v6_base_table_offset init + 64 * (v6_table_entries init + 1) ->
  exists s1 s2 d, ipa3_allocate_ipv6ct_table s n = Some (- ENOMEM, s1)
    /\ ipa3_ipv6ct_init_cmd s1 init = Some (0, s2) /\ k_ct_hw (world s2) = Some d
    /\ k_dma (world s2) !! h = Some n0 /\ h <= getf ci_table_addr d
    /\ h + n0 < getf ci_table_addr d + 64 * (getf ci_size_base_table d + 1).
Proof.
  intros Hok H4 Hct Hm Hn Ha Hh Hlow Hi Hwf Hfit H12 Hbeyond.
  destruct (ct_alloc_fails s n k Hok H4 Hn Ha) as (s1 & -> & Hs1 & Hw1).
  assert (Hhandle : cm_dma_handle (ct s) = h).
  { revert Hct. unfold view_ct, behind. destruct (_ =? NULL); [done|]. by intros [= <- _]. }
  pose proof (fl_ct _ (proj1 Hok)) as (_ & _ & Hd).
  rewrite (proj2 (Z.leb_le _ _) H4) in Hd.
  destruct (ct_init_accepted s1 init) as (s2 & Hinit & Hdma & Hhw);
    try rewrite Hs1; try done; try (cbn; rewrite ?Hhandle; done).
  exists s1, s2. eexists. split; [done|]. split; [exact Hinit|]. split; [exact Hhw|].
  rewrite Hdma, Hw1. apply dma_alloc_fails in Ha as (-> & _). split.
  - destruct Hok as [_ Hv]. eapply own_live; [apply (vo_own _ _ _ Hv)|].
    unfold view_owned. cbn [dv_ct view_of]. fold (ct s). rewrite Hct. set_solver.
  - rewrite Hs1. cbn [cm_dma_handle]. destruct Hwf as (W1 & W2 & W3 & W4), Hfit as [F1 F2].
    rewrite ci_addr_read, ci_size_read. cbn. rewrite Hhandle.
    rewrite u64_small, !Z.mod_small by lia. lia.
Qed.

(** C37: A small table the library creates in DDR cannot be used: although the
    library works in DDR, a table that fits the SRAM is placed there, and the
    request that initialises it as a DDR table is refused. *)
Theorem small_ddr_table_unusable {U : IpaEnv K} {V : VfsEnv K} ca nt0 ip n f s b e nt s1 d :
  driver_ok s -> ml_is_mapped (ddr s) = false -> ipa_desc ca = Some d ->
  nc_nmi ca = IPA_NAT_MEM_IN_DDR -> n <= Table.IPA_TABLE_MAX_ENTRIES ->
  sizes IPA_NAT_MEM_IN_DDR n = Some (b, e) -> 36 * (b + e) <= nat_tbl_size ->
  ipa_nati_create_table (E := kernel_env) ca nt0 ip n 0 s = Some (0, nt, s1) ->
  exists s2, ipa_nati_post_ipv4_init_cmd (E := kernel_env) ca nt 0 f s1 = Some (-1, s2).
Proof.
  intros Hok Hm Hd Hn Hle Hs Hsmall Hc.
  assert (H1 : in_sram s1) by (eapply create_small; try done; split; [apply Hok|done]).
  unfold ipa_nati_post_ipv4_init_cmd. rewrite Hd. cbn [mbind option_bind].
  match goal with |- context [env_v4_init ?x ?y s1] =>
    pose proof (init_small x y s1 H1 Hn) as H; destruct (env_v4_init x y s1) as [r s2] end.
  cbn in H. subst r. by exists s2.
Qed.

(** When the PDN table cannot be allocated, the memory of the NAT table is
    freed again but its location stays in use: every later request for a table
    in DDR is refused, mapping is refused, and only a deletion - which the
    library does not send, as it never had a table - makes the location
    available again. *)
Theorem failed_pdn_allocation_blocks_ddr s n v h k1 k2 :
  driver_ok s -> IPA_HW_v4_0 <= ipa_hw_type -> wants_ddr s n -> nm_ddr_in_use (nm s) = false ->
  mb_base (nm_pdn_mem (nm s)) = NULL -> cm_is_hw_init (nm_dev (nm s)) = false ->
  k_dma_alloc_coherent n (world s) = (Some (v, h), k1) ->
  k_dma_alloc_coherent (16 * (pdn_config_size / 16)) k1 = (None, k2) ->
  exists s1, ipa3_allocate_nat_table s n = Some (- ENOMEM, s1)
    /\ (forall m, wants_ddr s m -> ipa3_allocate_nat_table s1 m = Some (- EPERM, s1))
    /\ (forall vsize, ipa3_nat_ipv6ct_mmap s1 DEV_NAT vsize = Some (- EPERM, s1))
    /\ exists s2, ipa3_del_nat_table s1 (mk_table_del 0 IPA_NAT_MEM_IN_DDR) = Some (0, s2)
       /\ nm_ddr_in_use (nm s2) = false.
Proof.
  intros Hok H4 Hn Hu Hb Hi Ha1 Ha2.
  destruct (pdn_alloc_fails s n v h k1 k2 Hok H4 Hn Hu Hb Ha1 Ha2) as (s1 & Hr & Hst & Hc & Hi1).
  exists s1. split; [done|].
  assert (Hok1 : driver_ok s1).
  { destruct (allocate_nat_table_ok s n Hok) as (r & s' & Hr' & Hok'). congruence. }
  pose proof Hst as (Hu1 & Hva & Hlast). split; [|split].
  - intros m [Hm1 Hm2]. apply allocate_in_use; [done| |done]. split; [done|]. by rewrite Hc.
  - intros vsize. by apply mmap_stuck.
  - rewrite Hi in Hi1. by apply del_not_init.
Qed.

(** C39: After an initialisation the driver accepted, it accepts an entry of a DMA command for one
    of the initialised tables exactly when the entry names table 0 and its offset lies in the
    bytes the request gave that table - 32 or 4 bytes for each NAT or index record, 64 for each
    IPv6CT record, one record more in a base table than the request says -, and those bytes of a
    NAT table lie in the memory that was allocated. An offset in the last byte of a table is
    accepted, although two bytes are written. *)
Theorem dma_entry_accepted_iff s raw ty :
  driver_ok s -> raw_base_addr raw = tbl_number ty -> 0 <= raw_offset raw ->
  (forall init s1, wf_nat_init init -> ipa3_nat_init_cmd s init = Some (0, s1) -> ct_type ty = false ->
   let r := nat_init_request s init in
   (ipa3_table_validate_table_dma_one s1 (v4_mem_type r) raw = Some 0
    <-> raw_table_index raw < 1 /\ raw_offset raw < nat_table_bytes r ty)
   /\ nat_table_offset r ty + nat_table_bytes r ty <= ml_table_alloc_size (loc s (v4_mem_type r)))
  /\ (forall init s1 nmi, wf_ct_init init -> ipa3_ipv6ct_init_cmd s init = Some (0, s1) -> ct_type ty = true ->
   nmi = IPA_NAT_MEM_IN_DDR \/ nmi = IPA_NAT_MEM_IN_SRAM ->
   (ipa3_table_validate_table_dma_one s1 nmi raw = Some 0
    <-> raw_table_index raw < 1 /\ raw_offset raw < ct_table_bytes init ty)).
Proof.
  intros Hok Hb Ho. split.
  - intros init s1 Hwf Hrun Hty r.
    destruct (nat_init_sizes s init s1 Hok Hwf Hrun) as (Hn & Hf & Hs & Hi & Hfit).
    split; [|by apply nat_table_fits].
    apply (validate_one_iff s1 _ raw ty _ Hb Ho); rewrite ?Hty; [done|done|].
    apply calculate_nat_size; try done. by apply nat_init_wf.
  - intros init s1 nmi (_ & _ & He & Hx) Hrun Hty Hn. unfold U16_MAX in He.
    destruct (ct_init_sizes s init s1 Hok Hrun) as (Hf & H4 & Hi & S1 & S2).
    apply (validate_one_iff s1 _ raw ty _ Hb Ho); rewrite ?Hty; [done|done|].
    apply calculate_ct_size; try done. lia.
Qed.

(** C38: The hardware is told the size of every base table the library can ask
    for in DDR, but a table of 5115 or more entries loses its expansion table:
    its 1024 records do not fit the field of ten bits, and the hardware is told
    that there are none. *)
Theorem large_expansion_table_lost n b e ip f h :
  0 <= n <= Table.IPA_TABLE_MAX_ENTRIES -> sizes IPA_NAT_MEM_IN_DDR n = Some (b, e) ->
  let d := nat_init_payload (ipa3_nat_create_init_cmd (init_request b e ip f) false h) in
  getf ni_size_base_tables d + 1 = b
  /\ getf ni_size_expansion_tables d = (if n <? 5115 then e else 0).
Proof.
  intros Hn Hs d. unfold d. rewrite ni_size_read, ni_expn_size_read.
  change (size_base_table _) with (b - 1). change (size_expansion_table _) with e.
  pose proof (forall_below_spec _ _ _ ddr_fields_check n) as H.
  specialize (H ltac:(unfold Table.IPA_TABLE_MAX_ENTRIES in Hn; lia)). cbn beta in H.
  unfold ddr_fields in H. rewrite Hs in H. apply andb_true_iff in H as [H1 H2]. by apply Z.eqb_eq in H1, H2.
Qed.

(** C40: A PDN that was modified is read back: the entry at its index parses to
    the address and the metadata that were given (with the bit the driver adds
    on version 4.1), and no other entry changed. *)
Theorem modified_pdn_read_back s e s' :
  driver_ok s -> 0 <= ioc_pdn_index e -> ipa3_nat_mdfy_pdn s e = Some (0, s') ->
  let src := if ipa_hw_type =? IPA_HW_v4_1 then Z.lor (ioc_src_metadata e) IPA_QMAP_TETH_BIT
             else ioc_src_metadata e in
  let old := mb_entries (nm_pdn_mem (nm s)) in
  let new := mb_entries (nm_pdn_mem (nm s')) in
  (exists x, new.[ioc_pdn_index e] = Some x
   /\ ipahal_nat_parse_entry ipa_hw_type IPAHAL_NAT_IPV4_PDN x
      = Some (0, mk_pdn_fields (u32 (ioc_public_ip e)) (u32 src) (u32 (ioc_dst_metadata e))))
  /\ lengthZ new = lengthZ old
  /\ forall i, i <> ioc_pdn_index e -> new.[i] = old.[i].
Proof.
  intros Hok He Hr src old new.
  destruct (mdfy_pdn_stores s e s' Hr) as (H4 & Hi & Hnew). fold src in Hnew.
  assert (Hlen : 0 <= ioc_pdn_index e < lengthZ old) by done.
  unfold new. rewrite Hnew. split; [|split].
  - eexists. split; [by apply lookupZ_updateZ_eq|].
    by rewrite (parse_entry_v4 _ _ cfg_supported H4), pdn_construct_parse.
  - apply lengthZ_updateZ.
  - intros i Hne. by apply lookupZ_updateZ_ne.
Qed.
End KernelTheorems.

(** ** Witnesses *)

#[local] Instance wit_config : ipa3_config := sim_config 80.
#[local] Instance wit_env : KernelEnv ksim := ksim_env (2 ^ 18).
#[local] Instance wit_laws : KernelLaws ksim := ksim_laws (2 ^ 18).
#[local] Instance wit_ok : ConfigOk := sim_config_ok 80 ltac:(lia).
#[local] Instance wit_fits : ConfigFits := sim_config_fits.
#[local] Instance wit_coop : Cooperative ksim := ksim_cooperative.
#[local] Instance wit_user : CooperativeUser ksim := ksim_cooperative_user.

Definition wit_table : kst ksim := demo (2 ^ 18) demo_table.
Definition wit_ct : kst ksim := demo (2 ^ 18) demo_ct.
Definition wit_start : kst ksim := demo (2 ^ 18) [].

Lemma wf_demo_table : Forall wf_action demo_table.
Proof.
  unfold demo_table. rewrite !Forall_cons, Forall_nil. cbn. unfold wf_nat_init.
  rewrite !Forall_cons, Forall_nil. cbn. lia.
Qed.

Lemma wit_table_reachable : reachable wit_table.
Proof. apply demo_reachable; [vm_compute; reflexivity|apply wf_demo_table]. Qed.

Lemma wit_ct_reachable : reachable wit_ct.
Proof. apply demo_reachable; [vm_compute; reflexivity|]. repeat constructor. Qed.

Lemma wit_start_reachable : reachable wit_start.
Proof. apply demo_reachable; [vm_compute; reflexivity|]. constructor. Qed.

Lemma hardware_tables_in_live_memory_witness :
  is_Some (k_nat_hw (world wit_table)) /\ nat_hw_safe (world wit_table).
Proof.
  split; [vm_compute; by eexists|].
  apply hardware_tables_in_live_memory, wit_table_reachable.
Defined.

Lemma requests_are_answered_witness :
  exists r out s', ipa3_ioctl wit_table (IPA_IOC_V4_INIT_NAT (init_request 4096 1024 1 true))
    = Some (r, out, s') /\ reachable s' /\ user_status r
    /\ forall d vsize, exists r2 s2, ipa3_nat_ipv6ct_mmap s' d vsize = Some (r2, s2) /\ reachable s2.
Proof.
  apply requests_are_answered; [apply wit_table_reachable|].
  cbn. unfold wf_nat_init. rewrite !Forall_cons, Forall_nil. cbn. lia.
Defined.

Lemma driver_keeps_library_laws_witness :
  IpaEnvLaws (kst ksim) (E := kernel_env) /\ IpaMemLaws (kst ksim) (E := kernel_env).
Proof. apply driver_keeps_library_laws. intros size fd k a k' [= <- _]. right. lia. Defined.

Definition wit_cache : ipa_nat_cache :=
  with_desc nat_cache_zero (Some (mk_ipa_descriptor 3 17)).

Lemma table_reaches_hardware_witness :
  exists nt s1 s2 h hw,
    ipa_nati_create_table (E := kernel_env) wit_cache ip4_table_cache_zero 1 5120 0 wit_start
      = Some (0, nt, s1) /\ wf_nat nt
    /\ ipa_nati_post_ipv4_init_cmd (E := kernel_env) wit_cache nt 0 false s1 = Some (0, s2)
    /\ driver_ok s2 /\ k_dma (world s2) !! h = Some (36 * (4096 + 1024))
    /\ k_nat_hw (world s2) = Some hw
    /\ nat_table_ranges hw = [(h, 4096 * 32); (h + 32 * 4096, 1024 mod 2 ^ 10 * 32);
         (h + 32 * (4096 + 1024), 4096 * 4);
         (h + 32 * (4096 + 1024) + 4 * 4096, 1024 mod 2 ^ 10 * 4)]
    /\ Forall (eq 0) (nat_table_types hw).
Proof.
  apply (table_reaches_hardware wit_cache ip4_table_cache_zero (mk_ipa_descriptor 3 17)).
  - apply reachable_ok, wit_start_reachable.
  - vm_compute. reflexivity.
  - vm_compute. lia.
  - reflexivity.
  - reflexivity.
  - unfold Table.IPA_TABLE_MAX_ENTRIES. lia.
  - vm_compute. reflexivity.
  - vm_compute. reflexivity.
Defined.

Lemma nat_deletion_frees_witness : exists s',
  ipa3_del_nat_table wit_table (mk_table_del 0 0) = Some (0, s')
  /\ no_leak s'
  /\ view_owned (view_of s') = [(2097152, 128)]
  /\ nm_ddr_in_use (nm s') = false /\ nm_sram_in_use (nm s') = false
  /\ hw_off_ddr (view_of s') (k_nat_hw (world s')).
Proof.
  assert (H : fst <$> ipa3_del_nat_table wit_table (mk_table_del 0 0) = Some 0)
    by (vm_compute; reflexivity).
  destruct (ipa3_del_nat_table wit_table (mk_table_del 0 0)) as [[r s']|] eqn:Ed; [|discriminate].
  cbn in H. injection H as ->. exists s'. split; [reflexivity|].
  apply (nat_deletion_frees wit_table (mk_table_del 0 0) s').
  - apply reachable_ok, wit_table_reachable.
  - assert (Hl : map_Forall (fun h n => (h, n) ∈ view_owned (view_of wit_table))
      (k_dma (world wit_table))) by (apply (bool_decide_eq_true _); vm_compute; reflexivity).
    exact Hl.
  - done.
  - exact Ed.
Defined.

(** Tables of 1024 and 10 records, the second one 200000 bytes into the
    buffer. *)
Definition wit_ct_init : ipa_ioc_ipv6ct_init := mk_v6_init 200000 0 1023 10 0.

Lemma failed_ct_reallocation_unsafe_witness :
  exists s1 s2 d, ipa3_allocate_ipv6ct_table wit_ct 300000 = Some (- ENOMEM, s1)
    /\ ipa3_ipv6ct_init_cmd s1 wit_ct_init = Some (0, s2) /\ k_ct_hw (world s2) = Some d
    /\ k_dma (world s2) !! 4194304 = Some 6400 /\ 4194304 <= getf ci_table_addr d
    /\ 4194304 + 6400 < getf ci_table_addr d + 64 * (getf ci_size_base_table d + 1).
Proof.
  eapply (failed_ct_reallocation_unsafe wit_ct 300000 4194304 6400).
  - apply reachable_ok, wit_ct_reachable.
  - done.
  - vm_compute. reflexivity.
  - vm_compute. reflexivity.
  - unfold MAX_ALLOC_NAT_SIZE, KNat.IPA_TABLE_MAX_ENTRIES. lia.
  - vm_compute. reflexivity.
  - lia.
  - lia.
  - reflexivity.
  - unfold wf_ct_init, U16_MAX. cbn. lia.
  - unfold ct_init_fits. cbn. lia.
  - cbn. lia.
  - cbn. lia.
Defined.

Lemma small_ddr_table_unusable_witness : exists nt s1 s2,
  ipa_nati_create_table (E := kernel_env) wit_cache ip4_table_cache_zero 1 20 0 wit_start
    = Some (0, nt, s1)
  /\ ipa_nati_post_ipv4_init_cmd (E := kernel_env) wit_cache nt 0 false s1 = Some (-1, s2).
Proof.
  assert (H : fst <$> (fst <$> ipa_nati_create_table (E := kernel_env) wit_cache
    ip4_table_cache_zero 1 20 0 wit_start) = Some 0) by (vm_compute; reflexivity).
  destruct (ipa_nati_create_table (E := kernel_env) wit_cache ip4_table_cache_zero 1 20 0 wit_start)
    as [[[r nt] s1]|] eqn:Ec; [|discriminate]. cbn in H. injection H as ->.
  destruct (small_ddr_table_unusable wit_cache ip4_table_cache_zero 1 20 false wit_start 16 4 nt s1
    (mk_ipa_descriptor 3 17)) as [s2 Hp].
  - apply reachable_ok, wit_start_reachable.
  - vm_compute. reflexivity.
  - reflexivity.
  - reflexivity.
  - unfold Table.IPA_TABLE_MAX_ENTRIES. lia.
  - vm_compute. reflexivity.
  - vm_compute. discriminate.
  - exact Ec.
  - exists nt, s1, s2. split; [reflexivity|exact Hp].
Defined.

(** The kernel has no buffer of more than 200 bytes, and the PDN table needs
    320. *)
Lemma failed_pdn_allocation_blocks_ddr_witness :
  let c := sim_config 320 in let E := ksim_env 200 in let s := demo 200 [] in
  exists s1, ipa3_allocate_nat_table s 100 = Some (- ENOMEM, s1)
    /\ (forall m, wants_ddr s m -> ipa3_allocate_nat_table s1 m = Some (- EPERM, s1))
    /\ (forall vsize, ipa3_nat_ipv6ct_mmap s1 DEV_NAT vsize = Some (- EPERM, s1))
    /\ exists s2, ipa3_del_nat_table s1 (mk_table_del 0 IPA_NAT_MEM_IN_DDR) = Some (0, s2)
       /\ nm_ddr_in_use (nm s2) = false.
Proof.
  intros c E s. pose proof (ksim_laws 200 : KernelLaws ksim) as Hl.
  pose proof (sim_config_ok 320 ltac:(lia)) as Hc.
  destruct (k_dma_alloc_coherent 100 (world s)) as [[[v h]|] k1] eqn:Ea;
    [|vm_compute in Ea; discriminate].
  destruct (k_dma_alloc_coherent (16 * (pdn_config_size / 16)) k1) as [[vh|] k2] eqn:Ep;
    [vm_compute in Ea; injection Ea as <- <- <-; vm_compute in Ep; discriminate|].
  apply (failed_pdn_allocation_blocks_ddr s 100 v h k1 k2).
  - apply reachable_ok, demo_reachable; [vm_compute; reflexivity|constructor].
  - done.
  - split; [|left; vm_compute; reflexivity].
    unfold MAX_ALLOC_NAT_SIZE, KNat.IPA_TABLE_MAX_ENTRIES. lia.
  - vm_compute. reflexivity.
  - vm_compute. reflexivity.
  - vm_compute. reflexivity.
  - exact Ea.
  - exact Ep.
Defined.

(** A table that is mapped, and its initialisation. *)
Definition wit_mapped : kst ksim := demo (2 ^ 18) (take 2 demo_table).
Definition wit_init : ipa_ioc_v4_nat_init := init_request 64 12 0x0A000001 false.

(** The driver after the table of the demonstration was initialised: the last
    byte of its base table of 64 records, and the first byte behind it. *)
Lemma dma_entry_accepted_iff_witness : exists s1,
  ipa3_nat_init_cmd wit_mapped wit_init = Some (0, s1)
  /\ ipa3_table_validate_table_dma_one s1 0 (mk_dma_one_raw 0 0 (64 * 32 - 1) 1) = Some 0
  /\ ~ ipa3_table_validate_table_dma_one s1 0 (mk_dma_one_raw 0 0 (64 * 32) 1) = Some 0.
Proof.
  assert (H : fst <$> ipa3_nat_init_cmd wit_mapped wit_init = Some 0) by (vm_compute; reflexivity).
  destruct (ipa3_nat_init_cmd wit_mapped wit_init) as [[r s1]|] eqn:Ei; [|discriminate].
  cbn in H. injection H as ->. exists s1. split; [reflexivity|].
  assert (Hok : driver_ok wit_mapped).
  { apply reachable_ok, demo_reachable; [vm_compute; reflexivity|]. by repeat constructor. }
  assert (Hwf : wf_nat_init wit_init).
  { unfold wf_nat_init, wit_init. rewrite !Forall_cons, Forall_nil. cbn. lia. }
  pose proof (fun off Ho => proj1 (dma_entry_accepted_iff wit_mapped (mk_dma_one_raw 0 0 off 1)
    IPA_NAT_BASE_TBL Hok eq_refl Ho) wit_init s1 Hwf Ei eq_refl) as Hall.
  split.
  - apply (proj1 (Hall (64 * 32 - 1) ltac:(cbn; lia))). vm_compute. split; reflexivity.
  - intros Hv. apply (proj1 (Hall (64 * 32) ltac:(cbn; lia))) in Hv as [_ Hv]. revert Hv.
    vm_compute. discriminate.
Defined.

Lemma large_expansion_table_lost_witness :
  let d := nat_init_payload (ipa3_nat_create_init_cmd (init_request 4096 1024 1 false) false 4096) in
  getf ni_size_base_tables d + 1 = 4096
  /\ getf ni_size_expansion_tables d = (if 5120 <? 5115 then 1024 else 0).
Proof.
  apply (large_expansion_table_lost 5120 4096 1024 1 false 4096).
  - unfold Table.IPA_TABLE_MAX_ENTRIES. lia.
  - vm_compute. reflexivity.
Defined.

Lemma modified_pdn_read_back_witness : exists s' x,
  ipa3_nat_mdfy_pdn wit_table (mk_ioc_pdn 3 0x0A000001 7 9) = Some (0, s')
  /\ (mb_entries (nm_pdn_mem (nm s'))).[3] = Some x
  /\ ipahal_nat_parse_entry 17 IPAHAL_NAT_IPV4_PDN x = Some (0, mk_pdn_fields 0x0A000001 7 9).
Proof.
  assert (H : fst <$> ipa3_nat_mdfy_pdn wit_table (mk_ioc_pdn 3 0x0A000001 7 9) = Some 0)
    by (vm_compute; reflexivity).
  destruct (ipa3_nat_mdfy_pdn wit_table (mk_ioc_pdn 3 0x0A000001 7 9)) as [[r s']|] eqn:Em;
    [|discriminate]. cbn in H. injection H as ->.
  destruct (modified_pdn_read_back wit_table (mk_ioc_pdn 3 0x0A000001 7 9) s')
    as ((x & Hx & Hp) & _).
  - apply reachable_ok, wit_table_reachable.
  - cbn. lia.
  - exact Em.
  - exists s', x. split; [reflexivity|]. split; [exact Hx|exact Hp].
Defined.

(** Thread one checks an initialisation; thread two deletes the table and
    allocates a smaller one; thread one sends its command. *)
Definition wit_delete : list action :=
  [act_ioctl (IOC_DEL_NAT_TABLE (mk_table_del 0 0)); act_ioctl (IOC_ALLOC_NAT_TABLE 72 0)].
Definition wit_race : option (kst ksim) :=
  match nat_init_check wit_mapped wit_init with
  | Some (inr p) =>
      s1 ← do_actions wit_mapped wit_delete;
      '(_, s2) ← nat_init_commit s1 p;
      Some s2
  | _ => None
  end.

Lemma wit_race_isteps s : wit_race = Some s -> rtc istep (wit_mapped, []) (s, []).
Proof.
  unfold wit_race. destruct (nat_init_check wit_mapped wit_init) as [[?|p]|] eqn:Ec; [done| |done].
  destruct (do_actions wit_mapped wit_delete) as [s1|] eqn:Ed; [|done]. cbn [mbind option_bind].
  destruct (nat_init_commit s1 p) as [[r s2]|] eqn:Ei; [|done]. cbn [mbind option_bind].
  intros [= <-]. eapply rtc_l; [eapply istep_check; [|exact Ec]|].
  { unfold wf_nat_init, wit_init. rewrite !Forall_cons, Forall_nil. cbn. lia. }
  etrans; [apply (do_actions_isteps wit_mapped wit_delete s1 [p]); [by repeat constructor|exact Ed]|].
  eapply rtc_l; [exact (istep_commit s1 p [] [] r s2 Ei)|done].
Qed.

(** C23: As an initialisation does not take the device's lock, a deletion and an
    allocation by another thread between its checks and its command make the
    hardware work on memory that is not the driver's any more: from the driver
    with a mapped table there is an interleaving that ends in a state where the
    hardware's tables lie neither in SRAM nor in a buffer that is allocated. *)
Theorem concurrent_init_unsafe :
  reachable wit_mapped /\ nat_hw_safe (world wit_mapped)
  /\ exists s, rtc istep (wit_mapped, []) (s, []) /\ ~ nat_hw_safe (world s).
Proof.
  assert (Hr : reachable wit_mapped).
  { apply demo_reachable; [vm_compute; reflexivity|]. by repeat constructor. }
  split; [done|]. split; [by apply driver_ok_safe, reachable_ok|].
  assert (H : bool_decide (nat_hw_safe (world (default wit_mapped wit_race))) = false)
    by (vm_compute; reflexivity).
  assert (Hs : is_Some wit_race) by (vm_compute; by eexists).
  destruct wit_race as [s|] eqn:Ew; [|by destruct Hs].
  exists s. split; [by apply wit_race_isteps|]. by apply bool_decide_eq_false in H.
Qed.
