(* ===== verification/Interleave.v ===== *)
(** * Programs of atomic actions and their interleaving

    The power manager is called from many threads, timers and a work queue.  A
    function of it is a program [prog]: a tree of actions on the shared state,
    each of them atomic - one atomic operation, one critical section, one
    unlocked read.  An action may have to wait ([Blocked]) or may be a bug that
    stops the kernel ([Undef]).  [run] executes a program alone; in [PmMach]
    the actions of several programs are interleaved.  [keeps] is the proof rule
    for a program that runs among others: each action of it, whatever the
    others did before, re-establishes an invariant that relates the shared
    state to the program's own ghost state. *)
From S2P Require Import Prelude.

Inductive outcome (A : Type) : Type :=
  | Blocked
  | Undef
  | Next (a : A).
Arguments Blocked {A}.
Arguments Undef {A}.
Arguments Next {A} a.

Inductive prog (S : Type) (A : Type) : Type :=
  | Ret (a : A)
  | Act (B : Type) (f : S -> outcome (B * S)) (k : B -> prog S A).
Arguments Ret {S A} a.
Arguments Act {S A B} f k.

Section Programs.
Context {S : Type}.

Fixpoint prog_bind {A C : Type} (p : prog S A) (q : A -> prog S C) : prog S C :=
  match p with
  | Ret a => q a
  | Act f k => Act f (fun b => prog_bind (k b) q)
  end.

(** Reading without a lock, changing the state in one step, taking a step that
    may be undefined, waiting for a condition. *)
Definition reads {A : Type} (f : S -> A) : prog S A := Act (fun s => Next (f s, s)) Ret.
Definition modifies (f : S -> S) : prog S unit := Act (fun s => Next (tt, f s)) Ret.
Definition atomically {A : Type} (f : S -> option (A * S)) : prog S A :=
  Act (fun s => match f s with Some r => Next r | None => Undef end) Ret.
Definition await (c : S -> bool) : prog S unit :=
  Act (fun s => if c s then Next (tt, s) else Blocked) Ret.

(** Execution of one program alone. *)
Fixpoint run {A : Type} (p : prog S A) (s : S) : outcome (A * S) :=
  match p with
  | Ret a => Next (a, s)
  | Act f k =>
      match f s with
      | Next (b, s) => run (k b) s
      | Blocked => Blocked
      | Undef => Undef
      end
  end.
End Programs.

Declare Scope prog_scope.
Delimit Scope prog_scope with prog.
Notation "'let*' x := p 'in' q" := (prog_bind p (fun x => q))
  (at level 10, x pattern, p at level 100, q at level 200) : prog_scope.
Notation "p ;; q" := (prog_bind p (fun _ => q))
  (at level 100, q at level 200, right associativity) : prog_scope.
#[global] Open Scope prog_scope.

(** ** Sequential execution *)
Section Run.
Context {S : Type}.

Lemma run_bind {A C} (p : prog S A) (q : A -> prog S C) s :
  run (prog_bind p q) s
  = match run p s with
    | Next (a, s) => run (q a) s
    | Blocked => Blocked
    | Undef => Undef
    end.
Proof.
  revert s. induction p as [a|B f k IH]; intros s; cbn; [done|].
  destruct (f s) as [| |[b s']]; [done|done|]. apply IH.
Qed.

Lemma run_bind_next {A C} (p : prog S A) (q : A -> prog S C) s a s' :
  run p s = Next (a, s') -> run (prog_bind p q) s = run (q a) s'.
Proof. intros H. by rewrite run_bind, H. Qed.
End Run.

(** ** Programs among others *)
Section Keeps.
Context {S W G : Type}.
(** [I w s] is the invariant of the state [s] with the ghost state [w] of all
    that runs, [view w] the part of [w] that belongs to the program under
    consideration; [guar w w'] says that a step leaves the parts of the others
    alone.  [waits g s] is why the program may have to wait. *)
Variable I : W -> S -> Prop.
Variable view : W -> G.
Variable guar : W -> W -> Prop.
Variable waits : G -> S -> Prop.

Fixpoint keeps {A : Type} (g : G) (p : prog S A) (Q : A -> G -> Prop) : Prop :=
  match p with
  | Ret a => Q a g
  | Act f k =>
      forall w s, I w s -> view w = g ->
      match f s with
      | Blocked => waits g s
      | Undef => False
      | Next (b, s') => exists w', I w' s' /\ guar w w' /\ keeps (view w') (k b) Q
      end
  end.

Lemma keeps_bind {A C} g (p : prog S A) (q : A -> prog S C) Q R :
  keeps g p R -> (forall a g', R a g' -> keeps g' (q a) Q) -> keeps g (prog_bind p q) Q.
Proof.
  intros Hp Hq. revert g Hp. induction p as [a|B f k IH]; intros g Hp; cbn in *; [by apply Hq|].
  intros w s Hs Hv. specialize (Hp w s Hs Hv). destruct (f s) as [| |[b s']]; [done|done|].
  destruct Hp as (w'&Hw'&Hg&Hk). exists w'. split; [done|]. split; [done|]. by apply IH.
Qed.

Lemma keeps_mono {A} g (p : prog S A) (Q R : A -> G -> Prop) :
  keeps g p Q -> (forall a g', Q a g' -> R a g') -> keeps g p R.
Proof.
  intros Hp HQ. revert g Hp. induction p as [a|B f k IH]; intros g Hp; cbn in *; [by apply HQ|].
  intros w s Hs Hv. specialize (Hp w s Hs Hv). destruct (f s) as [| |[b s']]; [done|done|].
  destruct Hp as (w'&Hw'&Hg&Hk). exists w'. split; [done|]. split; [done|]. by apply IH.
Qed.

(** One action: it waits, or it leads to a world with the view [g' b] when it returns [b]. *)
Lemma keeps_act {A B} g (f : S -> outcome (B * S)) (k : B -> prog S A) Q (g' : B -> G) :
  (forall w s, I w s -> view w = g ->
     match f s with
     | Blocked => waits g s
     | Undef => False
     | Next (b, s') => exists w', I w' s' /\ guar w w' /\ view w' = g' b
     end) ->
  (forall b, keeps (g' b) (k b) Q) -> keeps g (Act f k) Q.
Proof.
  intros Hf Hk w s Hs Hv. specialize (Hf w s Hs Hv). destruct (f s) as [| |[b s']]; [done|done|].
  destruct Hf as (w'&Hw'&Hg&Hv'). exists w'. split; [done|]. split; [done|]. rewrite Hv'. apply Hk.
Qed.

End Keeps.
