(* ===== verification/PmData.v ===== *)
(** * The power manager: data ([ipa_pm.c], [ipa_pm.h], clock state of [ipa.c])

    The state of the power manager with its clients, of the clock votes of the
    driver, and of the parts of Linux the manager uses: objects are in a heap
    (a freed one is no longer there), delayed work is an armed timer, the
    single threaded work queue a list.  Then the functions that do not
    interleave with others: handles, the throughput algorithm, thresholds and
    exceptions. *)
From S2P Require Import Prelude RecordUpdate Interleave.

Definition EBUSY : Z := 16.
Definition EEXIST : Z := 17.
Definition EFAULT : Z := 14.
Definition ENOBUFS : Z := 105.
Definition EINPROGRESS : Z := 115.

(** ** The clocks *)

(** [enum ipa3_hw_mode]. *)
Definition IPA_HW_MODE_NORMAL : Z := 0.
Definition IPA_HW_MODE_VIRTUAL : Z := 1.
Definition IPA_HW_MODE_EMULATION : Z := 3.
Definition IPA_HW_MODE_TEST : Z := 4.
Definition IPA_IS_REGULAR_CLK_MODE (hw_mode : Z) : bool :=
  (hw_mode =? IPA_HW_MODE_NORMAL) || (hw_mode =? IPA_HW_MODE_TEST).

(** [enum ipa_icc_level]: bandwidth votes, of which these are used as numbers. *)
Definition IPA_ICC_NONE : Z := 0.

(** What does not change while the driver runs: the mode, the clock rates of
    [ipa3_ctx->ctrl], the pipes of the platform (the table [ipa3_ep_mapping]),
    and from the hardware, the kind of GSI interrupt that is found pending when
    the clocks are switched off (0 when none is, or it is not looked for). *)
Class pm_config := {
  ipa3_hw_mode : Z;
  ipa_clk_rate_svs2 : Z;
  ipa_clk_rate_svs : Z;
  ipa_clk_rate_nominal : Z;
  ipa_clk_rate_turbo : Z;
  enable_clock_scaling : bool;
  has_ipa3_clk : bool;
  gsi_pending_irq_type : Z;
  ipa3_get_max_num_pipes : Z;
  ipa_get_ep_mapping : Z -> Z;
  ipa3_get_client_by_pipe : Z -> Z;
}.

(** The members of [ipa3_ctx] for the clocks; [clk_on], [clk_rate] and
    [icc_level] are the clock and the bus as the hardware sees them,
    [apps_pipes_busy] is what [ipa3_suspend_apps_pipes] would find. *)
Record clk_state := {
  cnt : Z;
  clk_mutex : bool;
  ipa_clk_vote : Z;
  bus_vote_idx : Z;
  curr_ipa_clk_rate : Z;
  tag_process_before_gating : bool;
  tag_work : bool;
  dec_clients_work : bool;
  dec_suspend_work : bool;
  clk_on : bool;
  clk_rate : Z;
  icc_level : Z;
  apps_pipes_busy : bool;
}.
#[export] Instance eta_clk_state : EtaFields clk_state := fun s =>
  Build_clk_state (cnt s) (clk_mutex s) (ipa_clk_vote s) (bus_vote_idx s) (curr_ipa_clk_rate s)
    (tag_process_before_gating s) (tag_work s) (dec_clients_work s) (dec_suspend_work s)
    (clk_on s) (clk_rate s) (icc_level s) (apps_pipes_busy s).

(** [atomic_inc_not_zero], [atomic_add_unless (v, -1, 1)] on the counter. *)
Definition atomic_inc_not_zero (s : clk_state) : bool * clk_state :=
  if cnt s =? 0 then (false, s) else (true, s <| cnt := cnt s + 1 |>).
Definition atomic_dec_unless_one (s : clk_state) : bool * clk_state :=
  if cnt s =? 1 then (false, s) else (true, s <| cnt := cnt s - 1 |>).

Definition ipa3_get_bus_vote {C : pm_config} (s : clk_state) : Z :=
  if curr_ipa_clk_rate s =? ipa_clk_rate_svs2 then 1 else
  if curr_ipa_clk_rate s =? ipa_clk_rate_svs then 2 else
  if curr_ipa_clk_rate s =? ipa_clk_rate_nominal then 3 else
  if curr_ipa_clk_rate s =? ipa_clk_rate_turbo then 4 else 1.

Definition ipa3_enable_clks {C : pm_config} (s : clk_state) : clk_state :=
  if negb (IPA_IS_REGULAR_CLK_MODE ipa3_hw_mode) then s else
  let s := s <| icc_level := ipa3_get_bus_vote s |> <| clk_on := true |> in
  let s := if has_ipa3_clk then s <| clk_rate := curr_ipa_clk_rate s |> else s in
  s <| ipa_clk_vote := 1 |>.

(** The rate of a clock plan and the part of [ipa3_set_clock_plan_from_pm]
    that runs under the mutex of the clocks. *)
Definition plan_rate {C : pm_config} (idx : Z) : Z :=
  if idx =? 1 then ipa_clk_rate_svs2 else
  if idx =? 2 then ipa_clk_rate_svs else
  if idx =? 3 then ipa_clk_rate_nominal else ipa_clk_rate_turbo.

Definition set_clock_plan {C : pm_config} (idx : Z) (s : clk_state) : clk_state :=
  let s := s <| curr_ipa_clk_rate := plan_rate idx |> <| bus_vote_idx := idx |> in
  if 0 <? cnt s then
    let s := if has_ipa3_clk then s <| clk_rate := curr_ipa_clk_rate s |> else s in
    s <| icc_level := ipa3_get_bus_vote s |>
  else s.

(** ** Clients *)

Definition IPA_PM_MAX_CLIENTS : Z := 36.
Definition IPA5_PIPES_NUM : Z := 36.
Definition IPA5_PIPE_REG_NUM : Z := 2.
Definition IPA_EP_PER_REG : Z := 32.
Definition IPA_PM_MAX_EX_CL : Z := 64.
Definition IPA_PM_THRESHOLD_MAX : Z := 5.
Definition IPA_PM_EXCEPTION_MAX : Z := 5.
(** [ipa_client_type] values are below this number. *)
Definition IPA_CLIENT_MAX : Z := 142.

Inductive ipa_pm_state :=
  | IPA_PM_DEACTIVATED
  | IPA_PM_DEACTIVATE_IN_PROGRESS
  | IPA_PM_ACTIVATE_IN_PROGRESS
  | IPA_PM_ACTIVATED
  | IPA_PM_ACTIVATED_PENDING_DEACTIVATION
  | IPA_PM_ACTIVATED_TIMER_SET
  | IPA_PM_ACTIVATED_PENDING_RESCHEDULE.
#[export] Instance ipa_pm_state_eq_dec : EqDecision ipa_pm_state.
Proof. solve_decision. Defined.

Definition IPA_PM_STATE_ACTIVE (st : ipa_pm_state) : bool :=
  match st with
  | IPA_PM_ACTIVATED | IPA_PM_ACTIVATED_PENDING_DEACTIVATION
  | IPA_PM_ACTIVATED_TIMER_SET | IPA_PM_ACTIVATED_PENDING_RESCHEDULE => true
  | _ => false
  end.

Definition IPA_PM_STATE_IN_PROGRESS (st : ipa_pm_state) : bool :=
  match st with
  | IPA_PM_ACTIVATE_IN_PROGRESS | IPA_PM_DEACTIVATE_IN_PROGRESS => true
  | _ => false
  end.

Inductive ipa_pm_group := IPA_PM_GROUP_DEFAULT | IPA_PM_GROUP_APPS | IPA_PM_GROUP_MODEM.
#[export] Instance ipa_pm_group_eq_dec : EqDecision ipa_pm_group.
Proof. solve_decision. Defined.

Inductive ipa_pm_cb_event := IPA_PM_CLIENT_ACTIVATED | IPA_PM_REQUEST_WAKEUP.

(** [struct ipa_pm_client].  [callback] is the client's function and argument,
    a number for what is outside; [completion] is the completion's [done],
    [awake] whether the wake up source is active. *)
Record ipa_pm_client := {
  name : string;
  callback : option Z;
  state : ipa_pm_state;
  skip_clk_vote : bool;
  group : ipa_pm_group;
  hdl : Z;
  throughput : Z;
  completion : bool;
  awake : bool;
}.
#[export] Instance eta_ipa_pm_client : EtaFields ipa_pm_client := fun c =>
  Build_ipa_pm_client (name c) (callback c) (state c) (skip_clk_vote c) (group c) (hdl c)
    (throughput c) (completion c) (awake c).

(** [kzalloc (sizeof (struct ipa_pm_client))]. *)
Definition zero_client : ipa_pm_client :=
  Build_ipa_pm_client "" None IPA_PM_DEACTIVATED false IPA_PM_GROUP_DEFAULT 0 0 false false.

Record ipa_pm_register_params := {
  rp_name : string;
  rp_group : ipa_pm_group;
  rp_skip_clk_vote : bool;
  rp_callback : option Z;
}.

(** ** Clock scaling *)

Record ipa_pm_exception_list := {
  ex_clients : string;
  ex_pending : Z;
  ex_bitmask : list Z;
  ex_threshold : list Z;
}.
#[export] Instance eta_ipa_pm_exception_list : EtaFields ipa_pm_exception_list := fun e =>
  Build_ipa_pm_exception_list (ex_clients e) (ex_pending e) (ex_bitmask e) (ex_threshold e).

(** Where [current_threshold] points: nowhere, to [default_threshold], to the
    thresholds of an exception. *)
Inductive threshold_ptr := NullThreshold | DefaultThreshold | ExceptionThreshold (i : Z).

Record clk_scaling_db := {
  exception_list : list ipa_pm_exception_list;
  active_client_bitmask : list Z;
  threshold_size : Z;
  exception_size : Z;
  cur_vote : Z;
  default_threshold : list Z;
  current_threshold : threshold_ptr;
}.
#[export] Instance eta_clk_scaling_db : EtaFields clk_scaling_db := fun d =>
  Build_clk_scaling_db (exception_list d) (active_client_bitmask d) (threshold_size d)
    (exception_size d) (cur_vote d) (default_threshold d) (current_threshold d).

Record ipa_pm_exception := { usecase : string; threshold : list Z }.
Record ipa_pm_init_params := {
  ip_default_threshold : list Z;
  ip_threshold_size : Z;
  ip_exceptions : list ipa_pm_exception;
  ip_exception_size : Z;
}.

(** ** The whole state *)

(** Work of the queue "ipa_pm_activate": the activation and the deferred
    deactivation of the client at an address, and clock scaling. *)
Inductive work_item :=
  | ActivateWork (client : Z)
  | DeactivateWork (client : Z)
  | ScalingWork.
#[export] Instance work_item_eq_dec : EqDecision work_item.
Proof. solve_decision. Defined.

(** [ipa_pm_ctx], with the objects it points to, and the clocks.  Clients are
    addresses in [heap]; address 0 is [NULL].  [work_list], [running] and
    [timers] are the work queue: queued items, the item it executes, the
    clients whose delayed deactivation has been started and not queued yet.
    [events] are the callbacks made, latest first, [warned] whether a [WARN_ON]
    of the work functions was hit, the last four numbers before [clk] the static variables
    [dummy_hdl_1], [dummy_hdl_2], [tput_modem], [tput_apps]. *)
Record pm := {
  ctx_allocated : bool;
  clients : list Z;
  clients_by_pipe : list Z;
  aggregated_tput : Z;
  group_tput : list Z;
  clk_scaling : clk_scaling_db;
  heap : gmap Z ipa_pm_client;
  next_address : Z;
  work_list : list work_item;
  running : option work_item;
  timers : list Z;
  events : list (Z * ipa_pm_cb_event);
  warned : bool;
  dummy_hdls : Z * Z;
  dummy_tputs : Z * Z;
  clk : clk_state;
}.
#[export] Instance eta_pm : EtaFields pm := fun s =>
  Build_pm (ctx_allocated s) (clients s) (clients_by_pipe s) (aggregated_tput s) (group_tput s)
    (clk_scaling s) (heap s) (next_address s) (work_list s) (running s) (timers s) (events s)
    (warned s) (dummy_hdls s) (dummy_tputs s) (clk s).

Definition NULL_CLIENT : Z := 0.

(** [ipa_pm_ctx->clients[hdl]]; an index out of bounds is undefined. *)
Definition client_at (s : pm) (h : Z) : option Z := (clients s).[h].

(** A client object; accessing one that has been freed is undefined. *)
Definition get_client (s : pm) (p : Z) : option ipa_pm_client := heap s !! p.
Definition set_client (s : pm) (p : Z) (c : ipa_pm_client) : pm := s <| heap := <[p:=c]> (heap s) |>.

Definition group_index (g : ipa_pm_group) : Z :=
  match g with IPA_PM_GROUP_DEFAULT => 0 | IPA_PM_GROUP_APPS => 1 | IPA_PM_GROUP_MODEM => 2 end.

(** ** Names and handles *)

(** [strscpy]: at most [n - 1] characters are copied. *)
Definition strscpy (src : string) (n : Z) : string := String.substring 0 (Z.to_nat (n - 1)) src.
Definition strlen (x : string) : Z := Z.of_nat (String.length x).

(** [strnstr]: is [s2] found in [s1] within the first [len] characters? *)
Fixpoint strnstr_loop (s1 s2 : string) (steps : nat) : bool :=
  match steps with
  | O => false
  | S steps =>
      String.prefix s2 s1 ||
      match s1 with EmptyString => false | String _ s1 => strnstr_loop s1 s2 steps end
  end.
Definition strnstr (s1 s2 : string) (len : Z) : bool :=
  if strlen s2 =? 0 then true
  else strnstr_loop s1 s2 (Z.to_nat (len - strlen s2 + 1)).

(** The loop of [find_next_open_array_element], from index [i] down to 1. *)
Fixpoint find_open_loop (s : pm) (nm : string) (i : nat) (n : Z) : option Z :=
  match i with
  | O => Some n
  | S i' =>
      p ← client_at s (Z.of_nat i);
      if p =? NULL_CLIENT then find_open_loop s nm i' (Z.of_nat i) else
      c ← get_client s p;
      if (strlen nm =? strlen (name c)) && String.eqb nm (name c) then Some (- EEXIST)
      else find_open_loop s nm i' n
  end.
Definition find_next_open_array_element (s : pm) (nm : string) : option Z :=
  find_open_loop s nm (Z.to_nat (IPA_PM_MAX_CLIENTS - 1)) (- ENOBUFS).

(** ** Throughput *)

(** A signed [int]. *)
Definition s32 (x : Z) : Z := (x + 2 ^ 31) mod 2 ^ 32 - 2 ^ 31.

(** The search of [pop_max_from_array] among the first [k] elements, from index [i]. *)
Fixpoint max_loop (arr : list Z) (i : Z) (k : nat) (mx idx : Z) : option (Z * Z) :=
  match k with
  | O => Some (mx, idx)
  | S k =>
      x ← arr.[i];
      if mx <? x then max_loop arr (i + 1) k x i else max_loop arr (i + 1) k mx idx
  end.

(** The popped maximum, the array and its new size. *)
Definition pop_max_from_array (arr : list Z) (n : Z) : option (Z * list Z * Z) :=
  if n =? 0 then Some (0, arr, n) else
  '(mx, max_idx) ← max_loop arr 0 (Z.to_nat n) 0 (n - 1);
  let n := n - 1 in
  x ← arr.[n];
  arr ← storeZ arr max_idx x;
  Some (mx, arr, n).

(** The throughputs of the active clients: a client of the default group counts
    for itself, any other group once. *)
Fixpoint client_tputs (s : pm) (i : Z) (k : nat) (arr : list Z) (n : Z) (voted : list ipa_pm_group)
  : option (list Z * Z) :=
  match k with
  | O => Some (arr, n)
  | S k =>
      p ← client_at s i;
      if p =? NULL_CLIENT then client_tputs s (i + 1) k arr n voted else
      c ← get_client s p;
      if negb (IPA_PM_STATE_ACTIVE (state c)) then client_tputs s (i + 1) k arr n voted else
      if bool_decide (group c = IPA_PM_GROUP_DEFAULT) then
        arr ← storeZ arr n (throughput c);
        client_tputs s (i + 1) k arr (n + 1) voted
      else if bool_decide (group c ∈ voted) then client_tputs s (i + 1) k arr n voted
      else
        t ← (group_tput s).[group_index (group c)];
        arr ← storeZ arr n t;
        client_tputs s (i + 1) k arr (n + 1) (group c :: voted)
  end.

(** The rounds of the algorithm, while the array has more than one element. *)
Fixpoint tput_loop (arr : list Z) (n : Z) (k : nat) (agg : Z) : option Z :=
  match k with
  | O => None
  | S k =>
      if n <=? 1 then Some agg else
      '(mx, arr, n) ← pop_max_from_array arr n;
      '(second_max, arr, n) ← pop_max_from_array arr n;
      arr ← storeZ arr n (s32 (mx - second_max));
      tput_loop arr (n + 1) k (s32 (agg + second_max))
  end.

Definition calculate_throughput (s : pm) : option Z :=
  '(arr, n) ← client_tputs s 1 (Z.to_nat (IPA_PM_MAX_CLIENTS - 1))
                (replicate (Z.to_nat IPA_PM_MAX_CLIENTS) 0) 0 [];
  tput_loop arr n (Z.to_nat n + 1) 0.

(** ** Active clients, thresholds and exceptions *)

Definition ipahal_get_ep_reg_idx (ep_num : Z) : Z := Z.shiftr ep_num 5.
Definition ipahal_get_ep_bit (ep_num : Z) : Z :=
  u32 (Z.shiftl 1 (ep_num - Z.shiftl (ipahal_get_ep_reg_idx ep_num) 5)).

Definition with_bitmask (s : pm) (h : Z) (f : Z -> Z) : option pm :=
  let db := clk_scaling s in
  b ← (active_client_bitmask db).[ipahal_get_ep_reg_idx h];
  Some (s <| clk_scaling := db <| active_client_bitmask :=
          (active_client_bitmask db).[ipahal_get_ep_reg_idx h <- f b] |> |>).

Definition deactivate_client (s : pm) (h : Z) : option pm :=
  with_bitmask s h (fun b => Z.land b (u32 (Z.lnot (ipahal_get_ep_bit h)))).
Definition activate_client (s : pm) (h : Z) : option pm :=
  with_bitmask s h (fun b => Z.lor b (ipahal_get_ep_bit h)).

(** An exception applies when no client of it is missing and all are active. *)
Definition exception_applies (db : clk_scaling_db) (e : ipa_pm_exception_list) : option bool :=
  b0 ← (ex_bitmask e).[0]; b1 ← (ex_bitmask e).[1];
  a0 ← (active_client_bitmask db).[0]; a1 ← (active_client_bitmask db).[1];
  Some ((ex_pending e =? 0) && (Z.land b0 (u32 (Z.lnot a0)) =? 0)
        && (Z.land b1 (u32 (Z.lnot a1)) =? 0)).

Fixpoint find_exception (db : clk_scaling_db) (i : Z) (k : nat) : option threshold_ptr :=
  match k with
  | O => Some DefaultThreshold
  | S k =>
      e ← (exception_list db).[i];
      b ← exception_applies db e;
      if (b : bool) then Some (ExceptionThreshold i) else find_exception db (i + 1) k
  end.

Definition set_current_threshold (s : pm) : option pm :=
  let db := clk_scaling s in
  t ← find_exception db 0 (Z.to_nat (exception_size db));
  Some (s <| clk_scaling := db <| current_threshold := t |> |>).

(** [clk->current_threshold[i]]. *)
Definition threshold_at (db : clk_scaling_db) (i : Z) : option Z :=
  match current_threshold db with
  | NullThreshold => None
  | DefaultThreshold => (default_threshold db).[i]
  | ExceptionThreshold j => e ← (exception_list db).[j]; (ex_threshold e).[i]
  end.

(** [add_client_to_exception_list]: the status and the exceptions from [i] on. *)
Fixpoint add_exception_loop (l : list ipa_pm_exception_list) (nm : string) (h : Z) (k : nat)
  : option (Z * list ipa_pm_exception_list) :=
  match k with
  | O => Some (0, l)
  | S k =>
      match l with
      | [] => None
      | e :: l =>
          if strnstr (ex_clients e) nm (strlen nm) && (strlen (ex_clients e) =? strlen nm) then
            let e := e <| ex_pending := ex_pending e - 1 |> in
            if ex_pending e <? 0 then Some (- EPERM, e <| ex_pending := 0 |> :: l) else
            b ← (ex_bitmask e).[ipahal_get_ep_reg_idx h];
            let e := e <| ex_bitmask := (ex_bitmask e).[ipahal_get_ep_reg_idx h
                                          <- Z.lor b (ipahal_get_ep_bit h)] |> in
            '(ret, l) ← add_exception_loop l nm h k; Some (ret, e :: l)
          else '(ret, l) ← add_exception_loop l nm h k; Some (ret, e :: l)
      end
  end.

Definition with_exceptions (s : pm) (l : list ipa_pm_exception_list) : pm :=
  s <| clk_scaling := clk_scaling s <| exception_list := l |> |>.

Definition add_client_to_exception_list (s : pm) (h : Z) : option (Z * pm) :=
  p ← client_at s h;
  c ← get_client s p;
  '(ret, l) ← add_exception_loop (exception_list (clk_scaling s)) (name c) h
                (Z.to_nat (exception_size (clk_scaling s)));
  Some (ret, with_exceptions s l).

Fixpoint remove_exception_loop (l : list ipa_pm_exception_list) (h : Z) (k : nat)
  : option (list ipa_pm_exception_list) :=
  match k with
  | O => Some l
  | S k =>
      match l with
      | [] => None
      | e :: l =>
          b ← (ex_bitmask e).[ipahal_get_ep_reg_idx h];
          let e := if Z.land b (ipahal_get_ep_bit h) =? 0 then e else
            e <| ex_pending := ex_pending e + 1 |>
              <| ex_bitmask := (ex_bitmask e).[ipahal_get_ep_reg_idx h
                   <- Z.land b (u32 (Z.lnot (ipahal_get_ep_bit h)))] |> in
          l ← remove_exception_loop l h k; Some (e :: l)
      end
  end.

Definition remove_client_from_exception_list (s : pm) (h : Z) : option pm :=
  l ← remove_exception_loop (exception_list (clk_scaling s)) h
        (Z.to_nat (exception_size (clk_scaling s)));
  Some (with_exceptions s l).

(** ** Work queue and timers *)

(** [queue_work]: nothing happens when the item is pending already. *)
Definition queue_work (w : work_item) (s : pm) : pm :=
  if bool_decide (w ∈ work_list s) then s else s <| work_list := work_list s ++ [w] |>.

Definition delayed_work_pending (s : pm) (p : Z) : bool :=
  bool_decide (p ∈ timers s) || bool_decide (DeactivateWork p ∈ work_list s).

(** [queue_delayed_work (ipa_pm_ctx->wq, &client->deactivate_work, delay)]. *)
Definition queue_delayed_work (p : Z) (s : pm) : pm :=
  if delayed_work_pending s p then s else s <| timers := p :: timers s |>.

(** What [cancel_delayed_work_sync] removes. *)
Definition cancel_delayed_work (p : Z) (s : pm) : pm :=
  s <| timers := filter (fun q => q <> p) (timers s) |>
    <| work_list := filter (fun w => w <> DeactivateWork p) (work_list s) |>.

(** ** Initialisation *)

Definition comma : Ascii.ascii := Ascii.ascii_of_nat 44.

(** The number of clients of a usecase: its commas plus one. *)
Fixpoint count_commas (x : string) : Z :=
  match x with
  | EmptyString => 0
  | String a x => (if Ascii.eqb a comma then 1 else 0) + count_commas x
  end.

(** A copy of the first [n] elements of [src] over [dst]. *)
Definition copy_ints (dst src : list Z) (n : Z) : list Z :=
  take (Z.to_nat n) src ++ drop (Z.to_nat n) dst.

Definition zero_thresholds : list Z := replicate (Z.to_nat IPA_PM_THRESHOLD_MAX) 0.
Definition zero_exception : ipa_pm_exception_list :=
  Build_ipa_pm_exception_list "" 0 (replicate (Z.to_nat IPA5_PIPE_REG_NUM) 0) zero_thresholds.

Definition init_exception (ip : ipa_pm_init_params) (e : ipa_pm_exception) : ipa_pm_exception_list :=
  let cl := strscpy (usecase e) IPA_PM_MAX_EX_CL in
  Build_ipa_pm_exception_list cl (count_commas cl + 1)
    (replicate (Z.to_nat IPA5_PIPE_REG_NUM) 0)
    (copy_ints zero_thresholds (threshold e) (ip_threshold_size ip)).

(** [ipa_pm_init]; [params] is [None] for a null pointer, [memory] and
    [workqueue] say whether the two allocations succeed. *)
Definition ipa_pm_init (s : pm) (params : option ipa_pm_init_params) (memory workqueue : bool)
  : Z * pm :=
  match params with
  | None => (- EINVAL, s)
  | Some ip =>
      if (ip_threshold_size ip <=? 0) || (IPA_PM_THRESHOLD_MAX <? ip_threshold_size ip)
      then (- EINVAL, s) else
      if (ip_exception_size ip <? 0) || (IPA_PM_EXCEPTION_MAX <? ip_exception_size ip)
      then (- EINVAL, s) else
      if ctx_allocated s then (- EPERM, s) else
      if negb memory then (- ENOMEM, s) else
      if negb workqueue then (- ENOMEM, s) else
      (0, s <| ctx_allocated := true |>
            <| clients := replicate (Z.to_nat IPA_PM_MAX_CLIENTS) NULL_CLIENT |>
            <| clients_by_pipe := replicate (Z.to_nat IPA5_PIPES_NUM) NULL_CLIENT |>
            <| aggregated_tput := 0 |> <| group_tput := [0; 0; 0] |>
            <| clk_scaling := Build_clk_scaling_db
                 (map (init_exception ip) (take (Z.to_nat (ip_exception_size ip)) (ip_exceptions ip))
                  ++ replicate (Z.to_nat (IPA_PM_EXCEPTION_MAX - ip_exception_size ip)) zero_exception)
                 (replicate (Z.to_nat IPA5_PIPE_REG_NUM) 0) (ip_threshold_size ip)
                 (ip_exception_size ip) 0
                 (copy_ints zero_thresholds (ip_default_threshold ip) (ip_threshold_size ip))
                 NullThreshold |>)
  end.
