(* ===== verification/PmOps.v ===== *)
(** * The power manager: operations ([ipa_pm.c], clock votes of [ipa.c])

    Every function that interleaves with others is a program.  Its actions are
    the critical sections of the client's state lock and of [client_mutex], the
    atomic operations and the unlocked reads and writes of the source, in their
    order.  Debug output is left out. *)
From S2P Require Import Prelude RecordUpdate Interleave PmData.

Section PmOps.
Context {C : pm_config}.

(** ** Actions *)

(** [BUG ()], which [ipa_assert] ends in. *)
Definition bug {A : Type} : prog pm A := Act (B := A) (fun _ => Undef) Ret.

Definition on_clk {A : Type} (f : clk_state -> A * clk_state) : prog pm A :=
  Act (fun s => let '(a, c) := f (clk s) in Next (a, s <| clk := c |>)) Ret.
Definition upd_clk (f : clk_state -> clk_state) : prog pm unit :=
  modifies (fun s => s <| clk := f (clk s) |>).

(** The mutex [ipa3_active_clients.mutex]. *)
Definition lock_clk : prog pm unit :=
  Act (fun s => if clk_mutex (clk s) then Blocked
                else Next (tt, s <| clk := clk s <| clk_mutex := true |> |>)) Ret.
Definition unlock_clk : prog pm unit := upd_clk (fun c => c <| clk_mutex := false |>).

(** A critical section of the client at [p], or an unlocked read of it. *)
Definition on_client {A : Type} (p : Z) (f : ipa_pm_client -> A * ipa_pm_client) : prog pm A :=
  atomically (fun s => c ← get_client s p; let '(a, c) := f c in Some (a, set_client s p c)).
Definition client_field {A : Type} (p : Z) (f : ipa_pm_client -> A) : prog pm A :=
  atomically (fun s => c ← get_client s p; Some (f c, s)).

(** [wait_for_completion (&client->complete)]. *)
Definition wait_for_completion (p : Z) : prog pm unit :=
  Act (fun s => match get_client s p with
                | None => Undef
                | Some c => if completion c then Next (tt, s) else Blocked
                end) Ret.

(** [cancel_delayed_work_sync (&client->deactivate_work)] waits until the work
    is not being executed. *)
Definition cancel_delayed_work_sync (p : Z) : prog pm unit :=
  Act (fun s => match get_client s p with
                | None => Undef
                | Some _ => if bool_decide (running s = Some (DeactivateWork p)) then Blocked
                            else Next (tt, cancel_delayed_work p s)
                end) Ret.

(** ** Clock votes *)

Definition ipa3_inc_client_enable_clks : prog pm unit :=
  let* ret := on_clk atomic_inc_not_zero in
  if ret : bool then Ret tt else
  lock_clk ;;
  let* ret := on_clk atomic_inc_not_zero in
  if ret : bool then unlock_clk else
  upd_clk ipa3_enable_clks ;;
  upd_clk (fun c => c <| cnt := cnt c + 1 |>) ;;
  unlock_clk.

Definition ipa3_inc_client_enable_clks_no_block (c : clk_state) : Z * clk_state :=
  let '(ret, c) := atomic_inc_not_zero c in
  if ret : bool then (0, c) else (- EPERM, c).

Definition ipa_pm_set_clock_index (index : Z) : prog pm unit :=
  modifies (fun s => if ctx_allocated s && (0 <=? index)
                     then s <| clk_scaling := clk_scaling s <| cur_vote := index |> |> else s).

Definition ipa3_disable_clks : prog pm unit :=
  if negb (IPA_IS_REGULAR_CLK_MODE ipa3_hw_mode) then Ret tt else
  upd_clk (fun c => c <| ipa_clk_vote := 0 |>) ;;
  if negb (gsi_pending_irq_type =? 0) then
    upd_clk (fun c => c <| cnt := cnt c + 1 |> <| ipa_clk_vote := 1 |>) ;; bug
  else
  upd_clk (fun c => c <| clk_on := false |>) ;;
  ipa_pm_set_clock_index 0 ;;
  upd_clk (fun c => c <| icc_level := IPA_ICC_NONE |> <| ipa_clk_vote := 0 |>).

(** [ipa3_suspend_apps_pipes (true)] reports that the hardware is busy. *)
Definition ipa3_suspend_apps_pipes (c : clk_state) : bool := apps_pipes_busy c.

Definition __ipa3_dec_client_disable_clks : prog pm unit :=
  let* n := reads (fun s => cnt (clk s)) in
  if n =? 0 then bug else
  let* ret := on_clk atomic_dec_unless_one in
  if ret : bool then Ret tt else
  let* n := reads (fun s => cnt (clk s)) in
  let* tag := reads (fun s => tag_process_before_gating (clk s)) in
  (if (n =? 1) && negb tag
   then upd_clk (fun c => c <| tag_process_before_gating := false |>) else Ret tt) ;;
  lock_clk ;;
  let* n := reads (fun s => cnt (clk s)) in
  let* tag := reads (fun s => tag_process_before_gating (clk s)) in
  if (n =? 1) && tag then
    upd_clk (fun c => c <| tag_process_before_gating := false |>) ;;
    upd_clk (fun c => c <| tag_work := true |>) ;;
    unlock_clk
  else
  let* n := on_clk (fun c => (cnt c - 1, c <| cnt := cnt c - 1 |>)) in
  if 0 <? n then unlock_clk else
  let* busy := reads (fun s => ipa3_suspend_apps_pipes (clk s)) in
  (if busy : bool then
     upd_clk (fun c => c <| cnt := cnt c + 1 |>) ;;
     upd_clk (fun c => c <| dec_clients_work := true |>)
   else ipa3_disable_clks) ;;
  unlock_clk.

Definition ipa3_dec_client_disable_clks_no_block : prog pm unit :=
  let* ret := on_clk atomic_dec_unless_one in
  if ret : bool then Ret tt else upd_clk (fun c => c <| dec_clients_work := true |>).

Definition ipa3_dec_client_disable_clks_delay_wq : prog pm unit :=
  let* queued := on_clk (fun c => (negb (dec_suspend_work c), c <| dec_suspend_work := true |>)) in
  if queued : bool then Ret tt else __ipa3_dec_client_disable_clks.

(** ** Clock scaling *)

Definition ipa3_set_clock_plan_from_pm (idx : Z) : prog pm Z :=
  if negb enable_clock_scaling then upd_clk (fun c => c <| bus_vote_idx := idx |>) ;; Ret 0 else
  if negb (IPA_IS_REGULAR_CLK_MODE ipa3_hw_mode) then Ret 0 else
  if (idx <=? 0) || (5 <=? idx) then Ret (- EINVAL) else
  let* cur := reads (fun s => curr_ipa_clk_rate (clk s)) in
  if plan_rate idx =? cur then Ret 0 else
  lock_clk ;;
  upd_clk (set_clock_plan idx) ;;
  unlock_clk ;;
  Ret 0.

(** What [do_clk_scaling] does under [client_mutex]. *)
Definition scaling_section (s : pm) : option (Z * pm) :=
  tput ← calculate_throughput s;
  s ← set_current_threshold (s <| aggregated_tput := tput |>);
  Some (tput, s).

(** Its loop over the thresholds, which takes no lock. *)
Fixpoint compare_thresholds (tput : Z) (i : Z) (k : nat) (new_th_idx : Z) : prog pm Z :=
  match k with
  | O => Ret new_th_idx
  | S k =>
      let* t := atomically (fun s => t ← threshold_at (clk_scaling s) i; Some (t, s)) in
      compare_thresholds tput (i + 1) k (if t <=? tput then new_th_idx + 1 else new_th_idx)
  end.

Definition do_clk_scaling : prog pm unit :=
  let* vote := reads (fun s => ipa_clk_vote (clk s)) in
  if vote =? 0 then Ret tt else
  let* tput := atomically scaling_section in
  let* size := reads (fun s => threshold_size (clk_scaling s)) in
  let* new_th_idx := compare_thresholds tput 0 (Z.to_nat size) 1 in
  let* cur := reads (fun s => cur_vote (clk_scaling s)) in
  if cur =? new_th_idx then Ret tt else
  modifies (fun s => s <| clk_scaling := clk_scaling s <| cur_vote := new_th_idx |> |>) ;;
  let* cur := reads (fun s => cur_vote (clk_scaling s)) in
  ipa3_set_clock_plan_from_pm cur ;;
  Ret tt.

(** ** The work queue *)

Definition is_apps (g : ipa_pm_group) : bool := bool_decide (g = IPA_PM_GROUP_APPS).

(** [__pm_stay_awake (client->wlock)], [__pm_relax (client->wlock)]. *)
Definition stay_awake (p : Z) : prog pm unit := on_client p (fun c => (tt, c <| awake := true |>)).
Definition relax (p : Z) : prog pm unit := on_client p (fun c => (tt, c <| awake := false |>)).

(** Voting for the clocks and giving the vote back, unless the client skips it. *)
Definition vote_clock (p : Z) : prog pm unit :=
  let* skip := client_field p skip_clk_vote in
  if skip : bool then Ret tt else
  ipa3_inc_client_enable_clks ;;
  let* g := client_field p group in
  if is_apps g then stay_awake p else Ret tt.
Definition devote_clock (p : Z) : prog pm unit :=
  let* skip := client_field p skip_clk_vote in
  if skip : bool then Ret tt else
  __ipa3_dec_client_disable_clks ;;
  let* g := client_field p group in
  if is_apps g then relax p else Ret tt.

(** The critical section of [activate_work_func]: whether to give the vote back. *)
Definition activate_work_section (p : Z) (s : pm) : option (bool * pm) :=
  c ← get_client s p;
  match state c with
  | IPA_PM_ACTIVATE_IN_PROGRESS =>
      Some (false, set_client s p (c <| state := IPA_PM_ACTIVATED |>))
  | IPA_PM_DEACTIVATE_IN_PROGRESS =>
      Some (true, set_client s p (c <| state := IPA_PM_DEACTIVATED |>))
  | _ => Some (false, s <| warned := true |>)
  end.

(** The callback of a client, made under [client_mutex]. *)
Definition call_back (p : Z) (e : ipa_pm_cb_event) (s : pm) : option (unit * pm) :=
  c ← get_client s p;
  Some (tt, match callback c with
            | Some f => s <| events := (f, e) :: events s |>
            | None => s
            end).

Definition set_active_bit (p : Z) : prog pm unit :=
  let* h := client_field p hdl in
  atomically (fun s => s ← activate_client s h; Some (tt, s)).
Definition clear_active_bit (p : Z) : prog pm unit :=
  let* h := client_field p hdl in
  atomically (fun s => s ← deactivate_client s h; Some (tt, s)).

Definition activate_work_func (p : Z) : prog pm unit :=
  vote_clock p ;;
  let* dec_clk := atomically (activate_work_section p) in
  on_client p (fun c => (tt, c <| completion := true |>)) ;;
  if dec_clk : bool then devote_clock p else
  set_active_bit p ;;
  atomically (call_back p IPA_PM_CLIENT_ACTIVATED) ;;
  do_clk_scaling.

(** The critical section of [delayed_deferred_deactivate_work_func]: whether
    the client was deactivated. *)
Definition deactivate_work_section (p : Z) (s : pm) : option (bool * pm) :=
  c ← get_client s p;
  match state c with
  | IPA_PM_ACTIVATED_TIMER_SET =>
      Some (false, set_client s p (c <| state := IPA_PM_ACTIVATED |>))
  | IPA_PM_ACTIVATED_PENDING_RESCHEDULE =>
      Some (false, set_client (queue_delayed_work p s) p
                     (c <| state := IPA_PM_ACTIVATED_PENDING_DEACTIVATION |>))
  | IPA_PM_ACTIVATED_PENDING_DEACTIVATION =>
      Some (true, set_client s p (c <| state := IPA_PM_DEACTIVATED |>))
  | _ => Some (false, s <| warned := true |>)
  end.

Definition delayed_deferred_deactivate_work_func (p : Z) : prog pm unit :=
  let* deactivated := atomically (deactivate_work_section p) in
  if deactivated : bool then
    devote_clock p ;; clear_active_bit p ;; do_clk_scaling
  else Ret tt.

Definition clock_scaling_func : prog pm unit := do_clk_scaling.

Definition work_func (w : work_item) : prog pm unit :=
  match w with
  | ActivateWork p => activate_work_func p
  | DeactivateWork p => delayed_deferred_deactivate_work_func p
  | ScalingWork => clock_scaling_func
  end.
(** ** Activation *)

(** How a critical section of [ipa_pm_activate_helper] ends: the function
    returns, the client got the clocks, or it has to vote for them. *)
Inductive activation :=
  | ActivateReturns (rc : Z)
  | ActivateGotClocks
  | ActivateVotes.

Definition set_activated (c : ipa_pm_client) : ipa_pm_client :=
  let c := c <| state := IPA_PM_ACTIVATED |> in
  if is_apps (group c) then c <| awake := true |> else c.

(** From the [switch] to the end of the critical section. *)
Definition activate_section (p : Z) (sync : bool) (s : pm) : option (activation * pm) :=
  c ← get_client s p;
  match state c with
  | IPA_PM_ACTIVATED_PENDING_RESCHEDULE | IPA_PM_ACTIVATED_PENDING_DEACTIVATION =>
      Some (ActivateReturns 0, set_client s p (c <| state := IPA_PM_ACTIVATED_TIMER_SET |>))
  | IPA_PM_ACTIVATED | IPA_PM_ACTIVATED_TIMER_SET => Some (ActivateReturns 0, s)
  | IPA_PM_DEACTIVATED =>
      if skip_clk_vote c then Some (ActivateGotClocks, set_client s p (set_activated c)) else
      if sync then
        Some (ActivateVotes, set_client s p (c <| state := IPA_PM_ACTIVATE_IN_PROGRESS |>))
      else
      let '(result, k) := ipa3_inc_client_enable_clks_no_block (clk s) in
      let s := s <| clk := k |> in
      if result =? 0 then Some (ActivateGotClocks, set_client s p (set_activated c))
      else Some (ActivateReturns (- EINPROGRESS),
                 queue_work (ActivateWork p)
                   (set_client s p (c <| state := IPA_PM_ACTIVATE_IN_PROGRESS |>
                                      <| completion := false |>)))
  | _ => Some (ActivateReturns (- EPERM), s)
  end.

(** The first critical section; [None] when the caller has to wait. *)
Definition activate_first_section (p : Z) (sync : bool) (s : pm)
  : option (option activation * pm) :=
  c ← get_client s p;
  if IPA_PM_STATE_IN_PROGRESS (state c) then
    if sync then Some (None, s)
    else Some (Some (ActivateReturns (- EINPROGRESS)),
               set_client s p (c <| state := IPA_PM_ACTIVATE_IN_PROGRESS |>))
  else '(r, s) ← activate_section p sync s; Some (Some r, s).

Definition activate_tail (p : Z) (sync : bool) : prog pm Z :=
  set_active_bit p ;;
  (if sync then do_clk_scaling else modifies (queue_work ScalingWork)) ;;
  Ret 0.

Definition ipa_pm_activate_helper (p : Z) (sync : bool) : prog pm Z :=
  let* r := atomically (activate_first_section p sync) in
  let* r := (match r with
             | Some r => Ret r
             | None => wait_for_completion p ;; atomically (activate_section p sync)
             end) in
  match r with
  | ActivateReturns rc => Ret rc
  | ActivateGotClocks => activate_tail p sync
  | ActivateVotes =>
      ipa3_inc_client_enable_clks ;;
      on_client p (fun c => (tt, set_activated c)) ;;
      activate_tail p sync
  end.

(** The checks of a handle: the client's address, or the refusal. *)
Definition checked_client (h : Z) : prog pm (option Z) :=
  let* present := reads ctx_allocated in
  if negb present then Ret None else
  if IPA_PM_MAX_CLIENTS <=? h then Ret None else
  let* p := atomically (fun s => p ← client_at s h; Some (p, s)) in
  if p =? NULL_CLIENT then Ret None else
  let* p := atomically (fun s => p ← client_at s h; Some (p, s)) in
  Ret (Some p).

Definition with_client (h : Z) (f : Z -> prog pm Z) : prog pm Z :=
  let* p := checked_client h in
  match p with Some p => f p | None => Ret (- EINVAL) end.

Definition ipa_pm_activate (h : Z) : prog pm Z :=
  with_client h (fun p => ipa_pm_activate_helper p false).
Definition ipa_pm_activate_sync (h : Z) : prog pm Z :=
  with_client h (fun p => ipa_pm_activate_helper p true).

(** ** Deactivation *)

Definition deferred_section (p : Z) (s : pm) : option (Z * pm) :=
  c ← get_client s p;
  match state c with
  | IPA_PM_ACTIVATE_IN_PROGRESS =>
      Some (0, set_client s p (c <| state := IPA_PM_DEACTIVATE_IN_PROGRESS |>))
  | IPA_PM_DEACTIVATED => Some (0, s)
  | IPA_PM_ACTIVATED =>
      Some (0, queue_delayed_work p
                 (set_client s p (c <| state := IPA_PM_ACTIVATED_PENDING_DEACTIVATION |>)))
  | IPA_PM_ACTIVATED_TIMER_SET | IPA_PM_ACTIVATED_PENDING_DEACTIVATION =>
      Some (0, set_client s p (c <| state := IPA_PM_ACTIVATED_PENDING_RESCHEDULE |>))
  | IPA_PM_DEACTIVATE_IN_PROGRESS | IPA_PM_ACTIVATED_PENDING_RESCHEDULE => Some (0, s)
  end.

Definition ipa_pm_deferred_deactivate (h : Z) : prog pm Z :=
  with_client h (fun p => atomically (deferred_section p)).

Definition ipa_pm_deactivate_sync (h : Z) : prog pm Z :=
  with_client h (fun p =>
    cancel_delayed_work_sync p ;;
    let* st := client_field p state in
    (if IPA_PM_STATE_IN_PROGRESS st then wait_for_completion p else Ret tt) ;;
    let* st := client_field p state in
    if bool_decide (st = IPA_PM_DEACTIVATED) then Ret 0 else
    devote_clock p ;;
    on_client p (fun c => (tt, c <| state := IPA_PM_DEACTIVATED |>)) ;;
    cancel_delayed_work_sync p ;;
    atomically (fun s => s ← deactivate_client s h; Some (tt, s)) ;;
    do_clk_scaling ;;
    Ret 0).

(** The critical section of [ipa_pm_deactivate_all_deferred]. *)
Definition deactivate_deferred_section (p : Z) (s : pm) : option (bool * pm) :=
  c ← get_client s p;
  match state c with
  | IPA_PM_ACTIVATED_TIMER_SET =>
      Some (false, set_client s p (c <| state := IPA_PM_ACTIVATED |>))
  | IPA_PM_ACTIVATED_PENDING_DEACTIVATION | IPA_PM_ACTIVATED_PENDING_RESCHEDULE =>
      Some (true, set_client s p (c <| state := IPA_PM_DEACTIVATED |>))
  | _ => Some (false, s)
  end.

(** Its loop over the handles, and whether the clocks have to be scaled. *)
Fixpoint deactivate_deferred_loop (h : Z) (k : nat) (run_algorithm : bool) : prog pm bool :=
  match k with
  | O => Ret run_algorithm
  | S k =>
      let* p := atomically (fun s => p ← client_at s h; Some (p, s)) in
      if p =? NULL_CLIENT then deactivate_deferred_loop (h + 1) k run_algorithm else
      cancel_delayed_work_sync p ;;
      let* st := client_field p state in
      if IPA_PM_STATE_IN_PROGRESS st then
        wait_for_completion p ;; deactivate_deferred_loop (h + 1) k run_algorithm
      else
      let* deactivated := atomically (deactivate_deferred_section p) in
      if deactivated : bool then
        devote_clock p ;; clear_active_bit p ;; deactivate_deferred_loop (h + 1) k true
      else deactivate_deferred_loop (h + 1) k run_algorithm
  end.

Definition ipa_pm_deactivate_all_deferred : prog pm Z :=
  let* present := reads ctx_allocated in
  if negb present then Ret (- EINVAL) else
  let* run_algorithm :=
    deactivate_deferred_loop 1 (Z.to_nat (IPA_PM_MAX_CLIENTS - 1)) false in
  (if run_algorithm : bool then do_clk_scaling else Ret tt) ;;
  Ret 0.

(** ** Registration *)

(** Under [client_mutex]: the pipes of the client are nullified, the client is freed. *)
Definition nullify_pipes (p : Z) (pipes : list Z) : list Z :=
  map (fun q => if q =? p then NULL_CLIENT else q) pipes.

Definition deregister_section (h p : Z) (s : pm) : option (Z * pm) :=
  q ← client_at s h;
  if IPA5_PIPES_NUM <? ipa3_get_max_num_pipes then None else
  let n := Z.to_nat ipa3_get_max_num_pipes in
  let s := s <| clients_by_pipe := nullify_pipes q (take n (clients_by_pipe s))
                                     ++ drop n (clients_by_pipe s) |> in
  _ ← get_client s p;
  let s := s <| heap := delete p (heap s) |> <| clients := (clients s).[h <- NULL_CLIENT] |> in
  s ← remove_client_from_exception_list s h;
  Some (0, s).

Definition ipa_pm_deregister (h : Z) : prog pm Z :=
  with_client h (fun p =>
    let* st := client_field p state in
    (if IPA_PM_STATE_IN_PROGRESS st then wait_for_completion p else Ret tt) ;;
    let* st := client_field p state in
    if IPA_PM_STATE_ACTIVE st then Ret (- EPERM) else
    atomically (deregister_section h p)).

(** Under [client_mutex]: a handle is found and the client allocated. *)
Definition register_section (nm : string) (memory : bool) (s : pm) : option (Z * Z * pm) :=
  elem ← find_next_open_array_element s nm;
  if (elem <? 0) || (IPA_PM_MAX_CLIENTS <? elem) then Some (elem, u32 elem, s) else
  if negb memory then Some (- ENOMEM, elem, s) else
  cl ← storeZ (clients s) elem (next_address s);
  Some (0, elem, s <| clients := cl |> <| heap := <[next_address s := zero_client]> (heap s) |>
                   <| next_address := next_address s + 1 |>).

Definition populate (h : Z) (rp : ipa_pm_register_params) (c : ipa_pm_client) : ipa_pm_client :=
  c <| name := strscpy (rp_name rp) IPA_PM_MAX_EX_CL |> <| callback := rp_callback rp |>
    <| group := rp_group rp |> <| hdl := h |> <| skip_clk_vote := rp_skip_clk_vote rp |>.

(** [ipa_pm_register]: the status and [*hdl]; [params] and [name] are not null.
    [memory] and [wakeup] say whether the two allocations succeed. *)
Definition ipa_pm_register (rp : ipa_pm_register_params) (memory wakeup : bool) : prog pm (Z * Z) :=
  let* present := reads ctx_allocated in
  if negb present then Ret (- EINVAL, 0) else
  let* (rc, h) := atomically (register_section (rp_name rp) memory) in
  if negb (rc =? 0) then Ret (rc, h) else
  let* p := atomically (fun s => p ← client_at s h; Some (p, s)) in
  on_client p (fun c => (tt, populate h rp c)) ;;
  if negb wakeup then ipa_pm_deregister h ;; Ret (- ENOMEM, h) else
  on_client p (fun c => (tt, c <| completion := false |>)) ;;
  let* ret := atomically (fun s => add_client_to_exception_list s h) in
  if negb (ret =? 0) then ipa_pm_deregister h ;; Ret (- EPERM, h) else
  Ret (0, h).

(** ** Pipes *)

Definition associate_section (h consumer : Z) (s : pm) : option (Z * pm) :=
  p ← client_at s h;
  if p =? NULL_CLIENT then Some (- EPERM, s) else
  let idx := ipa_get_ep_mapping consumer in
  if idx <? 0 then Some (0, s) else
  q ← (clients_by_pipe s).[idx];
  if negb (q =? NULL_CLIENT) then Some (- EPERM, s) else
  Some (0, s <| clients_by_pipe := (clients_by_pipe s).[idx <- p] |>).

Definition ipa_pm_associate_ipa_cons_to_client (h consumer : Z) : prog pm Z :=
  let* present := reads ctx_allocated in
  if negb present then Ret (- EINVAL) else
  if (IPA_PM_MAX_CLIENTS <=? h) || (consumer <? 0) || (IPA_CLIENT_MAX <=? consumer)
  then Ret (- EINVAL) else
  atomically (associate_section h consumer).

(** The loop of [ipa_pm_handle_suspend] over the bits, under [client_mutex];
    [notified] are the handles that were called. *)
Fixpoint wake_loop (pipe_bitmask pipe_add : Z) (i : Z) (k : nat) (notified : list Z) (s : pm)
  : option pm :=
  match k with
  | O => Some s
  | S k =>
      if negb (i + pipe_add <? ipa3_get_max_num_pipes) then Some s else
      if negb (Z.testbit pipe_bitmask i) then wake_loop pipe_bitmask pipe_add (i + 1) k notified s
      else
        p ← (clients_by_pipe s).[i + pipe_add];
        if p =? NULL_CLIENT then wake_loop pipe_bitmask pipe_add (i + 1) k notified s else
        c ← get_client s p;
        if bool_decide (hdl c ∈ notified) then wake_loop pipe_bitmask pipe_add (i + 1) k notified s
        else match callback c with
             | Some f =>
                 wake_loop pipe_bitmask pipe_add (i + 1) k (hdl c :: notified)
                   (s <| events := (f, IPA_PM_REQUEST_WAKEUP) :: events s |>)
             | None => wake_loop pipe_bitmask pipe_add (i + 1) k notified s
             end
  end.

Definition ipa_pm_handle_suspend (pipe_bitmask pipe_arr_idx : Z) : prog pm Z :=
  let* present := reads ctx_allocated in
  if negb present then Ret (- EINVAL) else
  if pipe_bitmask =? 0 then Ret 0 else
  atomically (fun s =>
    s ← wake_loop pipe_bitmask (u32 (pipe_arr_idx * 32)) 0 (Z.to_nat IPA_EP_PER_REG) [] s;
    Some (0, s)).

(** ** Throughput *)

(** Under [client_mutex]: the refusal, or the client whose throughput, or whose
    group's throughput, was set. *)
Definition set_throughput_section (h tput : Z) (s : pm) : option (option Z * pm) :=
  if IPA_PM_MAX_CLIENTS <=? h then Some (None, s) else
  p ← client_at s h;
  if (p =? NULL_CLIENT) || (tput <? 0) then Some (None, s) else
  c ← get_client s p;
  if bool_decide (group c = IPA_PM_GROUP_DEFAULT)
  then Some (Some p, set_client s p (c <| throughput := tput |>))
  else
    gt ← storeZ (group_tput s) (group_index (group c)) tput;
    Some (Some p, s <| group_tput := gt |>).

Definition ipa_pm_set_throughput (h tput : Z) : prog pm Z :=
  let* present := reads ctx_allocated in
  if negb present then Ret (- EINVAL) else
  let* r := atomically (set_throughput_section h tput) in
  match r with
  | None => Ret (- EINVAL)
  | Some p =>
      let* q := atomically (fun s => q ← client_at s h; Some (q, s)) in
      if q =? NULL_CLIENT then Ret 0 else
      let* needed := client_field p (fun c => IPA_PM_STATE_ACTIVE (state c)
                       || negb (bool_decide (group c = IPA_PM_GROUP_DEFAULT))) in
      if needed : bool then do_clk_scaling ;; Ret 0 else Ret 0
  end.

(** [destroy_workqueue] waits for the queued work; the clients are neither
    unregistered nor freed. *)
Definition ipa_pm_destroy : prog pm Z :=
  let* present := reads ctx_allocated in
  if negb present then Ret (- EPERM) else
  await (fun s => bool_decide (work_list s = []) && bool_decide (running s = None)) ;;
  modifies (fun s => s <| ctx_allocated := false |>) ;;
  Ret 0.

(** ** Queries *)

Definition ipa_pm_get_scaling_bw_levels (s : pm) : option (Z * list Z) :=
  if negb (ctx_allocated s) then Some (- EINVAL, []) else
  if threshold_size (clk_scaling s) <? 3 then Some (- EINVAL, []) else
  svs ← threshold_at (clk_scaling s) 0;
  nom ← threshold_at (clk_scaling s) 1;
  tur ← threshold_at (clk_scaling s) 2;
  Some (0, [svs; nom; tur]).

Definition ipa_pm_get_aggregated_throughput (s : pm) : Z :=
  if ctx_allocated s then aggregated_tput s else 0.

(** [app_vote] is the count of the vote of the applications, kept elsewhere. *)
Definition ipa_pm_get_current_clk_vote (s : pm) (app_vote : Z) : Z :=
  if ctx_allocated s then cur_vote (clk_scaling s) else app_vote.

Definition ipa_pm_get_pm_clnt_throughput (s : pm) (client_type : Z) : option Z :=
  if negb (ctx_allocated s) then None else
  let idx := ipa_get_ep_mapping client_type in
  if idx <? 0 then Some 0 else
  p ← (clients_by_pipe s).[idx];
  if p =? NULL_CLIENT then Some 0 else
  c ← get_client s p; Some (throughput c).

(** ** Dummy clients *)

Definition dummy1_params : ipa_pm_register_params :=
  Build_ipa_pm_register_params "DummyModem" IPA_PM_GROUP_MODEM false None.
Definition dummy2_params : ipa_pm_register_params :=
  Build_ipa_pm_register_params "DummyApps" IPA_PM_GROUP_APPS false None.

(** Calls in turn until one fails, which is reported as [-EFAULT]. *)
Fixpoint all_calls (l : list (prog pm Z)) : prog pm Z :=
  match l with
  | [] => Ret 0
  | p :: l => let* rc := p in if rc =? 0 then all_calls l else Ret (- EFAULT)
  end.

Definition ipa_pm_add_dummy_clients (power_plan : Z) (memory1 wakeup1 memory2 wakeup2 : bool)
  : prog pm Z :=
  let* size := atomically (fun s => if ctx_allocated s then Some (threshold_size (clk_scaling s), s)
                                    else None) in
  if (power_plan <? 0) || (size <=? power_plan - 1) then Ret (- EFAULT) else
  let* tput := (if power_plan =? 0 then Ret 0 else
                atomically (fun s => t ← threshold_at (clk_scaling s) (power_plan - 1);
                                     Some (t, s))) in
  let* (rc, hdl_1) := ipa_pm_register dummy1_params memory1 wakeup1 in
  if negb (rc =? 0) then Ret (- EFAULT) else
  let* (rc, hdl_2) := ipa_pm_register dummy2_params memory2 wakeup2 in
  if negb (rc =? 0) then Ret (- EFAULT) else
  modifies (fun s => s <| dummy_hdls := (hdl_1, hdl_2) |>) ;;
  atomically (fun s => tput_modem ← (group_tput s).[group_index IPA_PM_GROUP_MODEM];
                       tput_apps ← (group_tput s).[group_index IPA_PM_GROUP_APPS];
                       Some (tt, s <| dummy_tputs := (tput_modem, tput_apps) |>)) ;;
  all_calls [ipa_pm_set_throughput hdl_1 tput; ipa_pm_set_throughput hdl_2 tput;
             ipa_pm_activate_sync hdl_1; ipa_pm_activate_sync hdl_2].

Definition ipa_pm_remove_dummy_clients : prog pm Z :=
  let* (hdl_1, hdl_2) := reads dummy_hdls in
  let* (tput_modem, tput_apps) := reads dummy_tputs in
  all_calls [ipa_pm_deactivate_sync hdl_1; ipa_pm_deactivate_sync hdl_2;
             ipa_pm_set_throughput hdl_1 tput_modem; ipa_pm_set_throughput hdl_2 tput_apps;
             ipa_pm_deregister hdl_1; ipa_pm_deregister hdl_2].
End PmOps.
