(* ===== verification/PmMach.v ===== *)
(** * The power manager among its callers

    A machine runs calls of the power manager in any number of threads, the
    work queue, the timers and the other users of the clocks, one atomic action
    at a time.  [permitted] is the discipline under which the invariant of
    [PmKeeps] holds: the calls for one client do not overlap, and a client does
    not activate again before its last activation has ended. *)
From S2P Require Import Prelude RecordUpdate Interleave PmData PmOps.

(** Deferred decrements of the clock votes on the queue [power_mgmt_wq]. *)
Inductive power_work := TagWork | DecClientsWork | DecSuspendWork.

Inductive call :=
  | Activate (h : Z)
  | ActivateSync (h : Z)
  | DeferredDeactivate (h : Z)
  | DeactivateSync (h : Z)
  | DeactivateAllDeferred
  | SetThroughput (h tput : Z)
  | Deregister (h : Z)
  | IncClients
  | DecClients
  | DecClientsNoBlock
  | PowerWork (w : power_work).

#[export] Instance power_work_eq_dec : EqDecision power_work.
Proof. solve_decision. Defined.
#[export] Instance call_eq_dec : EqDecision call.
Proof. solve_decision. Defined.

(** The client whose calls must not overlap with this one. *)
Definition call_client (c : call) : option Z :=
  match c with
  | Activate h | ActivateSync h | DeferredDeactivate h | DeactivateSync h => Some h
  | _ => None
  end.

Record machine := {
  mem : pm;
  calls : gmap nat (call * prog pm Z);
  worker : option (prog pm unit);
  others : Z;
}.

Section Machine.
Context {C : pm_config}.

Definition returning (p : prog pm unit) : prog pm Z := p ;; Ret 0.

Definition call_prog (c : call) : prog pm Z :=
  match c with
  | Activate h => ipa_pm_activate h
  | ActivateSync h => ipa_pm_activate_sync h
  | DeferredDeactivate h => ipa_pm_deferred_deactivate h
  | DeactivateSync h => ipa_pm_deactivate_sync h
  | DeactivateAllDeferred => ipa_pm_deactivate_all_deferred
  | SetThroughput h tput => ipa_pm_set_throughput h tput
  | Deregister h => ipa_pm_deregister h
  | IncClients => returning ipa3_inc_client_enable_clks
  | DecClients | PowerWork _ => returning __ipa3_dec_client_disable_clks
  | DecClientsNoBlock => returning ipa3_dec_client_disable_clks_no_block
  end.

Definition power_pending (c : clk_state) (w : power_work) : bool :=
  match w with
  | TagWork => tag_work c | DecClientsWork => dec_clients_work c | DecSuspendWork => dec_suspend_work c
  end.
Definition power_taken (c : clk_state) (w : power_work) : clk_state :=
  match w with
  | TagWork => c <| tag_work := false |>
  | DecClientsWork => c <| dec_clients_work := false |>
  | DecSuspendWork => c <| dec_suspend_work := false |>
  end.

(** A call begins.  Another driver gives back a vote it has; work of
    [power_mgmt_wq] begins when it is pending. *)
Definition call_begins (c : call) (s : pm) (o : Z) : option (pm * Z) :=
  match c with
  | DecClients | DecClientsNoBlock => if 0 <? o then Some (s, o - 1) else None
  | PowerWork w => if power_pending (clk s) w then Some (s <| clk := power_taken (clk s) w |>, o)
                   else None
  | _ => Some (s, o)
  end.
(** The votes of other drivers when a call returns. *)
Definition call_returns (c : call) (o : Z) : Z :=
  match c with IncClients => o + 1 | _ => o end.

(** The steps of the machine, when calls are made only as [ok] permits. *)
Inductive mstep (ok : machine -> call -> Prop) : machine -> machine -> Prop :=
  | m_begin m t c s o :
      calls m !! t = None -> ok m c -> call_begins c (mem m) (others m) = Some (s, o) ->
      mstep ok m (Build_machine s (<[t := (c, call_prog c)]> (calls m)) (worker m) o)
  | m_call m t c B (f : pm -> outcome (B * pm)) k b s :
      calls m !! t = Some (c, Act f k) -> f (mem m) = Next (b, s) ->
      mstep ok m (Build_machine s (<[t := (c, k b)]> (calls m)) (worker m) (others m))
  | m_return m t c rc :
      calls m !! t = Some (c, Ret rc) ->
      mstep ok m (Build_machine (mem m) (delete t (calls m)) (worker m)
                    (call_returns c (others m)))
  | m_work_begin m w l :
      worker m = None -> work_list (mem m) = w :: l ->
      mstep ok m (Build_machine (mem m <| work_list := l |> <| running := Some w |>)
                    (calls m) (Some (work_func w)) (others m))
  | m_work m B (f : pm -> outcome (B * pm)) k b s :
      worker m = Some (Act f k) -> f (mem m) = Next (b, s) ->
      mstep ok m (Build_machine s (calls m) (Some (k b)) (others m))
  | m_work_end m u :
      worker m = Some (Ret u) ->
      mstep ok m (Build_machine (mem m <| running := None |>) (calls m) None (others m))
  | m_timer m p l1 l2 :
      timers (mem m) = l1 ++ p :: l2 ->
      mstep ok m (Build_machine (mem m <| timers := l1 ++ l2 |>
                                       <| work_list := work_list (mem m) ++ [DeactivateWork p] |>)
                    (calls m) (worker m) (others m))
  | m_hardware m busy tag :
      mstep ok m (Build_machine (mem m <| clk := clk (mem m) <| apps_pipes_busy := busy |>
                                                  <| tag_process_before_gating := tag |> |>)
                    (calls m) (worker m) (others m)).

(** The next action of a call or of the queue is undefined: the kernel stops. *)
Definition crashes (m : machine) : Prop :=
  (exists t c B (f : pm -> outcome (B * pm)) k,
     calls m !! t = Some (c, Act f k) /\ f (mem m) = Undef) \/
  (exists B (f : pm -> outcome (B * pm)) k, worker m = Some (Act f k) /\ f (mem m) = Undef).

(** The discipline. *)
Definition permitted (m : machine) (c : call) : Prop :=
  match c with
  | DeactivateAllDeferred | Deregister _ => False
  | SetThroughput h _ => 0 <= h
  | _ =>
      forall h, call_client c = Some h ->
      exists p cl, client_at (mem m) h = Some p /\ heap (mem m) !! p = Some cl /\
        (forall t c' q, calls m !! t = Some (c', q) -> call_client c' <> Some h) /\
        match c with
        | Activate _ | ActivateSync _ =>
            IPA_PM_STATE_IN_PROGRESS (state cl) = false /\
            running (mem m) <> Some (ActivateWork p)
        | _ => True
        end
  end.

(** The calls for one client do not overlap; nothing else is asked of callers. *)
Definition serialised (m : machine) (c : call) : Prop :=
  forall h, call_client c = Some h ->
  forall t c' q, calls m !! t = Some (c', q) -> call_client c' <> Some h.

Definition any_call (m : machine) (c : call) : Prop := True.

(** ** Running a schedule *)

(** What happens next: a call begins in a thread, a thread takes a step or
    returns, the queue begins, continues or ends an item, the timer of the
    client at an address expires. *)
Inductive event :=
  | EvBegin (t : nat) (c : call)
  | EvCall (t : nat)
  | EvReturn (t : nat)
  | EvWorkBegin
  | EvWork
  | EvWorkEnd
  | EvTimer (p : Z)
  | EvHardware (busy tag : bool).

Definition perform (e : event) (m : machine) : option machine :=
  match e with
  | EvBegin t c =>
      match calls m !! t with
      | Some _ => None
      | None =>
          '(s, o) ← call_begins c (mem m) (others m);
          Some (Build_machine s (<[t := (c, call_prog c)]> (calls m)) (worker m) o)
      end
  | EvCall t =>
      match calls m !! t with
      | Some (c, Act f k) =>
          match f (mem m) with
          | Next (b, s) => Some (Build_machine s (<[t := (c, k b)]> (calls m)) (worker m) (others m))
          | _ => None
          end
      | _ => None
      end
  | EvReturn t =>
      match calls m !! t with
      | Some (c, Ret _) =>
          Some (Build_machine (mem m) (delete t (calls m)) (worker m) (call_returns c (others m)))
      | _ => None
      end
  | EvWorkBegin =>
      match worker m, work_list (mem m) with
      | None, w :: l =>
          Some (Build_machine (mem m <| work_list := l |> <| running := Some w |>)
                  (calls m) (Some (work_func w)) (others m))
      | _, _ => None
      end
  | EvWork =>
      match worker m with
      | Some (Act f k) =>
          match f (mem m) with
          | Next (b, s) => Some (Build_machine s (calls m) (Some (k b)) (others m))
          | _ => None
          end
      | _ => None
      end
  | EvWorkEnd =>
      match worker m with
      | Some (Ret _) =>
          Some (Build_machine (mem m <| running := None |>) (calls m) None (others m))
      | _ => None
      end
  | EvTimer p =>
      match list_find (fun q => q = p) (timers (mem m)) with
      | Some (i, _) =>
          let l := timers (mem m) in
          Some (Build_machine (mem m <| timers := take i l ++ drop (S i) l |>
                                     <| work_list := work_list (mem m) ++ [DeactivateWork p] |>)
                  (calls m) (worker m) (others m))
      | None => None
      end
  | EvHardware busy tag =>
      Some (Build_machine (mem m <| clk := clk (mem m) <| apps_pipes_busy := busy |>
                                                <| tag_process_before_gating := tag |> |>)
              (calls m) (worker m) (others m))
  end.

Definition call_allowed (ok : machine -> call -> bool) (e : event) (m : machine) : bool :=
  match e with EvBegin _ c => ok m c | _ => true end.

(** A schedule whose calls satisfy the decidable condition [ok]. *)
Fixpoint schedule (ok : machine -> call -> bool) (l : list event) (m : machine) : option machine :=
  match l with
  | [] => Some m
  | e :: l => if call_allowed ok e m then m ← perform e m; schedule ok l m else None
  end.

(** The conditions on calls as decisions. *)
Definition no_other_call (m : machine) (h : Z) : bool :=
  forallb (fun tc => negb (bool_decide (call_client (fst (snd tc)) = Some h))) (map_to_list (calls m)).
Definition serialisedb (m : machine) (c : call) : bool :=
  match call_client c with Some h => no_other_call m h | None => true end.
Definition client_permits (m : machine) (c : call) (h : Z) : bool :=
  match client_at (mem m) h with
  | None => false
  | Some p =>
      match heap (mem m) !! p with
      | None => false
      | Some cl => no_other_call m h &&
          match c with
          | Activate _ | ActivateSync _ =>
              negb (IPA_PM_STATE_IN_PROGRESS (state cl)) &&
              negb (bool_decide (running (mem m) = Some (ActivateWork p)))
          | _ => true
          end
      end
  end.
Definition permittedb (m : machine) (c : call) : bool :=
  match c with
  | DeactivateAllDeferred | Deregister _ => false
  | SetThroughput h _ => 0 <=? h
  | _ => match call_client c with Some h => client_permits m c h | None => true end
  end.

Lemma no_other_call_spec m h : no_other_call m h = true ->
  forall t c q, calls m !! t = Some (c, q) -> call_client c <> Some h.
Proof.
  intros H t c q Ht E. unfold no_other_call in H. rewrite forallb_forall in H.
  specialize (H (t, (c, q))). cbn in H. rewrite (bool_decide_true _ E) in H.
  discriminate H. apply list_elem_of_In. by apply elem_of_map_to_list.
Qed.
Lemma serialisedb_sound m c : serialisedb m c = true -> serialised m c.
Proof. intros H h Hc. unfold serialisedb in H. rewrite Hc in H. by apply no_other_call_spec. Qed.
Lemma permittedb_sound m c : permittedb m c = true -> permitted m c.
Proof.
  assert (Hgen : forall h, client_permits m c h = true ->
    exists p cl, client_at (mem m) h = Some p /\ heap (mem m) !! p = Some cl /\
        (forall t c' q, calls m !! t = Some (c', q) -> call_client c' <> Some h) /\
        match c with
        | Activate _ | ActivateSync _ =>
            IPA_PM_STATE_IN_PROGRESS (state cl) = false /\
            running (mem m) <> Some (ActivateWork p)
        | _ => True
        end).
  { unfold client_permits. intros h H. destruct (client_at (mem m) h) as [p|]; [|done].
    destruct (heap (mem m) !! p) as [cl|] eqn:Hcl; [|done]. apply andb_true_iff in H as [H1 H2].
    exists p, cl. do 2 (split; [done|]). split; [by apply no_other_call_spec|].
    destruct c; try done; apply andb_true_iff in H2 as [H2 H3];
      (split; [by apply negb_true_iff|by apply negb_true_iff, bool_decide_eq_false in H3]). }
  destruct c; cbn; try done; intros H h' [= <-] || intros H; try (by apply Hgen); try lia.
Qed.

Lemma perform_mstep ok okb e m m' : (forall m c, okb m c = true -> ok m c) ->
  call_allowed okb e m = true -> perform e m = Some m' -> mstep ok m m'.
Proof.
  intros Hok Ha Hp. destruct e as [t c|t|t| | | |p|busy tag]; cbn in Ha, Hp.
  - destruct (calls m !! t) eqn:Ht; [done|].
    destruct (call_begins c (mem m) (others m)) as [[s o]|] eqn:Hb; [|done]. injection Hp as <-.
    apply m_begin; auto.
  - destruct (calls m !! t) as [[c [a|B f k]]|] eqn:Ht; try done.
    destruct (f (mem m)) as [| |[b s]] eqn:Hf; try done. injection Hp as <-. by eapply m_call.
  - destruct (calls m !! t) as [[c [a|B f k]]|] eqn:Ht; try done.
    injection Hp as <-. by eapply m_return.
  - destruct (worker m) eqn:Hw; [done|]. destruct (work_list (mem m)) as [|i l] eqn:Hl; [done|].
    injection Hp as <-. by apply m_work_begin.
  - destruct (worker m) as [[a|B f k]|] eqn:Hw; try done.
    destruct (f (mem m)) as [| |[b s]] eqn:Hf; try done. injection Hp as <-. by eapply m_work.
  - destruct (worker m) as [[a|B f k]|] eqn:Hw; try done. injection Hp as <-. by eapply m_work_end.
  - destruct (list_find _ _) as [[i q]|] eqn:Hf; [|done]. injection Hp as <-.
    apply list_find_Some in Hf as (Hi&->&_). apply m_timer. by rewrite take_drop_middle.
  - injection Hp as <-. apply m_hardware.
Qed.

Lemma schedule_reaches ok okb l : (forall m c, okb m c = true -> ok m c) ->
  forall m m', schedule okb l m = Some m' -> rtc (mstep ok) m m'.
Proof.
  intros Hok. induction l as [|e l IH]; cbn; intros m m' H; [by injection H as <-|].
  destruct (call_allowed okb e m) eqn:Ha; [|done]. destruct (perform e m) as [m1|] eqn:Hp; [|done].
  eapply rtc_l; [by eapply perform_mstep|by apply IH].
Qed.
End Machine.
