(* ===== verification/PmInv.v ===== *)
(** * The power manager's invariant

    Ghost state records, for every running thread, the clock vote it holds on
    its way between the counter and a client ([gcr]), the phase of the call
    that is made for a client ([gop]) and of the work being executed ([gwk]),
    and the phase of the holder of the clock mutex ([gmx]), and which thread has seen
    that its vote is the only one ([gclaim]).  [pm_inv] says that
    the counter is the sum of the votes, and that the state of each client fits
    its queued work, its timer, its completion and what is done for it
    ([client_ok]). *)
From stdpp Require Import functions.
From S2P Require Import Prelude RecordUpdate Interleave PmData PmOps.

(** Phases of the work of a client: the activation before its critical section,
    between it and the completion, after that; the deferred deactivation before
    its critical section and after it. *)
Inductive work_kind := WPre | WCompl | WTail | TPre | TTail.
#[export] Instance work_kind_eq_dec : EqDecision work_kind.
Proof. solve_decision. Defined.

(** Phases of a call for a client, and of the work queue. *)
Inductive phase :=
  | PIdle
  | OStart      (* an activation, which finds the client at rest *)
  | OSync       (* [ipa_pm_activate_sync] votes, the client in progress *)
  | OCancelled  (* [ipa_pm_deactivate_sync] after the first cancel *)
  | OWait       (* ... waits for an activation to end *)
  | OQuiet      (* ... knows that no activation is in progress *)
  | ODebit      (* ... gives the vote back *)
  | ODone       (* ... has deactivated the client *)
  | Working (k : work_kind) (p : Z).
#[export] Instance phase_eq_dec : EqDecision phase.
Proof. solve_decision. Defined.

(** The holder of the mutex knows nothing, that the counter is zero, and that
    moreover the clocks are on. *)
Inductive mutex_phase := MHeld | MZero | MZeroOn.
#[export] Instance mutex_phase_eq_dec : EqDecision mutex_phase.
Proof. solve_decision. Defined.

(** Threads: the calls, and [None] for the work queue. *)
Abbreviation thread := (option nat).

Record ghost := {
  gop : Z -> phase;
  gwk : phase;
  gvot : gset Z;
  gcr : gset thread;
  gmx : option (thread * mutex_phase);
  gclaim : option thread;
  gsc : gset thread;
  gothers : Z;
}.
#[export] Instance eta_ghost : EtaFields ghost := fun w =>
  Build_ghost (gop w) (gwk w) (gvot w) (gcr w) (gmx w) (gclaim w) (gsc w)
    (gothers w).

(** What a thread works for: a client, the work queue, neither. *)
Inductive role := OpRole (p : Z) | WorkRole | FreeRole.

Definition compatible (r r' : role) : Prop :=
  match r, r' with
  | OpRole p, OpRole q => p <> q
  | WorkRole, WorkRole => False
  | _, _ => True
  end.

Record view := {
  v_ph : phase; v_cr : bool; v_mx : option mutex_phase; v_claim : bool; v_sc : bool
}.

Definition role_phase (r : role) (w : ghost) : phase :=
  match r with OpRole p => gop w p | WorkRole => gwk w | FreeRole => PIdle end.
Definition thread_mutex (t : thread) (w : ghost) : option mutex_phase :=
  match gmx w with
  | Some (t', m) => if decide (t' = t) then Some m else None
  | None => None
  end.
Definition gview (r : role) (t : thread) (w : ghost) : view :=
  Build_view (role_phase r w) (bool_decide (t ∈ gcr w)) (thread_mutex t w)
    (bool_decide (gclaim w = Some t)) (bool_decide (t ∈ gsc w)).

(** A step of one thread leaves what the others see alone. *)
Definition guar (r : role) (t : thread) (w w' : ghost) : Prop :=
  gothers w' = gothers w /\
  forall r' t', t' <> t -> compatible r r' -> gview r' t' w' = gview r' t' w.

Lemma guar_refl r t w : guar r t w w.
Proof. done. Qed.
Lemma guar_trans r t w1 w2 w3 : guar r t w1 w2 -> guar r t w2 w3 -> guar r t w1 w3.
Proof. intros [? H1] [? H2]. split; [congruence|]. intros. by rewrite H2, H1. Qed.

Lemma guar_vot r t w X : guar r t w (w <| gvot := X |>).
Proof. done. Qed.
Lemma guar_cr_add r t w : guar r t w (w <| gcr := {[t]} ∪ gcr w |>).
Proof.
  split; [done|]. intros r' t' Ht _. unfold gview. cbn. f_equal. apply bool_decide_ext. set_solver.
Qed.
Lemma guar_cr_del r t w : guar r t w (w <| gcr := gcr w ∖ {[t]} |>).
Proof.
  split; [done|]. intros r' t' Ht _. unfold gview. cbn. f_equal. apply bool_decide_ext. set_solver.
Qed.
Lemma guar_sc r t w : guar r t w (w <| gsc := {[t]} ∪ gsc w |>).
Proof.
  split; [done|]. intros r' t' Ht _. unfold gview. cbn. f_equal. apply bool_decide_ext. set_solver.
Qed.
Lemma guar_op p t w ph : guar (OpRole p) t w (w <| gop := <[p:=ph]> (gop w) |>).
Proof.
  split; [done|]. intros r' t' Ht Hc. unfold gview. f_equal.
  destruct r' as [q| |]; [|done|done]. cbn in *. by rewrite fn_lookup_insert_ne.
Qed.
Lemma guar_wk t w ph : guar WorkRole t w (w <| gwk := ph |>).
Proof. split; [done|]. intros [q| |] t' Ht Hc; done. Qed.
Lemma guar_mx r t w m :
  (gmx w = None \/ is_Some (thread_mutex t w)) -> guar r t w (w <| gmx := Some (t, m) |>).
Proof.
  intros Hm. split; [done|]. intros r' t' Ht _. unfold gview. f_equal. unfold thread_mutex. cbn.
  rewrite decide_False by done. destruct (gmx w) as [[t'' m']|] eqn:E; [|done].
  destruct (decide (t'' = t')) as [->|]; [|done].
  destruct Hm as [|[x Hx]]; [done|]. unfold thread_mutex in Hx. rewrite E in Hx.
  by rewrite decide_False in Hx.
Qed.
Lemma guar_mx_none r t w : is_Some (thread_mutex t w) -> guar r t w (w <| gmx := None |>).
Proof.
  intros [x Hx]. split; [done|]. intros r' t' Ht _. unfold gview. f_equal. unfold thread_mutex in *.
  cbn. destruct (gmx w) as [[t'' m']|]; [|done]. destruct (decide (t'' = t)) as [->|]; [|done].
  by rewrite decide_False.
Qed.

#[export] Instance eta_view : EtaFields view := fun g =>
  Build_view (v_ph g) (v_cr g) (v_mx g) (v_claim g) (v_sc g).

Lemma view_vot r t w X : gview r t (w <| gvot := X |>) = gview r t w.
Proof. done. Qed.
Lemma view_cr_add r t w : gview r t (w <| gcr := {[t]} ∪ gcr w |>) = gview r t w <| v_cr := true |>.
Proof. unfold gview, update. cbn. f_equal. apply bool_decide_eq_true. set_solver. Qed.
Lemma view_cr_del r t w : gview r t (w <| gcr := gcr w ∖ {[t]} |>) = gview r t w <| v_cr := false |>.
Proof. unfold gview, update. cbn. f_equal. apply bool_decide_eq_false. set_solver. Qed.
Lemma view_sc r t w : gview r t (w <| gsc := {[t]} ∪ gsc w |>) = gview r t w <| v_sc := true |>.
Proof. unfold gview, update. cbn. f_equal. apply bool_decide_eq_true. set_solver. Qed.
Lemma view_op p t w ph :
  gview (OpRole p) t (w <| gop := <[p:=ph]> (gop w) |>) = gview (OpRole p) t w <| v_ph := ph |>.
Proof. unfold gview, update. cbn. by rewrite fn_lookup_insert. Qed.
Lemma view_wk t w ph : gview WorkRole t (w <| gwk := ph |>) = gview WorkRole t w <| v_ph := ph |>.
Proof. done. Qed.
Lemma view_mx r t w m : gview r t (w <| gmx := Some (t, m) |>) = gview r t w <| v_mx := Some m |>.
Proof. unfold gview, thread_mutex, update. cbn. by rewrite decide_True. Qed.
Lemma view_mx_none r t w : gview r t (w <| gmx := None |>) = gview r t w <| v_mx := None |>.
Proof. done. Qed.

Lemma view_credit r t w : v_cr (gview r t w) = true <-> t ∈ gcr w.
Proof. apply bool_decide_eq_true. Qed.
Lemma view_no_credit r t w : v_cr (gview r t w) = false <-> t ∉ gcr w.
Proof. apply bool_decide_eq_false. Qed.
Lemma view_scaled r t w : v_sc (gview r t w) = true <-> t ∈ gsc w.
Proof. apply bool_decide_eq_true. Qed.
Lemma view_mutex r t w m : v_mx (gview r t w) = Some m <-> gmx w = Some (t, m).
Proof.
  unfold gview, thread_mutex. cbn. destruct (gmx w) as [[t' m']|]; [|done].
  destruct (decide (t' = t)) as [->|Hne]; split; congruence.
Qed.

Lemma guar_claim r t w : gclaim w = None -> guar r t w (w <| gclaim := Some t |>).
Proof.
  intros Hn. split; [done|]. intros r' t' Ht _. unfold gview. cbn. f_equal.
  apply bool_decide_ext. rewrite Hn. split; congruence.
Qed.
Lemma guar_unclaim r t w : gclaim w = Some t -> guar r t w (w <| gclaim := None |>).
Proof.
  intros Hn. split; [done|]. intros r' t' Ht _. unfold gview. cbn. f_equal.
  apply bool_decide_ext. rewrite Hn. split; congruence.
Qed.
Lemma view_claim r t w : gview r t (w <| gclaim := Some t |>) = gview r t w <| v_claim := true |>.
Proof. unfold gview, update. cbn. f_equal. by apply bool_decide_eq_true. Qed.
Lemma view_unclaim r t w : gview r t (w <| gclaim := None |>) = gview r t w <| v_claim := false |>.
Proof. done. Qed.
Lemma view_claimed r t w : v_claim (gview r t w) = true <-> gclaim w = Some t.
Proof. apply bool_decide_eq_true. Qed.
Lemma view_unclaimed r t w : v_claim (gview r t w) = false <-> gclaim w <> Some t.
Proof. apply bool_decide_eq_false. Qed.

(** ** The clocks *)

Definition b2z (b : bool) : Z := if b then 1 else 0.
Definition owed (c : clk_state) : Z :=
  b2z (tag_work c) + b2z (dec_clients_work c) + b2z (dec_suspend_work c).

(** The clocks are on; outside the regular modes there is nothing to switch. *)
Definition clock_up {C : pm_config} (c : clk_state) : Prop :=
  ipa_clk_vote c = 1 /\ (IPA_IS_REGULAR_CLK_MODE ipa3_hw_mode = true -> clk_on c = true).

Record clk_inv {C : pm_config} (w : ghost) (c : clk_state) : Prop := {
  ci_others : 0 <= gothers w;
  ci_count : cnt c = gothers w + owed c + Z.of_nat (size (gvot w)) + Z.of_nat (size (gcr w));
  ci_clock : 0 < cnt c -> clock_up c;
  ci_mode : IPA_IS_REGULAR_CLK_MODE ipa3_hw_mode = true \/ ipa_clk_vote c = 1;
  ci_mutex : clk_mutex c = bool_decide (is_Some (gmx w));
  ci_zero : forall t m, gmx w = Some (t, m) -> m <> MHeld -> cnt c = 0;
  ci_on : forall t, gmx w = Some (t, MZeroOn) -> clock_up c;
  ci_claim : forall t, gclaim w = Some t ->
    t ∈ gcr w /\ tag_work c = false /\ dec_clients_work c = false;
}.

(** ** Clients *)

Definition timer_state (st : ipa_pm_state) : bool :=
  match st with
  | IPA_PM_ACTIVATED_PENDING_DEACTIVATION | IPA_PM_ACTIVATED_TIMER_SET
  | IPA_PM_ACTIVATED_PENDING_RESCHEDULE => true
  | _ => false
  end.
Definition is_phase (x y : phase) : bool := bool_decide (x = y).
Definition is_work (wk : option work_kind) (k : work_kind) : bool := bool_decide (wk = Some k).
Definition cancelled (op : phase) : bool :=
  is_phase op OCancelled || is_phase op OWait || is_phase op OQuiet || is_phase op ODebit
  || is_phase op ODone.

(** Is the activation work of a client to be executed ([pa], [wk])? its deferred
    deactivation ([pd], [wk])? *)
Definition client_ok (st : ipa_pm_state) (completed pa pd : bool)
    (wk : option work_kind) (op : phase) : bool :=
  let activation := pa || is_work wk WPre in
  let timed := pd || is_work wk TPre in
  Bool.eqb (IPA_PM_STATE_IN_PROGRESS st && negb (is_phase op OSync)) activation
  && negb (pa && is_work wk WPre)
  && implb (is_phase op OSync) (bool_decide (st = IPA_PM_ACTIVATE_IN_PROGRESS))
  && implb activation (negb completed)
  && implb (is_phase op OWait) (completed || activation || is_work wk WCompl)
  && implb (is_work wk WCompl) (negb (IPA_PM_STATE_IN_PROGRESS st))
  && negb (pd && is_work wk TPre)
  && implb timed (timer_state st)
  && implb (timer_state st && negb (cancelled op)) timed
  && implb (cancelled op) (negb timed)
  && implb (is_phase op OQuiet || is_phase op ODebit) (negb (IPA_PM_STATE_IN_PROGRESS st))
  && implb (is_phase op ODebit) (IPA_PM_STATE_ACTIVE st)
  && implb (is_phase op ODone) (bool_decide (st = IPA_PM_DEACTIVATED))
  && implb (is_phase op OStart)
       (negb (IPA_PM_STATE_IN_PROGRESS st || is_work wk WPre || is_work wk WCompl)).

(** The client's vote is counted for itself. *)
Definition voting (c : ipa_pm_client) (op : phase) : bool :=
  negb (skip_clk_vote c) && IPA_PM_STATE_ACTIVE (state c) && negb (is_phase op ODebit).

Definition activation_queued (s : pm) (p : Z) : bool := bool_decide (ActivateWork p ∈ work_list s).
Definition executed_client (s : pm) : option Z :=
  match running s with
  | Some (ActivateWork p) | Some (DeactivateWork p) => Some p
  | _ => None
  end.
Definition work_phase (w : ghost) (p : Z) : option work_kind :=
  match gwk w with Working k q => if bool_decide (q = p) then Some k else None | _ => None end.

Definition run_ok (r : option work_item) (wk : phase) : Prop :=
  match r with
  | Some (ActivateWork p) => wk = Working WPre p \/ wk = Working WCompl p \/ wk = Working WTail p
  | Some (DeactivateWork p) => wk = Working TPre p \/ wk = Working TTail p
  | _ => wk = PIdle
  end.

Record clients_inv (w : ghost) (s : pm) : Prop := {
  cl_vote p : p ∈ gvot w <-> exists c, heap s !! p = Some c /\ voting c (gop w p) = true;
  cl_ok p c : heap s !! p = Some c ->
    client_ok (state c) (completion c) (activation_queued s p) (delayed_work_pending s p)
      (work_phase w p) (gop w p) = true;
  cl_live p : activation_queued s p || delayed_work_pending s p = true \/ executed_client s = Some p ->
    is_Some (heap s !! p);
  cl_run : run_ok (running s) (gwk w);
  cl_queue : NoDup (work_list s);
  cl_timers : NoDup (timers s);
  cl_pending p : p ∈ timers s -> DeactivateWork p ∉ work_list s;
  cl_warned : warned s = false;
}.

(** ** The shape of the data *)

Record exception_shape (n : Z) (e : ipa_pm_exception_list) : Prop := {
  es_bits : lengthZ (ex_bitmask e) = 2;
  es_thresholds : n <= lengthZ (ex_threshold e);
}.

Record scaling_shape (d : clk_scaling_db) : Prop := {
  ss_bits : lengthZ (active_client_bitmask d) = 2;
  ss_default : threshold_size d <= lengthZ (default_threshold d);
  ss_exceptions : exception_size d <= lengthZ (exception_list d);
  ss_exception i e : (exception_list d).[i] = Some e -> exception_shape (threshold_size d) e;
  ss_current j : current_threshold d = ExceptionThreshold j -> 0 <= j < lengthZ (exception_list d);
}.

Record pm_shape (s : pm) : Prop := {
  sh_context : ctx_allocated s = true;
  sh_clients : lengthZ (clients s) = IPA_PM_MAX_CLIENTS;
  sh_client h p : (clients s).[h] = Some p -> p = NULL_CLIENT \/
    exists c, heap s !! p = Some c /\ hdl c = h;
  sh_null : heap s !! NULL_CLIENT = None;
  sh_hdl p c : heap s !! p = Some c -> 0 <= hdl c < IPA_PM_MAX_CLIENTS;
  sh_groups : lengthZ (group_tput s) = 3;
  sh_scaling : scaling_shape (clk_scaling s);
}.

(** What does not change while no client registers: the number of thresholds,
    the clients with their handles, and which of them do not vote. *)
Class pm_constants := {
  nthresholds : Z;
  handles : list Z;
  live : gset Z;
  skips : Z -> bool;
}.

Record pm_inv {C : pm_config} {N : pm_constants} (w : ghost) (s : pm) : Prop := {
  pi_clk : clk_inv w (clk s);
  pi_clients : clients_inv w s;
  pi_shape : pm_shape s;
  pi_size : threshold_size (clk_scaling s) = nthresholds;
  pi_handles : clients s = handles;
  pi_live : dom (heap s) = live;
  pi_skips p c : heap s !! p = Some c -> skip_clk_vote c = skips p;
  pi_scaled : gsc w <> ∅ -> current_threshold (clk_scaling s) <> NullThreshold;
}.

(** Why a thread has to wait: another thread holds the mutex of the clocks, the
    activation of its client has not completed, the deferred deactivation of its
    client is being executed. *)
Definition pm_waits (r : role) (g : view) (s : pm) : Prop :=
  v_mx g = None /\
  (clk_mutex (clk s) = true \/
   exists p, r = OpRole p /\
     (running s = Some (DeactivateWork p) \/
      v_ph g = OWait /\ exists c, heap s !! p = Some c /\ completion c = false)).

(** ** Clients that are not concerned *)

(** A change of the client at [p] and of what is to be done for it. *)
Lemma clients_inv_change w s w' s' p c c' :
  clients_inv w s -> heap s !! p = Some c -> heap s' = <[p := c']> (heap s) ->
  running s' = running s -> run_ok (running s) (gwk w') -> warned s' = false ->
  NoDup (work_list s') -> NoDup (timers s') ->
  (p ∈ timers s' -> DeactivateWork p ∉ work_list s') ->
  (forall q, q <> p -> gop w' q = gop w q /\ (q ∈ gvot w' <-> q ∈ gvot w) /\
     (ActivateWork q ∈ work_list s' <-> ActivateWork q ∈ work_list s) /\
     (DeactivateWork q ∈ work_list s' <-> DeactivateWork q ∈ work_list s) /\
     (q ∈ timers s' <-> q ∈ timers s)) ->
  (forall q, q <> p -> work_phase w' q = work_phase w q) ->
  (p ∈ gvot w' <-> voting c' (gop w' p) = true) ->
  client_ok (state c') (completion c') (activation_queued s' p) (delayed_work_pending s' p)
    (work_phase w' p) (gop w' p) = true ->
  clients_inv w' s'.
Proof.
  intros [V O L R Q T P W] Hp Hh Hr Hrun Hw HQ HT HP Hq Hwk Hvot Hok.
  assert (Hpa : forall q, q <> p -> activation_queued s' q = activation_queued s q).
  { intros q Hne. apply bool_decide_ext. by destruct (Hq q Hne) as (_&_&?&_). }
  assert (Hpd : forall q, q <> p -> delayed_work_pending s' q = delayed_work_pending s q).
  { intros q Hne. destruct (Hq q Hne) as (_&_&_&?&?). unfold delayed_work_pending.
    f_equal; by apply bool_decide_ext. }
  assert (Hex : executed_client s' = executed_client s) by (unfold executed_client; by rewrite Hr).
  split; try done.
  - intros q. rewrite Hh. destruct (decide (q = p)) as [->|Hne].
    + rewrite Hvot, lookup_insert_eq. split; [by eauto|]. by intros (?&[= <-]&?).
    + rewrite lookup_insert_ne by done. destruct (Hq q Hne) as (->&->&_). apply V.
  - intros q d. rewrite Hh. destruct (decide (q = p)) as [->|Hne].
    + rewrite lookup_insert_eq. by intros [= <-].
    + rewrite lookup_insert_ne by done. intros Hd.
      rewrite Hpa, Hpd, Hwk, (proj1 (Hq q Hne)) by done. by apply O.
  - intros q. rewrite Hh. destruct (decide (q = p)) as [->|Hne].
    + rewrite lookup_insert_eq. by eauto.
    + rewrite lookup_insert_ne, Hpa, Hpd, Hex by done. apply L.
  - by rewrite Hr.
  - intros q Hin. destruct (decide (q = p)) as [->|Hne]; [by apply HP|].
    destruct (Hq q Hne) as (_&_&_&->&Ht). apply P. by apply Ht.
Qed.

(** A change of nothing that clients depend on. *)
Lemma clients_inv_frame w s w' s' :
  clients_inv w s -> gop w' = gop w -> gwk w' = gwk w -> gvot w' = gvot w ->
  heap s' = heap s -> running s' = running s -> warned s' = warned s -> timers s' = timers s ->
  NoDup (work_list s') ->
  (forall q, (ActivateWork q ∈ work_list s' <-> ActivateWork q ∈ work_list s) /\
             (DeactivateWork q ∈ work_list s' <-> DeactivateWork q ∈ work_list s)) ->
  clients_inv w' s'.
Proof.
  intros [V O L R Q T P W] Hgo Hgw Hgv Hh Hr Hwa Ht HQ Hq.
  assert (Hpa : forall q, activation_queued s' q = activation_queued s q).
  { intros q. apply bool_decide_ext, Hq. }
  assert (Hpd : forall q, delayed_work_pending s' q = delayed_work_pending s q).
  { intros q. unfold delayed_work_pending. rewrite Ht. f_equal. apply bool_decide_ext, Hq. }
  assert (Hex : executed_client s' = executed_client s) by (unfold executed_client; by rewrite Hr).
  split; rewrite ?Hh, ?Hr, ?Hwa, ?Ht, ?Hgw, ?Hgv; try done.
  - intros p. rewrite Hgo. apply V.
  - intros p c Hp. unfold work_phase. rewrite Hpa, Hpd, Hgo, Hgw. by apply O.
  - intros p. rewrite Hpa, Hpd, Hex. apply L.
  - intros p Hin. destruct (Hq p) as [_ ->]. by apply P.
Qed.
