(* ===== verification/PmScale.v ===== *)
(** * The power manager: throughput, thresholds and exceptions

    The throughput algorithm is total and computes [aggregates], a relation on
    multisets: the two largest demands are replaced by their difference, the
    smaller of them being added to the aggregate.

    [do_clk_scaling] run alone selects the thresholds of the first exception
    that applies, and the clock plan by the number of thresholds the throughput
    reaches; an exception applies to clients one of whose names is the whole
    use case. *)
From S2P Require Import Prelude RecordUpdate Interleave PmData PmOps PmInv PmMach.

(** ** Popping the maximum *)

Lemma max_loop_spec arr k i mx idx :
  0 <= i -> i + Z.of_nat k <= lengthZ arr ->
  exists mx' idx', max_loop arr i k mx idx = Some (mx', idx') /\ mx <= mx' /\
    (forall j x, i <= j < i + Z.of_nat k -> arr.[j] = Some x -> x <= mx') /\
    (mx' = mx /\ idx' = idx \/ i <= idx' < i + Z.of_nat k /\ arr.[idx'] = Some mx').
Proof.
  revert i mx idx. induction k as [|k IH]; intros i mx idx Hi Hk; cbn [max_loop].
  { exists mx, idx. split; [done|]. split; [lia|]. split; [lia|by left]. }
  destruct (lookupZ_in_range arr i) as [x Hx]; [lia|]. rewrite Hx. cbn [mbind option_bind].
  assert (Hj : forall mx' j y, (forall j y, i + 1 <= j < i + 1 + Z.of_nat k -> arr.[j] = Some y -> y <= mx') ->
    x <= mx' -> i <= j < i + Z.of_nat (S k) -> arr.[j] = Some y -> y <= mx').
  { intros mx' j y H Hle Hr Hy. destruct (decide (j = i)) as [->|]; [congruence|].
    apply (H j y); [lia|done]. }
  destruct (Z.ltb_spec mx x) as [Hlt|Hge].
  - destruct (IH (i + 1) x i) as (mx'&idx'&->&Hle&Hall&Hor); [lia|lia|].
    exists mx', idx'. split; [done|]. split; [lia|]. split; [intros j y; by apply Hj|].
    right. destruct Hor as [[-> ->]|[? ?]]; [split; [lia|done]|split; [lia|done]].
  - destruct (IH (i + 1) mx idx) as (mx'&idx'&->&Hle&Hall&Hor); [lia|lia|].
    exists mx', idx'. split; [done|]. split; [lia|]. split; [intros j y; apply Hj; [done|lia]|].
    destruct Hor as [?|[? ?]]; [by left|right; split; [lia|done]].
Qed.

Definition prefix_of_size (arr : list Z) (n : Z) : list Z := take (Z.to_nat n) arr.

Lemma prefix_snoc arr n x : 0 < n -> arr.[n - 1] = Some x ->
  prefix_of_size arr n = prefix_of_size arr (n - 1) ++ [x].
Proof.
  intros Hn Hx. unfold prefix_of_size, lookupZ in *. rewrite decide_True in Hx by lia.
  replace (Z.to_nat n) with (S (Z.to_nat (n - 1))) by lia. by apply take_S_r.
Qed.

Lemma prefix_length arr n : 0 <= n <= lengthZ arr -> length (prefix_of_size arr n) = Z.to_nat n.
Proof. unfold prefix_of_size, lengthZ. intros. rewrite length_take. lia. Qed.

Lemma prefix_store_beyond arr n i x : n <= i -> prefix_of_size arr.[i <- x] n = prefix_of_size arr n.
Proof.
  intros Hi. unfold prefix_of_size, updateZ. destruct (decide (0 <= i)); [|done].
  rewrite take_insert_ge by lia. done.
Qed.

(** Popping is total and keeps the size of the array. *)
Lemma pop_max_total arr n : 0 <= n <= lengthZ arr ->
  exists m arr', pop_max_from_array arr n = Some (m, arr', Z.max 0 (n - 1)) /\
    lengthZ arr' = lengthZ arr.
Proof.
  intros Hn. unfold pop_max_from_array. destruct (Z.eqb_spec n 0) as [->|Hne].
  { exists 0, arr. done. }
  destruct (max_loop_spec arr (Z.to_nat n) 0 0 (n - 1)) as (m&idx&->&_&_&Hor); [lia|lia|].
  cbn [mbind option_bind]. destruct (lookupZ_in_range arr (n - 1)) as [x ->]; [lia|].
  cbn [mbind option_bind]. rewrite storeZ_Some by (destruct Hor as [[_ ->]|[? _]]; lia).
  cbn [mbind option_bind]. exists m, arr.[idx <- x]. split; [by rewrite Z.max_r by lia|].
  apply lengthZ_updateZ.
Qed.

Lemma perm_replace_last {A} (l : list A) (i : nat) m x :
  l !! i = Some m -> l ++ [x] ≡ₚ m :: <[i := x]> l.
Proof.
  intros Hi. pose proof (take_drop_middle l i m Hi) as E.
  rewrite insert_take_drop by (by apply lookup_lt_Some in Hi). rewrite <- E at 1. solve_Permutation.
Qed.

(** Among demands that are not negative it removes the largest. *)
Lemma pop_max_spec arr n :
  0 < n <= lengthZ arr -> Forall (fun x => 0 <= x) (prefix_of_size arr n) ->
  exists m arr', pop_max_from_array arr n = Some (m, arr', n - 1) /\
    lengthZ arr' = lengthZ arr /\ prefix_of_size arr n ≡ₚ m :: prefix_of_size arr' (n - 1) /\
    Forall (fun x => x <= m) (prefix_of_size arr n).
Proof.
  intros Hn Hpos. unfold pop_max_from_array. rewrite (proj2 (Z.eqb_neq n 0)) by lia.
  destruct (max_loop_spec arr (Z.to_nat n) 0 0 (n - 1)) as (m&idx&->&Hm&Hall&Hor); [lia|lia|].
  cbn [mbind option_bind]. destruct (lookupZ_in_range arr (n - 1)) as [x Hx]; [lia|].
  rewrite Hx. cbn [mbind option_bind].
  assert (Hle : Forall (fun y => y <= m) (prefix_of_size arr n)).
  { apply Forall_lookup. intros j y Hy. unfold prefix_of_size in Hy.
    apply lookup_take_Some in Hy as [Hy Hj]. apply (Hall (Z.of_nat j)); [lia|].
    unfold lookupZ. rewrite decide_True by lia. by rewrite Nat2Z.id. }
  assert (Hsn : prefix_of_size arr n = prefix_of_size arr (n - 1) ++ [x])
    by (apply prefix_snoc; [lia|done]).
  assert (Hidx : 0 <= idx < n /\ arr.[idx] = Some m).
  { destruct Hor as [[-> ->]|[? ?]]; [|split; [lia|done]]. split; [lia|]. rewrite Hx. f_equal.
    assert (Hin : x ∈ prefix_of_size arr n) by (rewrite Hsn; set_solver).
    rewrite Forall_forall in Hpos, Hle. specialize (Hpos x Hin). specialize (Hle x Hin). lia. }
  destruct Hidx as [Hidx Hmx]. rewrite storeZ_Some by lia. cbn [mbind option_bind].
  exists m, arr.[idx <- x]. split; [done|]. split; [apply lengthZ_updateZ|]. split; [|done].
  rewrite Hsn. destruct (decide (idx = n - 1)) as [->|Hne].
  - rewrite prefix_store_beyond by lia. rewrite Hx in Hmx. injection Hmx as ->. solve_Permutation.
  - unfold updateZ. rewrite decide_True by lia. unfold prefix_of_size at 2.
    rewrite take_insert_lt by lia. apply perm_replace_last.
    unfold lookupZ in Hmx. rewrite decide_True in Hmx by lia.
    unfold prefix_of_size. apply lookup_take_Some. split; [done|lia].
Qed.

(** ** The algorithm on multisets *)

Inductive aggregates : list Z -> Z -> Z -> Prop :=
  | agg_nil : aggregates [] 0 0
  | agg_one x : aggregates [x] 0 x
  | agg_step l m1 m2 l' a r :
      l ≡ₚ m1 :: m2 :: l' -> Forall (fun x => x <= m1) l -> Forall (fun x => x <= m2) (m2 :: l') ->
      aggregates (m1 - m2 :: l') a r -> aggregates l (m2 + a) r.

Definition sumZ (l : list Z) : Z := foldr Z.add 0 l.
#[global] Instance sumZ_perm : Proper ((≡ₚ) ==> eq) sumZ.
Proof. unfold sumZ. intros l1 l2 H. induction H; cbn; lia. Qed.

Lemma aggregates_perm l a r : aggregates l a r -> forall l2, l ≡ₚ l2 -> aggregates l2 a r.
Proof.
  destruct 1 as [|x|l m1 m2 l' a r Hp H1 H2 Ha]; intros l2 Hl.
  - apply Permutation_nil in Hl as ->. constructor.
  - apply Permutation_singleton_l in Hl as <-. constructor.
  - econstructor; [by rewrite <- Hl|by rewrite <- Hl|exact H2|exact Ha].
Qed.

(** The aggregate does not depend on the order in which the clients come. *)
Lemma aggregates_unique l a r : aggregates l a r ->
  forall l2 a2 r2, aggregates l2 a2 r2 -> l ≡ₚ l2 -> a = a2 /\ r = r2.
Proof.
  induction 1 as [|x|l m1 m2 l' a r Hp H1 H2 Ha IH]; intros l2 a2 r2 H Hl.
  - apply Permutation_nil in Hl as ->. inversion H as [| |? ? ? ? ? ? Hp']; [done|].
    by apply Permutation_nil_cons in Hp'.
  - apply Permutation_singleton_l in Hl as <-. inversion H as [| |? ? ? ? ? ? Hp']; [done|].
    apply Permutation_length in Hp'. done.
  - destruct H as [|y|l2 n1 n2 k b s Hq G1 G2 Hb].
    + symmetry in Hl. apply Permutation_nil in Hl as ->. by apply Permutation_nil_cons in Hp.
    + symmetry in Hl. apply Permutation_singleton_l in Hl as <-. apply Permutation_length in Hp. done.
    + assert (Hm1 : m1 = n1).
      { rewrite Forall_forall in H1, G1. apply Z.le_antisymm.
        - apply G1. rewrite <- Hl, Hp. set_solver.
        - apply H1. rewrite Hl, Hq. set_solver. }
      subst n1. assert (Hp2 : m2 :: l' ≡ₚ n2 :: k).
      { apply (Permutation_cons_inv (a:=m1)). by rewrite <- Hp, <- Hq. }
      assert (Hm2 : m2 = n2).
      { rewrite Forall_forall in H2, G2. apply Z.le_antisymm.
        - apply G2. rewrite <- Hp2. set_solver.
        - apply H2. rewrite Hp2. set_solver. }
      subst n2. apply Permutation_cons_inv in Hp2.
      destruct (IH _ _ _ Hb) as [-> ->]; [by constructor|done].
Qed.

(** Twice the aggregate and what is left of one demand are the sum of the
    demands. *)
Lemma aggregates_sum l a r : aggregates l a r -> 2 * a + r = sumZ l.
Proof.
  induction 1 as [|x|l m1 m2 l' a r Hp H1 H2 Ha IH]; cbn in *; [done|lia|].
  rewrite Hp. cbn. unfold sumZ in *. lia.
Qed.

Lemma aggregates_rest l a r : aggregates l a r -> Forall (fun x => 0 <= x) l ->
  0 <= a /\ 0 <= r /\ (forall m, Forall (fun x => x <= m) l -> 0 <= m -> r <= m).
Proof.
  induction 1 as [|x|l m1 m2 l' a r Hp H1 H2 Ha IH]; intros Hpos.
  - split; [lia|]. split; [lia|]. auto.
  - rewrite Forall_forall in Hpos. specialize (Hpos x ltac:(set_solver)).
    split; [lia|]. split; [lia|]. intros m Hm _. rewrite Forall_forall in Hm. apply Hm. set_solver.
  - rewrite Hp in Hpos. apply Forall_cons in Hpos as [P1 Hpos]. apply Forall_cons in Hpos as [P2 Hpos].
    assert (Hm12 : m2 <= m1).
    { rewrite Forall_forall in H1. apply H1. rewrite Hp. set_solver. }
    destruct IH as (Ia&Ir&Im); [constructor; [lia|done]|]. split; [lia|]. split; [done|].
    intros m Hm Hm0. apply Im; [|done]. rewrite Hp in Hm.
    apply Forall_cons in Hm as [? Hm]. apply Forall_cons in Hm as [? Hm]. constructor; [lia|done].
Qed.

(** A client that demands at least as much as all others together: the aggregate
    is what the others demand. *)
Lemma aggregates_dominant m l a r : aggregates (m :: l) a r -> Forall (fun x => 0 <= x) l ->
  sumZ l <= m -> a = sumZ l.
Proof.
  intros H. remember (m :: l) as k eqn:E. assert (Hk : k ≡ₚ m :: l) by (by rewrite E). clear E.
  revert m l Hk. induction H as [|x|k m1 m2 l' a r Hp H1 H2 Ha IH]; intros m l Hk Hpos Hm.
  - by apply Permutation_nil_cons in Hk.
  - symmetry in Hk. assert (l = []) as ->.
    { apply Permutation_length in Hk. by destruct l. } done.
  - assert (Hsum0 : forall l0, Forall (fun x => 0 <= x) l0 -> 0 <= sumZ l0).
    { intros l0. induction 1; cbn; [done|]. unfold sumZ in *. lia. }
    assert (Hmax : m = m1).
    { rewrite Forall_forall in H1. assert (m ∈ k) by (rewrite Hk; set_solver).
      assert (Hin : m1 ∈ m :: l) by (rewrite <- Hk, Hp; set_solver).
      apply elem_of_cons in Hin as [->|Hin]; [done|]. apply Z.le_antisymm; [by apply H1|].
      apply elem_of_Permutation in Hin as [l0 Hl0]. rewrite Hl0 in Hpos, Hm.
      apply Forall_cons in Hpos as [? Hpos]. specialize (Hsum0 l0 Hpos). cbn in Hm. unfold sumZ in *. lia. }
    subst m1. assert (Hl : l ≡ₚ m2 :: l').
    { apply (Permutation_cons_inv (a:=m)). by rewrite <- Hk, <- Hp. }
    rewrite Hl in Hpos, Hm |- *. apply Forall_cons in Hpos as [P2 Hpos]. cbn in *.
    rewrite (IH (m - m2) l'); [done|done|done|]. unfold sumZ in *. lia.
Qed.

Lemma sumZ_nonneg l : Forall (fun x => 0 <= x) l -> 0 <= sumZ l.
Proof. induction 1; cbn; [done|]. unfold sumZ in *. lia. Qed.

(** ** The loop *)

Lemma s32_small x : 0 <= x < 2 ^ 31 -> s32 x = x.
Proof. intros. unfold s32. rewrite Z.mod_small by lia. lia. Qed.

(** It is total, whatever the numbers, *)
Lemma tput_loop_total k : forall arr n agg, 0 <= n <= lengthZ arr -> n <= Z.of_nat k ->
  is_Some (tput_loop arr n (S k) agg).
Proof.
  induction k as [|k IH]; intros arr n agg Hn Hk.
  { cbn [tput_loop]. rewrite (proj2 (Z.leb_le n 1)) by lia. by eauto. }
  remember (S k) as k'. cbn [tput_loop]. destruct (Z.leb_spec n 1); [by eauto|]. subst k'.
  destruct (pop_max_total arr n) as (m1&a1&->&L1); [done|]. cbn [mbind option_bind].
  rewrite Z.max_r by lia. destruct (pop_max_total a1 (n - 1)) as (m2&a2&->&L2); [lia|].
  cbn [mbind option_bind]. rewrite Z.max_r by lia. rewrite storeZ_Some by lia.
  cbn [mbind option_bind]. apply IH; [rewrite lengthZ_updateZ; lia|lia].
Qed.

(** and without overflow it computes the aggregate. *)
Lemma tput_loop_spec k : forall arr n agg, 0 <= n <= lengthZ arr -> n <= Z.of_nat k ->
  Forall (fun x => 0 <= x) (prefix_of_size arr n) -> 0 <= agg ->
  agg + sumZ (prefix_of_size arr n) < 2 ^ 31 ->
  exists a r, tput_loop arr n (S k) agg = Some (agg + a) /\
    aggregates (prefix_of_size arr n) a r.
Proof.
  induction k as [|k IH]; intros arr n agg Hn Hk Hpos Hagg Hsum.
  { assert (n = 0) as -> by lia. exists 0, 0. split; [cbn; f_equal; lia|constructor]. }
  remember (S k) as k'. cbn [tput_loop]. destruct (Z.leb_spec n 1) as [H1|H1].
  { exists 0. destruct (decide (n = 0)) as [->|].
    { exists 0. split; [f_equal; lia|constructor]. }
    assert (n = 1) as -> by lia. destruct (lookupZ_in_range arr 0) as [x Hx]; [lia|].
    exists x. split; [f_equal; lia|]. rewrite (prefix_snoc arr 1 x) by done. constructor. }
  subst k'. destruct (pop_max_spec arr n) as (m1&a1&->&L1&P1&M1); [lia|done|].
  cbn [mbind option_bind]. rewrite P1 in Hpos, Hsum. apply Forall_cons in Hpos as [N1 Hpos].
  destruct (pop_max_spec a1 (n - 1)) as (m2&a2&->&L2&P2&M2); [lia|done|].
  cbn [mbind option_bind]. rewrite P2 in Hpos, Hsum. apply Forall_cons in Hpos as [N2 Hpos].
  pose proof (sumZ_nonneg _ Hpos) as Hs0.
  assert (Hm : m2 <= m1).
  { rewrite Forall_forall in M1. apply M1. rewrite P1, P2. set_solver. }
  replace (n - 1 - 1) with (n - 2) in * by lia.
  unfold sumZ in Hsum, Hs0. cbn [foldr] in Hsum. fold (sumZ (prefix_of_size a2 (n - 2))) in *.
  rewrite storeZ_Some by lia. cbn [mbind option_bind]. rewrite !s32_small by lia.
  set (arr' := a2.[n - 2 <- m1 - m2]).
  assert (Hpre : prefix_of_size arr' (n - 2 + 1) = prefix_of_size a2 (n - 2) ++ [m1 - m2]).
  { rewrite (prefix_snoc arr' (n - 2 + 1) (m1 - m2)); [|lia|].
    - replace (n - 2 + 1 - 1) with (n - 2) by lia. unfold arr'. by rewrite prefix_store_beyond.
    - replace (n - 2 + 1 - 1) with (n - 2) by lia. apply lookupZ_updateZ_eq. lia. }
  assert (Hperm : m1 - m2 :: prefix_of_size a2 (n - 2) ≡ₚ prefix_of_size arr' (n - 2 + 1))
    by (rewrite Hpre; solve_Permutation).
  destruct (IH arr' (n - 2 + 1) (agg + m2)) as (a&r&->&Ha).
  - unfold arr'. rewrite lengthZ_updateZ. lia.
  - lia.
  - rewrite <- Hperm. constructor; [lia|done].
  - lia.
  - rewrite <- Hperm. cbn. unfold sumZ in *. lia.
  - exists (m2 + a), r. split; [f_equal; lia|].
    econstructor; [by rewrite P1, P2|done| |].
    + rewrite <- P2. exact M2.
    + by eapply aggregates_perm.
Qed.

(** ** The demands of the active clients *)

Definition object_at (s : pm) (h : Z) : option ipa_pm_client := p ← client_at s h; get_client s p.
Definition group_demand (s : pm) (g : ipa_pm_group) : Z :=
  default 0 (group_tput s).[group_index g].

(** The clients with handles from [i] on: each active one of the default group,
    each other group with an active client once. *)
Fixpoint demands (s : pm) (i : Z) (k : nat) (voted : list ipa_pm_group) : list Z :=
  match k with
  | O => []
  | S k =>
      match object_at s i with
      | Some c =>
          if negb (IPA_PM_STATE_ACTIVE (state c)) then demands s (i + 1) k voted
          else if bool_decide (group c = IPA_PM_GROUP_DEFAULT)
          then throughput c :: demands s (i + 1) k voted
          else if bool_decide (group c ∈ voted) then demands s (i + 1) k voted
          else group_demand s (group c) :: demands s (i + 1) k (group c :: voted)
      | None => demands s (i + 1) k voted
      end
  end.
Definition active_demands (s : pm) : list Z := demands s 1 (Z.to_nat (IPA_PM_MAX_CLIENTS - 1)) [].

Lemma group_tput_at s g : lengthZ (group_tput s) = 3 ->
  (group_tput s).[group_index g] = Some (group_demand s g).
Proof.
  intros Hl. unfold group_demand.
  destruct (lookupZ_in_range (group_tput s) (group_index g)) as [x ->]; [destruct g; cbn; lia|done].
Qed.

Lemma store_demand arr n x : 0 <= n < lengthZ arr ->
  storeZ arr n x = Some arr.[n <- x] /\ lengthZ arr.[n <- x] = lengthZ arr /\
  prefix_of_size arr.[n <- x] (n + 1) = prefix_of_size arr n ++ [x].
Proof.
  intros Hn. split; [by apply storeZ_Some|]. split; [apply lengthZ_updateZ|].
  rewrite (prefix_snoc _ (n + 1) x).
  - replace (n + 1 - 1) with n by lia. by rewrite prefix_store_beyond by lia.
  - lia.
  - replace (n + 1 - 1) with n by lia. by apply lookupZ_updateZ_eq.
Qed.

Lemma client_at_shape s h : pm_shape s -> 0 <= h < IPA_PM_MAX_CLIENTS ->
  client_at s h = Some NULL_CLIENT \/
  exists p c, client_at s h = Some p /\ p <> NULL_CLIENT /\ heap s !! p = Some c /\ hdl c = h.
Proof.
  intros [_ Hl Hc Hn _ _ _] Hh. destruct (lookupZ_in_range (clients s) h) as [p Hp]; [lia|].
  unfold client_at. destruct (decide (p = NULL_CLIENT)) as [->|Hne]; [by left|].
  right. destruct (Hc h p Hp) as [|(c&?&?)]; [done|]. exists p, c. auto.
Qed.

Lemma client_tputs_spec s k : pm_shape s -> forall i arr n voted,
  1 <= i -> i + Z.of_nat k <= IPA_PM_MAX_CLIENTS -> lengthZ arr = IPA_PM_MAX_CLIENTS -> 0 <= n < i ->
  exists arr' n', client_tputs s i k arr n voted = Some (arr', n') /\
    lengthZ arr' = IPA_PM_MAX_CLIENTS /\ 0 <= n' < IPA_PM_MAX_CLIENTS /\
    prefix_of_size arr' n' = prefix_of_size arr n ++ demands s i k voted.
Proof.
  intros Hs. assert (Hm : IPA_PM_MAX_CLIENTS = 36) by done.
  induction k as [|k IH]; intros i arr n voted Hi Hk Hl Hn; cbn [client_tputs demands].
  { exists arr, n. rewrite app_nil_r. repeat split; lia. }
  assert (Hskip : forall voted, exists arr' n', client_tputs s (i + 1) k arr n voted = Some (arr', n') /\
    lengthZ arr' = IPA_PM_MAX_CLIENTS /\ 0 <= n' < IPA_PM_MAX_CLIENTS /\
    prefix_of_size arr' n' = prefix_of_size arr n ++ demands s (i + 1) k voted)
    by (intros v; apply IH; lia).
  assert (Hadd : forall voted x, storeZ arr n x = Some arr.[n <- x] /\ exists arr' n',
    client_tputs s (i + 1) k arr.[n <- x] (n + 1) voted = Some (arr', n') /\
    lengthZ arr' = IPA_PM_MAX_CLIENTS /\ 0 <= n' < IPA_PM_MAX_CLIENTS /\
    prefix_of_size arr' n' = prefix_of_size arr n ++ x :: demands s (i + 1) k voted).
  { intros v x. destruct (store_demand arr n x) as (E&E1&E2); [lia|]. split; [done|].
    destruct (IH (i + 1) arr.[n <- x] (n + 1) v) as (a'&n'&?&?&?&E3); [lia|lia|lia|lia|].
    exists a', n'. rewrite E3, E2, <- app_assoc. done. }
  unfold object_at. destruct (client_at_shape s i Hs) as [->|(p&c&->&Hp&Hc&_)]; [lia| |].
  { cbn [mbind option_bind]. unfold get_client. rewrite (sh_null s Hs). apply Hskip. }
  cbn [mbind option_bind]. unfold get_client. rewrite (proj2 (Z.eqb_neq p NULL_CLIENT)) by done.
  rewrite Hc. cbn [mbind option_bind].
  destruct (negb _); [apply Hskip|]. destruct (bool_decide (group c = _)).
  - destruct (Hadd voted (throughput c)) as [-> H]. exact H.
  - destruct (bool_decide (group c ∈ voted)); [apply Hskip|].
    rewrite group_tput_at by apply Hs. cbn [mbind option_bind].
    destruct (Hadd (group c :: voted) (group_demand s (group c))) as [-> H]. exact H.
Qed.

Lemma calculate_throughput_total s : pm_shape s -> is_Some (calculate_throughput s).
Proof.
  intros Hs. unfold calculate_throughput.
  destruct (client_tputs_spec s (Z.to_nat (IPA_PM_MAX_CLIENTS - 1)) Hs 1
    (replicate (Z.to_nat IPA_PM_MAX_CLIENTS) 0) 0 []) as (arr&n&->&Hl&Hn&_); [done..|].
  cbn [mbind option_bind]. rewrite Nat.add_1_r. apply tput_loop_total; lia.
Qed.

Lemma calculate_throughput_spec s : pm_shape s ->
  Forall (fun x => 0 <= x) (active_demands s) -> sumZ (active_demands s) < 2 ^ 31 ->
  exists a r, calculate_throughput s = Some a /\ aggregates (active_demands s) a r.
Proof.
  intros Hs Hpos Hsum. unfold calculate_throughput.
  destruct (client_tputs_spec s (Z.to_nat (IPA_PM_MAX_CLIENTS - 1)) Hs 1
    (replicate (Z.to_nat IPA_PM_MAX_CLIENTS) 0) 0 []) as (arr&n&->&Hl&Hn&Hd); [done..|].
  cbn [mbind option_bind]. rewrite Nat.add_1_r.
  change (prefix_of_size arr n = active_demands s) in Hd. rewrite <- Hd in *.
  destruct (tput_loop_spec (Z.to_nat n) arr n 0) as (a&r&->&Ha); [lia..|done|lia|lia|].
  exists a, r. rewrite Z.add_0_l. done.
Qed.

(** ** Thresholds *)

Lemma reg_idx_range h : 0 <= h < IPA_PM_MAX_CLIENTS -> 0 <= ipahal_get_ep_reg_idx h < 2.
Proof.
  unfold ipahal_get_ep_reg_idx, IPA_PM_MAX_CLIENTS. intros H. rewrite Z.shiftr_div_pow2 by lia.
  change (2 ^ 5) with 32. dlia.
Qed.

Lemma exception_applies_total d e : scaling_shape d -> lengthZ (ex_bitmask e) = 2 ->
  is_Some (exception_applies d e).
Proof.
  intros Hd He. unfold exception_applies.
  destruct (lookupZ_in_range (ex_bitmask e) 0) as [b0 ->]; [lia|].
  destruct (lookupZ_in_range (ex_bitmask e) 1) as [b1 ->]; [lia|].
  pose proof (ss_bits d Hd).
  destruct (lookupZ_in_range (active_client_bitmask d) 0) as [a0 ->]; [lia|].
  destruct (lookupZ_in_range (active_client_bitmask d) 1) as [a1 ->]; [lia|]. by eexists.
Qed.

Lemma find_exception_total d k i : scaling_shape d -> 0 <= i ->
  i + Z.of_nat k <= lengthZ (exception_list d) ->
  find_exception d i k = Some DefaultThreshold \/
  exists j, find_exception d i k = Some (ExceptionThreshold j) /\ i <= j < lengthZ (exception_list d).
Proof.
  intros Hd. revert i. induction k as [|k IH]; intros i Hi Hk; cbn [find_exception]; [by left|].
  destruct (lookupZ_in_range (exception_list d) i) as [e He]; [lia|]. rewrite He.
  cbn [mbind option_bind].
  destruct (exception_applies_total d e Hd) as [b ->]; [by apply (ss_exception d Hd i e He)|].
  cbn [mbind option_bind]. destruct b; [right; exists i; split; [done|lia]|].
  destruct (IH (i + 1)) as [?|(j&?&?)]; [lia..|by left|right; exists j; split; [done|lia]].
Qed.

Lemma set_current_threshold_total s : pm_shape s ->
  exists t, set_current_threshold s = Some (s <| clk_scaling := clk_scaling s
                                              <| current_threshold := t |> |>) /\
    t <> NullThreshold /\ scaling_shape (clk_scaling s <| current_threshold := t |>).
Proof.
  intros Hs. pose proof (sh_scaling s Hs) as Hd. unfold set_current_threshold.
  destruct (find_exception_total (clk_scaling s) (Z.to_nat (exception_size (clk_scaling s))) 0 Hd)
    as [->|(j&->&Hj)]; [lia| | |].
  - pose proof (ss_exceptions _ Hd). unfold lengthZ in *. lia.
  - exists DefaultThreshold. split; [done|]. split; [done|]. by destruct Hd; split.
  - exists (ExceptionThreshold j). split; [done|]. split; [done|]. destruct Hd; split; try done.
    cbn. intros k [= <-]. done.
Qed.

Lemma threshold_at_total d i : scaling_shape d -> current_threshold d <> NullThreshold ->
  0 <= i < threshold_size d -> is_Some (threshold_at d i).
Proof.
  intros Hd Hn Hi. unfold threshold_at. destruct (current_threshold d) as [| |j] eqn:E; [done| |].
  - apply lookupZ_is_Some. pose proof (ss_default d Hd). lia.
  - destruct (lookupZ_in_range (exception_list d) j) as [e He]; [by apply (ss_current d Hd)|].
    rewrite He. cbn [mbind option_bind]. apply lookupZ_is_Some.
    pose proof (es_thresholds _ _ (ss_exception d Hd j e He)). lia.
Qed.

(** The thresholds [current_threshold] points to. *)
Definition current_thresholds (d : clk_scaling_db) : list Z :=
  match current_threshold d with
  | NullThreshold => []
  | DefaultThreshold => default_threshold d
  | ExceptionThreshold j => match (exception_list d).[j] with Some e => ex_threshold e | None => [] end
  end.
Lemma threshold_at_list d i : threshold_at d i = (current_thresholds d).[i].
Proof.
  unfold threshold_at, current_thresholds.
  assert (Hnil : ([] : list Z).[i] = None) by (apply lookupZ_None; unfold lengthZ; cbn; lia).
  destruct (current_threshold d) as [| |j]; [done|done|]. by destruct ((exception_list d).[j]).
Qed.

(** How many thresholds are reached. *)
Definition reached_thresholds (l : list Z) (tput : Z) : Z := lengthZ (filter (fun t => t <= tput) l).
(** One more than that is the clock plan. *)
Definition wanted_plan (d : clk_scaling_db) (tput : Z) : Z :=
  1 + reached_thresholds (take (Z.to_nat (threshold_size d)) (current_thresholds d)) tput.

Lemma wanted_plan_range d tput : 0 <= threshold_size d ->
  1 <= wanted_plan d tput <= 1 + threshold_size d.
Proof.
  intros H. unfold wanted_plan, reached_thresholds, lengthZ.
  pose proof (length_filter (fun t => t <= tput) (take (Z.to_nat (threshold_size d)) (current_thresholds d))) as Hl.
  rewrite length_take in Hl. lia.
Qed.

(** More throughput, no slower clocks. *)
Lemma reached_monotone l t1 t2 : t1 <= t2 -> reached_thresholds l t1 <= reached_thresholds l t2.
Proof.
  intros H. unfold reached_thresholds, lengthZ. induction l as [|x l IH]; [done|].
  rewrite !filter_cons. repeat case_decide; cbn [length]; lia.
Qed.

Section Scaling.
Context {C : pm_config}.

Lemma compare_run s tput : forall k i idx,
  Z.of_nat (i + k) <= lengthZ (current_thresholds (clk_scaling s)) ->
  run (compare_thresholds tput (Z.of_nat i) k idx) s
  = Next (idx + reached_thresholds (take k (drop i (current_thresholds (clk_scaling s)))) tput, s).
Proof.
  induction k as [|k IH]; intros i idx Hk; cbn [compare_thresholds run].
  { by rewrite take_0, Z.add_0_r. }
  destruct (lookupZ_in_range (current_thresholds (clk_scaling s)) (Z.of_nat i)) as [t Ht]; [lia|].
  cbn [prog_bind atomically run]. rewrite threshold_at_list, Ht. cbn [mbind option_bind].
  replace (Z.of_nat i + 1) with (Z.of_nat (S i)) by lia. rewrite IH by lia.
  unfold lookupZ in Ht. rewrite decide_True, Nat2Z.id in Ht by lia.
  rewrite (drop_S _ t i) by done. cbn [take]. unfold reached_thresholds, lengthZ. rewrite filter_cons.
  destruct (Z.leb_spec t tput); case_decide; try lia; cbn [length]; do 2 f_equal; lia.
Qed.

(** What becomes of the clocks when the plan [idx] is to be set. *)
Definition plan_outcome (idx : Z) (c : clk_state) : clk_state :=
  if negb enable_clock_scaling then c <| bus_vote_idx := idx |> else
  if IPA_IS_REGULAR_CLK_MODE ipa3_hw_mode && (1 <=? idx) && (idx <=? 4)
     && negb (plan_rate idx =? curr_ipa_clk_rate c)
  then set_clock_plan idx c else c.

Lemma set_clock_plan_mutex idx c :
  set_clock_plan idx (c <| clk_mutex := true |>) = set_clock_plan idx c <| clk_mutex := true |>.
Proof. unfold set_clock_plan. cbn. repeat case_match; done. Qed.
Lemma unlocked c : clk_mutex c = false -> c <| clk_mutex := true |> <| clk_mutex := false |> = c.
Proof. by destruct c; intros [= ->]. Qed.
Lemma same_clk s : s <| clk := clk s |> = s.
Proof. by destruct s. Qed.

Lemma set_plan_run s idx : clk_mutex (clk s) = false ->
  exists rc, run (ipa3_set_clock_plan_from_pm idx) s = Next (rc, s <| clk := plan_outcome idx (clk s) |>).
Proof.
  intros Hm. unfold ipa3_set_clock_plan_from_pm, plan_outcome.
  destruct (negb enable_clock_scaling); [by exists 0|].
  destruct (IPA_IS_REGULAR_CLK_MODE ipa3_hw_mode); cbn [negb andb]; [|by exists 0; rewrite same_clk].
  destruct (Z.leb_spec idx 0), (Z.leb_spec 5 idx), (Z.leb_spec 1 idx), (Z.leb_spec idx 4); try lia;
    cbn [orb andb run]; try (exists (- EINVAL); by rewrite same_clk).
  cbn [prog_bind reads run]. destruct (_ =? _); cbn [negb run]; [exists 0; by rewrite same_clk|].
  exists 0. cbn [lock_clk unlock_clk upd_clk modifies prog_bind run]. rewrite Hm.
  change (Next (0, s <| clk := set_clock_plan idx (clk s <| clk_mutex := true |>) <| clk_mutex := false |> |>)
          = Next (0, s <| clk := set_clock_plan idx (clk s) |>)).
  rewrite set_clock_plan_mutex, unlocked; [done|]. unfold set_clock_plan. by repeat case_match.
Qed.

(** The thresholds that are selected: those of the first exception that
    applies, or the default ones. *)
Inductive selected (d : clk_scaling_db) : threshold_ptr -> Prop :=
  | selected_exception j e :
      0 <= j < exception_size d -> (exception_list d).[j] = Some e -> exception_applies d e = Some true ->
      (forall i e', 0 <= i < j -> (exception_list d).[i] = Some e' -> exception_applies d e' = Some false) ->
      selected d (ExceptionThreshold j)
  | selected_default :
      (forall i e, 0 <= i < exception_size d -> (exception_list d).[i] = Some e ->
         exception_applies d e = Some false) ->
      selected d DefaultThreshold.

Lemma find_exception_selects d : forall k i th, find_exception d i k = Some th -> 0 <= i ->
  i + Z.of_nat k = exception_size d ->
  (forall j e, 0 <= j < i -> (exception_list d).[j] = Some e -> exception_applies d e = Some false) ->
  selected d th.
Proof.
  induction k as [|k IH]; intros i th; cbn [find_exception].
  - intros [= <-] Hi Hk Hp. apply selected_default. intros j e Hj. apply Hp. lia.
  - destruct ((exception_list d).[i]) as [e|] eqn:E; [|done]. cbn [mbind option_bind].
    destruct (exception_applies d e) as [b|] eqn:Eb; [|done]. cbn [mbind option_bind].
    intros Hf Hi Hk Hp. destruct b.
    + injection Hf as <-. eapply selected_exception; [lia|done..|]. intros j e' Hj. apply Hp. lia.
    + eapply (IH (i + 1)); [done|lia|lia|]. intros j e' Hj He'.
      destruct (decide (j = i)) as [->|]; [congruence|]. apply (Hp j); [lia|done].
Qed.

(** The state after the thresholds have been selected, and after scaling. *)
Definition thresholds_set (s : pm) (tput : Z) (th : threshold_ptr) : pm :=
  s <| aggregated_tput := tput |> <| clk_scaling := clk_scaling s <| current_threshold := th |> |>.
Definition scaled (s : pm) (idx : Z) : pm :=
  if cur_vote (clk_scaling s) =? idx then s else
  s <| clk_scaling := clk_scaling s <| cur_vote := idx |> |> <| clk := plan_outcome idx (clk s) |>.

Lemma thresholds_selected s th s1 : pm_shape s -> set_current_threshold s = Some s1 ->
  s1 = s <| clk_scaling := clk_scaling s <| current_threshold := th |> |> -> 0 <= exception_size (clk_scaling s) ->
  th <> NullThreshold -> selected (clk_scaling s) th.
Proof.
  intros Hs H -> Hn Hth. unfold set_current_threshold in H.
  destruct (find_exception _ _ _) as [th'|] eqn:E; [|done]. cbn [mbind option_bind] in H.
  assert (th' = th) as -> by (injection H; auto).
  eapply find_exception_selects; [exact E|done|lia|]. intros j e Hj. lia.
Qed.

Lemma thresholds_long d : scaling_shape d -> current_threshold d <> NullThreshold ->
  threshold_size d <= lengthZ (current_thresholds d).
Proof.
  intros [D1 D2 D3 D4 D5] Hn. unfold current_thresholds.
  destruct (current_threshold d) as [| |j]; [done|done|].
  destruct (lookupZ_in_range (exception_list d) j (D5 j eq_refl)) as [e He]. rewrite He.
  apply (D4 j e He).
Qed.

(** Scaling run alone, the clocks being on. *)
Lemma scaling_run s : pm_shape s -> 0 <= threshold_size (clk_scaling s) ->
  0 <= exception_size (clk_scaling s) -> ipa_clk_vote (clk s) <> 0 -> clk_mutex (clk s) = false ->
  exists tput th, calculate_throughput s = Some tput /\ selected (clk_scaling s) th /\
    let s1 := thresholds_set s tput th in
    run do_clk_scaling s = Next (tt, scaled s1 (wanted_plan (clk_scaling s1) tput)).
Proof.
  intros Hs Hn Hex Hv Hm. destruct (calculate_throughput_total s Hs) as [tput Ht].
  set (s0 := s <| aggregated_tput := tput |>).
  assert (Hs0 : pm_shape s0) by (destruct Hs; by split).
  destruct (set_current_threshold_total s0 Hs0) as (th&E&Hth&Hd).
  exists tput, th. split; [done|]. split; [exact (thresholds_selected s0 th _ Hs0 E eq_refl Hex Hth)|].
  intros s1. unfold do_clk_scaling. cbn [run prog_bind reads].
  rewrite (proj2 (Z.eqb_neq _ _) Hv). cbn [run prog_bind atomically].
  unfold scaling_section. rewrite Ht. cbn [mbind option_bind]. fold s0. rewrite E.
  cbn [mbind option_bind]. change (s0 <| clk_scaling := _ |>) with s1.
  cbn [run prog_bind reads].
  rewrite run_bind. change 0 with (Z.of_nat 0) at 1. rewrite compare_run.
  2: { pose proof (thresholds_long (clk_scaling s1) Hd Hth). change (clk_scaling s1) with
         (clk_scaling s <| current_threshold := th |>) in *. cbn in *. lia. }
  rewrite drop_0. change (1 + reached_thresholds _ tput) with (wanted_plan (clk_scaling s1) tput).
  generalize (wanted_plan (clk_scaling s1) tput). intros idx. cbv beta iota.
  cbn [run prog_bind reads]. unfold scaled. destruct (_ =? idx); [done|].
  set (s2 := s1 <| clk_scaling := clk_scaling s1 <| cur_vote := idx |> |>).
  cbn [run prog_bind reads modifies]. change (cur_vote (clk_scaling s2)) with idx.
  destruct (set_plan_run s2 idx Hm) as [rc E2]. erewrite run_bind_next by exact E2. done.
Qed.

(** With the clocks gated nothing happens. *)
Lemma scaling_gated s : ipa_clk_vote (clk s) = 0 -> run do_clk_scaling s = Next (tt, s).
Proof. intros Hv. unfold do_clk_scaling. cbn [run prog_bind reads]. by rewrite Hv. Qed.

(** What scaling leaves in the clocks. *)
Lemma scaled_outcome s plan : 1 <= plan ->
  let s2 := scaled s plan in
  cur_vote (clk_scaling s2) = plan /\
  (plan = cur_vote (clk_scaling s) -> clk s2 = clk s) /\
  (plan <> cur_vote (clk_scaling s) ->
     if enable_clock_scaling then
       if IPA_IS_REGULAR_CLK_MODE ipa3_hw_mode && (plan <=? 4) then
         curr_ipa_clk_rate (clk s2) = plan_rate plan /\
         (plan_rate plan <> curr_ipa_clk_rate (clk s) -> bus_vote_idx (clk s2) = plan)
       else clk s2 = clk s
     else clk s2 = clk s <| bus_vote_idx := plan |>).
Proof.
  intros Hp s2. unfold s2, scaled. destruct (Z.eqb_spec (cur_vote (clk_scaling s)) plan) as [He|He].
  { split; [done|]. split; [done|]. congruence. }
  split; [done|]. split; [congruence|]. intros _.
  change (clk (s <| clk_scaling := _ |> <| clk := ?k |>)) with k. unfold plan_outcome.
  destruct enable_clock_scaling; [cbn [negb]|done]. rewrite (proj2 (Z.leb_le 1 plan) Hp), andb_true_r.
  destruct (IPA_IS_REGULAR_CLK_MODE ipa3_hw_mode && (plan <=? 4)); [|done]. cbn [andb].
  destruct (Z.eqb_spec (plan_rate plan) (curr_ipa_clk_rate (clk s))) as [Hr|Hr]; [done|].
  cbn [negb]. unfold set_clock_plan. by repeat case_match.
Qed.
End Scaling.

(** ** Exceptions and names *)

Lemma prefix_of_shorter : forall s1 s2, String.prefix s2 s1 = true ->
  (String.length s1 <= String.length s2)%nat -> s1 = s2.
Proof.
  induction s1 as [|a s1 IH]; intros [|b s2]; cbn; try done; [lia|].
  destruct (Ascii.ascii_dec b a) as [->|]; [|done]. intros Hp Hl. f_equal. apply IH; [done|lia].
Qed.

Lemma strnstr_once x nm : strnstr_loop x nm 1 = String.prefix nm x.
Proof. destruct x as [|a [|b x]]; cbn [strnstr_loop]; by rewrite orb_false_r. Qed.

(** The test of [add_client_to_exception_list]: the whole use case is the name. *)
Lemma whole_name x nm : strnstr x nm (strlen nm) && (strlen x =? strlen nm) = true <-> x = nm.
Proof.
  unfold strnstr, strlen. rewrite andb_true_iff, Z.eqb_eq. split.
  - intros [H Hl]. destruct (Z.eqb_spec (Z.of_nat (String.length nm)) 0) as [E|E].
    + destruct x, nm; try done.
    + replace (Z.to_nat (_ - _ + 1)) with 1%nat in H by lia. rewrite strnstr_once in H.
      apply prefix_of_shorter; [done|lia].
  - intros ->. split; [|done]. destruct (_ =? 0); [done|].
    replace (Z.to_nat (_ - _ + 1)) with 1%nat by lia. rewrite strnstr_once.
    induction nm as [|a nm IH]; [done|]. cbn.
    by destruct (Ascii.ascii_dec a a).
Qed.

(** An exception for several clients is left alone by every registration. *)
Lemma add_exception_other nm h : forall l k ret l', add_exception_loop l nm h k = Some (ret, l') ->
  forall i e, l.[i] = Some e -> ex_clients e <> nm -> l'.[i] = Some e.
Proof.
  induction l as [|e0 l IH]; intros [|k] ret l'; cbn [add_exception_loop].
  1, 3: by intros [= <- <-].
  - done.
  - intros H i e He Hne. destruct (decide (i = 0)) as [->|Hi].
    + injection He as ->. destruct (strnstr _ _ _ && _) eqn:E; [by apply whole_name in E|].
      destruct (add_exception_loop l nm h k) as [[r l1]|]; [|done]. by injection H as _ <-.
    + assert (Hcons : forall (x : ipa_pm_exception_list) l1, l1.[i - 1] = Some e -> (x :: l1).[i] = Some e).
      { intros x l1. unfold lookupZ. repeat case_decide; try done; [|lia].
        by replace (Z.to_nat i) with (S (Z.to_nat (i - 1))) by lia. }
      assert (He' : l.[i - 1] = Some e).
      { revert He. unfold lookupZ. repeat case_decide; try done; [|lia].
        by replace (Z.to_nat i) with (S (Z.to_nat (i - 1))) by lia. }
      destruct (strnstr _ _ _ && _).
      * cbn zeta in H. destruct (_ <? 0); [injection H as _ <-; by apply Hcons|].
        destruct ((ex_bitmask _).[_]); [|done]. cbn [mbind option_bind] in H.
        destruct (add_exception_loop l nm h k) as [[r l1]|] eqn:El; [|done]. injection H as _ <-.
        apply Hcons. by eapply IH.
      * destruct (add_exception_loop l nm h k) as [[r l1]|] eqn:El; [|done]. injection H as _ <-.
        apply Hcons. by eapply IH.
Qed.

Lemma commas_in_name x nm : count_commas nm = 0 -> 0 < count_commas x -> x <> nm.
Proof. intros H1 H2 ->. lia. Qed.
