(* ===== verification/PmKeeps.v ===== *)
(** * The power manager's invariant: clock votes, scaling and clients

    Each program of [PmOps] keeps [pm_inv] when it runs among others.  Taking a
    vote gives the thread a credit ([v_cr]), giving one back uses it up.

    [do_clk_scaling], the work functions and the calls for a client keep
    [pm_inv] when they run among others. *)
From stdpp Require Import functions.
From S2P Require Import Prelude RecordUpdate Interleave PmData PmOps PmInv PmScale.

Create HintDb pm.
#[export] Hint Resolve guar_refl guar_vot guar_cr_add guar_cr_del guar_sc guar_op guar_wk : pm.
Create Rewrite HintDb pm.
#[export] Hint Rewrite view_vot view_cr_add view_cr_del view_sc view_op view_wk view_mx
  view_mx_none view_claim view_unclaim : pm.

Section Steps.
Context {C : pm_config} {N : pm_constants} (r : role) (t : thread).

Definition pm_keeps {A : Type} (g : view) (p : prog pm A) (Q : A -> view -> Prop) : Prop :=
  keeps pm_inv (gview r t) (guar r t) (pm_waits r) g p Q.

(** A program that gets from one view to another. *)
Definition pm_moves {A : Type} (g : view) (p : prog pm A) (g' : view) : Prop :=
  pm_keeps g p (fun _ g'' => g'' = g').

Lemma pm_keeps_bind {A D} g g' (p : prog pm A) (q : A -> prog pm D) Q :
  pm_moves g p g' -> (forall a, pm_keeps g' (q a) Q) -> pm_keeps g (prog_bind p q) Q.
Proof. intros Hp Hq. eapply keeps_bind; [exact Hp|]. intros a g2 ->. apply Hq. Qed.

(** A step that changes only the clocks. *)
Lemma pm_inv_clk w s w' c' :
  pm_inv w s -> gop w' = gop w -> gwk w' = gwk w -> gvot w' = gvot w -> gsc w' = gsc w ->
  clk_inv w' c' -> pm_inv w' (s <| clk := c' |>).
Proof.
  intros [_ Hc [] Hn Hh Hl Hsk Hs] Ho Hk Hv Hsc Hi.
  split; [done| |by split|done..|by rewrite Hsc].
  destruct Hc. by eapply clients_inv_frame; [by split|..].
Qed.

Lemma act_on_clk {A D} g (f : clk_state -> A * clk_state) (k : A -> prog pm D) Q
    (W : A -> ghost -> ghost) (g' : A -> view) :
  (forall w c, clk_inv w c -> gview r t w = g ->
     let '(a, c') := f c in
     clk_inv (W a w) c' /\ guar r t w (W a w) /\ gview r t (W a w) = g' a) ->
  (forall a w, gop (W a w) = gop w /\ gwk (W a w) = gwk w /\ gvot (W a w) = gvot w /\
     gsc (W a w) = gsc w) ->
  (forall a, pm_keeps (g' a) (k a) Q) -> pm_keeps g (prog_bind (on_clk f) k) Q.
Proof.
  intros Hf HW Hk. apply keeps_act with (g' := g'); [|done]. intros w s Hs Hv.
  specialize (Hf w (clk s) (pi_clk _ _ Hs) Hv). destruct (f (clk s)) as [a c'].
  destruct Hf as (Hc&Hg&Hv'). exists (W a w). split; [|done].
  destruct (HW a w) as (?&?&?&?). by eapply pm_inv_clk.
Qed.
(** An update of the clocks that returns nothing. *)
Lemma act_upd_clk {D} g (f : clk_state -> clk_state) (k : unit -> prog pm D) Q
    (W : ghost -> ghost) (g' : view) :
  (forall w c, clk_inv w c -> gview r t w = g ->
     clk_inv (W w) (f c) /\ guar r t w (W w) /\ gview r t (W w) = g') ->
  (forall w, gop (W w) = gop w /\ gwk (W w) = gwk w /\ gvot (W w) = gvot w /\
     gsc (W w) = gsc w) ->
  pm_keeps g' (k tt) Q -> pm_keeps g (prog_bind (upd_clk f) k) Q.
Proof.
  intros Hf HW Hk. apply keeps_act with (g' := fun _ => g'); [|by intros []].
  intros w s Hs Hv. destruct (Hf w (clk s) (pi_clk _ _ Hs) Hv) as (Hc&Hg&Hv').
  exists (W w). split; [|done]. destruct (HW w) as (?&?&?&?). by eapply pm_inv_clk.
Qed.

Lemma act_lock {D} ph cr cl sc (k : unit -> prog pm D) Q :
  pm_keeps (Build_view ph cr (Some MHeld) cl sc) (k tt) Q ->
  pm_keeps (Build_view ph cr None cl sc) (prog_bind lock_clk k) Q.
Proof.
  intros Hk. apply keeps_act with (g' := fun _ => Build_view ph cr (Some MHeld) cl sc); [|by intros []].
  intros w s Hs Hv. pose proof (ci_mutex _ _ (pi_clk _ _ Hs)) as Hm.
  destruct (clk_mutex (clk s)) eqn:E; [split; [done|by left]|].
  symmetry in Hm. apply bool_decide_eq_false in Hm.
  assert (Hn : gmx w = None) by (destruct (gmx w); [exfalso; apply Hm; by eauto|done]).
  exists (w <| gmx := Some (t, MHeld) |>). split; [|split].
  - eapply pm_inv_clk; [done..|]. destruct (pi_clk _ _ Hs) as [? ? ? ? ? ? ? ?].
    split; try done. intros t' m [= <- <-]. done.
  - apply guar_mx. by left.
  - by rewrite view_mx, Hv.
Qed.

Lemma act_unlock {D} ph cr m cl sc (k : unit -> prog pm D) Q :
  pm_keeps (Build_view ph cr None cl sc) (k tt) Q ->
  pm_keeps (Build_view ph cr (Some m) cl sc) (prog_bind unlock_clk k) Q.
Proof.
  intros Hk. eapply act_upd_clk with (W := fun w => w <| gmx := None |>); [|done|exact Hk].
  intros w c Hc Hv. split; [|split].
  - destruct Hc. by split.
  - apply guar_mx_none. exists m. change (v_mx (gview r t w) = Some m). by rewrite Hv.
  - by rewrite view_mx_none, Hv.
Qed.

(** ** The counter *)

Lemma size_credit_pos w : t ∈ gcr w -> (0 < size (gcr w))%nat.
Proof.
  intros Ht. destruct (size (gcr w)) eqn:E; [|lia]. apply size_empty_inv in E. set_solver.
Qed.

Lemma credit_positive w c : clk_inv w c -> t ∈ gcr w -> 0 < cnt c.
Proof.
  intros [? Hn _ _ _ _ _ _] Ht. pose proof (size_credit_pos w Ht).
  unfold owed, b2z in Hn. repeat case_match; lia.
Qed.

Lemma size_credit_add w : t ∉ gcr w ->
  Z.of_nat (size ({[t]} ∪ gcr w)) = Z.of_nat (size (gcr w)) + 1.
Proof. intros H. rewrite size_union by set_solver. rewrite size_singleton. lia. Qed.
Lemma size_credit_del w : t ∈ gcr w ->
  Z.of_nat (size (gcr w ∖ {[t]})) = Z.of_nat (size (gcr w)) - 1.
Proof.
  intros H. rewrite size_difference by set_solver. rewrite size_singleton.
  pose proof (size_credit_pos w H). lia.
Qed.

(** The counter is changed together with the credits. *)
Lemma clk_inv_add w c : clk_inv w c -> t ∉ gcr w -> cnt c <> 0 ->
  clk_inv (w <| gcr := {[t]} ∪ gcr w |>) (c <| cnt := cnt c + 1 |>).
Proof.
  intros [Ho Hn Hc Hm Hx Hz Hon Hcl] Ht Hne. split; try done.
  - cbn. rewrite size_credit_add by done. change (owed (_ <| cnt := _ |>)) with (owed c).
    rewrite Hn. cbn. lia.
  - intros _. apply Hc. cbn in *. unfold owed, b2z in Hn. repeat case_match; lia.
  - intros t' m Hg Hmh. by destruct (Hne (Hz t' m Hg Hmh)).
  - intros t' Hg. destruct (Hcl t' Hg). cbn. set_solver.
Qed.
Lemma clk_inv_sub w c : clk_inv w c -> t ∈ gcr w -> gclaim w <> Some t ->
  (cnt c <> 1 \/ gmx w = Some (t, MHeld)) ->
  clk_inv (w <| gcr := gcr w ∖ {[t]} |>) (c <| cnt := cnt c - 1 |>).
Proof.
  intros Hi Ht Hncl Hne. pose proof (credit_positive w c Hi Ht) as Hp.
  destruct Hi as [Ho Hn Hc Hm Hx Hz Hon Hcl]. split; try done.
  - cbn. rewrite size_credit_del by done. change (owed (_ <| cnt := _ |>)) with (owed c).
    rewrite Hn. cbn. lia.
  - intros _. by apply Hc.
  - intros t' m Hg Hmh. exfalso. cbn in Hg. specialize (Hz t' m Hg Hmh). lia.
  - intros t' Hg. destruct (Hcl t' Hg). cbn in *. set_solver.
Qed.

(** An unlocked read. *)
Lemma act_reads {A D} g (f : pm -> A) (k : A -> prog pm D) Q :
  (forall w s, pm_inv w s -> gview r t w = g -> pm_keeps g (k (f s)) Q) ->
  pm_keeps g (prog_bind (reads f) k) Q.
Proof.
  intros H w s Hs Hv. exists w. split; [done|]. split; [done|]. rewrite Hv. by apply (H w s).
Qed.
Lemma act_reads_any {A D} g (f : pm -> A) (k : A -> prog pm D) Q :
  (forall a, pm_keeps g (k a) Q) -> pm_keeps g (prog_bind (reads f) k) Q.
Proof. intros H. apply act_reads. by intros. Qed.

Lemma moves_ret g u : pm_moves g (Ret (A := unit) u) g.
Proof. done. Qed.

(** Programs that end in an action. *)
Lemma bind_ret_inv {A} g (p : prog pm A) Q :
  pm_keeps g (prog_bind p Ret) Q -> pm_keeps g p Q.
Proof.
  revert g. induction p as [a|B f k IH]; intros g Hk; cbn in *; [done|].
  intros w s Hs Hv. specialize (Hk w s Hs Hv). destruct (f s) as [| |[b s']]; [done|done|].
  destruct Hk as (w'&?&?&?). exists w'. split; [done|]. split; [done|]. by apply IH.
Qed.

(** What a failing increment tells the holder of the mutex. *)
Definition zero_seen (m : option mutex_phase) : option mutex_phase :=
  match m with Some _ => Some MZero | None => None end.

Lemma act_try_inc {D} ph m sc (k : bool -> prog pm D) Q :
  m = None \/ m = Some MHeld ->
  pm_keeps (Build_view ph true m false sc) (k true) Q ->
  pm_keeps (Build_view ph false (zero_seen m) false sc) (k false) Q ->
  pm_keeps (Build_view ph false m false sc) (prog_bind (on_clk atomic_inc_not_zero) k) Q.
Proof.
  intros Hm Ht Hf.
  apply act_on_clk with
    (W := fun (b : bool) w => if b then w <| gcr := {[t]} ∪ gcr w |> else
       match m with Some _ => w <| gmx := Some (t, MZero) |> | None => w end)
    (g' := fun b => if b : bool then Build_view ph true m false sc
                    else Build_view ph false (zero_seen m) false sc);
    [|by intros [] ?; destruct m|by intros []].
  intros w c Hc Hv. assert (Ht' : t ∉ gcr w) by (apply (view_no_credit r); by rewrite Hv).
  unfold atomic_inc_not_zero. destruct (cnt c =? 0) eqn:E; cycle 1.
  { split; [by apply clk_inv_add; [..|lia]|]. split; [apply guar_cr_add|].
    by rewrite view_cr_add, Hv. }
  destruct Hm as [->| ->]; [done|]. apply Z.eqb_eq in E.
  assert (Hg : gmx w = Some (t, MHeld)) by (apply (view_mutex r); by rewrite Hv).
  split; [|split].
  - destruct Hc as [? ? ? ? Hx ? ? ?]. split; try done. by rewrite Hx, Hg.
  - apply guar_mx. right. exists MHeld. change (v_mx (gview r t w) = Some MHeld). by rewrite Hv.
  - by rewrite view_mx, Hv.
Qed.

Lemma enable_clks_facts c :
  IPA_IS_REGULAR_CLK_MODE ipa3_hw_mode = true \/ ipa_clk_vote c = 1 ->
  let c' := ipa3_enable_clks c in
  cnt c' = cnt c /\ clk_mutex c' = clk_mutex c /\ owed c' = owed c /\ tag_work c' = tag_work c /\
  dec_clients_work c' = dec_clients_work c /\ clock_up c'.
Proof.
  intros Hmode. unfold ipa3_enable_clks, clock_up.
  destruct (IPA_IS_REGULAR_CLK_MODE ipa3_hw_mode) eqn:E; cbn [negb].
  - by destruct has_ipa3_clk.
  - destruct Hmode as [|Hm]; [done|]. by rewrite Hm.
Qed.

Lemma moves_inc ph sc :
  pm_moves (Build_view ph false None false sc) ipa3_inc_client_enable_clks
    (Build_view ph true None false sc).
Proof.
  apply act_try_inc; [by left|done|]. apply act_lock.
  apply act_try_inc; [by right| |].
  { apply bind_ret_inv. by apply act_unlock. }
  apply act_upd_clk with (W := fun w => w <| gmx := Some (t, MZeroOn) |>)
    (g' := Build_view ph false (Some MZeroOn) false sc); [|done|].
  { intros w c Hc Hv. assert (Hg : gmx w = Some (t, MZero)) by (apply (view_mutex r); by rewrite Hv).
    split; [|split].
    - destruct Hc as [? Hn ? Hmode Hx Hz ? Hcl]. specialize (Hz t MZero Hg).
      destruct (enable_clks_facts c Hmode) as (E1&E2&E3&E4&E5&Hup).
      split; rewrite ?E1, ?E2, ?E3, ?E4, ?E5; try done.
      + right. apply Hup.
      + by rewrite Hx, Hg.
      + intros t' m [= <- <-]. auto.
    - apply guar_mx. right. exists MZero. change (v_mx (gview r t w) = Some MZero). by rewrite Hv.
    - by rewrite view_mx, Hv. }
  apply act_upd_clk with (W := fun w => w <| gmx := Some (t, MHeld) |> <| gcr := {[t]} ∪ gcr w |>)
    (g' := Build_view ph true (Some MHeld) false sc); [|done|].
  { intros w c Hc Hv. assert (Hg : gmx w = Some (t, MZeroOn)) by (apply (view_mutex r); by rewrite Hv).
    assert (Ht' : t ∉ gcr w) by (apply (view_no_credit r); by rewrite Hv).
    split; [|split].
    - destruct Hc as [? Hn ? Hmode Hx Hz Hon Hcl]. specialize (Hz t MZeroOn Hg).
      split; try done.
      + pose proof (size_credit_add w Ht') as Hsz.
        change (cnt c + 1 = gothers w + owed c + Z.of_nat (size (gvot w))
                            + Z.of_nat (size ({[t]} ∪ gcr w))). lia.
      + intros _. by apply (Hon t).
      + cbn. by rewrite Hx, Hg.
      + intros t' m [= <- <-] Hm. done.
      + intros t' Hg'. destruct (Hcl t' Hg'). cbn. set_solver.
    - set (w1 := w <| gmx := Some (t, MHeld) |>).
      apply (guar_trans r t w w1); [|exact (guar_cr_add r t w1)].
      apply guar_mx. right. exists MZeroOn.
      change (v_mx (gview r t w) = Some MZeroOn). by rewrite Hv.
    - pose proof (view_cr_add r t (w <| gmx := Some (t, MHeld) |>)) as E.
      rewrite view_mx, Hv in E. exact E. }
  apply bind_ret_inv. by apply act_unlock.
Qed.

(** ** Giving a vote back *)

(** A thread whose vote is the only one claims it: nothing is owed, and nobody
    else can get to hand a decrement to the work queue. *)
Lemma sole_vote w c : clk_inv w c -> t ∈ gcr w -> cnt c = 1 ->
  owed c = 0 /\ (gclaim w = None \/ gclaim w = Some t).
Proof.
  intros [? Hn _ _ _ _ _ Hcl] Ht H1. pose proof (size_credit_pos w Ht) as Hsz.
  assert (0 <= owed c) by (unfold owed, b2z; repeat case_match; lia).
  split; [lia|]. destruct (gclaim w) as [t'|]; [right|by left].
  destruct (Hcl t' eq_refl) as [Hin _]. f_equal.
  assert (Hs1 : size (gcr w) = 1%nat) by lia. apply size_1_elem_of in Hs1 as [x Hx].
  apply Hx, elem_of_singleton in Ht, Hin. congruence.
Qed.

Lemma owed_zero c : owed c = 0 -> tag_work c = false /\ dec_clients_work c = false.
Proof. unfold owed, b2z. repeat case_match; auto; lia. Qed.

Lemma clk_inv_claim w c : clk_inv w c -> t ∈ gcr w -> owed c = 0 ->
  clk_inv (w <| gclaim := Some t |>) c.
Proof.
  intros [? ? ? ? ? ? ? ?] Ht Ho. apply owed_zero in Ho. split; try done. by intros t' [= <-].
Qed.

(** The vote is handed to [power_mgmt_wq]. *)
Definition handed_over (w : ghost) : ghost := w <| gcr := gcr w ∖ {[t]} |> <| gclaim := None |>.
Lemma guar_handed_over w : gclaim w = Some t -> guar r t w (handed_over w).
Proof.
  intros Hc. set (w1 := w <| gcr := gcr w ∖ {[t]} |>).
  apply (guar_trans r t w w1); [apply guar_cr_del|]. exact (guar_unclaim r t w1 Hc).
Qed.
Lemma view_handed_over w ph cr m cl sc :
  gview r t w = Build_view ph cr m cl sc -> gview r t (handed_over w) = Build_view ph false m false sc.
Proof.
  intros Hv. unfold handed_over. rewrite view_unclaim. rewrite view_cr_del, Hv. done.
Qed.
Lemma clk_inv_hand_over w c c' : clk_inv w c -> gclaim w = Some t ->
  cnt c' = cnt c -> ipa_clk_vote c' = ipa_clk_vote c -> clk_mutex c' = clk_mutex c ->
  clk_on c' = clk_on c -> owed c' = owed c + 1 -> clk_inv (handed_over w) c'.
Proof.
  intros [? Hn Hc Hm Hx Hz Hon Hcl] Hg E1 E2 E3 E4 E5. destruct (Hcl t Hg) as [Ht _].
  pose proof (size_credit_del w Ht) as Hsz.
  unfold clock_up in *. split; unfold clock_up; rewrite ?E1, ?E2, ?E3, ?E4; try done.
  change (cnt c = gothers w + owed c' + Z.of_nat (size (gvot w))
                  + Z.of_nat (size (gcr w ∖ {[t]}))). lia.
Qed.

(** Handing a decrement over by setting a flag that [claim] knows to be clear. *)
Lemma act_hand_over {D} ph m sc (f : clk_state -> clk_state) (k : unit -> prog pm D) Q :
  (forall c, cnt (f c) = cnt c /\ ipa_clk_vote (f c) = ipa_clk_vote c /\
     clk_mutex (f c) = clk_mutex c /\ clk_on (f c) = clk_on c) ->
  (forall c, tag_work c = false -> dec_clients_work c = false -> owed (f c) = owed c + 1) ->
  pm_keeps (Build_view ph false m false sc) (k tt) Q ->
  pm_keeps (Build_view ph true m true sc) (prog_bind (upd_clk f) k) Q.
Proof.
  intros Hf Ho Hk. eapply act_upd_clk with (W := handed_over); [|done|exact Hk].
  intros w c Hc Hv. assert (Hg : gclaim w = Some t) by (apply (view_claimed r); by rewrite Hv).
  destruct (Hf c) as (?&?&?&?). destruct (ci_claim _ _ Hc t Hg) as (_&?&?).
  split; [|split; [by apply guar_handed_over|by eapply view_handed_over]].
  eapply clk_inv_hand_over; eauto.
Qed.

(** Updates of members that the invariant does not mention. *)
Lemma act_upd_frame {D} g (f : clk_state -> clk_state) (k : unit -> prog pm D) Q :
  (forall c, cnt (f c) = cnt c /\ ipa_clk_vote (f c) = ipa_clk_vote c /\
     clk_mutex (f c) = clk_mutex c /\ tag_work (f c) = tag_work c /\
     dec_clients_work (f c) = dec_clients_work c /\ dec_suspend_work (f c) = dec_suspend_work c /\
     clk_on (f c) = clk_on c) ->
  pm_keeps g (k tt) Q -> pm_keeps g (prog_bind (upd_clk f) k) Q.
Proof.
  intros Hf Hk. eapply act_upd_clk with (W := fun w => w); [|done|exact Hk].
  intros w c [] Hv. destruct (Hf c) as (E1&E2&E3&E4&E5&E6&E7).
  split; [|done]. unfold owed, clock_up in *.
  split; unfold owed, clock_up; rewrite ?E1, ?E2, ?E3, ?E4, ?E5, ?E6, ?E7; done.
Qed.

(** The holder of the mutex reads the counter: one means a claim. *)
Lemma act_read_cnt {D} ph sc (k : Z -> prog pm D) Q :
  (forall n, 0 < n ->
     pm_keeps (Build_view ph true (Some MHeld) (n =? 1) sc) (k n) Q) ->
  pm_keeps (Build_view ph true (Some MHeld) false sc)
    (prog_bind (reads (fun s => cnt (clk s))) k) Q.
Proof.
  intros Hk w s Hs Hv. assert (Ht : t ∈ gcr w) by (apply (view_credit r); by rewrite Hv).
  pose proof (credit_positive w _ (pi_clk _ _ Hs) Ht) as Hp.
  destruct (Z.eqb_spec (cnt (clk s)) 1) as [E|E].
  - destruct (sole_vote w _ (pi_clk _ _ Hs) Ht E) as [Ho Hg].
    assert (Hn : gclaim w = None).
    { destruct Hg as [|Hg]; [done|]. apply (view_claimed r) in Hg. by rewrite Hv in Hg. }
    exists (w <| gclaim := Some t |>). split; [|split; [by apply guar_claim|]].
    + assert (Es : s = s <| clk := clk s |>) by (by destruct s). rewrite Es.
      apply (pm_inv_clk w s); [done..|]. apply clk_inv_claim; [apply Hs|done..].
    + rewrite view_claim, Hv. specialize (Hk _ Hp). by rewrite (proj2 (Z.eqb_eq _ _) E) in Hk.
  - exists w. split; [done|]. split; [done|]. rewrite Hv. specialize (Hk _ Hp).
    by rewrite (proj2 (Z.eqb_neq _ _) E) in Hk.
Qed.

(** The decrement under the mutex. *)
Lemma act_decrement {D} ph cl sc (k : Z -> prog pm D) Q :
  (forall n, 0 < n -> pm_keeps (Build_view ph false (Some MHeld) false sc) (k n) Q) ->
  (pm_keeps (Build_view ph false (Some MZeroOn) false sc) (k 0) Q) ->
  pm_keeps (Build_view ph true (Some MHeld) cl sc)
    (prog_bind (on_clk (fun c => (cnt c - 1, c <| cnt := cnt c - 1 |>))) k) Q.
Proof.
  intros Hpos Hzero w s Hs Hv. assert (Ht : t ∈ gcr w) by (apply (view_credit r); by rewrite Hv).
  assert (Hm : gmx w = Some (t, MHeld)) by (apply (view_mutex r); by rewrite Hv).
  pose proof (credit_positive w _ (pi_clk _ _ Hs) Ht) as Hp.
  set (w1 := if cl then w <| gclaim := None |> else w).
  assert (Hc1 : clk_inv w1 (clk s)).
  { destruct (pi_clk _ _ Hs) as [? ? ? ? ? ? ? ?]. unfold w1. by destruct cl; split. }
  assert (Hg1 : guar r t w w1).
  { unfold w1. destruct cl; [|done]. apply guar_unclaim, (view_claimed r). by rewrite Hv. }
  assert (Hv1 : gview r t w1 = Build_view ph true (Some MHeld) false sc).
  { unfold w1. destruct cl; [by rewrite view_unclaim, Hv|done]. }
  assert (Hn1 : gclaim w1 <> Some t) by (apply (view_unclaimed r); by rewrite Hv1).
  assert (Ht1 : t ∈ gcr w1) by (unfold w1; by destruct cl).
  assert (Hm1 : gmx w1 = Some (t, MHeld)) by (unfold w1; by destruct cl).
  assert (Hsame : gop w1 = gop w /\ gwk w1 = gwk w /\ gvot w1 = gvot w /\ gsc w1 = gsc w)
    by (unfold w1; by destruct cl).
  clearbody w1. destruct Hsame as (?&?&?&?).
  pose proof (clk_inv_sub w1 _ Hc1 Ht1 Hn1 (or_intror Hm1)) as Hc2.
  set (w2 := w1 <| gcr := gcr w1 ∖ {[t]} |>) in Hc2.
  assert (Hg2 : guar r t w w2) by (eapply guar_trans; [exact Hg1|apply guar_cr_del]).
  assert (Hv2 : gview r t w2 = Build_view ph false (Some MHeld) false sc)
    by (unfold w2; by rewrite view_cr_del, Hv1).
  destruct (Z.eqb_spec (cnt (clk s)) 1) as [E|E].
  - exists (w2 <| gmx := Some (t, MZeroOn) |>). split; [|split].
    + apply (pm_inv_clk w s); [done..|]. destruct Hc2 as [? ? Hcl ? Hx Hz ? ?].
      split; try done.
      * rewrite Hx. change (gmx w2) with (gmx w1). by rewrite Hm1.
      * intros t' m _ _. cbn. lia.
      * intros t' _. apply (ci_clock _ _ (pi_clk _ _ Hs)). lia.
    + eapply guar_trans; [exact Hg2|]. apply guar_mx. right. exists MHeld.
      change (v_mx (gview r t w2) = Some MHeld). by rewrite Hv2.
    + rewrite view_mx, Hv2. rewrite E. exact Hzero.
  - exists w2. split; [by apply (pm_inv_clk w s)|]. split; [done|]. rewrite Hv2. apply Hpos. lia.
Qed.

(** Switching the clocks off, the counter being zero under the mutex. *)
Lemma pm_inv_cur_vote w s v : pm_inv w s ->
  pm_inv w (s <| clk_scaling := clk_scaling s <| cur_vote := v |> |>).
Proof.
  intros [? Hc [] Hn Hh Hl Hsk Hs]. split; [done| |split; try done|done..].
  - destruct Hc. by split.
  - by destruct sh_scaling; split.
Qed.

Lemma act_modifies {D} g (f : pm -> pm) (k : unit -> prog pm D) Q :
  (forall w s, pm_inv w s -> pm_inv w (f s)) ->
  pm_keeps g (k tt) Q -> pm_keeps g (prog_bind (modifies f) k) Q.
Proof.
  intros Hf Hk w s Hs Hv. exists w. split; [by apply Hf|]. split; [done|]. by rewrite Hv.
Qed.

Context (no_irq : gsi_pending_irq_type = 0).

(** While the counter is known to be zero the clocks may be changed. *)
Lemma act_zero_frame {D} ph sc (f : clk_state -> clk_state) (k : unit -> prog pm D) Q :
  IPA_IS_REGULAR_CLK_MODE ipa3_hw_mode = true ->
  (forall c, cnt (f c) = cnt c /\ clk_mutex (f c) = clk_mutex c /\ tag_work (f c) = tag_work c /\
     dec_clients_work (f c) = dec_clients_work c /\ owed (f c) = owed c) ->
  pm_keeps (Build_view ph false (Some MZero) false sc) (k tt) Q ->
  pm_keeps (Build_view ph false (Some MZero) false sc) (prog_bind (upd_clk f) k) Q.
Proof.
  intros Em Hf Hk. eapply act_upd_clk with (W := fun w => w); [|done|exact Hk].
  intros w c Hc Hv. assert (Hg : gmx w = Some (t, MZero)) by (apply (view_mutex r); by rewrite Hv).
  split; [|done]. destruct Hc as [? ? ? ? Hx Hz ? ?]. specialize (Hz _ _ Hg ltac:(done)).
  destruct (Hf c) as (E1&E2&E3&E4&E5). split; rewrite ?E1, ?E2, ?E3, ?E4, ?E5; try done.
  - lia.
  - by left.
  - intros t' Hg'. congruence.
Qed.

Lemma keeps_disable_clks ph sc :
  pm_keeps (Build_view ph false (Some MZeroOn) false sc) ipa3_disable_clks
    (fun _ g => exists m, g = Build_view ph false (Some m) false sc).
Proof.
  unfold ipa3_disable_clks. destruct (negb _) eqn:Em; [by exists MZeroOn|].
  apply negb_false_iff in Em. rewrite no_irq. cbn [negb Z.eqb].
  apply act_upd_clk with (W := fun w => w <| gmx := Some (t, MZero) |>)
    (g' := Build_view ph false (Some MZero) false sc); [|done|].
  { intros w c Hc Hv. assert (Hg : gmx w = Some (t, MZeroOn)) by (apply (view_mutex r); by rewrite Hv).
    split; [|split].
    - destruct Hc as [? ? ? ? Hx Hz ? ?]. specialize (Hz _ _ Hg ltac:(done)). split; try done.
      + cbn. lia.
      + by left.
      + transitivity (bool_decide (is_Some (gmx w))); [exact Hx|by rewrite Hg].
    - apply guar_mx. right. exists MZeroOn. change (v_mx (gview r t w) = Some MZeroOn). by rewrite Hv.
    - by rewrite view_mx, Hv. }
  apply act_zero_frame; [done|done|]. apply act_modifies.
  { intros w s Hs. destruct (ctx_allocated s && _); [by apply pm_inv_cur_vote|done]. }
  apply bind_ret_inv, act_zero_frame; [done|done|by exists MZero].
Qed.

(** The hardware is busy: the vote is taken again, and it is the only one. *)
Lemma act_take_back {D} ph sc (k : unit -> prog pm D) Q :
  pm_keeps (Build_view ph true (Some MHeld) true sc) (k tt) Q ->
  pm_keeps (Build_view ph false (Some MZeroOn) false sc)
    (prog_bind (upd_clk (fun c => c <| cnt := cnt c + 1 |>)) k) Q.
Proof.
  intros Hk. eapply act_upd_clk with
    (W := fun w => w <| gmx := Some (t, MHeld) |> <| gcr := {[t]} ∪ gcr w |> <| gclaim := Some t |>);
    [|done|exact Hk].
  intros w c Hc Hv. assert (Hg : gmx w = Some (t, MZeroOn)) by (apply (view_mutex r); by rewrite Hv).
  assert (Ht : t ∉ gcr w) by (apply (view_no_credit r); by rewrite Hv).
  destruct Hc as [? Hn ? Hmode Hx Hz Hon Hcl]. specialize (Hz _ _ Hg ltac:(done)).
  assert (0 <= owed c) by (unfold owed, b2z; repeat case_match; lia).
  assert (Ho : owed c = 0) by lia. pose proof (owed_zero c Ho).
  assert (Hcn : gclaim w = None).
  { destruct (gclaim w) as [t'|]; [|done]. destruct (Hcl t' eq_refl) as [Hin _].
    assert (Hs0 : size (gcr w) = 0%nat) by lia. apply size_empty_inv in Hs0. set_solver. }
  set (w1 := w <| gmx := Some (t, MHeld) |>). set (w2 := w1 <| gcr := {[t]} ∪ gcr w |>).
  split; [|split].
  - pose proof (size_credit_add w Ht) as Hsz. split; try done.
    + change (cnt c + 1 = gothers w + owed c + Z.of_nat (size (gvot w))
              + Z.of_nat (size ({[t]} ∪ gcr w))). lia.
    + intros _. by apply (Hon t).
    + transitivity (bool_decide (is_Some (gmx w))); [exact Hx|by rewrite Hg].
    + intros t' m [= <- <-] Hm. done.
    + intros t' [= <-]. split; [|done]. cbn. set_solver.
  - apply (guar_trans r t w w1); [|apply (guar_trans r t w1 w2)].
    + apply guar_mx. right. exists MZeroOn. change (v_mx (gview r t w) = Some MZeroOn). by rewrite Hv.
    + exact (guar_cr_add r t w1).
    + exact (guar_claim r t w2 Hcn).
  - pose proof (view_claim r t w2) as E. pose proof (view_cr_add r t w1) as E1.
    change (w1 <| gcr := {[t]} ∪ gcr w1 |>) with w2 in E1.
    assert (E2 : gview r t w1 = Build_view ph false (Some MHeld) false sc)
      by (unfold w1; by rewrite view_mx, Hv).
    rewrite E2 in E1. rewrite E1 in E. exact E.
Qed.

Lemma moves_dec ph sc :
  pm_moves (Build_view ph true None false sc) __ipa3_dec_client_disable_clks
    (Build_view ph false None false sc).
Proof.
  apply act_reads. intros w0 s0 Hs0 Hv0.
  assert (Ht0 : t ∈ gcr w0) by (apply (view_credit r); by rewrite Hv0).
  pose proof (credit_positive w0 _ (pi_clk _ _ Hs0) Ht0) as Hp0.
  rewrite (proj2 (Z.eqb_neq (cnt (clk s0)) 0)) by lia.
  apply act_on_clk with
    (W := fun (b : bool) w => if b then w <| gcr := gcr w ∖ {[t]} |> else w)
    (g' := fun b => Build_view ph (negb b) None false sc); [|by intros []|].
  { intros w c Hc Hv. assert (Ht : t ∈ gcr w) by (apply (view_credit r); by rewrite Hv).
    unfold atomic_dec_unless_one. destruct (Z.eqb_spec (cnt c) 1); [done|].
    split; [|split; [apply guar_cr_del|by rewrite view_cr_del, Hv]].
    apply clk_inv_sub; auto. apply (view_unclaimed r). by rewrite Hv. }
  intros []; [done|]. do 2 (apply act_reads_any; intros ?).
  eapply pm_keeps_bind with (g' := Build_view ph true None false sc).
  { destruct (_ && _); [|done]. apply bind_ret_inv. by apply act_upd_frame. }
  intros _. apply act_lock, act_read_cnt. intros n Hn. apply act_reads_any. intros tag.
  destruct ((n =? 1) && tag) eqn:Etag.
  - apply andb_true_iff in Etag as [-> ->]. apply act_upd_frame; [done|].
    apply act_hand_over; [done| |].
    { intros c E1 _. unfold owed, b2z. cbn. rewrite E1. lia. }
    apply bind_ret_inv. by apply act_unlock.
  - apply act_decrement.
    { intros m Hm. rewrite (proj2 (Z.ltb_lt 0 m)) by done. apply bind_ret_inv. by apply act_unlock. }
    cbn [Z.ltb Z.compare]. apply act_reads_any. intros busy.
    eapply keeps_bind with (R := fun _ g => exists m, g = Build_view ph false (Some m) false sc).
    { destruct busy; [|apply keeps_disable_clks]. apply act_take_back.
      apply bind_ret_inv, act_hand_over; [done| |by exists MHeld].
      intros c _ E2. unfold owed, b2z. cbn. rewrite E2. lia. }
    intros _ g (m&->). apply bind_ret_inv. by apply act_unlock.
Qed.
End Steps.

Section Scaling.
Context {C : pm_config} {N : pm_constants} (r : role) (t : thread).
Abbreviation keeps' := (pm_keeps r t).

(** A step that may be undefined and changes nothing the others depend on. *)
Lemma act_atomically {A D} g (f : pm -> option (A * pm)) (k : A -> prog pm D) Q :
  (forall w s, pm_inv w s -> gview r t w = g ->
     exists a s', f s = Some (a, s') /\ pm_inv w s' /\ keeps' g (k a) Q) ->
  keeps' g (prog_bind (atomically f) k) Q.
Proof.
  intros H w s Hs Hv. destruct (H w s Hs Hv) as (a&s'&->&Hi&Hk).
  exists w. split; [done|]. split; [done|]. by rewrite Hv.
Qed.

Lemma pm_inv_scaling w s tput th : pm_inv w s -> th <> NullThreshold ->
  scaling_shape (clk_scaling s <| current_threshold := th |>) ->
  pm_inv (w <| gsc := {[t]} ∪ gsc w |>)
    (s <| aggregated_tput := tput |> <| clk_scaling := clk_scaling s <| current_threshold := th |> |>).
Proof.
  intros [? Hc [] Hn Hh Hl Hsk _] Hth Hsh. split; [by destruct pi_clk; split| |by split|done..].
  eapply clients_inv_frame; [exact Hc|done..|apply Hc|done].
Qed.

Lemma act_scaling_section {D} ph cr m cl sc (k : Z -> prog pm D) Q :
  (forall tput, keeps' (Build_view ph cr m cl true) (k tput) Q) ->
  keeps' (Build_view ph cr m cl sc) (prog_bind (atomically scaling_section) k) Q.
Proof.
  intros Hk w s Hs Hv. unfold scaling_section.
  destruct (calculate_throughput_total s (pi_shape _ _ Hs)) as [tput ->]. cbn [mbind option_bind].
  assert (Hsh : pm_shape (s <| aggregated_tput := tput |>)) by (destruct (pi_shape _ _ Hs); by split).
  destruct (set_current_threshold_total _ Hsh) as (th&->&Hth&Hd). cbn [mbind option_bind].
  exists (w <| gsc := {[t]} ∪ gsc w |>). split; [exact (pm_inv_scaling w s tput th Hs Hth Hd)|].
  split; [apply guar_sc|]. rewrite view_sc, Hv. apply Hk.
Qed.

Lemma keeps_compare_thresholds ph cr m cl tput k : forall i idx, 0 <= i -> i + Z.of_nat k <= nthresholds ->
  keeps' (Build_view ph cr m cl true) (compare_thresholds tput i k idx)
    (fun _ g => g = Build_view ph cr m cl true).
Proof.
  induction k as [|k IH]; intros i idx Hi Hk; [done|]. cbn [compare_thresholds].
  apply act_atomically. intros w s Hs Hv.
  assert (Hn : current_threshold (clk_scaling s) <> NullThreshold).
  { apply (pi_scaled _ _ Hs). assert (t ∈ gsc w); [|set_solver].
    apply (view_scaled r). by rewrite Hv. }
  destruct (threshold_at_total (clk_scaling s) i) as [x ->];
    [apply Hs|done|rewrite (pi_size _ _ Hs); lia|].
  cbn [mbind option_bind]. exists x, s. split; [done|]. split; [done|]. apply IH; lia.
Qed.

Lemma keeps_set_clock_plan ph cr cl sc idx :
  keeps' (Build_view ph cr None cl sc) (ipa3_set_clock_plan_from_pm idx)
    (fun _ g => g = Build_view ph cr None cl sc).
Proof.
  unfold ipa3_set_clock_plan_from_pm. destruct (negb enable_clock_scaling).
  { by apply act_upd_frame. }
  destruct (negb _); [done|]. destruct (_ || _); [done|]. apply act_reads_any. intros cur.
  destruct (_ =? _); [done|]. apply act_lock, act_upd_frame.
  { intros c. unfold set_clock_plan. repeat case_match; done. }
  by apply act_unlock.
Qed.

Lemma keeps_scaling ph cr cl sc :
  keeps' (Build_view ph cr None cl sc) do_clk_scaling
    (fun _ g => exists sc', g = Build_view ph cr None cl sc').
Proof.
  apply act_reads_any. intros vote. destruct (vote =? 0); [by exists sc|].
  apply act_scaling_section. intros tput. apply act_reads. intros w s Hs _.
  rewrite (pi_size _ _ Hs). eapply keeps_bind.
  { destruct (Z.le_gt_cases 0 nthresholds).
    - apply keeps_compare_thresholds; lia.
    - replace (Z.to_nat nthresholds) with 0%nat by lia. done. }
  intros idx g ->. cbv beta. apply act_reads_any. intros cur.
  destruct (cur =? idx); [by exists true|]. apply act_modifies.
  { intros. by apply pm_inv_cur_vote. }
  apply act_reads_any. intros v. eapply keeps_bind; [apply keeps_set_clock_plan|].
  intros ? g ->. by exists true.
Qed.
End Scaling.

(** ** Work queue and timers *)

(** The queue and the timers of [s'] are those of [s] but for the client at [p]. *)
Record queue_ok (s s' : pm) (p : Z) : Prop := {
  q_queue : NoDup (work_list s');
  q_timers : NoDup (timers s');
  q_pending : p ∈ timers s' -> DeactivateWork p ∉ work_list s';
  q_others q : q <> p ->
    (ActivateWork q ∈ work_list s' <-> ActivateWork q ∈ work_list s) /\
    (DeactivateWork q ∈ work_list s' <-> DeactivateWork q ∈ work_list s) /\
    (q ∈ timers s' <-> q ∈ timers s);
}.

Lemma queue_ok_same w s s' p : clients_inv w s -> work_list s' = work_list s -> timers s' = timers s ->
  queue_ok s s' p.
Proof. intros [] H1 H2. split; rewrite ?H1, ?H2; auto. Qed.

Lemma queue_ok_activate w s s' p : clients_inv w s -> activation_queued s p = false ->
  work_list s' = work_list s ++ [ActivateWork p] -> timers s' = timers s -> queue_ok s s' p.
Proof.
  intros [_ _ _ _ HQ HT HP _] Hn H1 H2. apply bool_decide_eq_false in Hn. split; rewrite ?H1, ?H2.
  - apply NoDup_app. split; [done|]. split; [|apply NoDup_singleton]. set_solver.
  - done.
  - intros Hin. specialize (HP p Hin). set_solver.
  - intros q Hne. set_solver.
Qed.

Lemma queue_ok_delayed w s s' p : clients_inv w s -> delayed_work_pending s p = false ->
  work_list s' = work_list s -> timers s' = p :: timers s -> queue_ok s s' p.
Proof.
  intros [_ _ _ _ HQ HT HP _] Hn H1 H2. apply orb_false_iff in Hn as [Ht Hw].
  apply bool_decide_eq_false in Ht, Hw. split; rewrite ?H1, ?H2.
  - done.
  - by constructor.
  - done.
  - intros q Hne. set_solver.
Qed.

Lemma queue_ok_cancel w s s' p : clients_inv w s ->
  work_list s' = work_list (cancel_delayed_work p s) -> timers s' = timers (cancel_delayed_work p s) ->
  queue_ok s s' p.
Proof.
  intros [_ _ _ _ HQ HT HP _] H1 H2. split; rewrite ?H1, ?H2; cbn.
  - by apply NoDup_filter.
  - by apply NoDup_filter.
  - intros Hin. apply list_elem_of_filter in Hin as [? _]. done.
  - intros q Hne. rewrite !list_elem_of_filter. split; [|split]; naive_solver.
Qed.

Lemma cancel_clears p s : delayed_work_pending (cancel_delayed_work p s) p = false.
Proof.
  unfold delayed_work_pending. apply orb_false_iff.
  split; apply bool_decide_eq_false; cbn; rewrite list_elem_of_filter; naive_solver.
Qed.
Lemma cancel_keeps_activation p q s :
  activation_queued (cancel_delayed_work p s) q = activation_queued s q.
Proof. apply bool_decide_ext. cbn. rewrite list_elem_of_filter. naive_solver. Qed.

(** ** A change of one client *)
Section ClientStep.
Context {C : pm_config} {N : pm_constants}.

Lemma client_step w s w' s' p c c' :
  pm_inv w s -> heap s !! p = Some c -> heap s' = <[p := c']> (heap s) ->
  running s' = running s -> warned s' = warned s ->
  (ctx_allocated s', clients s', group_tput s', clk_scaling s')
  = (ctx_allocated s, clients s, group_tput s, clk_scaling s) ->
  skip_clk_vote c' = skip_clk_vote c -> hdl c' = hdl c -> queue_ok s s' p ->
  gsc w' = gsc w ->
  (forall q, q <> p -> gop w' q = gop w q /\ (q ∈ gvot w' <-> q ∈ gvot w)) ->
  run_ok (running s) (gwk w') -> (forall q, q <> p -> work_phase w' q = work_phase w q) ->
  (p ∈ gvot w' <-> voting c' (gop w' p) = true) -> clk_inv w' (clk s') ->
  client_ok (state c') (completion c') (activation_queued s' p) (delayed_work_pending s' p)
    (work_phase w' p) (gop w' p) = true ->
  pm_inv w' s'.
Proof.
  intros [Hk Hc Hs Hn Hh Hl Hsk Hsc] Hp Hheap Hrun Hwarn [= E1 E2 E3 E4] Esk Ehd [] Hgsc Hq Hro Hwk
    Hvot Hclk Hok.
  split; rewrite ?E2, ?E4, ?Hgsc, ?Hheap; try done.
  - eapply clients_inv_change; try done.
    + rewrite Hwarn. apply Hc.
    + intros q Hne. destruct (Hq q Hne), (q_others0 q Hne) as (?&?&?). done.
  - destruct Hs as [S1 S2 S3 S4 S5 S6 S7]. split; rewrite ?E1, ?E2, ?E3, ?E4, ?Hheap; try done.
    + intros h q Hcl. destruct (S3 h q Hcl) as [|(d&Hd&Hdh)]; [by left|right].
      destruct (decide (q = p)) as [->|Hne].
      * exists c'. rewrite lookup_insert_eq. split; [done|]. congruence.
      * exists d. by rewrite lookup_insert_ne.
    + rewrite lookup_insert_ne; [done|]. intros ->. congruence.
    + intros q d. destruct (decide (q = p)) as [->|Hne].
      * rewrite lookup_insert_eq. intros [= <-]. rewrite Ehd. by apply (S5 p).
      * rewrite lookup_insert_ne by done. apply S5.
  - rewrite dom_insert_L. rewrite <- Hl. assert (p ∈ dom (heap s)) by (by apply elem_of_dom_2 in Hp).
    set_solver.
  - intros q d. destruct (decide (q = p)) as [->|Hne].
    + rewrite lookup_insert_eq. intros [= <-]. rewrite Esk. by apply Hsk.
    + rewrite lookup_insert_ne by done. apply Hsk.
Qed.

(** A client that exists. *)
Lemma live_client w s p : pm_inv w s -> p ∈ live ->
  exists c, heap s !! p = Some c /\ skip_clk_vote c = skips p /\ 0 <= hdl c < IPA_PM_MAX_CLIENTS.
Proof.
  intros Hi Hp. rewrite <- (pi_live _ _ Hi) in Hp. apply elem_of_dom in Hp as [c Hc].
  exists c. split; [done|]. split; [by apply (pi_skips _ _ Hi)|]. apply (sh_hdl _ (pi_shape _ _ Hi) p c Hc).
Qed.
End ClientStep.

(** ** Votes between a thread and a client *)
Section Transfer.
Context {C : pm_config} {N : pm_constants} (r : role) (t : thread).

Lemma clk_inv_same w w' c : clk_inv w c -> gothers w' = gothers w -> size (gvot w') = size (gvot w) ->
  gcr w' = gcr w -> gmx w' = gmx w -> gclaim w' = gclaim w -> clk_inv w' c.
Proof. intros [] H1 H2 H3 H4 H5. split; rewrite ?H1, ?H2, ?H3, ?H4, ?H5; done. Qed.

Definition joins (p : Z) (w : ghost) : ghost :=
  w <| gvot := {[p]} ∪ gvot w |> <| gcr := gcr w ∖ {[t]} |>.
Definition leaves (p : Z) (w : ghost) : ghost :=
  w <| gvot := gvot w ∖ {[p]} |> <| gcr := {[t]} ∪ gcr w |>.

Lemma size_vote_add (X : gset Z) p : p ∉ X -> size ({[p]} ∪ X) = S (size X).
Proof. intros H. rewrite size_union by set_solver. by rewrite size_singleton. Qed.
Lemma size_vote_del (X : gset Z) p : p ∈ X -> S (size (X ∖ {[p]})) = size X.
Proof.
  intros H. rewrite <- (size_vote_add (X ∖ {[p]}) p) by set_solver. f_equal.
  apply set_eq. intros x. destruct (decide (x = p)); set_solver.
Qed.

Lemma clk_inv_joins p w c : clk_inv w c -> t ∈ gcr w -> gclaim w <> Some t -> p ∉ gvot w ->
  clk_inv (joins p w) c.
Proof.
  intros [Ho Hn Hc Hm Hx Hz Hon Hcl] Ht Hncl Hp. split; try done.
  - pose proof (size_vote_add _ _ Hp). pose proof (size_credit_del t w Ht).
    change (cnt c = gothers w + owed c + Z.of_nat (size ({[p]} ∪ gvot w))
                    + Z.of_nat (size (gcr w ∖ {[t]}))). lia.
  - intros t' Hg. destruct (Hcl t' Hg). split; [|done]. cbn in *. set_solver.
Qed.
Lemma clk_inv_leaves p w c : clk_inv w c -> t ∉ gcr w -> p ∈ gvot w -> clk_inv (leaves p w) c.
Proof.
  intros [Ho Hn Hc Hm Hx Hz Hon Hcl] Ht Hp. split; try done.
  - pose proof (size_vote_del _ _ Hp). pose proof (size_credit_add t w Ht).
    change (cnt c = gothers w + owed c + Z.of_nat (size (gvot w ∖ {[p]}))
                    + Z.of_nat (size ({[t]} ∪ gcr w))). lia.
  - intros t' Hg. destruct (Hcl t' Hg). split; [|done]. cbn in *. set_solver.
Qed.
Lemma clk_inv_client_vote p w c : clk_inv w c -> cnt c <> 0 -> p ∉ gvot w ->
  clk_inv (w <| gvot := {[p]} ∪ gvot w |>) (c <| cnt := cnt c + 1 |>).
Proof.
  intros [Ho Hn Hc Hm Hx Hz Hon Hcl] Hne Hp. split; try done.
  - pose proof (size_vote_add _ _ Hp).
    change (cnt c + 1 = gothers w + owed c + Z.of_nat (size ({[p]} ∪ gvot w))
                        + Z.of_nat (size (gcr w))). lia.
  - intros _. apply Hc. unfold owed, b2z in Hn. repeat case_match; lia.
  - intros t' m Hg Hmh. by destruct (Hne (Hz t' m Hg Hmh)).
Qed.

Lemma guar_joins p w : guar r t w (joins p w).
Proof. set (w1 := w <| gvot := {[p]} ∪ gvot w |>). exact (guar_cr_del r t w1). Qed.
Lemma guar_leaves p w : guar r t w (leaves p w).
Proof. set (w1 := w <| gvot := gvot w ∖ {[p]} |>). exact (guar_cr_add r t w1). Qed.
Lemma view_joins p w : gview r t (joins p w) = gview r t w <| v_cr := false |>.
Proof. set (w1 := w <| gvot := {[p]} ∪ gvot w |>). exact (view_cr_del r t w1). Qed.
Lemma view_leaves p w : gview r t (leaves p w) = gview r t w <| v_cr := true |>.
Proof. set (w1 := w <| gvot := gvot w ∖ {[p]} |>). exact (view_cr_add r t w1). Qed.
End Transfer.
