(* ===== verification/PmCalls.v ===== *)
(** * The power manager's invariant: calls and work functions

    The work functions and the calls for a client keep [pm_inv] when they run
    among others. *)
From stdpp Require Import functions.
From S2P Require Import Prelude RecordUpdate Interleave PmData PmOps PmInv PmScale PmKeeps.

Section Frames.
Context {C : pm_config} {N : pm_constants}.

(** A change of a client that the invariant does not mention. *)
Lemma client_frame w s p c c' :
  pm_inv w s -> heap s !! p = Some c -> state c' = state c -> completion c' = completion c ->
  skip_clk_vote c' = skip_clk_vote c -> hdl c' = hdl c -> pm_inv w (set_client s p c').
Proof.
  intros Hi Hp E1 E2 E3 E4. pose proof (pi_clients _ _ Hi) as Hc.
  eapply client_step; try done.
  - by eapply queue_ok_same.
  - apply Hc.
  - rewrite (cl_vote _ _ Hc p). unfold voting. rewrite E1, E3.
    split; [|by eauto]. intros (d&Hd&?). by assert (d = c) as -> by congruence.
  - apply Hi.
  - rewrite E1, E2. by apply (cl_ok _ _ Hc p c).
Qed.

Lemma pm_inv_bitmask w s h f : pm_inv w s -> 0 <= h < IPA_PM_MAX_CLIENTS ->
  exists s', with_bitmask s h f = Some s' /\ pm_inv w s'.
Proof.
  intros [Hk Hc Hs Hn Hh Hl Hsk Hsc] Hhd. unfold with_bitmask.
  pose proof (ss_bits _ (sh_scaling _ Hs)) as Hb.
  pose proof (reg_idx_range h Hhd) as Hm.
  destruct (lookupZ_in_range (active_client_bitmask (clk_scaling s)) (ipahal_get_ep_reg_idx h))
    as [b ->]; [lia|]. cbn [mbind option_bind]. eexists. split; [done|].
  split; try done.
  - eapply clients_inv_frame; [exact Hc|done..|apply Hc|done].
  - destruct Hs as [S1 S2 S3 S4 S5 S6 [D1 D2 D3 D4 D5]]. split; try done. split; try done.
    cbn. by rewrite lengthZ_updateZ.
Qed.

Lemma pm_inv_queue_scaling w s : pm_inv w s -> pm_inv w (queue_work ScalingWork s).
Proof.
  intros Hi. unfold queue_work. destruct (bool_decide _) eqn:E; [done|].
  apply bool_decide_eq_false in E. destruct Hi as [Hk Hc [] Hn Hh Hl Hsk Hsc].
  split; try done. eapply clients_inv_frame; [exact Hc|done..| |].
  - apply NoDup_app. split; [apply Hc|]. split; [|apply NoDup_singleton]. set_solver.
  - intros q. cbn. set_solver.
Qed.
End Frames.

Section Calls.
Context {C : pm_config} {N : pm_constants} (r : role) (t : thread).
Context (no_irq : gsi_pending_irq_type = 0).
Abbreviation keeps' := (pm_keeps r t).
Abbreviation moves' := (pm_moves r t).

Lemma act_field {A D} g p (f : ipa_pm_client -> A) (k : A -> prog pm D) Q : p ∈ live ->
  (forall w s c, pm_inv w s -> gview r t w = g -> heap s !! p = Some c -> skip_clk_vote c = skips p ->
     0 <= hdl c < IPA_PM_MAX_CLIENTS -> keeps' g (k (f c)) Q) ->
  keeps' g (prog_bind (client_field p f) k) Q.
Proof.
  intros Hp H. apply act_atomically. intros w s Hs Hv.
  destruct (live_client w s p Hs Hp) as (c&Hc&Hsk&Hh). unfold get_client. rewrite Hc.
  cbn [mbind option_bind]. exists (f c), s. split; [done|]. split; [done|]. by apply (H w s c).
Qed.

Lemma act_client_frame {D} g p (f : ipa_pm_client -> ipa_pm_client) (k : unit -> prog pm D) Q :
  p ∈ live -> (forall c, state (f c) = state c /\ completion (f c) = completion c /\
    skip_clk_vote (f c) = skip_clk_vote c /\ hdl (f c) = hdl c) ->
  keeps' g (k tt) Q -> keeps' g (prog_bind (on_client p (fun c => (tt, f c))) k) Q.
Proof.
  intros Hp Hf Hk. apply act_atomically. intros w s Hs Hv.
  destruct (live_client w s p Hs Hp) as (c&Hc&_). unfold get_client. rewrite Hc.
  cbn [mbind option_bind]. destruct (Hf c) as (?&?&?&?).
  exists tt, (set_client s p (f c)). split; [done|]. split; [by eapply client_frame|done].
Qed.

Lemma moves_vote p ph sc : p ∈ live ->
  moves' (Build_view ph false None false sc) (vote_clock p)
    (Build_view ph (negb (skips p)) None false sc).
Proof.
  intros Hp. apply act_field; [done|]. intros _ _ c _ _ _ -> _. destruct (skips p); [done|].
  eapply pm_keeps_bind; [apply moves_inc|]. intros _. apply act_field; [done|].
  intros _ _ d _ _ _ _ _. destruct (is_apps _); [|done].
  apply bind_ret_inv. by apply act_client_frame.
Qed.

Lemma moves_devote p ph sc : p ∈ live ->
  moves' (Build_view ph (negb (skips p)) None false sc) (devote_clock p)
    (Build_view ph false None false sc).
Proof.
  intros Hp. apply act_field; [done|]. intros _ _ c _ _ _ -> _. destruct (skips p); [done|].
  eapply pm_keeps_bind; [by apply moves_dec|]. intros _. apply act_field; [done|].
  intros _ _ d _ _ _ _ _. destruct (is_apps _); [|done].
  apply bind_ret_inv. by apply act_client_frame.
Qed.

Lemma act_bit {D} g p (b : bool) (k : unit -> prog pm D) Q : p ∈ live ->
  keeps' g (k tt) Q ->
  keeps' g (prog_bind (if b then set_active_bit p else clear_active_bit p) k) Q.
Proof.
  intros Hp Hk. assert (H : forall h, 0 <= h < IPA_PM_MAX_CLIENTS -> keeps' g (prog_bind
    (atomically (fun s => s ← (if b then activate_client s h else deactivate_client s h); Some (tt, s)))
    k) Q).
  { intros h Hh. apply act_atomically. intros w s Hs Hv.
    assert (He : exists s', (if b then activate_client s h else deactivate_client s h) = Some s' /\
      pm_inv w s') by (destruct b; by apply pm_inv_bitmask).
    destruct He as (s'&->&Hi). cbn [mbind option_bind]. by exists tt, s'. }
  destruct b; apply act_field; try done; intros w s c Hs Hv Hc Hsk Hh; by apply (H (hdl c)).
Qed.

Lemma act_call_back {D} g p e (k : unit -> prog pm D) Q : p ∈ live ->
  keeps' g (k tt) Q -> keeps' g (prog_bind (atomically (call_back p e)) k) Q.
Proof.
  intros Hp Hk. apply act_atomically. intros w s Hs Hv.
  destruct (live_client w s p Hs Hp) as (c&Hc&_). unfold call_back, get_client. rewrite Hc.
  cbn [mbind option_bind]. eexists tt, _. split; [done|]. split; [|done].
  destruct (callback c); [|done]. destruct Hs as [Hk' Hcl [] Hn Hh Hl Hsk Hsc].
  split; try done. eapply clients_inv_frame; [exact Hcl|done..|apply Hcl|done].
Qed.
End Calls.

(** ** What the invariant of a client says, by cases *)

Ltac client_cases :=
  repeat match goal with
         | x : bool |- _ => destruct x
         | x : option work_kind |- _ => destruct x as [[]|]
         | x : phase |- _ => destruct x
         | x : ipa_pm_state |- _ => destruct x
         end; reflexivity.

Lemma implb_use (a b : bool) : implb a b = true -> a = true -> b = true.
Proof. by destruct a. Qed.

Definition state_is (st st' : ipa_pm_state) : bool := bool_decide (st = st').

(** Activation work finds its client in progress. *)
Lemma ok_work_activates st cm pa pd op :
  implb (client_ok st cm pa pd (Some WPre) op)
    (negb (IPA_PM_STATE_ACTIVE st) && negb (is_phase op ODebit) &&
     ((state_is st IPA_PM_ACTIVATE_IN_PROGRESS
       && client_ok IPA_PM_ACTIVATED cm pa pd (Some WCompl) op) ||
      (state_is st IPA_PM_DEACTIVATE_IN_PROGRESS
       && client_ok IPA_PM_DEACTIVATED cm pa pd (Some WCompl) op))) = true.
Proof. client_cases. Qed.

Lemma ok_completes st cm pa pd op :
  implb (client_ok st cm pa pd (Some WCompl) op) (client_ok st true pa pd (Some WTail) op) = true.
Proof. client_cases. Qed.

(** The deferred deactivation finds its client in a state with a timer. *)
Lemma ok_timer_work st cm pa pd op :
  implb (client_ok st cm pa pd (Some TPre) op)
    (negb pd && negb (is_phase op ODebit) &&
     match st with
     | IPA_PM_ACTIVATED_TIMER_SET => client_ok IPA_PM_ACTIVATED cm pa pd (Some TTail) op
     | IPA_PM_ACTIVATED_PENDING_RESCHEDULE =>
         client_ok IPA_PM_ACTIVATED_PENDING_DEACTIVATION cm pa true (Some TTail) op
     | IPA_PM_ACTIVATED_PENDING_DEACTIVATION => client_ok IPA_PM_DEACTIVATED cm pa pd (Some TTail) op
     | _ => false
     end) = true.
Proof. client_cases. Qed.

Lemma ok_activate st cm pa pd wk :
  implb (client_ok st cm pa pd wk OStart)
    (negb pa && negb (IPA_PM_STATE_IN_PROGRESS st) &&
     match st with
     | IPA_PM_ACTIVATED_PENDING_RESCHEDULE | IPA_PM_ACTIVATED_PENDING_DEACTIVATION =>
         client_ok IPA_PM_ACTIVATED_TIMER_SET cm pa pd wk PIdle
     | IPA_PM_ACTIVATED | IPA_PM_ACTIVATED_TIMER_SET => client_ok st cm pa pd wk PIdle
     | IPA_PM_DEACTIVATED =>
         client_ok IPA_PM_ACTIVATED cm pa pd wk PIdle
         && client_ok IPA_PM_ACTIVATE_IN_PROGRESS cm pa pd wk OSync
         && client_ok IPA_PM_ACTIVATE_IN_PROGRESS false true pd wk PIdle
     | _ => false
     end) = true.
Proof. client_cases. Qed.

Lemma ok_sync_done st cm pa pd wk :
  implb (client_ok st cm pa pd wk OSync)
    (state_is st IPA_PM_ACTIVATE_IN_PROGRESS && client_ok IPA_PM_ACTIVATED cm pa pd wk PIdle) = true.
Proof. client_cases. Qed.

Lemma ok_deferred st cm pa pd wk :
  implb (client_ok st cm pa pd wk PIdle)
    match st with
    | IPA_PM_ACTIVATE_IN_PROGRESS => client_ok IPA_PM_DEACTIVATE_IN_PROGRESS cm pa pd wk PIdle
    | IPA_PM_ACTIVATED =>
        negb pd && client_ok IPA_PM_ACTIVATED_PENDING_DEACTIVATION cm pa true wk PIdle
    | IPA_PM_ACTIVATED_TIMER_SET | IPA_PM_ACTIVATED_PENDING_DEACTIVATION =>
        client_ok IPA_PM_ACTIVATED_PENDING_RESCHEDULE cm pa pd wk PIdle
    | _ => true
    end = true.
Proof. client_cases. Qed.

(** The steps of [ipa_pm_deactivate_sync]. *)
Lemma ok_cancel st cm pa pd wk :
  implb (client_ok st cm pa pd wk PIdle && negb (is_work wk TPre))
    (client_ok st cm pa false wk OCancelled) = true.
Proof. client_cases. Qed.
Lemma ok_first_read st cm pa pd wk :
  implb (client_ok st cm pa pd wk OCancelled)
    (client_ok st cm pa pd wk (if IPA_PM_STATE_IN_PROGRESS st then OWait else OQuiet)) = true.
Proof. client_cases. Qed.
Lemma ok_waited st pa pd wk :
  implb (client_ok st true pa pd wk OWait) (client_ok st true pa pd wk OQuiet) = true.
Proof. client_cases. Qed.
Lemma ok_second_read st cm pa pd wk :
  implb (client_ok st cm pa pd wk OQuiet)
    (if state_is st IPA_PM_DEACTIVATED then client_ok st cm pa pd wk PIdle
     else IPA_PM_STATE_ACTIVE st && client_ok st cm pa pd wk ODebit) = true.
Proof. client_cases. Qed.
Lemma ok_deactivates st cm pa pd wk :
  implb (client_ok st cm pa pd wk ODebit)
    (IPA_PM_STATE_ACTIVE st && client_ok IPA_PM_DEACTIVATED cm pa pd wk ODone) = true.
Proof. client_cases. Qed.
Lemma ok_second_cancel st cm pa pd wk :
  implb (client_ok st cm pa pd wk ODone)
    (state_is st IPA_PM_DEACTIVATED && client_ok st cm pa false wk PIdle) = true.
Proof. client_cases. Qed.

(** ** Critical sections of a client *)

(** How the vote moves: between the thread and the client, or not at all. *)
Inductive vote_move := VStay | VJoin | VLeave.

Definition moved (t : thread) (p : Z) (v : vote_move) (w : ghost) : ghost :=
  match v with VStay => w | VJoin => joins t p w | VLeave => leaves t p w end.
Definition credit_after (v : vote_move) (cr : bool) : bool :=
  match v with VStay => cr | VJoin => false | VLeave => true end.
Definition set_phase (r : role) (ph : phase) (w : ghost) : ghost :=
  match r with
  | OpRole p => w <| gop := <[p := ph]> (gop w) |>
  | WorkRole => w <| gwk := ph |>
  | FreeRole => w
  end.

(** The phases of the client at [p] afterwards. *)
Definition op_after (r : role) (ph : phase) (w : ghost) (p : Z) : phase :=
  match r with OpRole _ => ph | _ => gop w p end.
Definition work_after (r : role) (ph : phase) (w : ghost) (p : Z) : option work_kind :=
  match r, ph with WorkRole, Working k _ => Some k | _, _ => work_phase w p end.

(** The role is that of a call for [p] or of the work of [p], and stays so. *)
Definition concerns (r : role) (ph : phase) (w : ghost) (p : Z) : Prop :=
  match r with
  | OpRole q => q = p
  | WorkRole => exists k k0, ph = Working k p /\ gwk w = Working k0 p
  | FreeRole => False
  end.

Definition vote_ok (t : thread) (v : vote_move) (w : ghost) (c c' : ipa_pm_client) (op op' : phase) : Prop :=
  match v with
  | VStay => voting c' op' = voting c op
  | VJoin => voting c op = false /\ voting c' op' = true /\ t ∈ gcr w /\ gclaim w <> Some t
  | VLeave => voting c op = true /\ voting c' op' = false /\ t ∉ gcr w
  end.

(** Work stays activation work, or deferred deactivation. *)
Definition work_continues (r : role) (ph : phase) (w : ghost) : Prop :=
  match r, ph, gwk w with
  | WorkRole, Working (WPre | WCompl | WTail) _, Working (WPre | WCompl | WTail) _ => True
  | WorkRole, Working (TPre | TTail) _, Working (TPre | TTail) _ => True
  | WorkRole, _, _ => False
  | _, _, _ => True
  end.

Section Change.
Context {C : pm_config} {N : pm_constants} (r : role) (t : thread).

Lemma guar_change p v ph w : guar r t w (set_phase r ph (moved t p v w)).
Proof.
  apply (guar_trans r t w (moved t p v w)).
  - destruct v; [apply guar_refl|apply guar_joins|apply guar_leaves].
  - destruct r; [apply guar_op|apply guar_wk|apply guar_refl].
Qed.

Lemma view_change p v ph w : r <> FreeRole ->
  gview r t (set_phase r ph (moved t p v w))
  = gview r t w <| v_cr := credit_after v (v_cr (gview r t w)) |> <| v_ph := ph |>.
Proof.
  intros Hr. assert (H1 : gview r t (moved t p v w)
    = gview r t w <| v_cr := credit_after v (v_cr (gview r t w)) |>).
  { destruct v; cbn [moved credit_after]; [|apply view_joins|apply view_leaves].
    by destruct (gview r t w). }
  rewrite <- H1. destruct r; [apply view_op|apply view_wk|done].
Qed.

Lemma work_phase_after ph w p : concerns r ph w p ->
  work_phase (set_phase r ph w) p = work_after r ph w p /\
  forall q, q <> p -> work_phase (set_phase r ph w) q = work_phase w q.
Proof.
  destruct r as [q| |]; cbn; [done| |done]. intros (k&k0&->&Hw). unfold work_phase. cbn.
  rewrite bool_decide_true by done. split; [done|]. intros q Hne. rewrite Hw.
  by rewrite !bool_decide_false.
Qed.

Lemma change_client p v ph w s s' c c' :
  pm_inv w s -> heap s !! p = Some c -> concerns r ph w p -> work_continues r ph w ->
  heap s' = <[p := c']> (heap s) -> running s' = running s -> warned s' = warned s ->
  clk s' = clk s ->
  (ctx_allocated s', clients s', group_tput s', clk_scaling s')
  = (ctx_allocated s, clients s, group_tput s, clk_scaling s) ->
  skip_clk_vote c' = skip_clk_vote c -> hdl c' = hdl c -> queue_ok s s' p ->
  vote_ok t v w c c' (gop w p) (op_after r ph w p) ->
  client_ok (state c') (completion c') (activation_queued s' p) (delayed_work_pending s' p)
    (work_after r ph w p) (op_after r ph w p) = true ->
  pm_inv (set_phase r ph (moved t p v w)) s'.
Proof.
  intros Hi Hp Hcon Hcont Hheap Hrun Hwarn Hclk Hrest Hsk Hhd Hq Hvote Hok.
  pose proof (pi_clients _ _ Hi) as Hcl.
  assert (Hin : p ∈ gvot w <-> voting c (gop w p) = true).
  { rewrite (cl_vote _ _ Hcl p). split; [|by eauto]. intros (d&Hd&?). by assert (d = c) as -> by congruence. }
  set (w1 := moved t p v w).
  assert (Hop1 : gop w1 = gop w) by (by destruct v). assert (Hwk1 : gwk w1 = gwk w) by (by destruct v).
  assert (Hsc1 : gsc w1 = gsc w) by (by destruct v).
  assert (Hcon1 : concerns r ph w1 p) by (unfold concerns in *; by rewrite Hwk1).
  destruct (work_phase_after ph w1 p Hcon1) as [Hwp Hwq].
  assert (Hwp1 : forall q, work_phase w1 q = work_phase w q) by (intros q; unfold work_phase; by rewrite Hwk1).
  assert (Hopp : gop (set_phase r ph w1) p = op_after r ph w p).
  { destruct r; cbn in *; subst; [by rewrite fn_lookup_insert|by rewrite Hop1|done]. }
  assert (Hvot2 : gvot (set_phase r ph w1) = gvot w1) by (by destruct r).
  eapply (client_step w s); try done.
  - transitivity (gsc w1); [by destruct r|done].
  - intros q Hne. rewrite Hvot2. split.
    + transitivity (gop w1 q); [|by rewrite Hop1]. destruct r; [|done..]. cbn in *. subst.
      by rewrite fn_lookup_insert_ne.
    + unfold w1. destruct v; cbn; set_solver.
  - pose proof (cl_run _ _ Hcl) as Hrun0. destruct r as [q| |]; cbn; [by rewrite Hwk1| |by rewrite Hwk1].
    cbn in Hcon, Hcont. destruct Hcon as (k&k0&->&Hw0). rewrite Hw0 in Hcont, Hrun0.
    destruct (running s) as [[q|q|]|]; cbn in Hrun0 |- *; [| |done|done];
      repeat match goal with H : _ \/ _ |- _ => destruct H as [H|H] end; inversion Hrun0; subst;
      destruct k; try done; auto.
  - intros q Hne. by rewrite Hwq, Hwp1.
  - rewrite Hvot2, Hopp. unfold w1. destruct v; cbn in Hvote |- *.
    + by rewrite Hvote.
    + destruct Hvote as (_&->&_). set_solver.
    + destruct Hvote as (_&->&_). split; [set_solver|done].
  - rewrite Hclk. assert (H1 : clk_inv w1 (clk s)).
    { pose proof (pi_clk _ _ Hi). unfold w1. destruct v; cbn in Hvote |- *; [done| |].
      - destruct Hvote as (Hv&_&?&?). apply clk_inv_joins; try done. rewrite Hin, Hv. done.
      - destruct Hvote as (Hv&_&?). apply clk_inv_leaves; try done. by rewrite Hin. }
    destruct r; [by destruct H1|by destruct H1|done].
  - rewrite Hopp, Hwp. replace (work_after r ph w1 p) with (work_after r ph w p); [done|].
    unfold work_after. by rewrite Hwp1.
Qed.

(** A critical section that may move the vote and the phase. *)
Lemma act_change {A D} g p (f : pm -> option (A * pm)) (k : A -> prog pm D) Q :
  p ∈ live -> r <> FreeRole ->
  (forall w s c, pm_inv w s -> gview r t w = g -> heap s !! p = Some c -> skip_clk_vote c = skips p ->
     exists a s' v ph, f s = Some (a, s') /\ pm_inv (set_phase r ph (moved t p v w)) s' /\
       pm_keeps r t (g <| v_cr := credit_after v (v_cr g) |> <| v_ph := ph |>) (k a) Q) ->
  pm_keeps r t g (prog_bind (atomically f) k) Q.
Proof.
  intros Hp Hr H w s Hs Hv. destruct (live_client w s p Hs Hp) as (c&Hc&Hsk&_).
  destruct (H w s c Hs Hv Hc Hsk) as (a&s'&v&ph&->&Hi&Hk).
  exists (set_phase r ph (moved t p v w)). split; [done|]. split; [apply guar_change|].
  by rewrite view_change, Hv.
Qed.
End Change.

Lemma andb_split (a b : bool) : a && b = true -> a = true /\ b = true.
Proof. apply andb_true_iff. Qed.

(** ** The work functions *)
Section Work.
Context {C : pm_config} {N : pm_constants} (no_irq : gsi_pending_irq_type = 0).
Abbreviation keeps' := (pm_keeps WorkRole None).

Lemma work_client w s p k c : pm_inv w s -> v_ph (gview WorkRole None w) = Working k p ->
  heap s !! p = Some c ->
  gwk w = Working k p /\
  client_ok (state c) (completion c) (activation_queued s p) (delayed_work_pending s p) (Some k)
    (gop w p) = true.
Proof.
  intros Hi Hv Hc. change (gwk w = Working k p) in Hv. split; [done|].
  pose proof (cl_ok _ _ (pi_clients _ _ Hi) p c Hc) as H. unfold work_phase in H. rewrite Hv in H.
  by rewrite bool_decide_true in H.
Qed.

Lemma voting_active c op : skip_clk_vote c = false -> IPA_PM_STATE_ACTIVE (state c) = true ->
  op <> ODebit -> voting c op = true.
Proof.
  intros H1 H2 H3. unfold voting, is_phase. rewrite H1, H2, bool_decide_false by done. done.
Qed.
Lemma voting_inactive c op : IPA_PM_STATE_ACTIVE (state c) = false -> voting c op = false.
Proof. intros H. unfold voting. rewrite H. by rewrite andb_false_r. Qed.
Lemma voting_skips c op : skip_clk_vote c = true -> voting c op = false.
Proof. intros H. unfold voting. by rewrite H. Qed.
Lemma not_phase x y : negb (is_phase x y) = true -> x <> y.
Proof. unfold is_phase. intros H ->. by rewrite bool_decide_true in H. Qed.

(** Moving a vote to a client that becomes active, if it votes at all. *)
Lemma vote_joins t w c c' op op' :
  skip_clk_vote c' = skip_clk_vote c -> IPA_PM_STATE_ACTIVE (state c) = false ->
  IPA_PM_STATE_ACTIVE (state c') = true -> op' <> ODebit ->
  (skip_clk_vote c = false -> t ∈ gcr w /\ gclaim w <> Some t) ->
  vote_ok t (if skip_clk_vote c then VStay else VJoin) w c c' op op'.
Proof.
  intros E1 E2 E3 E4 Ht. destruct (skip_clk_vote c) eqn:Es; cbn.
  - rewrite !voting_skips by congruence. done.
  - destruct (Ht eq_refl). split; [by apply voting_inactive|]. split; [|done].
    by apply voting_active.
Qed.
Lemma vote_leaves t w c c' op op' :
  skip_clk_vote c' = skip_clk_vote c -> IPA_PM_STATE_ACTIVE (state c) = true -> op <> ODebit ->
  voting c' op' = false -> t ∉ gcr w ->
  vote_ok t (if skip_clk_vote c then VStay else VLeave) w c c' op op'.
Proof.
  intros E1 E2 E3 E4 Ht. destruct (skip_clk_vote c) eqn:Es; cbn.
  - rewrite E4. by rewrite voting_skips.
  - split; [by apply voting_active|]. done.
Qed.

Lemma act_activate_work {D} p sc (k : bool -> prog pm D) Q : p ∈ live ->
  keeps' (Build_view (Working WCompl p) false None false sc) (k false) Q ->
  keeps' (Build_view (Working WCompl p) (negb (skips p)) None false sc) (k true) Q ->
  keeps' (Build_view (Working WPre p) (negb (skips p)) None false sc)
    (prog_bind (atomically (activate_work_section p)) k) Q.
Proof.
  intros Hp Hf Ht. apply (act_change WorkRole None _ p); [done..|]. intros w s c Hi Hv Hc Hsk.
  destruct (work_client w s p WPre c Hi) as [Hwk Hok]; [by rewrite Hv|done|].
  apply (implb_use _ _ (ok_work_activates _ _ _ _ _)) in Hok.
  apply andb_split in Hok as [Hok Hor]. apply andb_split in Hok as [Hna Hnd].
  apply negb_true_iff in Hna. apply not_phase in Hnd.
  pose proof (pi_clients _ _ Hi) as Hcl.
  assert (Hrole : concerns WorkRole (Working WCompl p) w p) by (by exists WCompl, WPre).
  assert (Hcont : work_continues WorkRole (Working WCompl p) w) by (unfold work_continues; by rewrite Hwk).
  unfold activate_work_section, get_client. rewrite Hc. cbn [mbind option_bind].
  apply orb_true_iff in Hor as [H|H]; apply andb_split in H as [Hst Hok];
    unfold state_is in Hst; apply bool_decide_eq_true in Hst; rewrite Hst.
  - exists false, (set_client s p (c <| state := IPA_PM_ACTIVATED |>)),
      (if skip_clk_vote c then VStay else VJoin), (Working WCompl p). split; [done|]. split.
    + eapply change_client; try done.
      * by eapply queue_ok_same.
      * apply vote_joins; try done. intros Hs. rewrite Hsk in Hs.
        split; [apply (view_credit WorkRole)|apply (view_unclaimed WorkRole)]; rewrite Hv; [|done].
        cbn. by rewrite Hs.
    + rewrite Hsk. destruct (skips p); exact Hf.
  - exists true, (set_client s p (c <| state := IPA_PM_DEACTIVATED |>)), VStay, (Working WCompl p).
    split; [done|]. split.
    + eapply change_client; try done.
      * by eapply queue_ok_same.
      * cbn. by rewrite !voting_inactive.
    + exact Ht.
Qed.

Lemma act_complete {D} p cr sc (k : unit -> prog pm D) Q : p ∈ live ->
  keeps' (Build_view (Working WTail p) cr None false sc) (k tt) Q ->
  keeps' (Build_view (Working WCompl p) cr None false sc)
    (prog_bind (on_client p (fun c => (tt, c <| completion := true |>))) k) Q.
Proof.
  intros Hp Hk. apply (act_change WorkRole None _ p); [done..|]. intros w s c Hi Hv Hc Hsk.
  destruct (work_client w s p WCompl c Hi) as [Hwk Hok]; [by rewrite Hv|done|].
  apply (implb_use _ _ (ok_completes _ _ _ _ _)) in Hok.
  unfold get_client. rewrite Hc. cbn [mbind option_bind].
  exists tt, (set_client s p (c <| completion := true |>)), VStay, (Working WTail p).
  split; [done|]. split; [|exact Hk]. eapply change_client; try done.
  - by exists WTail, WCompl.
  - unfold work_continues. by rewrite Hwk.
  - eapply queue_ok_same; [by apply Hi|done..].
Qed.

Definition work_done (p : Z) (g : view) : Prop :=
  exists k sc, (k = WTail \/ k = TTail) /\ g = Build_view (Working k p) false None false sc.

Lemma keeps_scaling_work p k sc : k = WTail \/ k = TTail ->
  keeps' (Build_view (Working k p) false None false sc) do_clk_scaling (fun _ => work_done p).
Proof. intros Hk. eapply keeps_mono; [apply keeps_scaling|]. intros _ g (sc'&->). by exists k, sc'. Qed.

Lemma keeps_activate_work p sc : p ∈ live ->
  keeps' (Build_view (Working WPre p) false None false sc) (activate_work_func p)
    (fun _ => work_done p).
Proof.
  intros Hp. eapply pm_keeps_bind; [by apply moves_vote|]. intros _.
  apply act_activate_work; [done|..]; apply act_complete; try done.
  - apply (act_bit WorkRole None _ p true); [done|]. apply act_call_back; [done|].
    apply keeps_scaling_work. by left.
  - eapply keeps_mono; [by apply moves_devote|]. intros _ g ->. exists WTail, sc. auto.
Qed.

Lemma act_deactivate_work {D} p sc (k : bool -> prog pm D) Q : p ∈ live ->
  keeps' (Build_view (Working TTail p) false None false sc) (k false) Q ->
  keeps' (Build_view (Working TTail p) (negb (skips p)) None false sc) (k true) Q ->
  keeps' (Build_view (Working TPre p) false None false sc)
    (prog_bind (atomically (deactivate_work_section p)) k) Q.
Proof.
  intros Hp Hf Ht. apply (act_change WorkRole None _ p); [done..|]. intros w s c Hi Hv Hc Hsk.
  destruct (work_client w s p TPre c Hi) as [Hwk Hok]; [by rewrite Hv|done|].
  apply (implb_use _ _ (ok_timer_work _ _ _ _ _)) in Hok.
  apply andb_split in Hok as [Hok Hst]. apply andb_split in Hok as [Hnp Hnd].
  apply negb_true_iff in Hnp. apply not_phase in Hnd.
  pose proof (pi_clients _ _ Hi) as Hcl.
  assert (Hrole : concerns WorkRole (Working TTail p) w p) by (by exists TTail, TPre).
  assert (Hcont : work_continues WorkRole (Working TTail p) w) by (unfold work_continues; by rewrite Hwk).
  unfold deactivate_work_section, get_client. rewrite Hc. cbn [mbind option_bind].
  destruct (state c) eqn:Es; try done.
  - exists true, (set_client s p (c <| state := IPA_PM_DEACTIVATED |>)),
      (if skip_clk_vote c then VStay else VLeave), (Working TTail p). split; [done|]. split.
    + eapply change_client; try done.
      * by eapply queue_ok_same.
      * apply vote_leaves; try done; [by rewrite Es|by apply voting_inactive|].
        apply (view_no_credit WorkRole). by rewrite Hv.
    + rewrite Hsk. destruct (skips p); exact Ht.
  - exists false, (set_client s p (c <| state := IPA_PM_ACTIVATED |>)), VStay, (Working TTail p).
    split; [done|]. split; [|exact Hf]. eapply change_client; try done.
    + by eapply queue_ok_same.
    + cbn. unfold voting. cbn. by rewrite Es.
  - unfold queue_delayed_work. rewrite Hnp. eexists false, _, VStay, (Working TTail p).
    split; [done|]. split; [|exact Hf]. eapply change_client; try done.
    + by eapply queue_ok_delayed.
    + cbn. unfold voting. cbn. by rewrite Es.
    + cbn [state completion update set_client]. replace (delayed_work_pending _ p) with true; [exact Hst|].
      symmetry. apply orb_true_iff. left. apply bool_decide_eq_true. cbn. set_solver.
Qed.

Lemma keeps_deactivate_work p sc : p ∈ live ->
  keeps' (Build_view (Working TPre p) false None false sc) (delayed_deferred_deactivate_work_func p)
    (fun _ => work_done p).
Proof.
  intros Hp. apply act_deactivate_work; [done|exists TTail, sc; by auto|].
  eapply pm_keeps_bind; [by apply moves_devote|]. intros _.
  apply (act_bit WorkRole None _ p false); [done|]. apply keeps_scaling_work. by right.
Qed.
End Work.

(** ** The calls for a client *)
Section Ops.
Context {C : pm_config} {N : pm_constants} (no_irq : gsi_pending_irq_type = 0).
Context (p : Z) (t : thread) (Hlive : p ∈ live).
Abbreviation keeps' := (pm_keeps (OpRole p) t).
Abbreviation at_phase ph cr sc := (Build_view ph cr None false sc).

Lemma op_client w s ph c : pm_inv w s -> v_ph (gview (OpRole p) t w) = ph -> heap s !! p = Some c ->
  gop w p = ph /\
  client_ok (state c) (completion c) (activation_queued s p) (delayed_work_pending s p)
    (work_phase w p) ph = true.
Proof.
  intros Hi Hv Hc. change (gop w p = ph) in Hv. split; [done|].
  pose proof (cl_ok _ _ (pi_clients _ _ Hi) p c Hc) as H. by rewrite Hv in H.
Qed.

(** A change of the client that leaves its vote where it is. *)
Lemma op_change w s s' c c' ph :
  pm_inv w s -> heap s !! p = Some c -> heap s' = <[p := c']> (heap s) ->
  running s' = running s -> warned s' = warned s -> clk s' = clk s ->
  (ctx_allocated s', clients s', group_tput s', clk_scaling s')
  = (ctx_allocated s, clients s, group_tput s, clk_scaling s) ->
  skip_clk_vote c' = skip_clk_vote c -> hdl c' = hdl c -> queue_ok s s' p ->
  voting c' ph = voting c (gop w p) ->
  client_ok (state c') (completion c') (activation_queued s' p) (delayed_work_pending s' p)
    (work_phase w p) ph = true ->
  pm_inv (set_phase (OpRole p) ph (moved t p VStay w)) s'.
Proof. intros. by eapply change_client. Qed.

(** A vote by [ipa3_inc_client_enable_clks_no_block] under the client's lock. *)
Lemma op_client_votes w s c c' : pm_inv w s -> heap s !! p = Some c -> cnt (clk s) <> 0 ->
  state c' = IPA_PM_ACTIVATED -> completion c' = completion c -> state c = IPA_PM_DEACTIVATED ->
  skip_clk_vote c' = skip_clk_vote c -> skip_clk_vote c = false -> hdl c' = hdl c ->
  client_ok IPA_PM_ACTIVATED (completion c) (activation_queued s p) (delayed_work_pending s p)
    (work_phase w p) PIdle = true ->
  let s' := set_client (s <| clk := clk s <| cnt := cnt (clk s) + 1 |> |>) p c' in
  let w' := w <| gvot := {[p]} ∪ gvot w |> <| gop := <[p := PIdle]> (gop w) |> in
  pm_inv w' s' /\ guar (OpRole p) t w w' /\
  gview (OpRole p) t w' = gview (OpRole p) t w <| v_ph := PIdle |>.
Proof.
  intros Hi Hc Hn E1 E2 E3 E4 E5 E6 Hok s' w'. pose proof (pi_clients _ _ Hi) as Hcl.
  set (w1 := w <| gvot := {[p]} ∪ gvot w |>). split; [|split; [exact (guar_op p t w1 PIdle)|exact (view_op p t w1 PIdle)]].
  assert (Hnin : p ∉ gvot w).
  { rewrite (cl_vote _ _ Hcl p). intros (d&Hd&Hvot). assert (d = c) as -> by congruence.
    rewrite voting_inactive in Hvot; [done|by rewrite E3]. }
  eapply (client_step w s); try done.
  - by eapply queue_ok_same.
  - intros q Hne. cbn. rewrite fn_lookup_insert_ne by done. split; [done|set_solver].
  - apply Hcl.
  - cbn. rewrite fn_lookup_insert. rewrite voting_active; [set_solver|congruence|by rewrite E1|done].
  - pose proof (clk_inv_client_vote p w (clk s) (pi_clk _ _ Hi) Hn Hnin) as H. by destruct H.
  - cbn. rewrite fn_lookup_insert, E1, E2. exact Hok.
Qed.

Lemma set_activated_spec c : state (set_activated c) = IPA_PM_ACTIVATED /\
  completion (set_activated c) = completion c /\ skip_clk_vote (set_activated c) = skip_clk_vote c /\
  hdl (set_activated c) = hdl c.
Proof. unfold set_activated. by destruct (is_apps _). Qed.

Lemma activation_queued_snoc s' l : work_list s' = l ++ [ActivateWork p] ->
  activation_queued s' p = true.
Proof. intros H. apply bool_decide_eq_true. rewrite H. set_solver. Qed.
Lemma delayed_pending_snoc s s' : work_list s' = work_list s ++ [ActivateWork p] ->
  timers s' = timers s -> delayed_work_pending s' p = delayed_work_pending s p.
Proof.
  intros H1 H2. unfold delayed_work_pending. rewrite H2. f_equal. apply bool_decide_ext.
  rewrite H1. set_solver.
Qed.

(** The critical section of an activation that finds the client at rest. *)
Lemma act_activate {D} sync sc (k : option activation -> prog pm D) Q :
  (forall rc, keeps' (at_phase PIdle false sc) (k (Some (ActivateReturns rc))) Q) ->
  keeps' (at_phase PIdle false sc) (k (Some ActivateGotClocks)) Q ->
  (skips p = false -> keeps' (at_phase OSync false sc) (k (Some ActivateVotes)) Q) ->
  keeps' (at_phase OStart false sc) (prog_bind (atomically (activate_first_section p sync)) k) Q.
Proof.
  intros Hret Hgot Hvotes w s Hi Hv. destruct (live_client w s p Hi Hlive) as (c&Hc&Hsk&_).
  destruct (op_client w s OStart c Hi) as [Hop Hok]; [by rewrite Hv|done|].
  apply (implb_use _ _ (ok_activate _ _ _ _ _)) in Hok.
  apply andb_split in Hok as [Hok Hst]. apply andb_split in Hok as [Hnp Hnip].
  apply negb_true_iff in Hnp, Hnip. pose proof (pi_clients _ _ Hi) as Hcl.
  unfold activate_first_section, activate_section, get_client. rewrite Hc. cbn [mbind option_bind].
  rewrite Hnip.
  assert (Hgo : forall ph s', pm_inv (set_phase (OpRole p) ph (moved t p VStay w)) s' ->
    forall a, keeps' (at_phase ph false sc) (k a) Q ->
    exists w', pm_inv w' s' /\ guar (OpRole p) t w w' /\
      keeps pm_inv (gview (OpRole p) t) (guar (OpRole p) t) (pm_waits (OpRole p)) (gview (OpRole p) t w') (k a) Q).
  { intros ph s' H a Hk. eexists. split; [exact H|]. split; [apply guar_change|].
    rewrite view_change, Hv by done. exact Hk. }
  destruct (state c) eqn:Es; try done; cbn [mbind option_bind].
  2-5: apply (Hgo PIdle); [|apply Hret].
  - apply andb_split in Hst as [Hst Ok3]. apply andb_split in Hst as [Ok1 Ok2].
    destruct (set_activated_spec c) as (A1&A2&A3&A4).
    destruct (skip_clk_vote c) eqn:Hs.
    { apply (Hgo PIdle); [|exact Hgot]. eapply op_change; try done.
      - congruence.
      - by eapply queue_ok_same.
      - rewrite !voting_skips by congruence. done.
      - by rewrite A1, A2. }
    destruct sync.
    { apply (Hgo OSync); [|by apply Hvotes]. eapply op_change; try done.
      - by eapply queue_ok_same.
      - rewrite !voting_inactive; [done|by rewrite Es|done]. }
    unfold ipa3_inc_client_enable_clks_no_block, atomic_inc_not_zero.
    destruct (Z.eqb_spec (cnt (clk s)) 0) as [E0|E0].
    + apply (Hgo PIdle); [|apply Hret]. unfold queue_work. rewrite bool_decide_false.
      2: { apply bool_decide_eq_false in Hnp. exact Hnp. }
      eapply op_change; try done.
      * by eapply queue_ok_activate.
      * rewrite !voting_inactive; [done|by rewrite Es|done].
      * rewrite (activation_queued_snoc _ (work_list s)), (delayed_pending_snoc s) by done.
        exact Ok3.
    + cbn [Z.eqb]. destruct (op_client_votes w s c (set_activated c)) as (H1&H2&H3); try done; try congruence.
      eexists. split; [exact H1|]. split; [exact H2|]. rewrite H3, Hv. exact Hgot.
  - eapply (op_change w s s c c); try done.
    + by rewrite insert_id.
    + by eapply queue_ok_same.
    + unfold voting. by rewrite Hop.
    + by rewrite Es.
  - eapply op_change; try done; [by eapply queue_ok_same|]. unfold voting. by rewrite Hop, Es.
  - eapply (op_change w s s c c); try done.
    + by rewrite insert_id.
    + by eapply queue_ok_same.
    + unfold voting. by rewrite Hop.
    + by rewrite Es.
  - eapply op_change; try done; [by eapply queue_ok_same|]. unfold voting. by rewrite Hop, Es.
Qed.

Definition call_done (rc : Z) (g : view) : Prop := exists sc, g = at_phase PIdle false sc.

(** A client in progress has the vote of its thread and becomes active. *)
Lemma act_sync_done {D} sc (k : unit -> prog pm D) Q : skips p = false ->
  keeps' (at_phase PIdle false sc) (k tt) Q ->
  keeps' (at_phase OSync true sc)
    (prog_bind (on_client p (fun c => (tt, set_activated c))) k) Q.
Proof.
  intros Hs Hk. apply (act_change (OpRole p) t _ p); [done..|]. intros w s c Hi Hv Hc Hsk.
  destruct (op_client w s OSync c Hi) as [Hop Hok]; [by rewrite Hv|done|].
  apply (implb_use _ _ (ok_sync_done _ _ _ _ _)) in Hok. apply andb_split in Hok as [Hst Hok].
  unfold state_is in Hst. apply bool_decide_eq_true in Hst.
  destruct (set_activated_spec c) as (A1&A2&A3&A4).
  unfold get_client. rewrite Hc. cbn [mbind option_bind].
  exists tt, (set_client s p (set_activated c)), VJoin, PIdle. split; [done|]. split; [|exact Hk].
  pose proof (pi_clients _ _ Hi) as Hcl. eapply change_client; try done.
  - by eapply queue_ok_same.
  - split; [apply voting_inactive; by rewrite Hst|]. split.
    + apply voting_active; [congruence|by rewrite A1|done].
    + split; [apply (view_credit (OpRole p))|apply (view_unclaimed (OpRole p))]; by rewrite Hv.
  - by rewrite A1, A2.
Qed.

Lemma keeps_tail sync sc :
  keeps' (at_phase PIdle false sc) (activate_tail p sync) call_done.
Proof.
  apply (act_bit (OpRole p) t _ p true); [done|]. destruct sync.
  - eapply keeps_bind; [apply keeps_scaling|]. intros ? g (sc'&->). by exists sc'.
  - apply act_modifies; [apply pm_inv_queue_scaling|]. by exists sc.
Qed.

Lemma keeps_activate_helper sync sc :
  keeps' (at_phase OStart false sc) (ipa_pm_activate_helper p sync) call_done.
Proof.
  apply act_activate.
  - intros rc. by exists sc.
  - apply keeps_tail.
  - intros Hs. change (keeps' (at_phase OSync false sc)
      (ipa3_inc_client_enable_clks ;; on_client p (fun c => (tt, set_activated c)) ;;
       activate_tail p sync) call_done).
    eapply pm_keeps_bind; [apply moves_inc|]. intros _.
    apply act_sync_done; [done|]. apply keeps_tail.
Qed.

Lemma keeps_deferred sc :
  keeps' (at_phase PIdle false sc) (atomically (deferred_section p)) call_done.
Proof.
  apply bind_ret_inv, (act_change (OpRole p) t _ p); [done..|]. intros w s c Hi Hv Hc Hsk.
  destruct (op_client w s PIdle c Hi) as [Hop Hok]; [by rewrite Hv|done|].
  pose proof (implb_use _ _ (ok_deferred _ _ _ _ _) Hok) as Hst.
  pose proof (pi_clients _ _ Hi) as Hcl.
  unfold deferred_section, get_client. rewrite Hc. cbn [mbind option_bind].
  assert (Hret : call_done 0 (at_phase PIdle false sc)) by (by exists sc).
  assert (Hno : pm_inv (set_phase (OpRole p) PIdle (moved t p VStay w)) s).
  { eapply (op_change w s s c c); try done; [by rewrite insert_id|by eapply queue_ok_same|].
    by rewrite Hop. }
  destruct (state c) eqn:Es; eexists 0, _, VStay, PIdle; (split; [done|]); (split; [|exact Hret]);
    try exact Hno.
  - eapply op_change; try done; [by eapply queue_ok_same|]. unfold voting. by rewrite Es, Hop.
  - apply andb_split in Hst as [Hnp Hst]. apply negb_true_iff in Hnp.
    unfold queue_delayed_work. change (delayed_work_pending (set_client s p _) p)
      with (delayed_work_pending s p). rewrite Hnp. eapply op_change; try done.
    + by eapply queue_ok_delayed.
    + unfold voting. by rewrite Es, Hop.
    + cbn [state completion update set_client]. replace (delayed_work_pending _ p) with true; [exact Hst|].
      symmetry. apply orb_true_iff. left. apply bool_decide_eq_true. cbn. set_solver.
  - eapply op_change; try done; [by eapply queue_ok_same|]. unfold voting. by rewrite Es, Hop.
  - eapply op_change; try done; [by eapply queue_ok_same|]. unfold voting. by rewrite Es, Hop.
Qed.

(** ** [ipa_pm_deactivate_sync] *)

Lemma not_executing w s : pm_inv w s -> running s <> Some (DeactivateWork p) ->
  negb (is_work (work_phase w p) TPre) = true.
Proof.
  intros Hi Hn. pose proof (cl_run _ _ (pi_clients _ _ Hi)) as Hr.
  unfold work_phase, is_work. destruct (gwk w) as [| | | | | | | |k q] eqn:E; try done.
  destruct (decide (q = p)) as [->|Hne]; [|by rewrite (bool_decide_false (q = p))].
  rewrite (bool_decide_true (p = p)) by done. rewrite bool_decide_false; [done|]. intros [= ->].
  destruct (running s) as [[q|q|]|]; cbn in Hr; try done; naive_solver.
Qed.

(** A cancellation in a phase that ends in [ph]. *)
Lemma act_cancel {D} ph0 ph sc (k : unit -> prog pm D) Q :
  (forall st cm pa pd wk, client_ok st cm pa pd wk ph0 = true -> negb (is_work wk TPre) = true ->
     client_ok st cm pa false wk ph = true) ->
  is_phase ph ODebit = false -> is_phase ph0 ODebit = false ->
  keeps' (at_phase ph false sc) (k tt) Q ->
  keeps' (at_phase ph0 false sc) (prog_bind (cancel_delayed_work_sync p) k) Q.
Proof.
  intros Hcases Hd Hd0 Hk w s Hi Hv. destruct (live_client w s p Hi Hlive) as (c&Hc&_).
  unfold get_client. rewrite Hc. case_bool_decide as Hrun.
  { split; [done|]. right. exists p. split; [done|by left]. }
  destruct (op_client w s ph0 c Hi) as [Hop Hok]; [by rewrite Hv|done|].
  pose proof (Hcases _ _ _ _ _ Hok (not_executing w s Hi Hrun)) as Hok'.
  pose proof (pi_clients _ _ Hi) as Hcl.
  exists (set_phase (OpRole p) ph (moved t p VStay w)). split; [|split; [apply guar_change|]].
  - eapply (op_change w s _ c c); try done.
    + by rewrite insert_id.
    + by eapply queue_ok_cancel.
    + unfold voting. by rewrite Hop, Hd, Hd0.
    + by rewrite cancel_clears, cancel_keeps_activation.
  - rewrite view_change, Hv by done. exact Hk.
Qed.

(** The unlocked read of the state. *)
Lemma act_first_read {D} sc (k : ipa_pm_state -> prog pm D) Q :
  (forall st, keeps' (at_phase (if IPA_PM_STATE_IN_PROGRESS st then OWait else OQuiet) false sc) (k st) Q) ->
  keeps' (at_phase OCancelled false sc) (prog_bind (client_field p state) k) Q.
Proof.
  intros Hk. apply (act_change (OpRole p) t _ p); [done..|]. intros w s c Hi Hv Hc Hsk.
  destruct (op_client w s OCancelled c Hi) as [Hop Hok]; [by rewrite Hv|done|].
  apply (implb_use _ _ (ok_first_read _ _ _ _ _)) in Hok.
  pose proof (pi_clients _ _ Hi) as Hcl.
  unfold get_client. rewrite Hc. cbn [mbind option_bind].
  exists (state c), s, VStay, (if IPA_PM_STATE_IN_PROGRESS (state c) then OWait else OQuiet).
  split; [done|]. split; [|exact (Hk (state c))].
  eapply (op_change w s s c c); try done; [by rewrite insert_id|by eapply queue_ok_same|].
  unfold voting. rewrite Hop. by destruct (IPA_PM_STATE_IN_PROGRESS _).
Qed.

Lemma act_wait {D} sc (k : unit -> prog pm D) Q :
  keeps' (at_phase OQuiet false sc) (k tt) Q ->
  keeps' (at_phase OWait false sc) (prog_bind (wait_for_completion p) k) Q.
Proof.
  intros Hk w s Hi Hv. destruct (live_client w s p Hi Hlive) as (c&Hc&_).
  unfold get_client. rewrite Hc. destruct (completion c) eqn:Ecm.
  2: { split; [done|]. right. exists p. split; [done|]. right. split; [done|by eauto]. }
  destruct (op_client w s OWait c Hi) as [Hop Hok]; [by rewrite Hv|done|].
  rewrite Ecm in Hok. apply (implb_use _ _ (ok_waited _ _ _ _)) in Hok.
  pose proof (pi_clients _ _ Hi) as Hcl.
  exists (set_phase (OpRole p) OQuiet (moved t p VStay w)). split; [|split; [apply guar_change|]].
  - eapply (op_change w s s c c); try done; [by rewrite insert_id|by eapply queue_ok_same| |by rewrite Ecm].
    unfold voting. by rewrite Hop.
  - rewrite view_change, Hv by done. exact Hk.
Qed.

(** The read under the client's lock: the client is at rest, or the thread
    takes over its vote. *)
Lemma act_second_read {D} sc (k : ipa_pm_state -> prog pm D) Q :
  keeps' (at_phase PIdle false sc) (k IPA_PM_DEACTIVATED) Q ->
  (forall st, st <> IPA_PM_DEACTIVATED -> keeps' (at_phase ODebit (negb (skips p)) sc) (k st) Q) ->
  keeps' (at_phase OQuiet false sc) (prog_bind (client_field p state) k) Q.
Proof.
  intros Hk0 Hk1. apply (act_change (OpRole p) t _ p); [done..|]. intros w s c Hi Hv Hc Hsk.
  destruct (op_client w s OQuiet c Hi) as [Hop Hok]; [by rewrite Hv|done|].
  apply (implb_use _ _ (ok_second_read _ _ _ _ _)) in Hok. unfold state_is in Hok.
  pose proof (pi_clients _ _ Hi) as Hcl.
  unfold get_client. rewrite Hc. cbn [mbind option_bind]. case_bool_decide as Est.
  - exists (state c), s, VStay, PIdle. split; [done|]. split; [|rewrite Est; exact Hk0].
    eapply (op_change w s s c c); try done; [by rewrite insert_id|by eapply queue_ok_same|].
    unfold voting. by rewrite Hop.
  - apply andb_split in Hok as [Hact Hok].
    exists (state c), s, (if skip_clk_vote c then VStay else VLeave), ODebit. split; [done|]. split.
    + eapply (change_client _ _ _ _ _ w s s c c); try done.
      * by rewrite insert_id.
      * by eapply queue_ok_same.
      * apply vote_leaves; try done; [by rewrite Hop| |apply (view_no_credit (OpRole p)); by rewrite Hv].
        unfold voting. cbn. by rewrite andb_false_r.
    + rewrite Hsk. specialize (Hk1 (state c) Est). destruct (skips p); exact Hk1.
Qed.

Lemma act_set_deactivated {D} sc (k : unit -> prog pm D) Q :
  keeps' (at_phase ODone false sc) (k tt) Q ->
  keeps' (at_phase ODebit false sc)
    (prog_bind (on_client p (fun c => (tt, c <| state := IPA_PM_DEACTIVATED |>))) k) Q.
Proof.
  intros Hk. apply (act_change (OpRole p) t _ p); [done..|]. intros w s c Hi Hv Hc Hsk.
  destruct (op_client w s ODebit c Hi) as [Hop Hok]; [by rewrite Hv|done|].
  apply (implb_use _ _ (ok_deactivates _ _ _ _ _)) in Hok. apply andb_split in Hok as [_ Hok].
  pose proof (pi_clients _ _ Hi) as Hcl.
  unfold get_client. rewrite Hc. cbn [mbind option_bind].
  eexists tt, _, VStay, ODone. split; [done|]. split; [|exact Hk].
  eapply op_change; try done; [by eapply queue_ok_same|]. unfold voting. rewrite Hop. cbn.
  by rewrite !andb_false_r.
Qed.

Lemma keeps_deactivate_sync h sc : 0 <= h < IPA_PM_MAX_CLIENTS ->
  keeps' (at_phase PIdle false sc)
    (cancel_delayed_work_sync p ;;
     let* st := client_field p state in
     (if IPA_PM_STATE_IN_PROGRESS st then wait_for_completion p else Ret tt) ;;
     let* st := client_field p state in
     if bool_decide (st = IPA_PM_DEACTIVATED) then Ret 0 else
     devote_clock p ;;
     on_client p (fun c => (tt, c <| state := IPA_PM_DEACTIVATED |>)) ;;
     cancel_delayed_work_sync p ;;
     atomically (fun s => s ← deactivate_client s h; Some (tt, s)) ;;
     do_clk_scaling ;;
     Ret 0) call_done.
Proof.
  intros Hh. apply act_cancel with (ph := OCancelled); [|done|done|].
  { intros st cm pa pd wk H1 H2. apply (implb_use _ _ (ok_cancel st cm pa pd wk)). by rewrite H1, H2. }
  apply act_first_read. intros st.
  apply (pm_keeps_bind _ _ _ (at_phase OQuiet false sc)).
  { destruct (IPA_PM_STATE_IN_PROGRESS st); [|done]. apply bind_ret_inv. by apply act_wait. }
  intros _. apply act_second_read; [by exists sc|]. intros st' Hst'.
  rewrite bool_decide_false by done. eapply pm_keeps_bind; [by apply moves_devote|]. intros _.
  apply act_set_deactivated. apply act_cancel with (ph := PIdle); [|done|done|].
  { intros st'' cm pa pd wk H1 _. apply (implb_use _ _ (ok_second_cancel st'' cm pa pd wk)) in H1.
    by apply andb_split in H1 as [_ ?]. }
  apply act_atomically. intros w s Hi Hv.
  destruct (pm_inv_bitmask w s h (fun b => Z.land b (u32 (Z.lnot (ipahal_get_ep_bit h)))) Hi Hh)
    as (s'&E&Hi'). exists tt, s'. unfold deactivate_client. rewrite E. split; [done|]. split; [done|].
  eapply keeps_bind; [apply keeps_scaling|]. intros ? g (sc'&->). by exists sc'.
Qed.

(** The checks of a handle whose client exists. *)
Lemma keeps_with_client h g (f : Z -> prog pm Z) Q : handles.[h] = Some p -> h < IPA_PM_MAX_CLIENTS ->
  keeps' g (f p) Q -> keeps' g (with_client h f) Q.
Proof.
  intros Hh Hlt Hk.
  assert (Hp0 : forall w s, pm_inv w s -> p <> NULL_CLIENT).
  { intros w s Hi ->. destruct (live_client w s _ Hi Hlive) as (c&Hc&_).
    by rewrite (sh_null _ (pi_shape _ _ Hi)) in Hc. }
  assert (Hread : forall D (k : Z -> prog pm D) Q', (p <> NULL_CLIENT -> keeps' g (k p) Q') -> keeps' g
    (prog_bind (atomically (fun s => p ← client_at s h; Some (p, s))) k) Q').
  { intros D k Q' H. apply act_atomically. intros w s Hi Hv. unfold client_at.
    rewrite (pi_handles _ _ Hi), Hh. cbn [mbind option_bind]. exists p, s. split; [done|].
    split; [done|]. apply H. by apply (Hp0 w s). }
  unfold with_client. eapply (keeps_bind _ _ _ _ _ _ _ _ (fun a g' => a = Some p /\ g' = g)).
  2: { intros a g' [-> ->]. exact Hk. }
  apply act_reads. intros w s Hi Hv. rewrite (sh_context _ (pi_shape _ _ Hi)). cbn [negb].
  rewrite (proj2 (Z.leb_gt IPA_PM_MAX_CLIENTS h)) by lia.
  apply Hread. intros Hp. rewrite (proj2 (Z.eqb_neq p NULL_CLIENT)) by done. apply Hread. done.
Qed.
End Ops.
