(* ===== verification/PmReach.v ===== *)
(** * The power manager's invariant: the machine

    Only the queue itself changes which item it executes, and an item that is
    executed queues no other item: it only starts timers.

    Whatever the threads, the work queue, the timers and the other users of the
    clocks do, in any order, the invariant holds as long as calls are made as
    [permitted] says; nothing undefined happens, and there is no deadlock. *)
From stdpp Require Import functions.
From S2P Require Import Prelude RecordUpdate Interleave PmData PmOps PmMach PmInv PmScale PmKeeps.
From S2P Require Import PmCalls.

(** [s'] executes the same item as [s], and has the same queue when [q] says so. *)
Definition same_queue (q : bool) (s s' : pm) : Prop :=
  running s' = running s /\ (q = true -> work_list s' = work_list s).

Section Leaves.
Context {C : pm_config} (q : bool).

Fixpoint leaves {A : Type} (p : prog pm A) : Prop :=
  match p with
  | Ret _ => True
  | Act f k => (forall s b s', f s = Next (b, s') -> same_queue q s s') /\ forall b, leaves (k b)
  end.

Lemma leaves_bind {A D} (p : prog pm A) (k : A -> prog pm D) :
  leaves p -> (forall a, leaves (k a)) -> leaves (prog_bind p k).
Proof. intros Hp Hk. induction p as [a|B f k' IH]; cbn; [done|]. destruct Hp. split; auto. Qed.

Lemma leaves_atomically {A} (f : pm -> option (A * pm)) :
  (forall s a s', f s = Some (a, s') -> same_queue q s s') -> leaves (atomically f).
Proof.
  intros H. split; [|done]. intros s b s'. destruct (f s) as [[a s1]|] eqn:E; [|done].
  intros [= <- <-]. by eapply H.
Qed.
Lemma leaves_on_clk {A} (f : clk_state -> A * clk_state) : leaves (on_clk f).
Proof. split; [|done]. intros s b s' H. destruct (f (clk s)). injection H as _ <-. done. Qed.
Lemma leaves_upd_clk f : leaves (upd_clk f).
Proof. split; [|done]. by intros s b s' [= _ <-]. Qed.
Lemma leaves_reads {A} (f : pm -> A) : leaves (reads f).
Proof. split; [|done]. by intros s b s' [= _ <-]. Qed.
Lemma leaves_lock : leaves lock_clk.
Proof. split; [|done]. intros s b s'. destruct (clk_mutex _); [done|]. by intros [= _ <-]. Qed.
Lemma leaves_bug {A} : leaves (bug (A := A)).
Proof. done. Qed.
Lemma leaves_wait p : leaves (wait_for_completion p).
Proof.
  split; [|done]. intros s b s'. destruct (get_client s p); [|done].
  destruct (completion _); [|done]. by intros [= _ <-].
Qed.
Lemma leaves_on_client {A} p (f : ipa_pm_client -> A * ipa_pm_client) : leaves (on_client p f).
Proof.
  apply leaves_atomically. intros s a s'. destruct (get_client s p) as [c|]; [|done]. cbn.
  destruct (f c). by intros [= _ <-].
Qed.
Lemma leaves_field {A} p (f : ipa_pm_client -> A) : leaves (client_field p f).
Proof.
  apply leaves_atomically. intros s a s'. destruct (get_client s p); [|done]. by intros [= _ <-].
Qed.
Lemma leaves_modifies f : (forall s, same_queue q s (f s)) -> leaves (modifies f).
Proof. intros H. split; [|done]. by intros s b s' [= _ <-]. Qed.
End Leaves.

Create HintDb leaves.
#[export] Hint Resolve leaves_on_clk leaves_upd_clk leaves_reads leaves_lock leaves_bug leaves_wait
  leaves_on_client leaves_field : leaves.
#[export] Hint Extern 1 (leaves _ (Ret _)) => exact I : leaves.
#[export] Hint Extern 1 (same_queue _ ?s ?s) => done : leaves.

Ltac leaves :=
  repeat first
    [ solve [auto with leaves] | progress intros | simple apply leaves_bind; [|intros]
    | match goal with
      | |- leaves _ (if ?b then _ else _) => destruct b
      | |- leaves _ (match ?x with _ => _ end) => destruct x
      end ].
(** Every case of a critical section. *)
Ltac section_of f :=
  unfold f, get_client, client_at, set_client, set_activated in *; intros; cbn in *;
  repeat (simplify_option_eq; try case_match; try case_decide; simplify_eq; cbn in * ); try done.

Section Sections.
Context {C : pm_config} (q : bool).

Lemma queue_work_running i s : same_queue false s (queue_work i s).
Proof. unfold queue_work. by case_bool_decide. Qed.
Lemma queue_delayed_same p s s' : same_queue q s s' -> same_queue q s (queue_delayed_work p s').
Proof. unfold queue_delayed_work. by destruct (delayed_work_pending _ _). Qed.
Lemma leaves_cancel p : leaves false (cancel_delayed_work_sync p).
Proof.
  split; [|done]. intros s b s'. destruct (get_client s p); [|done].
  case_bool_decide; [done|]. by intros [= _ <-].
Qed.

Lemma leaves_scaling : leaves q (atomically scaling_section).
Proof. apply leaves_atomically. unfold scaling_section, set_current_threshold. section_of client_at. Qed.
Lemma leaves_activate_work_section p : leaves q (atomically (activate_work_section p)).
Proof. apply leaves_atomically. section_of activate_work_section. Qed.
Lemma leaves_deactivate_work_section p : leaves q (atomically (deactivate_work_section p)).
Proof.
  apply leaves_atomically. section_of deactivate_work_section. by apply (queue_delayed_same p).
Qed.
Lemma leaves_call_back p e : leaves q (atomically (call_back p e)).
Proof. apply leaves_atomically. section_of call_back. Qed.
Lemma leaves_activate_bit h : leaves q (atomically (fun s => s ← activate_client s h; Some (tt, s))).
Proof. apply leaves_atomically. unfold activate_client, with_bitmask. section_of client_at. Qed.
Lemma leaves_deactivate_bit h : leaves q (atomically (fun s => s ← deactivate_client s h; Some (tt, s))).
Proof. apply leaves_atomically. unfold deactivate_client, with_bitmask. section_of client_at. Qed.
Lemma leaves_activate_section p sync : leaves false (atomically (activate_section p sync)).
Proof.
  apply leaves_atomically. unfold activate_section, ipa3_inc_client_enable_clks_no_block, atomic_inc_not_zero.
  section_of client_at; unfold queue_work; by case_bool_decide.
Qed.
Lemma leaves_first_section p sync : leaves false (atomically (activate_first_section p sync)).
Proof.
  pose proof (leaves_activate_section p sync) as [H _]. apply leaves_atomically. intros s a s'.
  unfold activate_first_section, get_client. destruct (heap s !! p); [|done]. cbn [mbind option_bind].
  destruct (IPA_PM_STATE_IN_PROGRESS _).
  - destruct sync; by intros [= _ <-].
  - specialize (H s). destruct (activate_section p sync s) as [[r s1]|] eqn:E; [|done].
    cbn. intros [= _ <-]. by eapply H.
Qed.
Lemma leaves_deferred_section p : leaves q (atomically (deferred_section p)).
Proof. apply leaves_atomically. section_of deferred_section. by apply (queue_delayed_same p). Qed.
Lemma leaves_set_throughput_section h tput : leaves q (atomically (set_throughput_section h tput)).
Proof. apply leaves_atomically. section_of set_throughput_section. Qed.
Lemma leaves_client_at {A} h (f : Z -> A) :
  leaves q (atomically (fun s => p ← client_at s h; Some (f p, s))).
Proof. apply leaves_atomically. section_of client_at. Qed.
End Sections.
#[export] Hint Resolve leaves_scaling leaves_activate_work_section leaves_deactivate_work_section
  leaves_call_back leaves_activate_bit leaves_deactivate_bit leaves_first_section leaves_cancel
  leaves_activate_section leaves_deferred_section leaves_set_throughput_section : leaves.
#[export] Hint Extern 2 (leaves _ (atomically (fun s => p ← client_at s _; Some (p, s)))) =>
  apply (leaves_client_at _ _ (fun p => p)) : leaves.
#[export] Hint Extern 2 (leaves _ (modifies _)) =>
  apply leaves_modifies; intros; try case_match; solve [done|apply queue_work_running] : leaves.

Section Programs.
Context {C : pm_config} (q : bool).

Lemma leaves_inc : leaves q ipa3_inc_client_enable_clks.
Proof. unfold ipa3_inc_client_enable_clks, unlock_clk. leaves. Qed.
Lemma leaves_disable : leaves q ipa3_disable_clks.
Proof. unfold ipa3_disable_clks, ipa_pm_set_clock_index. leaves. Qed.
Lemma leaves_dec : leaves q __ipa3_dec_client_disable_clks.
Proof. pose proof leaves_disable. unfold __ipa3_dec_client_disable_clks, unlock_clk. leaves. Qed.
Lemma leaves_dec_no_block : leaves q ipa3_dec_client_disable_clks_no_block.
Proof. unfold ipa3_dec_client_disable_clks_no_block. leaves. Qed.
Lemma leaves_compare tput k : forall i idx, leaves q (compare_thresholds tput i k idx).
Proof.
  induction k as [|k IH]; intros i idx; [done|]. apply leaves_bind; [|auto].
  apply leaves_atomically. unfold threshold_at. section_of client_at.
Qed.
Lemma leaves_plan idx : leaves q (ipa3_set_clock_plan_from_pm idx).
Proof. unfold ipa3_set_clock_plan_from_pm, unlock_clk. leaves. Qed.
Lemma leaves_do_scaling : leaves q do_clk_scaling.
Proof. pose proof leaves_compare. pose proof leaves_plan. unfold do_clk_scaling. leaves. Qed.
Lemma leaves_vote p : leaves q (vote_clock p).
Proof. pose proof leaves_inc. unfold vote_clock, stay_awake. leaves. Qed.
Lemma leaves_devote p : leaves q (devote_clock p).
Proof. pose proof leaves_dec. unfold devote_clock, relax. leaves. Qed.
Lemma leaves_bits p : leaves q (set_active_bit p) /\ leaves q (clear_active_bit p).
Proof. unfold set_active_bit, clear_active_bit. split; leaves. Qed.

Lemma leaves_work_func i : leaves q (work_func i).
Proof.
  pose proof leaves_do_scaling. destruct i as [p|p|]; [| |done]; pose proof (leaves_vote p);
    pose proof (leaves_devote p); destruct (leaves_bits p); cbn [work_func];
    unfold activate_work_func, delayed_deferred_deactivate_work_func; leaves.
Qed.
End Programs.
#[export] Hint Resolve leaves_do_scaling leaves_inc leaves_dec leaves_dec_no_block leaves_devote : leaves.

Section Calls.
Context {C : pm_config}.

Lemma leaves_helper p sync : leaves false (ipa_pm_activate_helper p sync).
Proof.
  destruct (leaves_bits false p). unfold ipa_pm_activate_helper, activate_tail. leaves.
Qed.
Lemma leaves_with_client h f : (forall p, leaves false (f p)) -> leaves false (with_client h f).
Proof. intros H. unfold with_client, checked_client. leaves. Qed.

(** The calls that [permitted] allows. *)
Lemma leaves_call c : match c with DeactivateAllDeferred | Deregister _ => True
                      | _ => leaves false (call_prog c) end.
Proof.
  pose proof leaves_helper. destruct c as [h|h|h|h| |h tput|h| | | |w]; cbn [call_prog]; unfold returning;
    try done.
  1-4: apply leaves_with_client; intros; leaves.
  1: unfold ipa_pm_set_throughput.
  all: leaves.
Qed.
End Calls.

(** ** Calls that concern no client *)
Section Free.
Context {C : pm_config} {N : pm_constants} (no_irq : gsi_pending_irq_type = 0) (t : thread).
Abbreviation keeps' := (pm_keeps FreeRole t).

Lemma moves_dec_no_block sc :
  pm_moves FreeRole t (Build_view PIdle true None false sc) ipa3_dec_client_disable_clks_no_block
    (Build_view PIdle false None false sc).
Proof.
  apply act_on_clk with
    (W := fun (b : bool) w => if b then w <| gcr := gcr w ∖ {[t]} |> else w <| gclaim := Some t |>)
    (g' := fun b : bool => Build_view PIdle (negb b) None (negb b) sc); [|by intros []|].
  - intros w c Hc Hv. assert (Ht : t ∈ gcr w) by (apply (view_credit FreeRole); by rewrite Hv).
    unfold atomic_dec_unless_one. destruct (Z.eqb_spec (cnt c) 1) as [E|E].
    + destruct (sole_vote t w c Hc Ht E) as [Ho Hcl].
      assert (Hn : gclaim w = None).
      { destruct Hcl as [|Hcl]; [done|]. apply (view_claimed FreeRole) in Hcl. by rewrite Hv in Hcl. }
      split; [by apply clk_inv_claim|]. split; [by apply guar_claim|]. by rewrite view_claim, Hv.
    + split; [apply clk_inv_sub; auto; apply (view_unclaimed FreeRole); by rewrite Hv|].
      split; [apply guar_cr_del|by rewrite view_cr_del, Hv].
  - intros []; [done|]. apply bind_ret_inv, act_hand_over; [done| |done].
    intros c _ E. unfold owed, b2z. cbn. rewrite E. lia.
Qed.

Lemma live_handle w s h p : pm_inv w s -> client_at s h = Some p -> p <> NULL_CLIENT -> p ∈ live.
Proof.
  intros Hi Hp Hne. rewrite <- (pi_live _ _ Hi). apply elem_of_dom.
  destruct (sh_client _ (pi_shape _ _ Hi) h p Hp) as [|(c&Hc&_)]; [done|by eauto].
Qed.

Lemma pm_inv_groups w s g : pm_inv w s -> lengthZ g = 3 -> pm_inv w (s <| group_tput := g |>).
Proof.
  intros [Hk Hcl [] Hn Hh Hl Hsk Hsc] Hg. split; try done.
  eapply clients_inv_frame; [exact Hcl|done..|apply Hcl|done].
Qed.

Lemma keeps_set_throughput h tput sc : 0 <= h ->
  keeps' (Build_view PIdle false None false sc) (ipa_pm_set_throughput h tput)
    (fun _ g => exists sc', g = Build_view PIdle false None false sc').
Proof.
  intros Hh. assert (Hret : exists sc', Build_view PIdle false None false sc
    = Build_view PIdle false None false sc') by (by exists sc).
  apply act_reads_any. intros []; [cbn [negb]|done].
  apply act_atomically. intros w s Hi Hv. unfold set_throughput_section.
  destruct (Z.leb_spec IPA_PM_MAX_CLIENTS h) as [|Hlt]; [by exists None, s|].
  destruct (lookupZ_in_range (clients s) h) as [p Hp];
    [rewrite (sh_clients _ (pi_shape _ _ Hi)); lia|]. unfold client_at. rewrite Hp. cbn [mbind option_bind].
  destruct ((p =? NULL_CLIENT) || (tput <? 0)) eqn:E; [by exists None, s|].
  apply orb_false_iff in E as [E _]. apply Z.eqb_neq in E.
  pose proof (live_handle w s h p Hi Hp E) as Hlive.
  destruct (live_client w s p Hi Hlive) as (c&Hc&_). unfold get_client. rewrite Hc.
  cbn [mbind option_bind].
  assert (Hk : keeps' (Build_view PIdle false None false sc)
    (let* q := atomically (fun s => q ← client_at s h; Some (q, s)) in
     if q =? NULL_CLIENT then Ret 0 else
     let* needed := client_field p (fun c => IPA_PM_STATE_ACTIVE (state c)
                      || negb (bool_decide (group c = IPA_PM_GROUP_DEFAULT))) in
     if needed : bool then do_clk_scaling ;; Ret 0 else Ret 0)
    (fun _ g => exists sc', g = Build_view PIdle false None false sc')).
  { apply act_atomically. intros w1 s1 Hi1 _. unfold client_at.
    destruct (lookupZ_in_range (clients s1) h) as [q ->];
      [rewrite (sh_clients _ (pi_shape _ _ Hi1)); lia|].
    cbn [mbind option_bind]. exists q, s1. split; [done|]. split; [done|].
    destruct (q =? NULL_CLIENT); [done|]. apply act_field; [done|]. intros _ _ d _ _ _ _ _.
    destruct (_ || _); [|done]. eapply keeps_bind; [apply keeps_scaling|].
    intros ? g (sc'&->). by exists sc'. }
  destruct (bool_decide (group c = IPA_PM_GROUP_DEFAULT)).
  - exists (Some p), (set_client s p (c <| throughput := tput |>)). split; [done|].
    split; [by eapply client_frame|exact Hk].
  - pose proof (sh_groups _ (pi_shape _ _ Hi)) as Hg.
    rewrite storeZ_Some by (rewrite Hg; destruct (group c); cbn; lia). cbn [mbind option_bind].
    eexists (Some p), _. split; [done|]. split; [|exact Hk]. apply pm_inv_groups; [done|].
    by rewrite lengthZ_updateZ.
Qed.
End Free.

(** ** The machine *)

Lemma ok_begin st cm pa pd wk :
  implb (client_ok st cm pa pd wk PIdle && negb (IPA_PM_STATE_IN_PROGRESS st)
         && negb (is_work wk WPre) && negb (is_work wk WCompl))
    (client_ok st cm pa pd wk OStart) = true.
Proof. client_cases. Qed.
Lemma ok_dequeue_activate st cm pd op :
  implb (client_ok st cm true pd None op) (client_ok st cm false pd (Some WPre) op) = true.
Proof. client_cases. Qed.
Lemma ok_dequeue_deactivate st cm pa op :
  implb (client_ok st cm pa true None op) (client_ok st cm pa false (Some TPre) op) = true.
Proof. client_cases. Qed.
Lemma ok_work_end st cm pa pd wk op :
  implb (client_ok st cm pa pd wk op && (is_work wk WTail || is_work wk TTail))
    (client_ok st cm pa pd None op) = true.
Proof. client_cases. Qed.
(** Nobody waits for an activation that is neither queued nor executed. *)
Lemma ok_waiting st pd : client_ok st false false pd None OWait = false.
Proof. by destruct st, pd. Qed.

Section Reach.
Context {C : pm_config} {N : pm_constants} (no_irq : gsi_pending_irq_type = 0).

Definition call_role (c : call) : role :=
  match call_client c with
  | Some h => match handles.[h] with Some p => OpRole p | None => FreeRole end
  | None => FreeRole
  end.

Lemma call_not_work c : compatible (call_role c) WorkRole /\ compatible WorkRole (call_role c) /\
  compatible (call_role c) FreeRole.
Proof. unfold call_role. destruct (call_client c) as [h|]; [|done]. by destruct (handles.[h]). Qed.

(** How a call ends. *)
Definition call_post (c : call) (rc : Z) (g : view) : Prop :=
  exists sc, g = Build_view PIdle (match c with IncClients => true | _ => false end) None false sc.

(** How the execution of an item ends. *)
Definition work_post (i : option work_item) (u : unit) (g : view) : Prop :=
  match i with
  | Some (ActivateWork p) | Some (DeactivateWork p) => work_done p g
  | _ => exists sc, g = Build_view PIdle false None false sc
  end.

Definition idle_thread (t : thread) (w : ghost) : Prop :=
  (t ∉ gcr w) /\ thread_mutex t w = None /\ gclaim w <> Some t.

Record machine_ok (w : ghost) (m : machine) : Prop := {
  mo_inv : pm_inv w (mem m);
  mo_others : gothers w = others m;
  mo_calls t c q : calls m !! t = Some (c, q) ->
    pm_keeps (call_role c) (Some t) (gview (call_role c) (Some t) w) q (call_post c);
  mo_roles t t' c c' q q' : calls m !! t = Some (c, q) -> calls m !! t' = Some (c', q') -> t <> t' ->
    compatible (call_role c) (call_role c');
  mo_worker : match worker m with
              | Some q => is_Some (running (mem m)) /\
                  pm_keeps WorkRole None (gview WorkRole None w) q (work_post (running (mem m)))
              | None => running (mem m) = None /\ idle_thread None w
              end;
  mo_idle t : calls m !! t = None -> idle_thread (Some t) w;
  mo_clients p : (forall t c q, calls m !! t = Some (c, q) -> call_role c <> OpRole p) ->
    gop w p = PIdle;
}.

(** What a step of one thread leaves to the others. *)
Lemma compatible_sym r r' : compatible r r' -> compatible r' r.
Proof. destruct r, r'; cbn; auto. Qed.

Lemma idle_view r t w w' : gview r t w' = gview r t w -> idle_thread t w -> idle_thread t w'.
Proof.
  intros E (H1&H2&H3). apply (view_no_credit r) in H1. apply (view_unclaimed r) in H3.
  change (v_mx (gview r t w) = None) in H2. rewrite <- E in *.
  apply view_no_credit in H1. by apply view_unclaimed in H3.
Qed.

Lemma other_clients r t w w' p : guar r t w w' ->
  r <> OpRole p -> gop w' p = gop w p.
Proof.
  intros [_ H] Hr. assert (Hx : exists t' : thread, t' <> t).
  { destruct t; [by exists None|by exists (Some 0%nat)]. }
  destruct Hx as [t' Ht'].
  assert (Hc : compatible r (OpRole p)) by (destruct r; cbn; [congruence|done|done]).
  pose proof (H (OpRole p) t' Ht' Hc) as E. apply (f_equal v_ph) in E. exact E.
Qed.

(** A call begins, takes a step ([Some q'], what is left of it) or returns. *)
Lemma machine_update m w t c (oq : option (prog pm Z)) w' s' o' calls' :
  machine_ok w m ->
  (forall t' c' q, t' <> t -> calls m !! t' = Some (c', q) -> compatible (call_role c) (call_role c')) ->
  pm_inv w' s' -> running s' = running (mem m) -> gothers w' = o' ->
  (forall r' t', t' <> Some t -> compatible (call_role c) r' -> gview r' t' w' = gview r' t' w) ->
  (forall p, call_role c <> OpRole p -> gop w' p = gop w p) ->
  (forall c' q, calls m !! t = Some (c', q) -> c' = c) ->
  match oq with
  | Some q' => calls' = <[t := (c, q')]> (calls m) /\
      pm_keeps (call_role c) (Some t) (gview (call_role c) (Some t) w') q' (call_post c)
  | None => calls' = delete t (calls m) /\ idle_thread (Some t) w' /\
      forall p, call_role c = OpRole p -> gop w' p = PIdle
  end ->
  machine_ok w' (Build_machine s' calls' (worker m) o').
Proof.
  intros [Hi Ho Hc Hr Hw Hid Hcl] Hroles Hi' Hrun Ho' Hgv Hgop Hsame Hoq.
  assert (Hat : forall t', t' <> t -> calls' !! t' = calls m !! t').
  { intros t' Hne. destruct oq as [q'|]; destruct Hoq as [-> _].
    - by rewrite lookup_insert_ne.
    - by rewrite lookup_delete_ne. }
  assert (Hatt : forall c' q, calls' !! t = Some (c', q) -> c' = c /\ oq = Some q).
  { intros c' q. destruct oq as [q'|]; destruct Hoq as [-> _].
    - rewrite lookup_insert_eq. by intros [= <- <-].
    - by rewrite lookup_delete_eq. }
  split; cbn [mem calls worker others].
  - done.
  - done.
  - intros t' c' k Hk. destruct (decide (t' = t)) as [->|Hne].
    + apply Hatt in Hk as [-> ->]. apply Hoq.
    + rewrite Hat in Hk by done. rewrite Hgv; [by apply Hc|congruence|by eapply Hroles].
  - intros t1 t2 c1 c2 q1 q2 H1 H2 Hne.
    destruct (decide (t1 = t)) as [->|Hn1], (decide (t2 = t)) as [->|Hn2].
    + done.
    + apply Hatt in H1 as [-> _]. rewrite Hat in H2 by done. by eapply Hroles.
    + apply Hatt in H2 as [-> _]. rewrite Hat in H1 by done. apply compatible_sym. by eapply Hroles.
    + rewrite Hat in H1, H2 by done. by eapply Hr.
  - rewrite Hrun. destruct (worker m) as [k|].
    + destruct Hw as [? Hw]. split; [done|]. rewrite Hgv; [done|done|apply call_not_work].
    + destruct Hw. split; [done|]. apply (idle_view WorkRole None w); [|done].
      apply Hgv; [done|apply call_not_work].
  - intros t' Hn. destruct (decide (t' = t)) as [->|Hne].
    + destruct oq as [q'|]; destruct Hoq as [-> Hoq]; [by rewrite lookup_insert_eq in Hn|apply Hoq].
    + rewrite Hat in Hn by done. apply (idle_view FreeRole _ w); [|by apply Hid].
      apply Hgv; [congruence|apply call_not_work].
  - intros p Hp. assert (Hprev : call_role c <> OpRole p -> gop w' p = PIdle).
    { intros Hne. rewrite Hgop by done. apply Hcl. intros t' c' k Hk.
      destruct (decide (t' = t)) as [->|Hn]; [by rewrite (Hsame _ _ Hk)|].
      apply (Hp t' c' k). by rewrite Hat. }
    destruct oq as [q'|]; destruct Hoq as [-> Hoq].
    + apply Hprev, (Hp t c q'). by rewrite lookup_insert_eq.
    + destruct Hoq as [_ Hoq].
      destruct (call_role c) as [q| |] eqn:E; [|by apply Hprev|by apply Hprev].
      destruct (decide (q = p)) as [->|]; [by apply Hoq|apply Hprev; congruence].
Qed.

(** A step of a call. *)
Lemma machine_call m w t c q w' s' q' :
  machine_ok w m -> calls m !! t = Some (c, q) -> pm_inv w' s' -> running s' = running (mem m) ->
  guar (call_role c) (Some t) w w' ->
  pm_keeps (call_role c) (Some t) (gview (call_role c) (Some t) w') q' (call_post c) ->
  machine_ok w' (Build_machine s' (<[t := (c, q')]> (calls m)) (worker m) (others m)).
Proof.
  intros Hm Ht Hi Hrun Hg Hk. pose proof Hg as [Hgo Hgv].
  apply (machine_update m w t c (Some q')); try done.
  - intros t' c' k Hne Hk'. by apply (mo_roles _ _ Hm t t' c c' q k).
  - rewrite Hgo. apply Hm.
  - intros p Hp. by apply (other_clients _ _ _ _ p Hg).
  - intros c' k Hk'. rewrite Ht in Hk'. congruence.
Qed.

(** A step of the work queue, which goes on with [ow]. *)
Lemma machine_work m w ow w' s' :
  machine_ok w m -> pm_inv w' s' -> guar WorkRole None w w' ->
  match ow with
  | Some q => is_Some (running s') /\
      pm_keeps WorkRole None (gview WorkRole None w') q (work_post (running s'))
  | None => running s' = None /\ idle_thread None w'
  end ->
  machine_ok w' (Build_machine s' (calls m) ow (others m)).
Proof.
  intros [Hi Ho Hc Hr Hw Hid Hcl] Hi' Hg Hk. pose proof Hg as [Hgo Hgv].
  split; cbn [mem calls worker others]; try done.
  - congruence.
  - intros t c q Ht. rewrite Hgv; [by apply Hc|done|apply call_not_work].
  - intros t Ht. apply (idle_view FreeRole _ w); [|by apply Hid]. by apply Hgv.
  - intros p Hp. rewrite (other_clients _ _ _ _ p Hg) by done. by apply Hcl.
Qed.

(** ** A call begins *)

Definition start_phase (c : call) : phase :=
  match c with Activate _ | ActivateSync _ => OStart | _ => PIdle end.
Definition start_credit (c : call) : bool :=
  match c with DecClients | DecClientsNoBlock | PowerWork _ => true | _ => false end.

(** A handle whose client exists, and its address. *)
Definition handle_of (c : call) (p : Z) : Prop :=
  exists h, call_client c = Some h /\ handles.[h] = Some p /\ 0 <= h < IPA_PM_MAX_CLIENTS.

Lemma keeps_returning t g g' (p : prog pm unit) c : pm_moves FreeRole t g p g' -> call_post c 0 g' ->
  pm_keeps FreeRole t g (returning p) (call_post c).
Proof. intros Hp Hc. eapply pm_keeps_bind; [exact Hp|]. by intros _. Qed.

Lemma call_starts m c t sc : permitted m c ->
  (forall h, call_client c = Some h -> exists p, handle_of c p /\ p ∈ live) ->
  pm_keeps (call_role c) t (Build_view (start_phase c) (start_credit c) None false sc) (call_prog c)
    (call_post c).
Proof.
  intros Hper Hp.
  assert (Hclient : forall h, call_client c = Some h -> exists p, call_role c = OpRole p /\ p ∈ live /\
    handles.[h] = Some p /\ 0 <= h < IPA_PM_MAX_CLIENTS).
  { intros h Hc. destruct (Hp h Hc) as (p&(h'&Hc'&Hh&Hr)&Hl). rewrite Hc in Hc'. injection Hc' as <-.
    exists p. unfold call_role. rewrite Hc, Hh. done. }
  assert (Hfree : call_client c = None -> call_role c = FreeRole)
    by (intros E; unfold call_role; by rewrite E).
  destruct c as [h|h|h|h| |h tput|h| | | |w]; try done.
  1-4: destruct (Hclient h eq_refl) as (p&->&Hl&Hh&Hr); apply (keeps_with_client p t Hl h); [done|lia|].
  - by apply keeps_activate_helper.
  - by apply keeps_activate_helper.
  - by apply keeps_deferred.
  - by apply keeps_deactivate_sync.
  - rewrite Hfree by done. by apply keeps_set_throughput.
  - rewrite Hfree by done. eapply keeps_returning; [apply moves_inc|by exists sc].
  - rewrite Hfree by done. eapply keeps_returning; [by apply moves_dec|by exists sc].
  - rewrite Hfree by done. eapply keeps_returning; [by apply moves_dec_no_block|by exists sc].
  - rewrite Hfree by done. eapply keeps_returning; [by apply moves_dec|by exists sc].
Qed.
End Reach.
