(* ===== verification/PmSafe.v ===== *)
(** * The power manager's invariant: every step of the machine

    [machine_inv] holds after every step, when calls are made as [permitted]
    says. *)
From stdpp Require Import functions.
From S2P Require Import Prelude RecordUpdate Interleave PmData PmOps PmMach PmInv PmScale PmKeeps.
From S2P Require Import PmCalls PmReach.

Section Queue.
Context {C : pm_config} {N : pm_constants}.

(** The queue, the timers and what is executed change, the clients do not. *)
Record queue_step (w : ghost) (s : pm) (ph : phase) (s' : pm) : Prop := {
  qs_same : (ctx_allocated s', clients s', group_tput s', clk_scaling s', heap s', warned s', clk s')
          = (ctx_allocated s, clients s, group_tput s, clk_scaling s, heap s, warned s, clk s);
  qs_run : run_ok (running s') ph;
  qs_queue : NoDup (work_list s');
  qs_timers : NoDup (timers s');
  qs_pending p : p ∈ timers s' -> DeactivateWork p ∉ work_list s';
  qs_live p : activation_queued s' p || delayed_work_pending s' p = true \/ executed_client s' = Some p ->
    activation_queued s p || delayed_work_pending s p = true \/ executed_client s = Some p;
  qs_ok p st cm op :
    client_ok st cm (activation_queued s p) (delayed_work_pending s p) (work_phase w p) op = true ->
    client_ok st cm (activation_queued s' p) (delayed_work_pending s' p)
      (work_phase (w <| gwk := ph |>) p) op = true;
}.

Lemma pm_inv_queue w s ph s' : pm_inv w s -> queue_step w s ph s' -> pm_inv (w <| gwk := ph |>) s'.
Proof.
  intros [Hk [V O L R Q T P W] Hs Hn Hh Hl Hsk Hsc] [[= E1 E2 E3 E4 E5 E6 E7] Hr Hq Ht Hp Hlv Hok].
  split; rewrite ?E2, ?E4, ?E5, ?E7; try done.
  - by destruct Hk.
  - split; rewrite ?E5, ?E6; try done.
    + intros p c Hc. by apply Hok, O.
    + intros p Hx. by apply L, Hlv.
  - destruct Hs. split; by rewrite ?E1, ?E2, ?E3, ?E4, ?E5.
Qed.

(** The first item of the queue begins. *)
Definition item_phase (i : work_item) : phase :=
  match i with ActivateWork p => Working WPre p | DeactivateWork p => Working TPre p | ScalingWork => PIdle end.

Lemma work_phase_item w ph p : work_phase (w <| gwk := ph |>) p
  = match ph with Working k q => if bool_decide (q = p) then Some k else None | _ => None end.
Proof. done. Qed.

Lemma idle_work_phase w s p : clients_inv w s -> running s = None -> work_phase w p = None.
Proof. intros [] Hr. rewrite Hr in cl_run. unfold work_phase. cbn in cl_run. by rewrite cl_run. Qed.

Lemma begin_item w s i l : pm_inv w s -> running s = None -> work_list s = i :: l ->
  queue_step w s (item_phase i) (s <| work_list := l |> <| running := Some i |>).
Proof.
  intros Hi Hr Hl. pose proof (pi_clients _ _ Hi) as Hcl. pose proof Hcl as [_ _ _ _ HQ HT HP _].
  rewrite Hl in HQ. apply NoDup_cons in HQ as [Hni HQ].
  set (s' := s <| work_list := l |> <| running := Some i |>).
  assert (Hpa : forall p, i <> ActivateWork p -> activation_queued s' p = activation_queued s p).
  { intros p Hne. apply bool_decide_ext. rewrite Hl. cbn. set_solver. }
  assert (Hpd : forall p, i <> DeactivateWork p -> delayed_work_pending s' p = delayed_work_pending s p).
  { intros p Hne. unfold delayed_work_pending. f_equal. apply bool_decide_ext. rewrite Hl. cbn. set_solver. }
  split; try done.
  - destruct i; cbn; auto.
  - intros p Hin. specialize (HP p Hin). rewrite Hl in HP. set_solver.
  - intros p [H|H].
    + left. apply orb_true_iff in H. apply orb_true_iff. destruct H as [H|H].
      * left. apply bool_decide_eq_true in H. apply bool_decide_eq_true. rewrite Hl. set_solver.
      * right. unfold delayed_work_pending in *. apply orb_true_iff in H. apply orb_true_iff.
        destruct H as [H|H]; [by left|right]. apply bool_decide_eq_true in H.
        apply bool_decide_eq_true. rewrite Hl. set_solver.
    + left. destruct i as [q|q|]; cbn in H; inversion H; subst; apply orb_true_iff;
        [left; apply bool_decide_eq_true|right; apply orb_true_iff; right; apply bool_decide_eq_true];
        rewrite Hl; set_solver.
  - intros p st cm op Hok. rewrite (idle_work_phase w s p Hcl Hr) in Hok. rewrite work_phase_item.
    destruct i as [q|q|]; cbn [item_phase].
    + rewrite Hpd by done. case_bool_decide as E; [subst q|by rewrite Hpa by congruence].
      assert (Hq : activation_queued s p = true) by (apply bool_decide_eq_true; rewrite Hl; set_solver).
      rewrite Hq in Hok. apply (implb_use _ _ (ok_dequeue_activate _ _ _ _)) in Hok.
      replace (activation_queued s' p) with false; [done|]. symmetry. by apply bool_decide_eq_false.
    + rewrite Hpa by done. case_bool_decide as E; [subst q|by rewrite Hpd by congruence].
      assert (Hw : DeactivateWork p ∈ work_list s) by (rewrite Hl; set_solver).
      assert (Hq : delayed_work_pending s p = true).
      { apply orb_true_iff. right. by apply bool_decide_eq_true. }
      rewrite Hq in Hok. apply (implb_use _ _ (ok_dequeue_deactivate _ _ _ _)) in Hok.
      replace (delayed_work_pending s' p) with false; [done|]. symmetry. apply orb_false_iff.
      split; apply bool_decide_eq_false; [|done]. intros Hin. by apply (HP p Hin).
    + by rewrite Hpa, Hpd.
Qed.

(** An item ends. *)
Lemma end_item w s g : pm_inv w s -> gview WorkRole None w = g -> work_post (running s) tt g ->
  queue_step w s PIdle (s <| running := None |>).
Proof.
  intros Hi Hv Hpost. pose proof (pi_clients _ _ Hi) as [_ _ _ _ HQ HT HP _].
  split; try done.
  - intros p [H|H]; [by left|done].
  - intros p st cm op Hok. rewrite work_phase_item.
    change (client_ok st cm (activation_queued s p) (delayed_work_pending s p) None op = true).
    destruct (work_phase w p) as [k|] eqn:E; [|done].
    apply (implb_use _ _ (ok_work_end st cm _ _ (Some k) op)). rewrite Hok.
    unfold work_phase in E. change (gwk w) with (v_ph (gview WorkRole None w)) in E. rewrite Hv in E.
    destruct (running s) as [[q|q|]|]; destruct Hpost as [? Hpost];
      [destruct Hpost as (?&[->| ->]&->)|destruct Hpost as (?&[->| ->]&->)|rewrite Hpost in E|rewrite Hpost in E];
      cbn in E; try case_bool_decide; by inversion E.
Qed.

(** The timer of a delayed deactivation expires. *)
Lemma timer_expires w s p l1 l2 : pm_inv w s -> timers s = l1 ++ p :: l2 ->
  queue_step w s (gwk w)
    (s <| timers := l1 ++ l2 |> <| work_list := work_list s ++ [DeactivateWork p] |>).
Proof.
  intros Hi Ht. pose proof (pi_clients _ _ Hi) as Hcl. pose proof Hcl as [_ _ _ HR HQ HT HP _].
  set (s' := s <| timers := l1 ++ l2 |> <| work_list := work_list s ++ [DeactivateWork p] |>).
  assert (Hp : DeactivateWork p ∉ work_list s) by (apply HP; rewrite Ht; set_solver).
  assert (Hn : NoDup (p :: l1 ++ l2)) by (rewrite Ht, <- Permutation_middle in HT; done).
  apply NoDup_cons in Hn as [Hn1 Hn2].
  assert (Hpa : forall q, activation_queued s' q = activation_queued s q).
  { intros q. apply bool_decide_ext. cbn. set_solver. }
  assert (Hpd : forall q, delayed_work_pending s' q = delayed_work_pending s q).
  { intros q. unfold delayed_work_pending. rewrite Ht. cbn. destruct (decide (q = p)) as [->|Hne].
    - rewrite (bool_decide_true (p ∈ l1 ++ p :: l2)) by set_solver.
      rewrite (bool_decide_true (DeactivateWork p ∈ _)) by set_solver. by rewrite orb_true_r.
    - f_equal; apply bool_decide_ext; set_solver. }
  split; try done.
  - cbn. apply NoDup_app. split; [done|]. split; [set_solver|apply NoDup_singleton].
  - intros q Hq. cbn in Hq |- *. intros Hin. apply elem_of_app in Hin as [Hin|Hin].
    + apply (HP q); [|done]. rewrite Ht. set_solver.
    + apply list_elem_of_singleton in Hin. inversion Hin; subst. done.
  - intros q. by rewrite Hpa, Hpd.
  - intros q st cm op. by rewrite Hpa, Hpd.
Qed.
End Queue.

Section Steps.
Context {C : pm_config} {N : pm_constants} (no_irq : gsi_pending_irq_type = 0).

(** The memory changes under all threads. *)
Lemma machine_memory m w s' : machine_ok w m -> pm_inv w s' -> running s' = running (mem m) ->
  machine_ok w (Build_machine s' (calls m) (worker m) (others m)).
Proof. intros [] Hi Hr. split; cbn [mem calls worker others]; rewrite ?Hr; done. Qed.

Lemma step_timer m w p l1 l2 : machine_ok w m -> timers (mem m) = l1 ++ p :: l2 ->
  machine_ok w (Build_machine (mem m <| timers := l1 ++ l2 |>
      <| work_list := work_list (mem m) ++ [DeactivateWork p] |>) (calls m) (worker m) (others m)).
Proof.
  intros Hm Ht. apply machine_memory; [done| |done].
  pose proof (pm_inv_queue w _ _ _ (mo_inv _ _ Hm) (timer_expires w _ p l1 l2 (mo_inv _ _ Hm) Ht)) as H.
  by destruct w.
Qed.

Lemma clk_inv_hardware w c busy tag : clk_inv w c ->
  clk_inv w (c <| apps_pipes_busy := busy |> <| tag_process_before_gating := tag |>).
Proof. intros []. by split. Qed.

Lemma step_hardware m w busy tag : machine_ok w m ->
  machine_ok w (Build_machine (mem m <| clk := clk (mem m) <| apps_pipes_busy := busy |>
      <| tag_process_before_gating := tag |> |>) (calls m) (worker m) (others m)).
Proof.
  intros Hm. apply machine_memory; [done| |done].
  eapply pm_inv_clk; [apply Hm|done..|]. apply clk_inv_hardware, Hm.
Qed.

Lemma idle_gview r t w : idle_thread t w -> role_phase r w = PIdle ->
  exists sc, gview r t w = Build_view PIdle false None false sc.
Proof.
  intros (H1&H2&H3) Hr. eexists. unfold gview. rewrite Hr, H2.
  rewrite (bool_decide_false (t ∈ gcr w)), (bool_decide_false (gclaim w = Some t)) by done. done.
Qed.

Lemma keeps_work_item i sc : (forall p, i = ActivateWork p \/ i = DeactivateWork p -> p ∈ live) ->
  pm_keeps WorkRole None (Build_view (item_phase i) false None false sc) (work_func i)
    (work_post (Some i)).
Proof.
  intros Hl. destruct i as [p|p|]; cbn [work_func item_phase].
  - apply keeps_activate_work; [done|]. apply Hl. by left.
  - apply keeps_deactivate_work; [done|]. apply Hl. by right.
  - apply keeps_scaling.
Qed.

Lemma step_work_begin m w i l : machine_ok w m -> worker m = None -> work_list (mem m) = i :: l ->
  machine_ok (w <| gwk := item_phase i |>)
    (Build_machine (mem m <| work_list := l |> <| running := Some i |>) (calls m)
       (Some (work_func i)) (others m)).
Proof.
  intros Hm Hnone Hl. pose proof (mo_worker _ _ Hm) as Hw. rewrite Hnone in Hw.
  destruct Hw as [Hr Hid]. pose proof (mo_inv _ _ Hm) as Hi.
  apply (machine_work m w (Some (work_func i))); [done| |apply guar_wk|].
  - by eapply pm_inv_queue, begin_item.
  - split; [by eexists|]. rewrite view_wk.
    destruct (idle_gview WorkRole None w Hid) as [sc ->].
    { pose proof (cl_run _ _ (pi_clients _ _ Hi)) as H. by rewrite Hr in H. }
    apply keeps_work_item. intros p Hp. rewrite <- (pi_live _ _ Hi). apply elem_of_dom.
    apply (cl_live _ _ (pi_clients _ _ Hi)). left. apply orb_true_iff.
    destruct Hp as [-> | ->]; [left|right; apply orb_true_iff; right]; apply bool_decide_eq_true;
      rewrite Hl; set_solver.
Qed.

Lemma step_work_end m w u : machine_ok w m -> worker m = Some (Ret u) ->
  machine_ok (w <| gwk := PIdle |>)
    (Build_machine (mem m <| running := None |>) (calls m) None (others m)).
Proof.
  intros Hm Hsome. pose proof (mo_worker _ _ Hm) as Hw. rewrite Hsome in Hw.
  destruct Hw as [[i Hr] Hk]. cbn in Hk. destruct u.
  apply (machine_work m w None); [done| |apply guar_wk|].
  - eapply pm_inv_queue; [apply Hm|]. eapply end_item; [apply Hm|done|exact Hk].
  - split; [done|]. change (idle_thread None w).
    assert (H : exists ph sc, gview WorkRole None w = Build_view ph false None false sc).
    { rewrite Hr in Hk. destruct i as [p|p|]; [destruct Hk as (k&sc&_&->)..|destruct Hk as (sc&->)]; eauto. }
    destruct H as (ph&sc&H). split; [|split].
    + apply (view_no_credit WorkRole). by rewrite H.
    + change (v_mx (gview WorkRole None w) = None). by rewrite H.
    + apply (view_unclaimed WorkRole). by rewrite H.
Qed.

Lemma step_work m w B (f : pm -> outcome (B * pm)) k b s : machine_ok w m ->
  worker m = Some (Act f k) -> f (mem m) = Next (b, s) ->
  running s = running (mem m) ->
  exists w', machine_ok w' (Build_machine s (calls m) (Some (k b)) (others m)).
Proof.
  intros Hm Hsome Hf Hrun. pose proof (mo_worker _ _ Hm) as Hw. rewrite Hsome in Hw.
  destruct Hw as [Hr Hk]. specialize (Hk w (mem m) (mo_inv _ _ Hm) eq_refl). rewrite Hf in Hk.
  destruct Hk as (w'&Hi'&Hg&Hk'). exists w'.
  apply (machine_work m w (Some (k b))); [done..|]. split; by rewrite Hrun.
Qed.
End Steps.

(** ** Calls *)
Section CallSteps.
Context {C : pm_config} {N : pm_constants} (no_irq : gsi_pending_irq_type = 0).

Lemma step_call m w t c B (f : pm -> outcome (B * pm)) k b s : machine_ok w m ->
  calls m !! t = Some (c, Act f k) -> f (mem m) = Next (b, s) -> running s = running (mem m) ->
  exists w', machine_ok w' (Build_machine s (<[t := (c, k b)]> (calls m)) (worker m) (others m)).
Proof.
  intros Hm Ht Hf Hrun. pose proof (mo_calls _ _ Hm t c _ Ht) as Hk.
  specialize (Hk w (mem m) (mo_inv _ _ Hm) eq_refl). rewrite Hf in Hk.
  destruct Hk as (w'&Hi'&Hg&Hk'). exists w'. by apply (machine_call m w t c (Act f k)).
Qed.

Lemma idle_of_view r t w sc : gview r t w = Build_view PIdle false None false sc -> idle_thread t w.
Proof.
  intros H. split; [|split].
  - apply (view_no_credit r). by rewrite H.
  - change (v_mx (gview r t w) = None). by rewrite H.
  - apply (view_unclaimed r). by rewrite H.
Qed.

(** The vote taken for another driver becomes its vote. *)
Lemma clk_inv_delivered w c t : clk_inv w c -> t ∈ gcr w -> gclaim w <> Some t ->
  clk_inv (w <| gcr := gcr w ∖ {[t]} |> <| gothers := gothers w + 1 |>) c.
Proof.
  intros [Ho Hn Hc Hm Hx Hz Hon Hcl] Ht Hncl. split; try done.
  - cbn. lia.
  - cbn. rewrite size_credit_del by done. lia.
  - intros t' Hg. destruct (Hcl t' Hg). split; [|done]. cbn in *. set_solver.
Qed.

Lemma pm_inv_ghost w w' s : pm_inv w s -> gop w' = gop w -> gwk w' = gwk w -> gvot w' = gvot w ->
  gsc w' = gsc w -> clk_inv w' (clk s) -> pm_inv w' s.
Proof.
  intros [_ [V O L R Q T P W] Hs Hn Hh Hl Hsk Hsc] E1 E2 E3 E4 Hk. split; try done; [|by rewrite E4].
  split; rewrite ?E1, ?E2, ?E3; try done. intros p c Hc. unfold work_phase. rewrite E2. by apply O.
Qed.

Lemma step_return m w t c rc : machine_ok w m -> calls m !! t = Some (c, Ret rc) ->
  exists w', machine_ok w' (Build_machine (mem m) (delete t (calls m)) (worker m)
                              (call_returns c (others m))).
Proof.
  intros Hm Ht. pose proof (mo_calls _ _ Hm t c _ Ht) as [sc Hk]. pose proof (mo_inv _ _ Hm) as Hi.
  assert (Hop : forall p, call_role c = OpRole p -> gop w p = PIdle).
  { intros p Hp. rewrite Hp in Hk. by apply (f_equal v_ph) in Hk. }
  assert (Hroles : forall t' c' q, t' <> t -> calls m !! t' = Some (c', q) ->
    compatible (call_role c) (call_role c')) by (intros; by eapply (mo_roles _ _ Hm t t')).
  destruct (decide (c = IncClients)) as [->|Hne].
  - assert (Hcr : Some t ∈ gcr w) by (apply (view_credit (call_role IncClients)); by rewrite Hk).
    assert (Hncl : gclaim w <> Some (Some t))
      by (apply (view_unclaimed (call_role IncClients)); by rewrite Hk).
    set (w1 := w <| gcr := gcr w ∖ {[Some t]} |>).
    exists (w1 <| gothers := gothers w + 1 |>). apply (machine_update m w t IncClients None); try done.
    + eapply pm_inv_ghost; [exact Hi|done..|]. apply clk_inv_delivered; [apply Hi|done..].
    + cbn. f_equal. apply Hm.
    + intros r' t' Hne Hc. exact (proj2 (guar_cr_del (call_role IncClients) (Some t) w) r' t' Hne Hc).
    + intros c' q Hq. rewrite Ht in Hq. congruence.
    + split; [done|]. split; [|done]. split; [set_solver|]. split; [|done].
      by apply (f_equal v_mx) in Hk.
  - exists w. apply (machine_update m w t c None); try done.
    + rewrite (mo_others _ _ Hm). by destruct c.
    + intros c' q Hq. rewrite Ht in Hq. congruence.
    + split; [done|]. split; [|done]. eapply (idle_of_view (call_role c)).
      rewrite Hk. by destruct c.
Qed.

(** *** A call begins *)

(** The client of a permitted call: no other call has its role. *)
Lemma permitted_client m w c h : machine_ok w m -> permitted m c -> call_client c = Some h ->
  exists p cl, handle_of c p /\ p ∈ live /\ heap (mem m) !! p = Some cl /\ call_role c = OpRole p /\
    (forall t c' q, calls m !! t = Some (c', q) -> call_role c' <> OpRole p) /\
    match c with
    | Activate _ | ActivateSync _ => IPA_PM_STATE_IN_PROGRESS (state cl) = false /\
        running (mem m) <> Some (ActivateWork p)
    | _ => True
    end.
Proof.
  intros Hm Hper Hc. pose proof (mo_inv _ _ Hm) as Hi. pose proof (pi_shape _ _ Hi) as Hs.
  assert (H : exists p cl, client_at (mem m) h = Some p /\ heap (mem m) !! p = Some cl /\
    (forall t c' q, calls m !! t = Some (c', q) -> call_client c' <> Some h) /\
    match c with
    | Activate _ | ActivateSync _ => IPA_PM_STATE_IN_PROGRESS (state cl) = false /\
        running (mem m) <> Some (ActivateWork p)
    | _ => True
    end) by (destruct c; try done; by apply Hper).
  destruct H as (p&cl&Hp&Hcl&Hothers&Hact). exists p, cl.
  assert (Hh : handles.[h] = Some p) by (rewrite <- (pi_handles _ _ Hi); exact Hp).
  assert (Huniq : forall h' q, handles.[h'] = Some q -> q = p -> h' = h).
  { intros h' q Hq ->. assert (Hx : forall x, handles.[x] = Some p -> hdl cl = x).
    { intros x Hx. rewrite <- (pi_handles _ _ Hi) in Hx. destruct (sh_client _ Hs x p Hx) as [->|(d&Hd&E)].
      - rewrite (sh_null _ Hs) in Hcl. done.
      - congruence. }
    by rewrite <- (Hx h' Hq), (Hx h Hh). }
  split; [|split; [|split; [done|split; [|split; [|done]]]]].
  - exists h. split; [done|]. split; [done|]. apply lookupZ_Some_range in Hp.
    rewrite (sh_clients _ Hs) in Hp. done.
  - rewrite <- (pi_live _ _ Hi). apply elem_of_dom. by eexists.
  - unfold call_role. by rewrite Hc, Hh.
  - intros t c' q Ht Hr. unfold call_role in Hr. destruct (call_client c') as [h'|] eqn:E; [|done].
    destruct (handles.[h']) as [q'|] eqn:E'; [|done]. injection Hr as ->.
    pose proof (Huniq h' p E' eq_refl) as ->. by eapply Hothers.
Qed.

(** An activation begins. *)
Lemma begin_activation w s p cl : pm_inv w s -> heap s !! p = Some cl -> gop w p = PIdle ->
  IPA_PM_STATE_IN_PROGRESS (state cl) = false -> running s <> Some (ActivateWork p) ->
  pm_inv (w <| gop := <[p := OStart]> (gop w) |>) s.
Proof.
  intros Hi Hc Hop Hst Hrun. pose proof (pi_clients _ _ Hi) as Hcl.
  assert (Hwk : forall k, k = WPre \/ k = WCompl -> is_work (work_phase w p) k = false).
  { intros k Hk. pose proof (cl_run _ _ Hcl) as Hr. unfold work_phase, is_work.
    destruct (gwk w) as [| | | | | | | |k' q] eqn:E; try done.
    destruct (decide (q = p)) as [->|Hne]; [|by rewrite (bool_decide_false (q = p))].
    rewrite (bool_decide_true (p = p)) by done. apply bool_decide_eq_false. intros [= ->].
    destruct (running s) as [[q|q|]|]; cbn in Hr; try done; naive_solver. }
  eapply (client_step w s _ s p cl cl); try done.
  - by rewrite insert_id.
  - by eapply queue_ok_same.
  - intros q Hne. cbn. by rewrite fn_lookup_insert_ne.
  - apply Hcl.
  - change (p ∈ gvot w <-> voting cl (<[p := OStart]> (gop w) p) = true).
    rewrite (cl_vote _ _ Hcl p), fn_lookup_insert. split.
    + intros (d&Hd&Hvot). assert (d = cl) as -> by congruence. by rewrite Hop in Hvot.
    + intros Hvot. exists cl. by rewrite Hop.
  - destruct (pi_clk _ _ Hi). by split.
  - change (client_ok (state cl) (completion cl) (activation_queued s p) (delayed_work_pending s p)
      (work_phase w p) (<[p := OStart]> (gop w) p) = true).
    rewrite fn_lookup_insert. apply (implb_use _ _ (ok_begin _ _ _ _ _)).
    pose proof (cl_ok _ _ Hcl p cl Hc) as H. rewrite Hop in H. by rewrite H, Hst, !Hwk by auto.
Qed.

(** A vote is given back: by another driver, or by work of [power_mgmt_wq]. *)
Definition debtor (t : thread) (o : Z) (w : ghost) : ghost :=
  w <| gcr := {[t]} ∪ gcr w |> <| gothers := o |>.

Lemma clk_inv_debtor w c c' t o : clk_inv w c -> t ∉ gcr w -> 0 <= o ->
  o + owed c' + 1 = gothers w + owed c ->
  (tag_work c = false -> tag_work c' = false) ->
  (dec_clients_work c = false -> dec_clients_work c' = false) ->
  (cnt c', ipa_clk_vote c', clk_on c', clk_mutex c') = (cnt c, ipa_clk_vote c, clk_on c, clk_mutex c) ->
  clk_inv (debtor t o w) c'.
Proof.
  intros [Ho Hn Hc Hm Hx Hz Hon Hcl] Ht Ho' Hsum Htag Hdec [= E1 E2 E3 E4].
  assert (Hup : clock_up c -> clock_up c') by (unfold clock_up; by rewrite E2, E3).
  split; rewrite ?E1, ?E2, ?E4; auto.
  - cbn. rewrite size_credit_add by done. lia.
  - intros t' Hg. by apply Hup, (Hon t').
  - intros t' Hg. destruct (Hcl t' Hg) as (?&?&?). cbn. set_solver.
Qed.

Lemma view_debtor r t o w : gview r t (debtor t o w) = gview r t w <| v_cr := true |>.
Proof. exact (view_cr_add r t w). Qed.

(** The ghost state [w'] after a call [c] has begun in the thread [t]. *)
Record begun (c : call) (t : nat) (w : ghost) (s0 s : pm) (o : Z) (w' : ghost) : Prop := {
  bg_inv : pm_inv w' s;
  bg_run : running s = running s0;
  bg_others : gothers w' = o;
  bg_guar r' t' : t' <> Some t -> compatible (call_role c) r' -> gview r' t' w' = gview r' t' w;
  bg_clients p : call_role c <> OpRole p -> gop w' p = gop w p;
  bg_view : exists sc, gview (call_role c) (Some t) w'
    = Build_view (start_phase c) (start_credit c) None false sc;
}.

Lemma begun_same c t w s o sc : pm_inv w s -> gothers w = o ->
  gview (call_role c) (Some t) w = Build_view PIdle false None false sc ->
  start_phase c = PIdle -> start_credit c = false -> begun c t w s s o w.
Proof. intros Hi Ho Hv E1 E2. split; try done. exists sc. by rewrite E1, E2. Qed.

Lemma begun_activation c t w s p cl sc : pm_inv w s -> call_role c = OpRole p ->
  gview (call_role c) (Some t) w = Build_view PIdle false None false sc ->
  start_phase c = OStart -> start_credit c = false -> heap s !! p = Some cl ->
  IPA_PM_STATE_IN_PROGRESS (state cl) = false -> running s <> Some (ActivateWork p) ->
  begun c t w s s (gothers w) (w <| gop := <[p := OStart]> (gop w) |>).
Proof.
  intros Hi Hr Hv E1 E2 Hc Hst Hrun. rewrite Hr in Hv.
  assert (Hop : gop w p = PIdle) by (by apply (f_equal v_ph) in Hv).
  split; [by eapply begin_activation|done|done| | |]; rewrite Hr.
  - intros r' t' Hne Hcomp. exact (proj2 (guar_op p (Some t) w OStart) r' t' Hne Hcomp).
  - intros q Hne. cbn. apply fn_lookup_insert_ne. congruence.
  - exists sc. by rewrite view_op, Hv, E1, E2.
Qed.

Lemma begun_debtor c t w s s' o sc : pm_inv (debtor (Some t) o w) s' -> running s' = running s ->
  gview (call_role c) (Some t) w = Build_view PIdle false None false sc ->
  start_phase c = PIdle -> start_credit c = true -> begun c t w s s' o (debtor (Some t) o w).
Proof.
  intros Hi Hr Hv E1 E2. split; try done.
  - intros r' t' Hne Hc. exact (proj2 (guar_cr_add (call_role c) (Some t) w) r' t' Hne Hc).
  - exists sc. by rewrite view_debtor, Hv, E1, E2.
Qed.

(** The work of [power_mgmt_wq] takes a vote that was owed. *)
Lemma clk_inv_power w c t wk : clk_inv w c -> t ∉ gcr w -> power_pending c wk = true ->
  clk_inv (debtor t (gothers w) w) (power_taken c wk).
Proof.
  intros Hk Ht Hp. eapply clk_inv_debtor; [exact Hk|done|apply Hk|..]; destruct wk; cbn in *; try done.
  all: unfold owed, b2z; cbn; rewrite Hp; lia.
Qed.

Lemma step_begins m w t c s o sc : machine_ok w m -> calls m !! t = None -> permitted m c ->
  call_begins c (mem m) (others m) = Some (s, o) ->
  gview (call_role c) (Some t) w = Build_view PIdle false None false sc ->
  exists w', begun c t w (mem m) s o w'.
Proof.
  intros Hm Ht Hper Hb Hv. pose proof (mo_inv _ _ Hm) as Hi. pose proof (mo_others _ _ Hm) as Ho.
  assert (Hcr : Some t ∉ gcr w) by (by apply (mo_idle _ _ Hm)).
  assert (Hact : forall h, call_client c = Some h -> call_begins c (mem m) (others m) = Some (mem m, others m) ->
    start_phase c = OStart -> start_credit c = false ->
    (match c with Activate _ | ActivateSync _ => True | _ => False end) ->
    exists w', begun c t w (mem m) s o w').
  { intros h Hc E Hs1 Hs2 Hk. rewrite Hb in E. injection E as -> ->. rewrite <- Ho.
    destruct (permitted_client m w c h Hm Hper Hc) as (p&cl&_&_&Hcl&Hr&_&Hst).
    exists (w <| gop := <[p := OStart]> (gop w) |>).
    by destruct c; try done; destruct Hst; eapply begun_activation. }
  assert (Hdec : (if 0 <? others m then Some (mem m, others m - 1) else None) = Some (s, o) ->
    start_phase c = PIdle -> start_credit c = true -> exists w', begun c t w (mem m) s o w').
  { destruct (Z.ltb_spec 0 (others m)); [|done]. intros [= <- <-] E1 E2. eexists.
    eapply begun_debtor; try done. eapply pm_inv_ghost; [done..|].
    eapply clk_inv_debtor; [apply Hi|done|lia|lia|done..]. }
  destruct c as [h|h|h|h| |h tput|h| | | |wk]; try done;
    try (by eapply Hact); try (by apply Hdec); cbn in Hb.
  1-4: injection Hb as <- <-; exists w; by eapply begun_same.
  destruct (power_pending (clk (mem m)) wk) eqn:E; [|done]. injection Hb as <- <-.
  eexists. eapply begun_debtor; try done. rewrite <- Ho. eapply pm_inv_clk; [exact Hi|done..|].
  apply clk_inv_power; [apply Hi|done..].
Qed.

(** No other call has the role of a permitted call. *)
Lemma permitted_role m w c : machine_ok w m -> permitted m c ->
  (forall t c' q, calls m !! t = Some (c', q) -> compatible (call_role c) (call_role c')) /\
  role_phase (call_role c) w = PIdle.
Proof.
  intros Hm Hper. destruct (call_client c) as [h|] eqn:E.
  - destruct (permitted_client m w c h Hm Hper E) as (p&cl&_&_&_&->&Ho&_). split.
    + intros t c' q Hq. specialize (Ho t c' q Hq). destruct (call_role c'); cbn; [congruence|done|done].
    + by apply (mo_clients _ _ Hm).
  - unfold call_role. by rewrite E.
Qed.

Lemma step_begin m w t c s o : machine_ok w m -> calls m !! t = None -> permitted m c ->
  call_begins c (mem m) (others m) = Some (s, o) ->
  exists w', machine_ok w' (Build_machine s (<[t := (c, call_prog c)]> (calls m)) (worker m) o).
Proof.
  intros Hm Ht Hper Hb. destruct (permitted_role m w c Hm Hper) as [Hroles Hph].
  destruct (idle_gview (call_role c) (Some t) w (mo_idle _ _ Hm t Ht) Hph) as [sc Hv].
  destruct (step_begins m w t c s o sc Hm Ht Hper Hb Hv) as (w'&[H1 H2 H3 H4 H5 (sc'&H6)]).
  exists w'. apply (machine_update m w t c (Some (call_prog c))); try done.
  - intros t' c' q _. apply Hroles.
  - intros c' q Hq. by rewrite Ht in Hq.
  - split; [done|]. rewrite H6. apply (call_starts no_irq m); [done|]. intros h Hc.
    destruct (permitted_client m w c h Hm Hper Hc) as (p&cl&?&?&_). by exists p.
Qed.
End CallSteps.

(** ** The invariant *)
Section Invariant.
Context {C : pm_config} {N : pm_constants} (no_irq : gsi_pending_irq_type = 0).

Definition steady (m : machine) : Prop :=
  (forall t c q, calls m !! t = Some (c, q) -> leaves false q) /\
  (forall q, worker m = Some q -> leaves true q).

Definition machine_inv (m : machine) : Prop := steady m /\ exists w, machine_ok w m.

Lemma steady_insert s cs o l t c q : steady (Build_machine s cs l o) -> leaves false q ->
  forall s' o', steady (Build_machine s' (<[t := (c, q)]> cs) l o').
Proof.
  intros [H1 H2] Hq s' o'. split; cbn in *; [|done]. intros t' c' q'.
  destruct (decide (t' = t)) as [->|Hne]; [rewrite lookup_insert_eq|rewrite lookup_insert_ne by done].
  - by intros [= <- <-].
  - apply H1.
Qed.

Lemma permitted_steady m c : permitted m c -> leaves false (call_prog c).
Proof. intros Hp. pose proof (leaves_call c). by destruct c. Qed.

Lemma step_steady m m' : steady m -> mstep permitted m m' -> steady m'.
Proof.
  intros Hs Hstep. pose proof Hs as [H1 H2]. destruct Hstep as
    [m t c s o Ht Hper Hb|m t c B f k b s Ht Hf|m t c rc Ht|m i l Hw Hl|m B f k b s Hw Hf|m u Hw| |].
  - destruct m. eapply steady_insert; [exact Hs|]. by apply permitted_steady in Hper.
  - destruct m. eapply steady_insert; [exact Hs|]. by apply (H1 t c _ Ht).
  - split; [|done]. cbn. intros t' c' q Hq. apply lookup_delete_Some in Hq as [_ Hq]. by eapply H1.
  - split; [done|]. cbn. intros q [= <-]. apply leaves_work_func.
  - split; [done|]. cbn. intros q [= <-]. by apply (H2 _ Hw).
  - split; [done|]. by intros q.
  - done.
  - done.
Qed.

Theorem step_inv m m' : machine_inv m -> mstep permitted m m' -> machine_inv m'.
Proof.
  intros [Hs [w Hm]] Hstep. split; [by eapply step_steady|]. pose proof Hs as [H1 H2].
  destruct Hstep as [m t c s o Ht Hper Hb|m t c B f k b s Ht Hf|m t c rc Ht|m i l Hw Hl
    |m B f k b s Hw Hf|m u Hw|m p l1 l2 Ht|m busy tag].
  - by eapply step_begin.
  - eapply step_call; [done..|]. by destruct (proj1 (H1 t c _ Ht) _ _ _ Hf).
  - by eapply step_return.
  - eexists. by apply step_work_begin.
  - eapply step_work; [done..|]. by destruct (proj1 (H2 _ Hw) _ _ _ Hf).
  - eexists. by eapply step_work_end.
  - exists w. by apply step_timer.
  - exists w. by apply step_hardware.
Qed.

Definition reachable (m m' : machine) : Prop := rtc (mstep permitted) m m'.

Lemma reachable_inv m m' : machine_inv m -> reachable m m' -> machine_inv m'.
Proof. intros Hi Hr. induction Hr; [done|]. by eauto using step_inv. Qed.
End Invariant.
