(* ===== verification/PmReady.v ===== *)
(** * The power manager at rest: initialisation and registration

    The state in which the driver starts to use the power manager: clients are
    registered and deactivated, nothing is queued or executed, other drivers may
    hold votes.  It satisfies the invariant.

    [ipa_pm_init] leads to a manager at rest without clients; registering a
    client, or the failure to, keeps it at rest. *)
From stdpp Require Import functions.
From S2P Require Import Prelude RecordUpdate Interleave PmData PmOps PmMach PmInv PmScale PmKeeps.
From S2P Require Import PmCalls PmReach PmSafe.

(** No thread works on the memory [s]; other drivers have [o] votes. *)
Record ready_memory {C : pm_config} (s : pm) (o : Z) : Prop := {
  rd_shape : pm_shape s;
  rd_running : running s = None;
  rd_queue : work_list s = [];
  rd_timers : timers s = [];
  rd_warned : warned s = false;
  rd_clients p c : heap s !! p = Some c -> state c = IPA_PM_DEACTIVATED;
  rd_votes : cnt (clk s) = o /\ 0 <= o;
  rd_owed : owed (clk s) = 0;
  rd_mutex : clk_mutex (clk s) = false;
  rd_clock : 0 < cnt (clk s) -> clock_up (clk s);
  rd_mode : IPA_IS_REGULAR_CLK_MODE ipa3_hw_mode = true \/ ipa_clk_vote (clk s) = 1;
}.

Definition ready {C : pm_config} (m : machine) : Prop :=
  ready_memory (mem m) (others m) /\ calls m = ∅ /\ worker m = None.

Definition constants_of (s : pm) : pm_constants := {|
  nthresholds := threshold_size (clk_scaling s);
  handles := clients s;
  live := dom (heap s);
  skips p := match heap s !! p with Some c => skip_clk_vote c | None => false end;
|}.

Section Ready.
Context {C : pm_config}.

Definition ghost_at_rest (o : Z) : ghost :=
  Build_ghost (fun _ => PIdle) PIdle ∅ ∅ None None ∅ o.

Lemma ready_pm_inv s o : ready_memory s o -> pm_inv (N := constants_of s) (ghost_at_rest o) s.
Proof.
  intros [Hs Hr Hq Ht Hw Hc [Hn Ho] Hod Hm Hck Hmode]. split; try done.
  - destruct (owed_zero (clk s) Hod). split; try done.
    change (cnt (clk s) = o + owed (clk s) + Z.of_nat (size (∅ : gset Z)) + Z.of_nat (size (∅ : gset thread))).
    rewrite !size_empty. lia.
  - split; try done.
    + intros p. split; [set_solver|]. intros (c&Hp&Hv). by rewrite voting_inactive in Hv by (by rewrite (Hc p c Hp)).
    + intros p c Hp. rewrite (Hc p c Hp). unfold activation_queued, delayed_work_pending.
      rewrite Hq, Ht. by destruct (completion c).
    + intros p [H|H].
      * unfold activation_queued, delayed_work_pending in H. rewrite Hq, Ht in H. done.
      * unfold executed_client in H. by rewrite Hr in H.
    + by rewrite Hr.
    + rewrite Hq. constructor.
    + rewrite Ht. constructor.
    + intros p. rewrite Ht. set_solver.
  - intros p c Hp. cbn. by rewrite Hp.
Qed.

Lemma ready_inv m : ready m -> machine_inv (N := constants_of (mem m)) m.
Proof.
  intros (Hr&Hc&Hw). split.
  - split; [rewrite Hc; by intros t c q|rewrite Hw; by intros q].
  - assert (Hid : forall t, idle_thread t (ghost_at_rest (others m))) by (intros t; split; [set_solver|done]).
    exists (ghost_at_rest (others m)). split; rewrite ?Hc, ?Hw; try done.
    + by apply ready_pm_inv.
    + split; [apply Hr|apply Hid].
Qed.

(** A state the machine gets to from rest. *)
Definition reached (m0 m : machine) : Prop := ready m0 /\ reachable m0 m.

Lemma reached_inv m0 m : gsi_pending_irq_type = 0 -> reached m0 m ->
  machine_inv (N := constants_of (mem m0)) m.
Proof. intros Hirq [Hr Hm]. apply (reachable_inv Hirq m0 m); [by apply ready_inv|done]. Qed.

(** ** What the invariant says of the machine *)
Section Facts.
Context {N : pm_constants}.

Lemma inv_no_crash m : machine_inv m -> ~ crashes m /\ warned (mem m) = false.
Proof.
  intros [_ [w Hm]]. split; [|apply (cl_warned _ _ (pi_clients _ _ (mo_inv _ _ Hm)))].
  intros [(t&c&B&f&k&Ht&Hf)|(B&f&k&Hw&Hf)].
  - pose proof (mo_calls _ _ Hm t c _ Ht) as Hk.
    specialize (Hk w (mem m) (mo_inv _ _ Hm) eq_refl). by rewrite Hf in Hk.
  - pose proof (mo_worker _ _ Hm) as Hk. rewrite Hw in Hk. destruct Hk as [_ Hk].
    specialize (Hk w (mem m) (mo_inv _ _ Hm) eq_refl). by rewrite Hf in Hk.
Qed.

(** The clients that are active, and whose activity counts as a vote. *)
Definition is_voting (c : ipa_pm_client) : bool :=
  negb (skip_clk_vote c) && IPA_PM_STATE_ACTIVE (state c).
Definition voters (s : pm) : gset Z := dom (filter (fun pc => is_voting (snd pc) = true) (heap s)).

Lemma elem_of_voters s p : p ∈ voters s <-> exists c, heap s !! p = Some c /\ is_voting c = true.
Proof.
  unfold voters. rewrite elem_of_dom. split.
  - intros [c Hc]. apply map_lookup_filter_Some in Hc. eauto.
  - intros (c&Hc&Hv). exists c. by apply map_lookup_filter_Some.
Qed.

Lemma voters_idle w s : pm_inv w s -> (forall p, gop w p <> ODebit) -> gvot w = voters s.
Proof.
  intros Hi Hop. apply set_eq. intros p.
  rewrite (cl_vote _ _ (pi_clients _ _ Hi) p), elem_of_voters. f_equiv. intros c. f_equiv.
  unfold voting, is_voting. replace (is_phase (gop w p) ODebit) with false; [by rewrite andb_true_r|].
  symmetry. apply bool_decide_eq_false, Hop.
Qed.

Lemma inv_balance m : machine_inv m -> calls m = ∅ -> worker m = None ->
  cnt (clk (mem m)) = others m + owed (clk (mem m)) + Z.of_nat (size (voters (mem m))).
Proof.
  intros [_ [w Hm]] Hc Hw. pose proof (mo_inv _ _ Hm) as Hi. rewrite <- (mo_others _ _ Hm).
  rewrite <- (voters_idle w _ Hi).
  - rewrite (ci_count _ _ (pi_clk _ _ Hi)). replace (gcr w) with (∅ : gset thread).
    { rewrite size_empty. lia. }
    symmetry. apply set_eq. intros [t|]; split; [|set_solver| |set_solver]; intros Hin; exfalso.
    + destruct (mo_idle _ _ Hm t) as [H _]; [by rewrite Hc|done].
    + pose proof (mo_worker _ _ Hm) as H. rewrite Hw in H. by destruct H as [_ [H _]].
  - intros p. rewrite (mo_clients _ _ Hm); [done|]. intros t c q. by rewrite Hc.
Qed.

(** A client is active, or another driver has a vote: the clocks are on. *)
Definition needs_clock (m : machine) : Prop :=
  0 < others m \/
  exists p c, heap (mem m) !! p = Some c /\ is_voting c = true /\
    forall t c' q, calls m !! t = Some (c', q) -> call_client c' <> Some (hdl c).

Lemma inv_clock_up m : machine_inv m -> needs_clock m -> 0 < cnt (clk (mem m)) /\ clock_up (clk (mem m)).
Proof.
  intros [_ [w Hm]] Hneed. pose proof (mo_inv _ _ Hm) as Hi. pose proof (pi_clk _ _ Hi) as Hk.
  assert (H : 0 < cnt (clk (mem m))); [|split; [done|by apply (ci_clock _ _ Hk)]].
  rewrite (ci_count _ _ Hk). pose proof (ci_others _ _ Hk).
  assert (0 <= owed (clk (mem m))) by (unfold owed, b2z; repeat case_match; lia).
  destruct Hneed as [Ho|(p&c&Hp&Hv&Hno)]; [rewrite (mo_others _ _ Hm); lia|].
  assert (Hin : p ∈ gvot w).
  { rewrite (cl_vote _ _ (pi_clients _ _ Hi) p). exists c. split; [done|].
    rewrite (mo_clients _ _ Hm p).
    - unfold voting. by rewrite andb_true_r.
    - intros t c' q Hq Hr. unfold call_role in Hr.
      destruct (call_client c') as [h|] eqn:E; [|done].
      destruct (handles.[h]) as [p'|] eqn:E'; [|done]. injection Hr as ->.
      rewrite <- (pi_handles _ _ Hi) in E'. pose proof (pi_shape _ _ Hi) as Hs.
      destruct (sh_client _ Hs h p E') as [->|(d&Hd&<-)].
      + by rewrite (sh_null _ Hs) in Hp.
      + assert (d = c) as -> by congruence. by eapply Hno. }
  assert (0 < size (gvot w))%nat; [|lia].
  destruct (size (gvot w)) eqn:E; [|lia]. apply size_empty_inv in E. set_solver.
Qed.
End Facts.
End Ready.

(** Objects are allocated at addresses that are not in use. *)
Definition fresh_addresses (s : pm) : Prop :=
  0 < next_address s /\ forall p, is_Some (heap s !! p) -> p < next_address s.

(** ** Initialisation *)

(** The caller's thresholds: each array has [threshold_size] elements, the
    exceptions are [exception_size] many. *)
Definition params_ok (ip : ipa_pm_init_params) : Prop :=
  0 < ip_threshold_size ip <= IPA_PM_THRESHOLD_MAX /\
  0 <= ip_exception_size ip <= IPA_PM_EXCEPTION_MAX /\
  ip_threshold_size ip <= lengthZ (ip_default_threshold ip) /\
  ip_exception_size ip <= lengthZ (ip_exceptions ip) /\
  Forall (fun e => ip_threshold_size ip <= lengthZ (threshold e)) (ip_exceptions ip).

(** The driver before [ipa_pm_init]. *)
Record booted {C : pm_config} (s : pm) (o : Z) : Prop := {
  bt_context : ctx_allocated s = false;
  bt_heap : heap s = ∅ /\ 0 < next_address s;
  bt_queue : running s = None /\ work_list s = [] /\ timers s = [] /\ warned s = false;
  bt_votes : cnt (clk s) = o /\ 0 <= o /\ owed (clk s) = 0 /\ clk_mutex (clk s) = false;
  bt_clock : 0 < cnt (clk s) -> clock_up (clk s);
  bt_mode : IPA_IS_REGULAR_CLK_MODE ipa3_hw_mode = true \/ ipa_clk_vote (clk s) = 1;
}.

Lemma copy_ints_length dst src n : 0 <= n <= lengthZ src -> n <= lengthZ (copy_ints dst src n).
Proof. unfold copy_ints, lengthZ. intros H. rewrite length_app, length_take. lia. Qed.

Lemma lookupZ_replicate {A} n (x : A) i y : (replicate n x).[i] = Some y -> y = x.
Proof. unfold lookupZ. case_decide; [|done]. intros Hx. by apply lookup_replicate in Hx as [? _]. Qed.

Lemma init_exceptions_shape ip l k : params_ok ip ->
  Forall (fun e => ip_threshold_size ip <= lengthZ (threshold e)) l ->
  Forall (exception_shape (ip_threshold_size ip))
    (map (init_exception ip) l ++ replicate k zero_exception).
Proof.
  intros ((?&?)&_) Hl. apply Forall_app. split.
  - apply Forall_fmap. eapply Forall_impl; [exact Hl|]. intros e He. cbv beta in He. split; [done|].
    cbn. apply copy_ints_length. lia.
  - apply Forall_replicate. split; [done|]. cbn. unfold IPA_PM_THRESHOLD_MAX in *.
    unfold lengthZ, zero_thresholds, IPA_PM_THRESHOLD_MAX. rewrite length_replicate. lia.
Qed.

Lemma Forall_lookupZ {A} (P : A -> Prop) l i x : Forall P l -> l.[i] = Some x -> P x.
Proof. unfold lookupZ. intros Hl. case_decide; [|done]. by apply Forall_lookup_1. Qed.

Lemma init_shape s ip : params_ok ip -> heap s = ∅ ->
  pm_shape (s <| ctx_allocated := true |>
    <| clients := replicate (Z.to_nat IPA_PM_MAX_CLIENTS) NULL_CLIENT |>
    <| clients_by_pipe := replicate (Z.to_nat IPA5_PIPES_NUM) NULL_CLIENT |>
    <| aggregated_tput := 0 |> <| group_tput := [0; 0; 0] |>
    <| clk_scaling := Build_clk_scaling_db
         (map (init_exception ip) (take (Z.to_nat (ip_exception_size ip)) (ip_exceptions ip))
          ++ replicate (Z.to_nat (IPA_PM_EXCEPTION_MAX - ip_exception_size ip)) zero_exception)
         (replicate (Z.to_nat IPA5_PIPE_REG_NUM) 0) (ip_threshold_size ip)
         (ip_exception_size ip) 0
         (copy_ints zero_thresholds (ip_default_threshold ip) (ip_threshold_size ip))
         NullThreshold |>).
Proof.
  intros Hip He. pose proof Hip as (?&?&?&?&Hl). split; cbn; rewrite ?He; try done.
  - intros h p Hp. left. by apply lookupZ_replicate in Hp.
  - split; cbn; try done.
    + apply copy_ints_length. lia.
    + unfold lengthZ in *. rewrite length_app, length_map, length_take. lia.
    + intros i e. apply Forall_lookupZ, init_exceptions_shape; [done|]. by apply Forall_take.
Qed.

Lemma init_ready {C : pm_config} s o ip : booted s o -> params_ok ip ->
  exists s', ipa_pm_init s (Some ip) true true = (0, s') /\ ready_memory s' o /\
    fresh_addresses s' /\ heap s' = ∅.
Proof.
  intros [Hc [He Ha] (Hr&Hq&Ht&Hw) (Hn&Ho&Hod&Hm) Hck Hmode] Hip.
  pose proof (init_shape s ip Hip He) as Hsh. destruct Hip as ((?&?)&(?&?)&_).
  unfold ipa_pm_init. rewrite Hc.
  rewrite (proj2 (Z.leb_gt (ip_threshold_size ip) 0)), (proj2 (Z.ltb_ge _ (ip_threshold_size ip))) by lia.
  rewrite (proj2 (Z.ltb_ge (ip_exception_size ip) 0)), (proj2 (Z.ltb_ge _ (ip_exception_size ip))) by lia.
  cbn [orb negb]. eexists. split; [reflexivity|]. split; [|split; [split; [done|]|done]].
  - split; try done. intros p c Hp. change (heap s !! p = Some c) in Hp. by rewrite He in Hp.
  - intros p [c Hp]. change (heap s !! p = Some c) in Hp. by rewrite He in Hp.
Qed.

(** ** Exceptions *)
Definition exceptions_shape (s : pm) (l : list ipa_pm_exception_list) : Prop :=
  length l = length (exception_list (clk_scaling s)) /\
  Forall (exception_shape (threshold_size (clk_scaling s))) l.

Lemma shape_exceptions s : pm_shape s -> exceptions_shape s (exception_list (clk_scaling s)).
Proof.
  intros Hs. split; [done|]. apply Forall_lookup. intros i e He.
  apply (ss_exception _ (sh_scaling _ Hs) (Z.of_nat i)). unfold lookupZ.
  by rewrite decide_True, Nat2Z.id by lia.
Qed.
Lemma with_exceptions_shape s l : pm_shape s -> exceptions_shape s l -> pm_shape (with_exceptions s l).
Proof.
  intros [S1 S2 S3 S4 S5 S6 [D1 D2 D3 D4 D5]] [Hlen Hl]. split; try done.
  split; cbn; unfold lengthZ in *; rewrite ?Hlen; try done.
  intros i e. by apply Forall_lookupZ.
Qed.

Section Exceptions.
Variables (h n : Z).
Hypothesis Hh : 0 <= h < IPA_PM_MAX_CLIENTS.

Lemma exception_bits e : exception_shape n e ->
  exists b, (ex_bitmask e).[ipahal_get_ep_reg_idx h] = Some b.
Proof. intros [Hb _]. apply lookupZ_in_range. rewrite Hb. by apply reg_idx_range. Qed.
Lemma exception_shape_set e i b x : exception_shape n e ->
  exception_shape n (e <| ex_pending := x |> <| ex_bitmask := (ex_bitmask e).[i <- b] |>).
Proof. intros [H1 H2]. split; [|done]. cbn. by rewrite lengthZ_updateZ. Qed.
Lemma exception_shape_pending e x : exception_shape n e -> exception_shape n (e <| ex_pending := x |>).
Proof. by intros []. Qed.

Lemma add_exceptions_total nm : forall l k, (k <= length l)%nat -> Forall (exception_shape n) l ->
  exists ret l', add_exception_loop l nm h k = Some (ret, l') /\ length l' = length l /\
    Forall (exception_shape n) l' /\ (ret = 0 \/ ret = - EPERM).
Proof.
  induction l as [|e l IH]; intros [|k] Hk Hl; cbn [add_exception_loop length] in *;
    [exists 0, []; auto|lia|exists 0, (e :: l); auto|].
  apply Forall_cons in Hl as [He Hl]. destruct (IH k) as (ret&l'&E&Hlen&Hl'&Hret); [lia|done|].
  destruct (strnstr _ _ _ && _).
  - cbn zeta. destruct (_ <? 0).
    + exists (- EPERM). eexists. split; [done|]. split; [done|]. split; [|by right].
      apply Forall_cons. split; [by do 2 apply exception_shape_pending|done].
    + destruct (exception_bits e He) as [b Hb]. change (ex_bitmask (e <| ex_pending := _ |>)) with (ex_bitmask e).
      rewrite Hb, E. cbn [mbind option_bind]. eexists ret, _. split; [done|]. split; [cbn; by rewrite Hlen|].
      split; [|done]. apply Forall_cons. split; [by apply exception_shape_set|done].
  - rewrite E. cbn [mbind option_bind]. eexists ret, _. split; [done|]. split; [cbn; by rewrite Hlen|].
    split; [|done]. apply Forall_cons. by split.
Qed.

Lemma remove_exceptions_total : forall l k, (k <= length l)%nat -> Forall (exception_shape n) l ->
  exists l', remove_exception_loop l h k = Some l' /\ length l' = length l /\
    Forall (exception_shape n) l'.
Proof.
  induction l as [|e l IH]; intros [|k] Hk Hl; cbn [remove_exception_loop length] in *;
    [exists []; auto|lia|exists (e :: l); auto|].
  apply Forall_cons in Hl as [He Hl]. destruct (IH k) as (l'&E&Hlen&Hl'); [lia|done|].
  destruct (exception_bits e He) as [b Hb]. rewrite Hb, E. cbn [mbind option_bind].
  eexists. split; [done|]. split; [cbn; by rewrite Hlen|]. apply Forall_cons. split; [|done].
  destruct (_ =? 0); [done|by apply exception_shape_set].
Qed.
End Exceptions.

(** ** Handles *)
Lemma find_open_total s nm : pm_shape s -> forall i n, Z.of_nat i < IPA_PM_MAX_CLIENTS ->
  exists r, find_open_loop s nm i n = Some r /\
    (r = - EEXIST \/ r = n \/ 1 <= r <= Z.of_nat i /\ client_at s r = Some NULL_CLIENT).
Proof.
  intros Hs. induction i as [|i IH]; intros n Hi; [exists n; auto|].
  cbn [find_open_loop]. destruct (client_at_shape s (Z.of_nat (S i)) Hs) as [E|(p&c&E&Hne&Hc&_)]; [lia|..].
  - rewrite E. cbn [mbind option_bind]. rewrite Z.eqb_refl.
    destruct (IH (Z.of_nat (S i))) as (r&Hr&Hcases); [lia|]. exists r. split; [exact Hr|].
    destruct Hcases as [->|[->|[? ?]]]; [by left|right; right; split; [lia|done]|].
    right; right; split; [lia|done].
  - rewrite E. cbn [mbind option_bind]. rewrite (proj2 (Z.eqb_neq p NULL_CLIENT)) by done.
    unfold get_client. rewrite Hc. cbn [mbind option_bind].
    destruct (_ && _); [exists (- EEXIST); auto|].
    destruct (IH n) as (r&Hr&Hcases); [lia|]. exists r. split; [exact Hr|].
    destruct Hcases as [->|[->|[? ?]]]; [by left|by right; left|right; right; split; [lia|done]].
Qed.

(** The state with a client [c] more, at the handle [h]. *)
Definition with_new_client (s : pm) (h : Z) (c : ipa_pm_client) : pm :=
  s <| clients := (clients s).[h <- next_address s] |> <| heap := <[next_address s := c]> (heap s) |>
    <| next_address := next_address s + 1 |>.

Lemma new_client_shape s h c : pm_shape s -> fresh_addresses s -> 1 <= h < IPA_PM_MAX_CLIENTS ->
  hdl c = h -> pm_shape (with_new_client s h c) /\ fresh_addresses (with_new_client s h c).
Proof.
  intros [S1 S2 S3 S4 S5 S6 S7] [Hpos Hfr] Hh Hc.
  assert (Hold : forall p, is_Some (heap s !! p) -> p <> next_address s).
  { intros p Hp. specialize (Hfr p Hp). lia. }
  split; [split; cbn; try done|split; cbn; [lia|]].
  - by rewrite lengthZ_updateZ.
  - intros h' p. rewrite lookupZ_updateZ by (rewrite S2; lia). case_decide as E.
    + intros [= <-]. right. exists c. rewrite lookup_insert_eq. split; [done|congruence].
    + intros Hp. destruct (S3 h' p Hp) as [|(d&Hd&Hdh)]; [by left|right]. exists d.
      rewrite lookup_insert_ne; [done|]. apply not_eq_sym, Hold. by eexists.
  - rewrite lookup_insert_ne by (unfold NULL_CLIENT; lia). done.
  - intros p d. destruct (decide (p = next_address s)) as [->|Hne].
    + rewrite lookup_insert_eq. intros [= <-]. lia.
    + rewrite lookup_insert_ne by done. apply S5.
  - intros p. destruct (decide (p = next_address s)) as [->|Hne]; [lia|].
    rewrite lookup_insert_ne by done. intros Hp. specialize (Hfr p Hp). lia.
Qed.

(** The client is gone again. *)
Lemma removed_client_shape s h : pm_shape s -> fresh_addresses s -> client_at s h = Some NULL_CLIENT ->
  (clients s).[h <- next_address s].[h <- NULL_CLIENT] = clients s /\
  forall c, delete (next_address s) (<[next_address s := c]> (heap s)) = heap s.
Proof.
  intros Hs [_ Hfr] Hh. split; [rewrite updateZ_updateZ_eq; by apply updateZ_id|].
  intros c. apply delete_insert_id. destruct (heap s !! next_address s) eqn:E; [|done].
  specialize (Hfr (next_address s)). rewrite E in Hfr. specialize (Hfr (ex_intro _ i eq_refl)). lia.
Qed.

(** ** Registration *)
Section Registration.
Context {C : pm_config} (Hpipes : ipa3_get_max_num_pipes <= IPA5_PIPES_NUM).

Lemma ready_change s s' o : ready_memory s o -> pm_shape s' ->
  (running s', work_list s', timers s', warned s', clk s')
  = (running s, work_list s, timers s, warned s, clk s) ->
  (forall p c, heap s' !! p = Some c -> state c = IPA_PM_DEACTIVATED) -> ready_memory s' o.
Proof. intros [] Hs [= E1 E2 E3 E4 E5] Hc. split; rewrite ?E1, ?E2, ?E3, ?E4, ?E5; done. Qed.

Lemma run_atomically {A D} (f : pm -> option (A * pm)) (k : A -> prog pm D) s a s' :
  f s = Some (a, s') -> run (prog_bind (atomically f) k) s = run (k a) s'.
Proof. intros H. cbn. by rewrite H. Qed.

(** A handle whose client exists passes the checks. *)
Lemma run_with_client s h p f : pm_shape s -> client_at s h = Some p -> p <> NULL_CLIENT ->
  run (with_client h f) s = run (f p) s.
Proof.
  intros Hs Hp Hne. pose proof (lookupZ_Some_range _ _ _ Hp) as Hr. rewrite (sh_clients _ Hs) in Hr.
  unfold with_client, checked_client. cbn [run prog_bind reads]. rewrite (sh_context _ Hs). cbn [negb].
  rewrite (proj2 (Z.leb_gt IPA_PM_MAX_CLIENTS h)) by lia. cbn [run prog_bind atomically].
  rewrite Hp. cbn [mbind option_bind]. rewrite (proj2 (Z.eqb_neq p NULL_CLIENT)) by done.
  cbn [run prog_bind atomically]. rewrite Hp. done.
Qed.

Lemma removal_shape s h p c l pipes : pm_shape s -> client_at s h = Some p -> heap s !! p = Some c ->
  exceptions_shape s l ->
  pm_shape (with_exceptions (s <| clients_by_pipe := pipes |> <| heap := delete p (heap s) |>
              <| clients := (clients s).[h <- NULL_CLIENT] |>) l).
Proof.
  intros Hs Hp Hc Hl. pose proof (lookupZ_Some_range _ _ _ Hp) as Hr.
  apply with_exceptions_shape; [|exact Hl]. destruct Hs as [S1 S2 S3 S4 S5 S6 S7]. split; cbn; try done.
  - by rewrite lengthZ_updateZ.
  - intros h' q. rewrite lookupZ_updateZ by done. case_decide as E; [intros [= <-]; by left|].
    intros Hq. destruct (S3 h' q Hq) as [|(d&Hd&Hdh)]; [by left|right]. exists d. split; [|done].
    rewrite lookup_delete_ne; [done|]. intros <-. destruct (S3 h p Hp) as [->|(d'&Hd'&?)]; congruence.
  - apply lookup_delete_None. by right.
  - intros q d Hq. apply lookup_delete_Some in Hq as [_ Hq]. by apply (S5 q).
Qed.

Lemma deregister_section_at s h p c : pm_shape s -> client_at s h = Some p -> heap s !! p = Some c ->
  exists pipes l, deregister_section h p s
    = Some (0, with_exceptions (s <| clients_by_pipe := pipes |> <| heap := delete p (heap s) |>
                <| clients := (clients s).[h <- NULL_CLIENT] |>) l) /\ exceptions_shape s l.
Proof.
  intros Hs Hp Hc. pose proof (lookupZ_Some_range _ _ _ Hp) as Hr. rewrite (sh_clients _ Hs) in Hr.
  destruct (shape_exceptions s Hs) as [_ Hex].
  assert (Hk : (Z.to_nat (exception_size (clk_scaling s)) <= length (exception_list (clk_scaling s)))%nat).
  { pose proof (ss_exceptions _ (sh_scaling _ Hs)) as H. unfold lengthZ in H. lia. }
  destruct (remove_exceptions_total h _ Hr _ _ Hk Hex) as (l&El&Hlen&Hl).
  eexists _, l. split; [|by split].
  unfold deregister_section. rewrite Hp. cbn [mbind option_bind].
  rewrite (proj2 (Z.ltb_ge _ _)) by done. cbn zeta.
  set (s1 := s <| clients_by_pipe := _ |>). change (get_client s1 p) with (heap s !! p).
  rewrite Hc. cbn [mbind option_bind]. unfold remove_client_from_exception_list.
  set (s2 := _ <| clients := _ |>). change (clk_scaling s2) with (clk_scaling s). by rewrite El.
Qed.

(** A client at rest is deregistered. *)
Lemma deregister_run s o h p c : ready_memory s o -> fresh_addresses s -> client_at s h = Some p ->
  p <> NULL_CLIENT -> heap s !! p = Some c ->
  exists s', run (ipa_pm_deregister h) s = Next (0, s') /\ ready_memory s' o /\ fresh_addresses s' /\
    heap s' = delete p (heap s) /\ clients s' = (clients s).[h <- NULL_CLIENT].
Proof.
  intros Hrd Hfr Hp Hne Hc. pose proof (rd_shape _ _ Hrd) as Hs.
  pose proof (rd_clients _ _ Hrd p c Hc) as Hst.
  destruct (deregister_section_at s h p c Hs Hp Hc) as (pipes&l&E&Hl).
  match type of E with _ = Some (_, ?x) => exists x end. split; [|split; [|split; [|split; reflexivity]]].
  - unfold ipa_pm_deregister. rewrite (run_with_client s h p) by done. unfold client_field.
    erewrite run_atomically by (unfold get_client; rewrite Hc; reflexivity). rewrite Hst.
    cbn [IPA_PM_STATE_IN_PROGRESS run prog_bind].
    erewrite run_atomically by (unfold get_client; rewrite Hc; reflexivity). rewrite Hst.
    cbn [IPA_PM_STATE_ACTIVE run prog_bind atomically]. rewrite E. reflexivity.
  - eapply (ready_change s); [exact Hrd|by eapply removal_shape|done|].
    intros q d Hq. apply (lookup_delete_Some (heap s)) in Hq as [_ Hq]. by apply (rd_clients _ _ Hrd q).
  - destruct Hfr as [H1 H2]. split; [done|]. intros q [d Hq].
    apply (lookup_delete_Some (heap s)) in Hq as [_ Hq]. apply H2. by exists d.
Qed.
Lemma set_new_client s h c c' :
  set_client (with_new_client s h c) (next_address s) c' = with_new_client s h c'.
Proof.
  unfold set_client, with_new_client, update. cbn. by rewrite insert_insert_eq.
Qed.
Lemma with_same_exceptions s : with_exceptions s (exception_list (clk_scaling s)) = s.
Proof. destruct s as [? ? ? ? ? []]. reflexivity. Qed.

(** The new client is changed. *)
Lemma run_new_client {D} s h c f (k : unit -> prog pm D) :
  run (prog_bind (on_client (next_address s) (fun c => (tt, f c))) k) (with_new_client s h c)
  = run (k tt) (with_new_client s h (f c)).
Proof.
  apply run_atomically.
  replace (get_client (with_new_client s h c) (next_address s)) with (Some c)
    by (symmetry; apply lookup_insert_eq).
  cbn [mbind option_bind]. by rewrite set_new_client.
Qed.

(** What is left when registration fails after the client was allocated. *)
Lemma give_up_run s o h c l (rc : Z) : ready_memory s o -> fresh_addresses s -> 1 <= h < IPA_PM_MAX_CLIENTS ->
  client_at s h = Some NULL_CLIENT -> hdl c = h -> state c = IPA_PM_DEACTIVATED -> exceptions_shape s l ->
  exists s', run (ipa_pm_deregister h ;; Ret (rc, h) : prog pm (Z * Z)) (with_exceptions (with_new_client s h c) l)
      = Next ((rc, h), s') /\ ready_memory s' o /\ fresh_addresses s' /\
    heap s' = heap s /\ clients s' = clients s.
Proof.
  intros Hrd Hfr Hh Hfree Hhd Hst Hl. pose proof (rd_shape _ _ Hrd) as Hs.
  destruct (new_client_shape s h c Hs Hfr Hh Hhd) as [Hs1 Hfr1].
  destruct (removed_client_shape s h Hs Hfr Hfree) as [Ecl Ehp].
  set (s1 := with_exceptions (with_new_client s h c) l).
  assert (Hrd1 : ready_memory s1 o).
  { eapply (ready_change s); [exact Hrd|by apply with_exceptions_shape|done|].
    intros p d Hd. change (<[next_address s := c]> (heap s) !! p = Some d) in Hd.
    apply lookup_insert_Some in Hd as [[_ <-]|[_ Hd]]; [done|by apply (rd_clients _ _ Hrd p)]. }
  destruct (deregister_run s1 o h (next_address s) c Hrd1 Hfr1) as (s'&E&H1&H2&H3&H4).
  - apply lookupZ_updateZ_eq. rewrite (sh_clients _ Hs). lia.
  - destruct Hfr as [Hpos _]. unfold NULL_CLIENT. lia.
  - apply lookup_insert_eq.
  - exists s'. split; [by rewrite (run_bind_next _ _ _ _ _ E)|]. split; [done|]. split; [done|].
    split; [etransitivity; [exact H3|exact (Ehp c)]|etransitivity; [exact H4|exact Ecl]].
Qed.

Lemma populate_spec h rp c : hdl (populate h rp c) = h /\ state (populate h rp c) = state c.
Proof. done. Qed.

(** A handle is found and the client allocated, or nothing changes. *)
Lemma register_section_cases s nm memory : pm_shape s ->
  (exists rc h, register_section nm memory s = Some (rc, h, s) /\ rc < 0) \/
  exists r, register_section nm memory s = Some (0, r, with_new_client s r zero_client) /\
    1 <= r < IPA_PM_MAX_CLIENTS /\ client_at s r = Some NULL_CLIENT.
Proof.
  intros Hs.
  destruct (find_open_total s nm Hs (Z.to_nat (IPA_PM_MAX_CLIENTS - 1)) (- ENOBUFS)) as (r&Er&Hcases);
    [done|].
  unfold register_section, find_next_open_array_element. rewrite Er. cbn [mbind option_bind].
  destruct (Z.ltb_spec r 0) as [Hneg|Hpos]; [left; by exists r, (u32 r)|cbn [orb]].
  destruct Hcases as [->|[->|[Hr Hfree]]]; [done..|].
  change (Z.of_nat (Z.to_nat (IPA_PM_MAX_CLIENTS - 1))) with 35 in Hr.
  assert (Hlt : 1 <= r < IPA_PM_MAX_CLIENTS) by (unfold IPA_PM_MAX_CLIENTS; lia).
  rewrite (proj2 (Z.ltb_ge _ r)) by lia.
  destruct memory; cbn [negb]; [right; exists r|left; by exists (- ENOMEM), r].
  by rewrite storeZ_Some by (rewrite (sh_clients _ Hs); lia).
Qed.

(** Registering a client at rest: a handle, or an error and nothing changes. *)
Lemma register_run s o rp memory wakeup : ready_memory s o -> fresh_addresses s ->
  exists rc h s', run (ipa_pm_register rp memory wakeup) s = Next ((rc, h), s') /\
    ready_memory s' o /\ fresh_addresses s' /\
    (rc = 0 /\ 1 <= h < IPA_PM_MAX_CLIENTS /\ client_at s h = Some NULL_CLIENT /\
       clients s' = (clients s).[h <- next_address s] /\
       heap s' = <[next_address s := populate h rp zero_client]> (heap s) \/
     rc < 0 /\ heap s' = heap s /\ clients s' = clients s).
Proof.
  intros Hrd Hfr. pose proof (rd_shape _ _ Hrd) as Hs.
  unfold ipa_pm_register. cbn [run prog_bind reads]. rewrite (sh_context _ Hs). cbn [negb].
  destruct (register_section_cases s (rp_name rp) memory Hs) as [(rc&h&Hsec&Hrc)|(r&Hsec&Hlt&Hfree)].
  { erewrite run_atomically by exact Hsec. cbn beta iota.
    rewrite (proj2 (Z.eqb_neq rc 0)) by lia. cbn [negb run].
    exists rc, h, s. do 3 (split; [done|]). right. done. }
  erewrite run_atomically by exact Hsec. cbn [Z.eqb negb].
  set (c := populate r rp zero_client).
  assert (Hat : client_at (with_new_client s r zero_client) r = Some (next_address s)).
  { apply lookupZ_updateZ_eq. rewrite (sh_clients _ Hs). lia. }
  erewrite run_atomically by (rewrite Hat; reflexivity).
  cbv beta. rewrite run_new_client. fold c. pose proof (shape_exceptions s Hs) as Hex.
  destruct wakeup; cbn [negb].
  2: { destruct (give_up_run s o r c _ (- ENOMEM) Hrd Hfr Hlt Hfree eq_refl eq_refl Hex)
         as (s'&E&H1&H2&H3&H4).
       change (exception_list (clk_scaling s)) with (exception_list (clk_scaling (with_new_client s r c))) in E.
       rewrite with_same_exceptions in E. exists (- ENOMEM), r, s'. do 3 (split; [done|]). by right. }
  cbv beta. rewrite run_new_client. change (c <| completion := false |>) with c.
  assert (Hk : (Z.to_nat (exception_size (clk_scaling s)) <= length (exception_list (clk_scaling s)))%nat).
  { pose proof (ss_exceptions _ (sh_scaling _ Hs)) as H. unfold lengthZ in H. lia. }
  assert (Hr0 : 0 <= r < IPA_PM_MAX_CLIENTS) by lia.
  destruct (add_exceptions_total r _ Hr0 (name c) _ _ Hk (proj2 Hex))
    as (ret&l&El&Hlen&Hl&Hret).
  assert (Hadd : add_client_to_exception_list (with_new_client s r c) r
    = Some (ret, with_exceptions (with_new_client s r c) l)).
  { unfold add_client_to_exception_list.
    replace (client_at (with_new_client s r c) r) with (Some (next_address s)) by (symmetry; exact Hat).
    cbn [mbind option_bind]. unfold get_client.
    replace (heap (with_new_client s r c) !! next_address s) with (Some c) by (symmetry; apply lookup_insert_eq).
    cbn [mbind option_bind]. change (clk_scaling (with_new_client s r c)) with (clk_scaling s).
    by rewrite El. }
  erewrite run_atomically by exact Hadd.
  destruct Hret as [-> | ->]; cbn [Z.eqb negb].
  - exists 0, r, (with_exceptions (with_new_client s r c) l). split; [done|].
    destruct (new_client_shape s r c Hs Hfr Hlt eq_refl) as [Hs1 Hfr1].
    split; [|split; [done|by left]].
    eapply (ready_change s); [exact Hrd|by apply with_exceptions_shape|done|].
    intros p d Hd. change (<[next_address s := c]> (heap s) !! p = Some d) in Hd.
    apply lookup_insert_Some in Hd as [[_ <-]|[_ Hd]]; [done|by apply (rd_clients _ _ Hrd p)].
  - destruct (give_up_run s o r c l (- EPERM) Hrd Hfr Hlt Hfree eq_refl eq_refl (conj Hlen Hl))
      as (s'&E&H1&H2&H3&H4).
    exists (- EPERM), r, s'. do 3 (split; [done|]). by right.
Qed.
End Registration.
