(* ===== verification/PmLive.v ===== *)
(** * The power manager: calls return

    No thread waits for ever: as long as a call is running or work is queued,
    some thread or the work queue can go on, and without new calls and timers
    there are only finitely many steps. *)
From stdpp Require Import functions.
From S2P Require Import Prelude RecordUpdate Interleave PmData PmOps PmMach PmInv PmScale PmKeeps.
From S2P Require Import PmCalls PmReach PmSafe PmReady.

(** The steps of the running calls and of the work queue. *)
Definition own_event (e : event) : bool :=
  match e with
  | EvCall _ | EvReturn _ | EvWorkBegin | EvWork | EvWorkEnd => true
  | _ => false
  end.
Definition own_step {C : pm_config} (m m' : machine) : Prop :=
  exists e, own_event e = true /\ perform e m = Some m'.
Definition quiescent (m : machine) : Prop :=
  calls m = ∅ /\ worker m = None /\ work_list (mem m) = [].

Section Live.
Context {C : pm_config}.

Lemma own_mstep ok m m' : own_step m m' -> mstep ok m m'.
Proof.
  intros (e&He&Hp). apply (perform_mstep ok (fun _ _ => false) e); [done|by destruct e|done].
Qed.

(** ** No deadlock *)
Section Progress.
Context {N : pm_constants} (no_irq : gsi_pending_irq_type = 0).

(** A thread that need not wait, or that need not wait but for the clocks. *)
Lemma thread_steps m w t c q : machine_ok w m -> calls m !! t = Some (c, q) ->
  (exists m', own_step m m') \/
  pm_waits (call_role c) (gview (call_role c) (Some t) w) (mem m).
Proof.
  intros Hm Ht. pose proof (mo_calls _ _ Hm t c _ Ht) as Hk. destruct q as [rc|B f k].
  - left. eexists. exists (EvReturn t). split; [done|]. cbn. by rewrite Ht.
  - specialize (Hk w (mem m) (mo_inv _ _ Hm) eq_refl).
    destruct (f (mem m)) as [| |[b s]] eqn:Hf; [by right|done|].
    left. eexists. exists (EvCall t). split; [done|]. cbn. by rewrite Ht, Hf.
Qed.
Lemma worker_steps m w q : machine_ok w m -> worker m = Some q ->
  (exists m', own_step m m') \/ pm_waits WorkRole (gview WorkRole None w) (mem m).
Proof.
  intros Hm Ht. pose proof (mo_worker _ _ Hm) as Hk. rewrite Ht in Hk. destruct Hk as [_ Hk].
  destruct q as [rc|B f k].
  - left. eexists. exists EvWorkEnd. split; [done|]. cbn. by rewrite Ht.
  - specialize (Hk w (mem m) (mo_inv _ _ Hm) eq_refl).
    destruct (f (mem m)) as [| |[b s]] eqn:Hf; [by right|done|].
    left. eexists. exists EvWork. split; [done|]. cbn. by rewrite Ht, Hf.
Qed.

(** The holder of the mutex goes on. *)
Lemma holder_steps m w t mp : machine_ok w m -> gmx w = Some (t, mp) -> exists m', own_step m m'.
Proof.
  intros Hm Hx. assert (Hth : thread_mutex t w = Some mp).
  { unfold thread_mutex. rewrite Hx. by rewrite decide_True. }
  destruct t as [t|].
  - destruct (calls m !! t) as [[c q]|] eqn:Ht.
    + destruct (thread_steps m w t c q Hm Ht) as [|[Hw _]]; [done|]. cbn in Hw. congruence.
    + destruct (mo_idle _ _ Hm t Ht) as (_&H&_). congruence.
  - destruct (worker m) as [q|] eqn:Hw.
    + destruct (worker_steps m w q Hm Hw) as [|[H _]]; [done|]. cbn in H. congruence.
    + pose proof (mo_worker _ _ Hm) as H. rewrite Hw in H. destruct H as (_&_&H&_). congruence.
Qed.

Lemma inv_progress m : machine_inv m -> quiescent m \/ exists m', own_step m m'.
Proof.
  intros [_ [w Hm]]. pose proof (mo_inv _ _ Hm) as Hi. pose proof (pi_clk _ _ Hi) as Hk.
  pose proof (pi_clients _ _ Hi) as Hcl.
  destruct (gmx w) as [[t mp]|] eqn:Hx; [right; by eapply holder_steps|].
  assert (Hfree : clk_mutex (clk (mem m)) = false).
  { rewrite (ci_mutex _ _ Hk), Hx. by apply bool_decide_eq_false, is_Some_None. }
  destruct (worker m) as [q|] eqn:Hw.
  { right. destruct (worker_steps m w q Hm Hw) as [|[_ [H|(p&H&_)]]]; [done|congruence|done]. }
  pose proof (mo_worker _ _ Hm) as H. rewrite Hw in H. destruct H as [Hr _].
  destruct (work_list (mem m)) as [|i l] eqn:Hl.
  2: { right. eexists. exists EvWorkBegin. split; [done|]. cbn. by rewrite Hw, Hl. }
  destruct (map_choose_or_empty (calls m)) as [(t&[c q]&Ht)|He]; [|by left].
  right. destruct (thread_steps m w t c q Hm Ht) as [|[_ [H|(p&Hp&H)]]]; [done|congruence|].
  exfalso. destruct H as [H|(Hph&cl&Hc&Hcm)]; [congruence|].
  rewrite Hp in Hph. change (gop w p = OWait) in Hph.
  pose proof (cl_ok _ _ Hcl p cl Hc) as Hok. rewrite Hph, Hcm in Hok.
  rewrite (idle_work_phase w _ p Hcl Hr) in Hok.
  assert (activation_queued (mem m) p = false) as E.
  { apply bool_decide_eq_false. rewrite Hl. set_solver. }
  rewrite E in Hok. by rewrite ok_waiting in Hok.
Qed.
End Progress.

(** ** Termination *)
Definition prog_next {A} (q q' : prog pm A) : Prop :=
  match q with Ret _ => False | Act f k => exists b, q' = k b end.

(** A call takes a step or ends. *)
Definition calls_step (cs' cs : gmap nat (call * prog pm Z)) : Prop :=
  exists t c q, cs !! t = Some (c, q) /\
    (cs' = delete t cs \/ exists q', prog_next q q' /\ cs' = <[t := (c, q')]> cs).
(** The queue begins an item, executes a part of it, ends it. *)
Definition work_step (x' x : option (prog pm unit) * list work_item) : Prop :=
  (fst x = None /\ exists i, snd x = i :: snd x' /\ fst x' = Some (work_func i)) \/
  (snd x' = snd x /\ exists q, fst x = Some q /\
     (fst x' = None \/ exists q', prog_next q q' /\ fst x' = Some q')).

Lemma calls_insert_acc q : forall c t cs, Acc calls_step cs -> cs !! t = None ->
  Acc calls_step (<[t := (c, q)]> cs).
Proof.
  induction q as [a|B f k IH]; intros c t cs Hcs; induction Hcs as [cs Hcs IHcs]; intros Hn;
    constructor; intros cs' (t'&c'&q&Hq&Hs);
    (destruct (decide (t' = t)) as [->|Hne];
     [rewrite lookup_insert_eq in Hq; injection Hq as <- <-|rewrite lookup_insert_ne in Hq by congruence]);
    destruct Hs as [->|(q'&Hnext&->)].
  - rewrite delete_insert_id by exact Hn. by constructor.
  - destruct Hnext.
  - rewrite delete_insert_ne by congruence. apply IHcs; [|by rewrite lookup_delete_ne by congruence].
    exists t', c', q. auto.
  - rewrite insert_insert_ne by congruence. apply IHcs; [|by rewrite lookup_insert_ne by congruence].
    exists t', c', q. eauto.
  - rewrite delete_insert_id by exact Hn. by constructor.
  - destruct Hnext as [b ->]. rewrite insert_insert_eq. apply IH; [by constructor|exact Hn].
  - rewrite delete_insert_ne by congruence. apply IHcs; [|by rewrite lookup_delete_ne by congruence].
    exists t', c', q. auto.
  - rewrite insert_insert_ne by congruence. apply IHcs; [|by rewrite lookup_insert_ne by congruence].
    exists t', c', q. eauto.
Qed.

Lemma calls_acc cs : Acc calls_step cs.
Proof.
  induction cs as [|t [c q] cs Hn IH] using map_ind.
  - constructor. intros cs' (t&c&q&Ht&_). by rewrite lookup_empty in Ht.
  - exact (calls_insert_acc q c t cs IH Hn).
Qed.

(** With the program of the queue, if it can be followed by the queue at rest. *)
Lemma queue_acc_prog l q : Acc work_step (None, l) -> Acc work_step (Some q, l).
Proof.
  intros Hnone. induction q as [a|B f k IHq]; constructor; intros [w' l'] [[H _]|(Hl&q&Hq&Hw)];
    cbn in *; try discriminate; injection Hq as <-; subst l'; destruct Hw as [->|(q'&Hn&->)];
    try exact Hnone.
  - destruct Hn.
  - destruct Hn as [b ->]. exact (IHq b).
Qed.

Lemma queue_acc l : forall q, Acc work_step (q, l).
Proof.
  induction l as [|i l IH].
  - assert (Hnone : Acc work_step (None, [])).
    { constructor. intros [w' l'] [(_&i&Hi&_)|(_&q&Hq&_)]; discriminate. }
    intros [q|]; [exact (queue_acc_prog _ q Hnone)|exact Hnone].
  - assert (Hnone : Acc work_step (None, i :: l)).
    { constructor. intros [w' l'] [(_&j&Hj&_)|(_&q&Hq&_)]; [|discriminate].
      cbn in Hj. injection Hj as _ <-. apply IH. }
    intros [q|]; [exact (queue_acc_prog _ q Hnone)|exact Hnone].
Qed.

(** What a step does to calls and queue. *)
Lemma own_step_cases m m' : steady m -> own_step m m' -> calls_step (calls m') (calls m) \/
  calls m' = calls m /\ work_step (worker m', work_list (mem m')) (worker m, work_list (mem m)).
Proof.
  intros [_ Hst] (e&He&Hp). destruct e as [t c|t|t| | | |p|busy tag]; try done; cbn in Hp.
  - left. destruct (calls m !! t) as [[c [a|B f k]]|] eqn:Ht; try done.
    destruct (f (mem m)) as [| |[b s]] eqn:Hf; try done. injection Hp as <-.
    exists t, c, (Act f k). split; [done|]. right. exists (k b). split; [by exists b|done].
  - left. destruct (calls m !! t) as [[c [a|B f k]]|] eqn:Ht; try done.
    injection Hp as <-. exists t, c, (Ret a). auto.
  - right. destruct (worker m) eqn:Hw; [done|]. destruct (work_list (mem m)) as [|i l] eqn:Hl; [done|].
    injection Hp as <-. split; [done|]. left. split; [done|]. by exists i.
  - right. destruct (worker m) as [[a|B f k]|] eqn:Hw; try done.
    destruct (f (mem m)) as [| |[b s]] eqn:Hf; try done. injection Hp as <-. split; [done|].
    right. destruct (Hst _ eq_refl) as [H _]. destruct (H _ _ _ Hf) as [_ Hl].
    split; [by apply Hl|]. exists (Act f k). split; [done|]. right. exists (k b). split; [by exists b|done].
  - right. destruct (worker m) as [[a|B f k]|] eqn:Hw; try done. injection Hp as <-. split; [done|].
    right. split; [done|]. exists (Ret a). auto.
Qed.

Lemma own_steady m m' : steady m -> own_step m m' -> steady m'.
Proof. intros Hs Ho. eapply (step_steady m); [done|by apply own_mstep]. Qed.

Lemma steady_terminates_from cs : Acc calls_step cs -> forall x, Acc work_step x ->
  forall m, steady m -> calls m = cs -> (worker m, work_list (mem m)) = x ->
  Acc (fun m2 m1 => own_step m1 m2) m.
Proof.
  intros Hcs. induction Hcs as [cs _ IHc]. intros x Hx. induction Hx as [x _ IHq].
  intros m Hs Ecs Ex. constructor. intros m' Hown. pose proof (own_steady m m' Hs Hown) as Hs'.
  destruct (own_step_cases m m' Hs Hown) as [Hc|[Hc Hq]].
  - rewrite Ecs in Hc. exact (IHc _ Hc _ (queue_acc _ _) m' Hs' eq_refl eq_refl).
  - rewrite Ex in Hq. refine (IHq _ Hq m' Hs' _ eq_refl). by rewrite Hc.
Qed.

Lemma steady_terminates m : steady m -> Acc (fun m2 m1 => own_step m1 m2) m.
Proof.
  intros Hs. exact (steady_terminates_from _ (calls_acc _) _ (queue_acc _ _) m Hs eq_refl eq_refl).
Qed.

(** ** Calls return *)
Section Quiesces.
Context {N : pm_constants} (no_irq : gsi_pending_irq_type = 0).

Lemma own_inv m m' : machine_inv m -> rtc own_step m m' -> machine_inv m'.
Proof.
  intros Hi Hr. induction Hr as [|m m1 m' Hs _ IH]; [done|]. apply IH, (step_inv no_irq m); [done|].
  by apply own_mstep.
Qed.

Lemma inv_quiesces m : machine_inv m -> exists m', rtc own_step m m' /\ quiescent m'.
Proof.
  intros Hi. pose proof Hi as [Hs _]. induction (steady_terminates m Hs) as [m _ IH].
  destruct (inv_progress no_irq m Hi) as [Hq|[m1 H1]]; [by exists m|].
  assert (Hi1 : machine_inv m1) by (apply (step_inv no_irq m); [done|by apply own_mstep]).
  destruct (IH m1 H1 Hi1 (proj1 Hi1)) as (m'&Hr&Hq). exists m'. split; [|done]. by eapply rtc_l.
Qed.
End Quiesces.
End Live.
