(* ===== verification/PmDemo.v ===== *)
(** * The power manager: concrete runs

    A platform with four clock plans, two registered clients, and schedules of
    their calls. *)
From S2P Require Import Prelude RecordUpdate Interleave PmData PmOps PmMach PmInv PmSafe PmReady.
From S2P Require Import PmReach PmLive PmScale.

Definition demo_config : pm_config :=
  Build_pm_config 0 60 100 200 300 true true 0 36 (fun x => x) (fun x => x).
Definition demo_clocks : clk_state :=
  Build_clk_state 0 false 0 1 60 false false false false false 0 0 false.
Definition demo_boot : pm :=
  Build_pm false [] [] 0 [] (Build_clk_scaling_db [] [] 0 0 0 [] NullThreshold) ∅ 1 [] None [] []
    false (0, 0) (0, 0) demo_clocks.
(** The default thresholds, and others while the client "USB" is active. *)
Definition demo_params : ipa_pm_init_params :=
  Build_ipa_pm_init_params [600; 1000] 2 [Build_ipa_pm_exception "USB" [1000; 1800]] 1.
Definition demo_client (nm : string) : ipa_pm_register_params :=
  Build_ipa_pm_register_params nm IPA_PM_GROUP_DEFAULT false (Some 7).

Definition state_of {A : Type} (o : outcome (A * pm)) : pm :=
  match o with Next (_, s) => s | _ => demo_boot end.

Section Demo.
#[local] Existing Instance demo_config.

Lemma demo_no_irq : gsi_pending_irq_type = 0.
Proof. reflexivity. Qed.

Definition demo_init : pm := snd (ipa_pm_init demo_boot (Some demo_params) true true).
Definition demo_one : pm := Eval vm_compute in
  state_of (run (ipa_pm_register (demo_client "USB") true true) demo_init).
Definition demo_two : pm := Eval vm_compute in
  state_of (run (ipa_pm_register (demo_client "WLAN") true true) demo_one).
Definition demo_machine : machine := Build_machine demo_two ∅ None 0.

Lemma demo_booted : booted demo_boot 0.
Proof. split; try done; try lia. by left. Qed.
Lemma demo_params_ok : params_ok demo_params.
Proof.
  unfold params_ok, IPA_PM_THRESHOLD_MAX, IPA_PM_EXCEPTION_MAX, lengthZ. cbn.
  repeat split; try lia. repeat constructor. unfold lengthZ. cbn. lia.
Qed.

Lemma demo_ready : ready demo_machine.
Proof.
  destruct (init_ready demo_boot 0 demo_params demo_booted demo_params_ok) as (s&E&H1&H2&_).
  assert (s = demo_init) as -> by (unfold demo_init; by rewrite E).
  assert (Hp : ipa3_get_max_num_pipes <= IPA5_PIPES_NUM) by done.
  destruct (register_run Hp demo_init 0 (demo_client "USB") true true H1 H2) as (rc&h&s&E1&H3&H4&_).
  assert (s = demo_one) as ->.
  { apply (f_equal state_of) in E1. cbn [state_of] in E1. rewrite <- E1. vm_compute. reflexivity. }
  destruct (register_run Hp demo_one 0 (demo_client "WLAN") true true H3 H4) as (rc'&h'&s&E2&H5&H6&_).
  assert (s = demo_two) as ->.
  { apply (f_equal state_of) in E2. cbn [state_of] in E2. rewrite <- E2. vm_compute. reflexivity. }
  by split.
Qed.

(** A whole call in the thread [t]: [n] steps. *)
Definition whole_call (t : nat) (c : call) (n : nat) : list event :=
  EvBegin t c :: replicate n (EvCall t) ++ [EvReturn t].
(** An item of the work queue. *)
Definition whole_work (n : nat) : list event := EvWorkBegin :: replicate n EvWork ++ [EvWorkEnd].

(** Two calls set the clocks at the same time: the first is stopped between its choice of a plan and the
    change of the clocks, where the second overtakes it. *)
Definition demo_setup : list event :=
  whole_call 0 (SetThroughput 1 2000) 4 ++ whole_call 0 (SetThroughput 2 500) 4 ++
  whole_call 0 (ActivateSync 1) 22 ++ whole_call 0 (ActivateSync 2) 14.
Definition demo_overtaken : list event :=
  demo_setup ++ EvBegin 0 (SetThroughput 2 1200) :: replicate 13 (EvCall 0) ++
  whole_call 1 (SetThroughput 2 2000) 16 ++ replicate 3 (EvCall 0) ++ [EvReturn 0%nat].

Definition demo_run (l : list event) : machine :=
  match schedule permittedb l demo_machine with Some m => m | None => demo_machine end.
Lemma demo_run_reached l : reached demo_machine (demo_run l).
Proof.
  split; [apply demo_ready|]. unfold demo_run. destruct (schedule permittedb l demo_machine) as [m|] eqn:E.
  - by apply (schedule_reaches permitted permittedb l permittedb_sound).
  - apply rtc_refl.
Qed.
Lemma demo_run_shape l : pm_shape (mem (demo_run l)).
Proof.
  destruct (reached_inv _ _ demo_no_irq (demo_run_reached l)) as [_ [w Hm]].
  exact (pi_shape _ _ (mo_inv _ _ Hm)).
Qed.

(** The activation of a client is queued; when it has made the client active and has not yet signalled its
    completion, the client is deactivated and activated again; the late completion lets the next
    deactivation pass before the second activation has voted. *)
Definition demo_late_completion : list event :=
  whole_call 0 (Activate 1) 4 ++ EvWorkBegin :: replicate 9 EvWork ++
  whole_call 0 (DeactivateSync 1) 27 ++ whole_call 0 (Activate 1) 4 ++
  EvWork :: EvBegin 0 (DeactivateSync 1) :: replicate 9 (EvCall 0%nat).

(** A queued activation ends in a deactivation; its completion lets [ipa_pm_deregister] free the client it
    still works on. *)
Definition demo_early_free : list event :=
  whole_call 0 (Activate 1) 4 ++ whole_call 0 (DeferredDeactivate 1) 4 ++
  EvWorkBegin :: replicate 10 EvWork ++ whole_call 0 (Deregister 1) 6.

(** The next action of the call in thread 0, or of the work queue, is undefined. *)
Definition call_crashes (m : machine) : bool :=
  match calls m !! 0%nat with
  | Some (_, Act f _) => match f (mem m) with Undef => true | _ => false end
  | _ => false
  end.
Definition work_crashes (m : machine) : bool :=
  match worker m with
  | Some (Act f _) => match f (mem m) with Undef => true | _ => false end
  | _ => false
  end.
Lemma call_crashes_sound m : call_crashes m = true -> crashes m.
Proof.
  unfold call_crashes. destruct (calls m !! 0%nat) as [[c [|B f k]]|] eqn:E; try done.
  destruct (f (mem m)) eqn:Ef; try done. left. by exists 0%nat, c, B, f, k.
Qed.
Lemma work_crashes_sound m : work_crashes m = true -> crashes m.
Proof.
  unfold work_crashes. destruct (worker m) as [[|B f k]|] eqn:E; try done.
  destruct (f (mem m)) eqn:Ef; try done. right. by exists B, f, k.
Qed.
(** A schedule of serialised calls leads to a state with the property [b]. *)
Lemma serialised_run l (b : machine -> bool) :
  match schedule serialisedb l demo_machine with Some m => b m | None => false end = true ->
  exists m, rtc (mstep serialised) demo_machine m /\ b m = true.
Proof.
  destruct (schedule serialisedb l demo_machine) as [m|] eqn:E; [|done]. intros Hb. exists m.
  split; [|done]. by apply (schedule_reaches serialised serialisedb l serialisedb_sound).
Qed.
End Demo.
