(* ===== verification/PmTheorems.v ===== *)
(** * Theorems: the power manager

    What callers of the power manager may rely on, when their calls are made as
    [permitted] says, and what happens when they are not. *)
From stdpp Require Import functions.
From S2P Require Import Prelude RecordUpdate Interleave PmData PmOps PmMach PmInv PmScale PmSafe.
From S2P Require Import PmReady PmLive PmDemo.

Section Theorems.
Context {C : pm_config}.

(** C3: Under a discipline of its callers the kernel never stops in the power manager. Calls are
    made as [permitted] says: the calls made for one client do not overlap, a client does not
    activate while its last activation is in progress or still executed by the work queue,
    handles are those of registered clients, and no client is deregistered nor all clients
    deactivated meanwhile; and no interrupt of the GSI is pending when the clocks are switched
    off. Then, from a manager at rest, in every interleaving of such calls in any number of
    threads with the work queue, the timers and other users of the clocks, no action is
    undefined (no access to a freed client, no [BUG], no index out of bounds) and no unexpected
    state is warned of. C21 and C28 are crashes outside of the discipline. *)
Theorem pm_never_crashes m0 m : gsi_pending_irq_type = 0 -> reached m0 m ->
  ~ crashes m /\ warned (mem m) = false.
Proof. intros Hirq Hr. exact (inv_no_crash m (reached_inv m0 m Hirq Hr)). Qed.

(** C4: Clock votes are conserved under the discipline [permitted] of C3 (calls for one client do
    not overlap, no activation while the last one is in progress, no deregistration among other
    calls) and with no interrupt of the GSI pending: in every state such calls reach, when no
    call is running and the work queue executes nothing, the counter of votes is exactly the
    votes of other drivers, those to be given back by deferred work, and one for each active
    client that votes. C21 shows that calls which only do not overlap can give a vote back
    twice. *)
Theorem pm_votes_balanced m0 m : gsi_pending_irq_type = 0 -> reached m0 m -> calls m = ∅ -> worker m = None ->
  cnt (clk (mem m)) = others m + owed (clk (mem m)) + Z.of_nat (size (voters (mem m))).
Proof. intros Hirq Hr. exact (inv_balance m (reached_inv m0 m Hirq Hr)). Qed.

(** C5: Calls made under the discipline [permitted] of C3, with no interrupt of the GSI pending,
    return: in every state they reach, the running calls and the queued work take only finitely
    many steps unless a new call begins or a timer expires, and as long as not all have ended,
    one of them can take a step, so that no thread waits for ever for the mutex, a completion or
    the end of work. (Calls that overlap for one client, such as a synchronous activation and
    deactivation, are not covered.) *)
Theorem pm_calls_return m0 m : gsi_pending_irq_type = 0 -> reached m0 m ->
  Acc (fun m2 m1 => own_step m1 m2) m /\
  forall m', rtc own_step m m' -> quiescent m' \/ exists m'', own_step m' m''.
Proof.
  intros Hirq Hr. pose proof (reached_inv m0 m Hirq Hr) as Hi. split.
  - apply steady_terminates, Hi.
  - intros m' Hm'. exact (inv_progress Hirq m' (own_inv Hirq m m' Hi Hm')).
Qed.

(** C13: In every state reached by calls made under the discipline [permitted] of C3, with no
    interrupt of the GSI pending: while another driver holds a vote, or a client that votes is
    active and no call is being made for it, the counter of votes is positive and the clocks are
    on. *)
Theorem pm_clock_on_when_needed m0 m : gsi_pending_irq_type = 0 -> reached m0 m -> needs_clock m ->
  0 < cnt (clk (mem m)) /\ clock_up (clk (mem m)).
Proof. intros Hirq Hr. exact (inv_clock_up m (reached_inv m0 m Hirq Hr)). Qed.

(** C20: With thresholds and exceptions within their bounds, [ipa_pm_init] and any registrations,
    none of them among running calls, lead to a manager at rest: a registration returns a free
    handle whose client is deactivated and has the name, group and callback asked for, or an
    error that leaves the clients as they were. *)
Theorem pm_registration s o ip : booted s o -> params_ok ip -> ipa3_get_max_num_pipes <= IPA5_PIPES_NUM ->
  exists s0, ipa_pm_init s (Some ip) true true = (0, s0) /\ ready_memory s0 o /\ fresh_addresses s0 /\
  forall s1, ready_memory s1 o -> fresh_addresses s1 -> forall rp memory wakeup,
  exists rc h s2, run (ipa_pm_register rp memory wakeup) s1 = Next ((rc, h), s2) /\
    ready_memory s2 o /\ fresh_addresses s2 /\
    (rc = 0 /\ 1 <= h < IPA_PM_MAX_CLIENTS /\ client_at s1 h = Some NULL_CLIENT /\
       clients s2 = (clients s1).[h <- next_address s1] /\
       heap s2 = <[next_address s1 := populate h rp zero_client]> (heap s1) \/
     rc < 0 /\ heap s2 = heap s1 /\ clients s2 = clients s1).
Proof.
  intros Hb Hip Hpipes. destruct (init_ready s o ip Hb Hip) as (s0&E&H1&H2&_).
  exists s0. do 3 (split; [done|]). intros s1 Hr Hf rp memory wakeup. by apply register_run.
Qed.

(** C14: [calculate_throughput], for demands that are not negative and whose sum is below 2^31: the
    two largest demands are replaced by their difference, and the smaller is added, until one is
    left. The result does not depend on the order of clients; with what is left it accounts for
    the sum of the demands, what is left being at most the largest demand; and one demand that
    exceeds all others together leaves the sum of the others. *)
Theorem pm_aggregated_throughput s : pm_shape s -> Forall (fun x => 0 <= x) (active_demands s) ->
  sumZ (active_demands s) < 2 ^ 31 ->
  exists a r, calculate_throughput s = Some a /\ 2 * a + r = sumZ (active_demands s) /\
    0 <= a /\ 0 <= r /\
    (forall m, Forall (fun x => x <= m) (active_demands s) -> 0 <= m -> r <= m) /\
    (forall m l, active_demands s ≡ₚ m :: l -> sumZ l <= m -> a = sumZ l) /\
    (forall s', pm_shape s' -> active_demands s' ≡ₚ active_demands s -> calculate_throughput s' = Some a).
Proof.
  intros Hs Hn Hlt. destruct (calculate_throughput_spec s Hs Hn Hlt) as (a&r&E&Ha).
  exists a, r. destruct (aggregates_rest _ _ _ Ha Hn) as (H1&H2&H3).
  split; [done|]. split; [by apply aggregates_sum|]. do 3 (split; [done|]). split.
  - intros m l Hp. apply (aggregates_dominant m l a r); [by eapply aggregates_perm|].
    rewrite Hp in Hn. by apply Forall_cons in Hn as [_ ?].
  - intros s' Hs' Hp. destruct (calculate_throughput_spec s' Hs') as (a'&r'&E'&Ha').
    + by rewrite Hp.
    + by rewrite Hp.
    + rewrite E'. f_equal. by apply (aggregates_unique _ _ _ Ha' _ _ _ Ha).
Qed.

(** C27: [do_clk_scaling] run alone. With the clocks gated it does nothing. With the clocks on, the
    thresholds of the first exception that applies are selected, else the default ones; the plan
    wanted is one more than the number of thresholds the aggregated throughput reaches and
    becomes the current one. When it already was, the clocks stay as they are. Otherwise the
    clock rate, and with a new rate the bus vote, are those of the plan, if scaling is enabled,
    the hardware is in a regular mode and the plan is one of the four; with scaling disabled
    only the index of the bus vote is stored; else the clocks stay as they are. *)
Theorem pm_scaling s : pm_shape s -> 0 <= threshold_size (clk_scaling s) ->
  0 <= exception_size (clk_scaling s) -> clk_mutex (clk s) = false ->
  (ipa_clk_vote (clk s) = 0 -> run do_clk_scaling s = Next (tt, s)) /\
  (ipa_clk_vote (clk s) <> 0 ->
   exists tput th, calculate_throughput s = Some tput /\ selected (clk_scaling s) th /\
    let s1 := thresholds_set s tput th in
    let plan := wanted_plan (clk_scaling s1) tput in
    let s2 := scaled s1 plan in
    1 <= plan <= 1 + threshold_size (clk_scaling s) /\
    run do_clk_scaling s = Next (tt, s2) /\
    cur_vote (clk_scaling s2) = plan /\
    (plan = cur_vote (clk_scaling s) -> clk s2 = clk s) /\
    (plan <> cur_vote (clk_scaling s) ->
       if enable_clock_scaling then
         if IPA_IS_REGULAR_CLK_MODE ipa3_hw_mode && (plan <=? 4) then
           curr_ipa_clk_rate (clk s2) = plan_rate plan /\
           (plan_rate plan <> curr_ipa_clk_rate (clk s) -> bus_vote_idx (clk s2) = plan)
         else clk s2 = clk s
       else clk s2 = clk s <| bus_vote_idx := plan |>)).
Proof.
  intros Hs Hn Hex Hm. split; [by apply scaling_gated|]. intros Hv.
  destruct (scaling_run s Hs Hn Hex Hv Hm) as (tput&th&Ht&Hsel&Hrun).
  exists tput, th. do 2 (split; [done|]). intros s1 plan s2.
  assert (Hp : 1 <= plan <= 1 + threshold_size (clk_scaling s))
    by by apply (wanted_plan_range (clk_scaling (thresholds_set s tput th))).
  split; [done|]. split; [exact Hrun|]. exact (scaled_outcome s1 plan (proj1 Hp)).
Qed.

(** C29: An exception for several clients never applies: [pending] starts at the number of its clients,
    and registering a client whose name has no comma leaves it as it is; with clients pending, an exception
    does not apply. *)
Theorem pm_several_clients_no_exception s h c ret s' i e :
  client_at s h ≫= get_client s = Some c -> count_commas (name c) = 0 ->
  add_client_to_exception_list s h = Some (ret, s') ->
  (exception_list (clk_scaling s)).[i] = Some e -> 0 < count_commas (ex_clients e) ->
  (forall ip x, ex_pending (init_exception ip x) = 1 + count_commas (ex_clients (init_exception ip x))) /\
  (exception_list (clk_scaling s')).[i] = Some e /\
  forall d b, ex_pending e <> 0 -> exception_applies d e = Some b -> b = false.
Proof.
  intros Hc Hname Hadd He Hcommas. split; [|split].
  - intros ip x. cbn. lia.
  - unfold add_client_to_exception_list in Hadd. destruct (client_at s h) as [p|]; [|done].
    cbn [mbind option_bind] in Hc, Hadd. rewrite Hc in Hadd. cbn [mbind option_bind] in Hadd.
    destruct (add_exception_loop _ _ _ _) as [[r l]|] eqn:E; [|done]. injection Hadd as _ <-.
    eapply add_exception_other; [exact E|exact He|by apply commas_in_name].
  - intros d b Hp Hb. unfold exception_applies in Hb.
    destruct (ex_bitmask e).[0], (ex_bitmask e).[1], (active_client_bitmask d).[0],
      (active_client_bitmask d).[1]; cbn in Hb; try done. injection Hb as <-.
    by rewrite (proj2 (Z.eqb_neq _ _) Hp).
Qed.
End Theorems.

(** ** When calls are made otherwise, and what interleaving can do *)
Section Runs.
#[local] Existing Instance demo_config.

(** C21: That calls for a client do not overlap is not enough: a client that deactivates and activates
    again, while the work of its first activation has not yet signalled completion, makes
    [ipa_pm_deactivate_sync] give back a vote that nobody holds, which is a [BUG]. *)
Theorem pm_late_completion_crash : exists m, ready demo_machine /\
  rtc (mstep serialised) demo_machine m /\ crashes m /\
  cnt (clk (mem m)) = 0 /\ voters (mem m) = ∅ /\
  exists q, calls m !! 0%nat = Some (DeactivateSync 1, q).
Proof.
  destruct (serialised_run demo_late_completion (fun m => call_crashes m && (cnt (clk (mem m)) =? 0)
    && bool_decide (voters (mem m) = ∅)
    && match calls m !! 0%nat with Some (DeactivateSync h, _) => h =? 1 | _ => false end)) as (m&Hm&Hb).
  { vm_compute. reflexivity. }
  rewrite !andb_true_iff in Hb. destruct Hb as [[[H1 H2] H3] H4]. exists m.
  split; [apply demo_ready|]. split; [done|]. split; [by apply call_crashes_sound|].
  split; [by apply Z.eqb_eq|]. split; [by apply bool_decide_eq_true in H3|].
  destruct (calls m !! 0%nat) as [[[] q]|]; try done. apply Z.eqb_eq in H4. subst. by exists q.
Qed.

(** C28: [ipa_pm_deregister] frees the client when its activation has signalled completion, while the work
    queue still uses it. *)
Theorem pm_early_free_crash : exists m, ready demo_machine /\
  rtc (mstep serialised) demo_machine m /\ calls m = ∅ /\ crashes m /\
  running (mem m) = Some (ActivateWork 1) /\ heap (mem m) !! 1 = None.
Proof.
  destruct (serialised_run demo_early_free (fun m => work_crashes m && bool_decide (dom (calls m) = ∅)
    && bool_decide (running (mem m) = Some (ActivateWork 1))
    && match heap (mem m) !! 1 with None => true | _ => false end)) as (m&Hm&Hb).
  { vm_compute. reflexivity. }
  rewrite !andb_true_iff in Hb. destruct Hb as [[[H1 H2] H3] H4]. exists m.
  split; [apply demo_ready|]. split; [done|].
  split; [apply bool_decide_eq_true in H2; by apply dom_empty_inv_L in H2|].
  split; [by apply work_crashes_sound|].
  split; [by apply bool_decide_eq_true in H3|by destruct (heap (mem m) !! 1)].
Qed.

(** C22: Clock scaling that is overtaken leaves the clocks at a plan that is too slow, and nothing corrects
    it: the manager takes the faster plan for the current one. *)
Theorem pm_overtaken_scaling_too_slow : exists m, reached demo_machine m /\ quiescent m /\
  cur_vote (clk_scaling (mem m)) = 3 /\ bus_vote_idx (clk (mem m)) = 2 /\
  curr_ipa_clk_rate (clk (mem m)) = plan_rate 2 /\
  exists s, run do_clk_scaling (mem m) = Next (tt, s) /\ clk s = clk (mem m).
Proof.
  exists (demo_run demo_overtaken). split; [apply demo_run_reached|].
  split; [by repeat split; vm_compute|]. do 3 (split; [vm_compute; reflexivity|]).
  eexists. split; vm_compute; reflexivity.
Qed.

(** ** The theorems at concrete runs *)
Lemma pm_never_crashes_witness :
  ~ crashes (demo_run demo_overtaken) /\ warned (mem (demo_run demo_overtaken)) = false.
Proof. exact (pm_never_crashes demo_machine _ demo_no_irq (demo_run_reached _)). Defined.

Lemma pm_votes_balanced_witness : cnt (clk (mem (demo_run demo_setup)))
  = others (demo_run demo_setup) + owed (clk (mem (demo_run demo_setup)))
    + Z.of_nat (size (voters (mem (demo_run demo_setup)))).
Proof.
  apply (pm_votes_balanced demo_machine _ demo_no_irq (demo_run_reached _)); vm_compute; reflexivity.
Defined.

Lemma pm_calls_return_witness :
  Acc (fun m2 m1 => own_step m1 m2) (demo_run demo_setup) /\
  forall m', rtc own_step (demo_run demo_setup) m' -> quiescent m' \/ exists m'', own_step m' m''.
Proof. exact (pm_calls_return demo_machine _ demo_no_irq (demo_run_reached _)). Defined.

Lemma pm_clock_on_when_needed_witness :
  0 < cnt (clk (mem (demo_run demo_setup))) /\ clock_up (clk (mem (demo_run demo_setup))).
Proof.
  apply (pm_clock_on_when_needed demo_machine _ demo_no_irq (demo_run_reached _)). right. exists 1.
  eexists. split; [vm_compute; reflexivity|]. split; [reflexivity|].
  assert (calls (demo_run demo_setup) = ∅) as -> by (vm_compute; reflexivity). intros t c q. done.
Defined.

Lemma pm_registration_witness : exists s0, ipa_pm_init demo_boot (Some demo_params) true true = (0, s0) /\
  ready_memory s0 0.
Proof.
  destruct (pm_registration demo_boot 0 demo_params demo_booted demo_params_ok) as (s0&H1&H2&_); [done|].
  exists s0. split; [exact H1|exact H2].
Defined.

Lemma pm_aggregated_throughput_witness :
  exists a r, calculate_throughput (mem (demo_run demo_setup)) = Some a /\
    2 * a + r = sumZ (active_demands (mem (demo_run demo_setup))).
Proof.
  destruct (pm_aggregated_throughput (mem (demo_run demo_setup)) (demo_run_shape _)) as (a&r&H1&H2&_).
  - assert (active_demands (mem (demo_run demo_setup)) = [2000; 500]) as -> by (vm_compute; reflexivity).
    repeat constructor; lia.
  - vm_compute. reflexivity.
  - exists a, r. split; [exact H1|exact H2].
Defined.

Lemma pm_scaling_witness : exists tput th,
  calculate_throughput (mem (demo_run demo_overtaken)) = Some tput /\
  selected (clk_scaling (mem (demo_run demo_overtaken))) th.
Proof.
  assert (threshold_size (clk_scaling (mem (demo_run demo_overtaken))) = 2) as E1 by (vm_compute; reflexivity).
  assert (exception_size (clk_scaling (mem (demo_run demo_overtaken))) = 1) as E2 by (vm_compute; reflexivity).
  assert (ipa_clk_vote (clk (mem (demo_run demo_overtaken))) = 1) as E3 by (vm_compute; reflexivity).
  assert (clk_mutex (clk (mem (demo_run demo_overtaken))) = false) as E4 by (vm_compute; reflexivity).
  destruct (pm_scaling (mem (demo_run demo_overtaken)) (demo_run_shape _)) as [_ H]; [lia|lia|exact E4|].
  destruct H as (tput&th&H1&H2&_); [lia|].
  exists tput, th. split; [exact H1|exact H2].
Defined.

(** An exception for two clients, and one of them registers. *)
Lemma pm_several_clients_no_exception_witness : exists e s ret s',
  e = init_exception demo_params (Build_ipa_pm_exception "USB,WLAN" [700; 1500]) /\
  s = with_exceptions demo_two [e] /\ add_client_to_exception_list s 1 = Some (ret, s') /\
  (exception_list (clk_scaling s')).[0] = Some e /\
  forall d b, exception_applies d e = Some b -> b = false.
Proof.
  assert (H : client_at demo_two 1 ≫= get_client demo_two
    = Some (populate 1 (demo_client "USB") zero_client)) by (vm_compute; reflexivity).
  set (e := init_exception demo_params (Build_ipa_pm_exception "USB,WLAN" [700; 1500])).
  set (s := with_exceptions demo_two [e]).
  assert (Hadd : exists ret s', add_client_to_exception_list s 1 = Some (ret, s'))
    by (eexists _, _; vm_compute; reflexivity).
  destruct Hadd as (ret&s'&Hadd).
  destruct (pm_several_clients_no_exception s 1 (populate 1 (demo_client "USB") zero_client) ret s' 0 e)
    as (_&He&Hno); [exact H|reflexivity|exact Hadd|reflexivity|reflexivity|].
  exists e, s, ret, s'. split; [reflexivity|]. split; [reflexivity|]. split; [exact Hadd|].
  split; [exact He|]. intros d b. apply Hno. vm_compute. discriminate.
Defined.
End Runs.
